(* ===== verification/_CoqProject ===== *)
-Q . S2P
Prelude.v
Records.v
Errno.v
Util.v
Text.v
Buff.v
Messages.v
Serialize.v
Hash.v
Base58.v
BtcMessage.v
Script.v
Gcs.v
Hashtable.v
Objects.v
Files.v
Config.v
ConfigMap.v
Circlist.v
Poll.v
PollInv.v
PollTime.v
PollSafe.v
Netasync.v
NetSend.v
NetConnect.v
AddrBook.v
CfHeaderStore.v
PeerStats.v
Key.v
Crypt.v
WalletKeys.v
WalletFile.v
WalletReload.v
WalletAdd.v
BlockStore.v
BlockChain.v
Txdb.v
Coins.v
Ledger.v
Spending.v
TxStore.v
Restart.v
Wallet.v
WalletScripts.v
WalletTakes.v
Peers.v
PeerGroup.v
Sync.v
PeerFrame.v
PeerSend.v
ScanInv.v
ScanRun.v
CfScan.v
CfWallet.v
ScanSafe.v
PeerLink.v
PeerMsg.v
PeerEnds.v
PeerWire.v
