(* ===== verification/Prelude.v ===== *)
(** * bitc: a verification of a thin SPV bitcoin client

    bitc keeps a chain of block headers, a wallet and the transactions that pay it
    or that it makes. It asks its peers for headers, then for the compact filters
    of the blocks (BIP157, BIP158), matches them with the scripts of the wallet,
    and asks for the blocks that match. This development models the C code under
    src/core and src/lib and proves what makes its parts right, and where they are
    not right what they do.

    ** How the code is read

    A function of C is a definition of the same name. [res A] is its outcome: a
    value, [Panic] (an ASSERT or Panic() that stops the process) or [UB] (an access
    outside an object, a NULL or freed pointer, an overflow of a signed integer).
    [ST S A] is code that reads and writes a state [S]. Integers are in [Z]:
    unsigned ones wrap ([wrap32], [wrap64]), signed ones that overflow are [UB]
    ([i32], [i64]). An [int] status is a [bool], [true] for an error. A struct is a
    record; one that is reached through several pointers is an object in a heap
    ([gmap positive]), a pointer an address in it, NULL is [None]. What the system
    answers (reads and writes that are short or fail, the clock, random numbers,
    connections) is an argument: theorems hold for any answers. Log lines, locks,
    the freeing of memory that nothing uses any more and failures of malloc, which
    stop the process, are left out.

    Code outside the repository is a class, with its documented behaviour as laws:
    [Malloc] (the bytes malloc leaves, the order qsort gives to equals), [Sha256],
    [BigNum], [Secp256k1] and [EvpCipher] (OpenSSL), [LevelDb]. The other classes
    are interfaces between parts of the program, with the part that implements
    them: [Table] (Hashtable.v, [hashtable_Table]), [KeyRing] and [WalletApi], what
    the scripts and the transaction database need of the wallet (Wallet.v,
    [wallet_api]), and [PgWallet], what the peers need of it (CfWallet.v,
    [program_wallet]). The theorems of a client are for any implementation. Every
    class has an instance that can be evaluated, which the examples use.

    ** The files, in order

    Foundations. Prelude.v: outcomes, monads, integers, lists. Records.v:
    assignments to fields. Errno.v: error numbers. Util.v: lib/util. Text.v: what
    is used of printf, scanf and strings. Objects.v: tables of objects.

    Data. Buff.v: core/buff.h. Messages.v: the records of core/bitc-defs.h.
    Serialize.v: core/serialize.c. Hash.v: core/hash.c, core/ripemd160.c and
    MurmurHash3. Base58.v: core/base58.c. BtcMessage.v: core/btc-message.c.
    Script.v: core/script.c. Gcs.v: core/gcs.c.

    Containers and files. Hashtable.v: lib/hashtable. Circlist.v: core/circlist.h.
    Files.v: lib/file and the system calls. Config.v, ConfigMap.v: lib/config.
    AddrBook.v: core/addrbook.c. CfHeaderStore.v: core/cfheader-store.c.
    PeerStats.v: core/peerstats.c.

    The event loop. Poll.v: lib/poll. PollInv.v: its invariant. PollTime.v: the
    number of timers due. PollSafe.v: the loop keeps the invariant, timers end.

    Sockets. Netasync.v: lib/netasync, one socket with its queue of buffers, its
    reader, its timer, the SOCKS handshake. NetSend.v: the queue is a list of
    bytes, sent in order. NetConnect.v: what a connection comes to.

    The wallet. Key.v: core/key.c. Crypt.v: core/crypt.c. WalletKeys.v: the keys
    of core/wallet.c, WalletFile.v, WalletReload.v, WalletAdd.v: their file and new
    keys. Wallet.v: the rest of core/wallet.c, on the transaction database.
    WalletScripts.v: the scripts for the filters. WalletTakes.v: the transactions
    that are taken without a stop.

    The chain and the transactions. BlockStore.v, BlockChain.v:
    core/block-store.c. Txdb.v: core/txdb.c. Coins.v: its tables as maps, and the
    handlers as functions on these maps. Ledger.v: the books it keeps. Spending.v:
    payments. TxStore.v, Restart.v: its LevelDB store and a restart.

    The peers. Peers.v: the state of the program around the peers ([world]) and
    what is sent. PeerGroup.v: the scan in core/peergroup.c. Sync.v: the handlers
    of the group. PeerLink.v: connecting and ending. PeerMsg.v: the messages of
    core/peer.c. PeerFrame.v, PeerSend.v: what this code leaves alone, and that
    sending returns. ScanInv.v, ScanSafe.v: the scan whatever the peers do.
    ScanRun.v, CfScan.v, CfWallet.v: the scan with an honest peer, and the wallet.
    PeerEnds.v, PeerWire.v: the end of a peer, and messages from their bytes.

    The peers use an abstract socket ([peer_link], [link_connect], [link_send],
    [link_receive]): it has what was given to it to send, what it is asked to read,
    and comes to one [connect_outcome]. That netasync_connect comes to one of these
    is [NetConnect.netasync_connect_outcomes], that the queue of netasync_send is a
    list is [NetSend.send_queue_refines].

    ** What is shown

    - The scan of the filters: it ends, with the books of the wallet brought up to
      date ([CfWallet.cf_scan_completes]); its chunks stay well formed and its
      resume pointer exact whatever the peers do ([ScanSafe]); a scan that starts
      at the best block is not ended by its last filter.
    - The peers: a message is handled once and whole; the end of a peer ends; some
      messages stop the process ([PeerWire], [PeerEnds]).
    - The event loop: no entry is used after it is gone, timers end ([PollSafe]).
    - The chain: an invariant of the store over any headers; what a reorganisation
      does ([BlockChain]).
    - The transactions: the coins are the outputs that pay the wallet, balances
      follow, payments conserve, a restart loses nothing ([Coins], [Ledger],
      [Spending], [Restart]); double spends stop the process.
    - The wallet: keys saved, added and opened again, what is on disk when a save
      fails, the scripts of the filters, the balance ([WalletReload], [WalletAdd],
      [WalletScripts], [Wallet], [Crypt]).
    - Data: round trips and bounds of the wire format, addresses and scripts, the
      membership test of the filters ([Serialize], [BtcMessage], [Base58],
      [Script], [Gcs]).
    - Containers and files: each is the map or the list it stands for, also
      through restarts and failing system calls ([Hashtable], [Circlist],
      [Config], [CfHeaderStore], [PeerStats], [AddrBook]).

    ** Fuel and bounds

    A loop that is not structural is on [fuel], and running out of it is [UB] (in
    the event loop, the answer [false]), so a theorem that excludes it shows that
    the loop ends. A walk along a chain or a ring
    of objects has as much fuel as there are objects, plus one; a loop over the
    bytes of a file or a message, as many as there are bytes, plus one; the
    locator of the block store 65, more than its step can be doubled; decimal numbers 10 or
    20 digits. [peer_destroy] needs more than there are addresses not tried
    ([PeerEnds.peer_destroy_ends]); the timers as much as there are due
    ([PollSafe.timers_end]); the rounds of the event loop, which does not end by
    itself, are an argument. A table has at most 2^32 - 1 entries, the width of its
    count, which theorems on sequences of operations ask for; a descriptor is
    below 2^20.

    ** What is not modelled

    Threads (lib/poolworker) and locks: each call runs to its end. The user
    interface and the start-up (apps/cli), the test programs. The HTTP clients
    (lib/fx, lib/ip_info) and core/rpc.c. The select(2) branch of the event loop,
    which use_poll never chooses. Listening sockets and the resolution of names;
    the DNS seeds, peergroup_init and peergroup_exit but for the resume pointer and
    the end of the peers. The labels, the printing and the closing of the
    transaction database; the export of addresses and the closing of the wallet;
    the timing of the key derivation (crypt_determine_count, an argument). Listing
    and copying files.

    Functional extensionality and proof irrelevance are used in Wallet.v, where a
    class has functions as fields. *)
From Stdlib Require Export ZArith Lia Bool.
From Stdlib Require Export Init.Byte Strings.Byte.
From stdpp Require Export base tactics decidable option list numbers countable gmap.

#[global] Open Scope Z_scope.

Declare Scope bitc_scope.
Delimit Scope bitc_scope with bitc.

(** ** Outcomes: a value, a [Panic()] or undefined behaviour *)

(** [Panic] is the process being stopped by [ASSERT] or [Panic()] (lib/util);
    [UB] is an access outside an object, which C leaves undefined. *)
Inductive fault : Set :=
| Panic
| UB.

Inductive res (A : Type) : Type :=
| Ok (a : A)
| Fault (f : fault).
Arguments Ok {A} a.
Arguments Fault {A} f.

#[export] Instance fault_eq_dec : EqDecision fault.
Proof. solve_decision. Defined.

#[export] Instance res_ret : MRet res := fun A => @Ok A.
#[export] Instance res_bind : MBind res := fun A B f m =>
  match m with Ok a => f a | Fault e => Fault e end.

(** Code that reads and writes one C object of type [S]. *)
Definition ST (S A : Type) : Type := S -> res (A * S).

#[export] Instance st_ret {S} : MRet (ST S) := fun A a s => Ok (a, s).
#[export] Instance st_bind {S} : MBind (ST S) := fun A B f m s =>
  match m s with Ok (a, s') => f a s' | Fault e => Fault e end.

Definition gets {S A} (f : S -> A) : ST S A := fun s => Ok (f s, s).
Definition put {S} (s : S) : ST S unit := fun _ => Ok (tt, s).
Definition lift {S A} (m : res A) : ST S A := fun s =>
  match m with Ok a => Ok (a, s) | Fault e => Fault e end.

(** [ASSERT(_x)] of lib/util/util.h: a false condition stops the process
    (the macro is not disabled by NDEBUG). *)
Definition ASSERT (c : bool) : res unit := if c then Ok tt else Fault Panic.

Lemma res_bind_Ok {A B} (m : res A) (k : A -> res B) (b : B) :
  m ≫= k = Ok b <-> exists a, m = Ok a /\ k a = Ok b.
Proof.
  destruct m as [a|f]; cbn; split; [eauto | by intros (? & [= ->] & ?) | done |].
  by intros (? & ? & ?).
Qed.

(** Whether a value comes out, for the examples that do not need it. *)
Definition is_ok {A} (m : res A) : bool := match m with Ok _ => true | Fault _ => false end.
Lemma is_ok_inv {A} (m : res A) : is_ok m = true -> exists a, m = Ok a.
Proof. destruct m; [by eexists|done]. Qed.

(** Rewriting with it keeps the kernel from evaluating what is bound. *)
Lemma bind_ok {A B} (a : A) (k : A -> res B) : Ok a ≫= k = k a.
Proof. reflexivity. Qed.

Lemma st_bind_Ok {S A B} (m : ST S A) (k : A -> ST S B) s a s' :
  m s = Ok (a, s') -> (m ≫= k) s = k a s'.
Proof. intros H. unfold mbind, st_bind. by rewrite H. Qed.

Lemma st_bind_assoc {S A B C} (m : ST S A) (k : A -> ST S B) (h : B -> ST S C) s :
  ((m ≫= k) ≫= h) s = (m ≫= (fun a => k a ≫= h)) s.
Proof. unfold mbind, st_bind. by destruct (m s) as [[? ?]|]. Qed.

(** ** Total-correctness triples

    [triple P m Q]: from a state satisfying [P] the code does not fault and its
    result and final state satisfy [Q]. *)
Definition triple {S A} (P : S -> Prop) (m : ST S A) (Q : A -> S -> Prop) : Prop :=
  forall s, P s -> exists a s', m s = Ok (a, s') /\ Q a s'.

Notation "{{ P }} m {{ x , Q }}" := (triple P m (fun x => Q))
  (at level 0, P at level 99, m at level 99, x strict pattern,
   Q at level 99) : bitc_scope.

Section triples.
Context {S : Type}.
Implicit Types P : S -> Prop.

Lemma triple_ret {A} (a : A) P (Q : A -> S -> Prop) :
  (forall s, P s -> Q a s) -> triple P (mret a) Q.
Proof. intros H s Hs. exists a, s. by split; [|apply H]. Qed.

Lemma triple_gets {A} (f : S -> A) P (Q : A -> S -> Prop) :
  (forall s, P s -> Q (f s) s) -> triple P (gets f) Q.
Proof. intros H s Hs. exists (f s), s. by split; [|apply H]. Qed.

Lemma triple_bind {A B} (m : ST S A) (k : A -> ST S B) P Q R :
  triple P m Q -> (forall a, triple (Q a) (k a) R) -> triple P (m ≫= k) R.
Proof.
  intros Hm Hk s Hs. destruct (Hm s Hs) as (a & s' & Ha & HQ).
  destruct (Hk a s' HQ) as (b & s'' & Hb & HR).
  exists b, s''. by rewrite (st_bind_Ok _ _ _ _ _ Ha).
Qed.

Lemma triple_conseq {A} (m : ST S A) P P' (Q Q' : A -> S -> Prop) :
  triple P' m Q' -> (forall s, P s -> P' s) ->
  (forall a s, Q' a s -> Q a s) -> triple P m Q.
Proof. intros Hm HP HQ s Hs. destruct (Hm s (HP s Hs)) as (a & s' & ? & ?); eauto 6. Qed.

Lemma triple_exists {A X} (m : ST S A) (P : X -> S -> Prop) Q :
  (forall x, triple (P x) m Q) -> triple (fun s => exists x, P x s) m Q.
Proof. intros H s [x Hx]. exact (H x s Hx). Qed.
End triples.

(** ** Machine integers *)

Definition wrap8 (z : Z) : Z := z mod 2 ^ 8.
Definition wrap16 (z : Z) : Z := z mod 2 ^ 16.
Definition wrap32 (z : Z) : Z := z mod 2 ^ 32.
Definition wrap64 (z : Z) : Z := z mod 2 ^ 64.
(** Conversion to a signed 32- or 64-bit integer (two's complement). *)
Definition sint32 (z : Z) : Z := (z + 2 ^ 31) mod 2 ^ 32 - 2 ^ 31.
Definition sint64 (z : Z) : Z := (z + 2 ^ 63) mod 2 ^ 64 - 2 ^ 63.

Abbreviation u8 z := (0 <= z < 2 ^ 8).
Abbreviation u16 z := (0 <= z < 2 ^ 16).
Abbreviation u32 z := (0 <= z < 2 ^ 32).
Abbreviation u64 z := (0 <= z < 2 ^ 64).

Lemma wrap8_small z : u8 z -> wrap8 z = z.
Proof. apply Z.mod_small. Qed.
Lemma wrap16_small z : u16 z -> wrap16 z = z.
Proof. apply Z.mod_small. Qed.
Lemma wrap32_small z : u32 z -> wrap32 z = z.
Proof. apply Z.mod_small. Qed.
Lemma wrap64_small z : u64 z -> wrap64 z = z.
Proof. apply Z.mod_small. Qed.
Lemma wrap32_bound z : u32 (wrap32 z).
Proof. apply Z.mod_pos_bound. lia. Qed.
Lemma wrap64_bound z : u64 (wrap64 z).
Proof. apply Z.mod_pos_bound. lia. Qed.
Lemma sint32_small z : - 2 ^ 31 <= z < 2 ^ 31 -> sint32 z = z.
Proof. intros. unfold sint32. rewrite Z.mod_small; lia. Qed.

(** Bitwise operations stay within a width. *)
Lemma log2_bound a n : 0 <= a < 2 ^ n -> 0 < n -> Z.log2 a < n.
Proof.
  intros Ha Hn. destruct (decide (a = 0)) as [->|]; [done|]. apply Z.log2_lt_pow2; lia.
Qed.
Lemma bound_log2 a n : 0 <= a -> 0 < n -> Z.log2 a < n -> 0 <= a < 2 ^ n.
Proof.
  intros Ha Hn Hl. split; [done|]. destruct (decide (a = 0)) as [->|]; [apply Z.pow_pos_nonneg; lia|].
  apply Z.log2_lt_pow2; lia.
Qed.
Lemma lxor_bound n a b : 0 < n -> 0 <= a < 2 ^ n -> 0 <= b < 2 ^ n -> 0 <= Z.lxor a b < 2 ^ n.
Proof.
  intros Hn Ha Hb. apply bound_log2; [apply Z.lxor_nonneg; lia|done|].
  eapply Z.le_lt_trans; [apply Z.log2_lxor; lia|]. apply Z.max_lub_lt; by apply log2_bound.
Qed.
Lemma lor_bound n a b : 0 < n -> 0 <= a < 2 ^ n -> 0 <= b < 2 ^ n -> 0 <= Z.lor a b < 2 ^ n.
Proof.
  intros Hn Ha Hb. apply bound_log2; [apply Z.lor_nonneg; lia|done|].
  rewrite Z.log2_lor by lia. apply Z.max_lub_lt; by apply log2_bound.
Qed.
Lemma shiftr_bound n a k : 0 <= a < 2 ^ n -> 0 <= k -> 0 <= Z.shiftr a k < 2 ^ n.
Proof.
  intros Ha Hk. rewrite Z.shiftr_div_pow2 by done.
  assert (0 < 2 ^ k) by (apply Z.pow_pos_nonneg; lia).
  split; [apply Z.div_pos; lia|]. apply Z.div_lt_upper_bound; nia.
Qed.

Create HintDb bitc.
Create Rewrite HintDb bitc.
Create Rewrite HintDb zlen.
#[export] Hint Rewrite wrap8_small wrap16_small wrap32_small wrap64_small
  using lia : bitc.
#[export] Hint Resolve wrap32_bound wrap64_bound : bitc.

(** ** Lists measured in [Z] (C sizes) *)

Definition Zlen {A} (l : list A) : Z := Z.of_nat (length l).

Lemma Zlen_nonneg {A} (l : list A) : 0 <= Zlen l.
Proof. unfold Zlen. lia. Qed.
Lemma Zlen_nil {A} : Zlen (@nil A) = 0.
Proof. done. Qed.
Lemma Zlen_cons {A} (x : A) l : Zlen (x :: l) = 1 + Zlen l.
Proof. unfold Zlen. cbn [length]. lia. Qed.
Lemma Zlen_app {A} (l k : list A) : Zlen (l ++ k) = Zlen l + Zlen k.
Proof. unfold Zlen. rewrite length_app. lia. Qed.
Lemma Zlen_replicate {A} n (x : A) : Zlen (replicate n x) = Z.of_nat n.
Proof. unfold Zlen. by rewrite length_replicate. Qed.
Lemma to_nat_Zlen {A} (l : list A) : Z.to_nat (Zlen l) = length l.
Proof. unfold Zlen. lia. Qed.

#[export] Hint Rewrite @Zlen_nil @Zlen_cons @Zlen_app @Zlen_replicate @to_nat_Zlen : zlen.

(** [zlen] rewrites the lengths of the goal and of the context, [zlia] also
    closes the arithmetic that is left. *)
Ltac pose_Zlen :=
  repeat match goal with
  | |- context [Zlen ?l] =>
      lazymatch goal with
      | _ : 0 <= Zlen l |- _ => fail
      | _ => pose proof (Zlen_nonneg l)
      end
  | _ : context [Zlen ?l] |- _ =>
      lazymatch goal with
      | _ : 0 <= Zlen l |- _ => fail
      | _ => pose proof (Zlen_nonneg l)
      end
  end.
Ltac zlen := autorewrite with zlen in *.
Ltac zlia := zlen; pose_Zlen; lia.

(** Case analysis on the boolean comparisons that guard the code. *)
Ltac zbool :=
  repeat match goal with
  | H : (_ <? _) = true |- _ => apply Z.ltb_lt in H
  | H : (_ <? _) = false |- _ => apply Z.ltb_ge in H
  | H : (_ <=? _) = true |- _ => apply Z.leb_le in H
  | H : (_ <=? _) = false |- _ => apply Z.leb_gt in H
  | H : (_ =? _) = true |- _ => apply Z.eqb_eq in H
  | H : (_ =? _) = false |- _ => apply Z.eqb_neq in H
  | H : _ && _ = true |- _ => apply andb_prop in H as [? ?]
  | H : _ || _ = false |- _ => apply orb_false_elim in H as [? ?]
  | H : negb _ = true |- _ => apply negb_true_iff in H
  | H : negb _ = false |- _ => apply negb_false_iff in H
  end.

(** [if_true]/[if_false] decide the comparison the goal branches on. *)
Lemma ltb_t a b : a < b -> (a <? b) = true. Proof. by rewrite Z.ltb_lt. Qed.
Lemma ltb_f a b : b <= a -> (a <? b) = false. Proof. by rewrite Z.ltb_ge. Qed.
Lemma leb_t a b : a <= b -> (a <=? b) = true. Proof. by rewrite Z.leb_le. Qed.
Lemma leb_f a b : b < a -> (a <=? b) = false. Proof. by rewrite Z.leb_gt. Qed.
Lemma eqb_t (a b : Z) : a = b -> (a =? b) = true. Proof. by rewrite Z.eqb_eq. Qed.
Lemma eqb_f (a b : Z) : a <> b -> (a =? b) = false. Proof. by rewrite Z.eqb_neq. Qed.
Ltac decide_cmp :=
  repeat match goal with
  | |- context [?a <? ?b] =>
      first [rewrite (ltb_t a b) by zlia | rewrite (ltb_f a b) by zlia]
  | |- context [?a <=? ?b] =>
      first [rewrite (leb_t a b) by zlia | rewrite (leb_f a b) by zlia]
  | |- context [?a =? ?b] =>
      first [rewrite (eqb_t a b) by zlia | rewrite (eqb_f a b) by zlia]
  end; cbn [orb andb negb].

(** ** Bytes and little-endian integers *)

#[export] Instance byte_eq_dec : EqDecision byte := Byte.byte_eq_dec.
#[export] Instance byte_countable : Countable byte.
Proof. by apply (inj_countable Byte.to_N Byte.of_N), Byte.of_to_N. Defined.
#[export] Instance byte_inhabited : Inhabited byte := populate x00.

Definition byte_Z (b : byte) : Z := Z.of_N (Byte.to_N b).
Definition Z_byte (z : Z) : byte := default x00 (Byte.of_N (Z.to_N (z mod 256))).

Lemma byte_Z_bound b : 0 <= byte_Z b < 256.
Proof. unfold byte_Z. pose proof (Byte.to_N_bounded b). lia. Qed.

Lemma byte_Z_byte z : byte_Z (Z_byte z) = z mod 256.
Proof.
  unfold byte_Z, Z_byte. pose proof (Z.mod_pos_bound z 256 ltac:(lia)) as Hb.
  destruct (Byte.of_N (Z.to_N (z mod 256))) as [b|] eqn:E; cbn.
  - apply Byte.to_of_N in E. rewrite E. lia.
  - apply Byte.of_N_None_iff in E. lia.
Qed.

Lemma Z_byte_Z b : Z_byte (byte_Z b) = b.
Proof.
  unfold Z_byte. rewrite Z.mod_small by apply byte_Z_bound.
  unfold byte_Z. by rewrite N2Z.id, Byte.of_to_N.
Qed.

Lemma Z_byte_inj x y : 0 <= x < 256 -> 0 <= y < 256 -> Z_byte x = Z_byte y -> x = y.
Proof.
  intros ? ? H%(f_equal byte_Z). rewrite !byte_Z_byte, !Z.mod_small in H by lia. done.
Qed.

(** Native integers as the little-endian bytes memcpy sees. *)
Fixpoint le_bytes (n : nat) (v : Z) : list byte :=
  match n with
  | O => []
  | S n' => Z_byte v :: le_bytes n' (v / 256)
  end.

Fixpoint le_Z (bs : list byte) : Z :=
  match bs with
  | [] => 0
  | b :: t => byte_Z b + 256 * le_Z t
  end.

Lemma length_le_bytes n v : length (le_bytes n v) = n.
Proof. revert v. induction n; intros; cbn; [done|]. by rewrite IHn. Qed.

Lemma Zlen_le_bytes n v : Zlen (le_bytes n v) = Z.of_nat n.
Proof. unfold Zlen. by rewrite length_le_bytes. Qed.
#[export] Hint Rewrite Zlen_le_bytes : zlen.

Lemma le_Z_bytes n v : le_Z (le_bytes n v) = v mod 2 ^ (8 * Z.of_nat n).
Proof.
  revert v. induction n as [|n IH]; intros v.
  - by rewrite Z.mod_1_r.
  - cbn [le_bytes le_Z]. rewrite byte_Z_byte, IH.
    replace (2 ^ (8 * Z.of_nat (S n))) with (256 * 2 ^ (8 * Z.of_nat n)).
    2: { rewrite Nat2Z.inj_succ, Z.mul_succ_r, Z.add_comm, Z.pow_add_r by lia. lia. }
    rewrite Z.rem_mul_r by (try apply Z.pow_nonzero; lia). lia.
Qed.

Lemma le_Z_bytes_small n v : 0 <= v < 2 ^ (8 * Z.of_nat n) -> le_Z (le_bytes n v) = v.
Proof. intros. by rewrite le_Z_bytes, Z.mod_small. Qed.

Lemma le_Z_bound bs : 0 <= le_Z bs < 2 ^ (8 * Zlen bs).
Proof.
  induction bs as [|b t IH]; [done|]. cbn [le_Z]. rewrite Zlen_cons.
  replace (2 ^ (8 * (1 + Zlen t))) with (256 * 2 ^ (8 * Zlen t)).
  2: { rewrite Z.mul_add_distr_l, Z.pow_add_r by zlia. lia. }
  pose proof (byte_Z_bound b). lia.
Qed.

Lemma le_Z_app a b : le_Z (a ++ b) = le_Z a + 256 ^ Zlen a * le_Z b.
Proof.
  induction a as [|c a IH]; cbn [app le_Z]; [change (Zlen []) with 0; lia|].
  rewrite IH, Zlen_cons, Z.pow_add_r by zlia. lia.
Qed.

Lemma le_bytes_Z bs : le_bytes (length bs) (le_Z bs) = bs.
Proof.
  induction bs as [|b t IH]; [done|]. cbn [le_Z length le_bytes].
  pose proof (byte_Z_bound b). f_equal.
  - rewrite <- (Z_byte_Z b) at 2. unfold Z_byte.
    rewrite Z.mul_comm, Z_mod_plus_full. by rewrite Z.mod_small by lia.
  - rewrite Z.mul_comm, Z.div_add by lia. rewrite Z.div_small by lia. exact IH.
Qed.

Lemma le_bytes_inj n x y :
  0 <= x < 2 ^ (8 * Z.of_nat n) -> 0 <= y < 2 ^ (8 * Z.of_nat n) ->
  le_bytes n x = le_bytes n y -> x = y.
Proof. intros ? ? H%(f_equal le_Z). by rewrite !le_Z_bytes_small in H. Qed.

#[global] Arguments le_bytes : simpl never.
#[global] Arguments le_Z : simpl never.

(** ** Memory blocks: a pointer is NULL or a readable block *)

Definition ptr : Set := option (list byte).

(** Reading [n] bytes at offset [off] of a block. *)
Definition mem_load (m : list byte) (off n : Z) : res (list byte) :=
  if (0 <=? off) && (0 <=? n) && (off + n <=? Zlen m)
  then Ok (take (Z.to_nat n) (drop (Z.to_nat off) m))
  else Fault UB.

(** Overwriting a block at offset [off]. *)
Definition mem_store (m : list byte) (off : Z) (bs : list byte) : res (list byte) :=
  if (0 <=? off) && (off + Zlen bs <=? Zlen m)
  then Ok (take (Z.to_nat off) m ++ bs ++ drop (Z.to_nat (off + Zlen bs)) m)
  else Fault UB.

(** [memcpy(_, p, n)]: with [n = 0] nothing is read, whatever [p]. *)
Definition ptr_load (p : ptr) (n : Z) : res (list byte) :=
  if n =? 0 then Ok [] else
  match p with Some m => mem_load m 0 n | None => Fault UB end.

Lemma mem_load_app pre bs post :
  mem_load (pre ++ bs ++ post) (Zlen pre) (Zlen bs) = Ok bs.
Proof.
  unfold mem_load. decide_cmp. f_equal. rewrite !to_nat_Zlen.
  by rewrite drop_app_length, take_app_length.
Qed.

Lemma mem_store_app pre bs bs' post :
  Zlen bs' = Zlen bs -> mem_store (pre ++ bs ++ post) (Zlen pre) bs' = Ok (pre ++ bs' ++ post).
Proof.
  intros Hl. unfold mem_store. decide_cmp. f_equal.
  rewrite to_nat_Zlen, take_app_length, Hl.
  replace (Z.to_nat (Zlen pre + Zlen bs)) with (length (pre ++ bs)).
  2: { rewrite length_app. unfold Zlen. lia. }
  by rewrite (app_assoc pre bs), drop_app_length.
Qed.

Lemma ptr_load_prefix bs t : ptr_load (Some (bs ++ t)) (Zlen bs) = Ok bs.
Proof.
  unfold ptr_load. destruct (Z.eqb_spec (Zlen bs) 0) as [E|E].
  - unfold Zlen in E. destruct bs; [done | cbn in E; lia].
  - apply (mem_load_app [] bs t).
Qed.

Lemma ptr_load_all bs : ptr_load (Some bs) (Zlen bs) = Ok bs.
Proof. rewrite <- (app_nil_r bs) at 1. apply ptr_load_prefix. Qed.

Lemma ptr_load_zero p : ptr_load p 0 = Ok [].
Proof. done. Qed.

(** A signed 32-bit result: overflow is undefined behaviour. *)
Definition i32 (z : Z) : res Z := if (- 2 ^ 31 <=? z) && (z <? 2 ^ 31) then Ok z else Fault UB.

Lemma i32_ok z : - 2 ^ 31 <= z < 2 ^ 31 -> i32 z = Ok z.
Proof. intros. unfold i32. by rewrite leb_t, ltb_t by lia. Qed.

(** ** Taking an element out of a list *)

Lemma filter_delete (l1 : list positive) y l2 : NoDup (l1 ++ y :: l2) -> filter (fun q => q <> y) (l1 ++ y :: l2) = l1 ++ l2.
Proof.
  intros Hd. apply NoDup_app in Hd as (_ & Hdis & Hd2). apply NoDup_cons in Hd2 as [Hni _].
  assert (Hf : forall l : list positive, y ∉ l -> filter (fun q => q <> y) l = l).
  { clear. induction l as [|x l IH]; intros Hy; [done|]. apply not_elem_of_cons in Hy as [? ?].
    rewrite filter_cons_True by congruence. by rewrite IH. }
  rewrite filter_app, filter_cons_False by tauto. rewrite !Hf; [done|done|]. intros Hin. apply (Hdis y Hin). left.
Qed.
