(* ===== verification/Records.v ===== *)
(** * Assignments to the fields of a record

    [r <| f := v |>] is the record [r] with the field [f] set to [v]. A record
    that is assigned to gives its eta expansion as an instance of [Eta]; the
    update of a field is found from it. *)
From S2P Require Export Prelude.

Class Eta (R : Type) : Type := eta : R -> R.
Class Field {R E : Type} (proj : R -> E) : Type := set : E -> R -> R.
Arguments set {R E} proj {_} _ _.

Ltac solve_field :=
  match goal with
  | |- @Field ?R ?E ?proj =>
      let v := fresh "v" in
      let r := fresh "r" in
      refine (fun (v : E) (r : R) => _);
      let e := eval hnf in (eta (R := R) r) in
      match eval pattern (proj r) in e with
      | ?f _ => let t := eval cbv beta in (f v) in exact t
      end
  end.
#[export] Hint Extern 0 (Field _) => solve_field : typeclass_instances.

Notation "r <| f := v |>" := (set f v r) (at level 12, left associativity) : bitc_scope.
Notation "r <| f ::= g |>" := (set f (g (f r)) r) (at level 12, left associativity) : bitc_scope.
#[global] Open Scope bitc_scope.
