(* ===== verification/Errno.v ===== *)
(** * Errors of the system calls

    The errors the program knows, on Linux, and what becomes of a connection: what
    the sockets (Netasync.v) say to the peers (Peers.v). *)
From S2P Require Export Prelude.

Definition EBADF : Z := 9.
Definition EAGAIN : Z := 11.
Definition EINVAL : Z := 22.
Definition ENFILE : Z := 23.
Definition EMFILE : Z := 24.
Definition ENETDOWN : Z := 100.
Definition ENETUNREACH : Z := 101.
Definition ETIMEDOUT : Z := 110.
Definition ECONNREFUSED : Z := 111.
Definition EHOSTUNREACH : Z := 113.
Definition EINPROGRESS : Z := 115.

(** A connection that is opened is pending, or done at once (0), or has failed at
    once with an error, or there was no socket. *)
Inductive connect_outcome : Set := CoPending | CoNow (err : Z) | CoNoSocket (err : Z).
