(* ===== verification/Util.v ===== *)
(** * Small utilities (lib/util/util.c, core/basic_defs.h)

    Byte-string helpers, the hexadecimal printer and the integer logarithm. A C
    string is the list of its characters, the terminating NUL left out. *)
From S2P Require Export Prelude.

Definition minimum (a b : Z) : Z := if a <? b then a else b.
Definition maximum (a b : Z) : Z := if b <? a then a else b.

(** [while (v) { i++; v >>= 1; }]: 32 rounds are enough for a uint32. *)
Fixpoint log2_loop (fuel : nat) (i v : Z) : Z :=
  match fuel with
  | O => i
  | S fuel => if v =? 0 then i else log2_loop fuel (i + 1) (Z.shiftr v 1)
  end.

Definition util_log2 (v : Z) : Z :=
  let i := log2_loop 32 0 v in if i =? 0 then i else wrap8 (i - 1).

Definition util_throttle (count : Z) : bool :=
  if count <? 100 then true
  else if (count <? 10000) && (count mod 100 =? 0) then true
  else if (count <? 1000000) && (count mod 10000 =? 0) then true
  else count mod 1000000 =? 0.

(** [dst[i] = src[len - 1 - i]] for [i < len]. *)
Fixpoint copyreverse_loop (src : list byte) (n : nat) : list byte :=
  match n with
  | O => []
  | S n' => (src !!! n') :: copyreverse_loop src n'
  end.
Definition str_copyreverse (src : list byte) (len : nat) : list byte :=
  copyreverse_loop src len.

(** [while (bs < be) swap(bs++, be--)]. *)
Fixpoint reverse_loop (fuel : nat) (buf : list byte) (i j : nat) : list byte :=
  match fuel with
  | O => buf
  | S fuel =>
      if decide (i < j)%nat
      then reverse_loop fuel (<[i := buf !!! j]> (<[j := buf !!! i]> buf)) (S i) (j - 1)%nat
      else buf
  end.
Definition str_reverse (buf : list byte) : list byte :=
  reverse_loop (length buf) buf 0 (length buf - 1)%nat.

Definition is_blank (c : byte) : bool := bool_decide (c = x20) || bool_decide (c = x00).

(** Trailing blanks and NULs become NULs. *)
Fixpoint str_trim_loop (s : list byte) (i : nat) : list byte :=
  match i with
  | O => s
  | S i' => if is_blank (s !!! i') then str_trim_loop (<[i' := x00]> s) i' else s
  end.
Definition str_trim (s : list byte) : list byte := str_trim_loop s (length s).

(** ** Hexadecimal *)

Definition hex_char (d : Z) : byte := Z_byte (if d <? 10 then 48 + d else 87 + d).

(** ["%02x"] of a byte. *)
Definition hex2 (b : byte) : list byte := [hex_char (byte_Z b / 16); hex_char (byte_Z b mod 16)].

(** ["%-8s"]. *)
Definition pad8 (s : list byte) : list byte := s ++ replicate (8 - length s) x20.

(** [snprintf(str + idx, len - idx, ..)] of [text]: what is stored (the NUL is
    left out), and the new [idx]. *)
Definition snprintf_at (str : list byte) (len idx : Z) (text : list byte) : list byte * Z :=
  (str ++ take (Z.to_nat (len - idx - 1)) text, idx + Zlen text).

Fixpoint snprintf_bytes_loop (str : list byte) (len idx : Z) (buf : list byte) : res (list byte) :=
  match buf with
  | [] => Ok str
  | b :: buf =>
      _ ← ASSERT (idx <=? len);
      let '(str, idx) := snprintf_at str len idx (hex2 b) in
      snprintf_bytes_loop str len idx buf
  end.

Definition str_snprintf_bytes (len : Z) (pfx : option (list byte)) (buf : list byte) :
    res (list byte) :=
  let '(str, idx) := match pfx with
                     | Some p => snprintf_at [] len 0 (pad8 p)
                     | None => ([], 0)
                     end in
  snprintf_bytes_loop str len idx buf.

(** Both format into a [char str[16384]]; what they print is the result. *)
Definition str_printf_bytes (pfx : option (list byte)) (data : list byte) : res (list byte) :=
  str_snprintf_bytes 16384 pfx data.
Definition log_bytes (pfx : option (list byte)) (data : list byte) : res (list byte) :=
  str_snprintf_bytes 16384 pfx data.

(** A hexadecimal digit's value. *)
Definition hex_val (c : byte) : option Z :=
  let z := byte_Z c in
  if (48 <=? z) && (z <=? 57) then Some (z - 48)
  else if (97 <=? z) && (z <=? 102) then Some (z - 87)
  else if (65 <=? z) && (z <=? 70) then Some (z - 55)
  else None.

(** [isspace] in the C locale. *)
Definition isspace (c : byte) : bool :=
  let z := byte_Z c in (z =? 32) || ((9 <=? z) && (z <=? 13)).

(** [sscanf(s, "%02x", &v)] on two characters, as C specifies it: leading
    whitespace is skipped, a sign is accepted, the field is at most two wide,
    and ["0x"] alone is a matching failure. *)
Definition sscanf_02x (c1 c2 : byte) : option Z :=
  let one c := if isspace c then None else hex_val c in
  if isspace c1 then one c2
  else if bool_decide (c1 = x2b) then hex_val c2
  else if bool_decide (c1 = x2d) then (fun v => wrap32 (- v)) <$> hex_val c2
  else match hex_val c1 with
       | None => None
       | Some v1 =>
           match hex_val c2 with
           | Some v2 => Some (16 * v1 + v2)
           | None => if bool_decide (c1 = x30) && (bool_decide (c2 = x78) || bool_decide (c2 = x58))
                     then None else Some v1
           end
       end.

(** [str_to_bytes]: [len / 2] bytes; [x] keeps its previous (indeterminate)
    value when sscanf fails, which the code then reads. *)
Fixpoint str_to_bytes_loop (s : list byte) : res (list byte) :=
  match s with
  | c1 :: c2 :: s =>
      match sscanf_02x c1 c2 with
      | None => Fault UB
      | Some x => _ ← ASSERT (x <=? 255); t ← str_to_bytes_loop s; mret (Z_byte x :: t)
      end
  | _ => Ok []
  end.
Definition str_to_bytes (s : option (list byte)) : res (ptr * Z) :=
  match s with
  | None => Ok (None, 0)
  | Some s => t ← str_to_bytes_loop s; mret (Some (t ++ [x00]), Z.of_nat (length s) / 2)
  end.

(** ** Lemmas *)

Lemma copyreverse_loop_app src t n :
  (n <= length src)%nat -> copyreverse_loop (src ++ t) n = copyreverse_loop src n.
Proof.
  induction n as [|n IH]; intros; cbn; [done|].
  rewrite lookup_total_app_l by lia. by rewrite IH by lia.
Qed.

Lemma length_copyreverse src n : length (str_copyreverse src n) = n.
Proof. unfold str_copyreverse. induction n as [|n IH]; cbn; [done|]. by rewrite IH. Qed.

Lemma str_copyreverse_rev src : str_copyreverse src (length src) = rev src.
Proof.
  unfold str_copyreverse. induction src as [|c src IH] using rev_ind; [done|].
  rewrite length_app, Nat.add_1_r. cbn [copyreverse_loop]. rewrite rev_app_distr. cbn. f_equal.
  - rewrite lookup_total_app_r by lia. by rewrite Nat.sub_diag.
  - by rewrite copyreverse_loop_app.
Qed.

Lemma str_copyreverse_take src n :
  (n <= length src)%nat -> str_copyreverse src n = rev (take n src).
Proof.
  intros Hn. unfold str_copyreverse. rewrite <- (take_drop n src) at 1.
  rewrite copyreverse_loop_app by (rewrite length_take; lia).
  rewrite <- str_copyreverse_rev, length_take. by rewrite Nat.min_l by lia.
Qed.

Lemma log2_loop_spec fuel i v :
  0 <= v < 2 ^ Z.of_nat fuel -> log2_loop fuel i v = i + (if v =? 0 then 0 else Z.log2 v + 1).
Proof.
  revert i v. induction fuel as [|fuel IH]; intros i v Hv.
  { assert (v = 0) as -> by (cbn in Hv; lia). cbn. lia. }
  cbn [log2_loop]. destruct (Z.eqb_spec v 0) as [->|Hn]; [lia|].
  rewrite Nat2Z.inj_succ, Z.pow_succ_r in Hv by lia.
  rewrite Z.shiftr_div_pow2, Z.pow_1_r by lia. rewrite IH.
  2: { split; [apply Z.div_pos | apply Z.div_lt_upper_bound]; lia. }
  destruct (Z.eqb_spec (v / 2) 0) as [E|E].
  - assert (v = 1) as -> by (Z.to_euclidean_division_equations; lia). cbn. lia.
  - assert (1 < v) by (destruct (decide (v = 1)) as [->|]; [done|lia]).
    replace (v / 2) with (Z.shiftr v 1) by (rewrite Z.shiftr_div_pow2, Z.pow_1_r; lia).
    rewrite Z.log2_shiftr by lia. pose proof (Z.log2_pos v ltac:(lia)). lia.
Qed.

Lemma util_log2_spec v : 0 < v < 2 ^ 32 -> util_log2 v = Z.log2 v.
Proof.
  intros Hv. unfold util_log2. rewrite log2_loop_spec by (cbn; lia).
  rewrite (eqb_f v 0) by lia. pose proof (Z.log2_nonneg v).
  rewrite eqb_f by lia. assert (Z.log2 v < 32) by (apply Z.log2_lt_pow2; lia).
  rewrite wrap8_small; lia.
Qed.

Lemma hex_val_char d : 0 <= d < 16 -> hex_val (hex_char d) = Some d.
Proof.
  intros Hd. assert (d = 0 \/ d = 1 \/ d = 2 \/ d = 3 \/ d = 4 \/ d = 5 \/ d = 6 \/ d = 7 \/
    d = 8 \/ d = 9 \/ d = 10 \/ d = 11 \/ d = 12 \/ d = 13 \/ d = 14 \/ d = 15) as Hc by lia.
  by destruct_or! Hc; subst.
Qed.

Lemma hex_char_plain d :
  0 <= d < 16 -> isspace (hex_char d) = false /\ hex_char d <> x2b /\ hex_char d <> x2d /\
    hex_char d <> x00.
Proof.
  intros Hd. assert (d = 0 \/ d = 1 \/ d = 2 \/ d = 3 \/ d = 4 \/ d = 5 \/ d = 6 \/ d = 7 \/
    d = 8 \/ d = 9 \/ d = 10 \/ d = 11 \/ d = 12 \/ d = 13 \/ d = 14 \/ d = 15) as Hc by lia.
  by destruct_or! Hc; subst.
Qed.

(** Reading back what ["%02x"] printed. *)
Lemma sscanf_hex2 b :
  sscanf_02x (hex_char (byte_Z b / 16)) (hex_char (byte_Z b mod 16)) = Some (byte_Z b).
Proof.
  pose proof (byte_Z_bound b) as Hb.
  assert (H1 : 0 <= byte_Z b / 16 < 16)
    by (split; [apply Z.div_pos | apply Z.div_lt_upper_bound]; lia).
  assert (H2 : 0 <= byte_Z b mod 16 < 16) by (apply Z.mod_pos_bound; lia).
  destruct (hex_char_plain _ H1) as (Hs & Hp & Hm & _).
  unfold sscanf_02x. rewrite Hs, !bool_decide_eq_false_2 by done.
  rewrite !hex_val_char by done. f_equal. pose proof (Z.div_mod (byte_Z b) 16). lia.
Qed.

Lemma Zlen_hex2 b : Zlen (hex2 b) = 2.
Proof. done. Qed.

(** With room for every digit and the NUL, the printed bytes. *)
Lemma snprintf_bytes_loop_spec str len buf :
  Zlen str + 2 * Zlen buf < len ->
  snprintf_bytes_loop str len (Zlen str) buf = Ok (str ++ concat (map hex2 buf)).
Proof.
  revert str. induction buf as [|b buf IH]; intros str Hl; cbn.
  { by rewrite app_nil_r. }
  zlen. pose_Zlen. unfold ASSERT. decide_cmp. cbn.
  assert (Ht : take (Z.to_nat (len - Zlen str - 1)) (hex2 b) = hex2 b) by (apply take_ge; cbn; lia).
  rewrite Ht, <- (Zlen_app str (hex2 b)), IH.
  - by rewrite <- app_assoc.
  - zlen. rewrite Zlen_hex2. lia.
Qed.

Lemma str_snprintf_bytes_spec len buf :
  2 * Zlen buf < len -> str_snprintf_bytes len None buf = Ok (concat (map hex2 buf)).
Proof. intros. unfold str_snprintf_bytes. apply (snprintf_bytes_loop_spec []). zlia. Qed.

(** Printed bytes are read back. *)
Lemma str_to_bytes_loop_hex buf : str_to_bytes_loop (concat (map hex2 buf)) = Ok buf.
Proof.
  induction buf as [|c buf IH]; [done|]. cbn [map concat]. unfold hex2 at 1. cbn [app str_to_bytes_loop].
  rewrite sscanf_hex2. pose proof (byte_Z_bound c). rewrite leb_t by lia. cbn [ASSERT]. rewrite bind_ok, IH, bind_ok.
  by rewrite Z_byte_Z.
Qed.
Lemma length_hex_concat l : length (concat (map hex2 l)) = (2 * length l)%nat.
Proof. induction l as [|c l IH]; [done|]. cbn [map concat]. rewrite length_app, IH. cbn. lia. Qed.
(** A hexadecimal dump is made of digits and letters. *)
Lemma hex_chars buf : Forall (fun c => 48 <= byte_Z c) (concat (map hex2 buf)).
Proof.
  assert (Hh : forall d, 0 <= d < 16 -> 48 <= byte_Z (hex_char d)).
  { intros d Hd. unfold hex_char. rewrite byte_Z_byte. destruct (Z.ltb_spec d 10); rewrite Z.mod_small; lia. }
  induction buf as [|c buf IH]; [constructor|]. cbn [map concat hex2 app]. pose proof (byte_Z_bound c).
  constructor; [apply Hh; split; [apply Z.div_pos|apply Z.div_lt_upper_bound]; lia|].
  constructor; [apply Hh, Z.mod_pos_bound; lia|done].
Qed.
Lemma str_to_bytes_hex buf : str_to_bytes (Some (concat (map hex2 buf))) = Ok (Some (buf ++ [x00]), Zlen buf).
Proof.
  unfold str_to_bytes. rewrite str_to_bytes_loop_hex, bind_ok, length_hex_concat. unfold mret, res_ret. f_equal. f_equal.
  unfold Zlen. rewrite Nat2Z.inj_mul, Z.mul_comm. by apply Z.div_mul.
Qed.

(** In general the loop runs to its end exactly when the last byte starts
    within the buffer; otherwise its ASSERT stops the process. *)
Lemma snprintf_bytes_loop_total str len idx buf :
  buf = [] \/ idx + 2 * (Zlen buf - 1) <= len ->
  exists s, snprintf_bytes_loop str len idx buf = Ok s.
Proof.
  revert str idx. induction buf as [|b buf IH]; intros str idx Hl; cbn; [by eexists|].
  destruct Hl as [|Hl]; [done|]. zlen. pose_Zlen. rewrite leb_t by lia. cbn.
  apply IH. change (Zlen (hex2 b)) with 2. destruct buf; [by left|right; zlia].
Qed.

Lemma snprintf_bytes_loop_panic str len idx buf :
  buf <> [] -> len < idx + 2 * (Zlen buf - 1) ->
  snprintf_bytes_loop str len idx buf = Fault Panic.
Proof.
  revert str idx. induction buf as [|b buf IH]; intros str idx Hb Hl; cbn; [done|].
  zlen. pose_Zlen. destruct (Z.leb_spec idx len); [|done]. cbn.
  change (Zlen (hex2 b)) with 2. apply IH; [|lia]. intros ->. zlia.
Qed.

(** The room the prefix takes. *)
Definition pfx_len (pfx : option (list byte)) : Z :=
  match pfx with Some p => Zlen (pad8 p) | None => 0 end.

Lemma str_snprintf_bytes_total len pfx buf :
  buf = [] \/ pfx_len pfx + 2 * (Zlen buf - 1) <= len ->
  exists s, str_snprintf_bytes len pfx buf = Ok s.
Proof.
  unfold str_snprintf_bytes. destruct pfx; apply snprintf_bytes_loop_total.
Qed.

(** Dumping bytes in hexadecimal into a buffer of [len] characters stops
    the process as soon as the last byte would start beyond the buffer, and
    returns otherwise: [log_bytes] cannot print 8,194 bytes. *)
Theorem str_snprintf_bytes_limit (len : Z) (pfx : option (list byte)) (buf : list byte) :
  if bool_decide (buf = []) || (pfx_len pfx + 2 * (Zlen buf - 1) <=? len)
  then exists s, str_snprintf_bytes len pfx buf = Ok s
  else str_snprintf_bytes len pfx buf = Fault Panic.
Proof.
  case_bool_decide as Hb; cbn [orb]; [apply str_snprintf_bytes_total; by left|].
  destruct (Z.leb_spec (pfx_len pfx + 2 * (Zlen buf - 1)) len).
  - apply str_snprintf_bytes_total. by right.
  - unfold str_snprintf_bytes. destruct pfx; by apply snprintf_bytes_loop_panic.
Qed.
