(* ===== verification/Text.v ===== *)
(** * C strings and decimal numbers

    What the client uses of the C library's printf and scanf families and of
    its string functions. A C string is the list of its characters, the
    terminating NUL left out. *)
From Stdlib Require Import Strings.String.
From S2P Require Export Util.

Definition str (s : string) : list byte := list_byte_of_string s.

(** ** Printing and scanning *)

(** The decimal digits of a number below [10 ^ fuel]. *)
Fixpoint dec_str (fuel : nat) (n : Z) : list byte :=
  match fuel with
  | O => []
  | S fuel => (if n <? 10 then [] else dec_str fuel (n / 10)) ++ [Z_byte (48 + n mod 10)]
  end.

Definition is_digit (c : byte) : bool := (48 <=? byte_Z c) && (byte_Z c <=? 57).

Fixpoint skip_blank (s : list byte) : list byte :=
  match s with c :: t => if isspace c then skip_blank t else s | [] => [] end.

(** At most [w] digits: the value, how many, what follows. *)
Fixpoint scan_digits (w : nat) (s : list byte) (acc : Z) (n : nat) : Z * nat * list byte :=
  match w, s with
  | S w, c :: t => if is_digit c then scan_digits w t (acc * 10 + (byte_Z c - 48)) (S n) else (acc, n, s)
  | _, _ => (acc, n, s)
  end.

Fixpoint take_word (s : list byte) : list byte :=
  match s with c :: t => if isspace c then [] else c :: take_word t | [] => [] end.

(** The characters before the NUL. *)
Fixpoint c_string (bs : list byte) : option (list byte) :=
  match bs with
  | [] => None
  | c :: t => if bool_decide (c = x00) then Some [] else cons c <$> c_string t
  end.

(** ** Digits *)

Definition digits_val (acc : Z) (s : list byte) : Z := foldl (fun a c => a * 10 + (byte_Z c - 48)) acc s.

Lemma digits_val_app acc s t : digits_val acc (s ++ t) = digits_val (digits_val acc s) t.
Proof. apply foldl_app. Qed.

Lemma digits_val_acc s : forall acc, digits_val acc s = acc * 10 ^ Zlen s + digits_val 0 s.
Proof.
  unfold digits_val. induction s as [|c s IH]; intros acc; cbn [foldl].
  { rewrite Zlen_nil. lia. }
  rewrite Zlen_cons, IH, (IH (0 * 10 + _)). pose proof (Zlen_nonneg s). rewrite Z.pow_add_r by lia.
  change (10 ^ 1) with 10. ring.
Qed.

Lemma digit_byte n : 0 <= n < 10 -> byte_Z (Z_byte (48 + n)) = 48 + n /\ is_digit (Z_byte (48 + n)) = true.
Proof.
  intros Hn. unfold is_digit. rewrite !byte_Z_byte, Z.mod_small by lia. split; [done|].
  apply andb_true_iff. split; apply Z.leb_le; lia.
Qed.

Lemma dec_str_spec fuel : forall n k, 0 <= n < 10 ^ Z.of_nat k -> (0 < k <= fuel)%nat ->
  Forall (fun c => is_digit c = true) (dec_str fuel n) /\ (length (dec_str fuel n) <= k)%nat /\ digits_val 0 (dec_str fuel n) = n.
Proof.
  induction fuel as [|fuel IH]; intros n k Hn Hk; [lia|]. cbn [dec_str].
  assert (Hm : 0 <= n mod 10 < 10) by (apply Z.mod_pos_bound; lia). destruct (digit_byte _ Hm) as [Hv Hd].
  destruct (Z.ltb_spec n 10) as [Hs|Hs].
  { cbn [app length digits_val foldl]. rewrite Hv. split_and!; [by repeat constructor|lia|]. rewrite Z.mod_small by lia. lia. }
  destruct k as [|[|k]]; [lia|cbn in Hn; lia|].
  rewrite Nat2Z.inj_succ, Z.pow_succ_r in Hn by lia. destruct (IH (n / 10) (S k)) as (HF & Hl & Ev); [|lia|].
  { split; [apply Z.div_pos; lia|apply Z.div_lt_upper_bound; lia]. }
  rewrite length_app, digits_val_app, Ev. cbn [length digits_val foldl]. rewrite Hv.
  split_and!; [apply Forall_app; split; [done|by repeat constructor]|lia|]. pose proof (Z.div_mod n 10). lia.
Qed.

Lemma scan_digits_spec s rest : forall acc n, Forall (fun c => is_digit c = true) s ->
  scan_digits (length s) (s ++ rest) acc n = (digits_val acc s, (n + length s)%nat, rest).
Proof.
  induction s as [|c s IH]; intros acc n HF; cbn [length app scan_digits].
  { rewrite Nat.add_0_r. by destruct rest. }
  inversion_clear HF as [|? ? Hc HF']. rewrite Hc, IH by done. cbn. f_equal. f_equal. lia.
Qed.

Lemma is_digit_plain c : is_digit c = true -> isspace c = false /\ c <> x2d /\ c <> x2b /\ c <> x00.
Proof.
  unfold is_digit. intros [H1%Z.leb_le H2%Z.leb_le]%andb_true_iff.
  split; [|split_and!; intros ->; by vm_compute in H1]. unfold isspace. clear - H1 H2.
  destruct c; try done; exfalso; vm_compute in H1, H2; congruence.
Qed.

(** ** C strings *)

(** The characters a buffer that is used as a string stands for. *)
Fixpoint cstr (bs : list byte) : list byte :=
  match bs with
  | [] => []
  | c :: t => if bool_decide (c = x00) then [] else c :: cstr t
  end.

(** [strcmp], on unsigned characters; a string that ends is the smaller one. *)
Fixpoint strcmp (a b : list byte) : Z :=
  match a, b with
  | [], [] => 0
  | [], _ :: _ => -1
  | _ :: _, [] => 1
  | x :: a, y :: b => if byte_Z x =? byte_Z y then strcmp a b else if byte_Z x <? byte_Z y then -1 else 1
  end.

(** [tolower] in the C locale. *)
Definition tolower (c : byte) : byte :=
  let z := byte_Z c in if (65 <=? z) && (z <=? 90) then Z_byte (z + 32) else c.
Definition strcasecmp_eq (a b : list byte) : bool := bool_decide (map tolower a = map tolower b).

(** The characters before the first [c], and the rest. *)
Fixpoint break_at (c : byte) (s : list byte) : list byte * list byte :=
  match s with
  | [] => ([], [])
  | x :: t => if bool_decide (x = c) then ([], s) else let '(a, b) := break_at c t in (x :: a, b)
  end.

(** [strrchr(s, c)]: the position of the last [c]. *)
Fixpoint strrchr (s : list byte) (c : byte) : option nat :=
  match s with
  | [] => None
  | x :: t => match strrchr t c with
              | Some i => Some (S i)
              | None => if bool_decide (x = c) then Some 0%nat else None
              end
  end.

(** [%lld] of a signed 64-bit integer. *)
Definition print_d64 (z : Z) : list byte := if z <? 0 then x2d :: dec_str 20 (- z) else dec_str 20 z.

(** [atoll]: blanks, a sign, digits; the behaviour is undefined when the value
    does not fit. *)
Definition atoll (s : list byte) : res Z :=
  let s := skip_blank s in
  let '(neg, s) :=
    match s with
    | c :: t => if bool_decide (c = x2d) then (true, t) else if bool_decide (c = x2b) then (false, t) else (false, s)
    | [] => (false, s)
    end in
  let '(v, _, _) := scan_digits (length s) s 0 0 in
  let z := if neg : bool then - v else v in
  if (- 2 ^ 63 <=? z) && (z <? 2 ^ 63) then Ok z else Fault UB.

Lemma skip_blank_digit c t : is_digit c = true -> skip_blank (c :: t) = c :: t.
Proof. intros [Hs _]%is_digit_plain. cbn. by rewrite Hs. Qed.

Lemma dec_str_ne fuel n : dec_str (S fuel) n <> [].
Proof. cbn. intros [_ E]%app_eq_nil. done. Qed.

Lemma digits_nul s : Forall (fun c => is_digit c = true) s -> x00 ∉ s.
Proof. intros HF Hin. rewrite Forall_forall in HF. by destruct (is_digit_plain _ (HF _ Hin)) as (_ & _ & _ & ?). Qed.

Lemma atoll_digits s v : Forall (fun c => is_digit c = true) s -> digits_val 0 s = v -> s <> [] ->
  0 <= v < 2 ^ 63 -> atoll s = Ok v.
Proof.
  intros HF Hv Hne Hb. destruct s as [|c t]; [done|]. pose proof (scan_digits_spec (c :: t) [] 0 0 HF) as E.
  rewrite app_nil_r in E. inversion HF as [|? ? Hc _]; subst. destruct (is_digit_plain _ Hc) as (Hs & Hm & Hp & _).
  unfold atoll. rewrite skip_blank_digit, !bool_decide_eq_false_2, E by done. cbv zeta.
  rewrite (leb_t (- 2 ^ 63)), ltb_t by lia. done.
Qed.

(** A printed number is read back. *)
Lemma print_d64_spec z : - 2 ^ 63 <= z < 2 ^ 63 -> atoll (print_d64 z) = Ok z /\ x00 ∉ print_d64 z.
Proof.
  intros Hz. unfold print_d64. destruct (Z.ltb_spec z 0) as [Hn|Hn].
  - destruct (dec_str_spec 20 (- z) 20 ltac:(lia) ltac:(lia)) as (HF & _ & Ev). split.
    + pose proof (scan_digits_spec _ [] 0 0 HF) as E. rewrite app_nil_r in E.
      unfold atoll. cbn [skip_blank]. change (isspace x2d) with false. cbv iota.
      rewrite bool_decide_eq_true_2, E, Ev by done. cbv zeta. rewrite Z.opp_involutive, leb_t, ltb_t by lia. done.
    + apply not_elem_of_cons. split; [done|]. by apply digits_nul.
  - destruct (dec_str_spec 20 z 20 ltac:(lia) ltac:(lia)) as (HF & _ & Ev).
    split; [|by apply digits_nul]. apply atoll_digits; [done|done|apply dec_str_ne|lia].
Qed.

(** ** What the string functions do *)

Lemma cstr_app s t : x00 ∉ s -> cstr (s ++ x00 :: t) = s.
Proof.
  induction s as [|c s IH]; [done|]. intros [Hc Hs]%not_elem_of_cons. cbn [app cstr].
  rewrite bool_decide_eq_false_2, IH by congruence. done.
Qed.
Lemma cstr_id s : x00 ∉ s -> cstr s = s.
Proof.
  induction s as [|c s IH]; [done|]. intros [Hc Hs]%not_elem_of_cons. cbn [cstr].
  rewrite bool_decide_eq_false_2, IH by congruence. done.
Qed.
Lemma cstr_nul s : x00 ∉ cstr s.
Proof.
  induction s as [|c s IH]; cbn [cstr]; [apply not_elem_of_nil|]. case_bool_decide; [apply not_elem_of_nil|].
  apply not_elem_of_cons. by split; [congruence|].
Qed.

Lemma break_at_app c s t : c ∉ s -> break_at c (s ++ c :: t) = (s, c :: t).
Proof.
  induction s as [|x s IH]; cbn [app break_at].
  - intros _. by rewrite bool_decide_eq_true_2.
  - intros [Hc Hs]%not_elem_of_cons. rewrite bool_decide_eq_false_2, IH by congruence. done.
Qed.
Lemma break_at_none c s : c ∉ s -> break_at c s = (s, []).
Proof.
  induction s as [|x s IH]; cbn [break_at]; [done|].
  intros [Hc Hs]%not_elem_of_cons. rewrite bool_decide_eq_false_2, IH by congruence. done.
Qed.
Lemma break_at_length c s : (length (break_at c s).1 <= length s)%nat.
Proof.
  induction s as [|x s IH]; cbn [break_at]; [done|]. case_bool_decide; [cbn; lia|].
  destruct (break_at c s). cbn in *. lia.
Qed.

Lemma strrchr_last s c : strrchr (s ++ [c]) c = Some (length s).
Proof.
  induction s as [|x s IH]; cbn [app strrchr length]; [by rewrite bool_decide_eq_true_2|]. by rewrite IH.
Qed.

Lemma strcmp_refl a : strcmp a a = 0.
Proof. induction a as [|x a IH]; [done|]. cbn. by rewrite Z.eqb_refl. Qed.
Lemma byte_Z_inj x y : byte_Z x = byte_Z y -> x = y.
Proof. intros E. by rewrite <- (Z_byte_Z x), <- (Z_byte_Z y), E. Qed.
Lemma strcmp_eq a b : strcmp a b = 0 -> a = b.
Proof.
  revert b. induction a as [|x a IH]; intros [|y b]; cbn; [done..|].
  destruct (Z.eqb_spec (byte_Z x) (byte_Z y)) as [E|]; [intros H%IH; subst; by rewrite (byte_Z_inj _ _ E)|].
  by destruct (_ <? _).
Qed.
Lemma strcmp_flip a b : strcmp b a = - strcmp a b.
Proof.
  revert b. induction a as [|x a IH]; intros [|y b]; cbn; [done..|].
  rewrite (Z.eqb_sym (byte_Z y)). destruct (Z.eqb_spec (byte_Z x) (byte_Z y)) as [E|]; [apply IH|].
  destruct (Z.ltb_spec (byte_Z x) (byte_Z y)), (Z.ltb_spec (byte_Z y) (byte_Z x)); lia.
Qed.
Lemma strcmp_trans a b c : strcmp a b < 0 -> strcmp b c < 0 -> strcmp a c < 0.
Proof.
  revert b c. induction a as [|x a IH]; intros [|y b] [|z c]; cbn; try lia.
  destruct (Z.eqb_spec (byte_Z x) (byte_Z y)) as [->|], (Z.eqb_spec (byte_Z y) (byte_Z z)) as [E|]; try rewrite E.
  - apply IH.
  - destruct (Z.ltb_spec (byte_Z y) (byte_Z z)); lia.
  - rewrite (eqb_f (byte_Z x)) by (by rewrite <- E). rewrite <- E. destruct (Z.ltb_spec (byte_Z x) (byte_Z y)); lia.
  - destruct (Z.ltb_spec (byte_Z x) (byte_Z y)), (Z.ltb_spec (byte_Z y) (byte_Z z)); try lia.
    intros _ _. rewrite (eqb_f (byte_Z x) (byte_Z z)), ltb_t by lia. lia.
Qed.
