(* ===== verification/Buff.v ===== *)
(** * Byte buffers (core/buff.h)

    [struct buff] and its inline operations. A buffer is used in two ways:
    to parse a received block ([buff_init], [grow = 0]) and to build a message
    ([buff_alloc], [grow = 1]). The first half gives the operations, the second
    the two views the rest of the development reasons with: [rd pre post] for
    parsing and [gwf]/[contents]/[writes] for building. *)
From Stdlib Require Import Sorting.Sorted.
From S2P Require Export Prelude.

(** ** Sorting *)

(** Sorting by insertion: one of the ways to order a list. *)
Fixpoint insert_by {A : Type} (le : A -> A -> bool) (x : A) (l : list A) : list A :=
  match l with
  | [] => [x]
  | y :: t => if le x y then x :: l else y :: insert_by le x t
  end.
Definition isort {A : Type} (le : A -> A -> bool) (l : list A) : list A := foldr (insert_by le) [] l.

Section sort_lemmas.
Context {A : Type} (le : A -> A -> bool).
Hypothesis le_total : forall a b, le a b = false -> le b a = true.
Hypothesis le_trans : forall a b c, le a b = true -> le b c = true -> le a c = true.

Lemma insert_by_perm x l : insert_by le x l ≡ₚ x :: l.
Proof. induction l as [|y l IH]; cbn; [done|]. destruct (le x y); [done|]. rewrite IH. by constructor. Qed.

Lemma isort_perm l : isort le l ≡ₚ l.
Proof. induction l as [|x l IH]; [done|]. cbn. rewrite insert_by_perm. by constructor. Qed.

Lemma insert_by_sorted x l : StronglySorted (fun a b => le a b = true) l -> StronglySorted (fun a b => le a b = true) (insert_by le x l).
Proof.
  induction 1 as [|y l Hs IH Hy]; cbn; [by repeat constructor|]. destruct (le x y) eqn:E.
  - constructor; [by constructor|]. constructor; [done|]. eapply Forall_impl; [exact Hy|]. cbn. eauto.
  - constructor; [done|]. rewrite insert_by_perm. constructor; [by apply le_total|done].
Qed.

Lemma isort_sorted l : StronglySorted (fun a b => le a b = true) (isort le l).
Proof. induction l as [|x l IH]; [constructor|]. by apply insert_by_sorted. Qed.
End sort_lemmas.

(** What the C library leaves open. [malloc] leaves the block's bytes
    unspecified: [malloc_fill n] is what a fresh block of [n] bytes holds.
    Allocation is taken to succeed ([safe_malloc] stops the process otherwise).
    [qsort] orders an array by a comparison that is an order; which of two equal
    elements comes first is not said. *)
Class Malloc : Type := {
  malloc_fill : nat -> list byte;
  malloc_fill_length : forall n, length (malloc_fill n) = n;
  qsort : forall {A : Type}, (A -> A -> bool) -> list A -> list A;
  qsort_ok : forall {A : Type} (le : A -> A -> bool), (forall a b, le a b = false -> le b a = true) ->
    (forall a b c, le a b = true -> le b c = true -> le a c = true) ->
    forall l, qsort le l ≡ₚ l /\ StronglySorted (fun a b => le a b = true) (qsort le l)
}.

(** The library of the concrete examples: fresh blocks hold zeros. *)
Definition zero_malloc : Malloc :=
  {| malloc_fill := fun n => replicate n x00;
     malloc_fill_length := fun n => length_replicate n x00;
     qsort := @isort;
     qsort_ok := fun A le Ht Hc l => conj (isort_perm le l) (isort_sorted le Ht Hc l) |}.

Record buff : Type := Buff {
  b_base : list byte;
  b_len : Z;
  b_idx : Z;
  b_grow : bool
}.

(** ** Operations *)

(** [buf->idx + sz > buf->len]: the sum is a [size_t] and wraps around. *)
Definition buff_check_overflow (buf : buff) (sz : Z) : bool :=
  b_len buf <? wrap64 (b_idx buf + sz).

Definition buff_space_left : ST buff Z := fun buf =>
  (ASSERT (b_idx buf <=? b_len buf) ;;
   mret (wrap64 (b_len buf - b_idx buf), buf)).

(** The pointer [buf->base + buf->idx], as an offset into [base]. *)
Definition buff_curptr : ST buff Z := fun buf =>
  (ASSERT (b_idx buf <? b_len buf) ;; mret (b_idx buf, buf)).

Definition buff_base (buf : option buff) : ptr := b_base <$> buf.

Definition buff_maxlen (buf : option buff) : Z :=
  match buf with None => 0 | Some b => b_len b end.

Definition buff_curlen (buf : option buff) : Z :=
  match buf with None => 0 | Some b => b_idx b end.

Definition buff_set_idx (idx : Z) : ST buff unit := fun buf =>
  (ASSERT (idx <=? b_len buf) ;;
   mret (tt, Buff (b_base buf) (b_len buf) idx (b_grow buf))).

Definition buff_init (base : list byte) (len : Z) : buff :=
  Buff base len 0 false.

Definition buff_free_base (buf : buff) : buff :=
  Buff [] 0 0 (b_grow buf).

Section alloc.
Context `{Malloc}.

(** [safe_realloc(base, n)]: the common prefix is kept. *)
Definition safe_realloc (base : list byte) (n : Z) : list byte :=
  take (Z.to_nat n) base ++ malloc_fill (Z.to_nat n - length base)%nat.

Definition buff_resize (sz : Z) : ST buff unit := fun buf =>
  (ASSERT (b_grow buf) ;;
   let newlen := Z.max (wrap64 (b_len buf * 2)) (wrap64 (b_len buf + sz)) in
   mret (tt, Buff (safe_realloc (b_base buf) newlen) newlen
                  (b_idx buf) (b_grow buf))).

Definition buff_skip (len : Z) : ST buff bool := fun buf =>
  let ovf := buff_check_overflow buf len in
  if ovf && negb (b_grow buf) then Ok (true, buf) else
  ('(_, buf) ← (if ovf then buff_resize len buf else Ok (tt, buf));
   mret (false, Buff (b_base buf) (b_len buf)
                     (wrap64 (b_idx buf + len)) (b_grow buf))).

(** [src] is the caller's pointer: [len] bytes are read from it. *)
Definition buff_copy_to (src : ptr) (len : Z) : ST buff bool := fun dst =>
  let ovf := buff_check_overflow dst len in
  if ovf && negb (b_grow dst) then Ok (true, dst) else
  ('(_, dst) ← (if ovf then buff_resize len dst else Ok (tt, dst));
   if 0 <? len then
     '(off, dst) ← buff_curptr dst;
     bs ← ptr_load src len;
     base ← mem_store (b_base dst) off bs;
     mret (false, Buff base (b_len dst) (wrap64 (b_idx dst + len)) (b_grow dst))
   else mret (false, dst)).

(** The destination is an out-parameter: [None] is "left as it was". *)
Definition buff_copy_from (len : Z) : ST buff (bool * option (list byte)) := fun src =>
  if buff_check_overflow src len then Ok ((true, None), src) else
  if 0 <? len then
    ('(off, src) ← buff_curptr src;
     bs ← mem_load (b_base src) off len;
     mret ((false, Some bs),
           Buff (b_base src) (b_len src) (wrap64 (b_idx src + len)) (b_grow src)))
  else Ok ((false, Some []), src).

Definition buff_append (src : option buff) : ST buff bool :=
  match src with
  | None => mret false
  | Some s => buff_copy_to (Some (b_base s)) (b_idx s)
  end.

(** On a buffer whose base is not NULL the C code stops. *)
Definition buff_alloc_base (grow : bool) (len : Z) : buff :=
  Buff (malloc_fill (Z.to_nat len)) len 0 grow.

Definition buff_alloc : buff := Buff (malloc_fill 64) 64 0 true.

Definition buff_dup (buf : option buff) : res (bool * buff) :=
  buff_append buf buff_alloc.
End alloc.

(** ** Parsing: [rd pre post] is the buffer with [pre] consumed, [post] left *)

Definition rd (pre post : list byte) : buff :=
  Buff (pre ++ post) (Zlen (pre ++ post)) (Zlen pre) false.

(** Received blocks are far below the range of [size_t]. *)
Definition small (pre post : list byte) : Prop := Zlen pre + Zlen post < 2 ^ 62.

Lemma buff_init_rd bs : buff_init bs (Zlen bs) = rd [] bs.
Proof. done. Qed.

Lemma small_app pre bs post : small pre (bs ++ post) <-> small (pre ++ bs) post.
Proof. unfold small. zlen. lia. Qed.

Section rd_lemmas.
Context `{Malloc}.
Implicit Types pre bs post : list byte.

Lemma buff_check_overflow_rd pre post n :
  0 <= n < 2 ^ 63 -> small pre post ->
  buff_check_overflow (rd pre post) n = (Zlen post <? n).
Proof.
  intros Hn Hs. unfold buff_check_overflow, small in *. cbn. zlen. pose_Zlen.
  rewrite wrap64_small by lia. apply Bool.eq_true_iff_eq. rewrite !Z.ltb_lt. lia.
Qed.

Lemma buff_space_left_rd pre post :
  small pre post -> buff_space_left (rd pre post) = Ok (Zlen post, rd pre post).
Proof.
  intros Hs. unfold small, buff_space_left in *. cbn. zlen. pose_Zlen.
  decide_cmp. cbn. rewrite wrap64_small by lia. do 3 f_equal. lia.
Qed.

Lemma buff_curptr_rd pre post :
  buff_curptr (rd pre post) =
  if decide (post = []) then Fault Panic else Ok (Zlen pre, rd pre post).
Proof.
  unfold buff_curptr. cbn. zlen. case_decide as E.
  - subst. decide_cmp. done.
  - assert (0 < Zlen post) by (destruct post; [done|zlia]). decide_cmp. done.
Qed.

Lemma rd_advance pre bs post :
  Buff (pre ++ bs ++ post) (Zlen (pre ++ bs ++ post)) (Zlen (pre ++ bs)) false
  = rd (pre ++ bs) post.
Proof. unfold rd. by rewrite <- app_assoc. Qed.

Lemma buff_copy_from_rd pre bs post :
  small pre (bs ++ post) ->
  buff_copy_from (Zlen bs) (rd pre (bs ++ post)) = Ok ((false, Some bs), rd (pre ++ bs) post).
Proof.
  intros Hs. unfold buff_copy_from.
  assert (Zlen pre + Zlen bs + Zlen post < 2 ^ 62) by (unfold small in Hs; zlia).
  rewrite buff_check_overflow_rd by (zlia || done). decide_cmp. cbn match.
  destruct bs as [|b bs].
  { cbn. by rewrite app_nil_r. }
  decide_cmp. unfold mbind, res_bind. rewrite buff_curptr_rd, decide_False by done.
  cbn [rd b_base]. rewrite mem_load_app. cbn [rd b_base b_len b_idx b_grow].
  rewrite wrap64_small by zlia. rewrite <- Zlen_app. by rewrite rd_advance.
Qed.

Lemma buff_copy_from_short pre post n :
  small pre post -> Zlen post < n < 2 ^ 63 ->
  buff_copy_from n (rd pre post) = Ok ((true, None), rd pre post).
Proof.
  intros. unfold buff_copy_from. rewrite buff_check_overflow_rd by (zlia || done).
  decide_cmp. done.
Qed.

Lemma buff_skip_rd pre bs post :
  small pre (bs ++ post) ->
  buff_skip (Zlen bs) (rd pre (bs ++ post)) = Ok (false, rd (pre ++ bs) post).
Proof.
  intros Hs. unfold buff_skip.
  assert (Zlen pre + Zlen bs + Zlen post < 2 ^ 62) by (unfold small in Hs; zlia).
  rewrite buff_check_overflow_rd by (zlia || done). decide_cmp. cbn.
  rewrite wrap64_small by zlia. rewrite <- Zlen_app. by rewrite rd_advance.
Qed.

Lemma buff_skip_short pre post n :
  small pre post -> Zlen post < n < 2 ^ 63 ->
  buff_skip n (rd pre post) = Ok (true, rd pre post).
Proof.
  intros. unfold buff_skip. rewrite buff_check_overflow_rd by (zlia || done).
  decide_cmp. done.
Qed.
End rd_lemmas.

(** [parses m bs a]: whatever follows it, [m] consumes exactly [bs] and
    returns [a]. *)
Definition parses {A} (m : ST buff A) (bs : list byte) (a : A) : Prop :=
  forall pre post, small pre (bs ++ post) ->
    m (rd pre (bs ++ post)) = Ok (a, rd (pre ++ bs) post).

Section parses_lemmas.
Context {A B : Type}.

Lemma parses_ret (a : A) : parses (mret a) [] a.
Proof. intros pre post _. cbn. by rewrite app_nil_r. Qed.

Lemma parses_bind (m : ST buff A) (k : A -> ST buff B) bs1 bs2 a b :
  parses m bs1 a -> parses (k a) bs2 b -> parses (m ≫= k) (bs1 ++ bs2) b.
Proof.
  intros Hm Hk pre post Hs. rewrite <- app_assoc in *.
  rewrite (st_bind_Ok _ _ _ _ _ (Hm _ _ Hs)).
  rewrite app_assoc. apply Hk. by rewrite <- small_app.
Qed.

(** The last statement before the final [mret]. *)
Lemma parses_last (m : ST buff A) (k : A -> ST buff B) bs a b :
  parses m bs a -> k a = mret b -> parses (m ≫= k) bs b.
Proof.
  intros Hm Hk. rewrite <- (app_nil_r bs).
  intros pre post Hs. rewrite <- app_assoc in *.
  rewrite (st_bind_Ok _ _ _ _ _ (Hm _ _ Hs)), Hk. cbn. by rewrite app_nil_r.
Qed.

Lemma parses_space (k : Z -> ST buff A) bs a :
  (forall sp, Zlen bs <= sp < 2 ^ 62 -> parses (k sp) bs a) ->
  parses (buff_space_left ≫= k) bs a.
Proof.
  intros Hk pre post Hs.
  rewrite (st_bind_Ok _ _ _ _ _ (buff_space_left_rd _ _ Hs)).
  apply Hk; [|done]. unfold small in Hs. zlia.
Qed.
End parses_lemmas.

(** [ends m bs a]: given exactly [bs], [m] consumes them all and returns [a]
    (for parsers that check that nothing is left). *)
Definition ends {A} (m : ST buff A) (bs : list byte) (a : A) : Prop :=
  forall pre, small pre bs -> m (rd pre bs) = Ok (a, rd (pre ++ bs) []).

Lemma parses_ends {A} (m : ST buff A) bs a : parses m bs a -> ends m bs a.
Proof. intros Hm pre Hs. specialize (Hm pre []). rewrite app_nil_r in Hm. by apply Hm. Qed.

Lemma ends_ret {A} (a : A) : ends (mret a) [] a.
Proof. apply parses_ends, parses_ret. Qed.

Lemma ends_bind {A B} (m : ST buff A) (k : A -> ST buff B) bs1 bs2 a b :
  parses m bs1 a -> ends (k a) bs2 b -> ends (m ≫= k) (bs1 ++ bs2) b.
Proof.
  intros Hm Hk pre Hs. rewrite (st_bind_Ok _ _ _ _ _ (Hm _ _ Hs)).
  rewrite app_assoc. apply Hk. by rewrite <- small_app.
Qed.

Lemma ends_space {A} (k : Z -> ST buff A) bs a :
  ends (k (Zlen bs)) bs a -> ends (buff_space_left ≫= k) bs a.
Proof.
  intros Hk pre Hs. rewrite (st_bind_Ok _ _ _ _ _ (buff_space_left_rd _ _ Hs)). by apply Hk.
Qed.

Tactic Notation "end_step" uconstr(lem) :=
  eapply ends_bind; [eapply lem | cbn beta iota; cbn [orb]].

(** One step of a [parses] proof: the first statement by [lem]. *)
Tactic Notation "parse_step" uconstr(lem) :=
  eapply parses_bind; [eapply lem | cbn beta iota; cbn [orb]].
Tactic Notation "parse_last" uconstr(lem) :=
  eapply parses_last; [eapply lem | reflexivity].

(** What a parser may do in front of any bytes [post]: it does not fault, it
    only moves forward, and [Q] holds of its result and of the bytes it
    consumed. *)
Definition safe_at {A} (post : list byte) (m : ST buff A) (Q : A -> list byte -> Prop) : Prop :=
  forall pre, small pre post ->
    exists a bs post', post = bs ++ post' /\
      m (rd pre post) = Ok (a, rd (pre ++ bs) post') /\ Q a bs.

Section safe_lemmas.
Context {A B : Type}.
Implicit Types post : list byte.

Lemma safe_ret post (a : A) (Q : A -> list byte -> Prop) :
  Q a [] -> safe_at post (mret a) Q.
Proof. intros HQ pre _. exists a, [], post. by rewrite app_nil_r. Qed.

Lemma safe_bind post (m : ST buff A) (k : A -> ST buff B) P Q :
  safe_at post m P ->
  (forall a bs1 post1, post = bs1 ++ post1 -> P a bs1 ->
     safe_at post1 (k a) (fun b bs2 => Q b (bs1 ++ bs2))) ->
  safe_at post (m ≫= k) Q.
Proof.
  intros Hm Hk pre Hs.
  destruct (Hm _ Hs) as (a & bs1 & post1 & -> & E1 & HP).
  destruct (Hk a bs1 post1 eq_refl HP (pre ++ bs1)) as (b & bs2 & post2 & -> & E2 & HQ).
  { by rewrite <- small_app. }
  exists b, (bs1 ++ bs2), post2. rewrite <- !app_assoc in *. repeat split; [|done].
  rewrite (st_bind_Ok _ _ _ _ _ E1). rewrite E2. done.
Qed.

Lemma safe_weaken post (m : ST buff A) (P Q : A -> list byte -> Prop) :
  safe_at post m P -> (forall a bs, P a bs -> Q a bs) -> safe_at post m Q.
Proof.
  intros Hm HQ pre Hs. destruct (Hm _ Hs) as (a & bs & post' & -> & E & HP).
  exists a, bs, post'. eauto.
Qed.

Lemma safe_space post (k : Z -> ST buff A) Q :
  safe_at post (k (Zlen post)) Q -> safe_at post (buff_space_left ≫= k) Q.
Proof.
  intros Hk pre Hs. destruct (Hk _ Hs) as (a & bs & post' & E & E' & HQ).
  exists a, bs, post'. rewrite (st_bind_Ok _ _ _ _ _ (buff_space_left_rd _ _ Hs)). done.
Qed.

(** A parser that consumes what it is given is safe in front of it. *)
Lemma parses_safe post (m : ST buff A) bs a :
  parses m bs a -> safe_at (bs ++ post) m (fun a' bs' => a' = a /\ bs' = bs).
Proof. intros Hm pre Hs. exists a, bs, post. eauto. Qed.
End safe_lemmas.

(** The result of copying [n] bytes out: all of them, or an error that leaves
    the buffer where it was. *)
Definition copied (n : Z) (r : bool * option (list byte)) (bs : list byte) : Prop :=
  r = (true, None) /\ bs = [] \/ r = (false, Some bs) /\ Zlen bs = n.

Lemma buff_copy_from_enough post n :
  0 <= n <= Zlen post ->
  safe_at post (buff_copy_from n) (fun r bs => r = (false, Some bs) /\ Zlen bs = n).
Proof.
  intros Hn pre Hs. set (bs := take (Z.to_nat n) post).
  assert (Hl : Zlen bs = n) by (unfold bs, Zlen in *; rewrite length_take; lia).
  exists (false, Some bs), bs, (drop (Z.to_nat n) post).
  unfold bs at 1. rewrite take_drop. split; [done|]. split; [|done].
  rewrite <- (take_drop (Z.to_nat n) post) at 1. fold bs. rewrite <- Hl at 1.
  apply buff_copy_from_rd. unfold bs. by rewrite take_drop.
Qed.

Lemma buff_copy_from_safe post n :
  0 <= n < 2 ^ 63 -> safe_at post (buff_copy_from n) (copied n).
Proof.
  intros Hn. destruct (decide (n <= Zlen post)) as [E|E].
  - eapply safe_weaken; [apply buff_copy_from_enough; lia|]. right; naive_solver.
  - intros pre Hs. exists (true, None), [], post. rewrite app_nil_r. split; [done|].
    split; [|by left]. apply buff_copy_from_short; [done | lia].
Qed.

(** One step of a safety proof: the first statement by [lem], the rest next. *)
Tactic Notation "safe_step" uconstr(lem) "as" simple_intropattern(a) simple_intropattern(pat) :=
  eapply safe_bind; [eapply lem | intros a ? ? ? pat; cbn beta iota; subst].

(** ** Building: what a growable buffer holds, and how operations extend it *)

(** The bytes written so far. *)
Definition contents (b : buff) : list byte := take (Z.to_nat (b_idx b)) (b_base b).

(** A buffer from [buff_alloc]: its block is at most twice what was written
    (and at least the initial 64 bytes). *)
Record gwf (b : buff) : Prop := {
  gwf_grow : b_grow b = true;
  gwf_base : b_len b = Zlen (b_base b);
  gwf_idx : 0 <= b_idx b <= b_len b;
  gwf_len : b_len b <= Z.max 64 (2 * b_idx b)
}.

(** Sizes the address space cannot reach: no [size_t] computation wraps. *)
Definition size_max : Z := 2 ^ 60.

Lemma contents_length b : gwf b -> Zlen (contents b) = b_idx b.
Proof.
  intros [? Hb ? ?]. unfold contents, Zlen in *. rewrite length_take. lia.
Qed.

Lemma contents_split b :
  gwf b -> b_base b = contents b ++ drop (Z.to_nat (b_idx b)) (b_base b).
Proof. intros _. unfold contents. by rewrite take_drop. Qed.

(** [m] appends exactly [bs] and reports success. *)
Definition writes (m : ST buff bool) (bs : list byte) : Prop :=
  forall b, gwf b -> b_idx b + Zlen bs <= size_max ->
    exists b', m b = Ok (false, b') /\ gwf b' /\ contents b' = contents b ++ bs.

Section writes_lemmas.
Context `{Malloc}.

Lemma safe_realloc_length base n :
  0 <= n -> Zlen (safe_realloc base n) = n.
Proof.
  intros. unfold safe_realloc, Zlen. rewrite length_app, length_take, malloc_fill_length. lia.
Qed.

Lemma safe_realloc_take base n k :
  (k <= length base)%nat -> Z.of_nat k <= n -> take k (safe_realloc base n) = take k base.
Proof.
  intros. unfold safe_realloc. rewrite take_app_le by (rewrite length_take; lia).
  rewrite take_take. f_equal. lia.
Qed.

Lemma gwf_alloc : gwf buff_alloc.
Proof.
  split; cbn [buff_alloc b_grow b_len b_base b_idx]; [done| |lia|lia].
  unfold Zlen. by rewrite malloc_fill_length.
Qed.

Lemma contents_alloc : contents buff_alloc = [].
Proof. done. Qed.

(** Growing keeps the contents and makes room for [sz] more bytes. *)
Lemma buff_resize_spec b sz :
  gwf b -> 0 <= sz -> b_idx b + sz <= size_max -> b_len b < b_idx b + sz ->
  exists b', buff_resize sz b = Ok (tt, b') /\ gwf (Buff (b_base b') (b_len b') (b_idx b + sz) true) /\
    b_idx b' = b_idx b /\ b_grow b' = true /\ b_len b' = Zlen (b_base b') /\
    contents b' = contents b.
Proof.
  intros [Hg Hb Hi Hl] Hsz Hmax Hov. unfold buff_resize, size_max in *. rewrite Hg. cbn.
  rewrite !wrap64_small by lia.
  set (n := Z.max _ _). assert (Hn : Zlen (safe_realloc (b_base b) n) = n)
    by (apply safe_realloc_length; lia).
  eexists. split; [reflexivity|]. cbn. split_and!; try done.
  - split; cbn; [done | by rewrite Hn | lia | lia].
  - unfold contents. cbn. apply safe_realloc_take; unfold Zlen in Hb; lia.
Qed.

Lemma buff_copy_to_spec b src bs :
  gwf b -> ptr_load src (Zlen bs) = Ok bs -> b_idx b + Zlen bs <= size_max ->
  exists b', buff_copy_to src (Zlen bs) b = Ok (false, b') /\ gwf b' /\
    contents b' = contents b ++ bs.
Proof.
  intros Hw Hp Hmax. unfold buff_copy_to. pose proof (gwf_grow b Hw) as Hg.
  rewrite Hg. cbn [negb]. rewrite andb_false_r.
  assert (exists b1, (if buff_check_overflow b (Zlen bs) then buff_resize (Zlen bs) b
                      else Ok (tt, b)) = Ok (tt, b1) /\
            gwf (Buff (b_base b1) (b_len b1) (b_idx b1 + Zlen bs) true) /\
            b_idx b1 = b_idx b /\ b_grow b1 = true /\ contents b1 = contents b)
    as (b1 & E1 & Hw1 & Hi1 & Hg1 & Hc1).
  { unfold buff_check_overflow, size_max in *. pose proof (gwf_idx b Hw).
    rewrite wrap64_small by zlia. destruct (Z.ltb_spec (b_len b) (b_idx b + Zlen bs)).
    - destruct (buff_resize_spec b (Zlen bs)) as (b1 & ? & ? & Hi & ? & ? & ?);
        try (done || zlia). exists b1. by rewrite Hi.
    - exists b. split_and!; try done. destruct Hw. split; cbn; try done; zlia. }
  unfold mbind, res_bind. rewrite E1. destruct Hw1 as [_ Hb Hx Hl]. cbn in Hb, Hx, Hl.
  pose proof (gwf_idx b Hw) as Hidx.
  destruct (Z.ltb_spec 0 (Zlen bs)) as [Hpos|Hz].
  - unfold buff_curptr. decide_cmp. cbn. rewrite Hp.
    unfold mem_store. rewrite Hi1 in *. decide_cmp.
    unfold size_max in *. rewrite wrap64_small by lia. rewrite Hg1.
    set (base' := take _ _ ++ _).
    assert (Ht : take (Z.to_nat (b_idx b)) (b_base b1) = contents b)
      by (rewrite <- Hc1; unfold contents; by rewrite Hi1).
    assert (Hlc : Zlen (contents b) = b_idx b) by (by apply contents_length).
    assert (Hl' : Zlen base' = Zlen (b_base b1)).
    { unfold base'. rewrite Ht. zlen. rewrite Hlc. unfold Zlen in *. rewrite length_drop. lia. }
    eexists. split; [reflexivity|]. split.
    + split; cbn; [done | congruence | lia | lia].
    + unfold contents at 1. cbn. unfold base'. rewrite Ht, app_assoc.
      apply take_app_length'. rewrite length_app. unfold Zlen in *. lia.
  - destruct bs; [|zlia]. exists b1. split; [done|]. rewrite app_nil_r. split; [|done].
    rewrite Zlen_nil, Z.add_0_r in *. destruct b1; cbn in *; subst. by split.
Qed.

Lemma writes_copy src bs :
  ptr_load src (Zlen bs) = Ok bs -> writes (buff_copy_to src (Zlen bs)) bs.
Proof. intros Hp b Hw Hm. by apply buff_copy_to_spec. Qed.

Lemma writes_nil : writes (mret false) [].
Proof. intros b Hw _. exists b. by rewrite app_nil_r. Qed.

(** [res = m1; if (res) return res; m2] *)
Lemma writes_bind m k bs1 bs2 :
  writes m bs1 -> writes (k false) bs2 -> writes (m ≫= k) (bs1 ++ bs2).
Proof.
  intros Hm Hk b Hw Hmax. zlen. pose_Zlen.
  destruct (Hm b Hw) as (b1 & E1 & Hw1 & Hc1); [lia|].
  pose proof (contents_length _ Hw1) as Hl. rewrite Hc1, Zlen_app, contents_length in Hl by done.
  destruct (Hk b1 Hw1) as (b2 & E2 & Hw2 & Hc2); [lia|].
  exists b2. rewrite (st_bind_Ok _ _ _ _ _ E1). split; [done|]. split; [done|].
  by rewrite Hc2, Hc1, app_assoc.
Qed.

Lemma writes_lift {A} (m : res A) k a bs :
  m = Ok a -> writes (k a) bs -> writes (lift m ≫= k) bs.
Proof. by intros ->. Qed.

Lemma writes_append (s : buff) :
  gwf s -> writes (buff_append (Some s)) (contents s).
Proof.
  intros Hs. cbn. rewrite <- (contents_length s Hs). apply writes_copy.
  rewrite (contents_split s Hs) at 1. apply ptr_load_prefix.
Qed.
End writes_lemmas.

(** [res |= c]: both statements run, the error flags are or-ed. *)
Definition or_err (m1 m2 : ST buff bool) : ST buff bool :=
  r1 ← m1; r2 ← m2; mret (r1 || r2).
Notation "m1 '|=|' m2" := (or_err m1 m2)
  (at level 55, right associativity) : bitc_scope.
#[global] Open Scope bitc_scope.

Lemma writes_or m1 m2 bs1 bs2 :
  writes m1 bs1 -> writes m2 bs2 -> writes (m1 |=| m2) (bs1 ++ bs2).
Proof.
  intros H1 H2. apply writes_bind; [done|]. rewrite <- (app_nil_r bs2).
  apply writes_bind; [done|]. apply writes_nil.
Qed.
#[export] Hint Resolve writes_nil writes_or writes_append : bitc.

(** ** Properties *)

(** A buffer over a block of its own size, growable or not. *)
Record buff_ok (b : buff) : Prop := {
  ok_base : b_len b = Zlen (b_base b);
  ok_idx : 0 <= b_idx b <= b_len b;
  ok_len : b_len b <= size_max
}.

(** buff_copy_to appends exactly the caller's bytes, growing the block when
    they do not fit; a buffer that may not grow reports the error and is left as
    it was. In every case what was written before is kept and the buffer stays
    within its block. *)
Theorem buff_copy_to_appends `{Malloc} b src bs :
  buff_ok b -> (b_grow b = true -> gwf b) ->
  ptr_load src (Zlen bs) = Ok bs -> b_idx b + Zlen bs <= size_max ->
  exists r b', buff_copy_to src (Zlen bs) b = Ok (r, b') /\
    (r = negb (b_grow b) && (b_len b <? b_idx b + Zlen bs)) /\
    (r = true -> b' = b) /\
    (r = false -> contents b' = contents b ++ bs) /\
    b_len b' = Zlen (b_base b') /\ 0 <= b_idx b' <= b_len b' /\ b_grow b' = b_grow b.
Proof.
  intros [Hb Hi Hl] Hg Hp Hm. pose_Zlen. destruct (b_grow b) eqn:Eg.
  - destruct (buff_copy_to_spec b src bs) as (b' & E & Hw & Hc); auto.
    exists false, b'. destruct Hw. split_and!; auto; lia.
  - unfold buff_copy_to, buff_check_overflow, size_max in *. rewrite wrap64_small, Eg by lia.
    destruct (Z.ltb_spec (b_len b) (b_idx b + Zlen bs)) as [Ho|Ho].
    { exists true, b. cbn. split_and!; (done || lia). }
    cbn. rewrite Hp. destruct (Z.ltb_spec 0 (Zlen bs)).
    2: { exists false, b. destruct bs; [|zlia]. rewrite app_nil_r. split_and!; (done || lia). }
    unfold buff_curptr. decide_cmp. cbn. unfold mem_store. decide_cmp. cbn.
    rewrite wrap64_small by lia. set (base' := take _ _ ++ _).
    assert (Hc : Zlen (contents b) = b_idx b)
      by (unfold contents, Zlen in *; rewrite length_take; lia).
    assert (Hl' : Zlen base' = Zlen (b_base b)).
    { unfold base'. fold (contents b). zlen. unfold Zlen in *. rewrite length_drop. lia. }
    eexists false, _. split; [reflexivity|]. cbn. split_and!; try done; try lia.
    intros _. unfold contents at 1. cbn. unfold base'. fold (contents b). rewrite app_assoc.
    apply take_app_length'. rewrite length_app. unfold Zlen in *. lia.
Qed.

Lemma buff_copy_to_appends_witness :
  let bs := replicate 70 x07 in
  exists r b', @buff_copy_to zero_malloc (Some bs) (Zlen bs) (@buff_alloc zero_malloc) = Ok (r, b') /\
    r = false /\ contents b' = bs.
Proof.
  destruct (@buff_copy_to_appends zero_malloc (@buff_alloc zero_malloc)
              (Some (replicate 70 x07)) (replicate 70 x07)) as (r & b' & E & Hr & _ & Hc & _).
  - split; vm_compute; split || idtac; congruence.
  - intros _. apply gwf_alloc.
  - apply ptr_load_all.
  - vm_compute. congruence.
  - exists r, b'. subst r. auto.
Defined.

(** The sum in buff_check_overflow wraps around, so a length close to 2^64
    passes the check and the copy leaves the block: the bound on such lengths
    is the callers' (deserialize_tx and the message parsers check them, the
    property [deserialize_tx_safe]). *)
Theorem buff_copy_from_wraps pre post n :
  small pre post -> post <> [] -> 2 ^ 64 - Zlen pre <= n < 2 ^ 64 ->
  buff_copy_from n (rd pre post) = Fault UB.
Proof.
  intros Hs Hp Hn. unfold buff_copy_from, buff_check_overflow, small in *. cbn. zlen. pose_Zlen.
  unfold wrap64. replace (Zlen pre + n) with (Zlen pre + n - 2 ^ 64 + 1 * 2 ^ 64) by lia.
  rewrite Z_mod_plus_full, Z.mod_small by lia. decide_cmp.
  rewrite buff_curptr_rd, decide_False by done. cbn. unfold mem_load. zlen.
  rewrite (leb_f (Zlen pre + n)) by lia. by rewrite andb_false_r.
Qed.

Lemma buff_copy_from_wraps_witness :
  buff_copy_from (2 ^ 64 - 1) (rd [x01] [x02]) = Fault UB.
Proof.
  apply (buff_copy_from_wraps [x01] [x02]); [vm_compute; congruence | done |].
  split; vm_compute; congruence.
Defined.
