(* ===== verification/Messages.v ===== *)
(** * Protocol constants and message records (core/bitc-defs.h, core/hash.h) *)
From S2P Require Export Prelude.

(** [uint256]/[uint160] are arrays of 32 and 20 bytes. *)
Abbreviation uint256 := (list byte).
Abbreviation uint160 := (list byte).
Definition is_uint256 (h : uint256) : Prop := length h = 32%nat.
Definition is_uint160 (h : uint160) : Prop := length h = 20%nat.

Definition uint256_zero_out : uint256 := replicate 32 x00.
Definition uint160_zero_out : uint160 := replicate 20 x00.

(** [memcmp(a, b, sizeof) == 0] *)
Definition uint256_issame (a b : uint256) : bool := bool_decide (a = b).
Definition uint160_issame (a b : uint160) : bool := bool_decide (a = b).

(** The argument may be NULL. *)
Definition uint256_iszero (h : option uint256) : bool :=
  match h with None => true | Some h => uint256_issame uint256_zero_out h end.
Definition uint160_iszero (h : option uint160) : bool :=
  match h with None => true | Some h => uint160_issame uint160_zero_out h end.

Definition BTC_PROTO_VERSION : Z := 70016.
Definition BTC_NET_MAGIC_MAIN : Z := 0xD9B4BEF9.
Definition BTC_NET_MAGIC_TESTNET : Z := 0x0709110B.
Definition BTC_TX_MAX_SIZE : Z := 128 * 1024.
Definition BTC_MSG_INV_MAX_ENTRIES : Z := 50000.
Definition BTC_MSG_GETDATA_MAX_ENTRIES : Z := 50000.
Definition BTC_MSG_GETHEADERS_MAX_ENTRIES : Z := 2000.
Definition BTC_MSG_ADDR_MAX_ENTRIES : Z := 1000.
Definition BTC_MSG_NOTFOUND_MAX_ENTRIES : Z := 50000.
Definition BTC_MSG_MAX_PAYLOAD_LENGTH : Z := 32 * 1024 * 1024.

Definition BTC_PROTO_MIN : Z := 10000.
Definition BTC_PROTO_PING : Z := 60000.
Definition BTC_PROTO_FILTERING : Z := 70001.
Definition BTC_PROTO_ADDR_W_TIME : Z := 31402.

Definition INV_TYPE_ERROR : Z := 0.
Definition INV_TYPE_MSG_TX : Z := 1.
Definition INV_TYPE_MSG_BLOCK : Z := 2.

Inductive btc_msg_type : Set :=
| BTC_MSG_UNKNOWN | BTC_MSG_VERSION | BTC_MSG_VERACK | BTC_MSG_INV
| BTC_MSG_GETADDR | BTC_MSG_ADDR | BTC_MSG_GETHEADERS | BTC_MSG_HEADERS
| BTC_MSG_PING | BTC_MSG_PONG | BTC_MSG_GETBLOCKS | BTC_MSG_BLOCK
| BTC_MSG_GETDATA | BTC_MSG_TX | BTC_MSG_MEMPOOL | BTC_MSG_ALERT
| BTC_MSG_NOTFOUND | BTC_MSG_SENDHEADERS | BTC_MSG_SENDCMPCT
| BTC_MSG_CMPCTBLOCK | BTC_MSG_GETBLOCKTXN | BTC_MSG_BLOCKTXN
| BTC_MSG_FEEFILTER | BTC_MSG_WTXIDRELAY | BTC_MSG_SENDADDRV2
| BTC_MSG_ADDRV2 | BTC_MSG_GETCFILTERS | BTC_MSG_CFILTER
| BTC_MSG_GETCFHEADERS | BTC_MSG_CFHEADERS | BTC_MSG_GETCFCHECKPT
| BTC_MSG_CFCHECKPT.

#[export] Instance btc_msg_type_eq_dec : EqDecision btc_msg_type.
Proof. solve_decision. Defined.

Record btc_msg_header : Type := MsgHeader {
  h_magic : Z; h_message : list byte; h_payloadLength : Z; h_checksum : list byte }.

Record btc_msg_address : Type := MsgAddress {
  a_services : Z; a_ip : list byte; a_time : Z; a_port : Z }.

Record btc_msg_version : Type := MsgVersion {
  v_version : Z; v_services : Z; v_time : Z;
  v_addrTo : btc_msg_address; v_addrFrom : btc_msg_address;
  v_nonce : Z; v_strVersion : list byte; v_startingHeight : Z; v_relayTx : Z }.

Record btc_msg_inv : Type := MsgInv { inv_type : Z; inv_hash : uint256 }.

Record btc_block_header : Type := BlockHeader {
  bh_version : Z; bh_prevBlock : uint256; bh_merkleRoot : uint256;
  bh_timestamp : Z; bh_bits : Z; bh_nonce : Z }.

Record btc_block_locator : Type := BlockLocator {
  bl_protversion : Z; bl_numHashes : Z; bl_hashStop : uint256; bl_hashArray : list uint256 }.

Record btc_msg_tx_in : Type := TxIn {
  ti_prevTxHash : uint256; ti_prevTxOutIdx : Z; ti_scriptLength : Z;
  ti_scriptSig : ptr; ti_sequence : Z }.

Record btc_msg_tx_out : Type := TxOut {
  to_value : Z; to_scriptLength : Z; to_scriptPubKey : ptr }.

(** The arrays are [[]] for a NULL pointer and for an empty allocation. *)
Record btc_msg_tx : Type := Tx {
  tx_in_count : Z; tx_in : list btc_msg_tx_in;
  tx_out_count : Z; tx_out : list btc_msg_tx_out;
  tx_version : Z; tx_lock_time : Z }.

Record btc_msg_block : Type := Block {
  blk_header : btc_block_header; blk_txCount : Z; blk_tx : list btc_msg_tx }.

Record btc_msg_getcfilters : Type := GetCFilters {
  gcf_filterType : Z; gcf_startHeight : Z; gcf_stopHash : uint256 }.
Record btc_msg_cfilter : Type := CFilter {
  cf_filterType : Z; cf_blockHash : uint256; cf_numBytes : Z; cf_filterData : ptr }.
Record btc_msg_getcfheaders : Type := GetCFHeaders {
  gch_filterType : Z; gch_startHeight : Z; gch_stopHash : uint256 }.
Record btc_msg_cfheaders : Type := CFHeaders {
  cfh_filterType : Z; cfh_stopHash : uint256; cfh_prevFilterHeader : uint256;
  cfh_numHeaders : Z; cfh_filterHashes : option (list uint256) }.
Record btc_msg_getcfcheckpt : Type := GetCFCheckpt {
  gcc_filterType : Z; gcc_stopHash : uint256 }.
Record btc_msg_cfcheckpt : Type := CFCheckpt {
  cfc_filterType : Z; cfc_stopHash : uint256; cfc_numHeaders : Z;
  cfc_filterHeaders : option (list uint256) }.

(** [memset(x, 0, sizeof *x)] of the records. *)
Definition zero_tx_in : btc_msg_tx_in := TxIn uint256_zero_out 0 0 None 0.
Definition zero_tx_out : btc_msg_tx_out := TxOut 0 0 None.
Definition zero_tx : btc_msg_tx := Tx 0 [] 0 [] 0 0.
Definition zero_address : btc_msg_address := MsgAddress 0 (replicate 16 x00) 0 0.
Definition zero_version : btc_msg_version :=
  MsgVersion 0 0 0 zero_address zero_address 0 (replicate 80 x00) 0 0.
Definition zero_blockheader : btc_block_header :=
  BlockHeader 0 uint256_zero_out uint256_zero_out 0 0 0.
Definition zero_inv : btc_msg_inv := MsgInv 0 uint256_zero_out.

#[export] Instance btc_msg_address_eq_dec : EqDecision btc_msg_address.
Proof. solve_decision. Defined.
#[export] Instance btc_block_header_eq_dec : EqDecision btc_block_header.
Proof. solve_decision. Defined.

(** ** Well-formed values: every field fits its C type *)

Definition wf_address (a : btc_msg_address) : Prop :=
  u64 (a_services a) /\ length (a_ip a) = 16%nat /\ u32 (a_time a) /\ u16 (a_port a).
Definition wf_inv (i : btc_msg_inv) : Prop := u32 (inv_type i) /\ is_uint256 (inv_hash i).
Definition wf_blockheader (h : btc_block_header) : Prop :=
  u32 (bh_version h) /\ is_uint256 (bh_prevBlock h) /\ is_uint256 (bh_merkleRoot h) /\
  u32 (bh_timestamp h) /\ u32 (bh_bits h) /\ u32 (bh_nonce h).

(** A script pointer with its length; the lengths and counts serialize_varint
    can represent are those below 2^32. *)
Definition wf_script (p : ptr) (len : Z) : Prop :=
  exists s, p = Some s /\ Zlen s = len /\ u32 len.
Definition wf_tx_in (t : btc_msg_tx_in) : Prop :=
  is_uint256 (ti_prevTxHash t) /\ u32 (ti_prevTxOutIdx t) /\ u32 (ti_sequence t) /\
  wf_script (ti_scriptSig t) (ti_scriptLength t).
Definition wf_tx_out (t : btc_msg_tx_out) : Prop :=
  u64 (to_value t) /\ wf_script (to_scriptPubKey t) (to_scriptLength t).
Definition wf_tx (t : btc_msg_tx) : Prop :=
  u32 (tx_version t) /\ u32 (tx_lock_time t) /\
  tx_in_count t = Zlen (tx_in t) /\ u32 (tx_in_count t) /\ Forall wf_tx_in (tx_in t) /\
  tx_out_count t = Zlen (tx_out t) /\ u32 (tx_out_count t) /\ Forall wf_tx_out (tx_out t).

Lemma uint256_issame_iff a b : uint256_issame a b = true <-> a = b.
Proof. apply bool_decide_eq_true. Qed.
Lemma uint256_issame_refl a : uint256_issame a a = true.
Proof. by apply uint256_issame_iff. Qed.
Lemma uint256_iszero_iff h : uint256_iszero (Some h) = true <-> h = uint256_zero_out.
Proof. cbn. rewrite uint256_issame_iff. naive_solver. Qed.
