(* ===== verification/Serialize.v ===== *)
(** * Wire serialization (core/serialize.c)

    The operations are in the order of the source file's call graph. An [int]
    status is a [bool], [true] for the nonzero (error) value; an out-parameter
    is an argument (its value before the call) and a result. Integers are
    copied in the machine's byte order, little-endian. *)
From S2P Require Export Buff Messages.

Section serialize.
Context `{Malloc}.

Definition deserialize_bytes (len : Z) : ST buff (bool * option (list byte)) :=
  buff_copy_from len.

(** The integer types share one body: [deserialize_bytes(buf, val, sizeof *val)]. *)
Definition deserialize_int (n : nat) (val : Z) : ST buff (bool * Z) :=
  '(res, bs) ← deserialize_bytes (Z.of_nat n);
  mret (res, match bs with Some bs => le_Z bs | None => val end).

Definition deserialize_uint8 : Z -> ST buff (bool * Z) := deserialize_int 1.
Definition deserialize_uint16 : Z -> ST buff (bool * Z) := deserialize_int 2.
Definition deserialize_uint32 : Z -> ST buff (bool * Z) := deserialize_int 4.
Definition deserialize_uint64 : Z -> ST buff (bool * Z) := deserialize_int 8.

Definition deserialize_uint256 (val : uint256) : ST buff (bool * uint256) :=
  '(res, bs) ← deserialize_bytes 32;
  mret (res, default val bs).

Definition deserialize_varint (val : Z) : ST buff (bool * Z) :=
  '(res, c) ← deserialize_uint8 0;
  if (res : bool) then mret (res, val) else
  if c <? 253 then mret (res, c)
  else if c =? 253 then deserialize_uint16 0
  else if c =? 254 then deserialize_uint32 0
  else deserialize_uint64 0.

(** The destination is zeroed first; [size] is its size. *)
Definition deserialize_str (size : nat) : ST buff (bool * list byte) :=
  let str := replicate size x00 in
  '(res, len) ← deserialize_varint 0;
  if (res : bool) then mret (res, str) else
  if len =? 0 then mret (false, str) else
  if Z.of_nat size <=? len then mret (true, str) else
  '(res, bs) ← deserialize_bytes len;
  mret (res, match bs with
             | Some bs => bs ++ drop (length bs) str
             | None => str end).

(** [*str] and [*len]; a string is copied with a terminating NUL. *)
Definition deserialize_str_alloc : ST buff (bool * (ptr * Z)) :=
  '(res, length) ← deserialize_varint 0;
  if (res : bool) then mret (res, (None, 0)) else
  if length =? 0 then mret (false, (None, 0)) else
  sp ← buff_space_left;
  if sp <? length then mret (true, (None, 0)) else
  '(res, bs) ← deserialize_bytes length;
  match bs with
  | Some bs => mret (res, (Some (bs ++ [x00]), length))
  | None => mret (true, (None, 0))
  end.

Definition deserialize_addr (protversion : Z) (addr : btc_msg_address) :
    ST buff (bool * btc_msg_address) :=
  '(r0, time) ← (if BTC_PROTO_ADDR_W_TIME <=? protversion
                 then deserialize_uint32 0 else mret (false, 0));
  '(r1, services) ← deserialize_uint64 (a_services addr);
  '(r2, ip) ← deserialize_bytes 16;
  '(r3, port) ← deserialize_uint16 (a_port addr);
  mret (r0 || r1 || r2 || r3,
        MsgAddress services (default (a_ip addr) ip) time port).

Definition deserialize_inv (inv : btc_msg_inv) : ST buff (bool * btc_msg_inv) :=
  '(res, type) ← deserialize_uint32 (inv_type inv);
  if (res : bool) then mret (res, MsgInv type (inv_hash inv)) else
  '(res, hash) ← deserialize_bytes 32;
  mret (res, MsgInv type (default (inv_hash inv) hash)).

Definition deserialize_version : ST buff (bool * btc_msg_version) :=
  let v := zero_version in
  '(r0, version) ← deserialize_uint32 (v_version v);
  '(r1, services) ← deserialize_uint64 (v_services v);
  '(r2, time) ← deserialize_uint64 (v_time v);
  '(r3, addrTo) ← deserialize_addr BTC_PROTO_MIN (v_addrTo v);
  '(r4, addrFrom) ← deserialize_addr BTC_PROTO_MIN (v_addrFrom v);
  '(r5, nonce) ← deserialize_uint64 (v_nonce v);
  '(r6, strVersion) ← deserialize_str 80;
  '(r7, startingHeight) ← deserialize_uint32 (v_startingHeight v);
  sp ← buff_space_left;
  '(r8, relayTx) ← (if (BTC_PROTO_FILTERING <=? version) && (0 <? sp)
                    then deserialize_uint8 (v_relayTx v) else mret (false, 1));
  let v := MsgVersion version services time addrTo addrFrom nonce
                      strVersion startingHeight relayTx in
  sp ← buff_space_left;
  if negb (sp =? 0) then mret (true, v) else
  mret (r0 || r1 || r2 || r3 || r4 || r5 || r6 || r7 || r8, v).

Definition deserialize_blockheader (hdr : btc_block_header) :
    ST buff (bool * btc_block_header) :=
  '(r0, version) ← deserialize_uint32 (bh_version hdr);
  '(r1, prevBlock) ← deserialize_uint256 (bh_prevBlock hdr);
  '(r2, merkleRoot) ← deserialize_uint256 (bh_merkleRoot hdr);
  '(r3, timestamp) ← deserialize_uint32 (bh_timestamp hdr);
  '(r4, bits) ← deserialize_uint32 (bh_bits hdr);
  '(r5, nonce) ← deserialize_uint32 (bh_nonce hdr);
  mret (r0 || r1 || r2 || r3 || r4 || r5,
        BlockHeader version prevBlock merkleRoot timestamp bits nonce).

(** The bodies of the two loops of deserialize_tx: one input, one output.
    The entry comes from calloc; the status is 0 when the body starts. *)
Definition deserialize_txin : ST buff (bool * btc_msg_tx_in) :=
  '(r0, prevTxHash) ← deserialize_uint256 uint256_zero_out;
  '(r1, prevTxOutIdx) ← deserialize_uint32 0;
  '(r2, scriptLength) ← deserialize_varint 0;
  if r0 || r1 || r2
  then mret (true, TxIn prevTxHash prevTxOutIdx scriptLength None 0) else
  sp ← buff_space_left;
  if sp <? scriptLength
  then mret (true, TxIn prevTxHash prevTxOutIdx scriptLength None 0) else
  '(r3, script) ← deserialize_bytes scriptLength;
  '(r4, sequence) ← deserialize_uint32 0;
  mret (r3 || r4,
        TxIn prevTxHash prevTxOutIdx scriptLength
             (Some (default (malloc_fill (Z.to_nat scriptLength)) script)) sequence).

Definition deserialize_txout : ST buff (bool * btc_msg_tx_out) :=
  '(r0, value) ← deserialize_uint64 0;
  '(r1, scriptLength) ← deserialize_varint 0;
  if r0 || r1 then mret (true, TxOut value scriptLength None) else
  sp ← buff_space_left;
  if sp <? scriptLength then mret (true, TxOut value scriptLength None) else
  '(r2, script) ← deserialize_bytes scriptLength;
  mret (r2, TxOut value scriptLength
                  (Some (default (malloc_fill (Z.to_nat scriptLength)) script))).

(** [for (i = 0; i < n; i++)] over a calloc'ed array, leaving it at the first
    error: the entries that were not reached are still zero. *)
Fixpoint parse_array {A} (zero : A) (body : ST buff (bool * A)) (n : nat) :
    ST buff (bool * list A) :=
  match n with
  | O => mret (false, [])
  | S n' =>
      '(res, x) ← body;
      if (res : bool) then mret (true, x :: replicate n' zero) else
      '(res, xs) ← parse_array zero body n';
      mret (res, x :: xs)
  end.

Definition deserialize_tx : ST buff (bool * btc_msg_tx) :=
  '(r0, version) ← deserialize_uint32 0;
  '(r1, in_count) ← deserialize_varint 0;
  if r0 || r1 then mret (true, Tx 0 [] 0 [] version 0) else
  sp ← buff_space_left;
  if sp / 41 <? in_count then mret (true, Tx 0 [] 0 [] version 0) else
  '(res, txin) ← parse_array zero_tx_in deserialize_txin (Z.to_nat in_count);
  if (res : bool) then mret (true, Tx in_count txin 0 [] version 0) else
  '(res, out_count) ← deserialize_varint 0;
  if (res : bool) then mret (true, Tx in_count txin 0 [] version 0) else
  sp ← buff_space_left;
  if sp / 9 <? out_count then mret (true, Tx in_count txin 0 [] version 0) else
  '(res, txout) ← parse_array zero_tx_out deserialize_txout (Z.to_nat out_count);
  if (res : bool) then mret (true, Tx in_count txin out_count txout version 0) else
  '(res, lock_time) ← deserialize_uint32 0;
  mret (res, Tx in_count txin out_count txout version lock_time).

Definition deserialize_block (blk : btc_msg_block) : ST buff (bool * btc_msg_block) :=
  '(r0, header) ← deserialize_blockheader (blk_header blk);
  '(r1, txCount) ← deserialize_varint 0;
  if r0 || r1 then mret (true, Block header 0 []) else
  sp ← buff_space_left;
  if sp / 10 <? txCount then mret (true, Block header 0 []) else
  '(res, txs) ← parse_array zero_tx deserialize_tx (Z.to_nat txCount);
  if (res : bool) then mret (true, Block header txCount txs) else
  sp ← buff_space_left;
  if negb (sp =? 0) then mret (true, Block header txCount txs) else
  mret (res, Block header txCount txs).

Definition serialize_bytes (src : ptr) (len : Z) : ST buff bool :=
  buff_copy_to src len.

(** The integer types share one body: [serialize_bytes(buf, &val, sizeof val)]. *)
Definition serialize_int (n : nat) (val : Z) : ST buff bool :=
  serialize_bytes (Some (le_bytes n val)) (Z.of_nat n).

Definition serialize_uint8 : Z -> ST buff bool := serialize_int 1.
Definition serialize_uint16 : Z -> ST buff bool := serialize_int 2.
Definition serialize_uint32 : Z -> ST buff bool := serialize_int 4.
Definition serialize_uint64 : Z -> ST buff bool := serialize_int 8.

Definition serialize_uint256 (val : uint256) : ST buff bool :=
  serialize_bytes (Some val) 32.

(** No branch for values that need 64 bits: [len32] takes the low 32. *)
Definition serialize_varint (val : Z) : ST buff bool :=
  if val <? 253 then serialize_uint8 val
  else if val <? 0x10000 then
    res ← serialize_uint8 253;
    if (res : bool) then mret res else serialize_uint16 (wrap16 val)
  else
    res ← serialize_uint8 254;
    if (res : bool) then mret res else serialize_uint32 (wrap32 val).

(** [strlen]: the offset of the first NUL, which must be in the block. *)
Fixpoint strlen (s : list byte) : res Z :=
  match s with
  | [] => Fault UB
  | c :: s => if decide (c = x00) then Ok 0 else n ← strlen s; mret (1 + n)
  end.

Definition serialize_str (str : ptr) : ST buff bool :=
  len ← lift (match str with Some s => strlen s | None => Ok 0 end);
  res ← serialize_varint len;
  if (res : bool) then mret res else serialize_bytes str len.

Definition serialize_msgheader (h : btc_msg_header) : ST buff bool :=
  serialize_uint32 (h_magic h) |=|
  serialize_bytes (Some (h_message h)) 12 |=|
  serialize_uint32 (h_payloadLength h) |=|
  serialize_bytes (Some (h_checksum h)) 4.

Definition serialize_addr (addr : btc_msg_address) : ST buff bool :=
  serialize_uint64 (a_services addr) |=|
  serialize_bytes (Some (a_ip addr)) 16 |=|
  serialize_uint16 (a_port addr).

Definition serialize_version (v : btc_msg_version) : ST buff bool :=
  serialize_uint32 (v_version v) |=|
  serialize_uint64 (v_services v) |=|
  serialize_uint64 (v_time v) |=|
  serialize_addr (v_addrTo v) |=|
  serialize_addr (v_addrFrom v) |=|
  serialize_uint64 (v_nonce v) |=|
  serialize_str (Some (v_strVersion v)) |=|
  serialize_uint32 (v_startingHeight v) |=|
  (if BTC_PROTO_FILTERING <=? v_version v
   then serialize_uint8 (v_relayTx v) else mret false).

(** [for (i = 0; i < n; i++) res |= body(a[i])]: an index past the array is
    undefined behaviour. *)
Fixpoint serialize_array {A} (body : A -> ST buff bool) (n : nat) (a : list A) :
    ST buff bool :=
  match n, a with
  | O, _ => mret false
  | S n', x :: a' => body x |=| serialize_array body n' a'
  | S _, [] => lift (Fault UB)
  end.

Definition serialize_blocklocator (bl : btc_block_locator) : ST buff bool :=
  serialize_uint32 (bl_protversion bl) |=|
  serialize_varint (wrap64 (bl_numHashes bl)) |=|
  serialize_array serialize_uint256 (Z.to_nat (bl_numHashes bl)) (bl_hashArray bl) |=|
  serialize_uint256 (bl_hashStop bl).

Definition serialize_inv (inv : btc_msg_inv) : ST buff bool :=
  serialize_uint32 (inv_type inv) |=| serialize_bytes (Some (inv_hash inv)) 32.

Definition serialize_txin (t : btc_msg_tx_in) : ST buff bool :=
  serialize_uint256 (ti_prevTxHash t) |=|
  serialize_uint32 (ti_prevTxOutIdx t) |=|
  serialize_varint (ti_scriptLength t) |=|
  serialize_bytes (ti_scriptSig t) (ti_scriptLength t) |=|
  serialize_uint32 (ti_sequence t).

Definition serialize_txout (t : btc_msg_tx_out) : ST buff bool :=
  serialize_uint64 (to_value t) |=|
  serialize_varint (to_scriptLength t) |=|
  serialize_bytes (to_scriptPubKey t) (to_scriptLength t).

Definition serialize_tx (tx : btc_msg_tx) : ST buff bool :=
  serialize_uint32 (tx_version tx) |=|
  serialize_varint (tx_in_count tx) |=|
  serialize_array serialize_txin (Z.to_nat (tx_in_count tx)) (tx_in tx) |=|
  serialize_varint (tx_out_count tx) |=|
  serialize_array serialize_txout (Z.to_nat (tx_out_count tx)) (tx_out tx) |=|
  serialize_uint32 (tx_lock_time tx).
End serialize.

(** ** The wire format, as a reference encoding *)

Definition varint_bytes (v : Z) : list byte :=
  if v <? 253 then le_bytes 1 v
  else if v <? 0x10000 then Z_byte 253 :: le_bytes 2 v
  else Z_byte 254 :: le_bytes 4 v.

Definition script_bytes (p : ptr) : list byte := default [] p.

Definition tx_in_bytes (t : btc_msg_tx_in) : list byte :=
  ti_prevTxHash t ++ le_bytes 4 (ti_prevTxOutIdx t) ++ varint_bytes (ti_scriptLength t) ++
  script_bytes (ti_scriptSig t) ++ le_bytes 4 (ti_sequence t).

Definition tx_out_bytes (t : btc_msg_tx_out) : list byte :=
  le_bytes 8 (to_value t) ++ varint_bytes (to_scriptLength t) ++
  script_bytes (to_scriptPubKey t).

Definition tx_bytes (t : btc_msg_tx) : list byte :=
  le_bytes 4 (tx_version t) ++ varint_bytes (tx_in_count t) ++
  concat (map tx_in_bytes (tx_in t)) ++ varint_bytes (tx_out_count t) ++
  concat (map tx_out_bytes (tx_out t)) ++ le_bytes 4 (tx_lock_time t).

Definition blockheader_bytes (h : btc_block_header) : list byte :=
  le_bytes 4 (bh_version h) ++ bh_prevBlock h ++ bh_merkleRoot h ++
  le_bytes 4 (bh_timestamp h) ++ le_bytes 4 (bh_bits h) ++ le_bytes 4 (bh_nonce h).

Definition block_bytes (b : btc_msg_block) : list byte :=
  blockheader_bytes (blk_header b) ++ varint_bytes (blk_txCount b) ++
  concat (map tx_bytes (blk_tx b)).

Definition addr_bytes (a : btc_msg_address) : list byte :=
  le_bytes 8 (a_services a) ++ a_ip a ++ le_bytes 2 (a_port a).

Definition inv_bytes (i : btc_msg_inv) : list byte :=
  le_bytes 4 (inv_type i) ++ inv_hash i.

Lemma Zlen_varint_bytes v : 1 <= Zlen (varint_bytes v) <= 5.
Proof. unfold varint_bytes. repeat case_match; zlen; lia. Qed.

Lemma Zlen_32 (h : uint256) : is_uint256 h -> Zlen h = 32.
Proof. unfold is_uint256, Zlen. lia. Qed.

(** ** Parsing inverts the reference encoding *)

Section parsing.
Context `{Malloc}.

Lemma parses_bytes bs : parses (deserialize_bytes (Zlen bs)) bs (false, Some bs).
Proof. intros pre post Hs. by apply buff_copy_from_rd. Qed.

Lemma parses_bytes_n n bs :
  Zlen bs = n -> parses (deserialize_bytes n) bs (false, Some bs).
Proof. intros <-. apply parses_bytes. Qed.

Lemma parses_int n v0 v :
  0 <= v < 2 ^ (8 * Z.of_nat n) -> parses (deserialize_int n v0) (le_bytes n v) (false, v).
Proof.
  intros Hv. unfold deserialize_int.
  eapply parses_last; [apply parses_bytes_n, Zlen_le_bytes|].
  cbn. by rewrite le_Z_bytes_small.
Qed.

Lemma parses_uint8 v0 v : u8 v -> parses (deserialize_uint8 v0) (le_bytes 1 v) (false, v).
Proof. exact (parses_int 1 v0 v). Qed.
Lemma parses_uint16 v0 v : u16 v -> parses (deserialize_uint16 v0) (le_bytes 2 v) (false, v).
Proof. exact (parses_int 2 v0 v). Qed.
Lemma parses_uint32 v0 v : u32 v -> parses (deserialize_uint32 v0) (le_bytes 4 v) (false, v).
Proof. exact (parses_int 4 v0 v). Qed.
Lemma parses_uint64 v0 v : u64 v -> parses (deserialize_uint64 v0) (le_bytes 8 v) (false, v).
Proof. exact (parses_int 8 v0 v). Qed.

Lemma parses_uint256 h0 h : is_uint256 h -> parses (deserialize_uint256 h0) h (false, h).
Proof. intros Hh. parse_last parses_bytes_n. by apply Zlen_32. Qed.

(** Whatever 64-bit value was written, the low 32 bits come back. *)
Lemma parses_varint v0 v :
  u64 v -> parses (deserialize_varint v0) (varint_bytes v) (false, v mod 2 ^ 32).
Proof.
  intros Hv. unfold deserialize_varint, varint_bytes.
  change (Z_byte 253 :: le_bytes 2 v) with (le_bytes 1 253 ++ le_bytes 2 v).
  change (Z_byte 254 :: le_bytes 4 v) with (le_bytes 1 254 ++ le_bytes 4 v).
  destruct (Z.ltb_spec v 253); [|destruct (Z.ltb_spec v 0x10000)].
  - rewrite Z.mod_small by lia. eapply parses_last; [apply parses_uint8; lia|].
    cbn. by rewrite ltb_t by lia.
  - rewrite Z.mod_small by lia. parse_step parses_uint8; [lia|].
    cbn. apply parses_uint16. lia.
  - parse_step parses_uint8; [lia|]. cbn.
    replace (le_bytes 4 v) with (le_bytes 4 (v mod 2 ^ 32)).
    { apply parses_uint32. apply Z.mod_pos_bound. lia. }
    rewrite <- (le_bytes_Z (le_bytes 4 v)), le_Z_bytes, length_le_bytes. done.
Qed.

Lemma parses_varint32 v0 v :
  u32 v -> parses (deserialize_varint v0) (varint_bytes v) (false, v).
Proof. intros. rewrite <- (Z.mod_small v (2 ^ 32)) at 2 by lia. apply parses_varint. lia. Qed.

Lemma parses_array {A} (zero : A) (body : ST buff (bool * A)) enc xs :
  Forall (fun x => parses body (enc x) (false, x)) xs ->
  parses (parse_array zero body (length xs)) (concat (map enc xs)) (false, xs).
Proof.
  induction 1 as [|x xs Hx _ IH]; [apply parses_ret|]. cbn [length parse_array map concat].
  eapply parses_bind; [exact Hx|]. cbn. by eapply parses_last; [exact IH|].
Qed.

Lemma parses_array_n {A} (zero : A) (body : ST buff (bool * A)) enc xs n :
  n = Zlen xs -> Forall (fun x => parses body (enc x) (false, x)) xs ->
  parses (parse_array zero body (Z.to_nat n)) (concat (map enc xs)) (false, xs).
Proof. intros ->. rewrite to_nat_Zlen. apply parses_array. Qed.

Lemma parses_txin t : wf_tx_in t -> parses deserialize_txin (tx_in_bytes t) (false, t).
Proof.
  intros (Hh & Hi & Hq & s & Hs & Hl & Hl'). destruct t as [h i l p q]; cbn in *. subst p.
  unfold deserialize_txin, tx_in_bytes. cbn.
  parse_step parses_uint256; [done|]. parse_step parses_uint32; [lia|].
  parse_step parses_varint32; [lia|]. apply parses_space. intros sp Hsp.
  decide_cmp. parse_step parses_bytes_n; [done|]. by parse_last parses_uint32.
Qed.

Lemma parses_txout t : wf_tx_out t -> parses deserialize_txout (tx_out_bytes t) (false, t).
Proof.
  intros (Hv & s & Hs & Hl & Hl'). destruct t as [v l p]; cbn in *. subst p.
  unfold deserialize_txout, tx_out_bytes. cbn.
  parse_step parses_uint64; [lia|].
  parse_step parses_varint32; [lia|]. apply parses_space. intros sp Hsp.
  decide_cmp. by parse_last parses_bytes_n.
Qed.

Lemma Zlen_concat_ge {A} (enc : A -> list byte) k xs :
  Forall (fun x => k <= Zlen (enc x)) xs -> k * Zlen xs <= Zlen (concat (map enc xs)).
Proof. induction 1; cbn [map concat]; zlia. Qed.

Lemma tx_in_bytes_ge t : wf_tx_in t -> 41 <= Zlen (tx_in_bytes t).
Proof.
  intros (Hh & _). unfold tx_in_bytes.
  apply Zlen_32 in Hh. pose proof (Zlen_varint_bytes (ti_scriptLength t)). zlia.
Qed.

Lemma tx_out_bytes_ge t : 9 <= Zlen (tx_out_bytes t).
Proof.
  unfold tx_out_bytes. pose proof (Zlen_varint_bytes (to_scriptLength t)). zlia.
Qed.

Lemma tx_bytes_ge t : 10 <= Zlen (tx_bytes t).
Proof.
  unfold tx_bytes. pose proof (Zlen_varint_bytes (tx_in_count t)).
  pose proof (Zlen_varint_bytes (tx_out_count t)). zlia.
Qed.

Lemma count_fits k n sp : 0 < k -> k * n <= sp -> (sp / k <? n) = false.
Proof. intros. apply Z.ltb_ge. apply Z.div_le_lower_bound; lia. Qed.

Lemma parses_tx t : wf_tx t -> parses deserialize_tx (tx_bytes t) (false, t).
Proof.
  intros (Hv & Hl & Hni & Hci & Hin & Hno & Hco & Hout).
  destruct t as [ni ins no outs v l]; cbn in *.
  assert (41 * ni <= Zlen (concat (map tx_in_bytes ins))).
  { rewrite Hni. apply Zlen_concat_ge. eapply Forall_impl; [exact Hin | apply tx_in_bytes_ge]. }
  assert (9 * no <= Zlen (concat (map tx_out_bytes outs))).
  { rewrite Hno. apply Zlen_concat_ge. eapply Forall_impl; [exact Hout | ].
    intros; apply tx_out_bytes_ge. }
  unfold deserialize_tx, tx_bytes. cbn.
  parse_step parses_uint32; [lia|]. parse_step parses_varint32; [lia|].
  apply parses_space. intros sp Hsp. rewrite count_fits by zlia.
  parse_step parses_array_n; [done| eapply Forall_impl; [exact Hin | apply parses_txin] |].
  parse_step parses_varint32; [lia|]. apply parses_space. intros sp' Hsp'.
  rewrite count_fits by zlia.
  parse_step parses_array_n; [done| eapply Forall_impl; [exact Hout | apply parses_txout] |].
  by parse_last parses_uint32.
Qed.

Lemma parses_blockheader h0 h :
  wf_blockheader h -> parses (deserialize_blockheader h0) (blockheader_bytes h) (false, h).
Proof.
  intros (? & ? & ? & ? & ? & ?). destruct h as [v p m t b n]; cbn in *.
  unfold deserialize_blockheader, blockheader_bytes. cbn.
  parse_step parses_uint32; [lia|]. parse_step parses_uint256; [done|].
  parse_step parses_uint256; [done|]. do 2 (parse_step parses_uint32; [lia|]).
  by parse_last parses_uint32.
Qed.

Lemma parses_inv i0 i : wf_inv i -> parses (deserialize_inv i0) (inv_bytes i) (false, i).
Proof.
  intros (? & ?). destruct i as [ty h]; cbn in *. unfold deserialize_inv, inv_bytes. cbn.
  parse_step parses_uint32; [lia|]. parse_last parses_bytes_n. by apply Zlen_32.
Qed.
End parsing.

(** ** Parsing untrusted bytes: no fault, and what an accepted value satisfies *)

Definition script_loaded (p : ptr) (len : Z) : Prop := exists s, p = Some s /\ Zlen s = len.
Definition tx_in_loaded (t : btc_msg_tx_in) : Prop :=
  is_uint256 (ti_prevTxHash t) /\ u32 (ti_prevTxOutIdx t) /\ u32 (ti_sequence t) /\
  script_loaded (ti_scriptSig t) (ti_scriptLength t).
Definition tx_out_loaded (t : btc_msg_tx_out) : Prop :=
  u64 (to_value t) /\ script_loaded (to_scriptPubKey t) (to_scriptLength t).

(** The counts are the sizes of the arrays that were allocated. *)
Definition tx_shape (t : btc_msg_tx) : Prop :=
  tx_in_count t = Zlen (tx_in t) /\ tx_out_count t = Zlen (tx_out t).
Definition tx_loaded (t : btc_msg_tx) : Prop :=
  tx_shape t /\ u32 (tx_version t) /\ u32 (tx_lock_time t) /\
  Forall tx_in_loaded (tx_in t) /\ Forall tx_out_loaded (tx_out t).

(** What reading an [n]-byte integer into a variable holding [v0] does. *)
Definition int_read (n : nat) (v0 : Z) (r : bool * Z) (bs : list byte) : Prop :=
  r = (true, v0) /\ bs = [] \/
  exists v, r = (false, v) /\ 0 <= v < 2 ^ (8 * Z.of_nat n) /\ bs = le_bytes n v.
Definition varint_read (r : bool * Z) (bs : list byte) : Prop :=
  r.1 = false -> u64 r.2 /\ 1 <= Zlen bs.
Definition hash_read (h0 : uint256) (r : bool * uint256) (bs : list byte) : Prop :=
  r = (true, h0) /\ bs = [] \/ r = (false, bs) /\ is_uint256 bs.

Lemma int_read_ok n v0 v bs :
  int_read n v0 (false, v) bs -> 0 <= v < 2 ^ (8 * Z.of_nat n) /\ bs = le_bytes n v.
Proof. intros [[[=] _] | (? & [= ->] & ? & ?)]. done. Qed.
Lemma hash_read_ok h0 h bs : hash_read h0 (false, h) bs -> is_uint256 h /\ bs = h.
Proof. intros [[[=] _] | [[= ->] ?]]. done. Qed.
Lemma copied_ok n o bs : copied n (false, o) bs -> o = Some bs /\ Zlen bs = n.
Proof. intros [[[=] _] | [[= ->] ?]]. done. Qed.

Section safety.
Context `{Malloc}.
Implicit Types post : list byte.

Lemma safe_bytes post n :
  0 <= n < 2 ^ 63 -> safe_at post (deserialize_bytes n) (copied n).
Proof. apply buff_copy_from_safe. Qed.

Lemma safe_bytes_enough post n :
  0 <= n <= Zlen post ->
  safe_at post (deserialize_bytes n) (fun r bs => r = (false, Some bs) /\ Zlen bs = n).
Proof. apply buff_copy_from_enough. Qed.

Lemma safe_int post n v0 :
  (n <= 8)%nat -> safe_at post (deserialize_int n v0) (int_read n v0).
Proof.
  intros Hn. unfold deserialize_int. safe_step safe_bytes as [r o] Hc; [lia|].
  apply safe_ret. rewrite app_nil_r. destruct Hc as [[[= -> ->] ->] | [[= -> ->] Hl]]; [by left|].
  right. eexists. split; [done|]. rewrite <- Hl. split; [apply le_Z_bound|].
  rewrite <- (le_bytes_Z bs1) at 1. f_equal. unfold Zlen in Hl. lia.
Qed.

Lemma safe_uint8 post v0 : safe_at post (deserialize_uint8 v0) (int_read 1 v0).
Proof. apply safe_int. lia. Qed.
Lemma safe_uint16 post v0 : safe_at post (deserialize_uint16 v0) (int_read 2 v0).
Proof. apply safe_int. lia. Qed.
Lemma safe_uint32 post v0 : safe_at post (deserialize_uint32 v0) (int_read 4 v0).
Proof. apply safe_int. lia. Qed.
Lemma safe_uint64 post v0 : safe_at post (deserialize_uint64 v0) (int_read 8 v0).
Proof. apply safe_int. lia. Qed.

Lemma safe_uint256 post h0 : safe_at post (deserialize_uint256 h0) (hash_read h0).
Proof.
  unfold deserialize_uint256. safe_step safe_bytes as [r o] Hc; [lia|].
  apply safe_ret. rewrite app_nil_r. destruct Hc as [[[= -> ->] ->] | [[= -> ->] Hl]]; [by left|].
  right. split; [done|]. unfold is_uint256, Zlen in *. lia.
Qed.

Lemma safe_varint post v0 : safe_at post (deserialize_varint v0) varint_read.
Proof.
  unfold deserialize_varint. safe_step safe_uint8 as [r c] Hc.
  destruct Hc as [[[= -> ->] ->] | (v & [= -> ->] & Hv & ->)]; [by apply safe_ret|].
  assert (forall n r bs2, (n <= 8)%nat -> int_read n 0 r bs2 ->
            varint_read r (le_bytes 1 v ++ bs2)) as Hint.
  { intros n r bs2 Hn [[-> ->] | (x & -> & Hx & ->)] Hr; cbn in *; [done|]. split; [|zlia].
    split; [lia|]. eapply Z.lt_le_trans; [apply Hx|]. apply Z.pow_le_mono_r; lia. }
  repeat case_match; [apply safe_ret; intros _; cbn; zlia | ..];
    (eapply safe_weaken; [apply safe_uint16 || apply safe_uint32 || apply safe_uint64 |
                          intros ? ? HI; eapply Hint; [|exact HI]; lia]).
Qed.

(** [P0] holds of every slot of the array, [P] of the slots of a complete one. *)
Lemma safe_array post {A} (zero : A) body (P0 P : A -> Prop) n :
  P0 zero ->
  (forall post', safe_at post' body (fun r _ => P0 r.2 /\ (r.1 = false -> P r.2))) ->
  safe_at post (parse_array zero body n)
    (fun r _ => length r.2 = n /\ Forall P0 r.2 /\ (r.1 = false -> Forall P r.2)).
Proof.
  intros H0 Hb. revert post. induction n as [|n IH]; intros post; cbn [parse_array].
  { apply safe_ret. by repeat constructor. }
  eapply safe_bind; [apply Hb|]. intros [[] x] bs1 post1 _ [HP0 HP]; cbn in *.
  { apply safe_ret. cbn. rewrite length_replicate. split_and!; [done| |done].
    constructor; [done|]. by apply Forall_replicate. }
  eapply safe_bind; [apply IH|]. intros [r xs] ? ? _ (Hl & HF0 & HF); cbn in *.
  apply safe_ret. cbn. split_and!; [lia|by constructor|]. intros ->. constructor; auto.
Qed.

(** The case where only complete arrays matter. *)
Lemma safe_array_ok post {A} (zero : A) body (P : A -> Prop) n :
  (forall post', safe_at post' body (fun r _ => r.1 = false -> P r.2)) ->
  safe_at post (parse_array zero body n)
    (fun r _ => length r.2 = n /\ (r.1 = false -> Forall P r.2)).
Proof.
  intros Hb. eapply safe_weaken; [apply (safe_array _ _ _ (fun _ => True) P); [done|]|].
  - intros post'. eapply safe_weaken; [apply Hb|]. auto.
  - cbn. tauto.
Qed.

(** The script of an input or output, once its length passed the check. *)
Lemma safe_txin post :
  safe_at post deserialize_txin (fun r _ => r.1 = false -> tx_in_loaded r.2).
Proof.
  unfold deserialize_txin. safe_step safe_uint256 as [r0 h] Hh.
  safe_step safe_uint32 as [r1 i] Hi. safe_step safe_varint as [r2 l] Hl.
  destruct Hh as [[[= -> ->] ->] | [[= -> ->] Hh]]; [by apply safe_ret|].
  destruct Hi as [[[= -> ->] ->] | (v & [= -> ->] & Hv & ->)]; [by apply safe_ret|].
  destruct r2; [by apply safe_ret|]. destruct (Hl eq_refl) as [Hu _]. cbn [orb].
  apply safe_space. destruct (_ <? l) eqn:Hle; [by apply safe_ret|]. zbool.
  cbn in Hu. eapply safe_bind; [apply safe_bytes_enough; lia|].
  intros [r3 o] bs4 post4 _ [[= -> ->] Hl4]. cbn beta iota.
  safe_step safe_uint32 as [r5 q] Hq.
  apply safe_ret. destruct Hq as [[[= -> ->] ->] | (x & [= -> ->] & Hx & ->)]; [done|].
  intros _. split_and!; cbn; try done; try apply Hv; try apply Hx; by eexists.
Qed.

Lemma safe_txout post :
  safe_at post deserialize_txout (fun r _ => r.1 = false -> tx_out_loaded r.2).
Proof.
  unfold deserialize_txout. safe_step safe_uint64 as [r0 v] Hv.
  safe_step safe_varint as [r1 l] Hl.
  destruct Hv as [[[= -> ->] ->] | (x & [= -> ->] & Hx & ->)]; [by apply safe_ret|].
  destruct r1; [by apply safe_ret|]. destruct (Hl eq_refl) as [Hu _]. cbn [orb].
  apply safe_space. destruct (_ <? l) eqn:Hle; [by apply safe_ret|]. zbool.
  cbn in Hu. eapply safe_bind; [apply safe_bytes_enough; lia|].
  intros [r3 o] bs4 post4 _ [[= -> ->] Hl4]. cbn beta iota.
  apply safe_ret. intros _. split_and!; cbn; try apply Hx; by eexists.
Qed.

Lemma count_bound k n sp : 0 < k -> (sp / k <? n) = false -> k * n <= sp.
Proof.
  intros Hk Hn. zbool. pose proof (Z.mul_div_le sp k Hk). nia.
Qed.

(** The allocations are bounded by the bytes at hand, whatever the counts on
    the wire say. *)
Lemma safe_tx post :
  safe_at post deserialize_tx (fun r bs =>
    tx_shape r.2 /\ 41 * tx_in_count r.2 <= Zlen post /\ 9 * tx_out_count r.2 <= Zlen post /\
    (r.1 = false -> tx_loaded r.2 /\ 10 <= Zlen bs)).
Proof.
  unfold deserialize_tx. pose_Zlen.
  safe_step safe_uint32 as [r0 v] Hv. safe_step safe_varint as [r1 ni] Hni.
  zlen. pose_Zlen.
  destruct Hv as [[[= -> ->] ->] | (x & [= -> ->] & Hx & ->)]; [apply safe_ret; by repeat split|].
  destruct r1; [apply safe_ret; by repeat split|]. destruct (Hni eq_refl) as [Hu Hn1]. cbn [orb].
  cbn in Hu. apply safe_space. destruct (_ <? ni) eqn:Hc; [apply safe_ret; by repeat split|].
  apply count_bound in Hc; [|lia].
  eapply safe_bind; [apply (safe_array_ok _ _ _ tx_in_loaded); intros; apply safe_txin|].
  intros [r2 ins] bs2 post2 -> [Hlen Hins]. cbn in *. zlen. pose_Zlen.
  assert (ni = Zlen ins) by (unfold Zlen; lia).
  destruct r2; [apply safe_ret; repeat split; cbn; (done || lia)|].
  safe_step safe_varint as [r3 no] Hno. zlen. pose_Zlen.
  destruct r3; [apply safe_ret; repeat split; cbn; (done || lia)|].
  destruct (Hno eq_refl) as [Hu' Hn2]. cbn in Hu'.
  apply safe_space. destruct (_ <? no) eqn:Hc'; [apply safe_ret; repeat split; cbn; (done || lia)|].
  apply count_bound in Hc'; [|lia].
  eapply safe_bind; [apply (safe_array_ok _ _ _ tx_out_loaded); intros; apply safe_txout|].
  intros [r4 outs] bs4 post4 -> [Hlen' Houts]. cbn in *. zlen. pose_Zlen.
  assert (no = Zlen outs) by (unfold Zlen; lia).
  destruct r4; [apply safe_ret; repeat split; cbn; (done || lia)|].
  safe_step safe_uint32 as [r5 lt] Hlt. apply safe_ret. cbn. zlen. pose_Zlen.
  split; [by split|]. split; [lia|]. split; [lia|].
  destruct Hlt as [[[= -> ->] ->] | (y & [= -> ->] & Hy & ->)]; [done|].
  intros _. zlen. split; [|lia]. repeat split; cbn; (done || auto; try apply Hx; try apply Hy).
Qed.

(** After a successful parse every read succeeded. *)
Ltac reads_ok :=
  repeat match goal with
  | HH : _ || _ = false |- _ => apply orb_false_elim in HH as [? ?]
  end; subst;
  repeat match goal with
  | HH : int_read _ _ (false, _) _ |- _ => apply int_read_ok in HH as [? ->]
  | HH : hash_read _ (false, _) _ |- _ => apply hash_read_ok in HH as [? ->]
  | HH : copied _ (false, _) _ |- _ => apply copied_ok in HH as [-> ?]
  end.

(** A header that parses is exactly the bytes it was parsed from: hashing the
    record is hashing what the peer sent. *)
Lemma safe_blockheader post h0 :
  safe_at post (deserialize_blockheader h0) (fun r bs =>
    r.1 = false -> wf_blockheader r.2 /\ bs = blockheader_bytes r.2).
Proof.
  unfold deserialize_blockheader.
  safe_step safe_uint32 as [r0 v] H0. safe_step safe_uint256 as [r1 p] H1.
  safe_step safe_uint256 as [r2 m] H2. safe_step safe_uint32 as [r3 t] H3.
  safe_step safe_uint32 as [r4 b] H4. safe_step safe_uint32 as [r5 n] H5.
  apply safe_ret. cbn. intros HE.
  reads_ok. split; [split_and!; cbn; (lia || done)|]. by rewrite app_nil_r.
Qed.

Lemma safe_inv post i0 :
  safe_at post (deserialize_inv i0) (fun r bs =>
    r.1 = false -> wf_inv r.2 /\ bs = inv_bytes r.2).
Proof.
  unfold deserialize_inv. safe_step safe_uint32 as [r0 ty] H0.
  destruct r0; [by apply safe_ret|].
  safe_step safe_bytes as [r1 o] H1; [lia|]. apply safe_ret. cbn. intros HE.
  reads_ok. cbn. rewrite app_nil_r.
  split; [|done]. split; [cbn; lia|]. unfold is_uint256, Zlen in *. cbn. lia.
Qed.

Lemma safe_addr post pv a0 :
  safe_at post (deserialize_addr pv a0) (fun r bs =>
    r.1 = false -> wf_address r.2 /\
      Zlen bs = if BTC_PROTO_ADDR_W_TIME <=? pv then 30 else 26).
Proof.
  unfold deserialize_addr.
  eapply (safe_bind _ _ _ (fun r bs => r.1 = false -> u32 r.2 /\
    Zlen bs = if BTC_PROTO_ADDR_W_TIME <=? pv then 4 else 0)).
  { case_match; [|by apply safe_ret]. eapply safe_weaken; [apply safe_uint32|].
    intros [r v] bs HI; cbn. intros ->. apply int_read_ok in HI as [? ->]. by zlen. }
  intros [r0 t] bs9 post9 -> H0. cbn beta iota.
  safe_step safe_uint64 as [r1 sv] H1. safe_step safe_bytes as [r2 ip] H2; [lia|].
  safe_step safe_uint16 as [r3 po] H3. apply safe_ret. cbn. intros HE.
  reads_ok. destruct (H0 eq_refl) as [? Hl]. cbn in *.
  split; [split_and!; cbn; (lia || unfold Zlen in *; lia)|]. zlen. case_match; lia.
Qed.

(** A string buffer stays NUL-terminated whatever the peer sends. *)
Lemma safe_str post size :
  (0 < size)%nat -> Z.of_nat size < 2 ^ 62 ->
  safe_at post (deserialize_str size) (fun r _ =>
    length r.2 = size /\ last r.2 = Some x00).
Proof.
  intros Hs Hs'. unfold deserialize_str.
  assert (Hz : length (replicate size x00) = size /\ last (replicate size x00) = Some x00).
  { split; [apply length_replicate|]. destruct size; [lia|]. by rewrite replicate_S_end, last_snoc. }
  safe_step safe_varint as [r len] H0. destruct r; [by apply safe_ret|].
  destruct (H0 eq_refl) as [Hu _]. cbn in Hu.
  destruct (len =? 0) eqn:?; [by apply safe_ret|].
  destruct (_ <=? len) eqn:?; [by apply safe_ret|]. zbool.
  safe_step safe_bytes as [r o] H1; [lia|].
  apply safe_ret. destruct H1 as [[[= -> ->] _]|[[= -> ->] Hl]]; [done|]. cbn.
  rewrite drop_replicate. unfold Zlen in Hl.
  split; [rewrite length_app, length_replicate; lia|].
  destruct (size - length bs0)%nat as [|k] eqn:E; [lia|].
  by rewrite replicate_S_end, app_assoc, last_snoc.
Qed.

Lemma safe_str_alloc post :
  safe_at post deserialize_str_alloc (fun r _ =>
    r.2 = (None, 0) \/
    r.1 = false /\ exists s, r.2 = (Some (s ++ [x00]), Zlen s) /\ Zlen s <= Zlen post).
Proof.
  unfold deserialize_str_alloc. safe_step safe_varint as [r len] H0.
  destruct r; [apply safe_ret; by left|]. destruct (H0 eq_refl) as [Hu _]. cbn in Hu.
  destruct (len =? 0); [apply safe_ret; by left|].
  apply safe_space. destruct (_ <? len) eqn:?; [apply safe_ret; by left|]. zbool.
  eapply safe_bind; [apply safe_bytes_enough; lia|].
  intros [r o] bs9 post9 -> [[= -> ->] Hl]. cbn.
  apply safe_ret. right. split; [done|]. exists bs9. rewrite Hl. split; [done|]. zlia.
Qed.

Lemma safe_version post :
  safe_at post deserialize_version (fun r bs =>
    length (v_strVersion r.2) = 80%nat /\ last (v_strVersion r.2) = Some x00 /\
    (r.1 = false -> bs = post)).
Proof.
  unfold deserialize_version.
  safe_step safe_uint32 as [r0 v] H0. safe_step safe_uint64 as [r1 sv] H1.
  safe_step safe_uint64 as [r2 t] H2. safe_step safe_addr as [r3 a1] H3.
  safe_step safe_addr as [r4 a2] H4. safe_step safe_uint64 as [r5 n] H5.
  safe_step safe_str as [r6 s] H6; [lia..|]. safe_step safe_uint32 as [r7 sh] H7.
  apply safe_space. eapply (safe_bind _ _ _ (fun _ _ => True)).
  { destruct (_ && (_ <? _)); [|by apply safe_ret]. eapply safe_weaken; [apply safe_uint8|done]. }
  intros [r8 rt] bs8 post8 E8 _. cbn beta iota. apply safe_space.
  destruct (negb _) eqn:Hz; apply safe_ret; cbn; (split_and!; [by apply H6|by apply H6|]); [done|].
  zbool. intros _. destruct post8; [|zlia]. by rewrite !app_nil_r in *; subst.
Qed.

Lemma safe_block post blk0 :
  safe_at post (deserialize_block blk0) (fun r bs =>
    blk_txCount r.2 = Zlen (blk_tx r.2) /\ 10 * blk_txCount r.2 <= Zlen post /\
    Forall tx_shape (blk_tx r.2) /\
    (r.1 = false -> Forall tx_loaded (blk_tx r.2) /\ bs = post)).
Proof.
  unfold deserialize_block. pose_Zlen.
  safe_step safe_blockheader as [r0 h] Hhd. safe_step safe_varint as [r1 n] Hn1.
  destruct r0; [apply safe_ret; by repeat split|].
  destruct r1; [apply safe_ret; by repeat split|]. cbn [orb].
  destruct (Hn1 eq_refl) as [Hu _]. cbn in Hu. apply safe_space.
  destruct (_ <? n) eqn:Hc; [apply safe_ret; by repeat split|].
  apply count_bound in Hc; [|lia].
  eapply safe_bind; [apply (safe_array _ _ _ tx_shape tx_loaded); [by split|]|].
  { intros. eapply safe_weaken; [apply safe_tx|]. intuition. }
  intros [r2 txs] bs9 post9 -> (Hlen & Hsh & Hok). cbn in Hlen, Hsh, Hok |- *. zlen. pose_Zlen.
  assert (n = Zlen txs) by (unfold Zlen; lia).
  destruct r2; [apply safe_ret; cbn; split_and!; (done || lia)|].
  apply safe_space. destruct (negb _) eqn:Hz; apply safe_ret; cbn; zlen;
    (split_and!; [done|lia|done|]); [done|].
  zbool. intros _. split; [by apply Hok|]. destruct post9; [|zlia]. by rewrite !app_nil_r.
Qed.
End safety.

(** ** Building: each writer appends the reference encoding *)

Section writing.
Context `{Malloc}.

Lemma writes_bytes bs n : Zlen bs = n -> writes (serialize_bytes (Some bs) n) bs.
Proof. intros <-. apply writes_copy, ptr_load_all. Qed.

Lemma writes_int n v : writes (serialize_int n v) (le_bytes n v).
Proof. apply writes_bytes. by zlen. Qed.

Lemma writes_uint256 h : is_uint256 h -> writes (serialize_uint256 h) h.
Proof. intros. by apply writes_bytes, Zlen_32. Qed.

Lemma le_bytes_mod n v : le_bytes n (v mod 2 ^ (8 * Z.of_nat n)) = le_bytes n v.
Proof.
  rewrite <- (le_bytes_Z (le_bytes n v)), le_Z_bytes, length_le_bytes. done.
Qed.

Lemma writes_varint v : writes (serialize_varint v) (varint_bytes v).
Proof.
  unfold serialize_varint, varint_bytes. repeat case_match; [apply writes_int| |].
  - change (Z_byte 253 :: ?t) with (le_bytes 1 253 ++ t).
    apply writes_bind; [apply writes_int|]. rewrite <- le_bytes_mod. apply writes_int.
  - change (Z_byte 254 :: ?t) with (le_bytes 1 254 ++ t).
    apply writes_bind; [apply writes_int|]. rewrite <- le_bytes_mod. apply writes_int.
Qed.

Lemma writes_script p len :
  script_loaded p len -> writes (serialize_bytes p len) (script_bytes p).
Proof. intros (s & -> & <-). by apply writes_bytes. Qed.

Lemma writes_array {A} (body : A -> ST buff bool) enc xs :
  Forall (fun x => writes (body x) (enc x)) xs ->
  writes (serialize_array body (length xs) xs) (concat (map enc xs)).
Proof. induction 1; cbn; [apply writes_nil | by apply writes_or]. Qed.

Lemma writes_array_n {A} (body : A -> ST buff bool) enc xs n :
  n = Zlen xs -> Forall (fun x => writes (body x) (enc x)) xs ->
  writes (serialize_array body (Z.to_nat n) xs) (concat (map enc xs)).
Proof. intros ->. rewrite to_nat_Zlen. apply writes_array. Qed.

Lemma writes_addr a : wf_address a -> writes (serialize_addr a) (addr_bytes a).
Proof.
  intros (_ & Hip & _). repeat apply writes_or; try apply writes_int.
  apply writes_bytes. unfold Zlen. lia.
Qed.

Lemma writes_inv i : is_uint256 (inv_hash i) -> writes (serialize_inv i) (inv_bytes i).
Proof. intros. apply writes_or; [apply writes_int | by apply writes_uint256]. Qed.

Lemma writes_txin t :
  is_uint256 (ti_prevTxHash t) -> script_loaded (ti_scriptSig t) (ti_scriptLength t) ->
  writes (serialize_txin t) (tx_in_bytes t).
Proof.
  intros. repeat apply writes_or; eauto using writes_uint256, writes_int, writes_varint, writes_script.
Qed.

Lemma writes_txout t :
  script_loaded (to_scriptPubKey t) (to_scriptLength t) ->
  writes (serialize_txout t) (tx_out_bytes t).
Proof.
  intros. repeat apply writes_or; eauto using writes_int, writes_varint, writes_script.
Qed.

Lemma writes_tx t :
  tx_shape t -> Forall tx_in_loaded (tx_in t) -> Forall tx_out_loaded (tx_out t) ->
  writes (serialize_tx t) (tx_bytes t).
Proof.
  intros [Hi Ho] Fi Fo. repeat apply writes_or; eauto using writes_int, writes_varint.
  - apply writes_array_n; [done|]. eapply Forall_impl; [exact Fi|].
    intros x (? & _ & _ & ?). by apply writes_txin.
  - apply writes_array_n; [done|]. eapply Forall_impl; [exact Fo|].
    intros x (_ & ?). by apply writes_txout.
Qed.

Lemma wf_tx_loaded t : wf_tx t -> tx_loaded t.
Proof.
  intros (? & ? & ? & ? & Hi & ? & ? & Ho). split; [by split|]. split_and!; try lia.
  - eapply Forall_impl; [exact Hi|]. intros x (? & ? & ? & s & ? & ? & _).
    split_and!; try done; try lia. by exists s.
  - eapply Forall_impl; [exact Ho|]. intros x (? & s & ? & ? & _). split; [done|]. by exists s.
Qed.
End writing.

(** ** Properties *)

Lemma rd_init bs : Zlen bs < 2 ^ 62 -> small [] bs.
Proof. unfold small. by rewrite Zlen_nil, Z.add_0_l. Qed.

(** Write with one, read back with the other. *)
Lemma roundtrip `{Malloc} {A} (w : ST buff bool) (r : ST buff A) bs a :
  writes w bs -> ends r bs a -> Zlen bs <= size_max ->
  exists b, w buff_alloc = Ok (false, b) /\ contents b = bs /\
    r (buff_init (contents b) (b_idx b)) = Ok (a, rd bs []).
Proof.
  intros Hw Hr Hm. destruct (Hw buff_alloc) as (b & E & Hb & Hc);
    [apply gwf_alloc | by rewrite Z.add_0_l |].
  rewrite contents_alloc in Hc. cbn in Hc. exists b. split; [done|]. split; [done|].
  rewrite <- (contents_length b Hb), Hc, buff_init_rd.
  apply Hr, rd_init. unfold size_max in Hm. lia.
Qed.

(** From a received block. *)
Lemma run_safe {A} (m : ST buff A) bs Q :
  safe_at bs m Q -> Zlen bs < 2 ^ 62 ->
  exists a b, m (buff_init bs (Zlen bs)) = Ok (a, b) /\ exists used, Q a used.
Proof.
  intros Hm Hs. destruct (Hm [] (rd_init _ Hs)) as (a & us & post & _ & E & HQ).
  rewrite buff_init_rd. eauto.
Qed.

(** C26: a transaction written by serialize_tx is read back by deserialize_tx
    unchanged, consuming every byte, for every transaction whose counts and
    script lengths are below 2^32. *)
Theorem tx_roundtrip `{Malloc} tx :
  wf_tx tx -> Zlen (tx_bytes tx) <= size_max ->
  exists b, serialize_tx tx buff_alloc = Ok (false, b) /\ contents b = tx_bytes tx /\
    deserialize_tx (buff_init (contents b) (b_idx b)) = Ok ((false, tx), rd (tx_bytes tx) []).
Proof.
  intros Hw Hm. destruct (wf_tx_loaded _ Hw) as (? & _ & _ & ? & ?).
  apply roundtrip; auto using writes_tx, parses_ends, parses_tx.
Qed.

(** A one-input, one-output transaction. *)
Definition sample_tx : btc_msg_tx :=
  Tx 1 [TxIn (replicate 32 x11) 7 2 (Some [x51; x52]) 0xffffffff]
     1 [TxOut 5000000000 3 (Some [x76; xa9; x00])] 1 0.

Lemma sample_tx_wf : wf_tx sample_tx.
Proof.
  unfold wf_tx, sample_tx; cbn [tx_in_count tx_in tx_out_count tx_out tx_version tx_lock_time].
  split_and!; try (reflexivity || lia).
  - repeat constructor; cbn; try lia. exists [x51; x52]. repeat split; cbn; lia.
  - repeat constructor; cbn; try lia. exists [x76; xa9; x00]. repeat split; cbn; lia.
Qed.

Lemma tx_roundtrip_witness :
  exists b, @serialize_tx zero_malloc sample_tx (@buff_alloc zero_malloc) = Ok (false, b) /\
    @deserialize_tx zero_malloc (buff_init (contents b) (b_idx b))
      = Ok ((false, sample_tx), rd (tx_bytes sample_tx) []).
Proof.
  destruct (@tx_roundtrip zero_malloc sample_tx) as (b & E & _ & E');
    [apply sample_tx_wf | vm_compute; congruence | eauto].
Defined.

(** deserialize_tx on arbitrary received bytes neither stops the process
    nor touches memory outside the block: it returns a status, the counts are
    the sizes of the arrays it allocated (so btc_msg_tx_free is in bounds even
    after an error), the allocations are bounded by the bytes received whatever
    the counts on the wire say, and on success every field is in range and every
    script holds its scriptLength bytes. *)
Theorem deserialize_tx_safe `{Malloc} bs :
  Zlen bs < 2 ^ 62 ->
  exists err tx b, deserialize_tx (buff_init bs (Zlen bs)) = Ok ((err, tx), b) /\
    tx_shape tx /\ 41 * tx_in_count tx <= Zlen bs /\ 9 * tx_out_count tx <= Zlen bs /\
    (err = false -> tx_loaded tx).
Proof.
  intros Hs. destruct (run_safe _ _ _ (safe_tx bs) Hs) as ([err tx] & b & E & us & ? & ? & ? & HQ).
  exists err, tx, b. split_and!; try done. intros He. by apply HQ.
Qed.

(** A transaction that announces 2^32-1 inputs and stops. *)
Lemma deserialize_tx_safe_witness :
  let bs := [x01; x00; x00; x00; xfe; xff; xff; xff; xff] in
  exists err tx b, @deserialize_tx zero_malloc (buff_init bs (Zlen bs)) = Ok ((err, tx), b) /\
    tx_shape tx.
Proof.
  edestruct (@deserialize_tx_safe zero_malloc [x01; x00; x00; x00; xfe; xff; xff; xff; xff])
    as (e & t & b & E & Hsh & _); [vm_compute; congruence|]. eauto.
Defined.

(** deserialize_block on arbitrary received bytes never faults; even after
    an error txCount is the size of the transaction array and every slot can be
    freed; the array is bounded by the bytes received; an accepted block is
    consumed to its last byte and all its transactions are complete. *)
Theorem deserialize_block_safe `{Malloc} blk0 bs :
  Zlen bs < 2 ^ 62 ->
  exists err blk b, deserialize_block blk0 (buff_init bs (Zlen bs)) = Ok ((err, blk), b) /\
    blk_txCount blk = Zlen (blk_tx blk) /\ 10 * blk_txCount blk <= Zlen bs /\
    Forall tx_shape (blk_tx blk) /\
    (err = false -> Forall tx_loaded (blk_tx blk) /\ b = rd bs []).
Proof.
  intros Hs. destruct (safe_block bs blk0 [] (rd_init _ Hs))
    as ([err blk] & us & post & -> & E & ? & ? & ? & HQ).
  exists err, blk, (rd us post). cbn in *. split_and!; try done.
  intros He. destruct (HQ He) as [? Hp]. split; [done|].
  assert (post = []) as -> by (apply (app_inv_head us); by rewrite app_nil_r).
  by rewrite app_nil_r.
Qed.

Lemma deserialize_block_safe_witness :
  let bs := replicate 80 x00 ++ [x00] in
  exists blk b, @deserialize_block zero_malloc (Block zero_blockheader 0 []) (buff_init bs (Zlen bs))
                = Ok ((false, blk), b) /\ b = rd bs [].
Proof.
  destruct (@deserialize_block_safe zero_malloc (Block zero_blockheader 0 [])
              (replicate 80 x00 ++ [x00])) as (e & blk & b & E & _ & _ & _ & HQ);
    [vm_compute; congruence|].
  assert (He : e = false).
  { revert E. vm_compute. congruence. }
  subst e. exists blk, b. split; [exact E|]. by apply HQ.
Defined.

(** Serialize_varint followed by deserialize_varint yields the value modulo
    2^32, for every 64-bit value: the identity on the values the encoder has a
    branch for, and the low 32 bits above, where the 9-byte form the decoder
    accepts is never produced. *)
Theorem varint_roundtrip `{Malloc} v v0 :
  u64 v ->
  exists b, serialize_varint v buff_alloc = Ok (false, b) /\ contents b = varint_bytes v /\
    deserialize_varint v0 (buff_init (contents b) (b_idx b))
      = Ok ((false, v mod 2 ^ 32), rd (varint_bytes v) []).
Proof.
  intros Hv. apply roundtrip; auto using writes_varint, parses_ends, parses_varint.
  pose proof (Zlen_varint_bytes v). unfold size_max. lia.
Qed.

Lemma varint_roundtrip_witness :
  exists b, @serialize_varint zero_malloc (2 ^ 32 + 5) (@buff_alloc zero_malloc) = Ok (false, b) /\
    deserialize_varint 0 (buff_init (contents b) (b_idx b))
      = Ok ((false, 5), rd (varint_bytes (2 ^ 32 + 5)) []).
Proof.
  destruct (@varint_roundtrip zero_malloc (2 ^ 32 + 5) 0) as (b & E & _ & E');
    [lia | eauto].
Defined.

Lemma split_bytes n (bs : list byte) :
  0 <= n <= Zlen bs -> exists l r, bs = l ++ r /\ Zlen l = n.
Proof.
  intros Hn. exists (take (Z.to_nat n) bs), (drop (Z.to_nat n) bs).
  rewrite take_drop. split; [done|]. unfold Zlen in *. rewrite length_take. lia.
Qed.
Lemma le_Z_32 l : Zlen l = 4 -> u32 (le_Z l).
Proof. intros Hl. pose proof (le_Z_bound l). by rewrite Hl in *. Qed.
Lemma le_bytes_32 l : Zlen l = 4 -> le_bytes 4 (le_Z l) = l.
Proof. intros Hl. rewrite <- (le_bytes_Z l) at 2. f_equal. unfold Zlen in Hl. lia. Qed.

(** A block header that parses is the image of exactly the 80 bytes
    consumed, so the hash computed from the record is the hash of what the peer
    sent; and every header parses back from its own image. *)
Theorem blockheader_bytes_exact h0 bs post :
  small [] (bs ++ post) -> Zlen bs = 80 ->
  exists h, deserialize_blockheader h0 (rd [] (bs ++ post)) = Ok ((false, h), rd bs post) /\
    wf_blockheader h /\ blockheader_bytes h = bs.
Proof.
  intros Hs Hl.
  destruct (split_bytes 4 bs) as (v & r0 & -> & Hv); [zlia|].
  destruct (split_bytes 32 r0) as (p & r1 & -> & Hp); [zlia|].
  destruct (split_bytes 32 r1) as (m & r2 & -> & Hm); [zlia|].
  destruct (split_bytes 4 r2) as (t & r3 & -> & Ht); [zlia|].
  destruct (split_bytes 4 r3) as (b & n & -> & Hb); [zlia|].
  set (h := BlockHeader (le_Z v) p m (le_Z t) (le_Z b) (le_Z n)).
  assert (Hn : Zlen n = 4) by zlia.
  assert (Hw : wf_blockheader h).
  { split_and!; cbn; try (apply le_Z_32; done); unfold is_uint256, Zlen in *; lia. }
  assert (E : blockheader_bytes h = v ++ p ++ m ++ t ++ b ++ n).
  { unfold blockheader_bytes. cbn. by rewrite !le_bytes_32. }
  exists h. split_and!; auto. rewrite <- E in *. exact (parses_blockheader h0 h Hw [] post Hs).
Qed.

Lemma blockheader_bytes_exact_witness :
  exists h, deserialize_blockheader zero_blockheader (rd [] (replicate 80 x2a ++ [x00]))
            = Ok ((false, h), rd (replicate 80 x2a) [x00]) /\
    blockheader_bytes h = replicate 80 x2a.
Proof.
  destruct (blockheader_bytes_exact zero_blockheader (replicate 80 x2a) [x00])
    as (h & E & _ & Hb); [vm_compute; congruence | done | eauto].
Defined.

(** *** The version handshake *)

Definition version_bytes (v : btc_msg_version) (s : list byte) : list byte :=
  le_bytes 4 (v_version v) ++ le_bytes 8 (v_services v) ++ le_bytes 8 (v_time v) ++
  addr_bytes (v_addrTo v) ++ addr_bytes (v_addrFrom v) ++ le_bytes 8 (v_nonce v) ++
  (varint_bytes (Zlen s) ++ s) ++ le_bytes 4 (v_startingHeight v) ++
  (if BTC_PROTO_FILTERING <=? v_version v then le_bytes 1 (v_relayTx v) else []).

(** [s] is the client string held by the 80-byte strVersion array. *)
Definition wf_version (v : btc_msg_version) (s : list byte) : Prop :=
  u32 (v_version v) /\ u64 (v_services v) /\ u64 (v_time v) /\
  wf_address (v_addrTo v) /\ wf_address (v_addrFrom v) /\ u64 (v_nonce v) /\
  u32 (v_startingHeight v) /\ u8 (v_relayTx v) /\
  (x00 ∉ s) /\ Zlen s < 80 /\ v_strVersion v = s ++ replicate (80 - length s) x00.

(** What the peer sees: the time field of an address is not sent, and a relay
    flag is sent from protocol 70001 on. *)
Definition sent_version (v : btc_msg_version) : btc_msg_version :=
  let untimed a := MsgAddress (a_services a) (a_ip a) 0 (a_port a) in
  MsgVersion (v_version v) (v_services v) (v_time v) (untimed (v_addrTo v)) (untimed (v_addrFrom v)) (v_nonce v) (v_strVersion v) (v_startingHeight v)
    (if BTC_PROTO_FILTERING <=? v_version v then v_relayTx v else 1).

Section version.
Context `{Malloc}.

Lemma strlen_app s t : x00 ∉ s -> strlen (s ++ x00 :: t) = Ok (Zlen s).
Proof.
  induction s as [|c s IH]; intros Hs; cbn; [done|].
  apply not_elem_of_cons in Hs as [Hc Hs]. rewrite decide_False by congruence.
  rewrite IH by done. cbn. by rewrite Zlen_cons.
Qed.

Lemma writes_str s k :
  x00 ∉ s -> (0 < k)%nat ->
  writes (serialize_str (Some (s ++ replicate k x00))) (varint_bytes (Zlen s) ++ s).
Proof.
  intros Hs Hk. unfold serialize_str. destruct k as [|k]; [lia|]. cbn [replicate].
  eapply writes_lift; [by apply strlen_app|].
  apply writes_bind; [apply writes_varint|]. apply writes_copy, ptr_load_prefix.
Qed.

Lemma writes_version v s :
  wf_version v s -> writes (serialize_version v) (version_bytes v s).
Proof.
  intros (? & ? & ? & Ha & Hb & ? & ? & ? & Hs & Hl & E).
  do 3 (apply writes_or; [apply writes_int|]). do 2 (apply writes_or; [by apply writes_addr|]).
  apply writes_or; [apply writes_int|]. apply writes_or.
  { rewrite E. apply writes_str; [done|]. unfold Zlen in Hl. lia. }
  apply writes_or; [apply writes_int|]. case_match; [apply writes_int | apply writes_nil].
Qed.

(** Before protocol 31402 an address carries no time. *)
Lemma parses_addr_untimed a a0 :
  wf_address a ->
  parses (deserialize_addr BTC_PROTO_MIN a0) (addr_bytes a)
    (false, MsgAddress (a_services a) (a_ip a) 0 (a_port a)).
Proof.
  intros (? & Hip & _ & ?). unfold deserialize_addr, addr_bytes. cbn.
  change (?x ++ ?y) with ([] ++ (x ++ y)).
  eapply parses_bind; [apply parses_ret|]. cbn beta iota.
  parse_step parses_uint64; [lia|].
  parse_step parses_bytes_n; [unfold Zlen; lia|]. by parse_last parses_uint16.
Qed.

Lemma parses_str size s :
  Zlen s < Z.of_nat size -> u32 (Zlen s) ->
  parses (deserialize_str size) (varint_bytes (Zlen s) ++ s)
    (false, s ++ replicate (size - length s) x00).
Proof.
  intros Hl Hu. unfold deserialize_str. parse_step parses_varint32; [done|].
  destruct (Z.eqb_spec (Zlen s) 0) as [E|E].
  { unfold Zlen in E. destruct s; [|cbn in E; lia]. rewrite Nat.sub_0_r. apply parses_ret. }
  rewrite leb_f by lia. eapply parses_last; [by apply parses_bytes_n|].
  cbn. by rewrite drop_replicate.
Qed.
End version.

Lemma ends_version v s :
  wf_version v s -> ends deserialize_version (version_bytes v s) (false, sent_version v).
Proof.
  intros (Hv & Hsv & Ht & Ha1 & Ha2 & Hn & Hh & Hr & Hs & Hl & Es). pose_Zlen.
  unfold deserialize_version, version_bytes, sent_version.
  end_step parses_uint32; [lia|]. do 2 (end_step parses_uint64; [lia|]).
  do 2 (end_step parses_addr_untimed; [done|]). end_step parses_uint64; [lia|].
  end_step parses_str; [lia..|]. rewrite <- Es. end_step parses_uint32; [lia|].
  apply ends_space. destruct (BTC_PROTO_FILTERING <=? v_version v); cbn [andb].
  - rewrite ltb_t by zlia. rewrite <- (app_nil_r (le_bytes 1 _)).
    end_step parses_uint8; [lia|]. apply ends_space, ends_ret.
  - apply (ends_bind _ _ [] [] (false, 1)); [apply parses_ret|]. apply ends_space, ends_ret.
Qed.

Lemma Zlen_version_bytes v s : wf_version v s -> Zlen (version_bytes v s) < 300.
Proof.
  intros (_ & _ & _ & (_ & Ha & _) & (_ & Hb & _) & _ & _ & _ & _ & Hl & _).
  pose proof (Zlen_varint_bytes (Zlen s)). unfold version_bytes, addr_bytes.
  destruct (_ <=? _); zlen; unfold Zlen in *; lia.
Qed.

(** The peer parses exactly what serialize_version sent (the address times
    are not transmitted, the relay flag is from protocol 70001 on), with no
    trailing byte: deserialize_version accepts it and recovers every field. *)
Theorem version_roundtrip `{Malloc} v s :
  wf_version v s ->
  exists b, serialize_version v buff_alloc = Ok (false, b) /\
    contents b = version_bytes v s /\
    deserialize_version (buff_init (contents b) (b_idx b))
      = Ok ((false, sent_version v), rd (version_bytes v s) []).
Proof.
  intros Hw. pose proof (Zlen_version_bytes v s Hw).
  apply roundtrip; [by apply writes_version | by apply ends_version | unfold size_max; lia].
Qed.

Definition sample_version : btc_msg_version :=
  MsgVersion 70016 0 1700000000 zero_address zero_address 0x2345
    ([x2f; x62; x69; x74; x63] ++ replicate 75 x00) 0 0.

Lemma sample_version_wf : wf_version sample_version [x2f; x62; x69; x74; x63].
Proof.
  unfold wf_version, wf_address, sample_version; cbn.
  split_and!; try (reflexivity || lia).
  apply (bool_decide_unpack _). vm_compute. exact I.
Qed.

Lemma version_roundtrip_witness :
  exists b, @serialize_version zero_malloc sample_version (@buff_alloc zero_malloc) = Ok (false, b) /\
    contents b = version_bytes sample_version [x2f; x62; x69; x74; x63].
Proof.
  destruct (@version_roundtrip zero_malloc sample_version [x2f; x62; x69; x74; x63])
    as (b & E & E' & _); [apply sample_version_wf | eauto].
Defined.

(** An address list entry cannot be read back at the protocol the client
    speaks: serialize_addr leaves out the time field that deserialize_addr
    expects from protocol 31402 on, so the entry is four bytes short. *)
Theorem addr_entry_unreadable pv a a0 :
  wf_address a -> BTC_PROTO_ADDR_W_TIME <= pv ->
  exists a' b, deserialize_addr pv a0 (buff_init (addr_bytes a) (Zlen (addr_bytes a)))
               = Ok ((true, a'), b).
Proof.
  intros (Hs & Hip & Ht & Hp) Hpv.
  assert (Hl : Zlen (addr_bytes a) = 26) by (unfold addr_bytes; zlen; unfold Zlen; lia).
  destruct (safe_addr (addr_bytes a) pv a0 []) as ([[] a'] & us & post & E & E' & HQ);
    [apply rd_init; lia | eauto |].
  destruct (HQ eq_refl) as [_ Hus]. rewrite leb_t in Hus by done.
  apply (f_equal Zlen) in E. zlia.
Qed.

Lemma addr_entry_unreadable_witness :
  exists a' b, deserialize_addr BTC_PROTO_VERSION zero_address
                 (buff_init (addr_bytes zero_address) 26) = Ok ((true, a'), b).
Proof.
  apply (addr_entry_unreadable BTC_PROTO_VERSION zero_address zero_address);
    [unfold wf_address; cbn; split_and!; (lia || done) | done].
Defined.
