(* ===== verification/Hash.v ===== *)
(** * Digests and digest printing (core/hash.c, core/ripemd160.c, ext MurmurHash3.c)

    SHA-256 is OpenSSL's [EVP_sha256]: a parameter of which only the digest
    length is used. RIPEMD-160 and MurmurHash3 are the repository's own code and
    are defined here down to the word operations. *)
From S2P Require Export Util Messages.

(** [EVP_DigestInit/Update/Final(EVP_sha256())]: a function of the bytes, with
    a 32-byte result. *)
Class Sha256 : Type := {
  sha256 : list byte -> list byte;
  sha256_length : forall bs, length (sha256 bs) = 32%nat
}.

(** A concrete function for the witnesses: the first 32 bytes, padded with the
    length (not SHA-256). *)
Lemma toy_length bs : length (take 32 (bs ++ le_bytes 32 (Zlen bs + 1))) = 32%nat.
Proof. rewrite length_take, length_app, length_le_bytes. lia. Qed.
Definition toy_sha256 : Sha256 :=
  {| sha256 := fun bs => take 32 (bs ++ le_bytes 32 (Zlen bs + 1));
     sha256_length := fun bs => toy_length bs |}.

(** ** RIPEMD-160 *)

(** [ROL] and [ROTL32] on 32-bit words. *)
Definition ROTL32 (x r : Z) : Z := Z.lor (wrap32 (Z.shiftl x r)) (Z.shiftr x (32 - r)).
Definition not32 (x : Z) : Z := 2 ^ 32 - 1 - x.

Definition rmd_f (j x y z : Z) : Z :=
  if j <? 16 then Z.lxor (Z.lxor x y) z
  else if j <? 32 then Z.lor (Z.land x y) (Z.land (not32 x) z)
  else if j <? 48 then Z.lxor (Z.lor x (not32 y)) z
  else if j <? 64 then Z.lor (Z.land x z) (Z.land y (not32 z))
  else Z.lxor x (Z.lor y (not32 z)).

Definition KL : list Z := [0x00000000; 0x5A827999; 0x6ED9EBA1; 0x8F1BBCDC; 0xA953FD4E].
Definition KR : list Z := [0x50A28BE6; 0x5C4DD124; 0x6D703EF3; 0x7A6D76E9; 0x00000000].

Definition RL : list Z :=
  [ 0; 1; 2; 3; 4; 5; 6; 7; 8; 9;10;11;12;13;14;15;
    7; 4;13; 1;10; 6;15; 3;12; 0; 9; 5; 2;14;11; 8;
    3;10;14; 4; 9;15; 8; 1; 2; 7; 0; 6;13;11; 5;12;
    1; 9;11;10; 0; 8;12; 4;13; 3; 7;15;14; 5; 6; 2;
    4; 0; 5; 9; 7;12; 2;10;14; 1; 3; 8;11; 6;15;13 ].
Definition RR : list Z :=
  [ 5;14; 7; 0; 9; 2;11; 4;13; 6;15; 8; 1;10; 3;12;
    6;11; 3; 7; 0;13; 5;10;14;15; 8;12; 4; 9; 1; 2;
   15; 5; 1; 3; 7;14; 6; 9;11; 8;12; 2;10; 0; 4;13;
    8; 6; 4; 1; 3;11;15; 0; 5;12; 2;13; 9; 7;10;14;
   12;15;10; 4; 1; 5; 8; 7; 6; 2;13;14; 0; 3; 9;11 ].
Definition SL : list Z :=
  [11;14;15;12; 5; 8; 7; 9;11;13;14;15; 6; 7; 9; 8;
    7; 6; 8;13;11; 9; 7;15; 7;12;15; 9;11; 7;13;12;
   11;13; 6; 7;14; 9;13;15;14; 8;13; 6; 5;12; 7; 5;
   11;12;14;15;14;15; 9; 8; 9;14; 5; 6; 8; 6; 5;12;
    9;15; 5;11; 6; 8;13;12; 5;12;13;14;11; 8; 5; 6 ].
Definition SR : list Z :=
  [ 8; 9; 9;11;13;15;15; 5; 7; 7; 8;11;14;14;12; 6;
    9;13;15; 7;12; 8; 9;11; 7; 7;12; 7; 6;15;13;11;
    9; 7;15;11; 8; 6; 6;14;12;13; 5;14;13;13; 7; 5;
   15; 5; 8;11;14;14; 6;14; 6; 9;12; 9;12; 5;15; 8;
    8; 5;12; 9;12; 5;14; 6; 8;13; 6; 5;15;13;11;11 ].

(** The five words of a line (and of the chaining value). *)
Record rmd_state : Type := Rmd { r0 : Z; r1 : Z; r2 : Z; r3 : Z; r4 : Z }.

Definition rmd_iv : rmd_state :=
  Rmd 0x67452301 0xEFCDAB89 0x98BADCFE 0x10325476 0xC3D2E1F0.

(** [X[j]], the [j]-th little-endian word of the block. *)
Definition rmd_word (block : list byte) (j : Z) : Z :=
  le_Z (take 4 (drop (Z.to_nat (4 * j)) block)).

(** One round of a line: [f] is the value of the nonlinear function. *)
Definition rmd_line (f x k s : Z) (l : rmd_state) : rmd_state :=
  let t := wrap32 (ROTL32 (wrap32 (r0 l + f + x + k)) s + r4 l) in
  Rmd (r4 l) t (r1 l) (ROTL32 (r2 l) 10) (r3 l).

Definition rmd_round (block : list byte) (j : nat) (lr : rmd_state * rmd_state) :
    rmd_state * rmd_state :=
  let '(l, r) := lr in
  let rd := (j / 16)%nat in
  (rmd_line (rmd_f (Z.of_nat j) (r1 l) (r2 l) (r3 l)) (rmd_word block (RL !!! j))
            (KL !!! rd) (SL !!! j) l,
   rmd_line (rmd_f (79 - Z.of_nat j) (r1 r) (r2 r) (r3 r)) (rmd_word block (RR !!! j))
            (KR !!! rd) (SR !!! j) r).

Fixpoint rmd_rounds (block : list byte) (n j : nat) (lr : rmd_state * rmd_state) :
    rmd_state * rmd_state :=
  match n with
  | O => lr
  | S n => rmd_rounds block n (S j) (rmd_round block j lr)
  end.

Definition rmd_transform (h : rmd_state) (block : list byte) : rmd_state :=
  let '(l, r) := rmd_rounds block 80 0 (h, h) in
  Rmd (wrap32 (r1 h + r2 l + r3 r)) (wrap32 (r2 h + r3 l + r4 r))
      (wrap32 (r3 h + r4 l + r0 r)) (wrap32 (r4 h + r0 l + r1 r))
      (wrap32 (r0 h + r1 l + r2 r)).

(** [while (len >= 64)]: the chaining value, and what [p] is left at. *)
Fixpoint ripemd160_blocks (fuel : nat) (h : rmd_state) (p : list byte) (len : Z) :
    rmd_state * list byte * Z :=
  match fuel with
  | O => (h, p, len)
  | S fuel =>
      if 64 <=? len
      then ripemd160_blocks fuel (rmd_transform h (take 64 p)) (drop 64 p) (len - 64)
      else (h, p, len)
  end.

(** [memset(block + off, 0, n)] *)
Definition memset0 (block : list byte) (off n : Z) : res (list byte) :=
  mem_store block off (replicate (Z.to_nat n) x00).

Definition ripemd160_digest (h : rmd_state) : list byte :=
  le_bytes 4 (r0 h) ++ le_bytes 4 (r1 h) ++ le_bytes 4 (r2 h) ++
  le_bytes 4 (r3 h) ++ le_bytes 4 (r4 h).

(** [block0] is the content of the uninitialised local [block]. *)
Definition ripemd160_with (block0 : list byte) (data : list byte) : res (list byte) :=
  let bits := wrap64 (Zlen data * 8) in
  let '(h, p, len) := ripemd160_blocks (length data) rmd_iv data (Zlen data) in
  block ← mem_store block0 0 p;
  block ← mem_store block len [x80];
  let len := len + 1 in
  '(h, block, len) ←
    (if 56 <? len
     then block ← memset0 block len (64 - len); mret (rmd_transform h block, block, 0)
     else mret (h, block, len));
  block ← memset0 block len (56 - len);
  block ← mem_store block 56 (le_bytes 8 bits);
  mret (ripemd160_digest (rmd_transform h block)).

Definition ripemd160 (data : list byte) : res (list byte) :=
  ripemd160_with (replicate 64 x00) data.

#[global] Arguments rmd_transform : simpl never.

(** The Merkle-Damgaard reference: the padded message, block by block. *)
Definition md_pad (data : list byte) : list byte :=
  data ++ [x80] ++ replicate (Z.to_nat ((55 - Zlen data) mod 64)) x00 ++
  le_bytes 8 (8 * Zlen data).

Fixpoint md_fold (n : nat) (h : rmd_state) (m : list byte) : rmd_state :=
  match n with
  | O => h
  | S n => md_fold n (rmd_transform h (take 64 m)) (drop 64 m)
  end.

Definition ripemd160_spec (data : list byte) : list byte :=
  let m := md_pad data in ripemd160_digest (md_fold (length m / 64) rmd_iv m).

(** ** MurmurHash3 *)

Definition murmur_c1 : Z := 0xcc9e2d51.
Definition murmur_c2 : Z := 0x1b873593.

(** [k1 *= c1; k1 = ROTL32(k1,15); k1 *= c2;] *)
Definition murmur_k (k1 : Z) : Z :=
  wrap32 (ROTL32 (wrap32 (k1 * murmur_c1)) 15 * murmur_c2).

Definition murmur_mix (h1 k1 : Z) : Z :=
  wrap32 (ROTL32 (Z.lxor h1 (murmur_k k1)) 13 * 5 + 0xe6546b64).

Definition murmur_tail (h1 : Z) (tail : list byte) : Z :=
  match tail with
  | [] => h1
  | _ => Z.lxor h1 (murmur_k (le_Z tail))
  end.

Fixpoint murmur_body (h1 : Z) (data : list byte) : Z :=
  match data with
  | b0 :: b1 :: b2 :: b3 :: rest => murmur_body (murmur_mix h1 (le_Z [b0; b1; b2; b3])) rest
  | tail => murmur_tail h1 tail
  end.

Definition murmur_fmix (h1 : Z) : Z :=
  let h1 := Z.lxor h1 (Z.shiftr h1 16) in
  let h1 := wrap32 (h1 * 0x85ebca6b) in
  let h1 := Z.lxor h1 (Z.shiftr h1 13) in
  let h1 := wrap32 (h1 * 0xc2b2ae35) in
  Z.lxor h1 (Z.shiftr h1 16).

Definition MurmurHash3 (key : list byte) (seed : Z) : Z :=
  murmur_fmix (Z.lxor (murmur_body seed key) (wrap32 (Zlen key))).

(** ** core/hash.c *)

(** [hash->data[31 - i] = v] for the [i]-th pair of digits; the result is false
    and [hash] partly overwritten when sscanf fails. *)
Fixpoint uint256_from_str_loop (str : list byte) (i : nat) (hash : uint256) : bool * uint256 :=
  match str with
  | c1 :: c2 :: str =>
      match sscanf_02x c1 c2 with
      | None => (false, hash)
      | Some v => uint256_from_str_loop str (S i) (<[(32 - i - 1)%nat := Z_byte v]> hash)
      end
  | _ => (true, hash)
  end.

Definition uint256_from_str (str : list byte) (hash : uint256) : bool * uint256 :=
  if negb (Zlen str =? 2 * 32) then (false, hash) else uint256_from_str_loop str 0 hash.

(** [n] swaps of [hash[i]] and [hash[len - i - 1]], from [i]. *)
Fixpoint hash_reverse_loop (len n i : nat) (hash : list byte) : list byte :=
  match n with
  | O => hash
  | S n =>
      let v := hash !!! (len - i - 1)%nat in
      hash_reverse_loop len n (S i) (<[i := v]> (<[(len - i - 1)%nat := hash !!! i]> hash))
  end.
Definition uint256_reverse (hash : uint256) : uint256 := hash_reverse_loop 32 16 0 hash.
Definition uint160_reverse (hash : uint160) : uint160 := hash_reverse_loop 20 10 0 hash.

Definition uint160_snprintf_reverse (len : Z) (hash : uint160) : res (list byte) :=
  str_snprintf_bytes len None (uint160_reverse hash).

Definition uint256_snprintf_reverse (len : Z) (hash : uint256) : res (list byte) :=
  _ ← ASSERT (2 * 32 + 1 <=? len);
  str_snprintf_bytes len None (uint256_reverse hash).

Definition uint256_to_str (hash : uint256) : res (list byte) :=
  uint256_snprintf_reverse 80 hash.

Section digests.
Context `{Sha256}.

Definition sha256_calc (buf : list byte) : uint256 := sha256 buf.

Definition hash256_calc (buf : list byte) : uint256 := sha256_calc (sha256_calc buf).

Definition hash160_calc (buf : list byte) : res uint160 := ripemd160 (sha256_calc buf).

Definition hash4_calc (buf : list byte) : list byte := take 4 (hash256_calc buf).
End digests.

(** ** Lemmas *)

Lemma memset0_app pre mid post off n :
  off = Zlen pre -> n = Zlen mid ->
  memset0 (pre ++ mid ++ post) off n = Ok (pre ++ replicate (Z.to_nat n) x00 ++ post).
Proof.
  intros -> ->. unfold memset0. apply mem_store_app.
  rewrite Zlen_replicate. unfold Zlen. lia.
Qed.

Lemma md_fold_app n m h a b :
  length a = (64 * n)%nat -> md_fold (n + m) h (a ++ b) = md_fold m (md_fold n h a) b.
Proof.
  revert h a. induction n as [|n IH]; intros h a Hl.
  - by destruct a.
  - cbn [Nat.add md_fold].
    rewrite take_app_le, drop_app_le by lia. apply IH. rewrite length_drop. lia.
Qed.

Lemma md_fold_one h b : length b = 64%nat -> md_fold 1 h b = rmd_transform h b.
Proof. intros Hl. cbn [md_fold]. by rewrite take_ge by lia. Qed.

Lemma ripemd160_blocks_spec q fuel h a t :
  length a = (64 * q)%nat -> (length t < 64)%nat -> (q <= fuel)%nat ->
  ripemd160_blocks fuel h (a ++ t) (Zlen (a ++ t)) = (md_fold q h a, t, Zlen t).
Proof.
  revert fuel h a. induction q as [|q IH]; intros fuel h a Ha Ht Hf.
  - destruct a; [|done]. cbn [app md_fold]. assert (Zlen t < 64) by (unfold Zlen; lia).
    destruct fuel; cbn; [done|]. by rewrite leb_f by lia.
  - destruct fuel as [|fuel]; [lia|]. cbn [ripemd160_blocks md_fold].
    assert (Zlen a = 64 * (Z.of_nat q + 1)) by (unfold Zlen; lia).
    rewrite leb_t by zlia. rewrite take_app_le, drop_app_le by lia.
    rewrite <- (IH fuel) by (rewrite ?length_drop; lia). f_equal.
    unfold Zlen. rewrite !length_app, length_drop. lia.
Qed.

Lemma split64 (data : list byte) :
  exists q a t, data = a ++ t /\ length a = (64 * q)%nat /\ (length t < 64)%nat.
Proof.
  pose proof (Nat.div_mod_eq (length data) 64). pose proof (Nat.mod_upper_bound (length data) 64 ltac:(lia)).
  exists (length data / 64)%nat, (take (64 * (length data / 64)) data),
    (drop (64 * (length data / 64)) data).
  rewrite take_drop, length_take, length_drop. split; [done|lia].
Qed.

Lemma split_len {A} n (l : list A) :
  (n <= length l)%nat -> exists a b, l = a ++ b /\ length a = n.
Proof. intros. exists (take n l), (drop n l). rewrite take_drop, length_take. split; [done|lia]. Qed.

(** The padding of the last partial block [t], in one block or in two. *)
Lemma pad_length (t : list byte) n :
  (length t < 64)%nat -> n mod 64 = Zlen t ->
  (55 - n) mod 64 = if 56 <? Zlen t + 1 then 119 - Zlen t else 55 - Zlen t.
Proof.
  intros Ht Hn. assert (Zlen t < 64) by (unfold Zlen; lia). pose_Zlen.
  destruct (Z.ltb_spec 56 (Zlen t + 1)); Z.to_euclidean_division_equations; lia.
Qed.

(** What [ripemd160] does from the first partial block on. *)
Definition ripemd160_last (block0 p : list byte) (h : rmd_state) (bits : Z) : res (list byte) :=
  block ← mem_store block0 0 p;
  block ← mem_store block (Zlen p) [x80];
  let len := Zlen p + 1 in
  '(h, block, len) ←
    (if 56 <? len
     then block ← memset0 block len (64 - len); mret (rmd_transform h block, block, 0)
     else mret (h, block, len));
  block ← memset0 block len (56 - len);
  block ← mem_store block 56 (le_bytes 8 bits);
  mret (ripemd160_digest (rmd_transform h block)).

(** The local buffer after [p] and the 0x80 byte. *)
Lemma last_start block0 p :
  length block0 = 64%nat -> (length p < 64)%nat ->
  exists rest, (block ← mem_store block0 0 p; mem_store block (Zlen p) [x80]) =
    Ok ((p ++ [x80]) ++ rest) /\ length rest = (63 - length p)%nat.
Proof.
  intros Hb Hp. destruct (split_len (length p) block0) as (a & b & -> & Ha); [lia|].
  rewrite length_app in Hb. destruct b as [|c rest]; [cbn in Hb; lia|].
  exists rest. cbn in Hb. split; [|lia].
  assert (mem_store (a ++ c :: rest) 0 p = Ok (p ++ c :: rest)) as ->.
  { apply (mem_store_app [] a p). unfold Zlen. lia. }
  cbn. rewrite <- app_assoc. apply (mem_store_app p [c] [x80] rest). done.
Qed.

(** Filling up the last block: zeros to offset 56, then the length. *)
Lemma last_fill pre rest bits :
  Zlen pre <= 56 -> Zlen (pre ++ rest) = 64 ->
  (block ← memset0 (pre ++ rest) (Zlen pre) (56 - Zlen pre);
   mem_store block 56 (le_bytes 8 bits)) =
  Ok (pre ++ replicate (Z.to_nat (56 - Zlen pre)) x00 ++ le_bytes 8 bits).
Proof.
  intros Hp Hl. destruct (split_len (Z.to_nat (56 - Zlen pre)) rest) as (u & v & -> & Hu).
  { zlen. unfold Zlen in *. lia. }
  rewrite (memset0_app pre u v) by (unfold Zlen in *; lia). cbn [mbind res_bind].
  set (z := replicate _ _). assert (Hz : Zlen z = 56 - Zlen pre) by (unfold z; zlia).
  rewrite app_assoc, <- (app_nil_r v).
  replace 56 with (Zlen (pre ++ z)) at 1 by zlia.
  assert (Zlen u = 56 - Zlen pre) by (unfold Zlen in *; lia).
  rewrite (mem_store_app (pre ++ z) v (le_bytes 8 bits) []) by zlia.
  by rewrite app_nil_r, <- app_assoc.
Qed.

Lemma ripemd160_last_spec block0 p h bits :
  length block0 = 64%nat -> (length p < 64)%nat ->
  let z := replicate (Z.to_nat (if 56 <? Zlen p + 1 then 119 - Zlen p else 55 - Zlen p)) x00 in
  let m := p ++ [x80] ++ z ++ le_bytes 8 bits in
  ripemd160_last block0 p h bits = Ok (ripemd160_digest (md_fold (length m / 64) h m)).
Proof.
  intros Hb Hp z m. subst z m. unfold ripemd160_last.
  destruct (last_start block0 p Hb Hp) as (rest & E & Hr).
  destruct (mem_store block0 0 p) as [b1|]; [|done]. cbn [mbind res_bind] in *.
  rewrite E. assert (Zlen p < 64 /\ Zlen rest = 63 - Zlen p) as [Hp' Hr'] by (unfold Zlen; lia).
  destruct (Z.ltb_spec 56 (Zlen p + 1)) as [Hc|Hc]; cbn [mbind res_bind mret res_ret].
  - rewrite <- (app_nil_r rest), (memset0_app (p ++ [x80]) rest []) by zlia.
    cbn [mbind res_bind mret res_ret].
    set (blk := (p ++ [x80]) ++ _ ++ _).
    assert (Hl : Zlen blk = 64) by (unfold blk; zlia).
    pose proof (last_fill [] blk bits ltac:(done) Hl) as Hf. cbn [app] in Hf.
    change (Zlen []) with 0 in Hf. destruct (memset0 blk 0 (56 - 0)) as [b2|]; [|done].
    cbn [mbind res_bind] in *. rewrite Hf. do 2 f_equal. cbn [mbind res_bind mret res_ret].
    replace (p ++ _) with (blk ++ replicate (Z.to_nat (56 - 0)) x00 ++ le_bytes 8 bits).
    2: { unfold blk. rewrite app_nil_r, <- !app_assoc, (app_assoc (replicate _ _)), <- replicate_add.
         do 5 f_equal. lia. }
    set (t := replicate _ _ ++ _).
    assert (length t = 64%nat) by (unfold t; rewrite length_app, length_replicate, length_le_bytes; done).
    rewrite length_app. replace ((length blk + length t) / 64)%nat with (1 + 1)%nat.
    2: { unfold Zlen in Hl. replace (length blk + length t)%nat with 128%nat by lia. done. }
    rewrite md_fold_app by (unfold Zlen in Hl; lia).
    by rewrite !md_fold_one by (unfold Zlen in Hl; lia).
  - replace (Zlen p + 1) with (Zlen (p ++ [x80])) by zlia.
    pose proof (last_fill (p ++ [x80]) rest bits ltac:(zlia) ltac:(zlia)) as Hf.
    destruct (memset0 _ _ _) as [b2|]; [|done].
    cbn [mbind res_bind] in *. rewrite Hf. cbn [mbind res_bind mret res_ret]. do 2 f_equal.
    rewrite <- app_assoc. cbn [app]. replace (56 - Zlen (p ++ [x80])) with (55 - Zlen p) by zlia.
    set (m := p ++ _).
    assert (length m = 64%nat).
    { unfold m. rewrite length_app. cbn. rewrite length_app, length_replicate, length_le_bytes.
      unfold Zlen in *. lia. }
    replace (length m / 64)%nat with 1%nat by (replace (length m) with 64%nat; done).
    by rewrite md_fold_one.
Qed.

Lemma ripemd160_with_last block0 data :
  exists q a t, data = a ++ t /\ length a = (64 * q)%nat /\ (length t < 64)%nat /\
    ripemd160_with block0 data =
    ripemd160_last block0 t (md_fold q rmd_iv a) (wrap64 (Zlen data * 8)).
Proof.
  destruct (split64 data) as (q & a & t & -> & Ha & Ht). exists q, a, t. do 3 (split; [done|]).
  unfold ripemd160_with. rewrite (ripemd160_blocks_spec q) by (rewrite ?length_app; lia). done.
Qed.

Lemma rmd_digest_length h : length (ripemd160_digest h) = 20%nat.
Proof. unfold ripemd160_digest. by rewrite !length_app, !length_le_bytes. Qed.

(** [ripemd160] never writes outside its 64-byte block and, whatever that
    block held, returns the Merkle-Damgaard hash of the padded message: its two
    ways of padding (one last block, or two) are the single reference padding. *)
Theorem ripemd160_is_md (block0 data : list byte) :
  length block0 = 64%nat -> Zlen data < 2 ^ 61 ->
  ripemd160_with block0 data = Ok (ripemd160_spec data).
Proof.
  intros Hb Hd. destruct (ripemd160_with_last block0 data) as (q & a & t & -> & Ha & Ht & ->).
  rewrite ripemd160_last_spec by done. unfold ripemd160_spec, md_pad.
  rewrite wrap64_small by zlia. rewrite (Z.mul_comm (Zlen (a ++ t))).
  rewrite (pad_length t (Zlen (a ++ t)) Ht).
  2: { zlen. unfold Zlen. rewrite Ha. rewrite Nat2Z.inj_mul, Z.mul_comm, Z.add_comm, Z_mod_plus_full.
       apply Z.mod_small. lia. }
  rewrite <- app_assoc. set (m := t ++ _). do 2 f_equal.
  rewrite <- md_fold_app by done. f_equal.
  rewrite length_app, Ha, (Nat.mul_comm 64 q), Nat.div_add_l by lia. done.
Qed.

Lemma ripemd160_is_md_witness :
  ripemd160_with (replicate 64 xff) [x61; x62; x63] = Ok (ripemd160_spec [x61; x62; x63]).
Proof. apply ripemd160_is_md; done. Defined.

Lemma ripemd160_length data : Zlen data < 2 ^ 61 -> exists d, ripemd160 data = Ok d /\ is_uint160 d.
Proof.
  intros Hd. destruct (ripemd160_with_last (replicate 64 x00) data) as (q & a & t & E & Ha & Ht & E').
  unfold ripemd160. rewrite E', ripemd160_last_spec by done.
  eexists. split; [done|]. apply rmd_digest_length.
Qed.

(** The published digests of the empty string and of "abc". *)
Example ripemd160_empty :
  ripemd160 [] = Ok (map Z_byte [0x9c; 0x11; 0x85; 0xa5; 0xc5; 0xe9; 0xfc; 0x54; 0x61; 0x28;
                                0x08; 0x97; 0x7e; 0xe8; 0xf5; 0x48; 0xb2; 0x25; 0x8d; 0x31]).
Proof. vm_compute. reflexivity. Qed.
Example ripemd160_abc :
  ripemd160 [x61; x62; x63] =
  Ok (map Z_byte [0x8e; 0xb2; 0x08; 0xf7; 0xe0; 0x5d; 0x98; 0x7a; 0x9b; 0x04;
                  0x4a; 0x8e; 0x98; 0xc6; 0xb0; 0x87; 0xf1; 0x5a; 0x0b; 0xfc]).
Proof. vm_compute. reflexivity. Qed.

(** Published MurmurHash3_x86_32 values. *)
Example murmur_vectors :
  MurmurHash3 [] 1 = 0x514E28B7 /\ MurmurHash3 [x74; x65; x73; x74] 0 = 0xba6bd213.
Proof. vm_compute. split; reflexivity. Qed.

Lemma lxor_u32 a b : u32 a -> u32 b -> u32 (Z.lxor a b).
Proof. by apply lxor_bound. Qed.
Lemma shiftr_u32 a n : u32 a -> 0 <= n -> u32 (Z.shiftr a n).
Proof. apply shiftr_bound. Qed.

Lemma murmur_body_u32 data : forall h1, u32 h1 -> u32 (murmur_body h1 data).
Proof.
  assert (forall n data, (length data <= n)%nat -> forall h1, u32 h1 -> u32 (murmur_body h1 data)) as H.
  2: { intros. by apply (H (length data)). }
  assert (Ht : forall h1 t, u32 h1 -> u32 (murmur_tail h1 t)).
  { intros h1 [|c t] Hh; [done|]. apply lxor_u32; [done|apply wrap32_bound]. }
  clear data. induction n as [|n IH]; intros data Hl h1 Hh.
  { destruct data; [by apply (Ht _ [])|cbn in Hl; lia]. }
  destruct data as [|b0 [|b1 [|b2 [|b3 rest]]]];
    [apply (Ht _ []) | apply (Ht _ [_]) | apply (Ht _ [_; _]) | apply (Ht _ [_; _; _]) |];
    try done.
  cbn [murmur_body]. apply IH; [cbn in Hl; lia|]. apply wrap32_bound.
Qed.

Lemma MurmurHash3_u32 key seed : u32 seed -> u32 (MurmurHash3 key seed).
Proof.
  intros Hs. unfold MurmurHash3, murmur_fmix.
  repeat (apply lxor_u32 || apply shiftr_u32 || apply wrap32_bound || apply murmur_body_u32 ||
          done || lia).
Qed.

(** ** Hashes as text *)

Lemma uint256_reverse_rev h : is_uint256 h -> uint256_reverse h = rev h.
Proof.
  unfold is_uint256. intros Hl.
  do 32 (destruct h as [|? h]; [discriminate|]). destruct h; [reflexivity|discriminate].
Qed.
Lemma uint160_reverse_rev h : is_uint160 h -> uint160_reverse h = rev h.
Proof.
  unfold is_uint160. intros Hl.
  do 20 (destruct h as [|? h]; [discriminate|]). destruct h; [reflexivity|discriminate].
Qed.

Lemma uint256_snprintf_reverse_spec len h :
  is_uint256 h -> 65 <= len ->
  uint256_snprintf_reverse len h = Ok (concat (map hex2 (rev h))).
Proof.
  intros Hh Hl. unfold uint256_snprintf_reverse, ASSERT. rewrite leb_t by lia.
  cbn [mbind res_bind]. rewrite uint256_reverse_rev by done.
  apply str_snprintf_bytes_spec. unfold Zlen. rewrite length_rev, Hh. lia.
Qed.

Lemma uint256_from_str_loop_hex l i a m b :
  length m = length l -> (length a = 32 - i - length l)%nat -> (i + length l <= 32)%nat ->
  uint256_from_str_loop (concat (map hex2 l)) i (a ++ m ++ b) = (true, a ++ rev l ++ b).
Proof.
  revert i m b. induction l as [|c l IH]; intros i m b Hm Ha Hi.
  { by destruct m. }
  cbn [map concat]. unfold hex2 at 1. cbn [app uint256_from_str_loop].
  rewrite sscanf_hex2, Z_byte_Z. cbn [length] in *.
  destruct m as [|x m _] using rev_ind; [done|]. rewrite length_app in Hm. cbn in Hm.
  rewrite <- app_assoc, (app_assoc a m). cbn [app].
  replace (32 - i - 1)%nat with (length (a ++ m) + 0)%nat by (rewrite length_app; lia).
  rewrite insert_app_r. cbn. rewrite <- app_assoc, IH by lia.
  by rewrite <- app_assoc.
Qed.

(** A hash printed by [uint256_snprintf_reverse] is 64 hexadecimal digits,
    and [uint256_from_str] reads the same hash back, whatever its output
    argument held. *)
Theorem uint256_str_roundtrip (len : Z) (h h0 : uint256) :
  is_uint256 h -> is_uint256 h0 -> 65 <= len ->
  exists s, uint256_snprintf_reverse len h = Ok s /\ Zlen s = 64 /\
    uint256_from_str s h0 = (true, h).
Proof.
  intros Hh Hh0 Hl. exists (concat (map hex2 (rev h))).
  assert (Hs : Zlen (concat (map hex2 (rev h))) = 64).
  { unfold Zlen. rewrite length_hex_concat, length_rev, Hh. done. }
  split_and!; [by apply uint256_snprintf_reverse_spec | done |].
  unfold uint256_from_str. rewrite Hs. cbn [Z.mul Z.eqb Pos.eqb Pos.mul negb].
  pose proof (uint256_from_str_loop_hex (rev h) 0 [] h0 []) as E.
  rewrite !app_nil_r, rev_involutive in E. apply E; rewrite ?length_rev, ?Hh, ?Hh0; done.
Qed.

Lemma uint256_str_roundtrip_witness :
  exists s, uint256_snprintf_reverse 80 (replicate 32 xab) = Ok s /\ Zlen s = 64 /\
    uint256_from_str s uint256_zero_out = (true, replicate 32 xab).
Proof. apply uint256_str_roundtrip; done. Defined.

(** Anything but 64 characters is refused and the hash left alone. *)
Lemma uint256_from_str_length s h : Zlen s <> 64 -> uint256_from_str s h = (false, h).
Proof. intros Hs. unfold uint256_from_str. by rewrite eqb_f by lia. Qed.

Section digest_lemmas.
Context `{Sha256}.

Lemma sha256_calc_length buf : is_uint256 (sha256_calc buf).
Proof. apply sha256_length. Qed.
Lemma hash256_calc_length buf : is_uint256 (hash256_calc buf).
Proof. apply sha256_length. Qed.
Lemma hash4_calc_length buf : length (hash4_calc buf) = 4%nat.
Proof. unfold hash4_calc. rewrite length_take, hash256_calc_length. done. Qed.
Lemma hash160_calc_length buf : exists d, hash160_calc buf = Ok d /\ is_uint160 d.
Proof. apply ripemd160_length. unfold Zlen. by rewrite sha256_calc_length. Qed.
End digest_lemmas.
