(* ===== verification/Base58.v ===== *)
(** * Base-58 strings and addresses (core/base58.c)

    The big-number arithmetic is OpenSSL's BIGNUM: a parameter, with the
    documented meaning of the functions used (memory permitting) as laws. *)
From Stdlib Require Import Strings.String.
From stdpp Require Import numbers.
From S2P Require Export Hash.

(** The number of bytes of a magnitude, and the body of OpenSSL's MPI format:
    big-endian, minimal, with a zero byte in front when the top bit is set. *)
Definition mpi_nbytes (v : Z) : nat := if v =? 0 then 0%nat else Z.to_nat (Z.log2 v / 8 + 1).
Definition mpi_body (v : Z) : list byte :=
  let n := mpi_nbytes v in
  if Z.testbit v (8 * Z.of_nat n - 1) then x00 :: rev (le_bytes n v) else rev (le_bytes n v).
(** Big-endian values. *)
Definition be_Z (bs : list byte) : Z := le_Z (rev bs).
Definition be_bytes (n : nat) (v : Z) : list byte := rev (le_bytes n v).

(** OpenSSL's BIGNUM. A result [None] is the function's error return. *)
Class BigNum : Type := {
  bignum : Type;
  bn_val : bignum -> Z;
  BN_set_word : Z -> bignum;
  BN_get_word : bignum -> Z;
  BN_is_zero : bignum -> bool;
  BN_cmp : bignum -> bignum -> Z;
  BN_mul : bignum -> bignum -> option bignum;
  BN_add : bignum -> bignum -> option bignum;
  BN_div : bignum -> bignum -> option (bignum * bignum);
  BN_bn2mpi : bignum -> list byte;
  BN_mpi2bn : list byte -> option bignum;
  BN_set_word_val : forall w, u64 w -> bn_val (BN_set_word w) = w;
  BN_get_word_val : forall a, u64 (bn_val a) -> BN_get_word a = bn_val a;
  BN_is_zero_val : forall a, BN_is_zero a = (bn_val a =? 0);
  BN_cmp_val : forall a b, BN_cmp a b = match bn_val a ?= bn_val b with Eq => 0 | Lt => -1 | Gt => 1 end;
  BN_mul_val : forall a b, exists c, BN_mul a b = Some c /\ bn_val c = bn_val a * bn_val b;
  BN_add_val : forall a b, exists c, BN_add a b = Some c /\ bn_val c = bn_val a + bn_val b;
  BN_div_val : forall a b, 0 <= bn_val a -> 0 < bn_val b ->
    exists q r, BN_div a b = Some (q, r) /\
      bn_val q = bn_val a / bn_val b /\ bn_val r = bn_val a mod bn_val b;
  BN_bn2mpi_val : forall a, 0 <= bn_val a ->
    BN_bn2mpi a = be_bytes 4 (Zlen (mpi_body (bn_val a))) ++ mpi_body (bn_val a);
  (** a non-negative number: the first byte of the body is below 0x80 *)
  BN_mpi2bn_val : forall c body, byte_Z c < 128 -> Zlen (c :: body) < 2 ^ 31 ->
    exists a, BN_mpi2bn (be_bytes 4 (Zlen (c :: body)) ++ c :: body) = Some a /\
      bn_val a = be_Z (c :: body)
}.

Definition base58Chars : list byte :=
  list_byte_of_string "123456789ABCDEFGHJKLMNPQRSTUVWXYZabcdefghijkmnopqrstuvwxyz".

(** [strchr(base58Chars, c) - base58Chars]. *)
Fixpoint strchr_at (i : Z) (s : list byte) (c : byte) : option Z :=
  match s with
  | [] => None
  | d :: s => if bool_decide (d = c) then Some i else strchr_at (i + 1) s c
  end.
Definition base58_index (c : byte) : option Z := strchr_at 0 base58Chars c.

Fixpoint skip_spaces (s : list byte) : list byte :=
  match s with
  | c :: t => if isspace c then skip_spaces t else s
  | [] => []
  end.

Fixpoint count_ones (s : list byte) : Z :=
  match s with
  | c :: s => if bool_decide (c = x31) then 1 + count_ones s else 0
  | [] => 0
  end.

Definition PUBKEY_ADDRESS : Z := 0.
Definition SCRIPT_ADDRESS : Z := 5.
Definition PRIVKEY_ADDRESS : Z := 128.

Section base58.
Context `{BigNum}.

(** The two calls of BN_bn2mpi, and the reversed body. *)
Definition base58_getvch (v : bignum) : ptr * Z :=
  let s := BN_bn2mpi v in
  let size := wrap32 (Zlen s) in
  if size <=? 4 then (None, 0)
  else let len := size - 4 in
       (Some (str_copyreverse (drop 4 s) (Z.to_nat len)), len).

(** The loop over the characters; [None] is [goto err]. *)
Fixpoint base58_decode_loop (bn : bignum) (buf : list byte) : option bignum :=
  match buf with
  | [] => Some bn
  | c :: rest =>
      match base58_index c with
      | None => match skip_spaces buf with [] => Some bn | _ => None end
      | Some i =>
          bn1 ← BN_mul bn (BN_set_word 58);
          bn2 ← BN_add bn1 (BN_set_word i);
          base58_decode_loop bn2 rest
      end
  end.

Definition base58_decode (str : list byte) : ptr * Z :=
  let str := skip_spaces str in
  match base58_decode_loop (BN_set_word 0) str with
  | None => (None, 0)
  | Some bn =>
      let '(tmp, len) := base58_getvch bn in
      let tmp := default [] tmp in
      let len :=
        if (2 <=? len) && bool_decide (tmp !!! Z.to_nat (len - 1) = x00) &&
           (128 <=? byte_Z (tmp !!! Z.to_nat (len - 2)))
        then len - 1 else len in
      let numLeadingZeros := count_ones str in
      (Some (replicate (Z.to_nat numLeadingZeros) x00 ++ str_copyreverse tmp (Z.to_nat len)),
       len + numLeadingZeros)
  end.

Definition base58_setvch (buf0 : list byte) : res bignum :=
  let len0 := Zlen buf0 in
  let buffer := be_bytes 4 len0 ++ str_copyreverse buf0 (length buf0) in
  match BN_mpi2bn (take (Z.to_nat (wrap32 (len0 + 4))) buffer) with
  | None => Fault Panic
  | Some bn => Ok bn
  end.

(** [while (BN_cmp(bn, bn0) > 0)]: [room] is what is left of [str]; a write
    past it is out of bounds. [None] is [goto err]. *)
Fixpoint base58_digits (room : nat) (bn : bignum) : res (option (list byte)) :=
  if 0 <? BN_cmp bn (BN_set_word 0) then
    match BN_div bn (BN_set_word 58) with
    | None => Ok None
    | Some (div0, rem) =>
        match room with
        | O => Fault UB
        | S room =>
            t ← base58_digits room div0;
            mret (option_map (cons (base58Chars !!! Z.to_nat (BN_get_word rem))) t)
        end
    end
  else Ok (Some []).

(** The leading zero bytes, each written as ['1'] while there is room. *)
Fixpoint base58_zeros (room : nat) (buf0 : list byte) {struct buf0} : res (list byte) :=
  match buf0 with
  | c :: buf0 =>
      if bool_decide (c = x00) then
        match room with
        | O => Fault UB
        | S room => t ← base58_zeros room buf0; mret (x31 :: t)
        end
      else Ok []
  | [] => Ok []
  end.

Definition base58_encode (buf0 : list byte) : res (option (list byte)) :=
  let size := Z.to_nat (Zlen buf0 * 138 / 100 + 1) in
  let rev := str_copyreverse buf0 (length buf0) ++ [x00] in
  bn ← base58_setvch rev;
  _ ← ASSERT (negb (BN_is_zero bn));
  o ← base58_digits size bn;
  match o with
  | None => Ok None
  | Some digits =>
      _ ← ASSERT (negb (Zlen digits =? 0));
      zeros ← base58_zeros (size - length digits) buf0;
      let str := digits ++ zeros in
      Ok (Some (str_copyreverse str (length str)))
  end.

Context `{Sha256}.

(** [want_type]: the caller passes [addrtype]. The result is the return
    value, what [*addrtype] is set to (if it is), the block and its length. *)
Definition base58_decode_check (want_type : bool) (buf : list byte) :
    res (bool * option Z * ptr * Z) :=
  let '(data, len) := base58_decode buf in
  if len <? 4 then Ok (false, None, None, 0) else
  body ← ptr_load data (len - 4);
  let h := hash4_calc body in
  m ← match data with Some m => Ok m | None => Fault UB end;
  c ← mem_load m (len - 4) 4;
  if negb (bool_decide (h = c)) then Ok (false, None, None, 0) else
  m ← mem_store m (len - 4) (replicate 4 x00);
  let len := len - 4 in
  if want_type then
    b ← mem_load m 0 1;
    t ← mem_load m 1 (len + 1);
    m ← mem_store m 0 t;
    Ok (true, Some (le_Z b), Some m, wrap64 (len - 1))
  else Ok (true, None, Some m, len).

Definition base58_encode_check (addrtype : Z) (have_addrtype : bool) (buf : list byte) :
    res (option (list byte)) :=
  let s := (if have_addrtype then [Z_byte addrtype] else []) ++ buf in
  base58_encode (s ++ hash4_calc s).

Definition b58_pubkey_from_uint160 (digest : uint160) : res (option (list byte)) :=
  base58_encode_check PUBKEY_ADDRESS true digest.

(** [type0] is what the uninitialised [type] holds, here and below. *)
Definition b58_pubkey_is_valid (type0 : Z) (addr : option (list byte)) : res bool :=
  match addr with
  | None => Ok false
  | Some addr =>
      '(_, t, _, len) ← base58_decode_check true addr;
      let type := default type0 t in
      mret ((len =? 20) && ((type =? PUBKEY_ADDRESS) || (type =? SCRIPT_ADDRESS)))
  end.

Definition b58_bytes_to_privkey (key : list byte) : res (option (list byte)) :=
  base58_encode_check PRIVKEY_ADDRESS true key.

Definition b58_bytes_to_pubkey (key : list byte) : res (option (list byte)) :=
  base58_encode_check PUBKEY_ADDRESS true key.

(** The key's block and length when it returns 1. *)
Definition b58_privkey_to_bytes (type0 : Z) (addr : list byte) : res (option (ptr * Z)) :=
  '(_, t, buf, len) ← base58_decode_check true addr;
  let type := default type0 t in
  if type =? PRIVKEY_ADDRESS then
    if len =? 32 then Ok (Some (buf, len))
    else if len =? 33 then
      m ← match buf with Some m => Ok m | None => Fault UB end;
      b ← mem_load m 32 1;
      Ok (if bool_decide (b = [x01]) then Some (buf, len) else None)
    else Ok None
  else Ok None.

(** [None]: the digest is left as it was. *)
Definition b58_pubkey_to_uint160 (type0 : Z) (addr : list byte) : res (option uint160) :=
  '(_, t, buf, len) ← base58_decode_check true addr;
  let type := default type0 t in
  _ ← ASSERT (type =? PUBKEY_ADDRESS);
  if len =? 20 then d ← ptr_load buf 20; Ok (Some d) else Ok None.
End base58.

(** The integers themselves, as a BIGNUM: the instance of the examples. *)
Definition Z_bignum : BigNum.
Proof.
  refine {| bignum := Z; bn_val := fun z => z; BN_set_word := fun z => z;
    BN_get_word := fun z => z; BN_is_zero := fun z => z =? 0;
    BN_cmp := fun a b => match a ?= b with Eq => 0 | Lt => -1 | Gt => 1 end;
    BN_mul := fun a b => Some (a * b); BN_add := fun a b => Some (a + b);
    BN_div := fun a b => Some (a / b, a mod b);
    BN_bn2mpi := fun a => be_bytes 4 (Zlen (mpi_body a)) ++ mpi_body a;
    BN_mpi2bn := fun s => Some (be_Z (drop 4 s)) |}; try done; intros; eauto.
Defined.

(** ** Lemmas on digits *)

Definition base58_char (d : Z) : byte := base58Chars !!! Z.to_nat d.

Lemma base58_char_ok d :
  0 <= d < 58 ->
  base58_index (base58_char d) = Some d /\ isspace (base58_char d) = false /\
  (base58_char d = x31 <-> d = 0).
Proof.
  intros Hd.
  assert (forallb (fun n => let c := base58_char (Z.of_nat n) in
    bool_decide (base58_index c = Some (Z.of_nat n)) && negb (isspace c) &&
    eqb (bool_decide (c = x31)) (Z.of_nat n =? 0)) (seq 0 58) = true) as Hall
    by (vm_compute; reflexivity).
  rewrite forallb_forall in Hall. specialize (Hall (Z.to_nat d)).
  rewrite Z2Nat.id in Hall by lia.
  assert (In (Z.to_nat d) (seq 0 58)) as Hin by (apply in_seq; lia).
  specialize (Hall Hin). cbn beta zeta in Hall.
  apply andb_prop in Hall as [Hall H3]. apply andb_prop in Hall as [H1 H2].
  apply bool_decide_eq_true in H1. apply negb_true_iff in H2. apply eqb_prop in H3.
  split_and!; [done|done|]. rewrite <- Z.eqb_eq, <- H3. symmetry. apply bool_decide_eq_true.
Qed.

(** The value of a list of digits, least significant first. *)
Fixpoint val58 (ds : list Z) : Z :=
  match ds with [] => 0 | d :: ds => d + 58 * val58 ds end.

Abbreviation digit58 := (fun d => 0 <= d < 58).

Lemma val58_nonneg ds : Forall digit58 ds -> 0 <= val58 ds.
Proof. induction 1; cbn; lia. Qed.

Lemma val58_lower ds :
  Forall digit58 ds -> last ds <> Some 0 -> ds <> [] -> 58 ^ (Zlen ds - 1) <= val58 ds.
Proof.
  induction 1 as [|d ds Hd Hds IH]; intros Hl Hn; [done|]. cbn [val58].
  destruct ds as [|d' ds].
  { change (58 ^ 0 <= d + 58 * 0). assert (d <> 0) by (intros ->; done). lia. }
  specialize (IH Hl ltac:(done)).
  replace (Zlen (d :: d' :: ds) - 1) with (1 + (Zlen (d' :: ds) - 1)) by zlia.
  rewrite Z.pow_add_r by zlia. lia.
Qed.

Lemma val58_length ds m :
  Forall digit58 ds -> last ds <> Some 0 -> val58 ds < 58 ^ m -> 0 <= m -> Zlen ds <= m.
Proof.
  intros Hd Hl Hv Hm. destruct (decide (ds = [])) as [->|Hn]; [zlia|].
  pose proof (val58_lower ds Hd Hl Hn). assert (58 ^ (Zlen ds - 1) < 58 ^ m) as Hp by lia.
  apply Z.pow_lt_mono_r_iff in Hp; lia.
Qed.

(** Horner's rule, as the decoder does. *)
Definition horner58 (a : Z) (ds : list Z) : Z := fold_left (fun a d => a * 58 + d) ds a.

Lemma horner58_rev ds : horner58 0 (rev ds) = val58 ds.
Proof.
  induction ds as [|d ds IH]; [done|]. cbn [rev val58]. unfold horner58 in *.
  rewrite fold_left_app, IH. cbn. lia.
Qed.

(** ** Lemmas on bytes *)

Lemma le_bytes_snoc n v : le_bytes (S n) v = le_bytes n v ++ [Z_byte (v / 256 ^ Z.of_nat n)].
Proof.
  revert v. induction n as [|n IH]; intros v.
  { rewrite Z.div_1_r. done. }
  change (le_bytes (S (S n)) v) with (Z_byte v :: le_bytes (S n) (v / 256)).
  rewrite IH. change (le_bytes (S n) v) with (Z_byte v :: le_bytes n (v / 256)). cbn [app].
  do 4 f_equal. rewrite Nat2Z.inj_succ, Z.pow_succ_r, Z.div_div by lia. done.
Qed.

Lemma mpi_nbytes_bounds v :
  0 < v -> exists n, mpi_nbytes v = S n /\ 256 ^ Z.of_nat n <= v < 256 ^ Z.of_nat (S n).
Proof.
  intros Hv. unfold mpi_nbytes. rewrite eqb_f by lia.
  pose proof (Z.log2_nonneg v) as Hl. pose proof (Z.log2_spec v Hv) as Hs.
  assert (0 <= Z.log2 v / 8) by (apply Z.div_pos; lia).
  exists (Z.to_nat (Z.log2 v / 8)). split; [lia|].
  rewrite Nat2Z.inj_succ, Z2Nat.id by done. change 256 with (2 ^ 8).
  rewrite <- !Z.pow_mul_r by lia. split.
  - etrans; [|apply Hs]. apply Z.pow_le_mono_r; [lia|]. apply Z.mul_div_le. lia.
  - eapply Z.lt_le_trans; [apply Hs|]. apply Z.pow_le_mono_r; [lia|].
    pose proof (Z.mul_succ_div_gt (Z.log2 v) 8). lia.
Qed.

Lemma mpi_nbytes_unique v n :
  256 ^ Z.of_nat n <= v < 256 ^ Z.of_nat (S n) -> mpi_nbytes v = S n.
Proof.
  intros Hv. assert (0 < 256 ^ Z.of_nat n) by (apply Z.pow_pos_nonneg; lia).
  destruct (mpi_nbytes_bounds v) as (m & -> & Hm); [lia|]. f_equal.
  assert (256 ^ Z.of_nat n < 256 ^ Z.of_nat (S m)) as H1 by lia.
  assert (256 ^ Z.of_nat m < 256 ^ Z.of_nat (S n)) as H2 by lia.
  apply Z.pow_lt_mono_r_iff in H1, H2; lia.
Qed.

(** The top byte of a minimal representation. *)
Lemma le_bytes_top v n :
  256 ^ Z.of_nat n <= v < 256 ^ Z.of_nat (S n) ->
  exists c, le_bytes (S n) v = le_bytes n v ++ [c] /\ c <> x00 /\
    Z.testbit v (8 * Z.of_nat (S n) - 1) = (128 <=? byte_Z c).
Proof.
  intros Hv. rewrite Nat2Z.inj_succ, Z.pow_succ_r in Hv by lia.
  assert (0 < 256 ^ Z.of_nat n) as Hp by (apply Z.pow_pos_nonneg; lia).
  set (q := v / 256 ^ Z.of_nat n).
  assert (1 <= q < 256) as Hq.
  { unfold q. split; [apply Z.div_le_lower_bound; lia | apply Z.div_lt_upper_bound; lia]. }
  exists (Z_byte q). split; [apply le_bytes_snoc|].
  assert (Hc : byte_Z (Z_byte q) = q) by (rewrite byte_Z_byte, Z.mod_small; lia). split.
  { intros E. rewrite E in Hc. change (byte_Z x00) with 0 in Hc. lia. }
  rewrite Hc. replace (8 * Z.of_nat (S n) - 1) with (7 + 8 * Z.of_nat n) by lia.
  rewrite <- Z.div_pow2_bits by lia.
  rewrite (Z.pow_mul_r 2 8) by lia. change (2 ^ 8) with 256. fold q.
  rewrite Z.testbit_eqb by lia. apply Bool.eq_true_iff_eq. rewrite Z.eqb_eq, Z.leb_le.
  change (2 ^ 7) with 128. Z.to_euclidean_division_equations. lia.
Qed.

(** Any byte string is zeros followed by the minimal bytes of its value. *)
Fixpoint count_zeros (bs : list byte) : nat :=
  match bs with
  | c :: bs => if bool_decide (c = x00) then S (count_zeros bs) else 0%nat
  | [] => 0%nat
  end.

Lemma be_Z_cons c bs : be_Z (c :: bs) = be_Z bs + 256 ^ Zlen bs * byte_Z c.
Proof.
  unfold be_Z. cbn [rev]. rewrite le_Z_app. unfold Zlen. rewrite length_rev.
  f_equal. unfold le_Z. lia.
Qed.

Lemma be_Z_app a b : be_Z (a ++ b) = be_Z b + 256 ^ Zlen b * be_Z a.
Proof.
  unfold be_Z. rewrite rev_app_distr, le_Z_app. unfold Zlen. by rewrite length_rev.
Qed.

Lemma be_Z_bound bs : 0 <= be_Z bs < 256 ^ Zlen bs.
Proof.
  unfold be_Z. pose proof (le_Z_bound (rev bs)) as Hb. unfold Zlen in *.
  rewrite length_rev in Hb. change 256 with (2 ^ 8). by rewrite <- Z.pow_mul_r by lia.
Qed.

(** A typed payload is not all zeros unless its type and content are. *)
Lemma be_Z_payload t buf h :
  0 <= t < 256 -> t <> 0 \/ be_Z buf <> 0 -> be_Z ((Z_byte t :: buf) ++ h) <> 0.
Proof.
  intros Ht Hnz. rewrite be_Z_app, be_Z_cons, byte_Z_byte, Z.mod_small by done.
  pose proof (be_Z_bound buf). pose proof (be_Z_bound h).
  assert (0 < 256 ^ Zlen buf) by (apply Z.pow_pos_nonneg; zlia).
  assert (0 < 256 ^ Zlen h) by (apply Z.pow_pos_nonneg; zlia).
  assert (0 < be_Z buf + 256 ^ Zlen buf * t) by (destruct Hnz; nia). nia.
Qed.

Lemma be_bytes_be_Z bs : be_bytes (length bs) (be_Z bs) = bs.
Proof.
  unfold be_bytes, be_Z. rewrite <- length_rev, le_bytes_Z. apply rev_involutive.
Qed.

Lemma zeros_split data :
  data = replicate (count_zeros data) x00 ++ be_bytes (mpi_nbytes (be_Z data)) (be_Z data) /\
  count_zeros data = (length data - mpi_nbytes (be_Z data))%nat.
Proof.
  induction data as [|c data [IH IH']]; [done|].
  cbn [count_zeros]. rewrite be_Z_cons. case_bool_decide as Hc.
  - subst c. change (byte_Z x00) with 0. rewrite Z.mul_0_r, Z.add_0_r. cbn [replicate app length].
    assert (length data = count_zeros data + mpi_nbytes (be_Z data))%nat.
    { rewrite IH at 1. unfold be_bytes. rewrite length_app, length_replicate, length_rev.
      by rewrite length_le_bytes. }
    split; [by f_equal | lia].
  - rewrite <- be_Z_cons. assert (0 < byte_Z c) as Hp.
    { pose proof (byte_Z_bound c). destruct (decide (byte_Z c = 0)) as [E|]; [|lia].
      destruct Hc. by rewrite <- (Z_byte_Z c), E. }
    assert (mpi_nbytes (be_Z (c :: data)) = length (c :: data)) as ->.
    { apply (mpi_nbytes_unique _ (length data)). pose proof (be_Z_bound (c :: data)) as Hb.
      change (Z.of_nat (S (length data))) with (Zlen (c :: data)). split; [|lia].
      change (Z.of_nat (length data)) with (Zlen data). pose proof (be_Z_bound data).
      rewrite be_Z_cons. assert (0 <= 256 ^ Zlen data) by (apply Z.pow_nonneg; lia). nia. }
    rewrite be_bytes_be_Z. cbn [length]. split; [done|lia].
Qed.

(** ** The encoder *)

Section base58_encode.
Context `{BigNum}.

Lemma base58_setvch_spec buf0 c t :
  buf0 = t ++ [c] -> byte_Z c < 128 -> Zlen buf0 < 2 ^ 31 ->
  exists a, base58_setvch buf0 = Ok a /\ bn_val a = le_Z buf0.
Proof.
  intros -> Hc Hl. unfold base58_setvch. rewrite str_copyreverse_rev.
  rewrite take_ge.
  2: { unfold be_bytes. rewrite length_app, !length_rev, length_le_bytes.
       rewrite wrap32_small by zlia. unfold Zlen. lia. }
  rewrite rev_app_distr. cbn [rev app].
  assert (Zlen (t ++ [c]) = Zlen (c :: rev t)) as ->.
  { unfold Zlen. rewrite length_app. cbn. rewrite length_rev. lia. }
  destruct (BN_mpi2bn_val c (rev t)) as (a & -> & Ha); [done| |].
  { unfold Zlen in *. rewrite length_app in Hl. cbn in *. rewrite length_rev. lia. }
  exists a. split; [done|]. rewrite Ha. unfold be_Z. cbn [rev].
  by rewrite rev_involutive.
Qed.

Lemma base58_digits_spec room bn :
  0 <= bn_val bn < 58 ^ Z.of_nat room ->
  exists ds, base58_digits room bn = Ok (Some (map base58_char ds)) /\
    Forall digit58 ds /\ val58 ds = bn_val bn /\ last ds <> Some 0.
Proof.
  revert bn. induction room as [|room IH]; intros bn Hv; cbn [base58_digits];
    rewrite BN_cmp_val, BN_set_word_val by done.
  { assert (bn_val bn = 0) as -> by (cbn in Hv; lia). cbn. by exists []. }
  destruct (Z.compare_spec (bn_val bn) 0) as [E|E|E]; [|lia|]; cbn [Z.ltb Z.compare].
  { by exists []. }
  destruct (BN_div_val bn (BN_set_word 58)) as (q & r & -> & Hq & Hr);
    [lia | rewrite BN_set_word_val; lia|].
  rewrite BN_set_word_val in Hq, Hr by done.
  rewrite Nat2Z.inj_succ, Z.pow_succ_r in Hv by lia.
  destruct (IH q) as (ds & -> & Hd & Hval & Hlast).
  { rewrite Hq. split; [apply Z.div_pos | apply Z.div_lt_upper_bound]; lia. }
  exists (bn_val r :: ds). cbn [mbind res_bind mret res_ret option_map map].
  assert (0 <= bn_val r < 58) by (rewrite Hr; apply Z.mod_pos_bound; lia).
  rewrite BN_get_word_val by lia. split_and!; [done | by constructor | |].
  - cbn [val58]. rewrite Hval, Hq, Hr. pose proof (Z.div_mod (bn_val bn) 58). lia.
  - destruct ds as [|d ds]; [|done]. cbn in *. intros [= E0].
    pose proof (Z.div_mod (bn_val bn) 58). lia.
Qed.

Lemma base58_zeros_spec room buf0 :
  (count_zeros buf0 <= room)%nat ->
  base58_zeros room buf0 = Ok (replicate (count_zeros buf0) x31).
Proof.
  revert room. induction buf0 as [|c buf0 IH]; intros room Hr; [done|].
  cbn [base58_zeros count_zeros] in *. case_bool_decide; [|done].
  destruct room as [|room]; [lia|]. by rewrite IH by lia.
Qed.

(** 256^100 < 58^138. *)
Lemma pow_room d n : 0 <= d -> 0 <= n -> 58 ^ d < 256 ^ n -> 100 * d < 138 * n.
Proof.
  intros Hd Hn Hlt. apply (Z.pow_lt_mono_r_iff 58); [lia|lia|].
  rewrite (Z.mul_comm 100), (Z.pow_mul_r 58 d 100) by lia.
  eapply Z.lt_le_trans.
  { apply Z.pow_lt_mono_l with (b := 256 ^ n); [lia|]. split; [apply Z.pow_nonneg; lia | lia]. }
  rewrite <- Z.pow_mul_r, (Z.mul_comm n), !Z.pow_mul_r by lia.
  apply Z.pow_le_mono_l. split; [|vm_compute; discriminate]. by apply Z.pow_nonneg.
Qed.

(** [len * 138 / 100 + 1] characters hold the digits and the leading ['1']s:
    256^100 < 58^138. *)
Lemma base58_room data ds :
  Forall digit58 ds -> last ds <> Some 0 -> val58 ds = be_Z data ->
  Zlen ds + Z.of_nat (count_zeros data) <= Zlen data * 138 / 100 + 1.
Proof.
  intros Hd Hl Hv. destruct (zeros_split data) as [Hs Hz].
  set (n := mpi_nbytes (be_Z data)) in *.
  assert (Hlen : Zlen data = Z.of_nat (count_zeros data) + Z.of_nat n).
  { rewrite Hs at 1. unfold be_bytes, Zlen.
    rewrite length_app, length_replicate, length_rev, length_le_bytes. lia. }
  assert (Hup : be_Z data < 256 ^ Z.of_nat n).
  { destruct (decide (be_Z data = 0)) as [E|E].
    { rewrite E. apply Z.pow_pos_nonneg; lia. }
    pose proof (be_Z_bound data). destruct (mpi_nbytes_bounds (be_Z data)) as (m & Em & Hm); [lia|].
    unfold n. rewrite Em. lia. }
  destruct (decide (ds = [])) as [->|Hn].
  { assert (n = 0%nat) as Hn0 by (unfold n; by rewrite <- Hv).
    rewrite Hn0 in Hlen. change (Zlen []) with 0. pose proof (Zlen_nonneg data). Z.to_euclidean_division_equations. lia. }
  pose proof (val58_lower ds Hd Hl Hn) as Hlow.
  assert (1 <= Zlen ds) by (destruct ds; [done|zlia]).
  assert (Hpow : 100 * (Zlen ds - 1) < 138 * Z.of_nat n) by (apply pow_room; lia).
  rewrite Hlen. Z.to_euclidean_division_equations. lia.
Qed.

(** The encoder, on every input that is not all zeros. *)
Lemma base58_encode_spec data :
  Zlen data < 2 ^ 30 -> be_Z data <> 0 ->
  exists ds, base58_encode data =
      Ok (Some (replicate (count_zeros data) x31 ++ map base58_char (rev ds))) /\
    Forall digit58 ds /\ val58 ds = be_Z data /\ last ds <> Some 0 /\ ds <> [].
Proof.
  intros Hl Hnz. pose proof (be_Z_bound data) as Hb.
  unfold base58_encode. rewrite str_copyreverse_rev.
  destruct (base58_setvch_spec (rev data ++ [x00]) x00 (rev data)) as (bn & -> & Hbn); [done|done| |].
  { unfold Zlen in *. rewrite length_app, length_rev. cbn. lia. }
  rewrite le_Z_app in Hbn. change (le_Z [x00]) with 0 in Hbn.
  rewrite Z.mul_0_r, Z.add_0_r in Hbn. fold (be_Z data) in Hbn.
  cbn [mbind res_bind]. rewrite BN_is_zero_val, Hbn, eqb_f by done. cbn [negb ASSERT mbind res_bind].
  set (size := Z.to_nat (Zlen data * 138 / 100 + 1)).
  assert (Hsize : Z.of_nat size = Zlen data * 138 / 100 + 1).
  { unfold size. pose proof (Zlen_nonneg data).
    assert (0 <= Zlen data * 138 / 100) by (apply Z.div_pos; lia). lia. }
  destruct (base58_digits_spec size bn) as (ds & -> & Hd & Hv & Hlast).
  { rewrite Hbn. split; [lia|]. apply Z.nle_gt. intros Hle.
    pose proof (Zlen_nonneg data).
    assert (100 * Z.of_nat size < 138 * Zlen data) by (apply pow_room; lia).
    rewrite Hsize in *. Z.to_euclidean_division_equations. lia. }
  rewrite Hbn in Hv. pose proof (base58_room data ds Hd Hlast Hv) as Hroom.
  exists ds. assert (Hne : ds <> []) by (intros ->; cbn in Hv; lia).
  assert (1 <= Zlen ds) by (destruct ds; [done|zlia]).
  assert (Hm : Zlen (map base58_char ds) = Zlen ds) by (unfold Zlen; by rewrite length_map).
  cbn [mbind res_bind]. rewrite Hm, eqb_f by lia. cbn [negb ASSERT mbind res_bind].
  rewrite length_map, base58_zeros_spec by (unfold Zlen in *; lia). cbn [mbind res_bind].
  rewrite str_copyreverse_rev, rev_app_distr, map_rev. split_and!; try done.
  do 3 f_equal. rewrite rev_alt. apply (reverse_replicate _ x31).
Qed.
End base58_encode.

(** ** The decoder *)

Lemma skip_spaces_chars c s : isspace c = false -> skip_spaces (c :: s) = c :: s.
Proof. intros E. cbn. by rewrite E. Qed.

Lemma hd_error_rev {A} (l : list A) : hd_error (rev l) = last l.
Proof.
  destruct l as [|x l _] using rev_ind; [done|]. by rewrite rev_app_distr, last_snoc.
Qed.

Lemma count_ones_app n ds :
  Forall digit58 ds -> hd_error ds <> Some 0 ->
  count_ones (replicate n x31 ++ map base58_char ds) = Z.of_nat n.
Proof.
  intros Hd Hh. induction n as [|n IH].
  - destruct ds as [|d ds]; [done|]. cbn. inversion Hd; subst.
    destruct (base58_char_ok d ltac:(done)) as (_ & _ & Hone).
    rewrite bool_decide_eq_false_2; [done|]. intros E%Hone. by subst.
  - cbn [replicate app count_ones]. rewrite bool_decide_eq_true_2, IH by done. lia.
Qed.

Section base58_decode.
Context `{BigNum}.

Lemma base58_decode_loop_spec ds bn :
  Forall digit58 ds ->
  exists bn', base58_decode_loop bn (map base58_char ds) = Some bn' /\
    bn_val bn' = horner58 (bn_val bn) ds.
Proof.
  intros Hd. revert bn. induction Hd as [|d ds Hd Hds IH]; intros bn; [by exists bn|].
  cbn [map base58_decode_loop]. destruct (base58_char_ok d Hd) as (-> & _).
  destruct (BN_mul_val bn (BN_set_word 58)) as (a & -> & Ha). cbn [mbind option_bind].
  destruct (BN_add_val a (BN_set_word d)) as (b & -> & Hb). cbn [mbind option_bind].
  destruct (IH b) as (bn' & -> & Hbn'). exists bn'. split; [done|].
  rewrite Hbn', Hb, Ha, !BN_set_word_val by lia. done.
Qed.

(** The minimal little-endian bytes, once the sign byte is dropped. *)
Lemma base58_getvch_spec bn :
  0 <= bn_val bn -> Z.of_nat (mpi_nbytes (bn_val bn)) < 2 ^ 30 ->
  let '(tmp, len) := base58_getvch bn in
  let tmp := default [] tmp in
  let len := if (2 <=? len) && bool_decide (tmp !!! Z.to_nat (len - 1) = x00) &&
                (128 <=? byte_Z (tmp !!! Z.to_nat (len - 2)))
             then len - 1 else len in
  len = Z.of_nat (mpi_nbytes (bn_val bn)) /\
  str_copyreverse tmp (Z.to_nat len) = be_bytes (mpi_nbytes (bn_val bn)) (bn_val bn).
Proof.
  intros Hv Hn. unfold base58_getvch. rewrite BN_bn2mpi_val by lia.
  set (v := bn_val bn) in *. set (body := mpi_body v).
  assert (Hs : Zlen (be_bytes 4 (Zlen body) ++ body) = 4 + Zlen body).
  { unfold be_bytes, Zlen. rewrite length_app, length_rev, length_le_bytes. lia. }
  assert (Hdrop : drop 4 (be_bytes 4 (Zlen body) ++ body) = body).
  { rewrite drop_app_ge; unfold be_bytes; rewrite length_rev, length_le_bytes; [done|lia]. }
  rewrite Hs, Hdrop. destruct (decide (v = 0)) as [E|E].
  { assert (body = []) as -> by (unfold body; by rewrite E). by rewrite E. }
  destruct (mpi_nbytes_bounds v) as (n & En & Hb); [lia|].
  destruct (le_bytes_top v n Hb) as (c & Hc & Hc0 & Htop). rewrite En in Hn |- *.
  assert (Hlen : Zlen (le_bytes n v) = Z.of_nat n) by zlia.
  assert (Hbody : rev body = (le_bytes n v ++ [c]) ++ if 128 <=? byte_Z c then [x00] else []).
  { unfold body, mpi_body. rewrite En, Htop, Hc.
    destruct (128 <=? byte_Z c); cbn [rev]; by rewrite rev_involutive, ?app_nil_r. }
  assert (Hbl : Zlen body = Z.of_nat n + 1 + if 128 <=? byte_Z c then 1 else 0).
  { transitivity (Zlen (rev body)); [unfold Zlen; by rewrite length_rev|].
    rewrite Hbody. destruct (128 <=? byte_Z c); zlia. }
  rewrite wrap32_small by (destruct (128 <=? byte_Z c); lia).
  rewrite leb_f by (destruct (128 <=? byte_Z c); lia).
  replace (4 + Zlen body - 4) with (Zlen body) by lia. cbn [from_option id].
  rewrite to_nat_Zlen, str_copyreverse_rev, Hbody, Hbl.
  destruct (128 <=? byte_Z c) eqn:E128.
  - assert ((le_bytes n v ++ [c]) ++ [x00] = le_bytes n v ++ c :: [x00]) as ->
      by by rewrite <- app_assoc.
    rewrite !lookup_total_app_r by (rewrite length_le_bytes; lia). rewrite length_le_bytes.
    replace (Z.to_nat _ - n)%nat with 1%nat by lia.
    replace (Z.to_nat _ - n)%nat with 0%nat by lia.
    change ([c; x00] !!! 0%nat) with c. rewrite E128, leb_t, bool_decide_eq_true_2 by (lia || done). cbn [andb]. split; [lia|].
    rewrite str_copyreverse_take by (rewrite length_app, length_le_bytes; cbn; lia).
    unfold be_bytes. rewrite Hc. f_equal.
    replace (Z.to_nat _) with (length (le_bytes n v ++ [c])).
    2: { rewrite length_app, length_le_bytes. cbn. lia. }
    change (c :: [x00]) with ([c] ++ [x00]). by rewrite app_assoc, take_app_length.
  - rewrite app_nil_r. replace (Z.to_nat (Z.of_nat n + 1 + 0 - 1)) with n by lia.
    rewrite (lookup_total_app_r _ _ n) by (rewrite length_le_bytes; lia).
    rewrite length_le_bytes, Nat.sub_diag. change ([c] !!! 0%nat) with c.
    rewrite (bool_decide_eq_false_2 (c = x00)) by done. rewrite andb_false_r. cbn [andb].
    split; [lia|]. replace (Z.to_nat _) with (length (le_bytes n v ++ [c])).
    2: { rewrite length_app, length_le_bytes. cbn. lia. }
    rewrite str_copyreverse_rev. unfold be_bytes. by rewrite Hc.
Qed.

Lemma base58_decode_spec n ds :
  Forall digit58 ds -> last ds <> Some 0 -> ds <> [] ->
  Z.of_nat (mpi_nbytes (val58 ds)) < 2 ^ 30 ->
  base58_decode (replicate n x31 ++ map base58_char (rev ds)) =
  (Some (replicate n x00 ++ be_bytes (mpi_nbytes (val58 ds)) (val58 ds)),
   Z.of_nat (mpi_nbytes (val58 ds)) + Z.of_nat n).
Proof.
  intros Hd Hl Hne Hn. unfold base58_decode.
  assert (Hr : Forall digit58 (replicate n 0 ++ rev ds)).
  { apply Forall_app. split; [by apply Forall_replicate | by apply Forall_rev]. }
  assert (Hsk : skip_spaces (replicate n x31 ++ map base58_char (rev ds)) =
          replicate n x31 ++ map base58_char (rev ds)).
  { destruct n; [|done]. cbn [replicate app]. destruct (rev ds) as [|d t]; [done|].
    inversion Hr; subst. apply skip_spaces_chars, (base58_char_ok d ltac:(done)). }
  rewrite Hsk. assert (Hmap : replicate n x31 ++ map base58_char (rev ds) =
          map base58_char (replicate n 0 ++ rev ds)).
  { rewrite map_app. f_equal. clear. induction n; [done|]. cbn [replicate map]. by f_equal. }
  rewrite Hmap at 1. destruct (base58_decode_loop_spec _ (BN_set_word 0) Hr) as (bn & -> & Hbn).
  rewrite BN_set_word_val in Hbn by done.
  assert (Hz : horner58 0 (replicate n 0 ++ rev ds) = val58 ds).
  { rewrite <- horner58_rev. clear. induction n; [done|]. cbn. exact IHn. }
  rewrite Hz in Hbn. rewrite <- Hbn in Hn.
  pose proof (base58_getvch_spec bn) as Hg.
  rewrite Hbn in Hg, Hn. specialize (Hg ltac:(by apply val58_nonneg) Hn).
  destruct (base58_getvch bn) as [tmp len]. destruct Hg as [Hg1 Hg2].
  rewrite count_ones_app; [|by apply Forall_rev|].
  2: { rewrite hd_error_rev. exact Hl. }
  rewrite Nat2Z.id, Hg2, Hg1. done.
Qed.
End base58_decode.

(** ** Properties *)

(** [memmove(data, data + 1, len + 1)], the checksum cleared. *)
Lemma memmove_front c rest :
  let m := (c :: rest) ++ replicate 4 x00 in
  exists mv, (t ← mem_load m 1 (Zlen (c :: rest) + 1); mem_store m 0 t) = Ok (rest ++ mv).
Proof.
  intros m. exists (replicate 5 x00).
  pose proof (mem_load_app [c] (rest ++ [x00; x00]) [x00; x00]) as E4.
  rewrite <- app_assoc in E4. cbn [app] in E4. change (Zlen [c]) with 1 in E4.
  replace (Zlen (rest ++ [x00; x00])) with (Zlen (c :: rest) + 1) in E4 by zlia.
  unfold m. cbn [replicate app]. rewrite E4. cbn [mbind res_bind].
  pose proof (mem_store_app [] (c :: rest ++ [x00]) (rest ++ [x00; x00]) [x00; x00; x00]) as E5.
  cbn [app] in E5. rewrite <- !app_assoc in E5. cbn [app] in E5. apply E5. zlia.
Qed.

Section properties.
Context `{BigNum}.

Lemma base58_encode_decode data :
  Zlen data < 2 ^ 30 -> be_Z data <> 0 ->
  exists s, base58_encode data = Ok (Some s) /\ base58_decode s = (Some data, Zlen data).
Proof.
  intros Hl Hnz. destruct (base58_encode_spec data Hl Hnz) as (ds & E & Hd & Hv & Hlast & Hne).
  eexists. split; [exact E|]. destruct (zeros_split data) as [Hs Hz].
  assert (Hlen : Zlen data = Z.of_nat (mpi_nbytes (be_Z data)) + Z.of_nat (count_zeros data)).
  { rewrite Hs at 1. unfold be_bytes, Zlen.
    rewrite length_app, length_replicate, length_rev, length_le_bytes. lia. }
  rewrite base58_decode_spec by (rewrite ?Hv; done || lia). rewrite Hv, <- Hs. by rewrite Hlen.
Qed.

Lemma val58_bound ds : Forall digit58 ds -> val58 ds < 58 ^ Zlen ds.
Proof.
  induction 1 as [|d ds Hd _ IH]; [done|]. cbn [val58]. rewrite Zlen_cons, Z.pow_add_r by zlia. change (58 ^ 1) with 58. lia.
Qed.

(** The characters and the length of an encoding. *)
Lemma base58_encode_text data s :
  Zlen data < 2 ^ 30 -> be_Z data <> 0 -> base58_encode data = Ok (Some s) ->
  Forall (fun c => 48 < byte_Z c) s /\ s <> [] /\ Zlen s <= Zlen data * 138 / 100 + 1 /\ be_Z data < 58 ^ Zlen s.
Proof.
  intros Hl Hnz E. destruct (base58_encode_spec data Hl Hnz) as (ds & E' & Hd & Hv & Hlast & Hne).
  rewrite E in E'. injection E' as ->. split_and!.
  - apply Forall_app. split; [by apply Forall_replicate|]. apply Forall_map, Forall_rev.
    revert Hd. apply List.Forall_impl. intros d Hd. unfold base58_char in *.
    assert (HF : forallb (fun c => 48 <? byte_Z c) base58Chars = true) by by vm_compute.
    assert (Hlt : (Z.to_nat d < length base58Chars)%nat) by (change (length base58Chars) with 58%nat; lia).
    destruct (lookup_lt_is_Some_2 base58Chars (Z.to_nat d) Hlt) as [c Hc]. rewrite (list_lookup_total_correct _ _ _ Hc).
    apply Z.ltb_lt, (proj1 (forallb_forall _ _) HF), list_elem_of_In. by apply list_elem_of_lookup_2 in Hc.
  - intros [_ E']%app_eq_nil. apply map_eq_nil in E'. apply Hne. rewrite <- (rev_involutive ds), E'. done.
  - pose proof (base58_room data ds Hd Hlast Hv). rewrite Zlen_app, Zlen_replicate. unfold Zlen in *.
    rewrite length_map, length_rev. lia.
  - rewrite Zlen_app, Zlen_replicate. pose proof (val58_bound ds Hd) as Hb. rewrite Hv in Hb.
    eapply Z.lt_le_trans; [exact Hb|]. apply Z.pow_le_mono_r; [done|]. unfold Zlen. rewrite length_map, length_rev. lia.
Qed.

(** An all-zero string is the one thing the encoder refuses, by stopping. *)
Lemma base58_encode_zero data :
  Zlen data < 2 ^ 30 -> be_Z data = 0 -> base58_encode data = Fault Panic.
Proof.
  intros Hl Hz. unfold base58_encode. rewrite str_copyreverse_rev.
  destruct (base58_setvch_spec (rev data ++ [x00]) x00 (rev data)) as (bn & -> & Hbn); [done|done| |].
  { unfold Zlen in *. rewrite length_app, length_rev. cbn. lia. }
  rewrite le_Z_app in Hbn. change (le_Z [x00]) with 0 in Hbn.
  rewrite Z.mul_0_r, Z.add_0_r in Hbn. fold (be_Z data) in Hbn. rewrite Hz in Hbn.
  cbn [mbind res_bind]. by rewrite BN_is_zero_val, Hbn.
Qed.

(** C40: for any byte string up to 2^30 bytes, [base58_encode] either stops
    (exactly on the all-zero strings) or stays within its
    [len * 138 / 100 + 1] characters and returns a string that
    [base58_decode] turns back into the same bytes, leading zeros included. *)
Theorem base58_roundtrip (data : list byte) :
  Zlen data < 2 ^ 30 ->
  if be_Z data =? 0 then base58_encode data = Fault Panic
  else exists s, base58_encode data = Ok (Some s) /\ base58_decode s = (Some data, Zlen data).
Proof.
  intros Hl. destruct (Z.eqb_spec (be_Z data) 0).
  - by apply base58_encode_zero.
  - by apply base58_encode_decode.
Qed.

Context `{Sha256}.

(** Decoding what [base58_encode_check] made. *)
Lemma base58_check_roundtrip addrtype buf :
  0 <= addrtype < 256 -> Zlen buf < 2 ^ 30 - 5 ->
  (addrtype <> 0 \/ be_Z buf <> 0) ->
  exists s, base58_encode_check addrtype true buf = Ok (Some s) /\ exists m,
    base58_decode_check true s = Ok (true, Some addrtype, Some (buf ++ m), Zlen buf).
Proof.
  intros Ht Hl Hnz. unfold base58_encode_check. cbn [app].
  set (s0 := Z_byte addrtype :: buf). set (h := hash4_calc s0).
  assert (Hh : Zlen h = 4) by (unfold Zlen, h; by rewrite hash4_calc_length).
  assert (Hs0 : Zlen s0 = 1 + Zlen buf) by (unfold s0; zlia).
  destruct (base58_encode_decode (s0 ++ h)) as (s & Es & Hs); [zlia| |].
  { unfold s0. by apply be_Z_payload. }
  exists s. split; [done|]. unfold base58_decode_check. rewrite Hs.
  replace (Zlen (s0 ++ h)) with (Zlen s0 + 4) by zlia.
  rewrite ltb_f by zlia. replace (Zlen s0 + 4 - 4) with (Zlen s0) by lia.
  rewrite ptr_load_prefix. cbn [mbind res_bind]. fold h.
  pose proof (mem_load_app s0 h []) as E. rewrite app_nil_r, Hh in E. rewrite E.
  cbn [mbind res_bind]. rewrite bool_decide_eq_true_2 by done. cbn [negb].
  pose proof (mem_store_app s0 h (replicate 4 x00) []) as E2. rewrite !app_nil_r in E2.
  rewrite E2 by (rewrite Hh; done). cbn [mbind res_bind].
  pose proof (mem_load_app [] [Z_byte addrtype] (buf ++ [x00; x00; x00; x00])) as E3.
  cbn [app] in E3. change (Zlen []) with 0 in E3. change (Zlen [_]) with 1 in E3.
  change (s0 ++ replicate 4 x00) with (Z_byte addrtype :: buf ++ [x00; x00; x00; x00]).
  rewrite E3. cbn [mbind res_bind].
  destruct (memmove_front (Z_byte addrtype) buf) as (mv & Emv).
  change (Z_byte addrtype :: buf) with s0 in Emv.
  change (Z_byte addrtype :: buf ++ _) with (s0 ++ replicate 4 x00).
  destruct (mem_load (s0 ++ replicate 4 x00) 1 (Zlen s0 + 1)) as [tl|]; [|done].
  cbn [mbind res_bind] in *. rewrite Emv. cbn [mbind res_bind].
  replace (Zlen s0 - 1) with (Zlen buf) by lia. rewrite wrap64_small by zlia.
  exists mv. do 5 f_equal. change [Z_byte addrtype] with (le_bytes 1 addrtype).
  f_equal. apply le_Z_bytes_small. lia.
Qed.

(** An address made from a pubkey hash is valid and gives the hash back
    (whatever the locals of the two readers held). *)
Theorem address_roundtrip (digest : uint160) :
  is_uint160 digest -> be_Z digest <> 0 ->
  exists s, b58_pubkey_from_uint160 digest = Ok (Some s) /\
    forall type0, b58_pubkey_is_valid type0 (Some s) = Ok true /\
                  b58_pubkey_to_uint160 type0 s = Ok (Some digest).
Proof.
  intros Hd Hnz. assert (Hl : Zlen digest = 20) by (unfold Zlen; by rewrite Hd).
  destruct (base58_check_roundtrip PUBKEY_ADDRESS digest) as (s & E & m & E'); [done|zlia|by right|].
  exists s. split; [exact E|]. intros type0.
  unfold b58_pubkey_is_valid, b58_pubkey_to_uint160. rewrite E', Hl. split; [done|].
  pose proof (ptr_load_prefix digest m) as Ep. rewrite Hl in Ep.
  cbn [mbind res_bind from_option]. change (id PUBKEY_ADDRESS =? PUBKEY_ADDRESS) with true.
  change (20 =? 20) with true. cbn [ASSERT mbind res_bind]. by rewrite Ep.
Qed.

(** A private key (32 bytes, or 33 ending in 1 for a compressed public
    key) survives its textual form. *)
Theorem privkey_roundtrip (key : list byte) :
  length key = 32%nat \/ (exists k, key = k ++ [x01] /\ length k = 32%nat) ->
  exists s, b58_bytes_to_privkey key = Ok (Some s) /\
    forall type0, exists m,
      b58_privkey_to_bytes type0 s = Ok (Some (Some (key ++ m), Zlen key)).
Proof.
  intros Hk. assert (Hl : Zlen key < 2 ^ 30 - 5).
  { unfold Zlen. destruct Hk as [->|(k & -> & Hk)]; [done|]. rewrite length_app, Hk. done. }
  destruct (base58_check_roundtrip PRIVKEY_ADDRESS key) as (s & E & m & E'); [done|done|by left|].
  exists s. split; [exact E|]. intros type0. exists m.
  unfold b58_privkey_to_bytes. rewrite E'. cbn [mbind res_bind default].
  change (PRIVKEY_ADDRESS =? PRIVKEY_ADDRESS) with true. cbn match.
  destruct Hk as [Hk|(k & -> & Hk)].
  - assert (Zlen key = 32) as -> by (unfold Zlen; by rewrite Hk). done.
  - assert (Hlk : Zlen k = 32) by (unfold Zlen; by rewrite Hk).
    assert (Zlen (k ++ [x01]) = 33) as Hl' by zlia. rewrite Hl'. cbn [Z.eqb Pos.eqb].
    pose proof (mem_load_app k [x01] m) as Em. rewrite Hlk in Em.
    rewrite <- app_assoc. change (Zlen [x01]) with 1 in Em. by rewrite Em.
Qed.

Lemma count_ones_bound s : 0 <= count_ones s <= Zlen s.
Proof.
  induction s as [|c s IH]; [done|]. cbn [count_ones]. case_bool_decide; zlia.
Qed.
Lemma skip_spaces_length s : Zlen (skip_spaces s) <= Zlen s.
Proof. induction s as [|c s IH]; [done|]. cbn [skip_spaces]. destruct (isspace c); zlia. Qed.

Lemma base58_decode_length s p len :
  base58_decode s = (p, len) ->
  (p = None /\ len = 0) \/ (exists m, p = Some m /\ len = Zlen m /\ len < 2 ^ 32 + Zlen s).
Proof.
  unfold base58_decode. destruct (base58_decode_loop _ _) as [bn|]; [|naive_solver].
  pose proof (count_ones_bound (skip_spaces s)). pose proof (skip_spaces_length s).
  destruct (base58_getvch bn) as [tmp n] eqn:E. assert (0 <= n < 2 ^ 32) as Hn.
  { unfold base58_getvch in E. set (sz := wrap32 _) in E.
    assert (u32 sz) by apply wrap32_bound. destruct (Z.leb_spec sz 4); inversion E; lia. }
  set (c := (2 <=? n) && _ && _). intros [= <- <-]. right. eexists. split; [done|].
  set (k := if c then n - 1 else n).
  assert (0 <= k <= n) as Hk.
  { unfold k. destruct c eqn:Ec; [|lia]. unfold c in Ec. zbool. lia. }
  split; [|lia]. unfold Zlen. rewrite length_app, length_replicate, length_copyreverse. lia.
Qed.

(** On any string at all [base58_decode_check] comes back, and when it
    accepts, the decoded bytes end with the checksum of what precedes; the
    first byte is split off as the type when the caller asks for it. A payload
    that is nothing but its checksum is accepted too, and its length then
    comes out as SIZE_MAX. *)
Theorem base58_decode_check_sound (s : list byte) (want_type : bool) :
  Zlen s < 2 ^ 62 ->
  exists ok t p len, base58_decode_check want_type s = Ok (ok, t, p, len) /\
    if ok then
      exists payload, fst (base58_decode s) = Some (payload ++ hash4_calc payload) /\
        if want_type then
          match payload with
          | c :: rest => t = Some (byte_Z c) /\ len = Zlen rest /\ exists m, p = Some (rest ++ m)
          | [] => len = 2 ^ 64 - 1
          end
        else t = None /\ len = Zlen payload /\ exists m, p = Some (payload ++ m)
    else t = None /\ p = None /\ len = 0.
Proof.
  intros Hs. unfold base58_decode_check. destruct (base58_decode s) as [q n] eqn:E.
  destruct (base58_decode_length _ _ _ E) as [[-> ->]|(m & -> & Hn & Hb)].
  { cbn. repeat eexists. }
  destruct (Z.ltb_spec n 4); [by repeat eexists|].
  destruct (split_len (Z.to_nat (n - 4)) m) as (a & h & -> & Ha); [unfold Zlen in Hn; lia|].
  assert (Hla : n - 4 = Zlen a) by (unfold Zlen; lia).
  assert (Hlh : Zlen h = 4) by zlia.
  rewrite Hla, ptr_load_prefix. cbn [mbind res_bind].
  pose proof (mem_load_app a h []) as E1. rewrite app_nil_r, Hlh in E1. rewrite E1.
  cbn [mbind res_bind]. case_bool_decide as Hh; cbn [negb]; [|by repeat eexists].
  subst h. pose proof (mem_store_app a (hash4_calc a) (replicate 4 x00) []) as E2.
  rewrite !app_nil_r in E2. rewrite E2 by (rewrite Hlh; done). cbn [mbind res_bind].
  destruct want_type; [|do 4 eexists; split; [done|]; exists a; eauto 6].
  destruct a as [|c rest].
  - cbn. do 4 eexists. split; [done|]. by exists [].
  - pose proof (mem_load_app [] [c] (rest ++ replicate 4 x00)) as E3. cbn [app] in E3.
    change (Zlen []) with 0 in E3. change (Zlen [c]) with 1 in E3.
    change (c :: rest ++ _) with ((c :: rest) ++ replicate 4 x00) in E3. rewrite E3.
    cbn [mbind res_bind]. destruct (memmove_front c rest) as (mv & Emv).
    destruct (mem_load ((c :: rest) ++ replicate 4 x00) 1 _) as [tl|]; [|done].
    cbn [mbind res_bind] in *. rewrite Emv. cbn [mbind res_bind].
    do 4 eexists. split; [done|]. exists (c :: rest). split; [done|].
    split; [by change (le_Z [c]) with (byte_Z c + 256 * 0); rewrite Z.mul_0_r, Z.add_0_r|].
    split; [|by exists mv]. rewrite wrap64_small; zlia.
Qed.
End properties.

Lemma base58_roundtrip_witness :
  exists s, @base58_encode Z_bignum [x00; x01; xff] = Ok (Some s) /\
    @base58_decode Z_bignum s = (Some [x00; x01; xff], 3).
Proof. apply (@base58_roundtrip Z_bignum [x00; x01; xff]). reflexivity. Defined.

Lemma address_roundtrip_witness :
  exists s, @b58_pubkey_from_uint160 Z_bignum toy_sha256 (replicate 20 x2a) = Ok (Some s) /\
    forall type0, @b58_pubkey_is_valid Z_bignum toy_sha256 type0 (Some s) = Ok true /\
      @b58_pubkey_to_uint160 Z_bignum toy_sha256 type0 s = Ok (Some (replicate 20 x2a)).
Proof.
  apply (@address_roundtrip Z_bignum toy_sha256 (replicate 20 x2a)); [reflexivity|].
  vm_compute. discriminate.
Defined.

Lemma privkey_roundtrip_witness :
  exists s, @b58_bytes_to_privkey Z_bignum toy_sha256 (replicate 32 x07 ++ [x01]) = Ok (Some s) /\
    forall type0, exists m, @b58_privkey_to_bytes Z_bignum toy_sha256 type0 s =
      Ok (Some (Some ((replicate 32 x07 ++ [x01]) ++ m), 33)).
Proof.
  apply (@privkey_roundtrip Z_bignum toy_sha256 (replicate 32 x07 ++ [x01])).
  right. exists (replicate 32 x07). split; reflexivity.
Defined.

Lemma base58_decode_check_sound_witness :
  exists ok t p len,
    @base58_decode_check Z_bignum toy_sha256 true [x31; x31; x31; x31; x32] = Ok (ok, t, p, len) /\
    ok = false.
Proof.
  destruct (@base58_decode_check_sound Z_bignum toy_sha256 [x31; x31; x31; x31; x32] true)
    as (ok & t & p & len & E & H); [reflexivity|].
  exists ok, t, p, len. split; [exact E|]. vm_compute in E. injection E. intros. subst. reflexivity.
Defined.
