(* ===== verification/BtcMessage.v ===== *)
(** * Protocol messages (core/btc-message.c)

    Building and parsing the payloads of the peer-to-peer messages. The global
    [btc->testnet] and the clock are arguments; an [int] status is a [bool],
    [true] for an error. A message is built into a buffer of its own, whose
    operations' statuses the source ignores as is done here. *)
From Stdlib Require Import Strings.String.
From S2P Require Export Text Serialize Base58.

(** The names, in the order of [enum btc_msg_type]. *)
Definition cmdStr : list (btc_msg_type * list byte) :=
  [ (BTC_MSG_UNKNOWN, str "unknown");         (BTC_MSG_VERSION, str "version");
    (BTC_MSG_VERACK, str "verack");           (BTC_MSG_INV, str "inv");
    (BTC_MSG_GETADDR, str "getaddr");         (BTC_MSG_ADDR, str "addr");
    (BTC_MSG_GETHEADERS, str "getheaders");   (BTC_MSG_HEADERS, str "headers");
    (BTC_MSG_PING, str "ping");               (BTC_MSG_PONG, str "pong");
    (BTC_MSG_GETBLOCKS, str "getblocks");     (BTC_MSG_BLOCK, str "block");
    (BTC_MSG_GETDATA, str "getdata");         (BTC_MSG_TX, str "tx");
    (BTC_MSG_MEMPOOL, str "mempool");         (BTC_MSG_ALERT, str "alert");
    (BTC_MSG_NOTFOUND, str "notfound");       (BTC_MSG_SENDHEADERS, str "sendheaders");
    (BTC_MSG_SENDCMPCT, str "sendcmpct");     (BTC_MSG_CMPCTBLOCK, str "cmpctblock");
    (BTC_MSG_GETBLOCKTXN, str "getblocktxn"); (BTC_MSG_BLOCKTXN, str "blocktxn");
    (BTC_MSG_FEEFILTER, str "feefilter");     (BTC_MSG_WTXIDRELAY, str "wtxidrelay");
    (BTC_MSG_SENDADDRV2, str "sendaddrv2");   (BTC_MSG_ADDRV2, str "addrv2");
    (BTC_MSG_GETCFILTERS, str "getcfilters"); (BTC_MSG_CFILTER, str "cfilter");
    (BTC_MSG_GETCFHEADERS, str "getcfheaders"); (BTC_MSG_CFHEADERS, str "cfheaders");
    (BTC_MSG_GETCFCHECKPT, str "getcfcheckpt"); (BTC_MSG_CFCHECKPT, str "cfcheckpt") ].

Fixpoint lookup_type (t : btc_msg_type) (l : list (btc_msg_type * list byte)) : list byte :=
  match l with
  | [] => str "unknown"
  | (t', s) :: l => if decide (t = t') then s else lookup_type t l
  end.
Definition btcmsg_type_to_str (t : btc_msg_type) : list byte := lookup_type t cmdStr.

(** [strncmp(a, b, n) == 0]; past its end a string reads as NUL. *)
Fixpoint strncmp_eq (n : nat) (a b : list byte) : bool :=
  match n with
  | O => true
  | S n =>
      let ca := default x00 (head a) in
      if bool_decide (ca = default x00 (head b)) then
        if bool_decide (ca = x00) then true else strncmp_eq n (tail a) (tail b)
      else false
  end.

(** [strncpy(dst, s, n)]: cut or padded with NULs. *)
Definition strncpy (n : nat) (s : list byte) : list byte :=
  take n s ++ replicate (n - length s) x00.

Fixpoint find_type (s : list byte) (l : list (btc_msg_type * list byte)) : btc_msg_type :=
  match l with
  | [] => BTC_MSG_UNKNOWN
  | (t, m) :: l => if strncmp_eq 12 s m then t else find_type s l
  end.
Definition btcmsg_str_to_type (s : list byte) : btc_msg_type := find_type s cmdStr.

(** *** Logging: what matters is whether it returns *)

Definition OP_DUP : Z := 0x76.
Definition OP_HASH160 : Z := 0xa9.
Definition OP_EQUALVERIFY : Z := 0x88.
Definition OP_CHECKSIG : Z := 0xac.

Definition btcmsg_print_header (header : btc_block_header) : res unit :=
  _ ← uint256_snprintf_reverse 128 (bh_prevBlock header);
  _ ← uint256_snprintf_reverse 128 (bh_merkleRoot header);
  mret tt.

Section printing.
Context `{BigNum} `{Sha256}.

(** One byte of a block. *)
Definition byte_at (m : list byte) (off : Z) : res Z := b ← mem_load m off 1; mret (le_Z b).

Definition txout_is_p2pkh (script : ptr) (slen : Z) : res bool :=
  match script with
  | Some m =>
      if slen =? 25 then
        a ← byte_at m 0; if negb (a =? OP_DUP) then Ok false else
        b ← byte_at m 1; if negb (b =? OP_HASH160) then Ok false else
        c ← byte_at m (slen - 2); if negb (c =? OP_EQUALVERIFY) then Ok false else
        d ← byte_at m (slen - 1); Ok (d =? OP_CHECKSIG)
      else Ok false
  | None => Ok false
  end.

Definition btcmsg_print_txout (txOut : btc_msg_tx_out) : res unit :=
  let slen := wrap32 (to_scriptLength txOut) in
  p2pkh ← txout_is_p2pkh (to_scriptPubKey txOut) slen;
  if (p2pkh : bool) then
    m ← match to_scriptPubKey txOut with Some m => Ok m | None => Fault UB end;
    h ← mem_load m 3 20;
    _ ← b58_pubkey_from_uint160 h;
    s ← mem_load m 3 (to_scriptLength txOut - 5);
    _ ← str_snprintf_bytes 512 None s;
    mret tt
  else
    s ← ptr_load (to_scriptPubKey txOut) (to_scriptLength txOut);
    _ ← str_snprintf_bytes 512 None s;
    mret tt.

Definition btcmsg_print_txin (txIn : btc_msg_tx_in) : res unit :=
  _ ← uint256_snprintf_reverse 128 (ti_prevTxHash txIn);
  s ← ptr_load (ti_scriptSig txIn) (ti_scriptLength txIn);
  _ ← str_snprintf_bytes 512 None s;
  mret tt.

(** [for (i = 0; i < n; i++) f(a + i)] *)
Fixpoint print_array {A} (f : A -> res unit) (n : nat) (a : list A) : res unit :=
  match n, a with
  | O, _ => Ok tt
  | S n, x :: a => _ ← f x; print_array f n a
  | S _, [] => Fault UB
  end.

Definition btcmsg_print_tx (tx : btc_msg_tx) : res unit :=
  _ ← print_array btcmsg_print_txin (Z.to_nat (tx_in_count tx)) (tx_in tx);
  print_array btcmsg_print_txout (Z.to_nat (tx_out_count tx)) (tx_out tx).

Definition btcmsg_print_block (blk : btc_msg_block) : res unit :=
  _ ← btcmsg_print_header (blk_header blk);
  print_array btcmsg_print_tx (Z.to_nat (blk_txCount blk)) (blk_tx blk).
End printing.

(** *** Validity *)

Definition ipv4_pfx : list byte := replicate 10 x00 ++ [xff; xff].

Definition btcmsg_addr_is_ipv4 (addr : btc_msg_address) : bool :=
  bool_decide (take 12 (a_ip addr) = ipv4_pfx).

Definition net_magic (testnet : bool) : Z :=
  if testnet then BTC_NET_MAGIC_TESTNET else BTC_NET_MAGIC_MAIN.

Definition btcmsg_header_valid (testnet : bool) (hdr : btc_msg_header) : bool :=
  if negb (h_magic hdr =? net_magic testnet) then false
  else if BTC_MSG_MAX_PAYLOAD_LENGTH <? h_payloadLength hdr then false
  else true.

Definition btcmsg_payload_valid `{Sha256} (buf : buff) (checksum : list byte) : res bool :=
  _ ← ASSERT (buff_curlen (Some buf) =? 0);
  d ← ptr_load (buff_base (Some buf)) (buff_maxlen (Some buf));
  mret (bool_decide (checksum = hash4_calc d)).

(** *** Parsing *)

Section parse.
Context `{Malloc}.

(** What an uninitialised [btc_msg_inv] holds. *)
Definition any_inv : btc_msg_inv := MsgInv 0 (malloc_fill 32).

(** The loop over the entries; [want] tells whether block hashes are kept. *)
Fixpoint notfound_loop (want : bool) (n : nat) (hashes : list uint256) :
    ST buff (bool * list uint256) :=
  match n with
  | O => mret (false, hashes)
  | S n =>
      '(res, inv) ← deserialize_inv any_inv;
      if (res : bool) then mret (true, hashes) else
      _ ← lift (uint256_snprintf_reverse 128 (inv_hash inv));
      notfound_loop want n
        (if want && (inv_type inv =? INV_TYPE_MSG_BLOCK) then hashes ++ [inv_hash inv] else hashes)
  end.

(** [want]: blockHashesOut is not NULL. The result is [*blockHashesOut]
    ([None] for NULL) and [*numBlockHashesOut]. *)
Definition btcmsg_parse_notfound (want : bool) : ST buff (bool * (option (list uint256) * Z)) :=
  '(res, n) ← deserialize_varint 0;
  if (res : bool) then mret (res, (None, 0)) else
  if BTC_MSG_NOTFOUND_MAX_ENTRIES <? n then mret (true, (None, 0)) else
  let alloc := want && (0 <? n) in
  '(res, hashes) ← notfound_loop alloc (Z.to_nat n) [];
  if (res : bool) then mret (res, (None, 0)) else
  sp ← buff_space_left;
  if negb (sp =? 0) then mret (true, (None, 0)) else
  mret (false, (if alloc then Some hashes else None, Zlen hashes)).

Definition btcmsg_parse_alert : ST buff bool :=
  '(res, _) ← deserialize_str_alloc;
  if (res : bool) then mret res else
  '(res, _) ← deserialize_str_alloc;
  mret res.

Definition btcmsg_parse_block (blk : btc_msg_block) : ST buff (bool * btc_msg_block) :=
  '(res, blk) ← deserialize_block blk;
  if (res : bool) then mret (res, blk) else
  sp ← buff_space_left;
  if negb (sp =? 0) then mret (true, blk) else mret (res, blk).

Fixpoint headers_loop (n : nat) : ST buff (bool * list btc_block_header) :=
  match n with
  | O => mret (false, [])
  | S n =>
      '(r0, h) ← deserialize_blockheader zero_blockheader;
      '(r1, numTx) ← deserialize_varint 0;
      if r0 || r1 || negb (numTx =? 0) then mret (true, []) else
      '(res, hs) ← headers_loop n;
      mret (res, h :: hs)
  end.

(** [*headersOut] ([None] for NULL) and [*num]. *)
Definition btcmsg_parse_headers : ST buff (bool * (option (list btc_block_header) * Z)) :=
  '(res, n) ← deserialize_varint 0;
  if (res : bool) then mret (res, (None, 0)) else
  if BTC_MSG_GETHEADERS_MAX_ENTRIES <? n then mret (true, (None, 0)) else
  '(res, headers) ← headers_loop (Z.to_nat n);
  if (res : bool) then mret (true, (None, 0)) else
  sp ← buff_space_left;
  if negb (sp =? 0) then mret (true, (None, 0)) else
  mret (false, (Some headers, n)).

Definition btcmsg_parse_pingpong (protversion : Z) : ST buff (bool * Z) :=
  if BTC_PROTO_PING <? protversion then deserialize_uint64 0 else mret (false, 0).

(** The addresses kept, in order; [false] at the first unreadable entry. *)
Fixpoint addr_loop (protversion yesterday : Z) (n : nat) (addrs : list btc_msg_address) :
    ST buff (bool * list btc_msg_address) :=
  match n with
  | O => mret (false, addrs)
  | S n =>
      '(res, addr) ← deserialize_addr protversion zero_address;
      if (res : bool) then mret (res, addrs) else
      if negb (btcmsg_addr_is_ipv4 addr) then addr_loop protversion yesterday n addrs else
      if a_time addr <? yesterday then addr_loop protversion yesterday n addrs else
      addr_loop protversion yesterday n (addrs ++ [addr])
  end.

(** [now] is [time(NULL)]. *)
Definition btcmsg_parse_addr (now protversion : Z) :
    ST buff (bool * (option (list btc_msg_address) * Z)) :=
  '(res, numAddressMsg) ← deserialize_varint 0;
  if res || (BTC_MSG_ADDR_MAX_ENTRIES <? numAddressMsg) then mret (true, (None, 0)) else
  let yesterday := now - 24 * 60 * 60 in
  '(res, addrs) ← addr_loop protversion yesterday (Z.to_nat numAddressMsg) [];
  if (res : bool) then mret (res, (None, 0)) else
  sp ← buff_space_left;
  if negb (sp =? 0) then mret (true, (None, 0)) else
  mret (false, (Some addrs, Zlen addrs)).

(** Every entry is attempted, whatever the status of the ones before. *)
Fixpoint inv_loop (n : nat) : ST buff (bool * list btc_msg_inv) :=
  match n with
  | O => mret (false, [])
  | S n =>
      '(r0, inv) ← deserialize_inv any_inv;
      _ ← lift (uint256_snprintf_reverse 128 (inv_hash inv));
      '(res, invs) ← inv_loop n;
      mret (r0 || res, inv :: invs)
  end.

Definition btcmsg_parse_inv : ST buff (bool * (option (list btc_msg_inv) * Z)) :=
  '(res, n) ← deserialize_varint 0;
  if (res : bool) then mret (res, (None, 0)) else
  if BTC_MSG_INV_MAX_ENTRIES <? n then mret (true, (None, 0)) else
  '(res, inv) ← inv_loop (Z.to_nat n);
  if (res : bool) then mret (res, (None, 0)) else
  mret (false, (Some inv, n)).

Definition btcmsg_parse_version : ST buff (bool * btc_msg_version) := deserialize_version.

Definition btcmsg_parse_cfilter : ST buff (bool * btc_msg_cfilter) :=
  '(r0, filterType) ← deserialize_uint8 0;
  '(r1, blockHash) ← deserialize_uint256 uint256_zero_out;
  '(r2, numBytes) ← deserialize_varint 0;
  let cf := CFilter filterType blockHash numBytes None in
  if r0 || r1 || r2 then mret (true, cf) else
  if 4000000 <? numBytes then mret (true, cf) else
  '(res, data) ← deserialize_bytes numBytes;
  if (res : bool) then mret (true, cf) else
  mret (false, CFilter filterType blockHash numBytes data).

Fixpoint hashes_loop (n : nat) : ST buff (bool * list uint256) :=
  match n with
  | O => mret (false, [])
  | S n =>
      '(res, h) ← deserialize_uint256 uint256_zero_out;
      if (res : bool) then mret (true, []) else
      '(res, hs) ← hashes_loop n;
      mret (res, h :: hs)
  end.

Definition btcmsg_parse_cfheaders : ST buff (bool * btc_msg_cfheaders) :=
  '(r0, filterType) ← deserialize_uint8 0;
  '(r1, stopHash) ← deserialize_uint256 uint256_zero_out;
  '(r2, prevFilterHeader) ← deserialize_uint256 uint256_zero_out;
  '(r3, numHeaders) ← deserialize_varint 0;
  let cfh := CFHeaders filterType stopHash prevFilterHeader numHeaders None in
  if r0 || r1 || r2 || r3 then mret (true, cfh) else
  if 2000 <? numHeaders then mret (true, cfh) else
  '(res, hashes) ← hashes_loop (Z.to_nat numHeaders);
  if (res : bool) then mret (true, cfh) else
  mret (false, CFHeaders filterType stopHash prevFilterHeader numHeaders (Some hashes)).

Definition btcmsg_parse_cfcheckpt : ST buff (bool * btc_msg_cfcheckpt) :=
  '(r0, filterType) ← deserialize_uint8 0;
  '(r1, stopHash) ← deserialize_uint256 uint256_zero_out;
  '(r2, numHeaders) ← deserialize_varint 0;
  let cfc := CFCheckpt filterType stopHash numHeaders None in
  if r0 || r1 || r2 then mret (true, cfc) else
  if 100000 <? numHeaders then mret (true, cfc) else
  '(res, hashes) ← hashes_loop (Z.to_nat numHeaders);
  if (res : bool) then mret (true, cfc) else
  mret (false, CFCheckpt filterType stopHash numHeaders (Some hashes)).
End parse.

(** *** Building *)

Section craft.
Context `{Malloc} `{Sha256}.
Variable testnet : bool.

Definition btcmsg_craft_msgheader (message : list byte) (bufData : option buff) : res buff :=
  d ← ptr_load (buff_base bufData) (buff_curlen bufData);
  let h := MsgHeader (net_magic testnet) (strncpy 12 message)
                     (wrap32 (buff_curlen bufData)) (hash4_calc d) in
  '(_, buf) ← serialize_msgheader h buff_alloc;
  '(_, buf) ← buff_append bufData buf;
  mret buf.

(** A payload written by [m], in its own buffer, then its message. *)
Definition craft (message : list byte) (m : ST buff bool) : res buff :=
  '(_, buf) ← m buff_alloc;
  btcmsg_craft_msgheader message (Some buf).

Definition btcmsg_craft_tx (txBuf : buff) : res buff :=
  btcmsg_craft_msgheader (str "tx") (Some txBuf).

Definition btcmsg_craft_ping (protversion nonce : Z) : res buff :=
  craft (str "ping")
    (if BTC_PROTO_PING <? protversion then serialize_uint64 nonce else mret false).
Definition btcmsg_craft_pong (protversion nonce : Z) : res buff :=
  craft (str "pong")
    (if BTC_PROTO_PING <? protversion then serialize_uint64 nonce else mret false).

Definition BTC_CLIENT_STR_VERSION : list byte := str "/bitc:0.1.0".

(** [now] is [time(NULL)]. *)
Definition btcmsg_prepare_version (now : Z) : ST buff bool :=
  let v := MsgVersion BTC_PROTO_VERSION 0 (wrap64 now) zero_address zero_address 0x2345
                      (strncpy 80 BTC_CLIENT_STR_VERSION) 0 0 in
  res ← serialize_version v;
  _ ← lift (ASSERT (negb res));
  mret res.

Definition btcmsg_prepare_blocklocator (hashes : list uint256) (num : Z) (stop : option uint256) :
    res btc_block_locator :=
  _ ← (if (0 <? num) && (Zlen hashes <? num) then Fault UB else Ok tt);
  mret (BlockLocator BTC_PROTO_VERSION (if 0 <? num then num else 0)
          (default uint256_zero_out stop) (if 0 <? num then take (Z.to_nat num) hashes else [])).

(** [hashes = None] is NULL. *)
Definition btcmsg_craft_getblocks (hashes : option (list uint256)) (num : Z) : res buff :=
  _ ← ASSERT (bool_decide (is_Some hashes));
  bl ← btcmsg_prepare_blocklocator (default [] hashes) num None;
  craft (str "getblocks") (serialize_blocklocator bl).

Definition btcmsg_craft_getheaders (hashes : list uint256) (num : Z) (genesis : option uint256) :
    res buff :=
  bl ← (if 0 <? num then btcmsg_prepare_blocklocator hashes num None
        else btcmsg_prepare_blocklocator [] 0 genesis);
  craft (str "getheaders") (serialize_blocklocator bl).

(** The inventory loop of craft_inv and craft_getdata. *)
Definition serialize_invs (type : Z) (hash : list uint256) (n : Z) : ST buff bool :=
  _ ← serialize_varint (wrap64 n);
  serialize_array (fun h => serialize_inv (MsgInv type h)) (Z.to_nat n) hash.

Definition btcmsg_craft_inv (type : Z) (hash : list uint256) (n : Z) : res buff :=
  _ ← ASSERT (n <=? BTC_MSG_INV_MAX_ENTRIES);
  craft (str "inv") (serialize_invs type hash n).

Definition btcmsg_craft_getdata (type : Z) (hash : list uint256) (n : Z) : res buff :=
  _ ← ASSERT (n <=? BTC_MSG_GETDATA_MAX_ENTRIES);
  craft (str "getdata") (serialize_invs type hash n).

Definition btcmsg_craft_verack : res buff := btcmsg_craft_msgheader (str "verack") None.
Definition btcmsg_craft_mempool : res buff := btcmsg_craft_msgheader (str "mempool") None.
Definition btcmsg_craft_getaddr : res buff := btcmsg_craft_msgheader (str "getaddr") None.

Definition btcmsg_craft_version (now : Z) : res buff :=
  craft (str "version") (btcmsg_prepare_version now).

(** [protversion] is not used. *)
Definition btcmsg_craft_addr (protversion : Z) (addrs : list btc_msg_address) (numAddrs : Z) :
    res buff :=
  _ ← ASSERT (numAddrs <=? BTC_MSG_ADDR_MAX_ENTRIES);
  craft (str "addr")
    (_ ← serialize_varint numAddrs;
     serialize_array serialize_addr (Z.to_nat numAddrs) addrs).

Definition btcmsg_craft_getcfilters (g : btc_msg_getcfilters) : res buff :=
  craft (str "getcfilters")
    (_ ← serialize_uint8 (gcf_filterType g); _ ← serialize_uint32 (gcf_startHeight g);
     serialize_uint256 (gcf_stopHash g)).
Definition btcmsg_craft_getcfheaders (g : btc_msg_getcfheaders) : res buff :=
  craft (str "getcfheaders")
    (_ ← serialize_uint8 (gch_filterType g); _ ← serialize_uint32 (gch_startHeight g);
     serialize_uint256 (gch_stopHash g)).
Definition btcmsg_craft_getcfcheckpt (g : btc_msg_getcfcheckpt) : res buff :=
  craft (str "getcfcheckpt")
    (_ ← serialize_uint8 (gcc_filterType g); serialize_uint256 (gcc_stopHash g)).
End craft.

(** *** Transactions *)

Section tx.
Context `{Malloc}.

(** A copy of a script: NULL when it is empty. *)
Definition dup_script (p : ptr) (len : Z) : res ptr :=
  if 0 <? len then bs ← ptr_load p len; mret (Some bs) else Ok None.

(** [memcpy] of [n] entries, then [f] on each. *)
Fixpoint dup_array {A} (f : A -> res A) (n : nat) (a : list A) : res (list A) :=
  match n, a with
  | O, _ => Ok []
  | S n, x :: a => y ← f x; t ← dup_array f n a; mret (y :: t)
  | S _, [] => Fault UB
  end.

Definition btc_msg_tx_dup (tx0 : btc_msg_tx) : res btc_msg_tx :=
  tx_in ← dup_array (fun i =>
      s ← dup_script (ti_scriptSig i) (ti_scriptLength i);
      mret (TxIn (ti_prevTxHash i) (ti_prevTxOutIdx i) (ti_scriptLength i) s (ti_sequence i)))
    (Z.to_nat (tx_in_count tx0)) (tx_in tx0);
  tx_out ← dup_array (fun o =>
      s ← dup_script (to_scriptPubKey o) (to_scriptLength o);
      mret (TxOut (to_value o) (to_scriptLength o) s))
    (Z.to_nat (tx_out_count tx0)) (tx_out tx0);
  mret (Tx (tx_in_count tx0) tx_in (tx_out_count tx0) tx_out (tx_version tx0) (tx_lock_time tx0)).

Definition btc_msg_tx_init : btc_msg_tx := zero_tx.

Fixpoint tx_value_loop (n : nat) (outs : list btc_msg_tx_out) (val : Z) : res Z :=
  match n, outs with
  | O, _ => Ok val
  | S n, o :: outs => tx_value_loop n outs (wrap64 (val + to_value o))
  | S _, [] => Fault UB
  end.
Definition btc_msg_tx_value (tx : btc_msg_tx) : res Z :=
  tx_value_loop (Z.to_nat (tx_out_count tx)) (tx_out tx) 0.
End tx.

(** ** Parsers on untrusted bytes *)

Lemma snprintf_hash_ok h : is_uint256 h -> exists s, uint256_snprintf_reverse 128 h = Ok s.
Proof. intros. eexists. by apply uint256_snprintf_reverse_spec. Qed.

Section safe_parse.
Context `{Malloc}.
Implicit Types post : list byte.

Lemma safe_lift {A} post (m : res A) a (Q : A -> list byte -> Prop) :
  m = Ok a -> Q a [] -> safe_at post (lift m) Q.
Proof. intros -> HQ pre _. exists a, [], post. by rewrite app_nil_r. Qed.

(** A hash field is 32 bytes even when its read failed. *)
Lemma safe_inv_any post i0 :
  is_uint256 (inv_hash i0) ->
  safe_at post (deserialize_inv i0) (fun r _ =>
    is_uint256 (inv_hash r.2) /\ (r.1 = false -> wf_inv r.2)).
Proof.
  intros H0. unfold deserialize_inv. safe_step safe_uint32 as [r0 ty] Ht.
  destruct r0; [by apply safe_ret|].
  safe_step safe_bytes as [r1 o] Hb; [lia|]. apply safe_ret. cbn.
  destruct Hb as [[[= -> ->] _]|[[= -> ->] Hl]]; [by split|].
  assert (is_uint256 bs0) by (unfold is_uint256, Zlen in *; cbn; lia).
  split; [done|]. intros _. split; [|done]. apply int_read_ok in Ht as [Ht _]. cbn in *. lia.
Qed.

Lemma any_inv_hash : is_uint256 (inv_hash any_inv).
Proof. apply malloc_fill_length. Qed.

Lemma safe_notfound_loop want n : forall post hashes,
  Forall is_uint256 hashes ->
  safe_at post (notfound_loop want n hashes) (fun r _ =>
    Forall is_uint256 r.2 /\ Zlen r.2 <= Zlen hashes + Z.of_nat n).
Proof.
  induction n as [|n IH]; intros post hashes Hf; cbn [notfound_loop].
  { apply safe_ret. split; [done|]. cbn. lia. }
  eapply safe_bind; [apply safe_inv_any, any_inv_hash|].
  intros [r inv] ? q1 _ [Hh Hw]. cbn in Hh, Hw. cbn beta iota.
  destruct r; [apply safe_ret; split; [done|cbn; lia]|].
  destruct (snprintf_hash_ok _ Hh) as [s Hs].
  eapply safe_bind; [eapply (safe_lift _ _ _ (fun _ _ => True)); [exact Hs|done]|].
  intros _ ? q2 _ _. eapply safe_weaken; [apply IH|].
  - case_match; [|done]. apply Forall_app. by split; [|constructor].
  - intros [r l] bs' [HF Hl]. cbn in *. split; [done|]. case_match; zlia.
Qed.

Lemma safe_notfound post want :
  safe_at post (btcmsg_parse_notfound want) (fun r _ =>
    Forall is_uint256 (default [] r.2.1) /\ 0 <= r.2.2 <= BTC_MSG_NOTFOUND_MAX_ENTRIES /\
    (forall hs, r.2.1 = Some hs -> r.2.2 = Zlen hs)).
Proof.
  unfold btcmsg_parse_notfound, BTC_MSG_NOTFOUND_MAX_ENTRIES.
  safe_step safe_varint as [r n] Hn.
  destruct r; [by apply safe_ret|]. destruct (Hn eq_refl) as [Hu _]. cbn in Hu.
  destruct (Z.ltb_spec 50000 n); [by apply safe_ret|].
  eapply safe_bind; [by apply safe_notfound_loop|].
  intros [r hs] ? q1 _ [HF Hl]. cbn in HF, Hl. cbn beta iota.
  destruct r; [by apply safe_ret|]. apply safe_space.
  destruct (negb _); apply safe_ret; [done|]. cbn.
  destruct (want && (0 <? n)); cbn; (split_and!; [done| pose_Zlen; zlia | zlia | naive_solver]).
Qed.

Lemma safe_alert post : safe_at post btcmsg_parse_alert (fun _ _ => True).
Proof.
  unfold btcmsg_parse_alert. safe_step safe_str_alloc as [r p] Hn.
  destruct r; [by apply safe_ret|]. safe_step safe_str_alloc as [r' p'] Hn'. by apply safe_ret.
Qed.

Lemma safe_pingpong post pv :
  safe_at post (btcmsg_parse_pingpong pv) (fun r _ => r.1 = false -> u64 r.2).
Proof.
  unfold btcmsg_parse_pingpong. case_match; [|by apply safe_ret].
  eapply safe_weaken; [apply safe_uint64|]. intros [r v] bs HI; cbn. intros ->.
  apply int_read_ok in HI as [? _]. lia.
Qed.

Lemma safe_headers_loop n : forall post,
  safe_at post (headers_loop n) (fun r bs =>
    r.1 = false -> length r.2 = n /\ Forall wf_blockheader r.2).
Proof.
  induction n as [|n IH]; intros post; cbn [headers_loop]; [apply safe_ret; auto|].
  safe_step safe_blockheader as [r0 h] Hh. safe_step safe_varint as [r1 k] Hk.
  destruct r0; [by apply safe_ret|]. destruct r1; [by apply safe_ret|]. cbn [orb].
  destruct (negb _); [by apply safe_ret|].
  eapply safe_bind; [apply IH|]. intros [r hs] ? q1 _ HIH. apply safe_ret. cbn in *.
  intros ->. destruct (HIH eq_refl). split; [lia|]. constructor; [|done]. by apply Hh.
Qed.

Lemma safe_headers post :
  safe_at post btcmsg_parse_headers (fun r bs =>
    match r with
    | (true, o) => o = (None, 0)
    | (false, o) => exists hs, o = (Some hs, Zlen hs) /\ Forall wf_blockheader hs /\
                      Zlen hs <= BTC_MSG_GETHEADERS_MAX_ENTRIES /\ bs = post
    end).
Proof.
  unfold btcmsg_parse_headers, BTC_MSG_GETHEADERS_MAX_ENTRIES.
  safe_step safe_varint as [r n] Hn.
  destruct r; [by apply safe_ret|]. destruct (Hn eq_refl) as [Hu _]. cbn in Hu.
  destruct (Z.ltb_spec 2000 n); [by apply safe_ret|].
  eapply safe_bind; [apply safe_headers_loop|].
  intros [r hs] ? q1 -> HL. cbn in HL. cbn beta iota. destruct r; [by apply safe_ret|].
  destruct (HL eq_refl) as [Hlen HF]. apply safe_space.
  destruct (negb _) eqn:Hz; apply safe_ret; [done|]. zbool.
  exists hs. assert (Zlen hs = n) by (unfold Zlen; lia). split_and!; [by f_equal; f_equal|done|lia|].
  destruct q1; [|zlia]. by rewrite !app_nil_r.
Qed.

Definition kept_addr (yesterday : Z) (a : btc_msg_address) : Prop :=
  wf_address a /\ btcmsg_addr_is_ipv4 a = true /\ yesterday <= a_time a.

Lemma safe_addr_loop pv yd n : forall post addrs,
  Forall (kept_addr yd) addrs ->
  safe_at post (addr_loop pv yd n addrs) (fun r _ =>
    Forall (kept_addr yd) r.2 /\ Zlen r.2 <= Zlen addrs + Z.of_nat n).
Proof.
  induction n as [|n IH]; intros post addrs Hf; cbn [addr_loop].
  { apply safe_ret. cbn. split; [done|lia]. }
  safe_step safe_addr as [r a] Ha. destruct r; [apply safe_ret; cbn; split; [done|lia]|].
  destruct (Ha eq_refl) as [Hw _]. cbn in Hw.
  destruct (btcmsg_addr_is_ipv4 a) eqn:Hip; cbn [negb].
  2: { eapply safe_weaken; [by apply IH|]. intros ? ? [? ?]. split; [done|lia]. }
  destruct (Z.ltb_spec (a_time a) yd).
  { eapply safe_weaken; [by apply IH|]. intros ? ? [? ?]. split; [done|lia]. }
  eapply safe_weaken; [apply IH|].
  - apply Forall_app. split; [done|]. repeat constructor; try done; apply Hw.
  - intros [? ?] ? [? ?]. cbn in *. split; [done|]. zlia.
Qed.

Lemma safe_parse_addr post now pv :
  safe_at post (btcmsg_parse_addr now pv) (fun r bs =>
    match r with
    | (true, o) => o = (None, 0)
    | (false, o) => exists l, o = (Some l, Zlen l) /\ Forall (kept_addr (now - 86400)) l /\
                      Zlen l <= BTC_MSG_ADDR_MAX_ENTRIES /\ bs = post
    end).
Proof.
  unfold btcmsg_parse_addr, BTC_MSG_ADDR_MAX_ENTRIES.
  safe_step safe_varint as [r n] Hn.
  destruct r; [by apply safe_ret|]. destruct (Hn eq_refl) as [Hu _]. cbn in Hu. cbn [orb].
  destruct (Z.ltb_spec 1000 n); [by apply safe_ret|].
  eapply safe_bind; [by apply safe_addr_loop|].
  intros [r l] ? q1 -> [HF HL]. cbn in HF, HL. cbn beta iota. destruct r; [by apply safe_ret|].
  apply safe_space. destruct (negb _) eqn:Hz; apply safe_ret; [done|]. zbool.
  exists l. split_and!; [done|done|zlia|]. destruct q1; [|zlia]. by rewrite !app_nil_r.
Qed.

Lemma safe_inv_loop n : forall post,
  safe_at post (inv_loop n) (fun r _ =>
    length r.2 = n /\ (r.1 = false -> Forall wf_inv r.2)).
Proof.
  induction n as [|n IH]; intros post; cbn [inv_loop]; [by apply safe_ret|].
  eapply safe_bind; [apply safe_inv_any, any_inv_hash|].
  intros [r0 inv] ? q1 _ [Hh Hw]. cbn in Hh, Hw. cbn beta iota.
  destruct (snprintf_hash_ok _ Hh) as [s Hs].
  eapply safe_bind; [eapply (safe_lift _ _ _ (fun _ _ => True)); [exact Hs|done]|].
  intros _ ? q2 _ _. eapply safe_bind; [apply IH|].
  intros [r l] ? q3 _ [Hl Hf]. apply safe_ret. cbn in *. split; [lia|].
  intros [-> ->]%orb_false_elim. constructor; auto.
Qed.

Lemma safe_parse_inv post :
  safe_at post btcmsg_parse_inv (fun r bs =>
    match r with
    | (true, o) => o = (None, 0)
    | (false, o) => exists l, o = (Some l, Zlen l) /\ Forall wf_inv l /\
                      Zlen l <= BTC_MSG_INV_MAX_ENTRIES
    end).
Proof.
  unfold btcmsg_parse_inv, BTC_MSG_INV_MAX_ENTRIES. safe_step safe_varint as [r n] Hn.
  destruct r; [by apply safe_ret|]. destruct (Hn eq_refl) as [Hu _]. cbn in Hu.
  destruct (Z.ltb_spec 50000 n); [by apply safe_ret|].
  eapply safe_bind; [apply safe_inv_loop|].
  intros [r l] ? q1 _ [Hlen HF]. cbn in HF, Hlen. cbn beta iota.
  destruct r; apply safe_ret; [done|]. exists l.
  assert (Zlen l = n) by (unfold Zlen; lia). split_and!; [by f_equal; f_equal|auto|lia].
Qed.

Lemma safe_cfilter post :
  safe_at post btcmsg_parse_cfilter (fun r _ =>
    match r with
    | (true, cf) => cf_filterData cf = None
    | (false, cf) => exists d, cf_filterData cf = Some d /\ Zlen d = cf_numBytes cf /\
                       cf_numBytes cf <= 4000000 /\ is_uint256 (cf_blockHash cf)
    end).
Proof.
  unfold btcmsg_parse_cfilter. safe_step safe_uint8 as [r0 t] Ht.
  safe_step safe_uint256 as [r1 h] Hh. safe_step safe_varint as [r2 n] Hn.
  destruct (r0 || r1 || r2) eqn:E; [by apply safe_ret|]. zbool. subst.
  destruct (Hn eq_refl) as [Hu _]. cbn in Hu. apply hash_read_ok in Hh as [Hh _].
  destruct (Z.ltb_spec 4000000 n); [by apply safe_ret|].
  safe_step safe_bytes as [r d] Hd; [lia|]. destruct r; apply safe_ret; [done|].
  apply copied_ok in Hd as [-> Hl]. eexists. split_and!; done || lia.
Qed.

Lemma safe_block_msg post blk :
  safe_at post (btcmsg_parse_block blk) (fun r _ => r.1 = false -> Forall tx_loaded (blk_tx r.2)).
Proof.
  unfold btcmsg_parse_block. safe_step safe_block as [r b] Hb.
  destruct r; [by apply safe_ret|]. apply safe_space.
  destruct Hb as (_ & _ & _ & HL). destruct (negb _); apply safe_ret; [done|]. intros _. by apply HL.
Qed.

Lemma safe_hashes_loop n : forall post,
  safe_at post (hashes_loop n) (fun r _ =>
    r.1 = false -> length r.2 = n /\ Forall is_uint256 r.2).
Proof.
  induction n as [|n IH]; intros post; cbn [hashes_loop]; [by apply safe_ret|].
  safe_step safe_uint256 as [r h] Hh. destruct r; [by apply safe_ret|].
  apply hash_read_ok in Hh as [Hh _].
  eapply safe_bind; [apply IH|]. intros [r l] ? q1 _ HIH. apply safe_ret. cbn in *.
  intros ->. destruct (HIH eq_refl). split; [lia|]. by constructor.
Qed.

Lemma safe_cfheaders post :
  safe_at post btcmsg_parse_cfheaders (fun r _ =>
    match r with
    | (true, c) => cfh_filterHashes c = None
    | (false, c) => exists l, cfh_filterHashes c = Some l /\ cfh_numHeaders c = Zlen l /\
                      Zlen l <= 2000 /\ Forall is_uint256 l /\
                      is_uint256 (cfh_stopHash c) /\ is_uint256 (cfh_prevFilterHeader c)
    end).
Proof.
  unfold btcmsg_parse_cfheaders. safe_step safe_uint8 as [r0 t] Ht.
  safe_step safe_uint256 as [r1 h] Hh. safe_step safe_uint256 as [r2 p] Hp.
  safe_step safe_varint as [r3 n] Hn.
  destruct (r0 || r1 || r2 || r3) eqn:E; [by apply safe_ret|]. zbool. subst.
  destruct (Hn eq_refl) as [Hu _]. cbn in Hu. apply hash_read_ok in Hh as [Hh _], Hp as [Hp _].
  destruct (Z.ltb_spec 2000 n); [by apply safe_ret|].
  eapply safe_bind; [apply safe_hashes_loop|]. intros [r l] ? q1 _ HL. cbn in HL.
  cbn beta iota. destruct r; apply safe_ret; [done|]. destruct (HL eq_refl).
  exists l. assert (Zlen l = n) by (unfold Zlen; lia). split_and!; done || lia.
Qed.

Lemma safe_cfcheckpt post :
  safe_at post btcmsg_parse_cfcheckpt (fun r _ =>
    match r with
    | (true, c) => cfc_filterHeaders c = None
    | (false, c) => exists l, cfc_filterHeaders c = Some l /\ cfc_numHeaders c = Zlen l /\
                      Zlen l <= 100000 /\ Forall is_uint256 l /\ is_uint256 (cfc_stopHash c)
    end).
Proof.
  unfold btcmsg_parse_cfcheckpt. safe_step safe_uint8 as [r0 t] Ht.
  safe_step safe_uint256 as [r1 h] Hh. safe_step safe_varint as [r3 n] Hn.
  destruct (r0 || r1 || r3) eqn:E; [by apply safe_ret|]. zbool. subst.
  destruct (Hn eq_refl) as [Hu _]. cbn in Hu. apply hash_read_ok in Hh as [Hh _].
  destruct (Z.ltb_spec 100000 n); [by apply safe_ret|].
  eapply safe_bind; [apply safe_hashes_loop|]. intros [r l] ? q1 _ HL. cbn in HL.
  cbn beta iota. destruct r; apply safe_ret; [done|]. destruct (HL eq_refl).
  exists l. assert (Zlen l = n) by (unfold Zlen; lia). split_and!; done || lia.
Qed.
End safe_parse.

(** ** What is put on the wire *)

Definition header_bytes (h : btc_msg_header) : list byte :=
  le_bytes 4 (h_magic h) ++ h_message h ++ le_bytes 4 (h_payloadLength h) ++ h_checksum h.

Lemma length_strncpy n s : length (strncpy n s) = n.
Proof. unfold strncpy. rewrite length_app, length_take, length_replicate. lia. Qed.

Section craft_spec.
Context `{Malloc} `{Sha256}.
Variable testnet : bool.

(** The header of a payload. *)
Definition header_for (message payload : list byte) : btc_msg_header :=
  MsgHeader (net_magic testnet) (strncpy 12 message) (wrap32 (Zlen payload))
            (hash4_calc payload).

Definition msg_bytes (message payload : list byte) : list byte :=
  header_bytes (header_for message payload) ++ payload.

Lemma writes_seq m1 m2 bs1 bs2 :
  writes m1 bs1 -> writes m2 bs2 -> writes (_ ← m1; m2) (bs1 ++ bs2).
Proof. intros H1 H2. by apply writes_bind. Qed.

Lemma writes_msgheader h :
  length (h_message h) = 12%nat -> length (h_checksum h) = 4%nat ->
  writes (serialize_msgheader h) (header_bytes h).
Proof.
  intros H1 H2. repeat apply writes_or; try apply writes_int;
    apply writes_bytes; unfold Zlen; lia.
Qed.

Lemma Zlen_header_for m p : Zlen (header_bytes (header_for m p)) = 24.
Proof.
  unfold header_bytes. cbn. unfold Zlen.
  rewrite !length_app, length_strncpy, hash4_calc_length, !length_le_bytes. done.
Qed.

Lemma craft_msgheader_spec message buf payload :
  gwf buf -> contents buf = payload -> Zlen payload <= 2 ^ 59 ->
  exists b, btcmsg_craft_msgheader testnet message (Some buf) = Ok b /\ gwf b /\
    contents b = msg_bytes message payload.
Proof.
  intros Hb Hc Hl. pose proof (contents_length _ Hb) as Hcl. rewrite Hc in Hcl.
  assert (ptr_load (buff_base (Some buf)) (buff_curlen (Some buf)) = Ok payload) as Ep.
  { change (buff_curlen (Some buf)) with (b_idx buf). rewrite <- Hcl, <- Hc.
    change (buff_base (Some buf)) with (Some (b_base buf)).
    rewrite (contents_split buf Hb) at 1. apply ptr_load_prefix. }
  unfold btcmsg_craft_msgheader. rewrite Ep. cbn [mbind res_bind].
  change (buff_curlen (Some buf)) with (b_idx buf). rewrite <- Hcl. fold (header_for message payload).
  destruct (writes_msgheader (header_for message payload)) with (b := buff_alloc)
    as (b1 & E1 & Hw1 & Hc1).
  { apply length_strncpy. } { apply hash4_calc_length. } { apply gwf_alloc. }
  { rewrite Zlen_header_for. cbn. unfold size_max. lia. }
  rewrite E1. cbn [mbind res_bind]. rewrite contents_alloc in Hc1. cbn [app] in Hc1.
  destruct (writes_append buf Hb b1 Hw1) as (b2 & E2 & Hw2 & Hc2).
  { rewrite <- (contents_length _ Hw1), Hc1, Zlen_header_for, Hc. unfold size_max. lia. }
  rewrite E2. exists b2. split; [done|]. split; [done|]. by rewrite Hc2, Hc1, Hc.
Qed.

Lemma craft_spec message m payload :
  writes m payload -> Zlen payload <= 2 ^ 59 ->
  exists b, craft testnet message m = Ok b /\ gwf b /\ contents b = msg_bytes message payload.
Proof.
  intros Hm Hl. unfold craft.
  destruct (Hm buff_alloc) as (b & E & Hw & Hc);
    [apply gwf_alloc | cbn; unfold size_max; lia|].
  rewrite E. cbn [mbind res_bind]. rewrite contents_alloc in Hc. by apply craft_msgheader_spec.
Qed.

(** The receiver's checks accept the header and the payload. *)
Lemma header_for_valid message payload :
  Zlen payload <= BTC_MSG_MAX_PAYLOAD_LENGTH ->
  let h := header_for message payload in
  btcmsg_header_valid testnet h = true /\ h_payloadLength h = Zlen payload /\
  btcmsg_payload_valid (buff_init payload (Zlen payload)) (h_checksum h) = Ok true.
Proof.
  unfold BTC_MSG_MAX_PAYLOAD_LENGTH. intros Hl. pose_Zlen. cbn.
  unfold btcmsg_header_valid, btcmsg_payload_valid. cbn. rewrite Z.eqb_refl. cbn.
  rewrite wrap32_small by lia. unfold BTC_MSG_MAX_PAYLOAD_LENGTH. rewrite ltb_f by lia.
  rewrite ptr_load_all. cbn. by rewrite bool_decide_eq_true_2.
Qed.
End craft_spec.

(** Every message type is recognised from the name it is sent with, cut
    or padded to the header's twelve characters. *)
Theorem msg_type_roundtrip (t : btc_msg_type) :
  btcmsg_str_to_type (strncpy 12 (btcmsg_type_to_str t)) = t.
Proof. destruct t; vm_compute; reflexivity. Qed.

Definition invs_bytes (type : Z) (hash : list uint256) : list byte :=
  varint_bytes (Zlen hash) ++ concat (map (fun h => inv_bytes (MsgInv type h)) hash).

Section inv_messages.
Context `{Malloc} `{Sha256}.

Lemma writes_invs type hash :
  Forall is_uint256 hash -> Zlen hash < 2 ^ 32 ->
  writes (serialize_invs type hash (Zlen hash)) (invs_bytes type hash).
Proof.
  intros Hf Hl. unfold serialize_invs, invs_bytes. pose_Zlen.
  rewrite wrap64_small by lia. apply writes_seq; [apply writes_varint|].
  apply (writes_array_n _ (fun h => inv_bytes (MsgInv type h))); [done|].
  eapply Forall_impl; [exact Hf|]. intros h Hh. by apply writes_inv.
Qed.

Lemma parses_inv_loop type hash :
  u32 type -> Forall is_uint256 hash ->
  parses (inv_loop (length hash)) (concat (map (fun h => inv_bytes (MsgInv type h)) hash))
    (false, map (MsgInv type) hash).
Proof.
  intros Ht. induction 1 as [|h hs Hh _ IH]; [apply parses_ret|].
  cbn [length inv_loop map concat]. parse_step parses_inv; [by split|].
  destruct (snprintf_hash_ok _ Hh) as [s Hs]. cbn [inv_hash].
  apply (parses_bind _ _ [] _ s); [intros pre post _; cbn; by rewrite Hs, app_nil_r|].
  by eapply parses_last; [exact IH|].
Qed.

Lemma Zlen_invs_bytes type hash :
  Forall is_uint256 hash -> Zlen (invs_bytes type hash) <= 5 + 36 * Zlen hash.
Proof.
  intros Hf. unfold invs_bytes. pose proof (Zlen_varint_bytes (Zlen hash)).
  assert (Zlen (concat (map (fun h => inv_bytes (MsgInv type h)) hash)) = 36 * Zlen hash).
  { clear -Hf. induction Hf as [|h hs Hh _ IH]; [done|]. cbn [map concat]. zlen. rewrite IH.
    unfold inv_bytes. zlen. cbn [inv_hash]. rewrite Zlen_32 by done. lia. }
  zlia.
Qed.

Lemma parse_invs type hash :
  u32 type -> Forall is_uint256 hash -> Zlen hash <= BTC_MSG_INV_MAX_ENTRIES ->
  ends btcmsg_parse_inv (invs_bytes type hash)
    (false, (Some (map (MsgInv type) hash), Zlen hash)).
Proof.
  unfold BTC_MSG_INV_MAX_ENTRIES. intros Ht Hf Hl. pose_Zlen.
  apply parses_ends. unfold btcmsg_parse_inv, invs_bytes.
  parse_step parses_varint32; [lia|]. unfold BTC_MSG_INV_MAX_ENTRIES. rewrite ltb_f by lia.
  rewrite to_nat_Zlen. eapply parses_last; [by apply parses_inv_loop|]. reflexivity.
Qed.
End inv_messages.

(** An inventory announcement is received as it was sent: the message is a
    24-byte header and a payload; the header passes btcmsg_header_valid and names
    the type, its length and checksum are the payload's, and btcmsg_parse_inv
    gives back every hash. *)
Theorem inv_message_roundtrip `{Malloc} `{Sha256} (testnet : bool) (type : Z) (hash : list uint256) :
  u32 type -> Forall is_uint256 hash -> Zlen hash <= BTC_MSG_INV_MAX_ENTRIES ->
  exists b hdr payload, btcmsg_craft_inv testnet type hash (Zlen hash) = Ok b /\
    contents b = header_bytes hdr ++ payload /\ Zlen (header_bytes hdr) = 24 /\
    btcmsg_header_valid testnet hdr = true /\ h_payloadLength hdr = Zlen payload /\
    btcmsg_str_to_type (h_message hdr) = BTC_MSG_INV /\
    btcmsg_payload_valid (buff_init payload (Zlen payload)) (h_checksum hdr) = Ok true /\
    btcmsg_parse_inv (buff_init payload (Zlen payload))
      = Ok ((false, (Some (map (MsgInv type) hash), Zlen hash)), rd payload []).
Proof.
  intros Ht Hf Hl. pose proof Hl as Hl'. unfold BTC_MSG_INV_MAX_ENTRIES in Hl'.
  pose proof (Zlen_invs_bytes type hash Hf) as Hb.
  destruct (craft_spec testnet (str "inv") (serialize_invs type hash (Zlen hash))
    (invs_bytes type hash)) as (b & E & _ & Hc); [apply writes_invs; [done|lia] | lia |].
  destruct (header_for_valid testnet (str "inv") (invs_bytes type hash)) as (Hv & Hp & Hk).
  { unfold BTC_MSG_MAX_PAYLOAD_LENGTH. lia. }
  exists b, (header_for testnet (str "inv") (invs_bytes type hash)), (invs_bytes type hash).
  unfold btcmsg_craft_inv, ASSERT. rewrite leb_t by lia. cbn [mbind res_bind].
  split_and!; try done; [apply Zlen_header_for | ].
  rewrite buff_init_rd. apply parse_invs; [done|done|done|]. apply rd_init. lia.
Qed.

Lemma inv_message_roundtrip_witness :
  exists b hdr payload,
    @btcmsg_craft_inv zero_malloc toy_sha256 true INV_TYPE_MSG_TX [replicate 32 xab] 1 = Ok b /\
    contents b = header_bytes hdr ++ payload /\
    @btcmsg_parse_inv zero_malloc (buff_init payload (Zlen payload))
      = Ok ((false, (Some [MsgInv 1 (replicate 32 xab)], 1)), rd payload []).
Proof.
  destruct (@inv_message_roundtrip zero_malloc toy_sha256 true INV_TYPE_MSG_TX [replicate 32 xab])
    as (b & hdr & p & E & Hc & _ & _ & _ & _ & _ & Hp);
    [done | by repeat constructor | done |]. exists b, hdr, p. auto.
Defined.

(** The parser returns on these bytes, and its result satisfies [P]. *)
Definition handles {A} (m : ST buff A) (bs : list byte) (P : A -> Prop) : Prop :=
  exists a b, m (buff_init bs (Zlen bs)) = Ok (a, b) /\ P a.

Lemma safe_handles {A} (m : ST buff A) bs Q (P : A -> Prop) :
  Zlen bs < 2 ^ 62 -> safe_at bs m Q -> (forall a us, Q a us -> P a) -> handles m bs P.
Proof.
  intros Hs Hm HP. destruct (run_safe _ _ _ Hm Hs) as (a & b & E & us & HQ).
  exists a, b. eauto.
Qed.

(** C38: whatever the payload a peer sends, none of the message parsers stops
    the process or leaves the payload; lists are bounded by the protocol's
    limits and complete on success (headers and hashes well-formed, kept
    addresses IPv4 and less than a day old, a filter's data numBytes long). *)
Theorem btcmsg_parsers_safe `{Malloc} (bs : list byte) (want : bool) (now pv : Z) (blk : btc_msg_block) :
  Zlen bs < 2 ^ 62 ->
  handles (btcmsg_parse_notfound want) bs (fun r =>
    Forall is_uint256 (default [] r.2.1) /\ r.2.2 <= BTC_MSG_NOTFOUND_MAX_ENTRIES) /\
  handles btcmsg_parse_headers bs (fun r => r.1 = false -> exists hs,
    r.2 = (Some hs, Zlen hs) /\ Forall wf_blockheader hs /\ Zlen hs <= BTC_MSG_GETHEADERS_MAX_ENTRIES) /\
  handles btcmsg_parse_inv bs (fun r => r.1 = false -> exists l,
    r.2 = (Some l, Zlen l) /\ Forall wf_inv l /\ Zlen l <= BTC_MSG_INV_MAX_ENTRIES) /\
  handles (btcmsg_parse_addr now pv) bs (fun r => r.1 = false -> exists l,
    r.2 = (Some l, Zlen l) /\ Forall (kept_addr (now - 86400)) l /\ Zlen l <= BTC_MSG_ADDR_MAX_ENTRIES) /\
  handles btcmsg_parse_cfilter bs (fun r => r.1 = false -> exists d,
    cf_filterData r.2 = Some d /\ Zlen d = cf_numBytes r.2 /\ Zlen d <= 4000000) /\
  handles btcmsg_parse_cfheaders bs (fun r => r.1 = false -> exists l,
    cfh_filterHashes r.2 = Some l /\ cfh_numHeaders r.2 = Zlen l /\ Zlen l <= 2000 /\ Forall is_uint256 l) /\
  handles btcmsg_parse_cfcheckpt bs (fun r => r.1 = false -> exists l,
    cfc_filterHeaders r.2 = Some l /\ cfc_numHeaders r.2 = Zlen l /\ Zlen l <= 100000 /\ Forall is_uint256 l) /\
  handles btcmsg_parse_alert bs (fun _ => True) /\
  handles (btcmsg_parse_pingpong pv) bs (fun r => r.1 = false -> u64 r.2) /\
  handles btcmsg_parse_version bs (fun r => last (v_strVersion r.2) = Some x00) /\
  handles (btcmsg_parse_block blk) bs (fun r => r.1 = false -> Forall tx_loaded (blk_tx r.2)).
Proof.
  intros Hs. split_and!; eapply safe_handles; try exact Hs.
  - apply safe_notfound.
  - intros [r [o n]] us (HF & Hn & _). cbn in *. split; [done|lia].
  - apply safe_headers.
  - intros [[] o] us HQ; [done|]. intros _. destruct HQ as (hs & ? & ? & ? & _); eauto.
  - apply safe_parse_inv.
  - intros [[] o] us HQ; [done|]. intros _. exact HQ.
  - apply safe_parse_addr.
  - intros [[] o] us HQ; [done|]. intros _. destruct HQ as (l & ? & ? & ? & _); eauto.
  - apply safe_cfilter.
  - intros [[] c] us HQ; [done|]. intros _. destruct HQ as (d & ? & Hd & ? & _).
    exists d. cbn. split_and!; [done|done|lia].
  - apply safe_cfheaders.
  - intros [[] c] us HQ; [done|]. intros _. destruct HQ as (l & ? & ? & ? & ? & _); eauto.
  - apply safe_cfcheckpt.
  - intros [[] c] us HQ; [done|]. intros _. destruct HQ as (l & ? & ? & ? & ? & _); eauto.
  - apply safe_alert.
  - done.
  - apply safe_pingpong.
  - auto.
  - apply safe_version.
  - intros r us (_ & ? & _). done.
  - apply safe_block_msg.
  - auto.
Qed.

(** Eight bytes announcing five filter headers. *)
Lemma btcmsg_parsers_safe_witness :
  handles (@btcmsg_parse_cfheaders) [x05; x01; x02; x03; x04; x05; x06; x07]
    (fun r => r.1 = false -> exists l,
      cfh_filterHashes r.2 = Some l /\ cfh_numHeaders r.2 = Zlen l /\ Zlen l <= 2000 /\ Forall is_uint256 l).
Proof.
  destruct (@btcmsg_parsers_safe zero_malloc [x05; x01; x02; x03; x04; x05; x06; x07] true 0 70016
    (Block zero_blockheader 0 [])) as (_ & _ & _ & _ & _ & HH & _); [reflexivity | exact HH].
Defined.

(** *** Copies of transactions *)

Section tx_lemmas.
Context `{Malloc}.

Lemma dup_script_spec p len :
  script_loaded p len -> exists q, dup_script p len = Ok q /\ script_bytes q = script_bytes p /\
    (len = 0 -> q = None) /\ (0 < len -> q = p).
Proof.
  intros (s & -> & <-). unfold dup_script. destruct (Z.ltb_spec 0 (Zlen s)).
  - rewrite ptr_load_all. eexists. split; [done|]. split_and!; [done|lia|done].
  - exists None. split_and!; try done; [|lia]. destruct s; [done|zlia].
Qed.

Lemma dup_array_spec {A} (f : A -> res A) (R : A -> A -> Prop) xs n :
  n = Zlen xs -> Forall (fun x => exists y, f x = Ok y /\ R x y) xs ->
  exists ys, dup_array f (Z.to_nat n) xs = Ok ys /\ Forall2 R xs ys.
Proof.
  intros -> Hf. rewrite to_nat_Zlen. induction Hf as [|x xs (y & E & Hy) _ (ys & E' & IH)].
  { by exists []. }
  exists (y :: ys). cbn. rewrite E. cbn. rewrite E'. cbn. split; [done|]. by constructor.
Qed.
End tx_lemmas.
