(* ===== verification/Script.v ===== *)
(** * Scripts (core/script.c)

    Parsing and classifying output scripts, generating them, and signing the
    inputs that spend them. An instruction's data pointer is an offset into the
    block the script was parsed from. The wallet and its keys are reached
    through the class [KeyRing]: what core/wallet.c and core/key.c promise. *)
From Stdlib Require Import Strings.String.
From S2P Require Export BtcMessage.

Definition OP_PUSHDATA1 : Z := 0x4c.
Definition OP_PUSHDATA2 : Z := 0x4d.
Definition OP_PUSHDATA4 : Z := 0x4e.
Definition OP_PUBKEYHASH : Z := 0xfd.
Definition OP_PUBKEY : Z := 0xfe.

Definition SIGHASH_ALL : Z := 1.

Inductive script_txout_type : Set :=
| TX_NONSTANDARD | TX_PUBKEY | TX_PUBKEYHASH | TX_SCRIPTHASH | TX_MULTISIG.
#[export] Instance script_txout_type_eq_dec : EqDecision script_txout_type.
Proof. solve_decision. Defined.

Definition std_pubkey : list Z := [OP_PUBKEY; OP_CHECKSIG].
Definition std_pubkeyhash : list Z :=
  [OP_DUP; OP_HASH160; OP_PUBKEYHASH; OP_EQUALVERIFY; OP_CHECKSIG].
Definition std_scripts : list (script_txout_type * list Z) :=
  [(TX_PUBKEY, std_pubkey); (TX_PUBKEYHASH, std_pubkeyhash)].

Record script_inst : Type := Inst { si_opcode : Z; si_data : option Z; si_len : Z }.

(** [sc_inst] is the first [len] entries of the array, [sc_max] its size. *)
Record script : Type := Script { sc_inst : list script_inst; sc_max : Z }.

Definition script_inst_ispush (inst : script_inst) : bool := si_opcode inst <=? OP_PUSHDATA4.

Definition script_inst_match (inst : script_inst) (opcode_template : Z) : bool :=
  if opcode_template =? OP_PUBKEY then
    if negb (script_inst_ispush inst) then false
    else if (si_len inst <? 23) || (120 <? si_len inst) then false
    else true
  else if opcode_template =? OP_PUBKEYHASH then
    if negb (script_inst_ispush inst) then false
    else if negb (si_len inst =? 20) then false
    else true
  else
    if script_inst_ispush inst then false
    else si_opcode inst =? opcode_template.

Definition script_alloc : script := Script [] 1.

Definition script_check_resize (s : script) : script :=
  if Zlen (sc_inst s) <? sc_max s then s else Script (sc_inst s) (sc_max s * 2).

(** [script->inst[script->len] = inst; script->len++; script_check_resize] *)
Definition script_add (s : script) (inst : script_inst) : res script :=
  if Zlen (sc_inst s) <? sc_max s
  then Ok (script_check_resize (Script (sc_inst s ++ [inst]) (sc_max s)))
  else Fault UB.

(** [for (j = 0; j < len; j++)]: every instruction matches its template. *)
Fixpoint script_match_all (insts : list script_inst) (opcodes : list Z) : bool :=
  match insts, opcodes with
  | i :: insts, o :: opcodes => if script_inst_match i o then script_match_all insts opcodes else false
  | _, _ => true
  end.

Fixpoint script_classify_loop (s : script) (l : list (script_txout_type * list Z)) :
    script_txout_type :=
  match l with
  | [] => TX_NONSTANDARD
  | (type, opcodes) :: l =>
      if negb (Zlen (sc_inst s) =? Zlen opcodes) then script_classify_loop s l
      else if script_match_all (sc_inst s) opcodes then type
      else script_classify_loop s l
  end.
Definition script_classify (s : script) : script_txout_type := script_classify_loop s std_scripts.
#[global] Arguments script_classify : simpl never.

Section parse.
Context `{Malloc}.

(** The outcome of script_parse_one_op: the end of the script, an error, or
    an instruction. *)
Inductive one_op : Type :=
| OpDone
| OpError
| OpInst (inst : script_inst).

(** The length of the data that follows an opcode, if any does. *)
Definition script_push_len (opcode : Z) : ST buff (bool * option Z) :=
  if opcode <? OP_PUSHDATA1 then mret (false, Some opcode)
  else if opcode =? OP_PUSHDATA1 then '(res, len8) ← deserialize_uint8 0; mret (res, Some len8)
  else if opcode =? OP_PUSHDATA2 then '(res, len16) ← deserialize_uint16 0; mret (res, Some len16)
  else if opcode =? OP_PUSHDATA4 then '(res, len32) ← deserialize_uint32 0; mret (res, Some len32)
  else mret (false, None).

Definition script_parse_one_op : ST buff one_op :=
  sp ← buff_space_left;
  if sp =? 0 then mret OpDone else
  '(res, opcode) ← deserialize_uint8 0;
  if (res : bool) then mret OpError else
  '(res, len) ← script_push_len opcode;
  if (res : bool) then mret OpError else
  match len with
  | None => mret (OpInst (Inst opcode None 0))
  | Some len =>
      data ← buff_curptr;
      res ← buff_skip len;
      if (res : bool) then mret OpError else
      mret (OpInst (Inst opcode (Some data) len))
  end.

(** Each instruction takes at least one byte. *)
Fixpoint script_parse_loop (fuel : nat) (s : script) : ST buff (option script) :=
  match fuel with
  | O => lift (Fault UB)
  | S fuel =>
      r ← script_parse_one_op;
      match r with
      | OpDone => mret (Some s)
      | OpError => mret None
      | OpInst inst => s ← lift (script_add s inst); script_parse_loop fuel s
      end
  end.
Definition script_parse : ST buff (option script) := fun buf =>
  script_parse_loop (S (length (b_base buf))) script_alloc buf.

(** The data an instruction points to, copied to a new block. *)
Definition inst_copy (insts : list script_inst) (i : nat) : ST buff (list byte * Z) := fun buf =>
  match insts !! i with
  | None => Fault UB
  | Some inst =>
      match si_data inst with
      | None => if si_len inst =? 0 then Ok (([], 0), buf) else Fault UB
      | Some off => d ← mem_load (b_base buf) off (si_len inst); Ok ((d, si_len inst), buf)
      end
  end.

(** [None]: the result is 1. Otherwise [*type], [*data_addr] and [*data_len]. *)
Definition script_match_type : ST buff (option (script_txout_type * ptr * Z)) :=
  s ← script_parse;
  match s with
  | None => mret None
  | Some s =>
      match script_classify s with
      | TX_PUBKEY =>
          '(d, n) ← inst_copy (sc_inst s) 0;
          mret (Some (TX_PUBKEY, Some d, n))
      | TX_PUBKEYHASH =>
          '(d, n) ← inst_copy (sc_inst s) 2;
          _ ← lift (ASSERT (n =? 20));
          mret (Some (TX_PUBKEYHASH, Some d, n))
      | type => mret (Some (type, None, 0))
      end
  end.

Context `{Sha256}.

(** The pubkey hash is an out-parameter, zeroed first. *)
Definition script_parse_pubkey_hash (scriptPubKey : ptr) (scriptLength : Z) : res (bool * uint160) :=
  let pubkey := uint160_zero_out in
  '(m, _) ← script_match_type (buff_init (default [] scriptPubKey) scriptLength);
  match m with
  | None => Ok (true, pubkey)
  | Some (TX_PUBKEY, data, datalen) =>
      d ← ptr_load data datalen;
      h ← hash160_calc d;
      Ok (false, h)
  | Some (TX_PUBKEYHASH, data, datalen) =>
      _ ← ASSERT (datalen =? 20);
      d ← ptr_load data 20;
      Ok (false, d)
  | Some (_, _, _) => Ok (true, pubkey)
  end.

Definition script_push_data (data : list byte) : ST buff unit := fun buf =>
  let len := Zlen data in
  _ ← ASSERT (b_grow buf);
  '(_, buf) ← (if len <? OP_PUSHDATA1 then serialize_uint8 len
               else if len <=? 0xff then _ ← serialize_uint8 OP_PUSHDATA1; serialize_uint8 len
               else if len <=? 0xffff then _ ← serialize_uint8 OP_PUSHDATA2; serialize_uint16 (wrap16 len)
               else _ ← serialize_uint8 OP_PUSHDATA4; serialize_uint32 (wrap32 len)) buf;
  '(_, buf) ← serialize_bytes (Some data) len buf;
  mret (tt, buf).

(** [*script] and [*scriptLen]; the block may be larger than the script. *)
Definition script_txo_generate (pubkey : uint160) : res (ptr * Z) :=
  '(_, buf) ← serialize_uint8 OP_DUP buff_alloc;
  '(_, buf) ← serialize_uint8 OP_HASH160 buf;
  '(_, buf) ← script_push_data pubkey buf;
  '(_, buf) ← serialize_uint8 OP_EQUALVERIFY buf;
  '(_, buf) ← serialize_uint8 OP_CHECKSIG buf;
  Ok (buff_base (Some buf), buff_curlen (Some buf)).
End parse.

(** ** Signing *)

(** The wallet's keys: [wallet_lookup_pubkey] finds a key by the hash of its
    public key, [key_sign] (OpenSSL ECDSA) makes a signature that [key_verify]
    accepts, or fails. *)
Class KeyRing `{Sha256} : Type := {
  key : Type;
  wallet_lookup_pubkey : uint160 -> option key;
  key_sign : key -> list byte -> option (list byte);
  key_verify : key -> list byte -> list byte -> bool;
  key_get_pubkey : key -> list byte;
  lookup_pubkey_hash : forall h k, wallet_lookup_pubkey h = Some k ->
    hash160_calc (key_get_pubkey k) = Ok h;
  key_sign_verify : forall k d sig, key_sign k d = Some sig -> key_verify k d sig = true;
  key_sign_length : forall k d sig, key_sign k d = Some sig -> Zlen sig < 2 ^ 20;
  key_pubkey_length : forall k, Zlen (key_get_pubkey k) < 2 ^ 20
}.

Section sign.
Context `{Malloc} `{KeyRing}.

(** [true] is the result 1; the script is appended to. *)
Definition script_sign_hash (keyHash : uint160) (hash : uint256) (hashType : Z) : ST buff bool :=
  match wallet_lookup_pubkey keyHash with
  | None => mret true
  | Some k =>
      match key_sign k hash with
      | None => mret true
      | Some sig =>
          _ ← lift (ASSERT (key_verify k hash sig));
          _ ← script_push_data (sig ++ [Z_byte hashType]);
          mret false
      end
  end.

Definition script_push_pubkey (keyHash : uint160) : ST buff bool :=
  match wallet_lookup_pubkey keyHash with
  | None => mret true
  | Some k => _ ← script_push_data (key_get_pubkey k); mret false
  end.

(** [tx2->tx_in[idx]] is updated after every scriptLength was zeroed. *)
Definition sighash_input (scriptPubKey : buff) (i : btc_msg_tx_in) : res btc_msg_tx_in :=
  let len := buff_maxlen (Some scriptPubKey) in
  _ ← ASSERT (0 <? len);
  _ ← ASSERT (bool_decide (ti_scriptSig i = None));
  _ ← ASSERT (ti_scriptLength i =? 0);
  s ← ptr_load (buff_base (Some scriptPubKey)) len;
  mret (TxIn (ti_prevTxHash i) (ti_prevTxOutIdx i) len (Some s) (ti_sequence i)).

Definition clear_input (i : btc_msg_tx_in) : btc_msg_tx_in :=
  TxIn (ti_prevTxHash i) (ti_prevTxOutIdx i) 0 (ti_scriptSig i) (ti_sequence i).

Definition script_tx_sighash (scriptPubKey : buff) (tx : btc_msg_tx) (idx : Z) (hashType : Z) :
    res uint256 :=
  _ ← ASSERT (idx <? tx_in_count tx);
  tx2 ← btc_msg_tx_dup tx;
  let ins := map clear_input (tx_in tx2) in
  i ← match ins !! Z.to_nat idx with Some i => Ok i | None => Fault UB end;
  i ← sighash_input scriptPubKey i;
  _ ← ASSERT (Z.land hashType 0x1f =? SIGHASH_ALL);
  let tx2 := Tx (tx_in_count tx2) (<[Z.to_nat idx := i]> ins) (tx_out_count tx2) (tx_out tx2)
                (tx_version tx2) (tx_lock_time tx2) in
  '(_, buf) ← serialize_tx tx2 buff_alloc;
  '(_, buf) ← serialize_uint32 hashType buf;
  d ← ptr_load (buff_base (Some buf)) (buff_curlen (Some buf));
  Ok (hash256_calc d).

(** The status, and the transaction with its input signed. *)
Definition script_sign (txo : btc_msg_tx_out) (tx : btc_msg_tx) (idx : Z) (hashType : Z) :
    res (bool * btc_msg_tx) :=
  _ ← ASSERT (idx <? tx_in_count tx);
  let scriptPubKey := buff_init (default [] (to_scriptPubKey txo)) (to_scriptLength txo) in
  d ← ptr_load (to_scriptPubKey txo) (to_scriptLength txo);
  _ ← log_bytes (Some (str "scriptPubKey:")) d;
  hash ← script_tx_sighash scriptPubKey tx idx hashType;
  '(m, _) ← script_match_type scriptPubKey;
  match m with
  | None => Ok (true, tx)
  | Some (TX_PUBKEYHASH, data, data_len) =>
      _ ← ASSERT (data_len =? 20);
      keyHash ← ptr_load data 20;
      '(res, scriptSig) ← script_sign_hash keyHash hash hashType buff_alloc;
      if (res : bool) then Ok (true, tx) else
      '(res, scriptSig) ← script_push_pubkey keyHash scriptSig;
      if (res : bool) then Ok (true, tx) else
      let sign_input i := TxIn (ti_prevTxHash i) (ti_prevTxOutIdx i) (buff_curlen (Some scriptSig))
                               (buff_base (Some scriptSig)) (ti_sequence i) in
      Ok (false, Tx (tx_in_count tx) (alter sign_input (Z.to_nat idx) (tx_in tx))
                    (tx_out_count tx) (tx_out tx) (tx_version tx) (tx_lock_time tx))
  | Some _ => Fault Panic
  end.
End sign.

(** ** What an instruction is on the wire *)

(** The opcode (and length bytes) announcing [n] bytes of data. *)
Inductive push_header : list byte -> Z -> Prop :=
| push_direct n : 0 <= n < OP_PUSHDATA1 -> push_header (le_bytes 1 n) n
| push_data1 n : u8 n -> push_header (le_bytes 1 OP_PUSHDATA1 ++ le_bytes 1 n) n
| push_data2 n : u16 n -> push_header (le_bytes 1 OP_PUSHDATA2 ++ le_bytes 2 n) n
| push_data4 n : u32 n -> push_header (le_bytes 1 OP_PUSHDATA4 ++ le_bytes 4 n) n.

(** [u] is the image of [i], whose data lies in [base]. *)
Inductive inst_ok (base : list byte) : script_inst -> list byte -> Prop :=
| inst_plain op :
    OP_PUSHDATA4 < op < 256 -> inst_ok base (Inst op None 0) (le_bytes 1 op)
| inst_push op hdr d off :
    push_header hdr (Zlen d) -> op <= OP_PUSHDATA4 -> mem_load base off (Zlen d) = Ok d ->
    inst_ok base (Inst op (Some off) (Zlen d)) (hdr ++ d).

Lemma push_header_pos hdr n : push_header hdr n -> 1 <= Zlen hdr <= 5.
Proof. destruct 1; zlen; lia. Qed.
Lemma push_header_u32 hdr n : push_header hdr n -> u32 n.
Proof. destruct 1; unfold OP_PUSHDATA1 in *; lia. Qed.

Lemma inst_ok_pos base i u : inst_ok base i u -> 1 <= Zlen u.
Proof. destruct 1 as [|? ? ? ? Hp]; [by zlen|]. apply push_header_pos in Hp. zlia. Qed.

Section parse_one.
Context `{Malloc}.
Implicit Types pre post : list byte.

Lemma safe_push_len post op :
  0 <= op < 256 ->
  safe_at post (script_push_len op) (fun r bs => r.1 = false ->
    match r.2 with
    | None => OP_PUSHDATA4 < op /\ bs = []
    | Some n => push_header (le_bytes 1 op ++ bs) n /\ op <= OP_PUSHDATA4
    end).
Proof.
  intros Hop. unfold script_push_len.
  destruct (Z.ltb_spec op OP_PUSHDATA1).
  { apply safe_ret. intros _. cbn. rewrite app_nil_r.
    split; [apply push_direct; lia|unfold OP_PUSHDATA1, OP_PUSHDATA4 in *; lia]. }
  destruct (Z.eqb_spec op OP_PUSHDATA1) as [->|]; [|destruct (Z.eqb_spec op OP_PUSHDATA2) as [->|];
    [|destruct (Z.eqb_spec op OP_PUSHDATA4) as [->|]]].
  - safe_step safe_uint8 as [r v] Hv. apply safe_ret. cbn. intros ->.
    apply int_read_ok in Hv as [Hv ->]. rewrite app_nil_r. split; [by apply push_data1|done].
  - safe_step safe_uint16 as [r v] Hv. apply safe_ret. cbn. intros ->.
    apply int_read_ok in Hv as [Hv ->]. rewrite app_nil_r. split; [by apply push_data2|done].
  - safe_step safe_uint32 as [r v] Hv. apply safe_ret. cbn. intros ->.
    apply int_read_ok in Hv as [Hv ->]. rewrite app_nil_r. split; [by apply push_data4|done].
  - apply safe_ret. cbn. intros _. unfold OP_PUSHDATA1, OP_PUSHDATA2, OP_PUSHDATA4 in *.
    split; [lia|done].
Qed.

Lemma parses_push_len hdr n :
  push_header hdr n -> exists op rest, hdr = le_bytes 1 op ++ rest /\ 0 <= op <= OP_PUSHDATA4 /\
    parses (script_push_len op) rest (false, Some n).
Proof.
  unfold OP_PUSHDATA4. destruct 1 as [n Hn|n Hn|n Hn|n Hn].
  - exists n, []. rewrite app_nil_r. unfold OP_PUSHDATA1 in *. split; [done|]. split; [lia|].
    unfold script_push_len, OP_PUSHDATA1. rewrite ltb_t by lia. apply parses_ret.
  - exists OP_PUSHDATA1, (le_bytes 1 n). split; [done|]. split; [done|]. by parse_last parses_uint8.
  - exists OP_PUSHDATA2, (le_bytes 2 n). split; [done|]. split; [done|]. by parse_last parses_uint16.
  - exists OP_PUSHDATA4, (le_bytes 4 n). split; [done|]. split; [done|]. by parse_last parses_uint32.
Qed.

(** The four things that can happen in front of [post]. *)
Inductive one_op_case (pre post : list byte) : res (one_op * buff) -> Prop :=
| case_done : post = [] -> one_op_case pre post (Ok (OpDone, rd pre post))
| case_error b : one_op_case pre post (Ok (OpError, b))
| case_panic n : push_header post n -> one_op_case pre post (Fault Panic)
| case_inst i u post' :
    post = u ++ post' -> inst_ok (pre ++ post) i u ->
    one_op_case pre post (Ok (OpInst i, rd (pre ++ u) post')).

Lemma script_parse_one_op_cases pre post :
  small pre post -> one_op_case pre post (script_parse_one_op (rd pre post)).
Proof.
  intros Hs. unfold script_parse_one_op.
  rewrite (st_bind_Ok _ _ _ _ _ (buff_space_left_rd _ _ Hs)).
  destruct (Z.eqb_spec (Zlen post) 0) as [Hz|Hz].
  { apply case_done. destruct post; [done|zlia]. }
  destruct (safe_uint8 post 0 pre Hs) as ([r op] & us & post1 & -> & E & Hop).
  rewrite (st_bind_Ok _ _ _ _ _ E). destruct r; [apply case_error|].
  apply int_read_ok in Hop as [Hop ->]. cbn in Hop.
  rewrite small_app in Hs.
  destruct (safe_push_len post1 op ltac:(lia) _ Hs) as ([r len] & us & post2 & -> & E2 & Hl).
  rewrite (st_bind_Ok _ _ _ _ _ E2). destruct r; [apply case_error|].
  specialize (Hl eq_refl). cbn in Hl. destruct len as [n|].
  2: { destruct Hl as [? ->]. cbn [app]. rewrite app_nil_r in *.
       apply case_inst; [done|]. constructor. lia. }
  destruct Hl as [Hp Hop']. rewrite small_app, <- app_assoc in Hs.
  set (hdr := le_bytes 1 op ++ us) in *.
  assert (Eh : (pre ++ le_bytes 1 op) ++ us = pre ++ hdr) by (unfold hdr; by rewrite app_assoc).
  rewrite Eh. pose proof (push_header_u32 _ _ Hp).
  unfold mbind at 1, st_bind at 1. rewrite buff_curptr_rd. case_decide as Hd.
  { subst post2. rewrite app_nil_r. apply case_panic with n. exact Hp. }
  replace (le_bytes 1 op ++ us ++ post2) with (hdr ++ post2) by (unfold hdr; by rewrite <- app_assoc).
  destruct (Z.leb_spec n (Zlen post2)) as [Hn|Hn].
  - destruct (split_bytes n post2) as (d & post3 & -> & <-); [lia|].
    rewrite (st_bind_Ok _ _ _ _ _ (buff_skip_rd _ _ _ Hs)). rewrite <- app_assoc.
    apply (case_inst pre _ _ (hdr ++ d) post3); [by rewrite <- app_assoc|].
    constructor; [done|lia|]. rewrite (app_assoc pre). apply mem_load_app.
  - rewrite (st_bind_Ok _ _ _ _ _ (buff_skip_short _ _ n Hs ltac:(lia))). apply case_error.
Qed.

(** And when it is a push with something after its header. *)
Lemma script_parse_one_op_push pre hdr d post :
  push_header hdr (Zlen d) -> d ++ post <> [] -> small pre (hdr ++ d ++ post) ->
  exists op, op <= OP_PUSHDATA4 /\ script_parse_one_op (rd pre (hdr ++ d ++ post)) =
    Ok (OpInst (Inst op (Some (Zlen (pre ++ hdr))) (Zlen d)), rd (pre ++ hdr ++ d) post).
Proof.
  intros Hp Hne Hs. destruct (parses_push_len _ _ Hp) as (op & rest & Eh & Hop & Hpl).
  exists op. split; [lia|]. unfold script_parse_one_op.
  rewrite (st_bind_Ok _ _ _ _ _ (buff_space_left_rd _ _ Hs)).
  pose proof (push_header_pos _ _ Hp). rewrite eqb_f by zlia.
  subst hdr. rewrite <- app_assoc in *. unfold OP_PUSHDATA4 in Hop.
  rewrite (st_bind_Ok _ _ _ _ _ (parses_uint8 0 op ltac:(lia) _ _ Hs)).
  rewrite small_app in Hs. rewrite (st_bind_Ok _ _ _ _ _ (Hpl _ _ Hs)).
  rewrite small_app in Hs. unfold mbind at 1, st_bind at 1.
  rewrite buff_curptr_rd, decide_False by done.
  rewrite (st_bind_Ok _ _ _ _ _ (buff_skip_rd _ _ _ Hs)). cbn. by rewrite <- !app_assoc.
Qed.

Lemma script_parse_one_op_plain pre op post :
  OP_PUSHDATA4 < op < 256 -> small pre (le_bytes 1 op ++ post) ->
  script_parse_one_op (rd pre (le_bytes 1 op ++ post)) =
    Ok (OpInst (Inst op None 0), rd (pre ++ le_bytes 1 op) post).
Proof.
  unfold OP_PUSHDATA4. intros Hop Hs. unfold script_parse_one_op.
  rewrite (st_bind_Ok _ _ _ _ _ (buff_space_left_rd _ _ Hs)). rewrite eqb_f by zlia.
  rewrite (st_bind_Ok _ _ _ _ _ (parses_uint8 0 op ltac:(lia) _ _ Hs)).
  unfold script_push_len, OP_PUSHDATA1, OP_PUSHDATA2, OP_PUSHDATA4.
  rewrite ltb_f by lia. rewrite !eqb_f by lia. done.
Qed.

(** *** The whole script *)

Definition script_wf (s : script) : Prop := Zlen (sc_inst s) < sc_max s.

Lemma script_add_spec s i :
  script_wf s -> exists s', script_add s i = Ok s' /\ script_wf s' /\ sc_inst s' = sc_inst s ++ [i].
Proof.
  unfold script_wf, script_add. intros Hw. rewrite ltb_t by done.
  unfold script_check_resize. cbn. pose_Zlen. zlen.
  destruct (Z.ltb_spec (Zlen (sc_inst s) + (1 + 0)) (sc_max s));
    eexists; (split; [done|]); cbn; zlen; split; (lia || done).
Qed.

Inductive parse_case (base : list byte) (s : script) (post : list byte) :
    res (option script * buff) -> Prop :=
| parse_error b : parse_case base s post (Ok (None, b))
| parse_panic us hdr n il :
    post = concat us ++ hdr -> push_header hdr n -> Forall2 (inst_ok base) il us ->
    parse_case base s post (Fault Panic)
| parse_ok us il s' b :
    post = concat us -> Forall2 (inst_ok base) il us -> sc_inst s' = sc_inst s ++ il ->
    b_base b = base -> parse_case base s post (Ok (Some s', b)).

Lemma script_parse_loop_cases fuel : forall s pre post,
  script_wf s -> small pre post -> (length post < fuel)%nat ->
  parse_case (pre ++ post) s post (script_parse_loop fuel s (rd pre post)).
Proof.
  induction fuel as [|fuel IH]; intros s pre post Hw Hs Hf; [lia|].
  cbn [script_parse_loop]. unfold mbind, st_bind.
  destruct (script_parse_one_op_cases pre post Hs) as [->|b|n Hp|i u post' -> Hi].
  - apply (parse_ok _ _ _ [] []); [done|constructor|by rewrite app_nil_r|done].
  - apply parse_error.
  - apply (parse_panic _ _ _ [] post n []); [done|done|constructor].
  - destruct (script_add_spec s i Hw) as (s' & Es & Hw' & Hs'). rewrite Es.
    unfold lift.
    pose proof (inst_ok_pos _ _ _ Hi) as Hpos. rewrite small_app in Hs.
    assert (Hf' : (length post' < fuel)%nat) by (rewrite length_app in Hf; unfold Zlen in Hpos; lia).
    specialize (IH s' (pre ++ u) post' Hw' Hs Hf'). rewrite <- app_assoc in IH.
    destruct IH as [b|us hdr n il -> Hp HF|us il s2 b -> HF Hs2 Hb].
    + apply parse_error.
    + apply (parse_panic _ _ _ (u :: us) hdr n (i :: il)); [cbn; by rewrite app_assoc|done|].
      by constructor.
    + apply (parse_ok _ _ _ (u :: us) (i :: il)); [done|by constructor| |done].
      by rewrite Hs2, Hs', <- app_assoc.
Qed.

Lemma script_parse_cases bs :
  Zlen bs < 2 ^ 62 ->
  parse_case bs script_alloc bs (script_parse (buff_init bs (Zlen bs))).
Proof.
  intros Hl. rewrite buff_init_rd. apply (script_parse_loop_cases _ script_alloc [] bs); [done| |].
  - by apply rd_init.
  - cbn. lia.
Qed.
End parse_one.

(** *** Classification *)

Lemma match_plain base i u op :
  inst_ok base i u -> script_inst_match i op = true -> op <> OP_PUBKEY -> op <> OP_PUBKEYHASH ->
  u = le_bytes 1 op.
Proof.
  intros Hi Hm H1 H2. unfold script_inst_match in Hm. rewrite !eqb_f in Hm by done.
  unfold script_inst_ispush in Hm. destruct Hi as [o Ho|o hdr d off _ Ho _]; cbn in Hm.
  - rewrite leb_f in Hm by lia. zbool. by subst.
  - by rewrite leb_t in Hm by lia.
Qed.

(** A push whose data a template wants. *)
Lemma match_push base i u op :
  inst_ok base i u -> script_inst_match i op = true -> op = OP_PUBKEY \/ op = OP_PUBKEYHASH ->
  exists o hdr d off, i = Inst o (Some off) (Zlen d) /\ u = hdr ++ d /\ push_header hdr (Zlen d) /\
    mem_load base off (Zlen d) = Ok d /\ (op = OP_PUBKEYHASH -> Zlen d = 20) /\
    (op = OP_PUBKEY -> 23 <= Zlen d <= 120).
Proof.
  intros Hi Hm Hop. destruct Hi as [o Ho|o hdr d off Hp Ho Hl].
  { unfold script_inst_match, script_inst_ispush in Hm. cbn in Hm. rewrite leb_f in Hm by lia.
    destruct Hop as [-> | ->]; discriminate. }
  exists o, hdr, d, off. do 4 (split; [done|]).
  unfold script_inst_match, script_inst_ispush in Hm. cbn in Hm. rewrite leb_t in Hm by lia.
  destruct Hop as [-> | ->]; cbn in Hm; (split; [|]); try done; intros _.
  - destruct ((Zlen d <? 23) || (120 <? Zlen d)) eqn:E; [done|]. zbool. lia.
  - destruct (Zlen d =? 20) eqn:E; [by zbool|done].
Qed.

Lemma Zlen_two {A} (l : list A) : Zlen l = 2 -> exists a b, l = [a; b].
Proof. destruct l as [|a [|b [|c l]]]; intros; zlen; pose_Zlen; [lia|lia|by exists a, b|lia]. Qed.
Lemma Zlen_five {A} (l : list A) : Zlen l = 5 -> exists a b c d e, l = [a; b; c; d; e].
Proof.
  destruct l as [|a [|b [|c [|d [|e [|f l]]]]]]; intros; zlen; pose_Zlen; try lia.
  by exists a, b, c, d, e.
Qed.

(** What the classifier's answer says of the script's bytes. *)
Lemma script_classify_spec base s us :
  Forall2 (inst_ok base) (sc_inst s) us ->
  match script_classify s with
  | TX_PUBKEY => exists o hdr d off, sc_inst s !! 0%nat = Some (Inst o (Some off) (Zlen d)) /\
      push_header hdr (Zlen d) /\ 23 <= Zlen d <= 120 /\ mem_load base off (Zlen d) = Ok d /\
      concat us = hdr ++ d ++ le_bytes 1 OP_CHECKSIG
  | TX_PUBKEYHASH => exists o hdr d off, sc_inst s !! 2%nat = Some (Inst o (Some off) (Zlen d)) /\
      push_header hdr (Zlen d) /\ Zlen d = 20 /\ mem_load base off (Zlen d) = Ok d /\
      concat us = le_bytes 1 OP_DUP ++ le_bytes 1 OP_HASH160 ++ hdr ++ d ++
                  le_bytes 1 OP_EQUALVERIFY ++ le_bytes 1 OP_CHECKSIG
  | type => type = TX_NONSTANDARD
  end.
Proof.
  intros HF. unfold script_classify, std_scripts. cbn [script_classify_loop].
  destruct (Z.eqb_spec (Zlen (sc_inst s)) (Zlen std_pubkey)) as [E|E]; cbn [negb].
  - destruct (Zlen_two _ E) as (i0 & i1 & Ei). rewrite Ei in *. clear E.
    apply Forall2_cons_inv_l in HF as (u0 & us0 & H0 & HF & ->).
    apply Forall2_cons_inv_l in HF as (u1 & us1 & H1 & HF & ->). apply Forall2_nil_inv_l in HF as ->.
    unfold script_match_all, std_pubkey.
    destruct (script_inst_match i0 OP_PUBKEY) eqn:M0; [|done].
    destruct (script_inst_match i1 OP_CHECKSIG) eqn:M1; [|done].
    apply (match_plain _ _ _ _ H1) in M1 as ->; [|done|done].
    apply (match_push _ _ _ _ H0) in M0 as (o & hdr & d & off & -> & -> & Hp & Hl & _ & Hr); [|by left].
    exists o, hdr, d, off. specialize (Hr eq_refl). cbn. rewrite app_nil_r, <- app_assoc. done.
  - destruct (Z.eqb_spec (Zlen (sc_inst s)) (Zlen std_pubkeyhash)) as [E'|E']; cbn [negb]; [|done].
    destruct (Zlen_five _ E') as (i0 & i1 & i2 & i3 & i4 & Ei). rewrite Ei in *. clear E E'.
    apply Forall2_cons_inv_l in HF as (u0 & us0 & H0 & HF & ->).
    apply Forall2_cons_inv_l in HF as (u1 & us1 & H1 & HF & ->).
    apply Forall2_cons_inv_l in HF as (u2 & us2 & H2 & HF & ->).
    apply Forall2_cons_inv_l in HF as (u3 & us3 & H3 & HF & ->).
    apply Forall2_cons_inv_l in HF as (u4 & us4 & H4 & HF & ->). apply Forall2_nil_inv_l in HF as ->.
    unfold script_match_all, std_pubkeyhash.
    destruct (script_inst_match i0 OP_DUP) eqn:M0; [|done].
    destruct (script_inst_match i1 OP_HASH160) eqn:M1; [|done].
    destruct (script_inst_match i2 OP_PUBKEYHASH) eqn:M2; [|done].
    destruct (script_inst_match i3 OP_EQUALVERIFY) eqn:M3; [|done].
    destruct (script_inst_match i4 OP_CHECKSIG) eqn:M4; [|done].
    apply (match_plain _ _ _ _ H0) in M0 as ->; [|done|done].
    apply (match_plain _ _ _ _ H1) in M1 as ->; [|done|done].
    apply (match_plain _ _ _ _ H3) in M3 as ->; [|done|done].
    apply (match_plain _ _ _ _ H4) in M4 as ->; [|done|done].
    apply (match_push _ _ _ _ H2) in M2 as (o & hdr & d & off & -> & -> & Hp & Hl & Hr & _); [|by right].
    exists o, hdr, d, off. specialize (Hr eq_refl). cbn. rewrite app_nil_r, <- !app_assoc. done.
Qed.

(** The bytes of the two standard output scripts. *)
Definition p2pkh_bytes (hdr h : list byte) : list byte :=
  le_bytes 1 OP_DUP ++ le_bytes 1 OP_HASH160 ++ hdr ++ h ++
  le_bytes 1 OP_EQUALVERIFY ++ le_bytes 1 OP_CHECKSIG.
Definition p2pk_bytes (hdr k : list byte) : list byte := hdr ++ k ++ le_bytes 1 OP_CHECKSIG.

Lemma script_parse_pubkey_hash_cases `{Malloc} `{Sha256} (bs : list byte) :
  Zlen bs < 2 ^ 62 ->
  match script_parse_pubkey_hash (Some bs) (Zlen bs) with
  | Ok (false, h) =>
      (exists hdr, push_header hdr 20 /\ is_uint160 h /\ bs = p2pkh_bytes hdr h) \/
      (exists hdr k, push_header hdr (Zlen k) /\ 23 <= Zlen k <= 120 /\
                     hash160_calc k = Ok h /\ bs = p2pk_bytes hdr k)
  | Ok (true, h) => h = uint160_zero_out
  | Fault Panic => exists pre hdr n, bs = pre ++ hdr /\ push_header hdr n
  | Fault UB => False
  end.
Proof.
  intros Hl. unfold script_parse_pubkey_hash, script_match_type. cbn [default from_option id].
  unfold mbind at 1, res_bind at 1. unfold mbind at 1, st_bind at 1.
  pose proof (script_parse_cases bs Hl) as Hc.
  destruct Hc as [b|us hdr n il -> Hp HF|us il s' b Eus HF Hs' Hb]; cbn.
  { done. } { by eexists _, _, _. }
  cbn in Hs'. subst il. pose proof (script_classify_spec bs s' us HF) as Hcl.
  destruct (script_classify s') eqn:Ec; try (by exfalso; done); cbn; try done.
  - destruct Hcl as (o & hdr & d & off & Hi & Hp & Hd & Hm & Eb). cbn.
    unfold mbind, st_bind, inst_copy. rewrite Hi. cbn. rewrite Hb, Hm. cbn.
    rewrite ptr_load_all. cbn. destruct (hash160_calc_length d) as (h & Eh & _). rewrite Eh. cbn.
    right. exists hdr, d. rewrite Eus, Eb. done.
  - destruct Hcl as (o & hdr & d & off & Hi & Hp & Hd & Hm & Eb). cbn.
    unfold mbind, st_bind, inst_copy. rewrite Hi. cbn. rewrite Hb, Hm. cbn.
    pose proof (ptr_load_all d) as Ep. rewrite Hd in Ep |- *.
    change (mem_load d 0 20 = Ok d) in Ep. cbn. rewrite Ep.
    cbn. left. exists hdr.
    rewrite Hd in Hp. split; [done|]. split; [unfold is_uint160, Zlen in *; lia|]. by rewrite Eus, Eb.
Qed.

(** C27: on any received output script script_parse_pubkey_hash answers
    correctly or stops. A hash is returned only for the bytes of a
    pay-to-pubkey-hash script (in any of the push forms) or, hashed, for those
    of a pay-to-pubkey script with a key of 23 to 120 bytes; other scripts give
    the error and the zero hash; and the process stops only on a script whose
    last bytes are a push opcode with nothing after it. *)
Theorem script_parse_pubkey_hash_sound `{Malloc} `{Sha256} (bs : list byte) :
  Zlen bs < 2 ^ 62 ->
  match script_parse_pubkey_hash (Some bs) (Zlen bs) with
  | Ok (false, h) =>
      (exists hdr, push_header hdr 20 /\ is_uint160 h /\ bs = p2pkh_bytes hdr h) \/
      (exists hdr k, push_header hdr (Zlen k) /\ 23 <= Zlen k <= 120 /\
                     hash160_calc k = Ok h /\ bs = p2pk_bytes hdr k)
  | Ok (true, h) => h = uint160_zero_out
  | Fault Panic => exists pre hdr n, bs = pre ++ hdr /\ push_header hdr n
  | Fault UB => False
  end.
Proof. exact (script_parse_pubkey_hash_cases bs). Qed.

Lemma script_parse_pubkey_hash_sound_witness :
  @script_parse_pubkey_hash zero_malloc toy_sha256 (Some [x51; x00]) 2 = Fault Panic /\
  exists pre hdr n, [x51; x00] = pre ++ hdr /\ push_header hdr n.
Proof.
  assert (E : @script_parse_pubkey_hash zero_malloc toy_sha256 (Some [x51; x00]) (Zlen [x51; x00]) = Fault Panic)
    by (vm_compute; reflexivity).
  split; [exact E|].
  pose proof (@script_parse_pubkey_hash_sound zero_malloc toy_sha256 [x51; x00] eq_refl) as HS.
  rewrite E in HS. exact HS.
Defined.

(** *** Standard scripts are recognised *)

Section complete.
Context `{Malloc}.

(** One step of the loop, on an instruction without and with data. *)
Lemma parse_loop_plain fuel s pre op post :
  OP_PUSHDATA4 < op < 256 -> script_wf s -> small pre (le_bytes 1 op ++ post) ->
  exists s', script_wf s' /\ sc_inst s' = sc_inst s ++ [Inst op None 0] /\
    script_parse_loop (S fuel) s (rd pre (le_bytes 1 op ++ post)) =
    script_parse_loop fuel s' (rd (pre ++ le_bytes 1 op) post).
Proof.
  intros Hop Hw Hs. destruct (script_add_spec s (Inst op None 0) Hw) as (s' & Es & Hw' & Hi).
  exists s'. split; [done|]. split; [done|]. cbn [script_parse_loop].
  rewrite (st_bind_Ok _ _ _ _ _ (script_parse_one_op_plain pre op post Hop Hs)).
  unfold mbind, st_bind, lift. by rewrite Es.
Qed.

Lemma parse_loop_push fuel s pre hdr d post :
  push_header hdr (Zlen d) -> d ++ post <> [] -> script_wf s -> small pre (hdr ++ d ++ post) ->
  exists s' op, op <= OP_PUSHDATA4 /\ script_wf s' /\
    sc_inst s' = sc_inst s ++ [Inst op (Some (Zlen (pre ++ hdr))) (Zlen d)] /\
    script_parse_loop (S fuel) s (rd pre (hdr ++ d ++ post)) =
    script_parse_loop fuel s' (rd (pre ++ hdr ++ d) post).
Proof.
  intros Hp Hne Hw Hs.
  destruct (script_parse_one_op_push pre hdr d post Hp Hne Hs) as (op & Hop & E).
  destruct (script_add_spec s (Inst op (Some (Zlen (pre ++ hdr))) (Zlen d)) Hw)
    as (s' & Es & Hw' & Hi).
  exists s', op. do 3 (split; [done|]). cbn [script_parse_loop].
  rewrite (st_bind_Ok _ _ _ _ _ E). unfold mbind, st_bind, lift. by rewrite Es.
Qed.

Lemma parse_loop_done fuel s pre :
  small pre [] -> script_parse_loop (S fuel) s (rd pre []) = Ok (Some s, rd pre []).
Proof.
  intros Hs. cbn [script_parse_loop]. unfold script_parse_one_op.
  unfold mbind, st_bind. by rewrite buff_space_left_rd.
Qed.

Lemma Zlen_p2pkh hdr h : Zlen (p2pkh_bytes hdr h) = 4 + Zlen hdr + Zlen h.
Proof. unfold p2pkh_bytes. zlia. Qed.

Lemma script_parse_p2pkh hdr h :
  push_header hdr 20 -> is_uint160 h ->
  exists s op base, script_parse (buff_init (p2pkh_bytes hdr h) (Zlen (p2pkh_bytes hdr h))) =
      Ok (Some s, rd base []) /\ base = p2pkh_bytes hdr h /\ op <= OP_PUSHDATA4 /\
    sc_inst s = [Inst OP_DUP None 0; Inst OP_HASH160 None 0; Inst op (Some (2 + Zlen hdr)) 20;
                 Inst OP_EQUALVERIFY None 0; Inst OP_CHECKSIG None 0].
Proof.
  intros Hp Hh. pose proof (push_header_pos _ _ Hp).
  assert (Hlh : Zlen h = 20) by (unfold is_uint160, Zlen in *; lia).
  pose proof (Zlen_p2pkh hdr h) as Hlen. rewrite buff_init_rd. unfold script_parse.
  cbn [rd b_base]. assert (exists f, S (length ([] ++ p2pkh_bytes hdr h)) = S (S (S (S (S (S f))))))
    as [f ->].
  { exists (length (p2pkh_bytes hdr h) - 5)%nat. cbn [app]. unfold Zlen in *. lia. }
  unfold p2pkh_bytes at 1. assert (Hsm : small [] (p2pkh_bytes hdr h)) by (unfold small; zlia).
  unfold p2pkh_bytes in Hsm.
  destruct (parse_loop_plain (S (S (S (S (S f))))) script_alloc [] OP_DUP _ ltac:(done) ltac:(done) Hsm)
    as (s1 & W1 & I1 & ->). rewrite small_app in Hsm.
  destruct (parse_loop_plain (S (S (S (S f)))) s1 _ OP_HASH160 _ ltac:(done) W1 Hsm)
    as (s2 & W2 & I2 & ->). rewrite small_app in Hsm. rewrite <- Hlh in Hp.
  destruct (parse_loop_push (S (S (S f))) s2 _ hdr h _ Hp ltac:(by destruct h) W2 Hsm)
    as (s3 & op & Hop & W3 & I3 & ->). rewrite (app_assoc hdr), small_app in Hsm.
  destruct (parse_loop_plain (S (S f)) s3 _ OP_EQUALVERIFY _ ltac:(done) W3 Hsm)
    as (s4 & W4 & I4 & ->). rewrite small_app in Hsm.
  rewrite <- (app_nil_r (le_bytes 1 OP_CHECKSIG)) in Hsm |- *.
  destruct (parse_loop_plain (S f) s4 _ OP_CHECKSIG _ ltac:(done) W4 Hsm)
    as (s5 & W5 & I5 & ->). rewrite small_app in Hsm.
  rewrite parse_loop_done by done. exists s5, op. eexists. split; [done|].
  split; [unfold p2pkh_bytes; by rewrite <- !app_assoc, ?app_nil_r|]. split; [done|].
  rewrite I5, I4, I3, I2, I1, Hlh. cbn. by zlen.
Qed.
End complete.

Lemma script_match_p2pkh `{Malloc} hdr h :
  push_header hdr 20 -> is_uint160 h ->
  exists b, script_match_type (buff_init (p2pkh_bytes hdr h) (Zlen (p2pkh_bytes hdr h))) =
    Ok (Some (TX_PUBKEYHASH, Some h, 20), b).
Proof.
  intros Hp Hh. destruct (script_parse_p2pkh hdr h Hp Hh) as (s & op & base & E & Eb & Hop & Ei).
  unfold OP_PUSHDATA4 in Hop.
  assert (Hlh : Zlen h = 20) by (unfold is_uint160, Zlen in *; lia).
  unfold script_match_type, mbind at 1, st_bind at 1. rewrite E.
  assert (script_classify s = TX_PUBKEYHASH) as ->.
  { unfold script_classify. cbn. rewrite Ei. cbn. unfold script_inst_match, script_inst_ispush. cbn.
    unfold OP_PUSHDATA4. by rewrite leb_t by lia. }
  unfold mbind at 1, st_bind at 1, inst_copy. rewrite Ei. cbn [lookup list_lookup si_data si_len].
  assert (mem_load (b_base (rd base [])) (2 + Zlen hdr) 20 = Ok h) as Em.
  { cbn [rd b_base]. rewrite app_nil_r, Eb. unfold p2pkh_bytes.
    pose proof (mem_load_app (le_bytes 1 OP_DUP ++ le_bytes 1 OP_HASH160 ++ hdr) h
      (le_bytes 1 OP_EQUALVERIFY ++ le_bytes 1 OP_CHECKSIG)) as Em.
    rewrite <- !app_assoc in Em. rewrite Hlh in Em. rewrite <- Em. f_equal. zlia. }
  rewrite Em. eexists. reflexivity.
Qed.

Lemma script_parse_p2pkh_hash `{Malloc} `{Sha256} hdr h :
  push_header hdr 20 -> is_uint160 h ->
  script_parse_pubkey_hash (Some (p2pkh_bytes hdr h)) (Zlen (p2pkh_bytes hdr h)) = Ok (false, h).
Proof.
  intros Hp Hh. destruct (script_match_p2pkh hdr h Hp Hh) as (b & E).
  assert (Hlh : Zlen h = 20) by (unfold is_uint160, Zlen in *; lia).
  unfold script_parse_pubkey_hash. cbn [default from_option id].
  unfold mbind at 1, res_bind at 1. rewrite E. pose proof (ptr_load_all h) as Ep. rewrite Hlh in Ep.
  transitivity (d ← ptr_load (Some h) 20; @Ok (bool * uint160) (false, d)); [done|]. by rewrite Ep.
Qed.

(** A pay-to-pubkey script. *)
Lemma script_parse_p2pk `{Malloc} hdr k :
  push_header hdr (Zlen k) -> 23 <= Zlen k <= 120 ->
  exists s op base, script_parse (buff_init (p2pk_bytes hdr k) (Zlen (p2pk_bytes hdr k))) = Ok (Some s, rd base []) /\
    base = p2pk_bytes hdr k /\ op <= OP_PUSHDATA4 /\ sc_inst s = [Inst op (Some (Zlen hdr)) (Zlen k); Inst OP_CHECKSIG None 0].
Proof.
  intros Hp Hk. pose proof (push_header_pos _ _ Hp). assert (Hlen : Zlen (p2pk_bytes hdr k) = 1 + Zlen hdr + Zlen k) by (unfold p2pk_bytes; zlia).
  rewrite buff_init_rd. unfold script_parse. cbn [rd b_base].
  assert (exists f, S (length ([] ++ p2pk_bytes hdr k)) = S (S (S f))) as [f ->].
  { exists (length (p2pk_bytes hdr k) - 2)%nat. cbn [app]. unfold Zlen in *. lia. }
  assert (Hsm : small [] (p2pk_bytes hdr k)) by (unfold small; zlia).
  unfold p2pk_bytes at 1. unfold p2pk_bytes in Hsm.
  destruct (parse_loop_push (S (S f)) script_alloc [] hdr k (le_bytes 1 OP_CHECKSIG) Hp ltac:(by destruct k) ltac:(done) Hsm)
    as (s1 & op & Hop & W1 & I1 & ->). rewrite (app_assoc hdr), small_app in Hsm.
  rewrite <- (app_nil_r (le_bytes 1 OP_CHECKSIG)) in Hsm |- *.
  destruct (parse_loop_plain (S f) s1 _ OP_CHECKSIG _ ltac:(done) W1 Hsm) as (s2 & W2 & I2 & ->). rewrite small_app in Hsm.
  rewrite parse_loop_done by done. exists s2, op. eexists. split; [done|].
  split; [unfold p2pk_bytes; by rewrite <- !app_assoc, ?app_nil_r|]. split; [done|]. rewrite I2, I1. cbn. by zlen.
Qed.

Lemma script_parse_p2pk_hash `{Malloc} `{Sha256} hdr k h :
  push_header hdr (Zlen k) -> 23 <= Zlen k <= 120 -> hash160_calc k = Ok h ->
  script_parse_pubkey_hash (Some (p2pk_bytes hdr k)) (Zlen (p2pk_bytes hdr k)) = Ok (false, h).
Proof.
  intros Hp Hk Eh. destruct (script_parse_p2pk hdr k Hp Hk) as (s & op & base & E & Eb & Hop & Ei). unfold OP_PUSHDATA4 in Hop.
  unfold script_parse_pubkey_hash, script_match_type. cbn [default from_option id].
  unfold mbind at 1, res_bind at 1. unfold mbind at 1, st_bind at 1. rewrite E.
  assert (script_classify s = TX_PUBKEY) as ->.
  { unfold script_classify. cbn. rewrite Ei. cbn. unfold script_inst_match, script_inst_ispush. cbn.
    unfold OP_PUSHDATA4. rewrite !leb_t by lia. cbn. by rewrite (ltb_f (Zlen k) 23), (ltb_f 120 (Zlen k)) by lia. }
  unfold mbind at 1, st_bind at 1, inst_copy. rewrite Ei. cbn [lookup list_lookup si_data si_len].
  assert (mem_load (b_base (rd base [])) (Zlen hdr) (Zlen k) = Ok k) as Em.
  { cbn [rd b_base]. rewrite app_nil_r, Eb. unfold p2pk_bytes. apply mem_load_app. }
  rewrite Em. cbn [mbind res_bind]. pose proof (ptr_load_all k) as Ep. cbn. rewrite Ep. cbn. by rewrite Eh.
Qed.

(** Every pay-to-pubkey-hash script is recognised and its hash returned,
    whichever of the four push forms announces the hash. *)
Theorem script_parse_pubkey_hash_complete `{Malloc} `{Sha256} (hdr : list byte) (h : uint160) :
  push_header hdr 20 -> is_uint160 h ->
  script_parse_pubkey_hash (Some (p2pkh_bytes hdr h)) (Zlen (p2pkh_bytes hdr h)) = Ok (false, h).
Proof. apply script_parse_p2pkh_hash. Qed.

Lemma script_parse_pubkey_hash_complete_witness :
  let s := p2pkh_bytes [x4e; x14; x00; x00; x00] (replicate 20 x2a) in
  @script_parse_pubkey_hash zero_malloc toy_sha256 (Some s) (Zlen s) = Ok (false, replicate 20 x2a).
Proof.
  apply (@script_parse_pubkey_hash_complete zero_malloc toy_sha256 [x4e; x14; x00; x00; x00]
    (replicate 20 x2a)); [exact (push_data4 20 ltac:(lia)) | reflexivity].
Defined.

(** *** Building scripts *)

Definition push_bytes (d : list byte) : list byte :=
  let n := Zlen d in
  (if n <? OP_PUSHDATA1 then le_bytes 1 n
   else if n <=? 0xff then le_bytes 1 OP_PUSHDATA1 ++ le_bytes 1 n
   else if n <=? 0xffff then le_bytes 1 OP_PUSHDATA2 ++ le_bytes 2 n
   else le_bytes 1 OP_PUSHDATA4 ++ le_bytes 4 n) ++ d.

Section build.
Context `{Malloc}.

Lemma push_bytes_header d :
  u32 (Zlen d) -> exists hdr, push_bytes d = hdr ++ d /\ push_header hdr (Zlen d).
Proof.
  intros Hd. unfold push_bytes. eexists. split; [done|].
  destruct (Z.ltb_spec (Zlen d) OP_PUSHDATA1); [by apply push_direct; lia|].
  destruct (Z.leb_spec (Zlen d) 0xff); [apply push_data1; lia|].
  destruct (Z.leb_spec (Zlen d) 0xffff); [apply push_data2; lia|apply push_data4; lia].
Qed.

Lemma script_push_data_spec d b :
  gwf b -> u32 (Zlen d) -> b_idx b + 5 + Zlen d <= size_max ->
  exists b', script_push_data d b = Ok (tt, b') /\ gwf b' /\ contents b' = contents b ++ push_bytes d.
Proof.
  intros Hb Hd Hm. unfold script_push_data. rewrite (gwf_grow b Hb). cbn [ASSERT mbind res_bind].
  unfold push_bytes. set (m := if Zlen d <? OP_PUSHDATA1 then _ else _).
  set (hb := if Zlen d <? OP_PUSHDATA1 then _ else _).
  assert (Hw : writes m hb).
  { unfold m, hb. destruct (Z.ltb_spec (Zlen d) OP_PUSHDATA1); [apply writes_int|].
    destruct (Z.leb_spec (Zlen d) 0xff); [|destruct (Z.leb_spec (Zlen d) 0xffff)];
      (apply writes_seq; [apply writes_int|]).
    - apply writes_int.
    - rewrite wrap16_small by lia. apply writes_int.
    - rewrite wrap32_small by lia. apply writes_int. }
  assert (Zlen hb <= 5).
  { unfold hb. destruct (_ <? _); [by zlen|]. destruct (_ <=? _); [by zlen|].
    destruct (_ <=? _); by zlen. }
  pose_Zlen. destruct (Hw b Hb) as (b1 & -> & Hb1 & Hc1); [lia|]. cbn [mbind res_bind].
  pose proof (contents_length _ Hb1) as Hl1. rewrite Hc1, Zlen_app, contents_length in Hl1 by done.
  destruct (writes_bytes d (Zlen d) eq_refl b1 Hb1) as (b2 & -> & Hb2 & Hc2); [lia|].
  exists b2. split; [done|]. split; [done|]. by rewrite Hc2, Hc1, <- app_assoc.
Qed.

(** Two writers run one after the other from a buffer. *)
Lemma writes_run m bs b :
  writes m bs -> gwf b -> b_idx b + Zlen bs <= size_max ->
  exists b', m b = Ok (false, b') /\ gwf b' /\ contents b' = contents b ++ bs /\
    b_idx b' = b_idx b + Zlen bs.
Proof.
  intros Hm Hb Hl. destruct (Hm b Hb Hl) as (b' & E & Hb' & Hc). exists b'. do 3 (split; [done|]).
  rewrite <- (contents_length _ Hb'), Hc, Zlen_app, contents_length by done. done.
Qed.

Lemma script_txo_generate_spec h :
  is_uint160 h -> exists rest, script_txo_generate h = Ok (Some (p2pkh_bytes (le_bytes 1 20) h ++ rest), 25).
Proof.
  intros Hh. assert (Hlh : Zlen h = 20) by (unfold is_uint160, Zlen in *; lia).
  unfold script_txo_generate, size_max in *.
  destruct (writes_run (serialize_uint8 OP_DUP) _ buff_alloc (writes_int _ _) gwf_alloc)
    as (b1 & -> & W1 & C1 & L1); [done|]. cbn [mbind res_bind].
  rewrite Zlen_le_bytes in L1. cbn in L1.
  destruct (writes_run (serialize_uint8 OP_HASH160) _ b1 (writes_int _ _) W1)
    as (b2 & -> & W2 & C2 & L2); [rewrite L1; done|]. cbn [mbind res_bind].
  rewrite Zlen_le_bytes, L1 in L2. cbn in L2.
  destruct (script_push_data_spec h b2 W2) as (b3 & -> & W3 & C3); [lia| |].
  { rewrite L2, Hlh. done. }
  cbn [mbind res_bind].
  assert (Hpb : push_bytes h = le_bytes 1 20 ++ h) by (unfold push_bytes; by rewrite Hlh).
  assert (L3 : b_idx b3 = 23).
  { rewrite <- (contents_length _ W3), C3, Hpb. zlen. rewrite contents_length, L2, Hlh by done. done. }
  destruct (writes_run (serialize_uint8 OP_EQUALVERIFY) _ b3 (writes_int _ _) W3)
    as (b4 & -> & W4 & C4 & L4); [rewrite L3; done|]. cbn [mbind res_bind].
  rewrite Zlen_le_bytes, L3 in L4. cbn in L4.
  destruct (writes_run (serialize_uint8 OP_CHECKSIG) _ b4 (writes_int _ _) W4)
    as (b5 & -> & W5 & C5 & L5); [rewrite L4; done|]. cbn [mbind res_bind].
  rewrite Zlen_le_bytes, L4 in L5. cbn in L5.
  exists (drop (Z.to_nat (b_idx b5)) (b_base b5)).
  change (buff_base (Some b5)) with (Some (b_base b5)). change (buff_curlen (Some b5)) with (b_idx b5).
  rewrite (contents_split b5 W5) at 1. do 3 f_equal; [|by rewrite L5].
  rewrite C5, C4, C3, C2, C1, Hpb, contents_alloc. unfold p2pkh_bytes. cbn [app].
  by rewrite <- !app_assoc.
Qed.
End build.

(** The script generated for a pubkey hash is the 25-byte
    pay-to-pubkey-hash script, and script_parse_pubkey_hash finds the hash in it. *)
Theorem script_txo_roundtrip `{Malloc} `{Sha256} (h : uint160) :
  is_uint160 h ->
  exists m, script_txo_generate h = Ok (Some m, 25) /\
    take 25 m = p2pkh_bytes (le_bytes 1 20) h /\
    script_parse_pubkey_hash (Some (take 25 m)) 25 = Ok (false, h).
Proof.
  intros Hh. destruct (script_txo_generate_spec h Hh) as (rest & E).
  eexists. split; [exact E|].
  assert (Hl : length (p2pkh_bytes (le_bytes 1 20) h) = 25%nat).
  { pose proof (Zlen_p2pkh (le_bytes 1 20) h) as Hl. unfold is_uint160, Zlen in *.
    rewrite length_le_bytes in Hl. lia. }
  rewrite take_app_length' by done. split; [done|].
  replace 25 with (Zlen (p2pkh_bytes (le_bytes 1 20) h)) by (unfold Zlen; lia).
  apply script_parse_p2pkh_hash; [by apply push_direct | done].
Qed.

Lemma script_txo_roundtrip_witness :
  exists m, @script_txo_generate zero_malloc (replicate 20 x2a) = Ok (Some m, 25) /\
    @script_parse_pubkey_hash zero_malloc toy_sha256 (Some (take 25 m)) 25
      = Ok (false, replicate 20 x2a).
Proof.
  destruct (@script_txo_roundtrip zero_malloc toy_sha256 (replicate 20 x2a)) as (m & E & _ & E');
    [reflexivity | eauto].
Defined.

(** A script that consists of a push opcode alone stops the process,
    even OP_0, which pushes nothing and is complete: buff_curptr refuses the end
    of the buffer. *)
Theorem script_lone_push_panics `{Malloc} `{Sha256} (hdr : list byte) (n : Z) :
  push_header hdr n -> script_parse_pubkey_hash (Some hdr) (Zlen hdr) = Fault Panic.
Proof.
  intros Hp. pose proof (push_header_pos _ _ Hp) as Hl. pose proof (push_header_u32 _ _ Hp).
  destruct (parses_push_len _ _ Hp) as (op & rest & Eh & Hop & Hpl). unfold OP_PUSHDATA4 in Hop.
  assert (Hs : small [] hdr) by (unfold small; zlia).
  unfold script_parse_pubkey_hash, script_match_type, script_parse. rewrite buff_init_rd.
  cbn [script_parse_loop default from_option id]. unfold mbind at 1, res_bind at 1.
  unfold mbind at 1, st_bind at 1. unfold mbind at 1, st_bind at 1. unfold script_parse_one_op.
  rewrite (st_bind_Ok _ _ _ _ _ (buff_space_left_rd _ _ Hs)). rewrite eqb_f by lia.
  subst hdr. rewrite (st_bind_Ok _ _ _ _ _ (parses_uint8 0 op ltac:(lia) _ _ Hs)).
  rewrite small_app in Hs. rewrite <- (app_nil_r rest) in Hs |- *.
  rewrite (st_bind_Ok _ _ _ _ _ (Hpl _ _ Hs)).
  unfold mbind at 1, st_bind at 1. by rewrite buff_curptr_rd.
Qed.

(** The output script OP_0. *)
Lemma script_lone_push_panics_witness :
  @script_parse_pubkey_hash zero_malloc toy_sha256 (Some [x00]) 1 = Fault Panic.
Proof.
  apply (@script_lone_push_panics zero_malloc toy_sha256 [x00] 0). exact (push_direct 0 ltac:(done)).
Defined.

(** *** Signing *)

Definition with_script (s : list byte) (i : btc_msg_tx_in) : btc_msg_tx_in :=
  TxIn (ti_prevTxHash i) (ti_prevTxOutIdx i) (Zlen s) (Some s) (ti_sequence i).

(** The transaction SIGHASH_ALL signs for input [idx]: every script empty but
    that input's, which is the script being spent. *)
Definition sighash_tx (tx : btc_msg_tx) (idx : Z) (spk : list byte) : btc_msg_tx :=
  Tx (tx_in_count tx) (alter (with_script spk) (Z.to_nat idx) (map (with_script []) (tx_in tx)))
     (tx_out_count tx) (tx_out tx) (tx_version tx) (tx_lock_time tx).

Definition sighash_preimage (tx : btc_msg_tx) (idx : Z) (spk : list byte) (hashType : Z) : list byte :=
  tx_bytes (sighash_tx tx idx spk) ++ le_bytes 4 hashType.

Section sighash.
Context `{Malloc}.

Lemma writes_array2 {A} (body : A -> ST buff bool) xs bss n :
  n = Zlen xs -> Forall2 (fun x bs => writes (body x) bs) xs bss ->
  writes (serialize_array body (Z.to_nat n) xs) (concat bss).
Proof.
  intros -> HF. rewrite to_nat_Zlen.
  induction HF; cbn; [apply writes_nil | by apply writes_or].
Qed.

Lemma writes_txin_as h i len p q s :
  ptr_load p len = Ok s -> len = Zlen s -> is_uint256 h ->
  writes (serialize_txin (TxIn h i len p q)) (tx_in_bytes (TxIn h i (Zlen s) (Some s) q)).
Proof.
  intros Hp -> Hh. repeat apply writes_or; cbn; eauto using writes_uint256, writes_int, writes_varint.
  by apply writes_copy.
Qed.

Lemma writes_txout_dup o p :
  tx_out_loaded o -> dup_script (to_scriptPubKey o) (to_scriptLength o) = Ok p ->
  writes (serialize_txout (TxOut (to_value o) (to_scriptLength o) p)) (tx_out_bytes o).
Proof.
  intros (_ & s & Es & El) Hd. destruct o as [v l q]; cbn in *. subst q l.
  unfold dup_script in Hd. repeat apply writes_or; cbn; eauto using writes_int, writes_varint.
  apply writes_copy. destruct (Z.ltb_spec 0 (Zlen s)).
  - rewrite ptr_load_all in Hd. cbn in Hd. injection Hd as <-. apply ptr_load_all.
  - injection Hd as <-. by destruct s; [|zlia].
Qed.

(** A duplicated input keeps its outpoint and sequence; its script is NULL
    when it was empty. *)
Definition input_copy (i j : btc_msg_tx_in) : Prop :=
  ti_prevTxHash j = ti_prevTxHash i /\ ti_prevTxOutIdx j = ti_prevTxOutIdx i /\
  ti_sequence j = ti_sequence i /\ (ti_scriptLength i = 0 -> ti_scriptSig j = None).
Definition output_copy (o p : btc_msg_tx_out) : Prop :=
  writes (serialize_txout p) (tx_out_bytes o).

Lemma btc_msg_tx_dup_spec tx :
  tx_loaded tx ->
  exists ins outs, btc_msg_tx_dup tx = Ok (Tx (tx_in_count tx) ins (tx_out_count tx) outs
                     (tx_version tx) (tx_lock_time tx)) /\
    Forall2 input_copy (tx_in tx) ins /\ Forall2 output_copy (tx_out tx) outs.
Proof.
  intros ([Hni Hno] & _ & _ & Hin & Hout). unfold btc_msg_tx_dup.
  match goal with |- context [dup_array ?f (Z.to_nat (tx_in_count tx))] =>
    destruct (dup_array_spec f input_copy (tx_in tx) (tx_in_count tx) Hni) as (ins & -> & HFi) end.
  { eapply Forall_impl; [exact Hin|]. intros i (_ & _ & _ & Hs).
    destruct (dup_script_spec _ _ Hs) as (q & -> & _ & Hz & _). cbn.
    eexists. split; [done|]. repeat split; cbn; auto. }
  cbn [mbind res_bind].
  match goal with |- context [dup_array ?f (Z.to_nat (tx_out_count tx))] =>
    destruct (dup_array_spec f output_copy (tx_out tx) (tx_out_count tx) Hno) as (outs & -> & HFo) end.
  { eapply Forall_impl; [exact Hout|]. intros o Ho.
    destruct (dup_script_spec _ _ (proj2 Ho)) as (q & Eq & _). rewrite Eq. cbn.
    eexists. split; [done|]. by apply writes_txout_dup. }
  by exists ins, outs.
Qed.

Context `{Sha256}.

Lemma sighash_inputs tx ins idx i0 spk :
  Forall tx_in_loaded (tx_in tx) -> Forall2 input_copy (tx_in tx) ins ->
  tx_in tx !! Z.to_nat idx = Some i0 ->
  Forall2 (fun x bs => writes (serialize_txin x) bs)
    (<[Z.to_nat idx := with_script spk i0]> (map clear_input ins))
    (map tx_in_bytes (alter (with_script spk) (Z.to_nat idx) (map (with_script []) (tx_in tx)))).
Proof.
  intros Hin HF Hi0. apply Forall2_fmap_r. rewrite list_insert_alter. apply Forall2_alter.
  - apply Forall2_fmap. clear Hi0. induction HF as [|i j li lj (H1 & H2 & H3 & H4) HF IH]; [done|].
    inversion Hin as [|? ? (Hh & _)]; subst. constructor; [|by apply IH].
    unfold clear_input, with_script. rewrite H1, H2, H3. by apply writes_txin_as.
  - intros x y _ Hy _. rewrite list_lookup_fmap, Hi0 in Hy. cbn in Hy. injection Hy as <-.
    destruct (Forall_lookup_1 _ _ _ _ Hin Hi0) as (Hh & _).
    unfold with_script. cbn. apply writes_txin_as; [apply ptr_load_all|done|done].
Qed.

Lemma script_tx_sighash_spec tx idx spk hashType i0 :
  tx_loaded tx -> 0 <= idx < tx_in_count tx ->
  tx_in tx !! Z.to_nat idx = Some i0 -> ti_scriptLength i0 = 0 ->
  0 < Zlen spk -> Z.land hashType 0x1f = SIGHASH_ALL ->
  Zlen (sighash_preimage tx idx spk hashType) <= size_max ->
  script_tx_sighash (buff_init spk (Zlen spk)) tx idx hashType =
    Ok (hash256_calc (sighash_preimage tx idx spk hashType)).
Proof.
  intros Hload Hidx Hi0 Hl0 Hspk Hht Hsz. unfold script_tx_sighash, ASSERT.
  rewrite ltb_t by lia. cbn [mbind res_bind].
  destruct (btc_msg_tx_dup_spec tx Hload) as (ins & outs & -> & HFi & HFo). cbn [mbind res_bind tx_in].
  destruct (Forall2_lookup_l _ _ _ _ _ HFi Hi0) as (j & Hj & Hj1 & Hj2 & Hj3 & Hj4).
  rewrite list_lookup_fmap, Hj. cbn [fmap option_fmap option_map mbind res_bind].
  assert (sighash_input (buff_init spk (Zlen spk)) (clear_input j) = Ok (with_script spk i0)) as ->.
  { unfold sighash_input. cbn. unfold ASSERT. rewrite ltb_t by lia. cbn.
    rewrite bool_decide_eq_true_2 by auto. cbn -[ptr_load]. rewrite ptr_load_all. cbn.
    unfold with_script. by rewrite Hj1, Hj2, Hj3. }
  cbn [mbind res_bind]. rewrite Hht. cbn [Z.eqb SIGHASH_ALL Pos.eqb].
  destruct Hload as ([Hni Hno] & Hv & Hlt & Hin & Hout). cbn [tx_in_count tx_out_count tx_out tx_version tx_lock_time].
  set (tx2 := Tx _ _ _ _ _ _).
  assert (Hw : writes (serialize_tx tx2) (tx_bytes (sighash_tx tx idx spk))).
  { repeat apply writes_or; cbn; eauto using writes_int, writes_varint.
    - apply writes_array2.
      { rewrite Hni. unfold Zlen. rewrite length_insert, length_map.
        by rewrite (Forall2_length _ _ _ HFi). }
      by apply sighash_inputs.
    - apply writes_array2; [by rewrite Hno; unfold Zlen; rewrite (Forall2_length _ _ _ HFo)|].
      apply Forall2_fmap_r, Forall2_flip. exact HFo. }
  unfold sighash_preimage in *. zlen. pose_Zlen.
  destruct (writes_run _ _ buff_alloc Hw gwf_alloc) as (b1 & -> & W1 & C1 & L1); [cbn; lia|].
  cbn [mbind res_bind]. cbn in L1.
  destruct (writes_run (serialize_uint32 hashType) _ b1 (writes_int _ _) W1)
    as (b2 & -> & W2 & C2 & L2); [rewrite Zlen_le_bytes; lia|]. cbn [mbind res_bind].
  change (buff_base (Some b2)) with (Some (b_base b2)). change (buff_curlen (Some b2)) with (b_idx b2).
  rewrite (contents_split b2 W2) at 1. rewrite <- (contents_length _ W2), ptr_load_prefix.
  cbn [mbind res_bind]. by rewrite C2, C1, contents_alloc.
Qed.
End sighash.

Section signing.
Context `{Malloc} `{KeyRing}.

(** What script_sign appends for the key found and its signature. *)
Definition scriptsig_bytes (sig pubkey : list byte) (hashType : Z) : list byte :=
  push_bytes (sig ++ [Z_byte hashType]) ++ push_bytes pubkey.

Lemma push_bytes_length d : Zlen (push_bytes d) <= 5 + Zlen d.
Proof.
  unfold push_bytes. repeat case_match; zlia.
Qed.

Lemma script_sign_hash_spec h k hash sig hashType :
  wallet_lookup_pubkey h = Some k -> key_sign k hash = Some sig ->
  exists b, script_sign_hash h hash hashType buff_alloc = Ok (false, b) /\ gwf b /\
    contents b = push_bytes (sig ++ [Z_byte hashType]).
Proof.
  intros Hk Hsig. unfold script_sign_hash. rewrite Hk, Hsig.
  rewrite (key_sign_verify _ _ _ Hsig). unfold mbind at 1, st_bind at 1. cbn [ASSERT lift].
  pose proof (key_sign_length _ _ _ Hsig) as Hl. pose_Zlen.
  destruct (script_push_data_spec (sig ++ [Z_byte hashType]) buff_alloc gwf_alloc)
    as (b & E & Hb & Hc); [zlia | cbn; unfold size_max; zlia |].
  exists b. unfold mbind, st_bind. rewrite E. by rewrite Hc, contents_alloc.
Qed.

Lemma script_push_pubkey_spec h k b bs :
  wallet_lookup_pubkey h = Some k -> gwf b -> contents b = bs -> Zlen bs < 2 ^ 30 ->
  exists b', script_push_pubkey h b = Ok (false, b') /\ gwf b' /\
    contents b' = bs ++ push_bytes (key_get_pubkey k).
Proof.
  intros Hk Hb Hc Hl. unfold script_push_pubkey. rewrite Hk.
  pose proof (key_pubkey_length k) as Hl'. pose_Zlen.
  pose proof (contents_length _ Hb) as Hi. rewrite Hc in Hi.
  destruct (script_push_data_spec (key_get_pubkey k) b Hb) as (b' & E & Hb' & Hc');
    [lia | unfold size_max; lia |].
  exists b'. unfold mbind, st_bind. rewrite E. by rewrite Hc', Hc.
Qed.
End signing.

(** C39: script_sign on a pay-to-pubkey-hash output: with the wallet's key for
    the hash, the input's script becomes a push of a signature of the
    transaction's SIGHASH_ALL digest (which the key verifies) with the hash
    type, and a push of a public key whose hash is the one the output asks for:
    what the output script checks. Nothing else of the transaction changes, and
    without the key, or when signing fails, nothing does. *)
Theorem script_sign_valid `{Malloc} `{KeyRing} (v : Z) (hdr : list byte) (h : uint160)
    (tx : btc_msg_tx) (idx hashType : Z) (i0 : btc_msg_tx_in) :
  let spk := p2pkh_bytes hdr h in
  let txo := TxOut v (Zlen spk) (Some spk) in
  let hash := hash256_calc (sighash_preimage tx idx spk hashType) in
  push_header hdr 20 -> is_uint160 h -> tx_loaded tx -> 0 <= idx < tx_in_count tx ->
  tx_in tx !! Z.to_nat idx = Some i0 -> ti_scriptLength i0 = 0 ->
  Z.land hashType 0x1f = SIGHASH_ALL -> Zlen (sighash_preimage tx idx spk hashType) <= size_max ->
  match wallet_lookup_pubkey h with
  | None => script_sign txo tx idx hashType = Ok (true, tx)
  | Some k =>
      match key_sign k hash with
      | None => script_sign txo tx idx hashType = Ok (true, tx)
      | Some sig => exists m,
          let s := scriptsig_bytes sig (key_get_pubkey k) hashType in
          script_sign txo tx idx hashType =
            Ok (false, Tx (tx_in_count tx)
              (alter (fun i => TxIn (ti_prevTxHash i) (ti_prevTxOutIdx i) (Zlen s) (Some (s ++ m))
                                    (ti_sequence i)) (Z.to_nat idx) (tx_in tx))
              (tx_out_count tx) (tx_out tx) (tx_version tx) (tx_lock_time tx)) /\
          key_verify k hash sig = true /\ hash160_calc (key_get_pubkey k) = Ok h
      end
  end.
Proof.
  intros spk txo hash Hp Hh Hload Hidx Hi0 Hl0 Hht Hsz.
  pose proof (push_header_pos _ _ Hp) as Hph. pose proof (Zlen_p2pkh hdr h) as Hlen.
  assert (Hlh : Zlen h = 20) by (unfold is_uint160, Zlen in *; lia). fold spk in Hlen.
  unfold script_sign. unfold txo. cbn [to_scriptPubKey to_scriptLength default from_option id].
  unfold ASSERT at 1. rewrite ltb_t by lia. rewrite ptr_load_all. cbn [mbind res_bind].
  destruct (str_snprintf_bytes_total 16384 (Some (str "scriptPubKey:")) spk) as (ls & Els).
  { right. change (pfx_len (Some (str "scriptPubKey:"))) with 13. lia. }
  unfold log_bytes. rewrite Els. cbn [mbind res_bind].
  rewrite (script_tx_sighash_spec tx idx spk hashType i0) by (done || lia). fold hash.
  cbn [mbind res_bind]. destruct (script_match_p2pkh hdr h Hp Hh) as (b & Em). fold spk in Em.
  rewrite Em. cbn [mbind res_bind]. change (20 =? 20) with true. cbn [ASSERT mbind res_bind].
  pose proof (ptr_load_all h) as Ep. rewrite Hlh in Ep. rewrite Ep. cbn [mbind res_bind].
  destruct (wallet_lookup_pubkey h) as [k|] eqn:Ek.
  2: { unfold script_sign_hash. by rewrite Ek. }
  destruct (key_sign k hash) as [sig|] eqn:Es.
  2: { unfold script_sign_hash. by rewrite Ek, Es. }
  destruct (script_sign_hash_spec h k hash sig hashType Ek Es) as (b1 & -> & W1 & C1).
  cbn [mbind res_bind]. pose proof (key_sign_length _ _ _ Es) as Hsl.
  destruct (script_push_pubkey_spec h k b1 _ Ek W1 C1) as (b2 & -> & W2 & C2).
  { pose proof (push_bytes_length (sig ++ [Z_byte hashType])). zlia. }
  cbn [mbind res_bind]. fold (scriptsig_bytes sig (key_get_pubkey k) hashType) in C2.
  exists (drop (Z.to_nat (b_idx b2)) (b_base b2)). cbn zeta.
  change (buff_base (Some b2)) with (Some (b_base b2)). change (buff_curlen (Some b2)) with (b_idx b2).
  rewrite <- C2, (contents_length _ W2). rewrite <- (contents_split b2 W2).
  split; [done|]. split; [by apply key_sign_verify | by apply lookup_pubkey_hash].
Qed.

(** A wallet of one key, whose signature is the digest itself. *)
Definition toy_pubkey : list byte := replicate 33 x02.
Definition toy_pubkey_hash : uint160 := Eval vm_compute in
  match @hash160_calc toy_sha256 toy_pubkey with Ok h => h | Fault _ => [] end.

Definition toy_keyring : @KeyRing toy_sha256.
Proof.
  refine {| key := unit;
    wallet_lookup_pubkey := fun h => if bool_decide (h = toy_pubkey_hash) then Some tt else None;
    key_sign := fun _ d => Some (take 32 d);
    key_verify := fun _ d sig => bool_decide (sig = take 32 d);
    key_get_pubkey := fun _ => toy_pubkey |}.
  - intros h k. case_bool_decide; [|done]. subst. intros _. vm_compute. reflexivity.
  - intros _ d sig [= <-]. by apply bool_decide_eq_true_2.
  - intros _ d sig [= <-]. unfold Zlen. rewrite length_take. lia.
  - intros _. reflexivity.
Defined.

Definition unsigned_tx : btc_msg_tx :=
  Tx 1 [TxIn (replicate 32 x11) 0 0 (Some []) 0xffffffff] 1 [TxOut 1000 1 (Some [x51])] 1 0.

Lemma unsigned_tx_loaded : tx_loaded unsigned_tx.
Proof.
  unfold tx_loaded, tx_shape, unsigned_tx; cbn [tx_in_count tx_in tx_out_count tx_out tx_version tx_lock_time].
  split_and!; try (reflexivity || lia).
  - repeat constructor; cbn; try lia. by exists [].
  - repeat constructor; cbn; try lia. by exists [x51].
Qed.

Lemma script_sign_valid_witness :
  let spk := p2pkh_bytes [x14] toy_pubkey_hash in
  exists tx', @script_sign zero_malloc toy_sha256 toy_keyring (TxOut 5000 (Zlen spk) (Some spk))
    unsigned_tx 0 SIGHASH_ALL = Ok (false, tx').
Proof.
  pose proof (@script_sign_valid zero_malloc toy_sha256 toy_keyring 5000 [x14] toy_pubkey_hash unsigned_tx
    0 SIGHASH_ALL (TxIn (replicate 32 x11) 0 0 (Some []) 0xffffffff)) as HS.
  assert (El : @wallet_lookup_pubkey toy_sha256 toy_keyring toy_pubkey_hash = Some tt)
    by (vm_compute; reflexivity).
  rewrite El in HS. cbv zeta in HS |- *.
  change (@key_sign toy_sha256 toy_keyring tt ?d) with (Some (take 32 d)) in HS.
  destruct HS as (m & E & _).
  - exact (push_direct 20 ltac:(done)).
  - vm_compute. reflexivity.
  - apply unsigned_tx_loaded.
  - cbn. lia.
  - reflexivity.
  - reflexivity.
  - reflexivity.
  - vm_compute. discriminate.
  - eexists. exact E.
Defined.
