(* ===== verification/Gcs.v ===== *)
(** * Compact block filters (core/gcs.c)

    SipHash-2-4, the bit reader, Golomb-Rice decoding and the BIP158 membership
    test. Reads of the filter's block are checked ([UB] outside it), and so are
    the signed 64-bit sums; that neither ever happens is proved. *)
From stdpp Require Import sorting.
From S2P Require Export Messages.

(** A signed 64-bit result: overflow is undefined behaviour. *)
Definition i64 (z : Z) : res Z := if (- 2 ^ 63 <=? z) && (z <? 2 ^ 63) then Ok z else Fault UB.

(** ** SipHash-2-4 *)

Definition ROTL64 (x b : Z) : Z := Z.lor (wrap64 (Z.shiftl x b)) (Z.shiftr x (64 - b)).

Record siphash_state : Type := Sip { v0 : Z; v1 : Z; v2 : Z; v3 : Z }.

Definition SIPROUND (s : siphash_state) : siphash_state :=
  let v0 := wrap64 (v0 s + v1 s) in let v1 := Z.lxor (ROTL64 (v1 s) 13) v0 in
  let v0 := ROTL64 v0 32 in
  let v2 := wrap64 (v2 s + v3 s) in let v3 := Z.lxor (ROTL64 (v3 s) 16) v2 in
  let v0 := wrap64 (v0 + v3) in let v3 := Z.lxor (ROTL64 v3 21) v0 in
  let v2 := wrap64 (v2 + v1) in let v1 := Z.lxor (ROTL64 v1 17) v2 in
  let v2 := ROTL64 v2 32 in
  Sip v0 v1 v2 v3.

(** [s.v3 ^= m; SIPROUND; SIPROUND; s.v0 ^= m] *)
Definition sip_block (s : siphash_state) (m : Z) : siphash_state :=
  let s := SIPROUND (SIPROUND (Sip (v0 s) (v1 s) (v2 s) (Z.lxor (v3 s) m))) in
  Sip (Z.lxor (v0 s) m) (v1 s) (v2 s) (v3 s).

(** The blocks of eight bytes, then the tail of at most seven. *)
Fixpoint sip_body (s : siphash_state) (data : list byte) : siphash_state * list byte :=
  match data with
  | b0 :: b1 :: b2 :: b3 :: b4 :: b5 :: b6 :: b7 :: rest =>
      sip_body (sip_block s (le_Z [b0; b1; b2; b3; b4; b5; b6; b7])) rest
  | tail => (s, tail)
  end.

Definition siphash_2_4 (key data : list byte) : Z :=
  let k0 := le_Z (take 8 key) in
  let k1 := le_Z (take 8 (drop 8 key)) in
  let s := Sip (Z.lxor 0x736f6d6570736575 k0) (Z.lxor 0x646f72616e646f6d k1)
               (Z.lxor 0x6c7967656e657261 k0) (Z.lxor 0x7465646279746573 k1) in
  let '(s, tail) := sip_body s data in
  let b := Z.lor (wrap64 (Z.shiftl (Z.land (Zlen data) 0xff) 56)) (le_Z tail) in
  let s := sip_block s b in
  let s := Sip (v0 s) (v1 s) (Z.lxor (v2 s) 0xff) (v3 s) in
  let s := SIPROUND (SIPROUND (SIPROUND (SIPROUND s))) in
  Z.lxor (Z.lxor (Z.lxor (v0 s) (v1 s)) (v2 s)) (v3 s).

Definition gcs_self_test : bool :=
  let key := map (fun n => Z_byte (Z.of_nat n)) (seq 0 16) in
  let data := map (fun n => Z_byte (Z.of_nat n)) (seq 0 15) in
  siphash_2_4 key data =? 0xa129ca6149be45e5.

(** ** Bit reader *)

Record bit_reader : Type := BitReader {
  br_data : list byte; br_byte_pos : nat; br_bit_pos : Z; br_exhausted : bool }.

Definition bit_reader_init (data : list byte) : bit_reader :=
  BitReader data 0 7 (Zlen data =? 0).

(** [-1] is an exhausted reader. *)
Definition bit_reader_read_bit : ST bit_reader Z := fun br =>
  if br_exhausted br then Ok (-1, br) else
  match br_data br !! br_byte_pos br with
  | None => Fault UB
  | Some b =>
      let bit := Z.land (Z.shiftr (byte_Z b) (br_bit_pos br)) 1 in
      let k := br_bit_pos br - 1 in
      if k <? 0 then
        let p := S (br_byte_pos br) in
        Ok (bit, BitReader (br_data br) p 7
                   (if Zlen (br_data br) <=? Z.of_nat p then true else br_exhausted br))
      else Ok (bit, BitReader (br_data br) (br_byte_pos br) k (br_exhausted br))
  end.

(** [n] more bits, after [val]. *)
Fixpoint read_bits_loop (n : nat) (val : Z) : ST bit_reader Z :=
  match n with
  | O => mret val
  | S n =>
      bit ← bit_reader_read_bit;
      if bit <? 0 then mret (-1) else
      val ← lift (i64 (Z.lor (Z.shiftl val 1) bit));
      read_bits_loop n val
  end.
Definition bit_reader_read_bits (n : nat) : ST bit_reader Z := read_bits_loop n 0.

(** The unary quotient, [-1] for an error; each round takes a bit. *)
Fixpoint read_quotient (fuel : nat) (quotient : Z) : ST bit_reader Z :=
  match fuel with
  | O => lift (Fault UB)
  | S fuel =>
      bit ← bit_reader_read_bit;
      if bit <? 0 then mret (-1) else
      if bit =? 0 then mret quotient else
      let quotient := quotient + 1 in
      if 100000000 <? quotient then mret (-1) else
      read_quotient fuel quotient
  end.

Definition bit_reader_read_gr (P : nat) : ST bit_reader Z := fun br =>
  ('(quotient, br) ← read_quotient (S (8 * length (br_data br))) 0 br;
   if quotient <? 0 then Ok (-1, br) else
   '(remainder, br) ← bit_reader_read_bits P br;
   if remainder <? 0 then Ok (-1, br) else
   v ← i64 (quotient * Z.shiftl 1 (Z.of_nat P) + remainder);
   Ok (v, br)).

(** ** CompactSize: [None] is the error; the value and the new [*pos]. *)

Definition read_compactsize (data : list byte) (len pos : Z) : res (option (Z * Z)) :=
  if len <=? pos then Ok None else
  c ← mem_load data pos 1;
  let c := le_Z c in
  let pos := pos + 1 in
  if c <? 253 then Ok (Some (c, pos))
  else if c =? 253 then
    if len <? pos + 2 then Ok None else v ← mem_load data pos 2; Ok (Some (le_Z v, pos + 2))
  else if c =? 254 then
    if len <? pos + 4 then Ok None else v ← mem_load data pos 4; Ok (Some (le_Z v, pos + 4))
  else
    if len <? pos + 8 then Ok None else v ← mem_load data pos 8; Ok (Some (le_Z v, pos + 8)).

(** ** Membership *)

Definition GCS_P : nat := 19.
Definition GCS_M : Z := 784931.

(** [while (j > 0 && a[j - 1] > v) { a[j] = a[j - 1]; j--; } a[j] = v;] *)
Fixpoint sort_shift (j : nat) (v : Z) (a : list Z) : list Z :=
  match j with
  | O => <[0%nat := v]> a
  | S j' => if v <? (a !!! j') then sort_shift j' v (<[j := a !!! j']> a) else <[j := v]> a
  end.

(** [for (i = 1; i < n; i++)], [m] rounds left. *)
Fixpoint sort_loop (m i : nat) (a : list Z) : list Z :=
  match m with
  | O => a
  | S m => sort_loop m (S i) (sort_shift i (a !!! i) a)
  end.
Definition insertion_sort (a : list Z) : list Z := sort_loop (length a - 1) 1 a.

(** [query_hashes[i]] *)
Definition query_hash (key : list byte) (F : Z) (item : list byte) : Z :=
  sint64 (wrap64 (Z.shiftr (siphash_2_4 key item * F) 64)).

(** The intersection of the two sorted streams; a round takes bits of the
    filter or a query. *)
Fixpoint match_loop (fuel : nat) (filter_val : Z) (queries : list Z) (br : bit_reader) : res bool :=
  match fuel with
  | O => Fault UB
  | S fuel =>
      match queries with
      | [] => Ok false
      | target :: rest =>
          if filter_val <? 0 then Ok false else
          if filter_val =? target then Ok true else
          if filter_val <? target then
            '(delta, br) ← bit_reader_read_gr GCS_P br;
            if delta <? 0 then Ok false else
            filter_val ← i64 (filter_val + delta);
            match_loop fuel filter_val queries br
          else match_loop fuel filter_val rest br
      end
  end.

(** The items are given with their lengths; [None] is NULL. *)
Definition gcs_filter_match_any (filterData : ptr) (filterLen : Z) (blockHash : option uint256)
    (items : option (list (list byte))) : res bool :=
  match filterData, blockHash, items with
  | Some data, Some h, Some items =>
      if (filterLen =? 0) || (Zlen items =? 0) then Ok false else
      let key := take 16 h in
      r ← read_compactsize data filterLen 0;
      match r with
      | None => Ok false
      | Some (N, pos) =>
          if 10000000 <? N then Ok false else
          let F := wrap64 (N * GCS_M) in
          if N =? 0 then Ok false else
          let query_hashes := insertion_sort (map (query_hash key F) items) in
          rest ← mem_load data pos (filterLen - pos);
          match_loop (8 * length rest + length items + 1) 0 query_hashes (bit_reader_init rest)
      end
  | _, _, _ => Ok false
  end.

(** The published vector: testnet block 926485. *)
Definition bip158_filter : list byte := map Z_byte
  [0x09; 0x02; 0x7a; 0xce; 0xa6; 0x1b; 0x6c; 0xc3; 0xfb; 0x33; 0xf5; 0xd5; 0x2f;
   0x7d; 0x08; 0x8a; 0x6b; 0x2f; 0x75; 0xd2; 0x34; 0xe8; 0x9c; 0xa8; 0x00].
Definition bip158_block : uint256 := rev (map Z_byte
  (replicate 6 0 ++ [0x01;0x5d;0x60;0x77;0xa4;0x11;0xa8;0xf5;0xcc;0x95;
   0xca;0xf7;0x75;0xcc;0xf1;0x1c;0x54;0xe2;0x7d;0xf7;0x5c;0xe5;0x8d;0x18;0x73;0x13])).
Example bip158_vector :
  let m s := gcs_filter_match_any (Some bip158_filter) 25 (Some bip158_block) (Some [map Z_byte s]) in
  m [0xa9;0x14;0xfe;0xb8;0xa2;0x96;0x35;0xc5;0x6d;0x9c;0xd9;0x13;0x12;0x2f;0x90;0x67;0x87;0x56;
     0xbf;0x23;0x88;0x76;0x87] = Ok true /\
  m [0x76;0xa9;0x14;0xc0;0x1a;0x7c;0xa1;0x6b;0x47;0xbe;0x50;0xcb;0xdb;0xc6;0x07;0x24;0xf7;0x01;
     0xd5;0x2d;0x75;0x15;0x66;0x88;0xac] = Ok true /\
  m ([0x76;0xa9;0x14] ++ replicate 20 0 ++ [0x88;0xac]) = Ok false.
Proof. vm_compute. repeat split. Qed.

(** ** The reader as a stream of bits *)

Definition bits_of_byte (b : byte) : list bool :=
  map (fun k => Z.testbit (byte_Z b) k) [7; 6; 5; 4; 3; 2; 1; 0].
Definition bits_of (data : list byte) : list bool := concat (map bits_of_byte data).

(** What a reader has left, most significant bit first. *)
Definition bits_left (br : bit_reader) : list bool :=
  if br_exhausted br then [] else
  match drop (br_byte_pos br) (br_data br) with
  | b :: rest => drop (Z.to_nat (7 - br_bit_pos br)) (bits_of_byte b) ++ bits_of rest
  | [] => []
  end.

Definition br_wf (br : bit_reader) : Prop :=
  0 <= br_bit_pos br <= 7 /\
  (br_exhausted br = false -> (br_byte_pos br < length (br_data br))%nat).

Lemma length_bits_of data : length (bits_of data) = (8 * length data)%nat.
Proof. unfold bits_of. induction data as [|b d IH]; [done|]. cbn [map concat]. rewrite length_app, IH. cbn. lia. Qed.

Lemma bit_reader_init_spec data :
  br_wf (bit_reader_init data) /\ bits_left (bit_reader_init data) = bits_of data /\
  br_data (bit_reader_init data) = data.
Proof.
  unfold br_wf, bits_left, bit_reader_init. cbn. split_and!; [lia|lia| |destruct data|done].
  - intros E. zbool. unfold Zlen in E. lia.
  - done.
  - rewrite eqb_f by (unfold Zlen; cbn; lia). done.
Qed.

Lemma bits_of_byte_drop b k :
  0 <= k <= 7 ->
  drop (Z.to_nat (7 - k)) (bits_of_byte b) =
  Z.testbit (byte_Z b) k :: (if k =? 0 then [] else drop (Z.to_nat (7 - (k - 1))) (bits_of_byte b)).
Proof.
  intros Hk. assert (k = 0 \/ k = 1 \/ k = 2 \/ k = 3 \/ k = 4 \/ k = 5 \/ k = 6 \/ k = 7) as Hc by lia.
  by destruct_or! Hc; subst.
Qed.

Lemma land_shiftr_bit z k : 0 <= k -> Z.land (Z.shiftr z k) 1 = Z.b2z (Z.testbit z k).
Proof.
  intros Hk. change 1 with (Z.ones 1). rewrite Z.land_ones by lia. change (2 ^ 1) with 2.
  rewrite <- Z.bit0_mod, Z.shiftr_spec by lia. done.
Qed.

Lemma read_bit_spec br :
  br_wf br ->
  match bits_left br with
  | [] => bit_reader_read_bit br = Ok (-1, br)
  | b :: bs => exists br', bit_reader_read_bit br = Ok (Z.b2z b, br') /\ br_wf br' /\
                 bits_left br' = bs /\ br_data br' = br_data br
  end.
Proof.
  intros [Hk Hp]. unfold bits_left, bit_reader_read_bit.
  destruct (br_exhausted br) eqn:Ee; [done|]. specialize (Hp eq_refl).
  destruct (lookup_lt_is_Some_2 (br_data br) (br_byte_pos br) Hp) as [b Hb].
  rewrite (drop_S _ _ _ Hb), Hb. rewrite bits_of_byte_drop by done. cbn [app].
  rewrite land_shiftr_bit by lia.
  destruct (Z.eqb_spec (br_bit_pos br) 0) as [E|E].
  - rewrite ltb_t by lia. eexists. split; [done|]. unfold br_wf. cbn.
    destruct (Z.leb_spec (Zlen (br_data br)) (Z.of_nat (S (br_byte_pos br)))) as [Hl|Hl]; cbn.
    + split; [split; [lia|done]|]. split; [|done].
      rewrite drop_ge; [done|]. unfold Zlen in Hl. lia.
    + unfold Zlen in Hl. split; [split; [lia|intros _; lia]|]. split; [|done].
      destruct (lookup_lt_is_Some_2 (br_data br) (S (br_byte_pos br)) ltac:(lia)) as [c Hc].
      by rewrite (drop_S _ _ _ Hc).
  - rewrite ltb_f by lia. eexists. split; [done|]. unfold br_wf. cbn.
    split; [split; [lia|done]|]. split; [|done]. by rewrite (drop_S _ _ _ Hb).
Qed.

(** *** Golomb-Rice values of the stream *)

(** [n] bits as a number; [None] when there are not enough. *)
Fixpoint take_bits (n : nat) (val : Z) (bs : list bool) : option (Z * list bool) :=
  match n, bs with
  | O, _ => Some (val, bs)
  | S n, b :: bs => take_bits n (2 * val + Z.b2z b) bs
  | S _, [] => None
  end.

Fixpoint take_unary (q : Z) (bs : list bool) : option (Z * list bool) :=
  match bs with
  | [] => None
  | false :: bs => Some (q, bs)
  | true :: bs => if 100000000 <? q + 1 then None else take_unary (q + 1) bs
  end.

Definition take_gr (P : nat) (bs : list bool) : option (Z * list bool) :=
  '(q, bs) ← take_unary 0 bs;
  '(r, bs) ← take_bits P 0 bs;
  Some (q * 2 ^ Z.of_nat P + r, bs).

Lemma take_bits_bound n : forall val bs v bs',
  take_bits n val bs = Some (v, bs') -> 0 <= val ->
  val * 2 ^ Z.of_nat n <= v < (val + 1) * 2 ^ Z.of_nat n /\ (length bs = n + length bs')%nat.
Proof.
  induction n as [|n IH]; intros val bs v bs' E Hv.
  { cbn in E. injection E as <- <-. cbn. lia. }
  destruct bs as [|b bs]; [done|]. cbn [take_bits] in E.
  assert (0 <= Z.b2z b <= 1) by (destruct b; cbn; lia).
  apply IH in E as [E El]; [|lia]. rewrite Nat2Z.inj_succ, Z.pow_succ_r by lia. cbn [length].
  split; [nia|lia].
Qed.

Lemma take_unary_bound bs : forall q v bs',
  take_unary q bs = Some (v, bs') -> 0 <= q <= 100000000 ->
  q <= v <= 100000000 /\ (Z.of_nat (length bs) = v - q + 1 + Z.of_nat (length bs')).
Proof.
  induction bs as [|[] bs IH]; intros q v bs' E Hq; cbn [take_unary] in E; [done| |].
  - destruct (Z.ltb_spec 100000000 (q + 1)); [done|].
    apply IH in E; [|lia]. cbn [length]. lia.
  - injection E as <- <-. cbn [length]. lia.
Qed.

(** A value of [q * 2^P + r] takes [q + 1 + P] bits. *)
Lemma take_gr_bound P bs v bs' :
  take_gr P bs = Some (v, bs') ->
  0 <= v /\ v + 2 ^ Z.of_nat P * Z.of_nat (length bs') <= 2 ^ Z.of_nat P * Z.of_nat (length bs) /\
  (length bs' < length bs)%nat /\ v < 100000001 * 2 ^ Z.of_nat P.
Proof.
  unfold take_gr. destruct (take_unary 0 bs) as [[q bs1]|] eqn:E1; [|done]. cbn.
  destruct (take_bits P 0 bs1) as [[r bs2]|] eqn:E2; [|done]. cbn. intros [= <- <-].
  apply take_unary_bound in E1 as [Hq Hl1]; [|lia]. apply take_bits_bound in E2 as [Hr Hl2]; [|lia].
  assert (0 < 2 ^ Z.of_nat P) by (apply Z.pow_pos_nonneg; lia). split_and!; nia.
Qed.

Lemma lor_bit val b : 0 <= val -> Z.lor (Z.shiftl val 1) (Z.b2z b) = 2 * val + Z.b2z b.
Proof. intros Hv. destruct val as [|p|p]; [by destruct b| |lia]. by destruct b. Qed.

Lemma i64_ok z : - 2 ^ 63 <= z < 2 ^ 63 -> i64 z = Ok z.
Proof. intros. unfold i64. by rewrite leb_t, ltb_t by lia. Qed.

(** What a reader has after a read, or that it failed. *)
Definition read_as (br : bit_reader) (r : res (Z * bit_reader)) (o : option (Z * list bool)) : Prop :=
  match o with
  | Some (v, bs) => 0 <= v /\ exists br', r = Ok (v, br') /\ br_wf br' /\ bits_left br' = bs /\
                      br_data br' = br_data br
  | None => exists br', r = Ok (-1, br')
  end.

Lemma read_bits_spec n : forall val br,
  br_wf br -> 0 <= val -> (val + 1) * 2 ^ Z.of_nat n <= 2 ^ 63 ->
  read_as br (read_bits_loop n val br) (take_bits n val (bits_left br)).
Proof.
  induction n as [|n IH]; intros val br Hw Hv Hb; cbn [read_bits_loop].
  { cbn. split; [done|]. by exists br. }
  pose proof (read_bit_spec br Hw) as Hr. unfold mbind, st_bind.
  destruct (bits_left br) as [|b bs] eqn:El; cbn [take_bits].
  { rewrite Hr. by exists br. }
  destruct Hr as (br' & -> & Hw' & Hl' & Hd'). rewrite Nat2Z.inj_succ, Z.pow_succ_r in Hb by lia.
  assert (0 <= Z.b2z b <= 1) by (destruct b; cbn; lia). rewrite ltb_f by lia.
  assert (0 < 2 ^ Z.of_nat n) by (apply Z.pow_pos_nonneg; lia).
  unfold lift. rewrite lor_bit by done. rewrite i64_ok by nia.
  specialize (IH (2 * val + Z.b2z b) br' Hw' ltac:(lia) ltac:(nia)). rewrite Hl' in IH.
  unfold read_as in *. destruct (take_bits _ _ _) as [[v l]|]; [|done]. by rewrite Hd' in IH.
Qed.

Lemma read_quotient_spec fuel : forall q br,
  br_wf br -> 0 <= q -> (length (bits_left br) < fuel)%nat ->
  read_as br (read_quotient fuel q br) (take_unary q (bits_left br)).
Proof.
  induction fuel as [|fuel IH]; intros q br Hw Hq Hf; [lia|]. cbn [read_quotient].
  pose proof (read_bit_spec br Hw) as Hr. unfold mbind, st_bind.
  destruct (bits_left br) as [|b bs] eqn:El; cbn [take_unary].
  { rewrite Hr. by exists br. }
  destruct Hr as (br' & -> & Hw' & Hl' & Hd'). destruct b; cbn [Z.b2z Z.ltb Z.eqb Z.compare Pos.compare].
  2: { split; [done|]. by exists br'. }
  destruct (Z.ltb_spec 100000000 (q + 1)); [by exists br'|].
  cbn [length] in Hf. specialize (IH (q + 1) br' Hw' ltac:(lia)). rewrite Hl' in IH.
  specialize (IH ltac:(lia)). unfold read_as in *.
  destruct (take_unary _ _) as [[v l]|]; [|done]. by rewrite Hd' in IH.
Qed.

Lemma bits_left_length br : (length (bits_left br) <= 8 * length (br_data br))%nat.
Proof.
  unfold bits_left. destruct (br_exhausted br); [cbn; lia|].
  destruct (drop _ _) as [|b rest] eqn:E; [cbn; lia|].
  apply (f_equal length) in E. rewrite length_drop in E. cbn [length] in E.
  rewrite length_app, length_drop, length_bits_of. cbn. lia.
Qed.

Lemma read_gr_spec br :
  br_wf br -> read_as br (bit_reader_read_gr GCS_P br) (take_gr GCS_P (bits_left br)).
Proof.
  intros Hw. unfold bit_reader_read_gr, take_gr.
  pose proof (bits_left_length br).
  pose proof (read_quotient_spec (S (8 * length (br_data br))) 0 br Hw ltac:(lia) ltac:(lia)) as Hq.
  destruct (take_unary 0 (bits_left br)) as [[q bs]|] eqn:Eu.
  2: { destruct Hq as (br' & ->). by exists br'. }
  destruct Hq as (Hq0 & br1 & -> & Hw1 & Hl1 & Hd1). cbn [mbind res_bind].
  apply take_unary_bound in Eu as [Hqb _]; [|lia]. rewrite ltb_f by lia.
  pose proof (read_bits_spec GCS_P 0 br1 Hw1 ltac:(lia) ltac:(done)) as Hr.
  unfold bit_reader_read_bits. rewrite Hl1 in Hr. unfold mbind at 1, option_bind at 1.
  destruct (take_bits GCS_P 0 bs) as [[r bs2]|] eqn:Eb.
  2: { destruct Hr as (br' & ->). by exists br'. }
  destruct Hr as (Hr0 & br2 & -> & Hw2 & Hl2 & Hd2). cbn [mbind res_bind option_bind].
  rewrite ltb_f by lia. apply take_bits_bound in Eb as [Hrb _]; [|lia].
  rewrite Z.shiftl_mul_pow2, Z.mul_1_l by lia. unfold GCS_P in *.
  change (2 ^ Z.of_nat 19) with 524288 in *. rewrite i64_ok by lia. cbn [mbind res_bind].
  split; [lia|]. exists br2. split_and!; [done|done|done|congruence].
Qed.

(** *** The values of a filter *)

(** [v] is one of the running sums, from [fv], of the values of the stream. *)
Inductive in_stream : Z -> list bool -> Z -> Prop :=
| stream_here fv bs : in_stream fv bs fv
| stream_later fv bs d bs' v :
    take_gr GCS_P bs = Some (d, bs') -> in_stream (fv + d) bs' v -> in_stream fv bs v.

Lemma in_stream_ge fv bs v : in_stream fv bs v -> fv <= v.
Proof.
  induction 1 as [|fv bs d bs' v E _ IH]; [lia|]. apply take_gr_bound in E. lia.
Qed.

Lemma match_loop_spec fuel : forall fv qs br,
  br_wf br -> StronglySorted Z.le qs -> 0 <= fv ->
  fv + 524288 * Z.of_nat (length (bits_left br)) < 2 ^ 63 ->
  (length (bits_left br) + length qs < fuel)%nat ->
  exists b, match_loop fuel fv qs br = Ok b /\
    (b = true <-> exists q, In q qs /\ in_stream fv (bits_left br) q).
Proof.
  induction fuel as [|fuel IH]; intros fv qs br Hw Hs Hfv Hb Hf; [lia|]. cbn [match_loop].
  destruct qs as [|target rest].
  { exists false. split; [done|]. split; [done|]. by intros (q & [] & _). }
  rewrite ltb_f by lia. inversion Hs as [|? ? Hs' Hge]; subst.
  destruct (Z.eqb_spec fv target) as [->|Hne].
  { exists true. split; [done|]. split; [|done]. intros _. exists target.
    split; [by left|constructor]. }
  destruct (Z.ltb_spec fv target) as [Hlt|Hgt].
  - assert (Hall : forall q, In q (target :: rest) -> fv < q).
    { intros q [<-|Hq]; [done|]. rewrite List.Forall_forall in Hge. specialize (Hge q Hq). lia. }
    pose proof (read_gr_spec br Hw) as Hr. destruct (take_gr GCS_P (bits_left br)) as [[d bs']|] eqn:Eg.
    + destruct Hr as (Hd & br' & -> & Hw' & Hl' & _). cbn [mbind res_bind].
      rewrite ltb_f by lia. apply take_gr_bound in Eg as Hg.
      change (2 ^ Z.of_nat GCS_P) with 524288 in Hg. destruct Hg as (_ & Hg1 & Hg2 & _).
      rewrite i64_ok by lia. cbn [mbind res_bind].
      destruct (IH (fv + d) (target :: rest) br' Hw' Hs) as (b & E & Hiff);
        [lia | rewrite Hl'; lia | rewrite Hl'; lia |].
      exists b. split; [done|]. rewrite Hiff, Hl'. split; intros (q & Hq & Hin); exists q; (split; [done|]).
      * eapply stream_later; eauto.
      * inversion Hin as [|? ? ? ? ? E' Hin']; subst; [specialize (Hall _ Hq); lia|].
        rewrite Eg in E'. by injection E' as <- <-.
    + destruct Hr as (br' & ->). cbn. exists false. split; [done|]. split; [done|].
      intros (q & Hq & Hin). specialize (Hall q Hq).
      inversion Hin as [|? ? ? ? ? E' Hin']; subst; [lia|]. by rewrite Eg in E'.
  - cbn [length] in Hf.
    destruct (IH fv rest br Hw Hs' Hfv Hb ltac:(lia)) as (b & E & Hiff). exists b. split; [done|].
    rewrite Hiff. split; intros (q & Hq & Hin); exists q; (split; [|done]); [by right|].
    destruct Hq as [<-|Hq]; [|done]. apply in_stream_ge in Hin. lia.
Qed.

(** *** The sort *)

Lemma sorted_snoc l y : StronglySorted Z.le l -> Forall (fun x => x <= y) l -> StronglySorted Z.le (l ++ [y]).
Proof.
  induction 1 as [|x l Hl IH Hx]; intros HF; cbn; [repeat constructor|].
  inversion HF; subst. constructor; [auto|]. apply Forall_app. by split; [|constructor].
Qed.

Lemma sorted_snoc_inv l y :
  StronglySorted Z.le (l ++ [y]) -> StronglySorted Z.le l /\ Forall (fun x => x <= y) l.
Proof.
  induction l as [|x l IH]; cbn; intros HS; [by repeat constructor|].
  inversion HS as [|? ? Hl Hx]; subst. destruct (IH Hl) as [H1 H2].
  apply Forall_app in Hx as [Hx1 Hx2]. inversion Hx2; subst. split; by constructor.
Qed.

(** Inserting [v] into the sorted prefix [p], over the slot of [x]. *)
Lemma sort_shift_spec p : forall v x s,
  StronglySorted Z.le p ->
  exists p', sort_shift (length p) v (p ++ x :: s) = p' ++ s /\ p' ≡ₚ v :: p /\
    StronglySorted Z.le p'.
Proof.
  induction p as [|y p IH] using rev_ind; intros v x s Hs.
  { exists [v]. cbn. split; [done|]. split; [done|]. repeat constructor. }
  rewrite length_app, Nat.add_1_r. cbn [sort_shift].
  assert (Hy : ((p ++ [y]) ++ x :: s) !!! length p = y).
  { rewrite <- app_assoc. cbn [app]. rewrite lookup_total_app_r, Nat.sub_diag by lia. done. }
  rewrite Hy. apply sorted_snoc_inv in Hs as [Hs Hle].
  assert (Hins : forall z, <[S (length p) := z]> ((p ++ [y]) ++ x :: s) = (p ++ [y]) ++ z :: s).
  { intros z. replace (S (length p)) with (length (p ++ [y]) + 0)%nat by (rewrite length_app; cbn; lia).
    by rewrite insert_app_r. }
  rewrite !Hins. destruct (Z.ltb_spec v y) as [Hlt|Hge].
  - rewrite <- app_assoc. cbn [app]. destruct (IH v y (y :: s) Hs) as (p' & E & Hp & Hs').
    exists (p' ++ [y]). rewrite E, <- app_assoc. split; [done|]. split.
    + by rewrite Hp.
    + apply sorted_snoc; [done|]. rewrite Hp. constructor; [lia|done].
  - exists ((p ++ [y]) ++ [v]). split; [by rewrite <- !app_assoc|]. split.
    + apply Permutation_sym, Permutation_cons_append.
    + apply sorted_snoc; [by apply sorted_snoc|]. apply Forall_app. split; [|by constructor].
      eapply Forall_impl; [exact Hle|]. intros z Hz. cbn in Hz. lia.
Qed.

Lemma sort_loop_spec m : forall p s,
  StronglySorted Z.le p -> length s = m ->
  exists a', sort_loop m (length p) (p ++ s) = a' /\ a' ≡ₚ p ++ s /\ StronglySorted Z.le a'.
Proof.
  induction m as [|m IH]; intros p s Hs Hl.
  { destruct s; [|done]. rewrite app_nil_r. by exists p. }
  destruct s as [|v s]; [done|]. cbn [sort_loop].
  rewrite lookup_total_app_r, Nat.sub_diag by lia. change ((v :: s) !!! 0%nat) with v.
  destruct (sort_shift_spec p v v s Hs) as (p' & -> & Hp & Hs').
  assert (S (length p) = length p') as -> by (by rewrite Hp).
  destruct (IH p' s Hs') as (a' & E & Hp2 & Hs2); [by injection Hl|].
  exists a'. split; [done|]. split; [|done]. rewrite Hp2, Hp. cbn. apply Permutation_middle.
Qed.

Lemma insertion_sort_spec a :
  insertion_sort a ≡ₚ a /\ StronglySorted Z.le (insertion_sort a).
Proof.
  unfold insertion_sort. destruct a as [|x a]; [by repeat constructor|].
  cbn [length]. rewrite Nat.sub_succ, Nat.sub_0_r.
  destruct (sort_loop_spec (length a) [x] a) as (a' & E & Hp & Hs); [by repeat constructor|done|].
  cbn [length app] in *. by rewrite E.
Qed.

(** ** SipHash values are 64-bit, so query hashes are below [F] *)

Definition word (z : Z) : Prop := u64 z.
Definition sip_wf (s : siphash_state) : Prop := word (v0 s) /\ word (v1 s) /\ word (v2 s) /\ word (v3 s).

Lemma word_wrap z : word (wrap64 z).
Proof. apply wrap64_bound. Qed.
Lemma word_rotl x b : word x -> 0 <= b <= 64 -> word (ROTL64 x b).
Proof.
  intros Hx Hb. apply lor_bound; [done|apply wrap64_bound|]. apply shiftr_bound; [done|lia].
Qed.
Lemma word_lxor a b : word a -> word b -> word (Z.lxor a b).
Proof. by apply lxor_bound. Qed.
Lemma word_le_Z bs : (length bs <= 8)%nat -> word (le_Z bs).
Proof.
  intros Hl. pose proof (le_Z_bound bs) as Hb. unfold word. split; [lia|].
  eapply Z.lt_le_trans; [apply Hb|]. apply Z.pow_le_mono_r; [done|]. unfold Zlen. lia.
Qed.

Ltac word := repeat match goal with
  | |- word (wrap64 _) => apply word_wrap
  | |- word (Z.lxor _ _) => apply word_lxor
  | |- word (ROTL64 _ _) => apply word_rotl; [|lia]
  | |- word _ => assumption
  end.

Lemma sip_wf_intro a b c d : word a -> word b -> word c -> word d -> sip_wf (Sip a b c d).
Proof. by unfold sip_wf. Qed.

Lemma SIPROUND_words a b c d : word a -> word b -> word c -> word d ->
  exists x y z w, SIPROUND (Sip a b c d) = Sip x y z w /\ word x /\ word y /\ word z /\ word w.
Proof.
  intros Ha Hb Hc Hd. unfold SIPROUND. cbv zeta. cbn [v0 v1 v2 v3].
  do 4 eexists. split; [reflexivity|]. split; [|split; [|split]]; word.
Qed.

Lemma SIPROUND_wf s : sip_wf s -> sip_wf (SIPROUND s).
Proof.
  destruct s as [a b c d]. intros (Ha & Hb & Hc & Hd).
  destruct (SIPROUND_words a b c d Ha Hb Hc Hd) as (x & y & z & w & -> & Hx & Hy & Hz & Hw).
  by apply sip_wf_intro.
Qed.

Lemma sip_wf_inv s : sip_wf s ->
  exists a b c d, s = Sip a b c d /\ word a /\ word b /\ word c /\ word d.
Proof. destruct s as [a b c d]. intros (? & ? & ? & ?). by exists a, b, c, d. Qed.

Lemma SIPROUND2_wf s : sip_wf s -> sip_wf (SIPROUND (SIPROUND s)).
Proof. intros H. by do 2 apply SIPROUND_wf. Qed.

Lemma sip_block_wf s m : sip_wf s -> word m -> sip_wf (sip_block s m).
Proof.
  intros Hs Hm. apply sip_wf_inv in Hs as (a & b & c & d & -> & Ha & Hb & Hc & Hd).
  unfold sip_block. cbn [v0 v1 v2 v3].
  assert (H : sip_wf (SIPROUND (SIPROUND (Sip a b c (Z.lxor d m))))).
  { apply SIPROUND2_wf, sip_wf_intro; word. }
  revert H. generalize (SIPROUND (SIPROUND (Sip a b c (Z.lxor d m)))). intros s H.
  apply sip_wf_inv in H as (x & y & z & w & -> & Hx & Hy & Hz & Hw). cbn [v0 v1 v2 v3].
  apply sip_wf_intro; word.
Qed.

Lemma sip_body_wf n : forall data s, (length data <= n)%nat -> sip_wf s ->
  sip_wf (sip_body s data).1 /\ (length (sip_body s data).2 <= 7)%nat.
Proof.
  induction n as [|n IH]; intros data s Hl Hs.
  { destruct data; [|cbn in Hl; lia]. cbn. split; [done|lia]. }
  do 8 (destruct data as [|? data]; [cbn; split; [done|lia]|]).
  cbn [sip_body]. apply IH; [cbn in Hl; lia|]. apply sip_block_wf; [done|]. by apply word_le_Z.
Qed.

Lemma siphash_word key data : word (siphash_2_4 key data).
Proof.
  unfold siphash_2_4. cbv zeta.
  match goal with |- context [sip_body ?s data] =>
    destruct (sip_body_wf (length data) data s) as [Hw Ht]; [done| |destruct (sip_body s data) as [s1 tail]]
  end.
  { unfold sip_wf. cbn [v0 v1 v2 v3]. split_and!; apply word_lxor;
      (apply word_le_Z; rewrite length_take; lia) || (split; [lia|done]). }
  cbn [fst snd] in Hw, Ht.
  assert (Hb : word (Z.lor (wrap64 (Z.shiftl (Z.land (Zlen data) 0xff) 56)) (le_Z tail))).
  { apply lor_bound; [done|apply wrap64_bound|]. apply word_le_Z. lia. }
  pose proof (sip_block_wf _ _ Hw Hb) as Hs2. revert Hs2. 
  match goal with |- sip_wf ?t -> _ => generalize t end. intros s2 Hs2.
  apply sip_wf_inv in Hs2 as (a & b & c & d & -> & Ha & Hb2 & Hc & Hd). cbn [v0 v1 v2 v3].
  match goal with |- context [SIPROUND (SIPROUND (SIPROUND (SIPROUND ?s)))] =>
    assert (H : sip_wf (SIPROUND (SIPROUND (SIPROUND (SIPROUND s))))) end.
  { apply SIPROUND2_wf, SIPROUND2_wf, sip_wf_intro; try assumption. apply word_lxor; [done|]. split; lia. }
  revert H. generalize (SIPROUND (SIPROUND (SIPROUND (SIPROUND (Sip a b (Z.lxor c 255) d))))).
  intros s3 H. apply sip_wf_inv in H as (x & y & z & w & -> & Hx & Hy & Hz & Hw3). cbn [v0 v1 v2 v3]. word.
Qed.

Lemma query_hash_range key N item :
  1 <= N <= 10000000 -> 0 <= query_hash key (N * GCS_M) item < N * GCS_M.
Proof.
  intros HN. pose proof (siphash_word key item) as Hw. unfold query_hash, GCS_M, word in *.
  set (h := siphash_2_4 key item) in *. set (F := N * 784931).
  rewrite Z.shiftr_div_pow2 by lia.
  assert (0 <= h * F / 2 ^ 64 < F).
  { split; [apply Z.div_pos; nia|]. apply Z.div_lt_upper_bound; [done|]. unfold F. nia. }
  rewrite wrap64_small by (unfold F in *; lia).
  unfold sint64. rewrite Z.mod_small by (unfold F in *; lia). unfold F in *. lia.
Qed.

(** ** The whole test, on any filter *)

Lemma mem_load_in m off n :
  0 <= off -> 0 <= n -> off + n <= Zlen m ->
  mem_load m off n = Ok (take (Z.to_nat n) (drop (Z.to_nat off) m)).
Proof. intros Ho Hn Hl. unfold mem_load. by rewrite !leb_t by lia. Qed.

(** The count is read inside the filter. *)
Lemma read_compactsize_in data len pos :
  0 <= pos -> len <= Zlen data ->
  exists r, read_compactsize data len pos = Ok r /\
    match r with Some (v, p) => 0 <= v < 2 ^ 64 /\ pos < p <= len | None => True end.
Proof.
  intros Hp Hl. unfold read_compactsize.
  destruct (Z.leb_spec len pos); [by exists None|].
  assert (Hv : forall p n, 0 <= p -> 0 <= n <= 8 -> p + n <= len ->
    exists bs, mem_load data p n = Ok bs /\ 0 <= le_Z bs < 2 ^ 64).
  { intros p n ? ? ?. eexists. split; [apply mem_load_in; lia|].
    apply word_le_Z. rewrite length_take. lia. }
  destruct (Hv pos 1) as (b & -> & Hb); [lia..|]. cbn [mbind res_bind].
  destruct (Z.ltb_spec (le_Z b) 253); [eexists; split; [done|cbv beta iota; lia]|].
  destruct (Z.eqb_spec (le_Z b) 253); [|destruct (Z.eqb_spec (le_Z b) 254)];
    (match goal with |- context [if len <? ?e then _ else _] => destruct (Z.ltb_spec len e) end;
     [by exists None|]);
    match goal with |- context [mem_load data ?p ?n] =>
      destruct (Hv p n) as (v & -> & Hv'); [lia..|] end;
    cbn [mbind res_bind]; (eexists; split; [done|cbv beta iota; lia]).
Qed.

(** The query hash of some item is among the values of the filter. *)
Definition filter_has (data : list byte) (h : uint256) (items : list (list byte)) : Prop :=
  exists N pos item, read_compactsize data (Zlen data) 0 = Ok (Some (N, pos)) /\
    1 <= N <= 10000000 /\ In item items /\
    in_stream 0 (bits_of (drop (Z.to_nat pos) data)) (query_hash (take 16 h) (N * GCS_M) item).

Lemma match_any_spec data h items :
  Zlen data < 2 ^ 40 ->
  exists b, gcs_filter_match_any (Some data) (Zlen data) (Some h) (Some items) = Ok b /\
    (b = true <-> filter_has data h items).
Proof.
  intros Hd. pose proof (Zlen_nonneg data) as Hn. unfold gcs_filter_match_any.
  destruct (read_compactsize_in data (Zlen data) 0 ltac:(lia) ltac:(lia)) as (r & Er & Hr).
  assert (Hno : forall P : Prop, (P -> False) -> exists b, @Ok bool false = Ok b /\ (b = true <-> P)).
  { intros P HP. exists false. split; [done|]. split; [done|]. tauto. }
  destruct (Z.eqb_spec (Zlen data) 0) as [E0|E0]; cbn [orb].
  { apply Hno. intros (N & pos & it & E & _). rewrite E in Er. injection Er as <-. lia. }
  destruct (Z.eqb_spec (Zlen items) 0) as [Ei|Ei].
  { apply Hno. intros (N & pos & it & _ & _ & Hin & _). destruct items; [done|]. zlia. }
  rewrite Er. cbn [mbind res_bind]. destruct r as [[N pos]|].
  2: { apply Hno. intros (N & pos & it & E & _). by rewrite E in Er. }
  assert (Hsome : forall N' pos', read_compactsize data (Zlen data) 0 = Ok (Some (N', pos')) -> N' = N /\ pos' = pos).
  { intros N' pos' E. rewrite Er in E. by injection E. }
  destruct (Z.ltb_spec 10000000 N).
  { apply Hno. intros (N' & pos' & it & (-> & _)%Hsome & ? & _). lia. }
  destruct (Z.eqb_spec N 0) as [->|HN].
  { apply Hno. intros (N' & pos' & it & (-> & _)%Hsome & ? & _). lia. }
  unfold GCS_M. rewrite (wrap64_small (N * 784931)) by lia. rewrite mem_load_in by lia.
  cbn [mbind res_bind]. rewrite take_ge by (rewrite length_drop; unfold Zlen; lia).
  destruct (bit_reader_init_spec (drop (Z.to_nat pos) data)) as (Hw & Hb & _).
  destruct (insertion_sort_spec (map (query_hash (take 16 h) (N * 784931)) items)) as [Hp Hs].
  apply Permutation_length in Hp as Hpl. rewrite length_map in Hpl.
  edestruct match_loop_spec as (b & E & Hiff); [exact Hw|exact Hs|reflexivity| | |].
  3: { rewrite E. exists b. split; [done|]. rewrite Hiff, Hb. split.
       - intros (q & Hq & Hin). assert (Hq' : q ∈ map (query_hash (take 16 h) (N * 784931)) items)
           by (rewrite <- Hp; by apply list_elem_of_In).
         apply list_elem_of_In, in_map_iff in Hq' as (it & <- & Hit).
         exists N, pos, it. split; [done|]. split; [lia|]. by split.
       - intros (N' & pos' & it & E' & _ & Hit & Hin). apply Hsome in E' as [-> ->].
         eexists. split; [|exact Hin]. apply list_elem_of_In. rewrite Hp.
         apply list_elem_of_In, in_map_iff. by exists it. }
  - rewrite Hb, length_bits_of, length_drop. unfold Zlen in *. lia.
  - rewrite Hb, length_bits_of, length_drop, Hpl. lia.
Qed.

(** ** The BIP158 filter of a set of elements

    The reference encoder: the count, then the Golomb-Rice codes of the
    differences of the sorted hashes, packed into bytes. *)

Fixpoint be_bits (n : nat) (v : Z) : list bool :=
  match n with
  | O => []
  | S n => Z.testbit v (Z.of_nat n) :: be_bits n v
  end.

Definition gr_bits (P : nat) (v : Z) : list bool :=
  replicate (Z.to_nat (v / 2 ^ Z.of_nat P)) true ++ [false] ++ be_bits P (v mod 2 ^ Z.of_nat P).

(** The codes of the differences, from [prev]. *)
Fixpoint gcs_bits (prev : Z) (vs : list Z) : list bool :=
  match vs with
  | [] => []
  | v :: vs => gr_bits GCS_P (v - prev) ++ gcs_bits v vs
  end.

Definition byte_of_bits (bs : list bool) : byte :=
  Z_byte (fold_left (fun v (b : bool) => 2 * v + Z.b2z b) bs 0).

(** Most significant bit first, the last byte padded with zeros. *)
Fixpoint pack (bs : list bool) : list byte :=
  match bs with
  | [] => []
  | b7 :: b6 :: b5 :: b4 :: b3 :: b2 :: b1 :: b0 :: rest =>
      byte_of_bits [b7; b6; b5; b4; b3; b2; b1; b0] :: pack rest
  | tail => [byte_of_bits (tail ++ replicate (8 - length tail) false)]
  end.

Definition compactsize_bytes (n : Z) : list byte :=
  if n <? 253 then le_bytes 1 n
  else if n <? 2 ^ 16 then Z_byte 253 :: le_bytes 2 n
  else if n <? 2 ^ 32 then Z_byte 254 :: le_bytes 4 n
  else Z_byte 255 :: le_bytes 8 n.

Definition gcs_build (h : uint256) (elems : list (list byte)) : list byte :=
  let hashes := map (query_hash (take 16 h) (Zlen elems * GCS_M)) elems in
  compactsize_bytes (Zlen elems) ++ pack (gcs_bits 0 (insertion_sort hashes)).

Lemma bits_of_byte_of_bits b7 b6 b5 b4 b3 b2 b1 b0 :
  bits_of_byte (byte_of_bits [b7; b6; b5; b4; b3; b2; b1; b0]) = [b7; b6; b5; b4; b3; b2; b1; b0].
Proof. by destruct b7, b6, b5, b4, b3, b2, b1, b0. Qed.

Lemma bits_of_pack n : forall bs, (length bs <= n)%nat ->
  exists k, (k < 8)%nat /\ bits_of (pack bs) = bs ++ replicate k false.
Proof.
  unfold bits_of. induction n as [|n IH]; intros bs Hl.
  { destruct bs; [|cbn in Hl; lia]. exists 0%nat. split; [lia|done]. }
  destruct bs as [|b7 bs]; [exists 0%nat; split; [lia|done]|].
  do 7 (destruct bs as [|? bs];
    [cbn [pack map concat length app replicate Nat.sub]; rewrite bits_of_byte_of_bits, app_nil_r;
     (exists 7%nat; split; [lia|reflexivity]) || (exists 6%nat; split; [lia|reflexivity]) ||
     (exists 5%nat; split; [lia|reflexivity]) || (exists 4%nat; split; [lia|reflexivity]) ||
     (exists 3%nat; split; [lia|reflexivity]) || (exists 2%nat; split; [lia|reflexivity]) ||
     (exists 1%nat; split; [lia|reflexivity])|]).
  cbn [pack map concat]. rewrite bits_of_byte_of_bits. cbn in Hl.
  destruct (IH bs ltac:(lia)) as (k & Hk & E). exists k. split; [done|]. by rewrite E.
Qed.

Lemma take_bits_be n : forall val v rest,
  0 <= v -> take_bits n val (be_bits n v ++ rest) =
  Some (val * 2 ^ Z.of_nat n + v mod 2 ^ Z.of_nat n, rest).
Proof.
  induction n as [|n IH]; intros val v rest Hv; cbn [take_bits be_bits app].
  { f_equal. f_equal. cbn. rewrite Z.mod_1_r. lia. }
  rewrite IH by done. f_equal. f_equal. rewrite Nat2Z.inj_succ, Z.pow_succ_r by lia.
  assert (0 < 2 ^ Z.of_nat n) by (apply Z.pow_pos_nonneg; lia).
  rewrite (Z.mul_comm 2 (2 ^ _)), Z.rem_mul_r, <- Z.testbit_spec' by lia. lia.
Qed.

Lemma take_unary_replicate k : forall q rest,
  q + Z.of_nat k <= 100000000 ->
  take_unary q (replicate k true ++ false :: rest) = Some (q + Z.of_nat k, rest).
Proof.
  induction k as [|k IH]; intros q rest Hq; cbn [replicate app take_unary].
  { f_equal. f_equal. lia. }
  rewrite ltb_f by lia. rewrite IH by lia. f_equal. f_equal. lia.
Qed.

Lemma take_gr_bits v rest :
  0 <= v < 2 ^ 45 -> take_gr GCS_P (gr_bits GCS_P v ++ rest) = Some (v, rest).
Proof.
  intros Hv. unfold take_gr, gr_bits. rewrite <- !app_assoc. cbn [app].
  assert (0 <= v / 2 ^ Z.of_nat GCS_P <= 67108864).
  { change (2 ^ Z.of_nat GCS_P) with 524288. split; [apply Z.div_pos; lia|].
    apply Z.lt_succ_r, Z.div_lt_upper_bound; lia. }
  rewrite take_unary_replicate by lia. cbn [mbind option_bind].
  assert (0 < 2 ^ Z.of_nat GCS_P) by done.
  rewrite take_bits_be by (apply Z.mod_pos_bound; lia). cbn [mbind option_bind].
  rewrite Z.mod_mod, Z.mul_0_l, !Z.add_0_l, Z2Nat.id by lia. do 2 f_equal.
  rewrite Z.mul_comm. symmetry. apply Z.div_mod. lia.
Qed.

Lemma take_gr_short bs : (length bs < 20)%nat -> take_gr GCS_P bs = None.
Proof.
  intros Hl. unfold take_gr. destruct (take_unary 0 bs) as [[q bs1]|] eqn:E1; [|done]. cbn [mbind option_bind].
  destruct (take_bits GCS_P 0 bs1) as [[r bs2]|] eqn:E2; [|done].
  apply take_unary_bound in E1; [|lia]. apply take_bits_bound in E2; [|lia].
  unfold GCS_P in E2. lia.
Qed.

(** The stream of a filter holds its hashes (and its start). *)
Lemma in_stream_gcs vs : forall prev pad v,
  0 <= prev -> StronglySorted Z.le (prev :: vs) -> Forall (fun v => v < 2 ^ 45) vs ->
  (length pad < 20)%nat ->
  in_stream prev (gcs_bits prev vs ++ pad) v <-> v = prev \/ In v vs.
Proof.
  induction vs as [|w vs IH]; intros prev pad v Hp Hs Hb Hl; cbn [gcs_bits app].
  - split.
    + inversion 1 as [|? ? ? ? ? E]; subst; [by left|]. by rewrite take_gr_short in E.
    + intros [->|[]]. constructor.
  - inversion Hs as [|? ? Hs' Hle]; subst. inversion Hb as [|? ? Hw Hb']; subst.
    inversion Hle as [|? ? Hpw _]; subst. rewrite <- app_assoc.
    assert (E : take_gr GCS_P (gr_bits GCS_P (w - prev) ++ gcs_bits w vs ++ pad) =
      Some (w - prev, gcs_bits w vs ++ pad)) by (apply take_gr_bits; lia).
    assert (IH' := IH w pad v ltac:(lia) Hs' Hb' Hl).
    split.
    + inversion 1 as [|? ? ? ? ? E' Hin]; subst; [by left|]. rewrite E in E'. injection E' as <- <-.
      right. replace (prev + (w - prev)) with w in Hin by lia.
      apply IH' in Hin as [->|Hin]; [by left|by right].
    + intros [->|Hin]; [constructor|]. eapply stream_later; [exact E|].
      replace (prev + (w - prev)) with w by lia. apply IH'.
      destruct Hin as [<-|Hin]; [by left|by right].
Qed.

Lemma gcs_bits_length top vs : forall prev,
  StronglySorted Z.le (prev :: vs) -> Forall (fun v => v <= top) (prev :: vs) ->
  524288 * Zlen (gcs_bits prev vs) <= 524288 * 20 * Zlen vs + (top - prev).
Proof.
  induction vs as [|w vs IH]; intros prev Hs Hb; inversion Hs as [|? ? Hs' Hle]; subst;
    inversion Hb as [|? ? Hp Hb']; subst; cbn [gcs_bits]; [zlia|].
  inversion Hle as [|? ? Hpw _]; subst. specialize (IH w Hs' Hb').
  assert (Hg : 524288 * Zlen (gr_bits GCS_P (w - prev)) <= 524288 * 20 + (w - prev)).
  { unfold gr_bits. change (2 ^ Z.of_nat GCS_P) with 524288.
    assert (forall n v, length (be_bits n v) = n) as Hbe
      by (induction n; intros; cbn [be_bits length]; congruence).
    unfold Zlen. rewrite !length_app, length_replicate, Hbe. cbn [length]. unfold GCS_P.
    pose proof (Z.mul_div_le (w - prev) 524288 ltac:(lia)).
    pose proof (Z.div_pos (w - prev) 524288 ltac:(lia) ltac:(lia)). lia. }
  rewrite Zlen_app, Zlen_cons. lia.
Qed.

Lemma length_pack n : forall bs, (length bs <= n)%nat -> 8 * Zlen (pack bs) <= Zlen bs + 7.
Proof.
  intros bs Hl. destruct (bits_of_pack n bs Hl) as (k & Hk & E).
  apply (f_equal Zlen) in E. unfold Zlen in *. rewrite length_bits_of, length_app, length_replicate in E. lia.
Qed.

Lemma read_compactsize_bytes n rest :
  0 <= n < 2 ^ 32 ->
  read_compactsize (compactsize_bytes n ++ rest) (Zlen (compactsize_bytes n ++ rest)) 0 =
    Ok (Some (n, Zlen (compactsize_bytes n))).
Proof.
  intros Hn. pose proof (Zlen_nonneg rest). unfold read_compactsize, compactsize_bytes.
  destruct (Z.ltb_spec n 253); [|destruct (Z.ltb_spec n (2 ^ 16)); [|rewrite (ltb_t n) by lia]];
    cbn [app]; rewrite ?Zlen_cons, !Zlen_app, ?Zlen_cons, !Zlen_le_bytes; rewrite leb_f by lia.
  - rewrite (mem_load_in _ 0 1) by (rewrite ?Zlen_app, ?Zlen_le_bytes; lia).
    change (Z.to_nat 1) with 1%nat. change (Z.to_nat 0) with 0%nat. rewrite drop_0.
    rewrite take_app_length' by done. cbn [mbind res_bind]. rewrite le_Z_bytes_small by lia.
    by rewrite ltb_t by lia.
  - rewrite (mem_load_in _ 0 1) by (rewrite ?Zlen_cons, ?Zlen_app, ?Zlen_le_bytes; lia).
    cbn [mbind res_bind]. change (le_Z (take _ _)) with 253. change (253 <? 253) with false.
    change (253 =? 253) with true. cbn [Z.add]. rewrite ltb_f by lia.
    rewrite (mem_load_in _ 1 2) by (rewrite ?Zlen_cons, ?Zlen_app, ?Zlen_le_bytes; lia).
    change (Z.to_nat 2) with 2%nat. change (Z.to_nat 1) with 1%nat. cbn [drop mbind res_bind]. rewrite drop_0.
    rewrite take_app_length' by done. by rewrite le_Z_bytes_small by lia.
  - rewrite (mem_load_in _ 0 1) by (rewrite ?Zlen_cons, ?Zlen_app, ?Zlen_le_bytes; lia).
    cbn [mbind res_bind]. change (le_Z (take _ _)) with 254. change (254 <? 253) with false.
    change (254 =? 253) with false. change (254 =? 254) with true. cbn [Z.add]. rewrite ltb_f by lia.
    rewrite (mem_load_in _ 1 4) by (rewrite ?Zlen_cons, ?Zlen_app, ?Zlen_le_bytes; lia).
    change (Z.to_nat 4) with 4%nat. change (Z.to_nat 1) with 1%nat. cbn [drop mbind res_bind]. rewrite drop_0.
    rewrite take_app_length' by done. by rewrite le_Z_bytes_small by lia.
Qed.

Section built.
Context (h : uint256) (elems : list (list byte)).
Hypothesis Helems : 1 <= Zlen elems <= 10000000.
Let hashes := insertion_sort (map (query_hash (take 16 h) (Zlen elems * GCS_M)) elems).
Local Abbreviation bits := (gcs_bits 0 hashes).

Lemma hashes_in q : In q hashes <-> exists e, In e elems /\ q = query_hash (take 16 h) (Zlen elems * GCS_M) e.
Proof.
  rewrite <- list_elem_of_In. unfold hashes. rewrite (proj1 (insertion_sort_spec _)).
  rewrite list_elem_of_In, in_map_iff. split; intros (e & ? & ?); exists e; by split.
Qed.

Lemma hashes_range : Forall (fun v => 0 <= v < Zlen elems * GCS_M) hashes.
Proof.
  apply Forall_forall. intros q Hq. apply list_elem_of_In, hashes_in in Hq as (e & _ & ->).
  by apply query_hash_range.
Qed.

Lemma hashes_sorted : StronglySorted Z.le (0 :: hashes).
Proof.
  constructor; [apply insertion_sort_spec|]. eapply Forall_impl; [apply hashes_range|]. cbn. lia.
Qed.

Lemma gcs_build_length : Zlen (gcs_build h elems) < 2 ^ 40.
Proof.
  assert (Hc : Zlen (compactsize_bytes (Zlen elems)) <= 9).
  { unfold compactsize_bytes. repeat case_match; rewrite ?Zlen_cons, Zlen_le_bytes; lia. }
  assert (Hl : Zlen hashes = Zlen elems).
  { unfold hashes, Zlen. rewrite (Permutation_length (proj1 (insertion_sort_spec _))).
    by rewrite length_map. }
  pose proof (gcs_bits_length (Zlen elems * GCS_M) hashes 0 hashes_sorted) as Hb.
  assert (Forall (fun v => v <= Zlen elems * GCS_M) (0 :: hashes)) as HF.
  { constructor; [unfold GCS_M; lia|]. eapply Forall_impl; [apply hashes_range|]. cbn. lia. }
  specialize (Hb HF). unfold GCS_M in Hb.
  pose proof (length_pack _ bits ltac:(reflexivity)).
  unfold gcs_build. rewrite Zlen_app. fold hashes. lia.
Qed.

Lemma filter_has_build items :
  filter_has (gcs_build h elems) h items <->
  exists item, In item items /\
    let q := query_hash (take 16 h) (Zlen elems * GCS_M) in
    q item = 0 \/ exists e, In e elems /\ q item = q e.
Proof.
  assert (Er : read_compactsize (gcs_build h elems) (Zlen (gcs_build h elems)) 0 =
    Ok (Some (Zlen elems, Zlen (compactsize_bytes (Zlen elems))))).
  { apply read_compactsize_bytes. lia. }
  assert (Ed : drop (Z.to_nat (Zlen (compactsize_bytes (Zlen elems)))) (gcs_build h elems) = pack bits).
  { unfold gcs_build. by rewrite to_nat_Zlen, drop_app_length. }
  destruct (bits_of_pack _ bits ltac:(reflexivity)) as (k & Hk & Ek).
  assert (Hin : forall q, in_stream 0 (bits_of (pack bits)) q <-> q = 0 \/ In q hashes).
  { intros q. rewrite Ek. apply in_stream_gcs; [done|apply hashes_sorted| |rewrite length_replicate; lia].
    eapply Forall_impl; [apply hashes_range|]. unfold GCS_M. cbn. lia. }
  split.
  - intros (N & pos & item & E & _ & Hit & Hs). rewrite Er in E. injection E as <- <-.
    rewrite Ed in Hs. exists item. split; [done|]. cbn zeta.
    apply Hin in Hs as [->|Hs]; [by left|]. right. by apply hashes_in.
  - intros (item & Hit & Hq). exists (Zlen elems), (Zlen (compactsize_bytes (Zlen elems))), item.
    split; [done|]. split; [lia|]. split; [done|]. rewrite Ed. apply Hin.
    destruct Hq as [Hq|Hq]; [by left|right; by apply hashes_in].
Qed.
End built.

(** ** Properties *)

(** The membership test is total on every filter a peer can send: for any
    bytes and any list of scripts it never reads outside the filter, never
    overflows its signed sums, and returns; it answers true exactly when the
    count of the filter is between 1 and 10,000,000 and the hash of one of the
    scripts is one of the running sums of the Golomb-Rice values of the
    stream (the initial 0 included). *)
Theorem gcs_filter_match_any_total (data : list byte) (h : uint256) (items : list (list byte)) :
  Zlen data < 2 ^ 40 ->
  exists b, gcs_filter_match_any (Some data) (Zlen data) (Some h) (Some items) = Ok b /\
    (b = true <-> filter_has data h items).
Proof. apply match_any_spec. Qed.

Lemma gcs_filter_match_any_total_witness :
  exists b, gcs_filter_match_any (Some (map Z_byte [253; 255])) 2 (Some bip158_block) (Some [[]]) = Ok b /\
    (b = true <-> filter_has (map Z_byte [253; 255]) bip158_block [[]]).
Proof. apply (gcs_filter_match_any_total (map Z_byte [253; 255]) bip158_block [[]]). by vm_compute. Defined.

(** C28: on a filter that encodes a set of elements as BIP158 says, the test
    has no false negative, and its answer is exact up to collisions of the
    hashes: it is true iff the hash of some script equals the hash of an
    element, or is 0: the running sum starts at 0 and is compared before
    the first element is read. *)
Theorem gcs_filter_match_any_built (h : uint256) (elems items : list (list byte)) :
  1 <= Zlen elems <= 10000000 ->
  exists b, gcs_filter_match_any (Some (gcs_build h elems)) (Zlen (gcs_build h elems)) (Some h) (Some items)
      = Ok b /\
    (b = true <-> exists item, In item items /\
      let q := query_hash (take 16 h) (Zlen elems * GCS_M) in
      q item = 0 \/ exists e, In e elems /\ q item = q e).
Proof.
  intros He. destruct (match_any_spec (gcs_build h elems) h items (gcs_build_length h elems He)) as (b & E & Hb).
  exists b. split; [exact E|]. by rewrite Hb, filter_has_build.
Qed.

Lemma gcs_filter_match_any_built_witness :
  gcs_filter_match_any (Some (gcs_build bip158_block [map Z_byte [1; 2]; map Z_byte [3]]))
    (Zlen (gcs_build bip158_block [map Z_byte [1; 2]; map Z_byte [3]])) (Some bip158_block)
    (Some [map Z_byte [7]; map Z_byte [3]]) = Ok true.
Proof.
  destruct (gcs_filter_match_any_built bip158_block [map Z_byte [1; 2]; map Z_byte [3]]
    [map Z_byte [7]; map Z_byte [3]] ltac:(split; by vm_compute)) as (b & E & Hb).
  rewrite E. f_equal. apply Hb. exists (map Z_byte [3]). split; [right; by left|].
  right. exists (map Z_byte [3]). split; [right; by left|reflexivity].
Defined.

(** The self-test of SipHash passes, with the published value of the
    15-byte message 00..0e; the 32-byte message 00..1f, which the comment at
    the top of the file gives for the same value, has another one. *)
Theorem gcs_self_test_passes :
  gcs_self_test = true /\
  siphash_2_4 (map (fun n => Z_byte (Z.of_nat n)) (seq 0 16)) (map (fun n => Z_byte (Z.of_nat n)) (seq 0 32))
    <> 0xa129ca6149be45e5.
Proof. by vm_compute. Qed.
