(* ===== verification/Hashtable.v ===== *)
(** * Hash tables (lib/hashtable/hashtable.c)

    A bucket is the chain of its entries, the head first: an entry belongs to
    one chain only, so an entry's address is its place in its chain. The client
    data is a pointer, kept abstract. The first part gives the operations, the
    second shows that they implement a finite map, the third that a table
    satisfies the interface [Table] its clients are verified against. *)
From S2P Require Export Hash.

Definition HASH_DEFAULT_NUM_BUCKETS : Z := 256.
Definition HASH_DEFAULT_FACTOR : Z := 4.

(** [h = (h & mask) ^ (h >> numBits)] while [h > mask]. *)
Fixpoint compute_hash_loop (fuel : nat) (mask numBits h : Z) : res Z :=
  match fuel with
  | O => Fault UB
  | S fuel =>
      if mask <? h
      then compute_hash_loop fuel mask numBits (Z.lxor (Z.land h mask) (Z.shiftr h numBits))
      else Ok h
  end.

(** A round at least halves [h]: 33 are enough for a uint32. *)
Definition hashtable_compute_hash (numBuckets numBits : Z) (key : list byte) : res Z :=
  let h := MurmurHash3 key 0x5678 in
  let mask := wrap32 (numBuckets - 1) in
  h ← compute_hash_loop 34 mask numBits h;
  _ ← ASSERT (h <? numBuckets);
  mret h.

Section table.
Context {V : Type}.

Record hashtable_entry : Type := HtEntry { e_key : list byte; e_clientData : V }.

Record hashtable : Type := Ht {
  numBuckets : Z; count : Z; numBits : Z; buckets : list (list hashtable_entry) }.

Definition bucket_at (bs : list (list hashtable_entry)) (hash : Z) : res (list hashtable_entry) :=
  match bs !! Z.to_nat hash with
  | Some c => if hash <? 0 then Fault UB else Ok c
  | None => Fault UB
  end.

Definition hashtable_getnumentries (ht : hashtable) : Z := count ht.

Definition hashtable_getemptybuckets (ht : hashtable) : Z :=
  foldl (fun n (c : list hashtable_entry) => if decide (c = []) then wrap32 (n + 1) else n) 0 (buckets ht).

Definition hashtable_getmaxdepth (ht : hashtable) : Z :=
  foldl (fun d (c : list hashtable_entry) => maximum d (wrap32 (Zlen c))) 0 (buckets ht).

(** The entry at [idx] in the order of the buckets; [None] is NULL. *)
Definition hashtable_get_entry_idx (ht : hashtable) (idx : Z) : res (option hashtable_entry) :=
  if count ht <? idx then Ok None else
  match concat (buckets ht) !! Z.to_nat idx with
  | Some e => Ok (Some e)
  | None => Fault Panic
  end.

(** The place of the first entry of the chain with that key. *)
Fixpoint chain_find (c : list hashtable_entry) (key : list byte) : option nat :=
  match c with
  | [] => None
  | e :: c => if bool_decide (key = e_key e) then Some 0%nat else S <$> chain_find c key
  end.

Definition hashtable_lookup_entry (ht : hashtable) (hash : Z) (key : list byte) : res (option nat) :=
  c ← bucket_at (buckets ht) hash; mret (chain_find c key).

(** The client data of the entry, [None] when there is none. *)
Definition hashtable_lookup (ht : hashtable) (key : list byte) : res (option V) :=
  hash ← hashtable_compute_hash (numBuckets ht) (numBits ht) key;
  e ← hashtable_lookup_entry ht hash key;
  match e with
  | None => Ok None
  | Some i =>
      c ← bucket_at (buckets ht) hash;
      match c !! i with Some e => Ok (Some (e_clientData e)) | None => Fault UB end
  end.

(** [e->next = buckets[hash]; buckets[hash] = e] *)
Definition bucket_push (bs : list (list hashtable_entry)) (hash : Z) (e : hashtable_entry) :
    res (list (list hashtable_entry)) :=
  c ← bucket_at bs hash; mret (<[Z.to_nat hash := e :: c]> bs).

(** The entries of a chain, moved one by one to the new buckets. *)
Fixpoint rehash_chain (numBuckets numBits : Z) (c : list hashtable_entry)
    (new : list (list hashtable_entry)) : res (list (list hashtable_entry)) :=
  match c with
  | [] => Ok new
  | e :: c =>
      hash ← hashtable_compute_hash numBuckets numBits (e_key e);
      new ← bucket_push new hash e;
      rehash_chain numBuckets numBits c new
  end.

Fixpoint rehash (numBuckets numBits : Z) (old new : list (list hashtable_entry)) :
    res (list (list hashtable_entry)) :=
  match old with
  | [] => Ok new
  | c :: old => new ← rehash_chain numBuckets numBits c new; rehash numBuckets numBits old new
  end.

Definition hashtable_check_resize (ht : hashtable) : res hashtable :=
  let nb :=
    if wrap32 (HASH_DEFAULT_FACTOR * numBuckets ht) <? count ht
    then wrap32 (numBuckets ht * HASH_DEFAULT_FACTOR)
    else if count ht <? numBuckets ht / HASH_DEFAULT_FACTOR
    then numBuckets ht / HASH_DEFAULT_FACTOR
    else numBuckets ht in
  if nb <=? HASH_DEFAULT_NUM_BUCKETS then Ok ht else
  if nb =? numBuckets ht then Ok ht else
  let nbits := util_log2 nb in
  new ← rehash nb nbits (buckets ht) (replicate (Z.to_nat nb) []);
  Ok (Ht nb (count ht) nbits new).

Definition hashtable_insert (ht : hashtable) (key : list byte) (clientData : V) :
    res (bool * hashtable) :=
  ht ← hashtable_check_resize ht;
  hash ← hashtable_compute_hash (numBuckets ht) (numBits ht) key;
  e ← hashtable_lookup_entry ht hash key;
  match e with
  | Some _ => Ok (false, ht)
  | None =>
      bs ← bucket_push (buckets ht) hash (HtEntry key clientData);
      Ok (true, Ht (numBuckets ht) (wrap32 (count ht + 1)) (numBits ht) bs)
  end.

Definition hashtable_create : res hashtable :=
  let nb := HASH_DEFAULT_NUM_BUCKETS in
  let ht := Ht nb 0 (util_log2 nb) (replicate (Z.to_nat nb) []) in
  _ ← ASSERT (Z.land nb (nb - 1) =? 0);
  Ok ht.

(** [while (e)]: unlink the entry at place [entry], [i] entries were passed. *)
Fixpoint chain_unlink (entry i : nat) (c : list hashtable_entry) : option (list hashtable_entry) :=
  match c with
  | [] => None
  | e :: c => if decide (i = entry) then Some c else cons e <$> chain_unlink entry (S i) c
  end.

Definition hashtable_remove (ht : hashtable) (key : list byte) : res (bool * hashtable) :=
  ht ← hashtable_check_resize ht;
  hash ← hashtable_compute_hash (numBuckets ht) (numBits ht) key;
  entry ← hashtable_lookup_entry ht hash key;
  match entry with
  | None => Ok (false, ht)
  | Some entry =>
      c ← bucket_at (buckets ht) hash;
      match chain_unlink entry 0 c with
      | None => Fault Panic
      | Some c => Ok (true, Ht (numBuckets ht) (wrap32 (count ht - 1)) (numBits ht)
                               (<[Z.to_nat hash := c]> (buckets ht)))
      end
  end.

(** The callback on every entry, in order, threading the state it works on. *)
Fixpoint chain_for_each {S} (callback : list byte -> V -> S -> res S) (c : list hashtable_entry) (s : S) :
    res S :=
  match c with
  | [] => Ok s
  | e :: c => s ← callback (e_key e) (e_clientData e) s; chain_for_each callback c s
  end.
Fixpoint buckets_for_each {S} (callback : list byte -> V -> S -> res S)
    (bs : list (list hashtable_entry)) (s : S) : res S :=
  match bs with
  | [] => Ok s
  | c :: bs => s ← chain_for_each callback c s; buckets_for_each callback bs s
  end.
Definition hashtable_for_each {S} (ht : hashtable) (callback : list byte -> V -> S -> res S) (s : S) :
    res S := buckets_for_each callback (buckets ht) s.

(** Each bucket is emptied before its entries are visited and freed. *)
Definition hashtable_clear_with_callback {S} (ht : hashtable)
    (callback : list byte -> V -> S -> res S) (s : S) : res (hashtable * S) :=
  s ← hashtable_for_each ht callback s;
  Ok (Ht (numBuckets ht) (wrap32 (count ht - Zlen (concat (buckets ht)))) (numBits ht)
         (map (fun _ => []) (buckets ht)), s).

Definition hashtable_clear (ht : hashtable) : res hashtable :=
  '(ht, _) ← hashtable_clear_with_callback ht (fun _ _ s => Ok s) tt; Ok ht.

Definition hashtable_destroy (ht : hashtable) : res unit :=
  _ ← ASSERT (count ht =? 0); _ ← hashtable_clear ht; Ok tt.

(** The array of the [entry_size] bytes behind each client data, which [load]
    reads; [None] is NULL. The array has room for [count] of them. *)
Definition hashtable_linearize_cb (n entry_size : Z) (load : V -> Z -> res (list byte)) :
    list byte -> V -> list byte -> res (list byte) := fun _ v buf =>
  d ← load v entry_size;
  if Zlen buf + entry_size <=? n * entry_size then Ok (buf ++ d) else Fault UB.
Definition hashtable_linearize (ht : hashtable) (entry_size : Z) (load : V -> Z -> res (list byte)) :
    res (option (list byte)) :=
  let n := hashtable_getnumentries ht in
  if n =? 0 then Ok None else
  buf ← hashtable_for_each ht (hashtable_linearize_cb n entry_size load) [];
  Ok (Some buf).
End table.
Arguments hashtable_entry : clear implicits.
Arguments hashtable : clear implicits.

(** [hashtable_insert_test]: [n] keys in, the counts printed, [n] keys out.
    [stop] is never set. *)
Fixpoint insert_test_fill (n : nat) (i : Z) (ht : hashtable unit) : res (hashtable unit) :=
  match n with
  | O => Ok ht
  | S n => '(s, ht) ← hashtable_insert ht (le_bytes 4 i) tt; _ ← ASSERT s; insert_test_fill n (i + 1) ht
  end.
Fixpoint insert_test_drain (n : nat) (i : Z) (ht : hashtable unit) : res (hashtable unit) :=
  match n with
  | O => Ok ht
  | S n => '(s, ht) ← hashtable_remove ht (le_bytes 4 i); _ ← ASSERT s; insert_test_drain n (i + 1) ht
  end.
Definition hashtable_insert_test (n : Z) : res unit :=
  ht ← hashtable_create;
  ht ← insert_test_fill (Z.to_nat n) 0 ht;
  ht ← insert_test_drain (Z.to_nat n) 0 ht;
  ht ← hashtable_clear ht;
  hashtable_destroy ht.

(** ** The hash of a key *)

Lemma compute_hash_loop_spec b fuel : forall h,
  1 <= b -> 0 <= h < 2 ^ (b + Z.of_nat fuel) ->
  exists h', compute_hash_loop (S fuel) (2 ^ b - 1) b h = Ok h' /\ 0 <= h' < 2 ^ b.
Proof.
  induction fuel as [|fuel IH]; intros h Hb Hh; cbn [compute_hash_loop].
  { rewrite Z.add_0_r in Hh. rewrite ltb_f by lia. by exists h. }
  destruct (Z.ltb_spec (2 ^ b - 1) h) as [Hl|Hl]; [|exists h; split; [done|lia]].
  apply IH; [done|]. apply lxor_bound; [lia| |].
  - replace (2 ^ b - 1) with (Z.ones b) by (rewrite Z.ones_equiv; lia).
    rewrite Z.land_ones by lia. pose proof (Z.mod_pos_bound h (2 ^ b) ltac:(lia)).
    pose proof (Z.pow_le_mono_r 2 b (b + Z.of_nat fuel)). lia.
  - rewrite Z.shiftr_div_pow2 by lia. split; [apply Z.div_pos; lia|].
    apply Z.div_lt_upper_bound; [lia|]. rewrite <- Z.pow_add_r by lia.
    eapply Z.lt_le_trans; [apply Hh|]. apply Z.pow_le_mono_r; lia.
Qed.

(** The hash of a table of [2 ^ b] buckets. *)
Lemma compute_hash_spec b key :
  1 <= b <= 31 -> exists h, hashtable_compute_hash (2 ^ b) b key = Ok h /\ 0 <= h < 2 ^ b.
Proof.
  intros Hb. unfold hashtable_compute_hash.
  assert (Hp : 2 <= 2 ^ b <= 2 ^ 31).
  { split; [apply (Z.pow_le_mono_r 2 1 b)|apply (Z.pow_le_mono_r 2 b 31)]; lia. }
  rewrite wrap32_small by lia. pose proof (MurmurHash3_u32 key 0x5678 ltac:(done)) as Hm.
  destruct (compute_hash_loop_spec b 33 (MurmurHash3 key 0x5678)) as (h & -> & Hh); [lia| |].
  { split; [lia|]. eapply Z.lt_le_trans; [apply Hm|]. apply Z.pow_le_mono_r; lia. }
  exists h. unfold ASSERT, mbind, res_bind. rewrite ltb_t by lia. by split.
Qed.

#[global] Opaque hashtable_compute_hash.

(** ** The buckets hold a finite map *)

Section contents.
Context {V : Type}.
Implicit Types bs : list (list (hashtable_entry V)).
Implicit Types e : hashtable_entry V.
Implicit Types ht : hashtable V.

Definition pair_of e : list byte * V := (e_key e, e_clientData e).
Definition entries bs : list (list byte * V) := map pair_of (concat bs).
Definition keys_distinct bs : Prop := NoDup (entries bs).*1.
Definition to_map bs : gmap (list byte) V := list_to_map (entries bs).

(** Every entry is in the bucket of its hash. *)
Definition placed (nb nbits : Z) bs : Prop :=
  forall i c e, bs !! i = Some c -> e ∈ c -> hashtable_compute_hash nb nbits (e_key e) = Ok (Z.of_nat i).

Definition ht_wf ht : Prop :=
  (8 <= numBits ht <= 31 /\ numBuckets ht = 2 ^ numBits ht) /\
  Zlen (buckets ht) = numBuckets ht /\
  placed (numBuckets ht) (numBits ht) (buckets ht) /\
  keys_distinct (buckets ht) /\
  (count ht = Zlen (concat (buckets ht)) /\ count ht < 2 ^ 32).

Lemma concat_insert bs i c :
  bs !! i = Some c ->
  exists rest, concat bs ≡ₚ c ++ rest /\ forall c', concat (<[i := c']> bs) ≡ₚ c' ++ rest.
Proof.
  intros Hi. exists (concat (take i bs) ++ concat (drop (S i) bs)).
  assert (Hperm : forall c', concat (take i bs ++ c' :: drop (S i) bs) ≡ₚ
    c' ++ concat (take i bs) ++ concat (drop (S i) bs)).
  { intros c'. rewrite concat_app. cbn [concat]. by rewrite Permutation_app_swap_app. }
  split; [rewrite <- (take_drop_middle bs i c Hi) at 1; apply Hperm|].
  intros c'. rewrite insert_take_drop by (by eapply lookup_lt_Some). apply Hperm.
Qed.

Lemma entries_proper bs bs' : concat bs ≡ₚ concat bs' -> entries bs ≡ₚ entries bs'.
Proof. intros Hp. unfold entries. by apply Permutation_map. Qed.

Lemma distinct_proper bs bs' : concat bs ≡ₚ concat bs' -> keys_distinct bs -> keys_distinct bs'.
Proof. intros Hp%entries_proper Hd. unfold keys_distinct. by rewrite <- Hp. Qed.

Lemma to_map_proper bs bs' : keys_distinct bs -> concat bs ≡ₚ concat bs' -> to_map bs = to_map bs'.
Proof. intros Hd Hp. apply list_to_map_proper; [exact Hd|]. by apply entries_proper. Qed.

Lemma bucket_at_ok bs h c : 0 <= h -> bs !! Z.to_nat h = Some c -> bucket_at bs h = Ok c.
Proof. intros Hh E. unfold bucket_at. by rewrite E, ltb_f by lia. Qed.

Lemma bucket_in bs h : 0 <= h < Zlen bs -> exists c, bs !! Z.to_nat h = Some c.
Proof. intros Hh. apply lookup_lt_is_Some_2. unfold Zlen in Hh. lia. Qed.

Lemma placed_insert nb nbits bs h c :
  placed nb nbits bs -> 0 <= h ->
  (forall e, e ∈ c -> hashtable_compute_hash nb nbits (e_key e) = Ok h) ->
  placed nb nbits (<[Z.to_nat h := c]> bs).
Proof.
  intros Hp Hh Hc i c' e Hi He. destruct (decide (i = Z.to_nat h)) as [->|Hne].
  - apply list_lookup_insert_Some in Hi as [(_ & <- & _)|[? _]]; [|done].
    rewrite Z2Nat.id by done. by apply Hc.
  - rewrite list_lookup_insert_ne in Hi by done. by eapply Hp.
Qed.

Lemma bucket_push_spec nb nbits bs h e :
  placed nb nbits bs -> 0 <= h < Zlen bs -> hashtable_compute_hash nb nbits (e_key e) = Ok h ->
  exists bs', bucket_push bs h e = Ok bs' /\ placed nb nbits bs' /\ Zlen bs' = Zlen bs /\
    concat bs' ≡ₚ e :: concat bs.
Proof.
  intros Hp Hh He. destruct (bucket_in bs h Hh) as [c Hc]. unfold bucket_push.
  rewrite (bucket_at_ok bs h c) by (lia || done). rewrite bind_ok.
  eexists. split; [done|]. split; [|split].
  - apply placed_insert; [done|lia|]. intros e' [->|He']%elem_of_cons; [done|].
    rewrite (Hp _ _ _ Hc He'). f_equal. lia.
  - unfold Zlen. by rewrite length_insert.
  - destruct (concat_insert bs _ c Hc) as (rest & E1 & E2). by rewrite (E2 (e :: c)), E1.
Qed.

Lemma rehash_chain_spec b c : forall bs,
  1 <= b <= 31 -> placed (2 ^ b) b bs -> Zlen bs = 2 ^ b ->
  exists bs', rehash_chain (2 ^ b) b c bs = Ok bs' /\ placed (2 ^ b) b bs' /\ Zlen bs' = 2 ^ b /\
    concat bs' ≡ₚ c ++ concat bs.
Proof.
  induction c as [|e c IH]; intros bs Hb Hp Hl; cbn [rehash_chain]; [by exists bs|].
  destruct (compute_hash_spec b (e_key e) Hb) as (h & Eh & Hh). rewrite Eh. rewrite bind_ok.
  destruct (bucket_push_spec (2 ^ b) b bs h e) as (bs1 & -> & Hp1 & Hl1 & Hc1); [done|lia|done|].
  rewrite bind_ok. destruct (IH bs1 Hb Hp1 ltac:(lia)) as (bs2 & -> & Hp2 & Hl2 & Hc2).
  exists bs2. split; [done|]. split; [done|]. split; [done|].
  rewrite Hc2, Hc1. symmetry. apply Permutation_middle.
Qed.

Lemma rehash_spec b old : forall bs,
  1 <= b <= 31 -> placed (2 ^ b) b bs -> Zlen bs = 2 ^ b ->
  exists bs', rehash (2 ^ b) b old bs = Ok bs' /\ placed (2 ^ b) b bs' /\ Zlen bs' = 2 ^ b /\
    concat bs' ≡ₚ concat old ++ concat bs.
Proof.
  induction old as [|c old IH]; intros bs Hb Hp Hl; cbn [rehash]; [by exists bs|].
  destruct (rehash_chain_spec b c bs Hb Hp Hl) as (bs1 & -> & Hp1 & Hl1 & Hc1). rewrite bind_ok.
  destruct (IH bs1 Hb Hp1 Hl1) as (bs2 & -> & Hp2 & Hl2 & Hc2).
  exists bs2. split; [done|]. split; [done|]. split; [done|].
  rewrite Hc2, Hc1. cbn [concat]. rewrite <- app_assoc. apply Permutation_app_swap_app.
Qed.

Lemma placed_empty nb nbits n : placed nb nbits (replicate n []).
Proof. intros i c e Hi He. apply lookup_replicate in Hi as [-> _]. by apply elem_of_nil in He. Qed.

Lemma concat_empty n : concat (replicate n (@nil (hashtable_entry V))) = [].
Proof. by induction n. Qed.

(** The sizes a table may be resized to. *)
Lemma resize_target b (n : Z) :
  8 <= b <= 31 ->
  let nb := if wrap32 (4 * 2 ^ b) <? n then wrap32 (2 ^ b * 4)
            else if n <? 2 ^ b / 4 then 2 ^ b / 4 else 2 ^ b in
  nb <= 256 \/ exists b', 8 <= b' <= 31 /\ nb = 2 ^ b'.
Proof.
  intros Hb. cbv zeta.
  assert (Hdiv : 2 ^ b / 4 = 2 ^ (b - 2)).
  { change 4 with (2 ^ 2). rewrite <- Z.pow_sub_r by lia. done. }
  destruct (Z.ltb_spec (wrap32 (4 * 2 ^ b)) n).
  - destruct (Z.le_gt_cases b 29) as [Hs|Hs].
    + right. exists (b + 2). split; [lia|]. rewrite Z.pow_add_r by lia. change (2 ^ 2) with 4.
      apply wrap32_small. pose proof (Z.pow_le_mono_r 2 b 29). lia.
    + left. assert (b = 30 \/ b = 31) as [-> | ->] by lia; by vm_compute.
  - rewrite Hdiv. destruct (Z.ltb_spec n (2 ^ (b - 2))).
    + destruct (Z.le_gt_cases (b - 2) 8) as [Hs|Hs].
      * left. pose proof (Z.pow_le_mono_r 2 (b - 2) 8). lia.
      * right. exists (b - 2). split; [lia|done].
    + right. exists b. split; [lia|done].
Qed.

Lemma check_resize_spec ht :
  ht_wf ht ->
  exists ht', hashtable_check_resize ht = Ok ht' /\ ht_wf ht' /\
    concat (buckets ht') ≡ₚ concat (buckets ht).
Proof.
  intros Hwf. destruct Hwf as ([Hb Hn] & Hl & Hp & Hd & Hc & Hc32) eqn:Ewf. clear Ewf.
  unfold hashtable_check_resize, HASH_DEFAULT_FACTOR, HASH_DEFAULT_NUM_BUCKETS. rewrite Hn.
  pose proof (resize_target (numBits ht) (count ht) Hb) as Ht. cbv zeta in Ht |- *.
  match goal with |- context [if ?nb <=? 256 then _ else _] => set (nb0 := nb) in * end.
  destruct (Z.leb_spec nb0 256); [by exists ht|].
  destruct (Z.eqb_spec nb0 (2 ^ numBits ht)); [by exists ht|].
  destruct Ht as [?|(b' & Hb' & E)]; [lia|]. rewrite E.
  rewrite util_log2_spec; [rewrite Z.log2_pow2 by lia|
    split; [apply Z.pow_pos_nonneg; lia|apply Z.pow_lt_mono_r; lia]].
  assert (0 < 2 ^ b') by (apply Z.pow_pos_nonneg; lia).
  destruct (rehash_spec b' (buckets ht) (replicate (Z.to_nat (2 ^ b')) [])) as (bs & -> & Hp' & Hl' & Hc');
    [lia|apply placed_empty|unfold Zlen; rewrite length_replicate; lia|].
  rewrite bind_ok. eexists. split; [done|]. rewrite concat_empty, app_nil_r in Hc'.
  split; [|exact Hc']. unfold ht_wf. cbn [numBits numBuckets buckets count].
  split; [done|]. split; [done|]. split; [done|]. split; [by eapply distinct_proper; [symmetry|]|].
  split; [|done]. rewrite Hc. unfold Zlen. by rewrite Hc'.
Qed.

(** *** Chains *)

Lemma chain_find_Some c key i :
  chain_find c key = Some i -> exists e, c !! i = Some e /\ e_key e = key.
Proof.
  revert i. induction c as [|e c IH]; intros i E; [done|]. cbn in E. case_bool_decide as Hk.
  - injection E as <-. by exists e.
  - destruct (chain_find c key) as [j|] eqn:Ej; [|done]. injection E as <-. exact (IH j eq_refl).
Qed.

Lemma chain_find_None c key e : chain_find c key = None -> e ∈ c -> e_key e <> key.
Proof.
  induction c as [|e' c IH]; intros E He; [by apply elem_of_nil in He|].
  cbn in E. case_bool_decide as Hk; [done|].
  destruct (chain_find c key) eqn:Ej; [done|].
  apply elem_of_cons in He as [->|He]; [congruence|by apply IH].
Qed.

Lemma chain_unlink_spec c : forall n i e,
  c !! n = Some e -> chain_unlink (i + n) i c = Some (delete n c) /\ c ≡ₚ e :: delete n c.
Proof.
  intros n i e E. split; [|by apply delete_Permutation]. revert n i e E.
  induction c as [|e' c IH]; intros n i e E; [done|]. cbn [chain_unlink]. destruct n as [|n].
  - rewrite Nat.add_0_r. by destruct (decide (i = i)).
  - destruct (decide (i = (i + S n)%nat)); [lia|].
    rewrite Nat.add_succ_r, <- Nat.add_succ_l. by rewrite (IH n (S i) e E).
Qed.

(** What the search of a key in its bucket says of the map. *)
Lemma lookup_entry_spec ht key :
  ht_wf ht ->
  exists h c, hashtable_compute_hash (numBuckets ht) (numBits ht) key = Ok h /\
    0 <= h < Zlen (buckets ht) /\ buckets ht !! Z.to_nat h = Some c /\
    hashtable_lookup_entry ht h key = Ok (chain_find c key) /\
    match chain_find c key with
    | Some i => exists e, c !! i = Some e /\ e_key e = key /\ to_map (buckets ht) !! key = Some (e_clientData e)
    | None => to_map (buckets ht) !! key = None
    end.
Proof.
  intros ([Hb Hn] & Hl & Hp & Hd & _).
  destruct (compute_hash_spec (numBits ht) key ltac:(lia)) as (h & Eh & Hh).
  rewrite <- Hn, <- Hl in Hh. destruct (bucket_in _ h Hh) as [c Hc].
  exists h, c. rewrite Hn. split; [done|]. split; [done|]. split; [done|].
  unfold hashtable_lookup_entry. rewrite (bucket_at_ok _ h c) by (lia || done).
  split; [done|]. destruct (chain_find c key) as [i|] eqn:Ef.
  - apply chain_find_Some in Ef as (e & Hi & <-). exists e. split; [done|]. split; [done|].
    apply elem_of_list_to_map_1; [exact Hd|]. apply list_elem_of_In, in_map_iff.
    exists e. split; [done|]. apply in_concat. exists c.
    split; apply list_elem_of_In; by eapply list_elem_of_lookup_2.
  - apply not_elem_of_list_to_map_1. intros Hin.
    apply list_elem_of_In, in_map_iff in Hin as ([k v] & Hk & Hin). cbn in Hk. subst k.
    apply in_map_iff in Hin as (e & [= Hk Hv] & Hin). apply in_concat in Hin as (c' & Hc' & He).
    apply list_elem_of_In in Hc', He. apply list_elem_of_lookup_1 in Hc' as [i Hi].
    pose proof (Hp _ _ _ Hi He) as Hhash. rewrite Hk, Hn, Eh in Hhash. injection Hhash as ->.
    rewrite Nat2Z.id in Hc. rewrite Hc in Hi. injection Hi as ->. by eapply chain_find_None.
Qed.

(** *** The operations *)

Lemma size_to_map ht : ht_wf ht -> Z.of_nat (size (to_map (buckets ht))) = count ht.
Proof.
  intros (_ & _ & _ & Hd & Hc & _). rewrite Hc. unfold to_map.
  rewrite map_size_list_to_map by exact Hd. unfold Zlen, entries. by rewrite length_map.
Qed.

Lemma lookup_spec ht key :
  ht_wf ht -> hashtable_lookup ht key = Ok (to_map (buckets ht) !! key).
Proof.
  intros Hwf. destruct (lookup_entry_spec ht key Hwf) as (h & c & Eh & Hh & Hc & El & Hm).
  unfold hashtable_lookup. rewrite Eh. rewrite bind_ok. rewrite El. rewrite bind_ok.
  destruct (chain_find c key) as [i|]; [|by rewrite Hm].
  destruct Hm as (e & Hi & Hk & Hm). rewrite (bucket_at_ok _ h c) by (lia || done).
  rewrite bind_ok. by rewrite Hi, Hm.
Qed.

Lemma insert_spec ht key v :
  ht_wf ht -> count ht < 2 ^ 32 - 1 ->
  let m := to_map (buckets ht) in
  exists ht', hashtable_insert ht key v = Ok (bool_decide (m !! key = None), ht') /\ ht_wf ht' /\
    to_map (buckets ht') = if bool_decide (m !! key = None) then <[key := v]> m else m.
Proof.
  intros Hwf Hc m. unfold hashtable_insert.
  destruct (check_resize_spec ht Hwf) as (ht1 & -> & Hwf1 & Hp1). rewrite bind_ok.
  assert (Em : to_map (buckets ht1) = m) by (apply to_map_proper; [apply Hwf1|done]).
  assert (Ec : count ht1 = count ht) by (rewrite <- !size_to_map by done; by rewrite Em).
  destruct (lookup_entry_spec ht1 key Hwf1) as (h & c & Eh & Hh & Hb & El & Hm).
  rewrite Eh. rewrite bind_ok. rewrite El. rewrite bind_ok. rewrite Em in Hm.
  destruct (chain_find c key) as [i|] eqn:Ef.
  { destruct Hm as (e & Hi & Hk & Hm). exists ht1. by rewrite Hm. }
  rewrite Hm. destruct Hwf1 as ([Hb1 Hn1] & Hl1 & Hpl1 & Hd1 & Hc1 & Hc32).
  destruct (bucket_push_spec _ _ _ h (HtEntry key v) Hpl1 Hh Eh) as (bs & -> & Hp2 & Hl2 & Hcc).
  rewrite bind_ok. eexists. split; [done|]. cbn [buckets].
  assert (He : entries bs ≡ₚ (key, v) :: entries (buckets ht1)).
  { unfold entries. rewrite Hcc. done. }
  assert (Hd2 : keys_distinct bs).
  { unfold keys_distinct. rewrite He. cbn. constructor; [|exact Hd1].
    rewrite <- Em in Hm. by apply not_elem_of_list_to_map_2. }
  assert (Hcnt : wrap32 (count ht1 + 1) = Zlen (concat bs)).
  { rewrite wrap32_small by (pose proof (Zlen_nonneg (concat (buckets ht1))); lia).
    unfold Zlen. rewrite Hcc. cbn [length]. unfold Zlen in Hc1. lia. }
  split.
  - unfold ht_wf. cbn [numBits numBuckets buckets count]. repeat split; try done; try lia.
    rewrite wrap32_small by (pose proof (Zlen_nonneg (concat (buckets ht1))); lia). lia.
  - unfold to_map. rewrite (list_to_map_proper _ ((key, v) :: entries (buckets ht1)) Hd2 He).
    cbn. by rewrite <- Em.
Qed.

Lemma remove_spec ht key :
  ht_wf ht ->
  let m := to_map (buckets ht) in
  exists ht', hashtable_remove ht key = Ok (bool_decide (is_Some (m !! key)), ht') /\ ht_wf ht' /\
    to_map (buckets ht') = delete key m.
Proof.
  intros Hwf m. unfold hashtable_remove.
  destruct (check_resize_spec ht Hwf) as (ht1 & -> & Hwf1 & Hp1). rewrite bind_ok.
  assert (Em : to_map (buckets ht1) = m) by (apply to_map_proper; [apply Hwf1|done]).
  destruct (lookup_entry_spec ht1 key Hwf1) as (h & c & Eh & Hh & Hb & El & Hm).
  rewrite Eh. rewrite bind_ok. rewrite El. rewrite bind_ok. rewrite Em in Hm.
  destruct (chain_find c key) as [i|] eqn:Ef.
  2: { exists ht1. rewrite bool_decide_false by (rewrite Hm; by intros []).
       split; [done|]. split; [done|]. rewrite Em. symmetry. by apply delete_id. }
  destruct Hm as (e & Hi & Hk & Hm). rewrite (bucket_at_ok _ h c) by (lia || done).
  rewrite bind_ok. destruct (chain_unlink_spec c i 0 e Hi) as [E Hdel]. cbn [Nat.add] in E.
  rewrite E. rewrite bool_decide_true by (by rewrite Hm). eexists. split; [done|]. cbn [buckets].
  destruct Hwf1 as ([Hb1 Hn1] & Hl1 & Hpl1 & Hd1 & Hc1 & Hc32).
  destruct (concat_insert _ _ _ Hb) as (rest & E1 & E2). specialize (E2 (delete i c)).
  assert (Hcc : concat (buckets ht1) ≡ₚ e :: concat (<[Z.to_nat h := delete i c]> (buckets ht1))).
  { rewrite E1, E2, Hdel at 1. done. }
  assert (He : entries (buckets ht1) ≡ₚ pair_of e :: entries (<[Z.to_nat h := delete i c]> (buckets ht1))).
  { unfold entries. by rewrite Hcc. }
  pose proof Hd1 as Hd2. unfold keys_distinct in Hd2. rewrite He in Hd2. cbn in Hd2.
  apply NoDup_cons in Hd2 as [Hnot Hd2].
  assert (Hcnt : wrap32 (count ht1 - 1) = Zlen (concat (<[Z.to_nat h := delete i c]> (buckets ht1)))).
  { unfold Zlen in *. rewrite Hcc in Hc1. cbn [length] in Hc1. rewrite wrap32_small; lia. }
  split.
  - unfold ht_wf. cbn [numBits numBuckets buckets count].
    split; [done|]. split; [unfold Zlen; by rewrite length_insert|]. split.
    { apply placed_insert; [done|lia|]. intros e' He'. rewrite (Hpl1 _ _ e' Hb).
      - f_equal. lia.
      - rewrite Hdel. by apply elem_of_cons; right. }
    split; [done|]. split; [done|]. apply wrap32_bound.
  - rewrite <- Em. unfold to_map at 2.
    rewrite (list_to_map_proper _ _ Hd1 He). cbn [list_to_map foldr pair_of]. cbn. rewrite Hk.
    symmetry. apply delete_insert_id. rewrite <- Hk. by apply not_elem_of_list_to_map_1.
Qed.

Lemma create_spec :
  exists ht, @hashtable_create V = Ok ht /\ ht_wf ht /\ to_map (buckets ht) = ∅.
Proof.
  eexists. split; [reflexivity|]. unfold ht_wf. cbn [numBits numBuckets buckets count].
  assert (E : concat (replicate (Z.to_nat HASH_DEFAULT_NUM_BUCKETS) (@nil (hashtable_entry V))) = [])
    by apply concat_empty.
  unfold keys_distinct, to_map, entries. rewrite E. cbn. repeat split; try done; try lia.
  - apply placed_empty.
  - constructor.
Qed.

Lemma clear_spec ht :
  ht_wf ht ->
  exists ht', hashtable_clear ht = Ok ht' /\ ht_wf ht' /\ to_map (buckets ht') = ∅ /\
    hashtable_destroy ht' = Ok tt.
Proof.
  intros (Hb & Hl & Hp & Hd & Hc & Hc32). unfold hashtable_clear, hashtable_clear_with_callback.
  assert (Hfe : forall bs, buckets_for_each (fun _ _ (s : unit) => Ok s) bs tt = Ok tt).
  { assert (Hch : forall c, chain_for_each (V := V) (fun _ _ (s : unit) => Ok s) c tt = Ok tt)
      by (induction c as [|e c IH]; [done|]; cbn; by rewrite IH).
    induction bs as [|c bs IH]; [done|]. cbn. by rewrite Hch. }
  unfold hashtable_for_each. rewrite Hfe. rewrite bind_ok. eexists. split; [done|].
  assert (E : map (fun _ => []) (buckets ht) = replicate (length (buckets ht)) (@nil (hashtable_entry V))).
  { clear. induction (buckets ht) as [|c bs IH]; cbn; [done|]. by rewrite IH. }
  unfold ht_wf, hashtable_destroy, hashtable_clear, hashtable_clear_with_callback, hashtable_for_each.
  cbn [numBits numBuckets buckets count]. rewrite Hc, Z.sub_diag, E. rewrite Hfe.
  unfold keys_distinct, to_map, entries. rewrite concat_empty. cbn.
  split; [|done]. split; [done|]. split; [unfold Zlen; by rewrite length_replicate|].
  split; [apply placed_empty|]. split; [constructor|]. by vm_compute.
Qed.

(** [hashtable_for_each] is a fold over the entries. *)
Fixpoint fold_entries {S} (callback : list byte -> V -> S -> res S) (l : list (list byte * V)) (s : S) :
    res S :=
  match l with
  | [] => Ok s
  | (k, v) :: l => s ← callback k v s; fold_entries callback l s
  end.

Lemma for_each_fold {S} ht (callback : list byte -> V -> S -> res S) s :
  hashtable_for_each ht callback s = fold_entries callback (entries (buckets ht)) s.
Proof.
  unfold hashtable_for_each, entries. generalize (buckets ht). intros bs. revert s.
  assert (Hch : forall c l s, (s ← chain_for_each callback c s; fold_entries callback l s) =
    fold_entries callback (map pair_of c ++ l) s).
  { induction c as [|e c IH]; intros l s; [done|]. cbn [chain_for_each map app fold_entries pair_of].
    destruct (callback _ _ s); [|done]. rewrite !bind_ok. apply IH. }
  induction bs as [|c bs IH]; intros s; [done|]. cbn [buckets_for_each concat]. rewrite map_app, <- Hch.
  destruct (chain_for_each callback c s); [|done]. rewrite !bind_ok. apply IH.
Qed.

Lemma entries_map ht : ht_wf ht -> entries (buckets ht) ≡ₚ map_to_list (to_map (buckets ht)).
Proof. intros (_ & _ & _ & Hd & _). symmetry. by apply map_to_list_to_map. Qed.

Lemma get_entry_idx_spec ht idx :
  ht_wf ht -> 0 <= idx ->
  hashtable_get_entry_idx ht idx =
    if count ht <? idx then Ok None
    else if count ht =? idx then Fault Panic
    else match concat (buckets ht) !! Z.to_nat idx with Some e => Ok (Some e) | None => Fault UB end.
Proof.
  intros (_ & _ & _ & _ & Hc & _) Hi. unfold hashtable_get_entry_idx.
  destruct (Z.ltb_spec (count ht) idx); [done|].
  destruct (Z.eqb_spec (count ht) idx) as [E|E].
  - rewrite lookup_ge_None_2; [done|]. unfold Zlen in Hc. lia.
  - destruct (lookup_lt_is_Some_2 (concat (buckets ht)) (Z.to_nat idx)) as [e ->]; [|done].
    unfold Zlen in Hc. lia.
Qed.
End contents.

(** ** The interface *)

(** A table of pointers indexed by byte strings: what the modules of core/ rely
    on. [tbl_ok t m]: the table [t] holds the finite map [m]. *)
Class Table (V : Type) : Type := {
  table : Type;
  tbl_ok : table -> gmap (list byte) V -> Prop;
  t_create : res table;
  t_lookup : table -> list byte -> res (option V);
  t_insert : table -> list byte -> V -> res (bool * table);
  t_remove : table -> list byte -> res (bool * table);
  t_clear : table -> res table;
  t_getnumentries : table -> Z;
  t_entries : table -> list (list byte * V);
  t_create_ok : exists t, t_create = Ok t /\ tbl_ok t ∅;
  t_lookup_ok : forall t m k, tbl_ok t m -> t_lookup t k = Ok (m !! k);
  t_insert_ok : forall t m k v, tbl_ok t m -> Z.of_nat (size m) < 2 ^ 32 - 1 ->
    exists t', t_insert t k v = Ok (bool_decide (m !! k = None), t') /\
      tbl_ok t' (if bool_decide (m !! k = None) then <[k := v]> m else m);
  t_remove_ok : forall t m k, tbl_ok t m ->
    exists t', t_remove t k = Ok (bool_decide (is_Some (m !! k)), t') /\ tbl_ok t' (delete k m);
  t_clear_ok : forall t m, tbl_ok t m -> exists t', t_clear t = Ok t' /\ tbl_ok t' ∅;
  t_getnumentries_ok : forall t m, tbl_ok t m -> t_getnumentries t = Z.of_nat (size m);
  t_entries_ok : forall t m, tbl_ok t m -> t_entries t ≡ₚ map_to_list m
}.

(** [hashtable_for_each] through the interface: [for_each_fold]. *)
Definition t_for_each `{Table V} {S} (t : table) (callback : list byte -> V -> S -> res S) (s : S) : res S :=
  fold_entries callback (t_entries t) s.

#[export] Instance hashtable_Table (V : Type) : Table V.
Proof.
  refine {| table := hashtable V;
    tbl_ok := fun t m => ht_wf t /\ to_map (buckets t) = m;
    t_create := hashtable_create; t_lookup := hashtable_lookup; t_insert := hashtable_insert;
    t_remove := hashtable_remove; t_clear := hashtable_clear;
    t_getnumentries := hashtable_getnumentries; t_entries := fun t => entries (buckets t) |}.
  - destruct (@create_spec V) as (t & E & Hw & Hm). by exists t.
  - intros t m k [Hw <-]. by apply lookup_spec.
  - intros t m k v [Hw <-] Hs. rewrite size_to_map in Hs by done.
    destruct (insert_spec t k v Hw Hs) as (t' & E & Hw' & Hm). by exists t'.
  - intros t m k [Hw <-]. destruct (remove_spec t k Hw) as (t' & E & Hw' & Hm). by exists t'.
  - intros t m [Hw <-]. destruct (clear_spec t Hw) as (t' & E & Hw' & Hm & _). by exists t'.
  - intros t m [Hw <-]. symmetry. by apply size_to_map.
  - intros t m [Hw <-]. by apply entries_map.
Defined.

(** ** Sequences of operations *)

Section trace.
Context {V : Type}.

Inductive ht_op : Type :=
| HtInsert (key : list byte) (v : V)
| HtLookup (key : list byte)
| HtRemove (key : list byte)
| HtCount
| HtClear.

(** What a call returns. *)
Inductive ht_out : Type :=
| OutBool (b : bool)
| OutData (d : option V)
| OutCount (n : Z)
| OutUnit.

Definition ht_step (op : ht_op) (ht : hashtable V) : res (ht_out * hashtable V) :=
  match op with
  | HtInsert key v => '(b, ht) ← hashtable_insert ht key v; Ok (OutBool b, ht)
  | HtLookup key => d ← hashtable_lookup ht key; Ok (OutData d, ht)
  | HtRemove key => '(b, ht) ← hashtable_remove ht key; Ok (OutBool b, ht)
  | HtCount => Ok (OutCount (hashtable_getnumentries ht), ht)
  | HtClear => ht ← hashtable_clear ht; Ok (OutUnit, ht)
  end.

Definition map_step (op : ht_op) (m : gmap (list byte) V) : ht_out * gmap (list byte) V :=
  match op with
  | HtInsert key v =>
      if bool_decide (m !! key = None) then (OutBool true, <[key := v]> m) else (OutBool false, m)
  | HtLookup key => (OutData (m !! key), m)
  | HtRemove key => (OutBool (bool_decide (is_Some (m !! key))), delete key m)
  | HtCount => (OutCount (Z.of_nat (size m)), m)
  | HtClear => (OutUnit, ∅)
  end.

Fixpoint ht_run (ops : list ht_op) (ht : hashtable V) : res (list ht_out * hashtable V) :=
  match ops with
  | [] => Ok ([], ht)
  | op :: ops => '(o, ht) ← ht_step op ht; '(os, ht) ← ht_run ops ht; Ok (o :: os, ht)
  end.

Fixpoint map_run (ops : list ht_op) (m : gmap (list byte) V) : list ht_out :=
  match ops with
  | [] => []
  | op :: ops => let '(o, m) := map_step op m in o :: map_run ops m
  end.

Lemma ht_step_spec op ht :
  ht_wf ht -> count ht < 2 ^ 32 - 1 ->
  exists ht', ht_step op ht = Ok ((map_step op (to_map (buckets ht))).1, ht') /\ ht_wf ht' /\
    to_map (buckets ht') = (map_step op (to_map (buckets ht))).2 /\ count ht' <= count ht + 1.
Proof.
  intros Hwf Hc.
  assert (Hcount : forall (ht' : hashtable V) (m : gmap (list byte) V), ht_wf ht' -> to_map (buckets ht') = m ->
    (size m <= S (size (to_map (buckets ht))))%nat -> count ht' <= count ht + 1).
  { intros ht' m Hwf' <- Hs. rewrite <- !size_to_map by done. lia. }
  destruct op as [key v|key|key| |]; cbn [ht_step map_step].
  - destruct (insert_spec ht key v Hwf Hc) as (ht' & -> & Hwf' & Hm). rewrite bind_ok.
    exists ht'. case_bool_decide; (split; [done|]; split; [done|]; split; [done|]);
      eapply Hcount; [done|exact Hm| |done|exact Hm|lia].
    rewrite map_size_insert_None by done. lia.
  - rewrite lookup_spec by done. rewrite bind_ok. exists ht. split; [done|]. split; [done|]. split; [done|lia].
  - destruct (remove_spec ht key Hwf) as (ht' & -> & Hwf' & Hm). rewrite bind_ok.
    exists ht'. split; [done|]. split; [done|]. split; [done|]. eapply Hcount; [done|exact Hm|].
    rewrite map_size_delete. destruct (to_map (buckets ht) !! key); cbn; lia.
  - exists ht. unfold hashtable_getnumentries. rewrite size_to_map by done.
    split; [done|]. split; [done|]. split; [done|lia].
  - destruct (clear_spec ht Hwf) as (ht' & -> & Hwf' & Hm & _). rewrite bind_ok.
    exists ht'. split; [done|]. split; [done|]. split; [done|]. eapply Hcount; [done|exact Hm|].
    rewrite map_size_empty. lia.
Qed.

Lemma ht_run_spec ops : forall ht,
  ht_wf ht -> count ht + Zlen ops < 2 ^ 32 ->
  exists ht', ht_run ops ht = Ok (map_run ops (to_map (buckets ht)), ht') /\ ht_wf ht'.
Proof.
  induction ops as [|op ops IH]; intros ht Hwf Hc; cbn [ht_run map_run]; [by exists ht|].
  rewrite Zlen_cons in Hc. pose proof (Zlen_nonneg ops).
  destruct (ht_step_spec op ht Hwf ltac:(lia)) as (ht1 & -> & Hwf1 & Hm & Hc1). rewrite bind_ok.
  destruct (IH ht1 Hwf1 ltac:(lia)) as (ht2 & -> & Hwf2). rewrite bind_ok. exists ht2.
  split; [|done]. rewrite Hm. by destruct (map_step op (to_map (buckets ht))).
Qed.
End trace.
Arguments ht_op : clear implicits.
Arguments ht_out : clear implicits.

(** ** The self-test *)

Section insert_test.
Implicit Types ht : hashtable unit.

(** The keys of the table are the counters from [lo] to [hi]. *)
Definition counters ht (lo hi : Z) : Prop :=
  ht_wf ht /\ forall j, u32 j -> is_Some (to_map (buckets ht) !! le_bytes 4 j) <-> lo <= j < hi.

Lemma insert_test_fill_spec n : forall i ht,
  counters ht 0 i -> count ht = i -> 0 <= i -> i + Z.of_nat n < 2 ^ 32 ->
  exists ht', insert_test_fill n i ht = Ok ht' /\ counters ht' 0 (i + Z.of_nat n).
Proof.
  induction n as [|n IH]; intros i ht [Hwf Hk] Hc Hi Hn; cbn [insert_test_fill].
  { exists ht. by rewrite Z.add_0_r. }
  destruct (insert_spec ht (le_bytes 4 i) tt Hwf ltac:(lia)) as (ht1 & -> & Hwf1 & Hm1).
  assert (Hnone : to_map (buckets ht) !! le_bytes 4 i = None).
  { apply eq_None_not_Some. rewrite Hk by lia. lia. }
  rewrite Hnone in *. rewrite bind_ok. cbn [bool_decide decide_rel]. 
  rewrite bool_decide_true in * by done. cbn [ASSERT]. rewrite bind_ok.
  destruct (IH (i + 1) ht1) as (ht2 & E & Hk2); [| |lia|lia|].
  - split; [done|]. intros j Hj. rewrite Hm1. destruct (decide (i = j)) as [->|Hne].
    + rewrite lookup_insert_eq. split; [lia|done].
    + rewrite lookup_insert_ne by (intros E%le_bytes_inj; lia). rewrite Hk by done. lia.
  - rewrite <- size_to_map by done. rewrite Hm1, map_size_insert_None by done.
    rewrite Nat2Z.inj_succ, size_to_map by done. lia.
  - exists ht2. split; [done|]. by replace (i + Z.of_nat (S n)) with (i + 1 + Z.of_nat n) by lia.
Qed.

Lemma insert_test_drain_spec n : forall i ht,
  counters ht i (i + Z.of_nat n) -> 0 <= i -> i + Z.of_nat n < 2 ^ 32 ->
  exists ht', insert_test_drain n i ht = Ok ht' /\ ht_wf ht'.
Proof.
  induction n as [|n IH]; intros i ht [Hwf Hk] Hi Hn; cbn [insert_test_drain].
  { exists ht. done. }
  destruct (remove_spec ht (le_bytes 4 i) Hwf) as (ht1 & -> & Hwf1 & Hm1).
  rewrite bool_decide_true by (apply Hk; lia). rewrite bind_ok. cbn [ASSERT]. rewrite bind_ok.
  apply IH; [|lia|lia]. split; [done|]. intros j Hj. rewrite Hm1.
  destruct (decide (i = j)) as [->|Hne].
  - rewrite lookup_delete_eq. split; [by intros []|lia].
  - rewrite lookup_delete_ne by (intros E%le_bytes_inj; lia). rewrite Hk by done. lia.
Qed.

Lemma insert_test_ok n : 0 <= n < 2 ^ 32 -> hashtable_insert_test n = Ok tt.
Proof.
  intros Hn. unfold hashtable_insert_test.
  destruct (@create_spec unit) as (ht & -> & Hwf & Hm). rewrite bind_ok.
  destruct (insert_test_fill_spec (Z.to_nat n) 0 ht) as (ht1 & -> & Hk); [| |lia|lia|].
  { split; [done|]. intros j _. rewrite Hm, lookup_empty. split; [by intros []|lia]. }
  { rewrite <- size_to_map by done. by rewrite Hm, map_size_empty. }
  rewrite bind_ok.
  destruct (insert_test_drain_spec (Z.to_nat n) 0 ht1 Hk) as (ht2 & -> & Hwf2); [lia|lia|].
  rewrite bind_ok. destruct (clear_spec ht2 Hwf2) as (ht3 & -> & _ & _ & Hd).
  by rewrite bind_ok.
Qed.
End insert_test.

(** ** Properties *)

(** C29: the table is a finite map. From [hashtable_create] on, whatever the
    sequence of insertions, lookups, removals, counts and clears (less than
    2^32 of them), with all the resizing they cause, every call returns what
    the same call on a finite map returns, and none stops the process or
    touches memory outside the buckets. *)
Theorem hashtable_simulates_map {V} (ops : list (ht_op V)) :
  Zlen ops < 2 ^ 32 ->
  exists ht, (ht ← hashtable_create; ht_run ops ht) = Ok (map_run ops ∅, ht).
Proof.
  intros Hl. destruct (@create_spec V) as (ht & -> & Hwf & Hm). rewrite bind_ok.
  destruct (ht_run_spec ops ht Hwf) as (ht' & E & _).
  { rewrite <- size_to_map by done. rewrite Hm, map_size_empty. lia. }
  exists ht'. by rewrite E, Hm.
Qed.

Lemma hashtable_simulates_map_witness :
  exists ht, (ht ← hashtable_create; ht_run [HtInsert [x01] 7; HtInsert [x01] 8; HtLookup [x01];
      HtRemove [x02]; HtRemove [x01]; HtCount] ht) =
    Ok ([OutBool true; OutBool false; OutData (Some 7); OutBool false; OutBool true; OutCount 0], ht).
Proof.
  exact (hashtable_simulates_map [HtInsert [x01] 7; HtInsert [x01] 8; HtLookup [x01];
    HtRemove [x02]; HtRemove [x01]; HtCount] eq_refl).
Defined.

(** An iteration visits every binding of the map exactly once, and
    stepping through the entries by their index enumerates the same bindings
    for the indices below the count. The first index past them is not
    rejected, though: the bound is tested with [>] where [>=] was meant, and
    the process stops. *)
Theorem hashtable_enumerates {V} (ht : hashtable V) :
  ht_wf ht ->
  (forall S (callback : list byte -> V -> S -> res S) s,
     hashtable_for_each ht callback s = fold_entries callback (entries (buckets ht)) s) /\
  entries (buckets ht) ≡ₚ map_to_list (to_map (buckets ht)) /\
  (forall idx e, (idx < Z.to_nat (count ht))%nat ->
     hashtable_get_entry_idx ht (Z.of_nat idx) = Ok e <->
     exists e', e = Some e' /\ entries (buckets ht) !! idx = Some (pair_of e') /\
                concat (buckets ht) !! idx = Some e') /\
  hashtable_get_entry_idx ht (count ht) = Fault Panic.
Proof.
  intros Hwf. pose proof Hwf as (_ & _ & _ & _ & Hc & _).
  split; [intros; apply for_each_fold|]. split; [by apply entries_map|]. split.
  - intros idx e Hi. rewrite get_entry_idx_spec, ltb_f, eqb_f, Nat2Z.id by (done || lia).
    unfold entries. change (map pair_of) with (fmap (M := list) (pair_of (V := V))). rewrite list_lookup_fmap.
    destruct (lookup_lt_is_Some_2 (concat (buckets ht)) idx) as [e1 ->]; [unfold Zlen in Hc; lia|].
    split; [intros [= <-]; by exists e1|]. by intros (e' & -> & _ & [= <-]).
  - pose proof (Zlen_nonneg (concat (buckets ht))).
    rewrite get_entry_idx_spec, ltb_f, eqb_t by (done || lia). done.
Qed.

Lemma hashtable_enumerates_witness :
  exists ht, @hashtable_create Z = Ok ht /\ hashtable_get_entry_idx ht 0 = Fault Panic.
Proof.
  destruct (@create_spec Z) as (ht & E & Hwf & Hm). exists ht. split; [exact E|].
  destruct (hashtable_enumerates ht Hwf) as (_ & _ & _ & HP).
  rewrite <- (size_to_map ht Hwf), Hm in HP. exact HP.
Defined.

(** The self-test passes for every number of entries: the [n] keys go in as
    new ones, all are found again and removed, and the table is empty when it
    is destroyed. *)
Theorem hashtable_insert_test_passes (n : Z) : 0 <= n < 2 ^ 32 -> hashtable_insert_test n = Ok tt.
Proof. apply insert_test_ok. Qed.

Lemma hashtable_insert_test_passes_witness : hashtable_insert_test 3000 = Ok tt.
Proof. apply (hashtable_insert_test_passes 3000). lia. Defined.
