(* ===== verification/Objects.v ===== *)
(** * Hash tables of objects

    The client data of a table is often a pointer to an object that the program
    changes in place. [rep t heap m] says that the table [t] and the objects of
    [heap] stand for the map [m] from keys to contents: one object per key. *)
From S2P Require Export Hashtable.

(** [p->field] of an object. *)
Definition obj_load {A : Type} (heap : gmap positive A) (p : positive) : res A :=
  match heap !! p with Some a => Ok a | None => Fault UB end.

(** The address of a new object. *)
Definition obj_new {A : Type} (heap : gmap positive A) : positive := fresh (dom heap : gset positive).

Section objects.
Context `{T : Table positive} {A : Type}.
Implicit Types t : table.
Implicit Types heap : gmap positive A.
Implicit Types m : gmap (list byte) A.
Implicit Types pm : gmap (list byte) positive.

Definition points_to pm heap m : Prop :=
  (forall k, m !! k = pm !! k ≫= (fun p => heap !! p)) /\
  (forall k p, pm !! k = Some p -> is_Some (heap !! p)) /\
  (forall k1 k2 p, pm !! k1 = Some p -> pm !! k2 = Some p -> k1 = k2).

Definition rep t heap m : Prop := exists pm, tbl_ok t pm /\ points_to pm heap m.

Lemma obj_new_fresh heap : heap !! obj_new heap = None.
Proof. apply (not_elem_of_dom (D := gset positive)). unfold obj_new. apply is_fresh. Qed.

Lemma obj_load_ok heap p a : heap !! p = Some a -> obj_load heap p = Ok a.
Proof. unfold obj_load. by intros ->. Qed.

Lemma points_to_dom pm heap m k : points_to pm heap m -> is_Some (pm !! k) <-> is_Some (m !! k).
Proof.
  intros (Hm & Hin & _). rewrite Hm. destruct (pm !! k) as [p|] eqn:E; cbn; [|done].
  split; [intros _; by apply (Hin k)|done].
Qed.

Lemma points_to_size pm heap m : points_to pm heap m -> size pm = size m.
Proof.
  intros Hp. rewrite <- (size_dom (D := gset (list byte)) pm), <- (size_dom (D := gset (list byte)) m).
  f_equal. apply set_eq. intros k. rewrite !elem_of_dom. by apply (points_to_dom _ heap).
Qed.

Lemma rep_empty t heap : tbl_ok t ∅ -> rep t heap ∅.
Proof.
  intros Ht. exists ∅. split; [done|]. split_and!; intros *; rewrite !lookup_empty; done.
Qed.

(** The lookup of a key gives the object, or NULL. *)
Lemma rep_lookup t heap m k :
  rep t heap m ->
  exists o, t_lookup t k = Ok o /\
    match o with Some p => heap !! p = m !! k /\ is_Some (m !! k) | None => m !! k = None end.
Proof.
  intros (pm & Ht & Hp). exists (pm !! k). split; [by apply t_lookup_ok|].
  pose proof Hp as (Hm & Hin & _). destruct (pm !! k) as [p|] eqn:E; rewrite Hm, E; cbn; [|done].
  split; [done|by apply (Hin k)].
Qed.

(** Writing to the object found under [k]. *)
Lemma rep_update t heap m k p a :
  rep t heap m -> t_lookup t k = Ok (Some p) -> rep t (<[p := a]> heap) (<[k := a]> m).
Proof.
  intros (pm & Ht & Hm & Hin & Hinj) E. rewrite (t_lookup_ok _ _ _ Ht) in E. injection E as E.
  exists pm. split; [done|]. split_and!; [| |done].
  - intros k'. destruct (decide (k' = k)) as [->|Hne].
    + rewrite lookup_insert_eq, E. cbn. by rewrite lookup_insert_eq.
    + rewrite lookup_insert_ne, Hm by done. destruct (pm !! k') as [q|] eqn:Eq; cbn; [|done].
      rewrite lookup_insert_ne; [done|]. intros ->. by apply Hne, (Hinj _ _ q).
  - intros k' q Eq. destruct (decide (q = p)) as [->|Hne]; [by rewrite lookup_insert_eq|].
    rewrite lookup_insert_ne by done. by apply (Hin k').
Qed.

(** A new object under a new key. *)
Lemma rep_insert t heap m k p a :
  rep t heap m -> heap !! p = None -> Z.of_nat (size m) < 2 ^ 32 - 1 ->
  exists t', t_insert t k p = Ok (bool_decide (m !! k = None), t') /\
    (m !! k = None -> rep t' (<[p := a]> heap) (<[k := a]> m) /\ t_lookup t' k = Ok (Some p)).
Proof.
  intros (pm & Ht & Hp) Hnew Hs. rewrite <- (points_to_size _ _ _ Hp) in Hs.
  destruct (t_insert_ok t pm k p Ht Hs) as (t' & E & Ht').
  pose proof (points_to_dom _ _ _ k Hp) as Hd. pose proof Hp as (Hm & Hin & Hinj).
  assert (Hb : bool_decide (pm !! k = None) = bool_decide (m !! k = None)).
  { apply bool_decide_ext. rewrite !eq_None_not_Some. by rewrite Hd. }
  exists t'. rewrite E, Hb. split; [done|]. intros Hk.
  assert (Hpk : pm !! k = None) by (apply eq_None_not_Some; rewrite Hd, Hk; by intros [? ?]).
  rewrite bool_decide_eq_true_2 in Ht' by done. split; [|by rewrite (t_lookup_ok _ _ _ Ht'), lookup_insert_eq].
  exists (<[k := p]> pm). split; [done|].
  assert (Hno : forall k', pm !! k' <> Some p) by (intros k' E'; destruct (Hin k' p E'); congruence).
  split_and!.
  - intros k'. destruct (decide (k' = k)) as [->|Hne].
    + rewrite !lookup_insert_eq. cbn. by rewrite lookup_insert_eq.
    + rewrite !lookup_insert_ne, Hm by done. destruct (pm !! k') as [q|] eqn:Eq; cbn; [|done].
      rewrite lookup_insert_ne; [done|]. intros ->. by apply (Hno k').
  - intros k' q [[<- <-]|[Hne Eq]]%lookup_insert_Some; [by rewrite lookup_insert_eq|].
    rewrite lookup_insert_ne; [by apply (Hin k')|]. intros ->. by apply (Hno k').
  - intros k1 k2 q. destruct (decide (k1 = k)) as [->|N1], (decide (k2 = k)) as [->|N2]; [done|..].
    + rewrite lookup_insert_eq, lookup_insert_ne by done. intros [= <-] E2. by destruct (Hno k2).
    + rewrite lookup_insert_eq, lookup_insert_ne by done. intros E1 [= <-]. by destruct (Hno k1).
    + rewrite !lookup_insert_ne by done. apply Hinj.
Qed.

Lemma rep_remove t heap m k :
  rep t heap m ->
  exists t', t_remove t k = Ok (bool_decide (is_Some (m !! k)), t') /\ rep t' heap (delete k m).
Proof.
  intros (pm & Ht & Hp). destruct (t_remove_ok t pm k Ht) as (t' & E & Ht'). exists t'. split.
  - rewrite E. f_equal. f_equal. apply bool_decide_ext. by apply (points_to_dom _ heap).
  - exists (delete k pm). split; [done|]. destruct Hp as (Hm & Hin & Hinj). split_and!.
    + intros k'. destruct (decide (k' = k)) as [->|Hne]; [by rewrite !lookup_delete_eq|].
      by rewrite !lookup_delete_ne, Hm.
    + intros k' p [_ E']%lookup_delete_Some. by apply (Hin k').
    + intros k1 k2 p [_ E1]%lookup_delete_Some [_ E2]%lookup_delete_Some. by apply (Hinj _ _ p).
Qed.

Lemma rep_size t heap m : rep t heap m -> t_getnumentries t = Z.of_nat (size m).
Proof.
  intros (pm & Ht & Hp). rewrite (t_getnumentries_ok _ _ Ht). by rewrite (points_to_size _ _ _ Hp).
Qed.

(** The order of an iteration is that of the buckets. *)
Lemma rep_entries t heap m :
  rep t heap m ->
  exists l, l ≡ₚ map_to_list m /\
    Forall2 (fun (e : list byte * positive) (x : list byte * A) => e.1 = x.1 /\ heap !! e.2 = Some x.2) (t_entries t) l.
Proof.
  intros (pm & Ht & Hm & Hin & Hinj). pose proof (t_entries_ok _ _ Ht) as Hl.
  assert (HF : Forall (fun e : list byte * positive => pm !! e.1 = Some e.2) (t_entries t)).
  { apply Forall_forall. intros [k p] He. rewrite Hl in He. by apply elem_of_map_to_list in He. }
  assert (Hval : exists l, Forall2 (fun (e : list byte * positive) (x : list byte * A) =>
    e.1 = x.1 /\ heap !! e.2 = Some x.2) (t_entries t) l).
  { clear Hl. induction HF as [|[k p] l E _ [l' IH]]; [by exists []|].
    destruct (Hin k p E) as [a Ha]. exists ((k, a) :: l'). by constructor. }
  destruct Hval as [l Hval]. exists l. split; [|done].
  assert (Hkeys : l.*1 = (t_entries t).*1).
  { clear HF Hl. induction Hval as [|e x l1 l2 [E _] _ IH]; [done|]. cbn. by rewrite IH, E. }
  apply NoDup_Permutation.
  - apply NoDup_fmap_1 with (f := fst). rewrite Hkeys, Hl. apply NoDup_fst_map_to_list.
  - apply NoDup_map_to_list.
  - intros [k a]. rewrite elem_of_map_to_list, Hm. split.
    + intros [i Hi]%list_elem_of_lookup_1. destruct (Forall2_lookup_r _ _ _ _ _ Hval Hi) as ([k' p] & He & Ek & Ea).
      cbn in Ek, Ea. subst k'. apply list_elem_of_lookup_2, (proj1 (Forall_forall _ _) HF) in He. cbn in He.
      by rewrite He.
    + destruct (pm !! k) as [p|] eqn:Ep; cbn; [|done]. intros Ea.
      assert (He : (k, p) ∈ t_entries t) by by rewrite Hl, elem_of_map_to_list.
      apply list_elem_of_lookup_1 in He as [i Hi].
      destruct (Forall2_lookup_l _ _ _ _ _ Hval Hi) as ([k' a'] & Hx & Ek & Ea'). cbn in Ek, Ea'. subst k'.
      assert (a' = a) as -> by congruence. by eapply list_elem_of_lookup_2.
Qed.
End objects.
