(* ===== verification/Files.v ===== *)
(** * Files (lib/file/file.c and the system calls)

    A descriptor is modelled with the bytes of the file, the position and the
    outcomes of the calls still to come: a call may fail or transfer fewer bytes
    than asked. *)
From S2P Require Export Text.

(** [IoAgain] is an error with [EAGAIN] or [EINTR]. *)
Inductive io_outcome : Set := IoOk | IoShort (k : nat) | IoFail | IoAgain.

Record file : Type := File { f_data : list byte; f_pos : Z; f_io : list io_outcome }.

(** When no outcome is left, the calls succeed. *)
Definition next_io (f : file) : io_outcome * file :=
  match f_io f with
  | [] => (IoOk, f)
  | o :: l => (o, File (f_data f) (f_pos f) l)
  end.

(** [lseek(fd, off, SEEK_SET)]: [true] for an error. *)
Definition sys_lseek (f : file) (off : Z) : bool * file :=
  let '(o, f) := next_io f in
  match o with
  | IoFail | IoAgain => (true, f)
  | _ => (false, File (f_data f) off (f_io f))
  end.

(** [bs] over the bytes at [pos]; a hole is filled with zeros. *)
Definition file_put (data : list byte) (pos : nat) (bs : list byte) : list byte :=
  take pos data ++ replicate (pos - length data) x00 ++ bs ++ drop (pos + length bs) data.

(** The number of bytes transferred, -1 for an error. *)
Definition sys_write (f : file) (bs : list byte) : Z * file :=
  let '(o, f) := next_io f in
  let put bs := (Zlen bs, File (file_put (f_data f) (Z.to_nat (f_pos f)) bs) (f_pos f + Zlen bs) (f_io f)) in
  match o with
  | IoOk => put bs
  | IoShort k => put (take k bs)
  | IoFail | IoAgain => (-1, f)
  end.

Definition sys_read (f : file) (n : nat) : Z * list byte * file :=
  let '(o, f) := next_io f in
  let get n :=
    let bs := take n (drop (Z.to_nat (f_pos f)) (f_data f)) in
    (Zlen bs, bs, File (f_data f) (f_pos f + Zlen bs) (f_io f)) in
  match o with
  | IoOk => get n
  | IoShort k => get (Nat.min k n)
  | IoFail | IoAgain => (-1, [], f)
  end.


(** ** lib/file/file.c *)

(** [do res = pwrite(..); while (res == -1 && again)]: the outcomes are consumed
    up to the first that is not [IoAgain]. The error, the number of bytes
    written and the file. *)
Fixpoint pwrite_loop (io : list io_outcome) (data : list byte) (pos offset : Z) (buf : list byte) :
    bool * Z * file :=
  let put bs io := (false, Zlen bs, File (file_put data (Z.to_nat offset) bs) pos io) in
  match io with
  | [] | IoOk :: _ => put buf (tail io)
  | IoShort k :: io => put (take k buf) io
  | IoFail :: io => (true, 0, File data pos io)
  | IoAgain :: io => pwrite_loop io data pos offset buf
  end.
Definition file_pwrite (desc : file) (offset : Z) (buf : list byte) : bool * Z * file :=
  pwrite_loop (f_io desc) (f_data desc) (f_pos desc) offset buf.

(** The error, the bytes read ([*numRead] of them) and the file. *)
Fixpoint pread_loop (io : list io_outcome) (data : list byte) (pos offset len : Z) :
    bool * list byte * file :=
  let get n io := (false, take n (drop (Z.to_nat offset) data), File data pos io) in
  match io with
  | [] | IoOk :: _ => get (Z.to_nat len) (tail io)
  | IoShort k :: io => get (Nat.min k (Z.to_nat len)) io
  | IoFail :: io => (true, [], File data pos io)
  | IoAgain :: io => pread_loop io data pos offset len
  end.
Definition file_pread (desc : file) (offset len : Z) : bool * list byte * file :=
  pread_loop (f_io desc) (f_data desc) (f_pos desc) offset len.

(** -1 for an error. *)
Definition file_getsize (desc : file) : Z * file :=
  let '(o, desc) := next_io desc in
  match o with IoFail | IoAgain => (-1, desc) | _ => (Zlen (f_data desc), desc) end.

(** [ftruncate]: [true] for an error. *)
Definition file_truncate (desc : file) (offset : Z) : bool * file :=
  let '(o, desc) := next_io desc in
  match o with
  | IoFail | IoAgain => (true, desc)
  | _ => let n := Z.to_nat offset in
         (false, File (take n (f_data desc) ++ replicate (n - length (f_data desc)) x00) (f_pos desc) (f_io desc))
  end.

(** A stdio stream: what can still be read, and whether an error comes after it
    instead of the end of the file. *)
Record stream : Type := Stream { st_data : list byte; st_fails : bool }.

(** At most [n] characters up to a newline, what is left, and whether the limit
    or the newline was reached. *)
Fixpoint take_line (n : nat) (s : list byte) : list byte * list byte * bool :=
  match n, s with
  | O, _ => ([], s, true)
  | S _, [] => ([], [], false)
  | S n, c :: s => if bool_decide (c = x0a) then ([c], s, true)
                   else let '(l, r, complete) := take_line n s in (c :: l, r, complete)
  end.
Definition fgets (size : nat) (f : stream) : option (list byte) * stream :=
  let '(l, r, complete) := take_line (size - 1) (st_data f) in
  (if complete : bool then Some l else if st_fails f || bool_decide (l = []) then None else Some l, Stream r (st_fails f)).

(** The status is 0 whatever happens: an error looks like the end of the file. *)
Definition file_getline (desc : stream) : option (list byte) * stream :=
  let '(s, desc) := fgets 1024 desc in (cstr <$> s, desc).

(** ** Names

    A directory: the files by name, and the outcomes of the calls to come. *)

Record disk : Type := Disk { dk_files : gmap (list byte) (list byte); dk_io : list io_outcome }.

Definition dk_next (d : disk) : bool * disk :=
  match dk_io d with
  | [] => (true, d)
  | o :: l => (match o with IoFail | IoAgain => false | _ => true end, Disk (dk_files d) l)
  end.

(** Below, [true] is an error. A file that is not there is no error of unlink. *)
Definition file_unlink (filename : list byte) (d : disk) : bool * disk :=
  let '(ok, d) := dk_next d in
  if ok : bool then (false, Disk (delete filename (dk_files d)) (dk_io d)) else (true, d).

Definition file_rename (src dst : list byte) (d : disk) : bool * disk :=
  let '(ok, d) := dk_next d in
  match dk_files d !! src with
  | Some x => if ok : bool then (false, Disk (<[dst := x]> (delete src (dk_files d))) (dk_io d)) else (true, d)
  | None => (true, d)
  end.

Definition file_exists (filename : list byte) (d : disk) : bool * disk :=
  let '(ok, d) := dk_next d in ((ok : bool) && bool_decide (is_Some (dk_files d !! filename)), d).

(** [open(O_CREAT)] leaves a file that is there as it is. *)
Definition file_create (filename : list byte) (d : disk) : bool * disk :=
  let '(ok, d) := dk_next d in
  if ok : bool then
    (false, match dk_files d !! filename with Some _ => d | None => Disk (<[filename := []]> (dk_files d)) (dk_io d) end)
  else (true, d).

(** When chmod fails, [res] is errno, and the code asserts that it is -1: the
    process stops, and the directory is what it was. [there] is whether the path
    names something. *)
Definition chmod_path (there : bool) (d : disk) : res bool * disk :=
  let '(ok, d) := dk_next d in (if (ok : bool) && there then Ok false else Fault Panic, d).
Definition file_chmod (filename : list byte) (d : disk) : res bool * disk :=
  chmod_path (bool_decide (is_Some (dk_files d !! filename))) d.

(** The directory for the code that goes on. *)
Definition going_on {A : Type} (r : res A * disk) : res (A * disk) := a ← r.1; Ok (a, r.2).

(** [snprintf(file, PATH_MAX, "%s.%u", filename, i)] *)
Definition rotated (filename : list byte) (i : nat) : list byte :=
  take 4095 (filename ++ x2e :: dec_str 10 (Z.of_nat i)).

(** The rounds from [i - 1] down to 0: whether one failed. *)
Fixpoint rotate_loop (n i : nat) (filename : list byte) (d : disk) : bool * disk :=
  match i with
  | O => (false, d)
  | S i' =>
      let file0 := rotated filename i' in
      let '(there, d) := file_exists file0 d in
      if negb there then rotate_loop n i' filename d else
      let '(res, d) := if bool_decide (i = n) then file_unlink file0 d
                       else file_rename file0 (rotated filename i) d in
      if res : bool then (true, d) else rotate_loop n i' filename d
  end.
Definition file_rotate (filename : list byte) (n : nat) (d : disk) : res (bool * disk) :=
  _ ← ASSERT (bool_decide (0 < n)%nat);
  let '(res, d) := rotate_loop n n filename d in
  Ok (if res : bool then (true, d) else file_rename filename (rotated filename 0) d).

(** The descriptor of a file opened for reading and writing, and the directory
    after writing through it. *)
Definition file_open (name : list byte) (d : disk) : option file * disk :=
  let '(ok, d) := dk_next d in
  match dk_files d !! name with
  | Some x => if ok : bool then (Some (File x 0 (dk_io d)), d) else (None, d)
  | None => (None, d)
  end.
Definition file_synced (name : list byte) (f : file) (d : disk) : disk := Disk (<[name := f_data f]> (dk_files d)) (f_io f).

(** ** What the calls do *)

(** A short line is read whole. *)
Lemma take_line_app l r n : x0a ∉ l -> (length l < n)%nat -> take_line n (l ++ x0a :: r) = (l ++ [x0a], r, true).
Proof.
  revert n. induction l as [|c l IH]; intros [|n] Hl Hn; cbn [length] in Hn; [lia| |lia|]; cbn [app take_line].
  - by rewrite bool_decide_eq_true_2.
  - apply not_elem_of_cons in Hl as [Hc Hl]. rewrite bool_decide_eq_false_2, IH by (congruence || lia || done). done.
Qed.

Lemma take_line_length n s l r b : take_line n s = (l, r, b) -> length s = (length l + length r)%nat.
Proof.
  revert s l r b. induction n as [|n IH]; intros [|c s] l r b; cbn [take_line]; try (by intros [= <- <- _]).
  case_bool_decide; [by intros [= <- <- _]|]. destruct (take_line n s) as [[l' r'] b'] eqn:E.
  intros [= <- <- <-]. cbn. by rewrite (IH _ _ _ _ E).
Qed.

Lemma take_line_ne n s l r : take_line (S n) s = (l, r, true) -> l <> [].
Proof.
  destruct s as [|c s]; cbn [take_line]; [done|]. case_bool_decide; [by intros [= <- _]|].
  destruct (take_line n s) as [[? ?] ?]. by intros [= <- _ _].
Qed.

Lemma getline_line l r fails : x0a ∉ l -> x00 ∉ l -> (length l < 1023)%nat ->
  file_getline (Stream (l ++ x0a :: r) fails) = (Some (l ++ [x0a]), Stream r fails).
Proof.
  intros Hl H0 Hn. unfold file_getline, fgets. cbn [st_data st_fails].
  rewrite take_line_app by (done || lia). cbn [fmap option_fmap option_map].
  rewrite cstr_id; [done|]. rewrite elem_of_app, list_elem_of_singleton. by intros [?|?].
Qed.

(** An error leaves nothing of the line. *)
Lemma take_line_rest n : forall l, x0a ∉ l -> (length l < n)%nat -> take_line n l = (l, [], false).
Proof.
  induction n as [|n IH]; intros [|c l] Hl Hn; cbn [length take_line] in *; [lia..|done|].
  apply not_elem_of_cons in Hl as [Hc Hl]. rewrite bool_decide_eq_false_2, IH by (congruence || lia || done). done.
Qed.
Lemma getline_fails l : x0a ∉ l -> (length l < 1023)%nat -> file_getline (Stream l true) = (None, Stream [] true).
Proof. intros Hl Hn. unfold file_getline, fgets. cbn [st_data st_fails]. by rewrite take_line_rest. Qed.

Lemma getline_end fails : file_getline (Stream [] fails) = (None, Stream [] fails).
Proof. unfold file_getline, fgets. cbn. by rewrite orb_true_r. Qed.

(** Every line takes a character at least. *)
Lemma getline_shorter f l f' : file_getline f = (Some l, f') -> (length (st_data f') < length (st_data f))%nat.
Proof.
  unfold file_getline, fgets. destruct (take_line _ _) as [[l0 r] b] eqn:E. pose proof (take_line_length _ _ _ _ _ E) as Hl.
  assert (Hc : b = true -> l0 <> []) by (intros ->; by apply (take_line_ne 1022 _ _ _ E)).
  destruct b.
  - intros [= _ <-]. specialize (Hc eq_refl). destruct l0; [done|]. cbn in *. lia.
  - destruct (st_fails f); cbn [orb]; [done|]. case_bool_decide as E0; [done|]. intros [= _ <-].
    destruct l0; [done|]. cbn in *. lia.
Qed.

Lemma file_put_in data pos bs :
  (pos <= length data)%nat -> file_put data pos bs = take pos data ++ bs ++ drop (pos + length bs) data.
Proof.
  intros Hp. unfold file_put. replace (pos - length data)%nat with 0%nat by lia. done.
Qed.

Lemma take_min_length {A} k (l : list A) : take (Nat.min k (length l)) l = take k l.
Proof.
  destruct (Nat.le_gt_cases k (length l)); [by rewrite Nat.min_l by lia|].
  by rewrite Nat.min_r, firstn_all, take_ge by lia.
Qed.

Lemma sys_write_spec f bs :
  0 <= f_pos f <= Zlen (f_data f) ->
  exists k n f', sys_write f bs = (n, f') /\ (k <= length bs)%nat /\
    f_data f' = take (Z.to_nat (f_pos f)) (f_data f) ++ take k bs ++ drop (Z.to_nat (f_pos f) + k) (f_data f) /\
    (n = Zlen bs -> k = length bs) /\ (f_io f = [] -> n = Zlen bs /\ f_io f' = []).
Proof.
  intros Hp. assert (Hp' : (Z.to_nat (f_pos f) <= length (f_data f))%nat) by (unfold Zlen in Hp; lia).
  unfold sys_write, next_io. destruct (f_io f) as [|[|k| |] l] eqn:Ef; cbn [f_data f_pos f_io].
  - exists (length bs). eexists _, _. split; [done|]. split; [lia|]. cbn [f_data f_io].
    rewrite firstn_all, file_put_in by done. done.
  - exists (length bs). eexists _, _. split; [done|]. split; [lia|]. cbn [f_data].
    rewrite firstn_all, file_put_in by done. done.
  - exists (Nat.min k (length bs)). eexists _, _. split; [done|]. split; [lia|]. cbn [f_data].
    rewrite take_min_length, file_put_in, length_take by done. unfold Zlen. rewrite length_take.
    split; [done|]. split; [lia|done].
  - exists 0%nat. eexists _, _. split; [done|]. split; [lia|]. cbn [f_data].
    rewrite take_0, Nat.add_0_r. cbn. rewrite take_drop. split; [done|].
    pose proof (Zlen_nonneg bs). split; [lia|done].
  - exists 0%nat. eexists _, _. split; [done|]. split; [lia|]. cbn [f_data].
    rewrite take_0, Nat.add_0_r. cbn. rewrite take_drop. split; [done|].
    pose proof (Zlen_nonneg bs). split; [lia|done].
Qed.

Lemma sys_lseek_spec f off :
  exists r f', sys_lseek f off = (r, f') /\ f_data f' = f_data f /\ (r = false -> f_pos f' = off) /\
    (f_io f = [] -> r = false /\ f_io f' = []).
Proof.
  unfold sys_lseek, next_io.
  destruct (f_io f) as [|[|k| |] l] eqn:E; eexists _, _; (split; [done|]); cbn; rewrite ?E; done.
Qed.

Lemma sys_read_all data pos n bs rest :
  drop (Z.to_nat pos) data = bs ++ rest -> length bs = n ->
  sys_read (File data pos []) n = (Z.of_nat n, bs, File data (pos + Z.of_nat n) []).
Proof.
  intros E <-. unfold sys_read, next_io. cbn [f_io f_data f_pos]. rewrite E, take_app_length. done.
Qed.

Lemma drop_read (data : list byte) pos n bs rest :
  0 <= pos -> drop (Z.to_nat pos) data = bs ++ rest -> length bs = n ->
  drop (Z.to_nat (pos + Z.of_nat n)) data = rest.
Proof.
  intros Hp E <-. rewrite Z2Nat.inj_add, Nat2Z.id, <- drop_drop by lia.
  rewrite E. apply drop_app_length.
Qed.

Lemma sys_read_any f n :
  0 <= f_pos f <= Zlen (f_data f) ->
  exists k bs f', sys_read f n = (k, bs, f') /\ f_data f' = f_data f /\
    f_pos f <= f_pos f' <= Zlen (f_data f) /\ (k = Z.of_nat n -> f_pos f' = f_pos f + Z.of_nat n).
Proof.
  intros Hp. unfold sys_read, next_io.
  assert (Hg : forall m, 0 <= Zlen (take m (drop (Z.to_nat (f_pos f)) (f_data f))) <= Zlen (f_data f) - f_pos f).
  { intros m. split; [apply Zlen_nonneg|]. unfold Zlen in *. rewrite length_take, length_drop. lia. }
  destruct (f_io f) as [|[|k| |] l]; (eexists _, _, _; split; [done|]); cbn;
    (split; [done|]); try (specialize (Hg n); lia); try (specialize (Hg (Nat.min k n)); lia).
Qed.
