(* ===== verification/Config.v ===== *)
(** * Configuration files (lib/config/config.c)

    The sorted list of keys and values, the typed setters and getters, and the
    text a configuration is saved as. The formatted name of an entry is an
    argument; a list of entries is never shared, so the pointer config_get
    returns is the position of an entry. *)
From Stdlib Require Import Strings.String Sorting.Sorted.
From stdpp Require Import sorting.
From S2P Require Export Files.

Inductive ConfigKVType : Set := CONFIG_KV_UNKNOWN | CONFIG_KV_STRING | CONFIG_KV_INT64 | CONFIG_KV_BOOL.
#[export] Instance ConfigKVType_eq_dec : EqDecision ConfigKVType.
Proof. solve_decision. Defined.

(** The union of a [KeyValuePair], by what was written to it last: the pointer
    [str], all eight bytes as an integer, or only the byte of [trueOrFalse]. *)
Inductive kv_union : Type :=
| U_str (s : option (list byte))
| U_word (z : Z)
| U_low (c : bool).

Record KeyValuePair : Type := KVP {
  kv_key : list byte; kv_save : bool; kv_type : ConfigKVType; kv_u : kv_union }.
Record config : Type := Config { cf_fileName : option (list byte); cf_list : list KeyValuePair }.

(** Reading a member: a pointer that was not written is no pointer, unless all
    its bytes are 0. *)
Definition kv_str (u : kv_union) : res (option (list byte)) :=
  match u with U_str s => Ok s | U_word z => if z =? 0 then Ok None else Fault UB | U_low _ => Fault UB end.
Definition kv_val (u : kv_union) : res Z :=
  match u with U_word z => Ok z | U_str None => Ok 0 | _ => Fault UB end.
Definition kv_bool (u : kv_union) : res bool :=
  match u with
  | U_low c => Ok c
  | U_word z => if z mod 256 =? 0 then Ok false else if z mod 256 =? 1 then Ok true else Fault UB
  | U_str None => Ok false
  | U_str (Some _) => Fault UB
  end.
(** Writing [trueOrFalse]. *)
Definition set_low (u : kv_union) (c : bool) : kv_union :=
  match u with
  | U_word z => U_word (z - z mod 256 + Z.b2z c)
  | U_str None => U_word (Z.b2z c)
  | _ => U_low c
  end.

Definition with_list (l : list KeyValuePair) (conf : config) : config := Config (cf_fileName conf) l.

Definition config_create : config := Config None [].

(** Before the first entry that is not smaller. *)
Fixpoint config_insert (l : list KeyValuePair) (e : KeyValuePair) : list KeyValuePair :=
  match l with
  | item :: l' => if strcmp (kv_key item) (kv_key e) <? 0 then item :: config_insert l' e else e :: l
  | [] => [e]
  end.

Fixpoint config_find (i : nat) (l : list KeyValuePair) (key : list byte) : option (nat * KeyValuePair) :=
  match l with
  | [] => None
  | e :: l => if strcasecmp_eq (kv_key e) key then Some (i, e) else config_find (S i) l key
  end.
Definition config_get (conf : config) (key : list byte) : option (nat * KeyValuePair) :=
  config_find 0 (cf_list conf) key.

(** [*p = e] *)
Definition kv_write (i : nat) (e : KeyValuePair) (conf : config) : config :=
  with_list (<[i := e]> (cf_list conf)) conf.

(** [vsnprintf(key, 1024, fmt, ap)] *)
Definition key_buf (key : list byte) : list byte := take 1023 key.

Definition config_isset (conf : config) (key : list byte) : bool :=
  match config_get conf (key_buf key) with Some _ => true | None => false end.

(** The check of an existing entry that setint64 and setbool share: [str] is
    released, but the type stays UNKNOWN. *)
Definition retype (e : KeyValuePair) (t : ConfigKVType) : res kv_union :=
  if bool_decide (kv_type e = CONFIG_KV_UNKNOWN) then _ ← kv_str (kv_u e); Ok (U_str None)
  else _ ← ASSERT (bool_decide (kv_type e = t)); Ok (kv_u e).

Definition config_setint64 (conf : config) (val : Z) (key : list byte) : res config :=
  let key := key_buf key in
  match config_get conf key with
  | Some (i, e) =>
      _ ← retype e CONFIG_KV_INT64;
      Ok (kv_write i (KVP (kv_key e) true (kv_type e) (U_word val)) conf)
  | None => Ok (with_list (config_insert (cf_list conf) (KVP key true CONFIG_KV_INT64 (U_word val))) conf)
  end.

Definition config_setbool (conf : config) (s : bool) (key : list byte) : res config :=
  let key := key_buf key in
  match config_get conf key with
  | Some (i, e) =>
      u ← retype e CONFIG_KV_BOOL;
      Ok (kv_write i (KVP (kv_key e) true (kv_type e) (set_low u s)) conf)
  | None => Ok (with_list (config_insert (cf_list conf) (KVP key true CONFIG_KV_BOOL (U_low s))) conf)
  end.

Definition config_setstring (conf : config) (str : option (list byte)) (key : list byte) : res config :=
  let key := key_buf key in
  match config_get conf key with
  | Some (i, e) =>
      _ ← ASSERT (bool_decide (kv_type e = CONFIG_KV_STRING) || bool_decide (kv_type e = CONFIG_KV_UNKNOWN));
      _ ← kv_str (kv_u e);
      Ok (kv_write i (KVP (kv_key e) true (kv_type e) (U_str str)) conf)
  | None => Ok (with_list (config_insert (cf_list conf) (KVP key true CONFIG_KV_STRING (U_str str))) conf)
  end.

Definition config_setunknownkv (conf : config) (key val : list byte) : config :=
  with_list (config_insert (cf_list conf) (KVP key true CONFIG_KV_UNKNOWN (U_str (Some val)))) conf.

(** [e = config_get(config, key); e->save = 0;] *)
Definition config_nosave (conf : config) (key : list byte) : res config :=
  match config_get conf key with
  | Some (i, e) => Ok (kv_write i (KVP (kv_key e) false (kv_type e) (kv_u e)) conf)
  | None => Fault UB
  end.

(** The value returned and the configuration. *)
Definition config_getint64 (conf : config) (defaultValue : Z) (key : list byte) : res (Z * config) :=
  let key := key_buf key in
  match config_get conf key with
  | Some (i, e) =>
      if bool_decide (kv_type e = CONFIG_KV_UNKNOWN) then
        s ← kv_str (kv_u e);
        match s with
        | None => Fault UB
        | Some s => v ← atoll s; Ok (v, kv_write i (KVP (kv_key e) (kv_save e) CONFIG_KV_INT64 (U_word v)) conf)
        end
      else
        _ ← ASSERT (bool_decide (kv_type e = CONFIG_KV_INT64));
        v ← kv_val (kv_u e);
        Ok (v, conf)
  | None =>
      conf ← config_setint64 conf defaultValue key;
      conf ← config_nosave conf key;
      Ok (defaultValue, conf)
  end.

Definition config_getbool (conf : config) (defaultValue : bool) (key : list byte) : res (bool * config) :=
  let key := key_buf key in
  match config_get conf key with
  | Some (i, e) =>
      if bool_decide (kv_type e = CONFIG_KV_UNKNOWN) then
        s ← kv_str (kv_u e);
        match s with
        | None => Fault UB
        | Some s =>
            v ← (if strcasecmp_eq s (str "true") then Ok true else _ ← ASSERT (strcasecmp_eq s (str "false")); Ok false);
            Ok (v, kv_write i (KVP (kv_key e) (kv_save e) CONFIG_KV_BOOL (set_low (U_str None) v)) conf)
        end
      else
        _ ← ASSERT (bool_decide (kv_type e = CONFIG_KV_BOOL));
        v ← kv_bool (kv_u e);
        Ok (v, conf)
  | None =>
      conf ← config_setbool conf defaultValue key;
      conf ← config_nosave conf key;
      Ok (defaultValue, conf)
  end.

Definition config_getstring (conf : config) (defaultStr : option (list byte)) (key : list byte) :
    res (option (list byte) * config) :=
  let key := key_buf key in
  match config_get conf key with
  | Some (i, e) =>
      conf ← (if bool_decide (kv_type e = CONFIG_KV_UNKNOWN)
                then Ok (kv_write i (KVP (kv_key e) (kv_save e) CONFIG_KV_STRING (kv_u e)) conf)
                else _ ← ASSERT (bool_decide (kv_type e = CONFIG_KV_STRING)); Ok conf);
      s ← kv_str (kv_u e);
      Ok (s, conf)
  | None =>
      conf ← config_setstring conf defaultStr key;
      conf ← config_nosave conf key;
      Ok (defaultStr, conf)
  end.

(** ** The text *)

(** [while (i > 0 && str[i] == ' ') i--], from the end. *)
Fixpoint chomp_loop (rstr : list byte) : list byte :=
  match rstr with
  | c :: t => if negb (bool_decide (t = [])) && bool_decide (c = x20) then chomp_loop t else rstr
  | [] => []
  end.
Definition config_chomp (str : list byte) : res (list byte) :=
  _ ← ASSERT (negb (bool_decide (str = [])));
  Ok (rev (chomp_loop (rev str))).

Fixpoint skip_spaces0 (s : list byte) : list byte :=
  match s with c :: t => if bool_decide (c = x20) then skip_spaces0 t else s | [] => [] end.

(** [line[len - 1] = '\0'] after a newline or a carriage return; the last
    character of an empty line is before the block. *)
Definition strip_eol (line : list byte) : res (list byte) :=
  match last line with
  | None => Fault UB
  | Some c => Ok (if bool_decide (c = x0a) || bool_decide (c = x0d) then take (length line - 1) line else line)
  end.

(** [sscanf(ptr, "%[^=]=%[^\n]", k, v)]: both fields, or fewer than two. *)
Definition scan_kv (ptr : list byte) : option (list byte * list byte) :=
  let '(k, r) := break_at x3d ptr in
  match k, r with
  | _ :: _, _ :: r => let v := (break_at x0a r).1 in if bool_decide (v = []) then None else Some (k, v)
  | _, _ => None
  end.

(** What is between the quotes: [None] for the return FALSE. A lone quote has no
    closing one to overwrite. *)
Definition unquote (v : list byte) : res (option (list byte)) :=
  match v with
  | c :: v => if bool_decide (c = x22) then
                match strrchr v x22 with
                | None => Fault UB
                | Some O => Ok None
                | Some n => Ok (Some (take n v))
                end
              else Ok (Some (c :: v))
  | [] => Ok (Some [])
  end.

(** [None] is FALSE, [Some None] a line without an entry. *)
Definition config_parseline (line : list byte) : res (option (option (list byte * list byte))) :=
  line ← strip_eol line;
  let ptr := skip_spaces0 line in
  match ptr with
  | [] => Ok (Some None)
  | c :: _ =>
      if bool_decide (c = x0a) || bool_decide (c = x23) then Ok (Some None) else
      match scan_kv ptr with
      | None => Ok None
      | Some (k, v) =>
          k ← config_chomp k;
          v ← config_chomp v;
          v ← unquote (skip_spaces0 v);
          Ok ((fun v => Some (k, v)) <$> v)
      end
  end.

(** The loop of config_load; [fuel] is at least the number of lines. A line that
    is refused is logged after it was freed. *)
Fixpoint config_load_loop (fuel : nat) (fd : stream) (conf : config) : res config :=
  match fuel with
  | O => Fault Panic
  | S fuel =>
      let '(line, fd) := file_getline fd in
      match line with
      | None => Ok conf
      | Some line =>
          r ← config_parseline line;
          match r with
          | None => Fault UB
          | Some None => config_load_loop fuel fd conf
          | Some (Some (key, val)) => config_load_loop fuel fd (config_setunknownkv conf key val)
          end
      end
  end.

(** [None] for the error of file_open. *)
Definition config_load (fileName : list byte) (fd : option stream) : res (option config) :=
  match fd with
  | None => Ok None
  | Some fd =>
      conf ← config_load_loop (S (length (st_data fd))) fd (Config (Some fileName) []);
      Ok (Some conf)
  end.

(** The text of a value; a NULL string has none. *)
Definition kv_text (e : KeyValuePair) : res (option (list byte)) :=
  match kv_type e with
  | CONFIG_KV_INT64 => v ← kv_val (kv_u e); Ok (Some (print_d64 v))
  | CONFIG_KV_BOOL => v ← kv_bool (kv_u e); Ok (Some (if v : bool then str "TRUE" else str "FALSE"))
  | CONFIG_KV_UNKNOWN | CONFIG_KV_STRING => kv_str (kv_u e)
  end.
(** [key = "value"] *)
Definition config_line (key val : list byte) : list byte := key ++ str " = " ++ [x22] ++ val ++ [x22; x0a].

Fixpoint config_write_loop (l : list KeyValuePair) (offset : Z) (fd : file) : res (bool * file) :=
  match l with
  | [] => Ok (false, fd)
  | e :: l =>
      if negb (kv_save e) then config_write_loop l offset fd else
      s ← kv_text e;
      match s with
      | None => config_write_loop l offset fd
      | Some s =>
          let s := config_line (kv_key e) s in
          let '(res, numBytes, fd) := file_pwrite fd offset s in
          if (res : bool) || negb (numBytes =? Zlen s) then Ok (res, fd)
          else config_write_loop l (wrap64 (offset + numBytes)) fd
      end
  end.

(** [true] for an error; [fd] is what file_open gives. *)
Definition config_write (conf : config) (filename : option (list byte)) (fd : option file) :
    res (bool * config * option file) :=
  conf ← match filename with
         | None => _ ← ASSERT (bool_decide (is_Some (cf_fileName conf))); Ok conf
         | Some f => Ok (Config (Some f) (cf_list conf))
         end;
  match fd with
  | None => Ok (true, conf, None)
  | Some fd =>
      let '(res, fd) := file_truncate fd 0 in
      if res : bool then Ok (true, conf, Some fd) else
      '(res, fd) ← config_write_loop (cf_list conf) 0 fd;
      Ok (res, conf, Some fd)
  end.
Definition config_save (conf : config) (fd : option file) : res (bool * config * option file) := config_write conf None fd.

(** ** Lines *)

(** A key the text format keeps: not empty, no separator in it, nothing at its
    ends that the reader strips or takes for a comment. *)
Definition key_text (k : list byte) : Prop :=
  (x00 ∉ k) /\ (x0a ∉ k) /\ (x3d ∉ k) /\
  (exists c t, k = c :: t /\ c <> x20 /\ c <> x23) /\ last k <> Some x20.
Definition val_text (v : list byte) : Prop := (x00 ∉ v) /\ (x0a ∉ v) /\ v <> [].
(** fgets reads at most 1023 characters. *)
Definition line_fits (k v : list byte) : Prop := (length k + length v + 6 < 1024)%nat.
Definition kv_fits (kv : list byte * list byte) : Prop := key_text kv.1 /\ val_text kv.2 /\ line_fits kv.1 kv.2.

(** The line without its newline. *)
Definition line_body (k v : list byte) : list byte := k ++ str " = " ++ [x22] ++ v ++ [x22].
Lemma config_line_body k v : config_line k v = line_body k v ++ [x0a].
Proof. unfold config_line, line_body. by rewrite <- !app_assoc. Qed.

Lemma notin_check (c : byte) (l : list byte) : bool_decide (c ∈ l) = false -> c ∉ l.
Proof. by intros ?%bool_decide_eq_false. Qed.

Lemma chomp_plain s c : c <> x20 -> config_chomp (s ++ [c]) = Ok (s ++ [c]).
Proof.
  intros Hc. unfold config_chomp. rewrite bool_decide_eq_false_2 by (by intros [_ ?]%app_eq_nil).
  cbn [negb ASSERT]. rewrite bind_ok, rev_unit. cbn [chomp_loop].
  rewrite (bool_decide_eq_false_2 (c = x20)), andb_false_r by done. cbn [rev]. by rewrite rev_involutive.
Qed.
Lemma chomp_space s c : c <> x20 -> config_chomp (s ++ [c; x20]) = Ok (s ++ [c]).
Proof.
  intros Hc. unfold config_chomp. rewrite bool_decide_eq_false_2 by (by intros [_ ?]%app_eq_nil).
  cbn [negb ASSERT]. rewrite bind_ok. replace (s ++ [c; x20]) with ((s ++ [c]) ++ [x20]) by by rewrite <- app_assoc.
  rewrite !rev_unit. cbn [chomp_loop]. rewrite (bool_decide_eq_false_2 (c = x20)), andb_false_r by done.
  rewrite bool_decide_eq_false_2 by done. rewrite bool_decide_eq_true_2 by done. cbn [negb andb].
  by rewrite <- rev_unit, rev_involutive.
Qed.

(** sscanf never gives an empty field, so the ASSERT of config_chomp holds. *)
Lemma config_chomp_ok s : s <> [] -> exists s', config_chomp s = Ok s'.
Proof. intros Hs. unfold config_chomp. rewrite bool_decide_eq_false_2 by done. by eexists. Qed.

Lemma scan_kv_ne ptr k v : scan_kv ptr = Some (k, v) -> k <> [] /\ v <> [].
Proof.
  unfold scan_kv. destruct (break_at x3d ptr) as [[|c k0] [|? r]]; [done..|]. case_bool_decide; [done|].
  by intros [= <- <-].
Qed.

Lemma strip_eol_line l : strip_eol (l ++ [x0a]) = Ok l.
Proof.
  unfold strip_eol. rewrite last_snoc, bool_decide_eq_true_2 by done. cbn [orb]. f_equal.
  rewrite length_app. cbn [length]. rewrite Nat.add_sub. apply take_app_length.
Qed.

Lemma key_last k : key_text k -> exists s c, k = s ++ [c] /\ c <> x20.
Proof.
  intros (_ & _ & _ & (c & t & -> & _) & Hl). destruct (exists_last (l := c :: t)) as (s & d & E); [done|].
  exists s, d. rewrite E in Hl |- *. rewrite last_snoc in Hl. by split; [|congruence].
Qed.

(** What config_parseline finds on a line that config_write printed. *)
Lemma parseline_quoted k v : key_text k -> (x0a ∉ v) ->
  config_parseline (config_line k v) = 
    match unquote (x22 :: v ++ [x22]) with Ok w => Ok ((fun w => Some (k, w)) <$> w) | Fault f => Fault f end.
Proof.
  intros Hk Hva. destruct (key_last k Hk) as (s & d & Es & Hd).
  destruct Hk as (H0 & Ha & He & (c & t & Ek & Hc1 & Hc2) & _).
  assert (Hca : c <> x0a) by (intros ->; apply Ha; rewrite Ek; left).
  unfold config_parseline. rewrite config_line_body, strip_eol_line, bind_ok.
  assert (Hp : skip_spaces0 (line_body k v) = line_body k v).
  { unfold line_body. rewrite Ek. cbn [app skip_spaces0]. by rewrite bool_decide_eq_false_2. }
  rewrite Hp. cbv zeta. assert (Hsc : scan_kv (line_body k v) = Some (k ++ [x20], [x20; x22] ++ v ++ [x22])).
  { unfold scan_kv, line_body. replace (k ++ str " = " ++ [x22] ++ v ++ [x22])
      with ((k ++ [x20]) ++ x3d :: [x20; x22] ++ v ++ [x22]) by by rewrite <- app_assoc.
    rewrite break_at_app.
    2: { rewrite elem_of_app, list_elem_of_singleton. by intros [?|?]. }
    destruct (k ++ [x20]) as [|y kk] eqn:Eks; [by destruct k|]. rewrite break_at_none.
    2: { rewrite !not_elem_of_app. split_and!; [by apply notin_check|done|by apply notin_check]. }
    cbn [fst]. by rewrite bool_decide_eq_false_2. }
  destruct (line_body k v) as [|x r] eqn:El; [unfold line_body in El; by rewrite Ek in El|].
  assert (x = c) as -> by (unfold line_body in El; rewrite Ek in El; by injection El).
  rewrite !(bool_decide_eq_false_2 (c = _)) by done. cbn [orb]. rewrite Hsc.
  rewrite Es, <- app_assoc. cbn [app]. rewrite chomp_space, bind_ok by done.
  replace (x20 :: x22 :: v ++ [x22]) with (([x20; x22] ++ v) ++ [x22]) by done.
  rewrite chomp_plain, bind_ok by done. cbn [app skip_spaces0].
  rewrite bool_decide_eq_true_2, bool_decide_eq_false_2 by done. done.
Qed.

Lemma parseline_line k v : kv_fits (k, v) -> config_parseline (config_line k v) = Ok (Some (Some (k, v))).
Proof.
  intros (Hk & (Hv0 & Hva & Hvn) & _). cbn [fst snd] in *. rewrite parseline_quoted by done. unfold unquote.
  rewrite bool_decide_eq_true_2, strrchr_last by done.
  destruct v as [|y v]; [done|]. cbn [length]. cbn [fmap option_fmap option_map].
  by rewrite (take_app_length (y :: v)).
Qed.
(** The line of an empty string is refused. *)
Lemma parseline_empty k : key_text k -> config_parseline (config_line k []) = Ok None.
Proof. intros Hk. rewrite parseline_quoted by (done || apply not_elem_of_nil). done. Qed.

(** Keys never collide with the newline. *)
Lemma line_body_plain k v : kv_fits (k, v) -> (x0a ∉ line_body k v) /\ (x00 ∉ line_body k v) /\ (length (line_body k v) < 1023)%nat.
Proof.
  intros ((H0 & Ha & _) & (Hv0 & Hva & _) & Hl). unfold line_fits in Hl. cbn [fst snd] in *. unfold line_body.
  rewrite !not_elem_of_app, !length_app, !list_elem_of_singleton. cbn [length].
  change (length (str " = ")) with 3%nat. split_and!; try done; try lia; by apply notin_check.
Qed.

(** ** Saving and loading *)

(** The lines of a configuration: the entries to save that have a text. *)
Fixpoint saved_kvs (l : list KeyValuePair) : res (list (list byte * list byte)) :=
  match l with
  | [] => Ok []
  | e :: l =>
      if negb (kv_save e) then saved_kvs l else
      s ← kv_text e;
      kvs ← saved_kvs l;
      Ok (match s with Some s => (kv_key e, s) :: kvs | None => kvs end)
  end.
Definition config_text (kvs : list (list byte * list byte)) : list byte := concat (map (fun kv => config_line kv.1 kv.2) kvs).
(** An entry that was read from a file. *)
Definition loaded (kv : list byte * list byte) : KeyValuePair := KVP kv.1 true CONFIG_KV_UNKNOWN (U_str (Some kv.2)).

Lemma file_pwrite_end data pos bs :
  file_pwrite (File data pos []) (Zlen data) bs = (false, Zlen bs, File (data ++ bs) pos []).
Proof.
  unfold file_pwrite. cbn [pwrite_loop f_io f_data f_pos tail]. rewrite to_nat_Zlen, file_put_in by lia.
  by rewrite firstn_all, drop_ge, app_nil_r by lia.
Qed.

Lemma write_loop_ok l : forall kvs data pos, saved_kvs l = Ok kvs -> Zlen (data ++ config_text kvs) < 2 ^ 64 ->
  config_write_loop l (Zlen data) (File data pos []) = Ok (false, File (data ++ config_text kvs) pos []).
Proof.
  induction l as [|e l IH]; cbn [saved_kvs config_write_loop]; intros kvs data pos E Hl.
  { injection E as <-. by rewrite app_nil_r. }
  destruct (kv_save e); cbn [negb] in *; [|by apply IH].
  apply res_bind_Ok in E as (s & Es & E). apply res_bind_Ok in E as (kvs' & El & [= <-]). rewrite Es, bind_ok.
  destruct s as [s|]; [|by apply IH]. unfold config_text in *. cbn [map concat fst snd] in *. cbv zeta.
  rewrite file_pwrite_end, Z.eqb_refl. cbn [orb negb]. rewrite app_assoc in Hl |- *. rewrite <- IH; [|done|done].
  f_equal. rewrite Zlen_app. apply wrap64_small. revert Hl. rewrite !Zlen_app.
  pose proof (Zlen_nonneg data). pose proof (Zlen_nonneg (config_line (kv_key e) s)).
  pose proof (Zlen_nonneg (concat (map (fun kv => config_line kv.1 kv.2) kvs'))). lia.
Qed.

Lemma load_loop_ok kvs : forall fuel fails conf, Forall kv_fits kvs -> (length (config_text kvs) < fuel)%nat ->
  config_load_loop fuel (Stream (config_text kvs) fails) conf =
    Ok (with_list (foldl (fun l kv => config_insert l (loaded kv)) (cf_list conf) kvs) conf).
Proof.
  unfold config_text. induction kvs as [|[k v] kvs IH]; intros [|fuel] fails conf HF Hf; [cbn in Hf; lia| |lia|].
  - cbn [map concat config_load_loop]. rewrite getline_end. by destruct conf.
  - inversion_clear HF as [|? ? Hkv HF']. cbn [map concat fst snd] in *. pose proof (parseline_line k v Hkv) as Hp.
    destruct (line_body_plain k v Hkv) as (Ha & H0 & Hl). rewrite config_line_body in *.
    cbn [config_load_loop]. rewrite <- app_assoc. cbn [app]. rewrite getline_line by done.
    rewrite Hp, bind_ok, IH; [done|done|]. rewrite !length_app in Hf. cbn [length] in Hf. lia.
Qed.

(** *** Sorted keys *)

Definition key_lt (a b : list byte) : Prop := strcmp a b < 0.

Lemma insert_last l e : Forall (fun k => key_lt k (kv_key e)) (kv_key <$> l) -> config_insert l e = l ++ [e].
Proof.
  induction l as [|x l IH]; cbn [fmap list_fmap config_insert app]; [done|]. intros HF. inversion_clear HF as [|? ? Hx HF'].
  rewrite ltb_t by exact Hx. by rewrite IH.
Qed.

Lemma sorted_app_lt (a : list (list byte)) k b : StronglySorted key_lt (a ++ k :: b) -> Forall (fun x => key_lt x k) a.
Proof.
  induction a as [|x a IH]; cbn [app]; [done|]. intros HS. inversion_clear HS as [|? ? HS' HF].
  constructor; [|by apply IH]. apply Forall_app in HF as [_ HF]. by inversion_clear HF.
Qed.

Lemma load_sorted kvs : forall l, StronglySorted key_lt ((kv_key <$> l) ++ kvs.*1) ->
  foldl (fun l kv => config_insert l (loaded kv)) l kvs = l ++ map loaded kvs.
Proof.
  induction kvs as [|kv kvs IH]; cbn [foldl map fmap list_fmap]; intros l HS; [by rewrite app_nil_r|].
  rewrite insert_last by (by apply (sorted_app_lt _ _ _ HS)). rewrite IH.
  - by rewrite <- app_assoc.
  - rewrite fmap_app, <- app_assoc. exact HS.
Qed.

Lemma saved_keys l : forall kvs, saved_kvs l = Ok kvs -> kvs.*1 `sublist_of` (kv_key <$> l).
Proof.
  induction l as [|e l IH]; cbn [saved_kvs]; intros kvs E; [by injection E as <-|].
  destruct (kv_save e); cbn [negb fmap list_fmap] in *; [|by apply sublist_cons, IH].
  apply res_bind_Ok in E as (s & Es & E). apply res_bind_Ok in E as (kvs' & El & [= <-]).
  destruct s; [by apply sublist_skip, IH|by apply sublist_cons, IH].
Qed.

Lemma sorted_sublist (R : list byte -> list byte -> Prop) l1 l2 :
  l1 `sublist_of` l2 -> StronglySorted R l2 -> StronglySorted R l1.
Proof.
  induction 1 as [|x l1 l2 Hs IH|x l1 l2 Hs IH]; intros HS; [done| |]; inversion_clear HS as [|? ? HS' HF].
  - constructor; [by apply IH|]. rewrite Forall_forall in HF |- *. intros y Hy. by apply HF, (elem_of_sublist _ _ _ Hy).
  - by apply IH.
Qed.

(** ** A configuration as a map

    Entries are found whatever the case of their name: a configuration stands
    for a map from lower-case names to values. *)
Inductive kval : Type :=
| VInt (z : Z)
| VBool (c : bool)
| VStr (s : option (list byte))
| VRaw (s : option (list byte)).

Definition fold_case (key : list byte) : list byte := map tolower key.

(** The value an entry holds, when its union is what its type says. *)
Definition kv_value (e : KeyValuePair) : option kval :=
  match kv_type e, kv_u e with
  | CONFIG_KV_INT64, U_word z => Some (VInt z)
  | CONFIG_KV_BOOL, u => match kv_bool u with Ok v => Some (VBool v) | Fault _ => None end
  | CONFIG_KV_STRING, U_str s => Some (VStr s)
  | CONFIG_KV_UNKNOWN, U_str s => Some (VRaw s)
  | _, _ => None
  end.

Definition config_ok (l : list KeyValuePair) : Prop :=
  StronglySorted key_lt (kv_key <$> l) /\ NoDup (fold_case <$> (kv_key <$> l)) /\ Forall (fun e => is_Some (kv_value e)) l.

Definition stands_for (l : list KeyValuePair) (m : gmap (list byte) kval) : Prop :=
  config_ok l /\
  forall fk v, m !! fk = Some v <-> exists e, e ∈ l /\ fold_case (kv_key e) = fk /\ kv_value e = Some v.

Lemma config_find_spec key l : forall i,
  match config_find i l key with
  | None => forall e, e ∈ l -> fold_case (kv_key e) <> fold_case key
  | Some (j, e) => exists n, j = (i + n)%nat /\ l !! n = Some e /\ fold_case (kv_key e) = fold_case key
  end.
Proof.
  induction l as [|x l IH]; intros i; cbn [config_find].
  { intros e He. by apply not_elem_of_nil in He. }
  unfold strcasecmp_eq. case_bool_decide as E; [by exists 0%nat; split; [lia|]|].
  specialize (IH (S i)). destruct (config_find (S i) l key) as [[j e]|].
  - destruct IH as (n & -> & Hn & He). exists (S n). by split; [lia|].
  - intros e [->|He]%elem_of_cons; [done|by apply IH].
Qed.

Section map.
Implicit Types l : list KeyValuePair.
Implicit Types m : gmap (list byte) kval.

Lemma find_none l m key : stands_for l m -> m !! fold_case key = None -> config_find 0 l key = None.
Proof.
  intros [(_ & _ & Hv) Hm] E. pose proof (config_find_spec key l 0) as Hf.
  destruct (config_find 0 l key) as [[j e]|]; [|done]. destruct Hf as (n & _ & Hn%list_elem_of_lookup_2 & He).
  rewrite Forall_forall in Hv. destruct (Hv _ Hn) as [v Ev]. assert (m !! fold_case key = Some v) by (apply Hm; eauto).
  congruence.
Qed.

Lemma find_some l m key v : stands_for l m -> m !! fold_case key = Some v ->
  exists n e, config_find 0 l key = Some (n, e) /\ l !! n = Some e /\ fold_case (kv_key e) = fold_case key /\
    kv_value e = Some v.
Proof.
  intros [(_ & Hd & _) Hm] E. apply Hm in E as (e' & He' & Ek' & Ev'). pose proof (config_find_spec key l 0) as Hf.
  destruct (config_find 0 l key) as [[n e]|]; [|by destruct (Hf _ He')]. destruct Hf as (n' & -> & Hn & Ek).
  exists n', e. split_and!; [done..|]. apply list_elem_of_lookup_1 in He' as [n2 Hn2].
  rewrite <- list_fmap_compose in Hd.
  assert (n' = n2) as <-; [|congruence].
  apply (proj1 (NoDup_alt _) Hd n' n2 (fold_case key)); rewrite list_lookup_fmap.
  - rewrite Hn. cbn. by rewrite Ek.
  - rewrite Hn2. cbn. by rewrite Ek'.
Qed.

Lemma insert_perm l e : config_insert l e ≡ₚ e :: l.
Proof.
  induction l as [|x l IH]; cbn [config_insert]; [done|]. destruct (_ <? 0); [|done]. rewrite IH. apply Permutation_swap.
Qed.

Lemma insert_sorted l e : StronglySorted key_lt (kv_key <$> l) -> kv_key e ∉ kv_key <$> l ->
  StronglySorted key_lt (kv_key <$> config_insert l e).
Proof.
  induction l as [|x l IH]; cbn [config_insert fmap list_fmap]; intros HS He; [by repeat constructor|].
  inversion HS as [|? ? HS' HF]; subst. apply not_elem_of_cons in He as [Hx He].
  destruct (Z.ltb_spec (strcmp (kv_key x) (kv_key e)) 0) as [Hlt|Hge]; cbn [fmap list_fmap].
  - constructor; [by apply IH|]. rewrite insert_perm. by constructor.
  - assert (Hlt : key_lt (kv_key e) (kv_key x)).
    { unfold key_lt. rewrite strcmp_flip. assert (strcmp (kv_key x) (kv_key e) <> 0); [|lia].
      intros E%strcmp_eq. congruence. }
    constructor; [done|]. constructor; [done|]. apply (Forall_impl _ _ _ HF). intros y Hy. by apply (strcmp_trans _ (kv_key x)).
Qed.

(** A new entry. *)
Lemma stands_for_new l m e v : stands_for l m -> m !! fold_case (kv_key e) = None -> kv_value e = Some v ->
  stands_for (config_insert l e) (<[fold_case (kv_key e) := v]> m).
Proof.
  intros [(HS & Hd & Hv) Hm] En Ev.
  assert (Hk : fold_case (kv_key e) ∉ fold_case <$> (kv_key <$> l)).
  { rewrite <- list_fmap_compose. intros (x & Ex & Hx)%list_elem_of_fmap. rewrite Forall_forall in Hv.
    destruct (Hv _ Hx) as [w Ew]. assert (m !! fold_case (kv_key e) = Some w) by (apply Hm; eauto). congruence. }
  split; [split_and!|].
  - apply insert_sorted; [done|]. intros Hin. apply Hk. by apply list_elem_of_fmap_2.
  - rewrite insert_perm. by constructor.
  - rewrite insert_perm. by constructor.
  - intros fk w. setoid_rewrite insert_perm. setoid_rewrite elem_of_cons. split.
    + intros [[<- <-]|[Hne E]]%lookup_insert_Some; [by exists e; eauto|]. apply Hm in E as (x & Hx & Ek & Ew). exists x. eauto.
    + intros (x & [->|Hx] & <- & Ew); [rewrite lookup_insert_eq; congruence|].
      rewrite lookup_insert_ne; [apply Hm; eauto|]. intros E. apply Hk. rewrite E.
      by apply list_elem_of_fmap_2, list_elem_of_fmap_2.
Qed.

(** A write to the entry that was found. *)
Lemma stands_for_write l m n e e' v : stands_for l m -> l !! n = Some e -> kv_key e' = kv_key e -> kv_value e' = Some v ->
  stands_for (<[n := e']> l) (<[fold_case (kv_key e) := v]> m).
Proof.
  intros [(HS & Hd & Hv) Hm] Hn Ek Ev. pose proof (lookup_lt_Some _ _ _ Hn) as Hlt.
  assert (Hkeys : kv_key <$> <[n := e']> l = kv_key <$> l).
  { rewrite list_fmap_insert, list_insert_id; [done|]. by rewrite list_lookup_fmap, Hn, Ek. }
  split; [split_and!|].
  - by rewrite Hkeys.
  - by rewrite Hkeys.
  - apply Forall_insert; [done|by eexists].
  - rewrite <- list_fmap_compose in Hd. intros fk w. split.
    + intros [[<- <-]|[Hne E]]%lookup_insert_Some.
      * exists e'. rewrite Ek. split_and!; [by apply list_elem_of_insert|done..].
      * apply Hm in E as (x & [j Hj]%list_elem_of_lookup_1 & Ex & Ew). exists x. split_and!; [|done..].
        apply (list_elem_of_lookup_2 _ j). rewrite list_lookup_insert_ne; [done|]. intros <-. congruence.
    + intros (x & [j Hj]%list_elem_of_lookup_1 & <- & Ew). destruct (decide (n = j)) as [<-|Hne].
      * rewrite list_lookup_insert_eq in Hj by done. injection Hj as <-. rewrite Ek, lookup_insert_eq. congruence.
      * rewrite list_lookup_insert_ne in Hj by done. rewrite lookup_insert_ne.
        -- apply Hm. exists x. by split; [apply (list_elem_of_lookup_2 _ j)|].
        -- intros E. apply Hne, (proj1 (NoDup_alt _) Hd n j (fold_case (kv_key e))); rewrite list_lookup_fmap.
           ++ by rewrite Hn.
           ++ rewrite Hj. cbn. by rewrite E.
Qed.

Lemma stands_for_empty : stands_for [] ∅.
Proof.
  split; [by repeat constructor|]. intros fk v. rewrite lookup_empty. split; [done|].
  intros (e & He & _). by apply not_elem_of_nil in He.
Qed.
End map.

(** ** The operations on the map *)

Inductive config_op : Type :=
| OSetInt64 (v : Z) (key : list byte)
| OSetBool (v : bool) (key : list byte)
| OSetString (v : option (list byte)) (key : list byte)
| OGetInt64 (dflt : Z) (key : list byte)
| OGetBool (dflt : bool) (key : list byte)
| OGetString (dflt : option (list byte)) (key : list byte)
| OIsset (key : list byte).

Inductive config_answer : Type := ANone | AInt (v : Z) | ABool (v : bool) | AStr (v : option (list byte)).

Definition config_step (conf : config) (op : config_op) : res (config_answer * config) :=
  match op with
  | OSetInt64 v key => conf ← config_setint64 conf v key; Ok (ANone, conf)
  | OSetBool v key => conf ← config_setbool conf v key; Ok (ANone, conf)
  | OSetString v key => conf ← config_setstring conf v key; Ok (ANone, conf)
  | OGetInt64 d key => '(v, conf) ← config_getint64 conf d key; Ok (AInt v, conf)
  | OGetBool d key => '(v, conf) ← config_getbool conf d key; Ok (ABool v, conf)
  | OGetString d key => '(v, conf) ← config_getstring conf d key; Ok (AStr v, conf)
  | OIsset key => Ok (ABool (config_isset conf key), conf)
  end.

(** What they do to the map: a name has one type for good, a value read from a
    file gets the type it is first asked for. [Fault UB] where nothing is
    promised: setting a number over a value that was read and not yet typed. *)
Definition cmap_step (m : gmap (list byte) kval) (op : config_op) : res (config_answer * gmap (list byte) kval) :=
  match op with
  | OSetInt64 v key =>
      let k := fold_case (key_buf key) in
      match m !! k with
      | None | Some (VInt _) => Ok (ANone, <[k := VInt v]> m)
      | Some (VRaw _) => Fault UB
      | Some _ => Fault Panic
      end
  | OSetBool v key =>
      let k := fold_case (key_buf key) in
      match m !! k with
      | None | Some (VBool _) => Ok (ANone, <[k := VBool v]> m)
      | Some (VRaw _) => Fault UB
      | Some _ => Fault Panic
      end
  | OSetString v key =>
      let k := fold_case (key_buf key) in
      match m !! k with
      | None | Some (VStr _) => Ok (ANone, <[k := VStr v]> m)
      | Some (VRaw _) => Ok (ANone, <[k := VRaw v]> m)
      | Some _ => Fault Panic
      end
  | OGetInt64 d key =>
      let k := fold_case (key_buf key) in
      match m !! k with
      | None => Ok (AInt d, <[k := VInt d]> m)
      | Some (VInt v) => Ok (AInt v, m)
      | Some (VRaw (Some s)) => v ← atoll s; Ok (AInt v, <[k := VInt v]> m)
      | Some (VRaw None) => Fault UB
      | Some _ => Fault Panic
      end
  | OGetBool d key =>
      let k := fold_case (key_buf key) in
      match m !! k with
      | None => Ok (ABool d, <[k := VBool d]> m)
      | Some (VBool v) => Ok (ABool v, m)
      | Some (VRaw (Some s)) =>
          if strcasecmp_eq s (str "true") then Ok (ABool true, <[k := VBool true]> m)
          else if strcasecmp_eq s (str "false") then Ok (ABool false, <[k := VBool false]> m)
          else Fault Panic
      | Some (VRaw None) => Fault UB
      | Some _ => Fault Panic
      end
  | OGetString d key =>
      let k := fold_case (key_buf key) in
      match m !! k with
      | None => Ok (AStr d, <[k := VStr d]> m)
      | Some (VStr v) => Ok (AStr v, m)
      | Some (VRaw v) => Ok (AStr v, <[k := VStr v]> m)
      | Some _ => Fault Panic
      end
  | OIsset key => Ok (ABool (bool_decide (is_Some (m !! fold_case (key_buf key)))), m)
  end.

Fixpoint config_run (conf : config) (ops : list config_op) : res (list config_answer * config) :=
  match ops with
  | [] => Ok ([], conf)
  | op :: ops => '(a, conf) ← config_step conf op; '(l, conf) ← config_run conf ops; Ok (a :: l, conf)
  end.
Fixpoint cmap_run (m : gmap (list byte) kval) (ops : list config_op) : res (list config_answer * gmap (list byte) kval) :=
  match ops with
  | [] => Ok ([], m)
  | op :: ops => '(a, m) ← cmap_step m op; '(l, m) ← cmap_run m ops; Ok (a :: l, m)
  end.

(** The answers and the final map, or the stop; nothing where the map promises
    nothing. *)
Definition answers_as {A} (r : res (A * config)) (s : res (A * gmap (list byte) kval)) : Prop :=
  match s with
  | Ok (a, m') => exists conf', r = Ok (a, conf') /\ stands_for (cf_list conf') m'
  | Fault Panic => r = Fault Panic
  | Fault UB => True
  end.

Lemma key_buf_idem key : key_buf (key_buf key) = key_buf key.
Proof. unfold key_buf. by rewrite take_take. Qed.

Lemma kv_value_bool e v : kv_value e = Some (VBool v) -> kv_type e = CONFIG_KV_BOOL /\ kv_bool (kv_u e) = Ok v.
Proof.
  unfold kv_value. destruct (kv_type e), (kv_u e); try done; destruct (kv_bool _); try done; by intros [= ->].
Qed.
Lemma kv_value_int e v : kv_value e = Some (VInt v) -> kv_type e = CONFIG_KV_INT64 /\ kv_u e = U_word v.
Proof.
  unfold kv_value. destruct (kv_type e), (kv_u e); try done; try (by intros [= ->]); destruct (kv_bool _); done.
Qed.
Lemma kv_value_str e s : kv_value e = Some (VStr s) -> kv_type e = CONFIG_KV_STRING /\ kv_u e = U_str s.
Proof.
  unfold kv_value. destruct (kv_type e), (kv_u e); try done; try (by intros [= ->]); destruct (kv_bool _); done.
Qed.
Lemma kv_value_raw e s : kv_value e = Some (VRaw s) -> kv_type e = CONFIG_KV_UNKNOWN /\ kv_u e = U_str s.
Proof.
  unfold kv_value. destruct (kv_type e), (kv_u e); try done; try (by intros [= ->]); destruct (kv_bool _); done.
Qed.

Lemma set_low_value key save u v w : kv_bool u = Ok v ->
  kv_value (KVP key save CONFIG_KV_BOOL (set_low u w)) = Some (VBool w).
Proof.
  unfold kv_value. cbn [kv_type kv_u]. assert (Hw : forall q, (q * 256 + Z.b2z w) mod 256 = Z.b2z w).
  { intros q. rewrite Z.add_comm, Z_mod_plus_full. by destruct w. }
  destruct u as [[s|]|z|u]; cbn [set_low kv_bool]; try done.
  - intros _. by destruct w.
  - intros _. replace (z - z mod 256 + Z.b2z w) with (z / 256 * 256 + Z.b2z w) by (pose proof (Z.div_mod z 256); lia).
    rewrite Hw. by destruct w.
Qed.

(** Giving an entry that was found another value. *)
Lemma write_as conf m n e e' v key : stands_for (cf_list conf) m -> cf_list conf !! n = Some e ->
  fold_case (kv_key e) = fold_case key -> kv_key e' = kv_key e -> kv_value e' = Some v ->
  stands_for (cf_list (kv_write n e' conf)) (<[fold_case key := v]> m).
Proof. intros H Hn Ek Ek' Ev. rewrite <- Ek. by apply (stands_for_write _ _ _ e). Qed.

(** The value a getter puts in when there is none is not saved. *)
Lemma nosave_spec l m key e v fn : stands_for l m -> m !! fold_case key = None -> kv_key e = key -> kv_value e = Some v ->
  exists conf, config_nosave (Config fn (config_insert l e)) key = Ok conf /\
    stands_for (cf_list conf) (<[fold_case key := v]> m).
Proof.
  intros H En <- Ev. pose proof (stands_for_new l m e v H En Ev) as H'.
  destruct (find_some _ _ (kv_key e) v H') as (n & x & Ef & Hn & Ek & Ex); [by rewrite lookup_insert_eq|].
  unfold config_nosave, config_get. cbn [cf_list]. rewrite Ef. eexists. split; [done|].
  rewrite <- (insert_insert_eq m (fold_case (kv_key e)) v v). by apply (write_as (Config fn (config_insert l e)) _ n x).
Qed.

Section step.
Context (conf : config) (m : gmap (list byte) kval) (Hm : stands_for (cf_list conf) m).

(** The entry that answers for a name, with its type and value. *)
Ltac entry key E :=
  let n := fresh "n" in let e := fresh "e" in let Ef := fresh "Ef" in
  let Hn := fresh "Hn" in let Ek := fresh "Ek" in let Ev := fresh "Ev" in
  let Et := fresh "Et" in let Eu := fresh "Eu" in
  destruct (find_some _ _ (key_buf key) _ Hm E) as (n & e & Ef & Hn & Ek & Ev);
  unfold config_get; rewrite Ef;
  first [apply kv_value_int in Ev as [Et Eu] | apply kv_value_bool in Ev as [Et Eu]
        | apply kv_value_str in Ev as [Et Eu] | apply kv_value_raw in Ev as [Et Eu]];
  unfold retype; rewrite ?Et; cbn [bool_decide decide_rel ConfigKVType_eq_dec]; rewrite ?Eu; cbn -[strcasecmp_eq str].

Lemma setint64_spec v key : answers_as (config_step conf (OSetInt64 v key)) (cmap_step m (OSetInt64 v key)).
Proof.
  cbn [config_step cmap_step]. cbv zeta. unfold config_setint64.
  destruct (m !! fold_case (key_buf key)) as [[z|c|s|s]|] eqn:E; [entry key E|entry key E..|].
  - eexists. split; [done|]. by apply (write_as conf m n e).
  - done.
  - done.
  - done.
  - unfold config_get. rewrite (find_none _ _ _ Hm E). cbn. eexists. split; [done|].
    by apply (stands_for_new _ _ (KVP (key_buf key) true CONFIG_KV_INT64 (U_word v))).
Qed.

Lemma setbool_spec v key : answers_as (config_step conf (OSetBool v key)) (cmap_step m (OSetBool v key)).
Proof.
  cbn [config_step cmap_step]. cbv zeta. unfold config_setbool.
  destruct (m !! fold_case (key_buf key)) as [[z|c|s|s]|] eqn:E; [entry key E|entry key E..|].
  - done.
  - eexists. split; [done|]. apply (write_as conf m n e); [done..|]. by apply (set_low_value _ _ _ c).
  - done.
  - done.
  - unfold config_get. rewrite (find_none _ _ _ Hm E). cbn. eexists. split; [done|].
    by apply (stands_for_new _ _ (KVP (key_buf key) true CONFIG_KV_BOOL (U_low v))).
Qed.

Lemma setstring_spec v key : answers_as (config_step conf (OSetString v key)) (cmap_step m (OSetString v key)).
Proof.
  cbn [config_step cmap_step]. cbv zeta. unfold config_setstring.
  destruct (m !! fold_case (key_buf key)) as [[z|c|s|s]|] eqn:E; [entry key E|entry key E..|].
  - done.
  - done.
  - eexists. split; [done|]. by apply (write_as conf m n e).
  - eexists. split; [done|]. by apply (write_as conf m n e).
  - unfold config_get. rewrite (find_none _ _ _ Hm E). cbn. eexists. split; [done|].
    by apply (stands_for_new _ _ (KVP (key_buf key) true CONFIG_KV_STRING (U_str v))).
Qed.

(** Without an entry, the default is put in and answered. *)
Lemma default_spec e v : let key := kv_key e in
  kv_value e = Some v -> key_buf key = key -> m !! fold_case key = None ->
  exists conf', config_nosave (with_list (config_insert (cf_list conf) e) conf) key = Ok conf' /\
    stands_for (cf_list conf') (<[fold_case key := v]> m).
Proof. intros key Ev _ E. by apply nosave_spec. Qed.

Lemma getint64_spec v key : answers_as (config_step conf (OGetInt64 v key)) (cmap_step m (OGetInt64 v key)).
Proof.
  cbn [config_step cmap_step]. cbv zeta. unfold config_getint64.
  destruct (m !! fold_case (key_buf key)) as [[z|c|s|[s|]]|] eqn:E; [entry key E|entry key E..|].
  - eexists. by split.
  - done.
  - done.
  - destruct (atoll s) as [z|[]]; [|done..]. eexists. split; [done|]. by apply (write_as conf m n e).
  - done.
  - pose proof (find_none _ _ _ Hm E : config_get conf (key_buf key) = None) as Hg.
    unfold config_setint64. rewrite Hg, key_buf_idem, Hg, bind_ok.
    destruct (default_spec (KVP (key_buf key) true CONFIG_KV_INT64 (U_word v)) (VInt v)) as (conf' & Ec & Hc);
      [done|apply key_buf_idem|done|]. cbn [kv_key] in Ec. rewrite Ec, bind_ok. by exists conf'.
Qed.

Lemma getbool_spec v key : answers_as (config_step conf (OGetBool v key)) (cmap_step m (OGetBool v key)).
Proof.
  cbn [config_step cmap_step]. cbv zeta. unfold config_getbool.
  destruct (m !! fold_case (key_buf key)) as [[z|c|s|[s|]]|] eqn:E; [entry key E|entry key E..|].
  - done.
  - eexists. by split.
  - done.
  - destruct (strcasecmp_eq s (str "true")); [|destruct (strcasecmp_eq s (str "false")); [|done]];
      (eexists; split; [done|]); by apply (write_as conf m n e).
  - done.
  - pose proof (find_none _ _ _ Hm E : config_get conf (key_buf key) = None) as Hg.
    unfold config_setbool. rewrite Hg, key_buf_idem, Hg, bind_ok.
    destruct (default_spec (KVP (key_buf key) true CONFIG_KV_BOOL (U_low v)) (VBool v)) as (conf' & Ec & Hc);
      [done|apply key_buf_idem|done|]. cbn [kv_key] in Ec. rewrite Ec, bind_ok. by exists conf'.
Qed.

Lemma getstring_spec v key : answers_as (config_step conf (OGetString v key)) (cmap_step m (OGetString v key)).
Proof.
  cbn [config_step cmap_step]. cbv zeta. unfold config_getstring.
  destruct (m !! fold_case (key_buf key)) as [[z|c|s|s]|] eqn:E; [entry key E|entry key E..|].
  - done.
  - done.
  - eexists. by split.
  - eexists. split; [done|]. by apply (write_as conf m n e).
  - pose proof (find_none _ _ _ Hm E : config_get conf (key_buf key) = None) as Hg.
    unfold config_setstring. rewrite Hg, key_buf_idem, Hg, bind_ok.
    destruct (default_spec (KVP (key_buf key) true CONFIG_KV_STRING (U_str v)) (VStr v)) as (conf' & Ec & Hc);
      [done|apply key_buf_idem|done|]. cbn [kv_key] in Ec. rewrite Ec, bind_ok. by exists conf'.
Qed.

Lemma isset_spec key : answers_as (config_step conf (OIsset key)) (cmap_step m (OIsset key)).
Proof.
  cbn. exists conf. split; [|done]. f_equal. f_equal. f_equal. unfold config_isset.
  destruct (m !! fold_case (key_buf key)) as [v|] eqn:E.
  - destruct (find_some _ _ (key_buf key) v Hm E) as (n & e & Ef & _). unfold config_get. by rewrite Ef.
  - unfold config_get. by rewrite (find_none _ _ _ Hm E).
Qed.

Lemma config_step_spec op : answers_as (config_step conf op) (cmap_step m op).
Proof.
  destruct op; [apply setint64_spec|apply setbool_spec|apply setstring_spec|apply getint64_spec|apply getbool_spec|
    apply getstring_spec|apply isset_spec].
Qed.
End step.

(** *** What a loaded configuration stands for *)

Definition raw_map (kvs : list (list byte * list byte)) : gmap (list byte) kval :=
  list_to_map (map (fun kv => (fold_case kv.1, VRaw (Some kv.2))) kvs).

Lemma loaded_keys kvs : kv_key <$> map loaded kvs = kvs.*1.
Proof. induction kvs as [|kv kvs IH]; [done|]. cbn. by f_equal. Qed.

Lemma saved_ok l kvs : config_ok l -> saved_kvs l = Ok kvs -> stands_for (map loaded kvs) (raw_map kvs).
Proof.
  intros (HS & Hd & _) E%saved_keys. rewrite <- list_fmap_compose in Hd.
  assert (Hd' : NoDup (fold_case <$> kvs.*1)).
  { apply (sublist_NoDup _ (fold_case <$> (kv_key <$> l))); [by rewrite <- list_fmap_compose|]. by apply fmap_sublist. }
  split; [split_and!|].
  - rewrite loaded_keys. by apply (sorted_sublist _ _ _ E).
  - by rewrite loaded_keys.
  - apply Forall_map, Forall_true. intros kv. by eexists.
  - intros fk v. unfold raw_map. rewrite <- elem_of_list_to_map.
    2: { clear - Hd'. enough (E : (map (fun kv : list byte * list byte => (fold_case kv.1, VRaw (Some kv.2))) kvs).*1 = fold_case <$> kvs.*1)
           by by rewrite E. clear. induction kvs as [|kv kvs IH]; [done|]. cbn. by f_equal. }
    split.
    + intros (kv & [= -> ->] & Hkv)%list_elem_of_fmap. exists (loaded kv). split; [|done]. by apply list_elem_of_fmap_2.
    + intros (e & (kv & -> & Hkv)%list_elem_of_fmap & <- & [= <-]).
      apply (list_elem_of_fmap_2' (fun kv : list byte * list byte => (fold_case kv.1, VRaw (Some kv.2)))) with kv; done.
Qed.

Lemma saved_mem l e s : forall kvs, saved_kvs l = Ok kvs -> e ∈ l -> kv_save e = true -> kv_text e = Ok (Some s) ->
  (kv_key e, s) ∈ kvs.
Proof.
  induction l as [|x l IH]; cbn [saved_kvs]; intros kvs E He Hs Ht; [by apply not_elem_of_nil in He|].
  apply elem_of_cons in He as [<-|He].
  - rewrite Hs, Ht, bind_ok in E. cbn [negb] in E. apply res_bind_Ok in E as (kvs' & _ & [= <-]). left.
  - destruct (kv_save x); cbn [negb] in E; [|by apply IH]. apply res_bind_Ok in E as (s' & _ & E).
    apply res_bind_Ok in E as (kvs' & E & [= <-]). destruct s'; [right|]; by apply IH.
Qed.

(** The value of an entry as its typed getter gives it after a reload. *)
Definition reads_back (conf : config) (e : KeyValuePair) : Prop :=
  match kv_value e with
  | Some (VInt z) => - 2 ^ 63 <= z < 2 ^ 63 -> forall d, exists conf', config_getint64 conf d (kv_key e) = Ok (z, conf')
  | Some (VBool c) => forall d, exists conf', config_getbool conf d (kv_key e) = Ok (c, conf')
  | Some (VStr (Some s) | VRaw (Some s)) => forall d, exists conf', config_getstring conf d (kv_key e) = Ok (Some s, conf')
  | _ => True
  end.

Lemma step_value conf m op a m' : stands_for (cf_list conf) m -> cmap_step m op = Ok (a, m') ->
  exists conf', config_step conf op = Ok (a, conf').
Proof.
  intros Hm E. pose proof (config_step_spec conf m Hm op) as Hs. rewrite E in Hs.
  destruct Hs as (conf' & Hc & _). by exists conf'.
Qed.

Lemma loaded_value l kvs fn e : config_ok l -> saved_kvs l = Ok kvs -> Forall kv_fits kvs -> e ∈ l -> kv_save e = true ->
  reads_back (Config fn (map loaded kvs)) e.
Proof.
  intros Hok Es HF He Hs. pose proof (saved_ok l kvs Hok Es) as Hm.
  set (conf := Config fn (map loaded kvs)). change (map loaded kvs) with (cf_list conf) in Hm.
  assert (Hraw : forall s, kv_text e = Ok (Some s) ->
    key_buf (kv_key e) = kv_key e /\ raw_map kvs !! fold_case (kv_key e) = Some (VRaw (Some s))).
  { intros s Ht. pose proof (saved_mem l e s kvs Es He Hs Ht) as Hin. split.
    - rewrite Forall_forall in HF. destruct (HF _ Hin) as (_ & _ & Hl). unfold line_fits in Hl. cbn in Hl.
      unfold key_buf. apply take_ge. lia.
    - apply Hm. exists (loaded (kv_key e, s)). split; [|done]. by apply list_elem_of_fmap_2. }
  unfold reads_back. destruct (kv_value e) as [[z|c|[s|]|[s|]]|] eqn:Ev; try done.
  - intros Hz d. apply kv_value_int in Ev as [Et Eu]. unfold kv_text in Hraw. rewrite Et, Eu in Hraw.
    destruct (Hraw (print_d64 z) eq_refl) as [Ek Em]. destruct (print_d64_spec z Hz) as [Ea _].
    destruct (step_value conf _ (OGetInt64 d (kv_key e)) (AInt z) (<[fold_case (kv_key e) := VInt z]> (raw_map kvs)) Hm) as [conf' Ec].
    { cbn [cmap_step]. by rewrite Ek, Em, Ea. }
    cbn [config_step] in Ec. apply res_bind_Ok in Ec as ([v c] & Ec & [= -> _]). by exists c.
  - intros d. apply kv_value_bool in Ev as [Et Eu]. unfold kv_text in Hraw. rewrite Et, Eu, bind_ok in Hraw.
    destruct (Hraw _ eq_refl) as [Ek Em].
    destruct (step_value conf _ (OGetBool d (kv_key e)) (ABool c) (<[fold_case (kv_key e) := VBool c]> (raw_map kvs)) Hm) as [conf' Ec].
    { cbn [cmap_step]. rewrite Ek, Em. by destruct c. }
    cbn [config_step] in Ec. apply res_bind_Ok in Ec as ([v c'] & Ec & [= -> _]). by exists c'.
  - intros d. apply kv_value_str in Ev as [Et Eu]. unfold kv_text in Hraw. rewrite Et, Eu in Hraw.
    destruct (Hraw s eq_refl) as [Ek Em].
    destruct (step_value conf _ (OGetString d (kv_key e)) (AStr (Some s)) (<[fold_case (kv_key e) := VStr (Some s)]> (raw_map kvs)) Hm) as [conf' Ec].
    { cbn [cmap_step]. by rewrite Ek, Em. }
    cbn [config_step] in Ec. apply res_bind_Ok in Ec as ([v c] & Ec & [= -> _]). by exists c.
  - intros d. apply kv_value_raw in Ev as [Et Eu]. unfold kv_text in Hraw. rewrite Et, Eu in Hraw.
    destruct (Hraw s eq_refl) as [Ek Em].
    destruct (step_value conf _ (OGetString d (kv_key e)) (AStr (Some s)) (<[fold_case (kv_key e) := VStr (Some s)]> (raw_map kvs)) Hm) as [conf' Ec].
    { cbn [cmap_step]. by rewrite Ek, Em. }
    cbn [config_step] in Ec. apply res_bind_Ok in Ec as ([v c] & Ec & [= -> _]). by exists c.
Qed.

Lemma write_ok conf kvs name data pos : saved_kvs (cf_list conf) = Ok kvs -> Zlen (config_text kvs) < 2 ^ 64 ->
  config_write conf (Some name) (Some (File data pos [])) =
    Ok (false, Config (Some name) (cf_list conf), Some (File (config_text kvs) pos [])).
Proof.
  intros E Hl. unfold config_write. rewrite bind_ok. cbn [cf_list].
  change (file_truncate (File data pos []) 0) with (false, File [] pos []). cbv iota beta.
  pose proof (write_loop_ok (cf_list conf) kvs [] pos E Hl) as Hw. rewrite Zlen_nil in Hw. by rewrite Hw.
Qed.

Lemma load_ok_text l kvs name fails : config_ok l -> saved_kvs l = Ok kvs -> Forall kv_fits kvs ->
  config_load name (Some (Stream (config_text kvs) fails)) = Ok (Some (Config (Some name) (map loaded kvs))).
Proof.
  intros (HS & _) E HF. unfold config_load. cbn [st_data]. rewrite load_loop_ok, bind_ok; [|done|lia].
  cbn [cf_list]. unfold with_list. cbn [cf_fileName]. rewrite load_sorted; [done|]. cbn.
  by apply (sorted_sublist _ _ _ (saved_keys _ _ E)).
Qed.

(** *** Failing calls and lines *)

(** A call that writes less than the line ends the loop with its status, 0. *)
Lemma write_loop_short l n io : forall kvs1 kv kvs2 data pos, saved_kvs l = Ok (kvs1 ++ kv :: kvs2) ->
  (n < length (config_line kv.1 kv.2))%nat -> Zlen (data ++ config_text (kvs1 ++ [kv])) < 2 ^ 64 ->
  config_write_loop l (Zlen data) (File data pos (replicate (length kvs1) IoOk ++ IoShort n :: io)) =
    Ok (false, File (data ++ config_text kvs1 ++ take n (config_line kv.1 kv.2)) pos io).
Proof.
  induction l as [|e l IH]; cbn [saved_kvs config_write_loop]; intros kvs1 kv kvs2 data pos E Hn Hl.
  { injection E as E. by destruct kvs1. }
  destruct (kv_save e); cbn [negb] in *; [|by apply (IH kvs1 kv kvs2)].
  apply res_bind_Ok in E as (s & Es & E). apply res_bind_Ok in E as (kvs' & El & [= E]). rewrite Es, bind_ok.
  destruct s as [s|]; [|subst kvs'; by apply (IH kvs1 kv kvs2)]. cbv zeta.
  destruct kvs1 as [|kv1 kvs1]; cbn [app] in E; injection E as <- ->; cbn [fst snd length replicate app] in *; unfold file_pwrite; cbn [pwrite_loop f_io f_data f_pos tail].
  - rewrite to_nat_Zlen, file_put_in, firstn_all, drop_ge, app_nil_r by lia. rewrite eqb_f; [done|].
    unfold Zlen. rewrite length_take. lia.
  - rewrite to_nat_Zlen, file_put_in, firstn_all, drop_ge, app_nil_r by lia. rewrite Z.eqb_refl. cbn [orb negb].
    unfold config_text in *. cbn [map concat fst snd] in *. rewrite app_assoc in Hl. rewrite <- (app_assoc _ _ (take _ _)), app_assoc.
    rewrite <- (IH kvs1 kv kvs2); [|done..]. f_equal. rewrite Zlen_app. apply wrap64_small. revert Hl. rewrite !Zlen_app.
    pose proof (Zlen_nonneg data). pose proof (Zlen_nonneg (config_line (kv_key e) s)).
    pose proof (Zlen_nonneg (concat (map (fun kv => config_line kv.1 kv.2) (kvs1 ++ [kv])))). lia.
Qed.

(** A line that the reader takes and keeps, whatever follows. *)
Lemma load_loop_step k v rest fuel fails conf : kv_fits (k, v) ->
  config_load_loop (S fuel) (Stream (config_line k v ++ rest) fails) conf =
    config_load_loop fuel (Stream rest fails) (config_setunknownkv conf k v).
Proof.
  intros Hkv. pose proof (parseline_line k v Hkv) as Hp. destruct (line_body_plain k v Hkv) as (Ha & H0 & Hl).
  rewrite config_line_body in *. cbn [config_load_loop]. rewrite <- app_assoc. cbn [app].
  rewrite getline_line by done. by rewrite Hp, bind_ok.
Qed.
Lemma load_loop_app kvs rest fails : forall fuel conf, Forall kv_fits kvs ->
  config_load_loop (length kvs + fuel) (Stream (config_text kvs ++ rest) fails) conf =
    config_load_loop fuel (Stream rest fails)
      (with_list (foldl (fun l kv => config_insert l (loaded kv)) (cf_list conf) kvs) conf).
Proof.
  unfold config_text. induction kvs as [|[k v] kvs IH]; intros fuel conf HF; [by destruct conf|].
  inversion_clear HF as [|? ? Hkv HF']. cbn [map concat fst snd length Nat.add]. rewrite <- app_assoc, load_loop_step by done.
  by rewrite IH.
Qed.

(** More fuel than there are characters does not matter. *)
Lemma load_loop_fuel : forall fuel fuel' fd conf, (length (st_data fd) < fuel)%nat -> (fuel <= fuel')%nat ->
  config_load_loop fuel' fd conf = config_load_loop fuel fd conf.
Proof.
  induction fuel as [|fuel IH]; intros [|fuel'] fd conf Hl Hf; [lia..|]. cbn [config_load_loop].
  destruct (file_getline fd) as [[line|] fd'] eqn:E; [|done]. pose proof (getline_shorter _ _ _ E) as Hs.
  destruct (config_parseline line) as [[[[k v]|]|]|]; [|by rewrite ?bind_ok, (IH fuel' fd') by lia|done..].
  rewrite !bind_ok. apply IH; lia.
Qed.

(** An entry whose text cannot be read stops the loop, wherever it is. *)
Lemma kv_text_no_panic e : kv_text e <> Fault Panic.
Proof.
  unfold kv_text, kv_val, kv_bool, kv_str.
  destruct (kv_type e), (kv_u e) as [[|]|z|]; cbn; try done; repeat (destruct (_ =? _); try done).
Qed.
Lemma write_loop_fault l e : forall data pos off, e ∈ l -> kv_save e = true -> kv_text e = Fault UB ->
  config_write_loop l off (File data pos []) = Fault UB.
Proof.
  induction l as [|x l IH]; intros data pos off He Hs Ht; [by apply not_elem_of_nil in He|].
  cbn [config_write_loop]. apply elem_of_cons in He as [<-|He]; [by rewrite Hs, Ht|].
  destruct (kv_save x); cbn [negb]; [|by apply IH]. pose proof (kv_text_no_panic x).
  destruct (kv_text x) as [[s|]|[]]; [|by apply IH|done|done]. rewrite bind_ok. cbv zeta. unfold file_pwrite.
  cbn [pwrite_loop f_io f_data f_pos tail]. rewrite Z.eqb_refl. cbn [orb negb]. by apply IH.
Qed.
Lemma find_write key e e' l : kv_key e' = kv_key e -> forall i n,
  config_find i l key = Some ((i + n)%nat, e) -> l !! n = Some e ->
  config_find i (<[n := e']> l) key = Some ((i + n)%nat, e').
Proof.
  intros Ek. induction l as [|x l IH]; intros i n; [done|]. destruct n as [|n]; cbn [config_find insert list_insert lookup list_lookup].
  - intros E [= ->]. rewrite Ek. destruct (strcasecmp_eq _ _); [by rewrite Nat.add_0_r|].
    pose proof (config_find_spec key l (S i)) as Hf. rewrite E in Hf. destruct Hf as (k & Hk & _). lia.
  - destruct (strcasecmp_eq _ _); [intros [= E _]; lia|]. rewrite <- !Nat.add_succ_comm. apply IH.
Qed.

(** Nothing a file holds stops the process. *)
Lemma parseline_no_panic line : config_parseline line <> Fault Panic.
Proof.
  unfold config_parseline. destruct (strip_eol line) as [l|f] eqn:E.
  2: { unfold strip_eol in E. destruct (last line); [done|]. by injection E as <-. }
  rewrite bind_ok. destruct (skip_spaces0 l) as [|c p]; [done|]. destruct (_ || _); [done|].
  destruct (scan_kv (c :: p)) as [[k v]|] eqn:Es; [|done]. destruct (scan_kv_ne _ _ _ Es) as [Hk Hv].
  destruct (config_chomp_ok k Hk) as [k' ->]. destruct (config_chomp_ok v Hv) as [v' ->]. rewrite !bind_ok.
  unfold unquote. destruct (skip_spaces0 v') as [|d q]; [done|]. case_bool_decide; [|done].
  by destruct (strrchr q x22) as [[|]|].
Qed.
Lemma load_loop_no_panic : forall fuel fd conf, (length (st_data fd) < fuel)%nat -> config_load_loop fuel fd conf <> Fault Panic.
Proof.
  induction fuel as [|fuel IH]; intros fd conf Hl; [lia|]. cbn [config_load_loop].
  destruct (file_getline fd) as [[line|] fd'] eqn:E; [|done]. pose proof (getline_shorter _ _ _ E) as Hs.
  pose proof (parseline_no_panic line) as Hp.
  destruct (config_parseline line) as [[[[k v]|]|]|f]; rewrite ?bind_ok; [apply IH; lia..|done|].
  by destruct f.
Qed.

(** ** Properties *)

(** C32: Sets, typed gets and tests answer as a map from names, without their case,
    to typed values, and stop the process exactly on a type that differs; where
    the map promises nothing (a number set over an untyped value) nothing is
    claimed. The list stays sorted, without two names that differ in case only. *)
Theorem config_simulates_map ops : forall conf m,
  stands_for (cf_list conf) m -> answers_as (config_run conf ops) (cmap_run m ops).
Proof.
  induction ops as [|op ops IH]; intros conf m Hm; cbn [config_run cmap_run]; [by exists conf|].
  pose proof (config_step_spec conf m Hm op) as Hs.
  destruct (cmap_step m op) as [[a m']|[]]; cbn [answers_as] in Hs; [|by rewrite Hs|done].
  destruct Hs as (conf' & E & Hm'). rewrite E, !bind_ok. specialize (IH conf' m' Hm').
  destruct (cmap_run m' ops) as [[l m'']|[]]; cbn [answers_as] in IH; [|by rewrite IH|done].
  destruct IH as (conf'' & E' & Hm''). rewrite E'. by exists conf''.
Qed.

Lemma config_simulates_map_witness :
  let ops := [OSetInt64 10000 (str "wallet.fee"); OGetInt64 5 (str "Wallet.Fee"); OGetBool true (str "resolve.peers");
              OSetString (Some (str "x")) (str "WALLET.FEE")] in
  answers_as (config_run config_create ops) (cmap_run ∅ ops) /\ config_run config_create ops = Fault Panic.
Proof.
  split; [|by vm_compute]. apply config_simulates_map. exact stands_for_empty.
Defined.

(** C33: a configuration whose saved entries have a text the reader keeps is written
    and loaded again, when no call fails: every name comes back in order, and
    every integer, truth value and string as its getter gave it. *)
Theorem config_roundtrip conf kvs name data pos fails :
  config_ok (cf_list conf) -> saved_kvs (cf_list conf) = Ok kvs -> Forall kv_fits kvs -> Zlen (config_text kvs) < 2 ^ 64 ->
  exists fd conf', config_write conf (Some name) (Some (File data pos [])) = Ok (false, Config (Some name) (cf_list conf), Some fd) /\
    config_load name (Some (Stream (f_data fd) fails)) = Ok (Some conf') /\ cf_list conf' = map loaded kvs /\
    (forall e, e ∈ cf_list conf -> kv_save e = true -> reads_back conf' e).
Proof.
  intros Hok E HF Hl. eexists _, _. split; [by apply (write_ok conf kvs)|]. cbn [f_data].
  split; [by apply (load_ok_text (cf_list conf))|]. split; [done|]. intros e He Hs. by apply (loaded_value (cf_list conf)).
Qed.

Definition sample_config : config :=
  Config None [KVP (str "key0.birth") true CONFIG_KV_INT64 (U_word 1700000000);
               KVP (str "key0.desc") true CONFIG_KV_STRING (U_str (Some (str "main = 'spending'")));
               KVP (str "key0.spendable") true CONFIG_KV_BOOL (U_low true);
               KVP (str "numKeys") true CONFIG_KV_INT64 (U_word (-1));
               KVP (str "resolve.peers") false CONFIG_KV_BOOL (U_low true)].
Definition sample_kvs : list (list byte * list byte) :=
  [(str "key0.birth", str "1700000000"); (str "key0.desc", str "main = 'spending'");
   (str "key0.spendable", str "TRUE"); (str "numKeys", str "-1")].

#[export] Instance key_lt_dec a k : Decision (key_lt a k).
Proof. unfold key_lt. apply _. Defined.
Definition kv_fitsb (kv : list byte * list byte) : bool :=
  match kv.1 with
  | c :: _ => negb (bool_decide (c = x20)) && negb (bool_decide (c = x23))
  | [] => false
  end && bool_decide ((x00 ∉ kv.1) /\ (x0a ∉ kv.1) /\ (x3d ∉ kv.1) /\ last kv.1 <> Some x20 /\
    (x00 ∉ kv.2) /\ (x0a ∉ kv.2) /\ kv.2 <> [] /\ (length kv.1 + length kv.2 + 6 < 1024)%nat).
Lemma kv_fits_check kv : kv_fitsb kv = true -> kv_fits kv.
Proof.
  unfold kv_fitsb. destruct kv as [[|c k] v]; cbn [fst snd]; [done|].
  intros [[H1 H2]%andb_true_iff H%bool_decide_eq_true]%andb_true_iff.
  apply negb_true_iff, bool_decide_eq_false in H1, H2. destruct H as (? & ? & ? & ? & ? & ? & ? & ?).
  split_and!; [split_and!; try done; by exists c, k|done|done].
Qed.
Lemma sample_ok : config_ok (cf_list sample_config) /\ Forall kv_fits sample_kvs.
Proof.
  split; [split_and!|].
  - apply (bool_decide_unpack _). by vm_compute.
  - apply (bool_decide_unpack _). by vm_compute.
  - repeat constructor; by eexists.
  - repeat constructor; apply kv_fits_check; by vm_compute.
Qed.

Lemma config_roundtrip_witness :
  exists fd conf', config_write sample_config (Some (str "w.cfg")) (Some (File [] 0 [])) =
      Ok (false, Config (Some (str "w.cfg")) (cf_list sample_config), Some fd) /\
    config_load (str "w.cfg") (Some (Stream (f_data fd) false)) = Ok (Some conf') /\ cf_list conf' = map loaded sample_kvs /\
    (forall e, e ∈ cf_list sample_config -> kv_save e = true -> reads_back conf' e).
Proof.
  apply (config_roundtrip sample_config sample_kvs);
    [exact (proj1 sample_ok)|by vm_compute|exact (proj2 sample_ok)|by vm_compute].
Defined.

(** Nothing a file holds stops the process: the loop of config_load ends with the
    file, and the ASSERT of config_chomp holds. *)
Theorem config_load_no_panic name fd : config_load name fd <> Fault Panic.
Proof.
  destruct fd as [fd|]; [|done]. unfold config_load.
  pose proof (load_loop_no_panic (S (length (st_data fd))) fd (Config (Some name) []) ltac:(lia)) as Hp.
  destruct (config_load_loop _ _ _) as [c|f]; [done|]. by destruct f.
Qed.

(** A configuration with an empty string is saved, and is not loaded: the line
    with nothing between its quotes is refused, then logged after it was freed. *)
Theorem config_empty_string_unloadable conf kvs1 k kvs2 name data pos fails :
  saved_kvs (cf_list conf) = Ok (kvs1 ++ (k, []) :: kvs2) -> Forall kv_fits kvs1 -> key_text k -> (length k + 6 < 1024)%nat ->
  Zlen (config_text (kvs1 ++ (k, []) :: kvs2)) < 2 ^ 64 ->
  exists fd conf', config_write conf (Some name) (Some (File data pos [])) = Ok (false, conf', Some fd) /\
    config_load name (Some (Stream (f_data fd) fails)) = Fault UB.
Proof.
  intros E HF Hk Hl Hz. eexists _, _. split; [by apply (write_ok conf (kvs1 ++ (k, []) :: kvs2))|]. cbn [f_data]. unfold config_load. cbn [st_data].
  replace (config_text (kvs1 ++ (k, []) :: kvs2)) with (config_text kvs1 ++ config_line k [] ++ config_text kvs2).
  2: { unfold config_text. by rewrite map_app, concat_app. }
  set (r := config_line k [] ++ config_text kvs2).
  erewrite <- (load_loop_fuel _ (length kvs1 + S (S (length (config_text kvs1 ++ r))))) by (cbn [st_data]; lia).
  rewrite load_loop_app by done. unfold r at 2. cbn [config_load_loop].
  pose proof (parseline_empty k Hk) as Hp. destruct Hk as (H0 & Ha & _).
  assert (Hb : (x0a ∉ line_body k []) /\ (x00 ∉ line_body k []) /\ (length (line_body k []) < 1023)%nat).
  { unfold line_body. rewrite !not_elem_of_app, !length_app. change (length (str " = ")) with 3%nat. cbn [length].
    split_and!; try done; try lia; by apply notin_check. }
  destruct Hb as (Hb1 & Hb2 & Hb3). rewrite config_line_body in *. rewrite <- app_assoc. cbn [app].
  rewrite getline_line by done. by rewrite Hp.
Qed.

Lemma config_empty_string_unloadable_witness :
  let conf := Config None [KVP (str "key0.desc") true CONFIG_KV_STRING (U_str (Some []))] in
  exists fd conf', config_write conf (Some (str "w.cfg")) (Some (File [] 0 [])) = Ok (false, conf', Some fd) /\
    config_load (str "w.cfg") (Some (Stream (f_data fd) false)) = Fault UB.
Proof.
  intros conf. apply (config_empty_string_unloadable conf [] (str "key0.desc") []);
    [reflexivity|constructor| |cbn; lia|by vm_compute].
  split_and!; try (by apply notin_check); [|done]. by eexists _, _.
Defined.

(** A write that is cut short and a read that fails are both answered with
    success: the entries from there on are lost. *)
Theorem config_io_errors_silent conf kvs1 kv kvs2 name data pos n tl :
  config_ok (cf_list conf) -> saved_kvs (cf_list conf) = Ok (kvs1 ++ kv :: kvs2) -> Forall kv_fits kvs1 ->
  Zlen (config_text (kvs1 ++ [kv])) < 2 ^ 64 ->
  (n < length (config_line kv.1 kv.2))%nat -> (x0a ∉ tl) -> (length tl < 1023)%nat ->
  config_write conf (Some name) (Some (File data pos (IoOk :: replicate (length kvs1) IoOk ++ [IoShort n]))) =
    Ok (false, Config (Some name) (cf_list conf), Some (File (config_text kvs1 ++ take n (config_line kv.1 kv.2)) pos [])) /\
  config_load name (Some (Stream (config_text kvs1 ++ tl) true)) = Ok (Some (Config (Some name) (map loaded kvs1))).
Proof.
  intros Hok E HF Hz Hn Ht Hl. split.
  - unfold config_write. rewrite bind_ok. cbn [cf_list].
    set (io := replicate _ _ ++ _). change (file_truncate (File data pos (IoOk :: io)) 0) with (false, File [] pos io).
    cbv iota beta. unfold io.
    pose proof (write_loop_short (cf_list conf) n [] kvs1 kv kvs2 [] pos E Hn Hz) as Hw. rewrite Zlen_nil in Hw. by rewrite Hw.
  - unfold config_load. cbn [st_data].
    erewrite <- (load_loop_fuel _ (length kvs1 + S (S (length (config_text kvs1 ++ tl))))) by (cbn [st_data]; lia).
    rewrite load_loop_app by done. cbn [config_load_loop]. rewrite getline_fails by done. rewrite bind_ok.
    unfold with_list. cbn [cf_list cf_fileName]. rewrite load_sorted; [done|]. cbn.
    destruct Hok as (HS & _). apply saved_keys in E. rewrite fmap_app in E.
    apply (sorted_sublist _ _ _ E) in HS. by apply StronglySorted_app in HS as (_ & ? & _).
Qed.

Lemma config_io_errors_silent_witness :
  config_write sample_config (Some (str "w.cfg")) (Some (File [] 0 [IoOk; IoOk; IoShort 4])) =
    Ok (false, Config (Some (str "w.cfg")) (cf_list sample_config),
        Some (File (config_text [(str "key0.birth", str "1700000000")] ++ str "key0") 0 [])) /\
  config_load (str "w.cfg") (Some (Stream (config_text [(str "key0.birth", str "1700000000")] ++ str "key0") true)) =
    Ok (Some (Config (Some (str "w.cfg")) [loaded (str "key0.birth", str "1700000000")])).
Proof.
  apply (config_io_errors_silent sample_config [(str "key0.birth", str "1700000000")]
    (str "key0.desc", str "main = 'spending'") (skipn 2 sample_kvs) (str "w.cfg") [] 0 4 (str "key0")).
  - exact (proj1 sample_ok).
  - by vm_compute.
  - repeat constructor; apply kv_fits_check; by vm_compute.
  - by vm_compute.
  - vm_compute. lia.
  - by apply notin_check.
  - vm_compute. lia.
Defined.

(** Setting a number over a value that was read from a file and not asked for
    yet leaves the value typed as text: reading it back or saving it takes the
    number for an address. *)
Theorem config_set_loaded_breaks conf m key v s name data pos :
  stands_for (cf_list conf) m -> m !! fold_case (key_buf key) = Some (VRaw s) -> v <> 0 ->
  exists conf', config_setint64 conf v key = Ok conf' /\ (forall d, config_getint64 conf' d key = Fault UB) /\
    config_write conf' (Some name) (Some (File data pos [])) = Fault UB.
Proof.
  intros Hm Em Hv. destruct (find_some _ _ (key_buf key) _ Hm Em) as (n & e & Ef & Hn & Ek & Ev).
  apply kv_value_raw in Ev as [Et Eu]. set (e' := KVP (kv_key e) true CONFIG_KV_UNKNOWN (U_word v)).
  exists (kv_write n e' conf). split_and!.
  - unfold config_setint64, config_get, retype. rewrite Ef, Et. by rewrite Eu.
  - intros d. unfold config_getint64, config_get, kv_write. cbn [cf_list with_list].
    rewrite (find_write _ e e' _ eq_refl 0 n Ef Hn). cbn. by rewrite eqb_f.
  - unfold config_write. rewrite bind_ok. cbn [cf_list].
    change (file_truncate (File data pos []) 0) with (false, File [] pos []). cbv iota beta.
    rewrite (write_loop_fault _ e'); [done| |done|cbn; by rewrite eqb_f].
    cbn [kv_write with_list cf_list]. apply list_elem_of_insert. by apply lookup_lt_Some in Hn.
Qed.

Lemma config_set_loaded_breaks_witness :
  let conf := Config None [loaded (str "fx.periodMin", str "5")] in
  exists conf', config_setint64 conf 10 (str "fx.periodMin") = Ok conf' /\
    (forall d, config_getint64 conf' d (str "fx.periodMin") = Fault UB) /\
    config_write conf' (Some (str "main.cfg")) (Some (File [] 0 [])) = Fault UB.
Proof.
  intros conf. apply (config_set_loaded_breaks conf (raw_map [(str "fx.periodMin", str "5")]) _ 10 (Some (str "5"))).
  - apply (saved_ok (cf_list conf) [(str "fx.periodMin", str "5")]); [|by vm_compute]. split_and!; [by apply (bool_decide_unpack _); vm_compute..|].
    repeat constructor. by eexists.
  - by vm_compute.
  - done.
Defined.
