(* ===== verification/ConfigMap.v ===== *)
(** * A configuration saved and loaded, as a map

    What Config.v shows of the list of entries, stated for the map from names to
    values that a client of the configuration reasons with. *)
From Stdlib Require Import Strings.String Sorting.Sorted.
From S2P Require Export Config.

(** The text of a value, if it has one. *)
Definition text_of (v : kval) : option (list byte) :=
  match v with
  | VInt z => Some (print_d64 z)
  | VBool c => Some (if c then str "TRUE" else str "FALSE")
  | VStr s | VRaw s => s
  end.
(** What is read back: the texts, not typed yet. *)
Definition reloaded (m : gmap (list byte) kval) : gmap (list byte) kval :=
  omap (fun v => (fun s => VRaw (Some s)) <$> text_of v) m.

(** The names and texts survive the text format. *)
Definition map_fits (m : gmap (list byte) kval) : Prop :=
  forall fk v s, m !! fk = Some v -> text_of v = Some s -> kv_fits (fk, s).

(** Entries are all to be saved. *)
Definition all_saved (l : list KeyValuePair) : Prop := Forall (fun e => kv_save e = true) l.

Lemma kv_text_of e v : kv_value e = Some v -> kv_text e = Ok (text_of v).
Proof.
  unfold kv_text. intros Ev. destruct v.
  - apply kv_value_int in Ev as [-> ->]. done.
  - apply kv_value_bool in Ev as [-> E]. by rewrite E.
  - apply kv_value_str in Ev as [-> ->]. done.
  - apply kv_value_raw in Ev as [-> ->]. done.
Qed.

Lemma fold_plain c k : tolower c = c -> c ∉ fold_case k -> c ∉ k.
Proof. intros Hc Hn Hin. apply Hn. rewrite <- Hc. by apply list_elem_of_fmap_2. Qed.

(** What makes a name fit does not depend on its case. *)
Lemma key_text_fold k : key_text (fold_case k) -> key_text k.
Proof.
  intros (H0 & Ha & He & (c & t & Ek & Hc1 & Hc2) & Hl). destruct k as [|x k]; [done|]. injection Ek as <- <-.
  split_and!; [by apply fold_plain..| |].
  - exists x, k. split_and!; [done|by intros ->..].
  - intros E. apply Hl. unfold fold_case. change (map tolower (x :: k)) with (tolower <$> (x :: k)). rewrite fmap_last, E. done.
Qed.
Lemma kv_fits_fold k s : kv_fits (fold_case k, s) -> kv_fits (k, s).
Proof.
  intros (Hk & Hv & Hl). split_and!; [by apply key_text_fold|done|]. unfold line_fits in *. cbn [fst snd] in *.
  unfold fold_case in Hl. rewrite length_map in Hl. done.
Qed.

Lemma saved_kvs_ok l m : stands_for l m -> all_saved l -> map_fits m ->
  exists kvs, saved_kvs l = Ok kvs /\ Forall kv_fits kvs /\ (length kvs <= length l)%nat /\
    (forall k s, (k, s) ∈ kvs <-> exists e v, e ∈ l /\ kv_key e = k /\ kv_value e = Some v /\ text_of v = Some s).
Proof.
  intros [(_ & _ & Hv) Hm] Hs Hf.
  assert (Hl : forall e, e ∈ l -> exists v, kv_value e = Some v /\ forall s, text_of v = Some s -> kv_fits (kv_key e, s)).
  { intros e He. rewrite Forall_forall in Hv. destruct (Hv e He) as [v Ev]. exists v. split; [done|]. intros s Es.
    apply kv_fits_fold, (Hf _ v); [|done]. apply Hm. by exists e. }
  clear Hm Hf Hv. induction l as [|e l IH].
  { exists []. split_and!; [done|constructor|done|]. intros k s. split; [by intros ?%not_elem_of_nil|].
    by intros (e & v & ?%not_elem_of_nil & _). }
  inversion_clear Hs as [|? ? Hse Hsl]. destruct IH as (kvs & E & HF & Hlen & Hin); [done|intros e' He'; apply Hl; by right|].
  destruct (Hl e) as (v & Ev & Hfit); [left|]. cbn [saved_kvs]. rewrite Hse. cbn [negb].
  rewrite (kv_text_of e v Ev), bind_ok, E, bind_ok. eexists. split; [done|]. destruct (text_of v) as [s|] eqn:Et.
  - split_and!; [constructor; [by apply Hfit|done]|cbn; lia|]. intros k s'. rewrite elem_of_cons, Hin. split.
    + intros [[= -> ->]|(e' & v' & He' & Hr)]; [exists e, v; split_and!; [left|done..]|exists e', v'; split; [by right|done]].
    + intros (e' & v' & He' & <- & Ev' & Et'). apply elem_of_cons in He' as [->|He']; [left; congruence|right; eauto 6].
  - split_and!; [done|cbn; lia|]. intros k s'. rewrite Hin. split.
    + intros (e' & v' & He' & Hr). exists e', v'. split; [by right|done].
    + intros (e' & v' & He' & <- & Ev' & Et'). apply elem_of_cons in He' as [->|He']; [congruence|eauto 6].
Qed.

Lemma config_text_bound kvs : Forall kv_fits kvs -> Zlen (config_text kvs) <= 1024 * Zlen kvs.
Proof.
  unfold config_text. induction kvs as [|[k v] kvs IH]; intros HF; [done|]. inversion_clear HF as [|? ? Hkv HF'].
  cbn [map concat fst snd]. rewrite Zlen_app, Zlen_cons. specialize (IH HF').
  destruct (line_body_plain k v Hkv) as (_ & _ & Hl). rewrite config_line_body, Zlen_app. change (Zlen [x0a]) with 1.
  unfold Zlen at 1. lia.
Qed.

(** What was written is loaded, and stands for the texts of the values. *)
Lemma config_saved_map conf m name : stands_for (cf_list conf) m -> all_saved (cf_list conf) -> map_fits m ->
  Zlen (cf_list conf) < 2 ^ 50 ->
  exists text, (forall data pos, config_write conf (Some name) (Some (File data pos [])) =
      Ok (false, Config (Some name) (cf_list conf), Some (File text pos []))) /\
    (forall fails, exists conf', config_load name (Some (Stream text fails)) = Ok (Some conf') /\
      stands_for (cf_list conf') (reloaded m)).
Proof.
  intros Hm Hs Hf Hz. destruct (saved_kvs_ok _ _ Hm Hs Hf) as (kvs & E & HF & Hlen & Hin).
  exists (config_text kvs). pose proof (config_text_bound kvs HF) as Hb. split.
  - intros data pos. apply write_ok; [done|]. unfold Zlen in *. lia.
  - intros fails. exists (Config (Some name) (map loaded kvs)). split; [by apply (load_ok_text (cf_list conf)); [apply Hm|..]|].
    cbn [cf_list]. pose proof (saved_ok (cf_list conf) kvs (proj1 Hm) E) as [Hok Hr]. split; [done|].
    intros fk v. rewrite <- Hr. unfold reloaded. rewrite lookup_omap. split.
    + intros Hv. apply Hr. destruct (m !! fk) as [w|] eqn:Ew; [|done]. cbn in Hv.
      destruct (text_of w) as [s|] eqn:Et; [|done]. injection Hv as <-. apply (proj2 Hm) in Ew as (e & He & Ek & Ev).
      exists (loaded (kv_key e, s)). split_and!; [|done..]. apply list_elem_of_fmap_2, Hin. eauto 6.
    + intros Hv. apply Hr in Hv as (e & He & Ek & Ev). apply list_elem_of_fmap in He as ([k s] & -> & Hks).
      injection Ev as <-. apply Hin in Hks as (e & w & He & Ek' & Ev & Et). cbn [kv_key loaded fst] in Ek. subst k.
      assert (m !! fk = Some w) as -> by (apply (proj2 Hm); eauto). cbn. by rewrite Et.
Qed.

(** ** Setting *)

Lemma insert_saved l e : all_saved l -> kv_save e = true -> all_saved (config_insert l e).
Proof. intros Hl He. unfold all_saved. rewrite insert_perm. by constructor. Qed.
Lemma write_saved conf n e : all_saved (cf_list conf) -> kv_save e = true -> all_saved (cf_list (kv_write n e conf)).
Proof. intros Hl He. by apply Forall_insert. Qed.

(** The size of the list: a name more at most. *)
Lemma insert_Zlen l e : Zlen (config_insert l e) = Zlen l + 1.
Proof. unfold Zlen. rewrite insert_perm. cbn. lia. Qed.
Lemma write_Zlen conf n e : Zlen (cf_list (kv_write n e conf)) = Zlen (cf_list conf).
Proof. unfold kv_write, with_list, Zlen. cbn [cf_list]. by rewrite length_insert. Qed.

(** A configuration being filled: it stands for [m], to be saved as a whole. *)
Definition filled (conf : config) (m : gmap (list byte) kval) (n : Z) : Prop :=
  stands_for (cf_list conf) m /\ all_saved (cf_list conf) /\ Zlen (cf_list conf) <= n.

Ltac saved_case E :=
  repeat match type of E with
  | match ?x with _ => _ end = _ => destruct x eqn:?
  | mbind _ _ = _ => apply res_bind_Ok in E as (? & ? & E)
  end; try done; injection E as <-; cbn [cf_list with_list];
  rewrite ?insert_Zlen, ?write_Zlen; (split; [first [by apply insert_saved|by apply write_saved]|lia]).

Lemma setint64_saved conf v key conf' : config_setint64 conf v key = Ok conf' -> all_saved (cf_list conf) ->
  all_saved (cf_list conf') /\ Zlen (cf_list conf') <= Zlen (cf_list conf) + 1.
Proof. unfold config_setint64. cbv zeta. intros E Hs. saved_case E. Qed.
Lemma setbool_saved conf v key conf' : config_setbool conf v key = Ok conf' -> all_saved (cf_list conf) ->
  all_saved (cf_list conf') /\ Zlen (cf_list conf') <= Zlen (cf_list conf) + 1.
Proof. unfold config_setbool. cbv zeta. intros E Hs. saved_case E. Qed.
Lemma setstring_saved conf v key conf' : config_setstring conf v key = Ok conf' -> all_saved (cf_list conf) ->
  all_saved (cf_list conf') /\ Zlen (cf_list conf') <= Zlen (cf_list conf) + 1.
Proof. unfold config_setstring. cbv zeta. intros E Hs. saved_case E. Qed.

(** A name of the form the client uses: short and in lower case. *)
Definition plain_name (key : list byte) : Prop := fold_case key = key /\ (length key <= 1023)%nat.
Lemma plain_key key : plain_name key -> fold_case (key_buf key) = key.
Proof. intros [Hk Hl]. unfold key_buf. by rewrite take_ge. Qed.

(** Setting a new name. *)
Lemma fill_int_name conf m n key name v : filled conf m n -> fold_case (key_buf key) = name -> m !! name = None ->
  exists conf', config_setint64 conf v key = Ok conf' /\ filled conf' (<[name := VInt v]> m) (n + 1).
Proof.
  intros (Hm & Hs & Hn) Hk E. pose proof (setint64_spec conf m Hm v key) as Ha.
  cbn [cmap_step] in Ha. rewrite Hk, E in Ha. destruct Ha as (conf' & Ec & Hm').
  cbn [config_step] in Ec. apply res_bind_Ok in Ec as (c & Ec & [= <-]). exists c. split; [done|].
  destruct (setint64_saved _ _ _ _ Ec Hs) as [Hs' Hn']. split_and!; [done..|lia].
Qed.
Lemma fill_int conf m n key v : filled conf m n -> plain_name key -> m !! key = None ->
  exists conf', config_setint64 conf v key = Ok conf' /\ filled conf' (<[key := VInt v]> m) (n + 1).
Proof. intros Hf Hk%plain_key E. by apply fill_int_name. Qed.
Lemma fill_bool conf m n key v : filled conf m n -> plain_name key -> m !! key = None ->
  exists conf', config_setbool conf v key = Ok conf' /\ filled conf' (<[key := VBool v]> m) (n + 1).
Proof.
  intros (Hm & Hs & Hn) Hk E. pose proof (setbool_spec conf m Hm v key) as Ha.
  cbn [cmap_step] in Ha. rewrite (plain_key key Hk), E in Ha. destruct Ha as (conf' & Ec & Hm').
  cbn [config_step] in Ec. apply res_bind_Ok in Ec as (c & Ec & [= <-]). exists c. split; [done|].
  destruct (setbool_saved _ _ _ _ Ec Hs) as [Hs' Hn']. split_and!; [done..|lia].
Qed.
Lemma fill_string conf m n key v : filled conf m n -> plain_name key -> m !! key = None ->
  exists conf', config_setstring conf v key = Ok conf' /\ filled conf' (<[key := VStr v]> m) (n + 1).
Proof.
  intros (Hm & Hs & Hn) Hk E. pose proof (setstring_spec conf m Hm v key) as Ha.
  cbn [cmap_step] in Ha. rewrite (plain_key key Hk), E in Ha. destruct Ha as (conf' & Ec & Hm').
  cbn [config_step] in Ec. apply res_bind_Ok in Ec as (c & Ec & [= <-]). exists c. split; [done|].
  destruct (setstring_saved _ _ _ _ Ec Hs) as [Hs' Hn']. split_and!; [done..|lia].
Qed.
Lemma filled_create : filled config_create ∅ 0.
Proof. split_and!; [apply stands_for_empty|constructor|done]. Qed.

(** ** Getting *)

(** A getter answers from the map and leaves the other names alone. *)
Definition elsewhere (key : list byte) (m m' : gmap (list byte) kval) : Prop := forall k, k <> key -> m' !! k = m !! k.
Lemma elsewhere_insert key v m : elsewhere key m (<[key := v]> m).
Proof. intros k Hk. by rewrite lookup_insert_ne. Qed.
Lemma elsewhere_refl key m : elsewhere key m m.
Proof. by intros k _. Qed.

Lemma load_int_name conf m key name d z : stands_for (cf_list conf) m -> fold_case (key_buf key) = name -> - 2 ^ 63 <= z < 2 ^ 63 ->
  m !! name = Some (VRaw (Some (print_d64 z))) ->
  exists conf' m', config_getint64 conf d key = Ok (z, conf') /\ stands_for (cf_list conf') m' /\ elsewhere name m m'.
Proof.
  intros Hm Hk Hz E. pose proof (getint64_spec conf m Hm d key) as Ha. destruct (print_d64_spec z Hz) as [Ez _].
  cbn [cmap_step] in Ha. rewrite Hk, E, Ez, bind_ok in Ha. destruct Ha as (conf' & Ec & Hm').
  cbn [config_step] in Ec. apply res_bind_Ok in Ec as ([v c] & Ec & [= -> <-]). exists c, (<[name := VInt z]> m).
  split_and!; [done..|apply elsewhere_insert].
Qed.
Lemma load_int conf m key d z : stands_for (cf_list conf) m -> plain_name key -> - 2 ^ 63 <= z < 2 ^ 63 ->
  m !! key = Some (VRaw (Some (print_d64 z))) ->
  exists conf' m', config_getint64 conf d key = Ok (z, conf') /\ stands_for (cf_list conf') m' /\ elsewhere key m m'.
Proof. intros Hm Hk%plain_key. by apply load_int_name. Qed.
Lemma load_int_default conf m key name d : stands_for (cf_list conf) m -> fold_case (key_buf key) = name -> m !! name = None ->
  exists conf' m', config_getint64 conf d key = Ok (d, conf') /\ stands_for (cf_list conf') m' /\ elsewhere name m m'.
Proof.
  intros Hm Hk E. pose proof (getint64_spec conf m Hm d key) as Ha.
  cbn [cmap_step] in Ha. rewrite Hk, E in Ha. destruct Ha as (conf' & Ec & Hm').
  cbn [config_step] in Ec. apply res_bind_Ok in Ec as ([v c] & Ec & [= -> <-]). exists c, (<[name := VInt d]> m).
  split_and!; [done..|apply elsewhere_insert].
Qed.
Lemma load_bool conf m key d (v : bool) : stands_for (cf_list conf) m -> plain_name key ->
  m !! key = Some (VRaw (Some (if v then str "TRUE" else str "FALSE"))) ->
  exists conf' m', config_getbool conf d key = Ok (v, conf') /\ stands_for (cf_list conf') m' /\ elsewhere key m m'.
Proof.
  intros Hm Hk E. pose proof (getbool_spec conf m Hm d key) as Ha.
  assert (Es : cmap_step m (OGetBool d key) = Ok (ABool v, <[key := VBool v]> m)).
  { cbn [cmap_step]. rewrite (plain_key key Hk), E. by destruct v. }
  rewrite Es in Ha. destruct Ha as (conf' & Ec & Hm').
  cbn [config_step] in Ec. apply res_bind_Ok in Ec as ([w c] & Ec & [= -> <-]). exists c, (<[key := VBool v]> m).
  split_and!; [done..|apply elsewhere_insert].
Qed.
(** A string that is there, or is not and has the default NULL. *)
Lemma load_string conf m key s : stands_for (cf_list conf) m -> plain_name key ->
  m !! key = (fun s => VRaw (Some s)) <$> s ->
  exists conf' m', config_getstring conf None key = Ok (s, conf') /\ stands_for (cf_list conf') m' /\ elsewhere key m m'.
Proof.
  intros Hm Hk E. pose proof (getstring_spec conf m Hm None key) as Ha.
  assert (Es : cmap_step m (OGetString None key) = Ok (AStr s, <[key := VStr s]> m)).
  { cbn [cmap_step]. rewrite (plain_key key Hk), E. by destruct s. }
  rewrite Es in Ha. destruct Ha as (conf' & Ec & Hm').
  cbn [config_step] in Ec. apply res_bind_Ok in Ec as ([w c] & Ec & [= -> <-]). exists c, (<[key := VStr s]> m).
  split_and!; [done..|apply elsewhere_insert].
Qed.
