(* ===== verification/Circlist.v ===== *)
(** * Circular lists (core/circlist.h)

    Doubly linked rings of items embedded in the structures they link, the list
    of the peers being one: the pointers in a heap, and the list they stand for. *)
From S2P Require Export Prelude.

Record circlist_item : Type := Item { prev : option positive; next : option positive }.

(** The heap of the items and [*list]. *)
Record circlist : Type := Circ { c_items : gmap positive circlist_item; c_list : option positive }.

Definition item_load (c : circlist) (o : option positive) : res circlist_item :=
  match o with
  | Some p => match c_items c !! p with Some i => Ok i | None => Fault UB end
  | None => Fault UB
  end.
Definition put_prev (p q : option positive) : ST circlist unit := fun c =>
  i ← item_load c p;
  match p with Some p => Ok (tt, Circ (<[p := Item q (next i)]> (c_items c)) (c_list c)) | None => Fault UB end.
Definition put_next (p q : option positive) : ST circlist unit := fun c =>
  i ← item_load c p;
  match p with Some p => Ok (tt, Circ (<[p := Item (prev i) q]> (c_items c)) (c_list c)) | None => Fault UB end.
Definition set_list (l : option positive) : ST circlist unit := fun c => Ok (tt, Circ (c_items c) l).

(** [item->prev->next = q] *)
Definition set_prev_next (item : positive) (q : option positive) : ST circlist unit := fun c =>
  i ← item_load c (Some item); put_next (prev i) q c.
(** [if ( *list == item) *list = next] *)
Definition move_list (item : positive) (l : option positive) : ST circlist unit := fun c =>
  if bool_decide (c_list c = Some item) then set_list l c else Ok (tt, c).

Definition circlist_empty (list : option positive) : bool := bool_decide (list = None).

Definition circlist_next_item (c : circlist) (p head : option positive) : res (option positive) :=
  if bool_decide (head = None) || bool_decide (p = None) then Ok None else
  i ← item_load c p;
  Ok (if bool_decide (next i = head) then None else next i).

Definition circlist_prev_item (c : circlist) (p head : option positive) : res (option positive) :=
  if bool_decide (head = None) || bool_decide (p = None) then Ok None else
  if bool_decide (p = head) then Ok None else
  i ← item_load c p; Ok (prev i).

Definition circlist_init_item (li : positive) : ST circlist unit :=
  _ ← put_prev (Some li) None; put_next (Some li) None.

Definition circlist_queue_item (item : positive) : ST circlist unit := fun c =>
  let li := c_list c in
  if circlist_empty li then
    (_ ← put_prev (Some item) (Some item); _ ← put_next (Some item) (Some item); set_list (Some item)) c
  else
    i ← item_load c li;
    (_ ← put_prev (Some item) (prev i); _ ← put_next (Some item) li;
     _ ← set_prev_next item (Some item);
     put_prev li (Some item)) c.

Definition circlist_push_item (item : positive) : ST circlist unit :=
  _ ← circlist_queue_item item; set_list (Some item).

Definition circlist_delete_item (item : positive) : ST circlist unit := fun c =>
  i ← item_load c (Some item);
  if bool_decide (Some item = next i) then set_list None c else
  (_ ← put_prev (next i) (prev i); _ ← set_prev_next item (next i); move_list item (next i)) c.

(** [CIRCLIST_SCAN] and [CIRCLIST_SCAN_BACK]: the items visited; [fuel] bounds
    the ring. *)
Fixpoint scan_loop (step : circlist_item -> option positive) (fuel : nat) (c : circlist) (stop p : option positive) :
    res (list positive) :=
  match fuel, p with
  | _, None => Ok []
  | O, _ => Fault UB
  | S fuel, Some x =>
      i ← item_load c p;
      l ← scan_loop step fuel c stop (if bool_decide (step i = stop) then None else step i);
      Ok (x :: l)
  end.
Definition circlist_scan (c : circlist) : res (list positive) :=
  scan_loop next (S (size (c_items c))) c (c_list c) (c_list c).
Definition CIRCLIST_LAST (c : circlist) : res (option positive) :=
  if circlist_empty (c_list c) then Ok None else i ← item_load c (c_list c); Ok (prev i).
Definition circlist_scan_back (c : circlist) : res (list positive) :=
  l ← CIRCLIST_LAST c; scan_loop prev (S (size (c_items c))) c l l.

(** ** Rings *)

Implicit Types h : gmap positive circlist_item.

Definition nxt h p : option positive := h !! p ≫= next.
Definition prv h p : option positive := h !! p ≫= prev.

(** From [a] through [xs] to [b], linked both ways. *)
Fixpoint chain h (a : positive) (xs : list positive) (b : positive) : Prop :=
  match xs with
  | [] => nxt h a = Some b /\ prv h b = Some a
  | x :: xs => nxt h a = Some x /\ prv h x = Some a /\ chain h x xs b
  end.
Definition cyc h (xs : list positive) : Prop := match xs with [] => True | x :: xs => chain h x xs x end.

(** The ring stands for the list [xs]. *)
Definition ring (c : circlist) (xs : list positive) : Prop :=
  c_list c = head xs /\ NoDup xs /\ cyc (c_items c) xs.

Lemma chain_app h xs ys : forall a y b, chain h a (xs ++ y :: ys) b <-> chain h a xs y /\ chain h y ys b.
Proof.
  induction xs as [|x xs IH]; intros a y b; cbn [app chain]; [tauto|]. rewrite IH. tauto.
Qed.

Lemma cyc_rotate h l1 l2 : cyc h (l1 ++ l2) -> cyc h (l2 ++ l1).
Proof.
  destruct l1 as [|x l1], l2 as [|y l2]; cbn [app]; rewrite ?app_nil_r; try done.
  cbn [cyc]. rewrite !chain_app. tauto.
Qed.

(** What a chain reads: the [next] of all but the last, the [prev] of all but the
    first. *)
Lemma chain_frame h h' xs : forall a b, chain h a xs b ->
  (forall p, p ∈ a :: xs -> nxt h' p = nxt h p) -> (forall p, p ∈ xs ++ [b] -> prv h' p = prv h p) -> chain h' a xs b.
Proof.
  induction xs as [|x xs IH]; intros a b; cbn [chain app].
  - intros [Hn Hp] Hn' Hp'. by rewrite Hn', Hp' by left.
  - intros (Hn & Hp & Hc) Hn' Hp'. rewrite (Hn' a) by left. rewrite (Hp' x) by left. split; [done|]. split; [done|].
    apply IH; [done|intros; apply Hn'; by right|intros; apply Hp'; by right].
Qed.

Lemma chain_in h xs : forall a b p, chain h a xs b -> p ∈ a :: xs -> is_Some (h !! p).
Proof.
  induction xs as [|x xs IH]; intros a b p Hc Hp.
  - apply list_elem_of_singleton in Hp as ->. destruct Hc as [Hn _]. unfold nxt in Hn. by destruct (h !! a).
  - destruct Hc as (Hn & _ & Hc). apply elem_of_cons in Hp as [->|Hp]; [unfold nxt in Hn; by destruct (h !! a)|by apply (IH x b)].
Qed.

Lemma ring_in c xs p : ring c xs -> p ∈ xs -> is_Some (c_items c !! p).
Proof. intros (_ & _ & Hc) Hp. destruct xs as [|x xs]; [by apply not_elem_of_nil in Hp|]. by apply (chain_in _ xs x x). Qed.

(** *** The writes, by what they change *)

(** [c'] is [c] but for the [prev] (the [next]) of [p]. *)
Definition prev_set (c c' : circlist) p q : Prop :=
  (forall r, nxt (c_items c') r = nxt (c_items c) r) /\
  (forall r, prv (c_items c') r = if decide (r = p) then q else prv (c_items c) r) /\
  (forall r, is_Some (c_items c' !! r) <-> is_Some (c_items c !! r)) /\ c_list c' = c_list c.
Definition next_set (c c' : circlist) p q : Prop :=
  (forall r, nxt (c_items c') r = if decide (r = p) then q else nxt (c_items c) r) /\
  (forall r, prv (c_items c') r = prv (c_items c) r) /\
  (forall r, is_Some (c_items c' !! r) <-> is_Some (c_items c !! r)) /\ c_list c' = c_list c.

Lemma lookup_is_Some_insert h p i r : is_Some (h !! p) -> is_Some (<[p := i]> h !! r) <-> is_Some (h !! r).
Proof.
  intros Hp. destruct (decide (r = p)) as [->|Hne]; [rewrite lookup_insert_eq; split; [done|by eexists]|by rewrite lookup_insert_ne].
Qed.

Lemma set_prev_ok c p q : is_Some (c_items c !! p) -> exists c', put_prev (Some p) q c = Ok (tt, c') /\ prev_set c c' p q.
Proof.
  intros [i E]. unfold put_prev, item_load. rewrite E, bind_ok. eexists. split; [done|]. unfold prev_set, nxt, prv. cbn [c_items c_list].
  split; [|split; [|split; [intros r; apply lookup_is_Some_insert; by eexists|done]]]; intros r.
  - destruct (decide (r = p)) as [->|Hne]; [by rewrite lookup_insert_eq, E|by rewrite lookup_insert_ne].
  - destruct (decide (r = p)) as [->|Hne]; [by rewrite lookup_insert_eq|by rewrite lookup_insert_ne].
Qed.
Lemma set_next_ok c p q : is_Some (c_items c !! p) -> exists c', put_next (Some p) q c = Ok (tt, c') /\ next_set c c' p q.
Proof.
  intros [i E]. unfold put_next, item_load. rewrite E, bind_ok. eexists. split; [done|]. unfold next_set, nxt, prv. cbn [c_items c_list].
  split; [|split; [|split; [intros r; apply lookup_is_Some_insert; by eexists|done]]]; intros r.
  - destruct (decide (r = p)) as [->|Hne]; [by rewrite lookup_insert_eq|by rewrite lookup_insert_ne].
  - destruct (decide (r = p)) as [->|Hne]; [by rewrite lookup_insert_eq, E|by rewrite lookup_insert_ne].
Qed.
Lemma set_prev_next_ok c item p q : prv (c_items c) item = Some p -> is_Some (c_items c !! p) ->
  exists c', set_prev_next item q c = Ok (tt, c') /\ next_set c c' p q.
Proof.
  intros Hp Hs. unfold prv in Hp. unfold set_prev_next, item_load. destruct (c_items c !! item) as [i|]; [|done].
  cbn in Hp. rewrite bind_ok, Hp. by apply set_next_ok.
Qed.

(** The end of a chain moved to [b']. *)
Lemma chain_retarget h h' xs : forall a b b' l, NoDup (a :: xs) -> last (a :: xs) = Some l -> chain h a xs b ->
  (forall p, p ∈ a :: xs -> p <> l -> nxt h' p = nxt h p) -> nxt h' l = Some b' ->
  (forall p, p ∈ xs -> prv h' p = prv h p) -> prv h' b' = Some l -> chain h' a xs b'.
Proof.
  induction xs as [|x xs IH]; intros a b b' l Hd Hl Hc Hn Hnl Hp Hpb.
  { cbn in Hl. injection Hl as ->. by split. }
  destruct Hc as (Ha & Hx & Hc). rewrite last_cons_cons in Hl. apply NoDup_cons in Hd as [Hni Hd].
  assert (a <> l) by (intros ->; apply Hni; by apply last_Some_elem_of).
  cbn [chain]. rewrite Hn, Hp by (try done; left). split; [done|]. split; [done|].
  apply (IH x b b' l); [done|done|done| |done| |done]; intros; [apply Hn; [by right|done]|apply Hp; by right].
Qed.

Lemma chain_last h xs : forall a b l, last (a :: xs) = Some l -> chain h a xs b -> nxt h l = Some b /\ prv h b = Some l.
Proof.
  induction xs as [|x xs IH]; intros a b l Hl Hc; [cbn in Hl; by injection Hl as ->|].
  rewrite last_cons_cons in Hl. destruct Hc as (_ & _ & Hc). by apply (IH x).
Qed.

(** ** The operations on the list *)

Lemma queue_ok c xs item : ring c xs -> item ∉ xs -> is_Some (c_items c !! item) ->
  exists c', circlist_queue_item item c = Ok (tt, c') /\ ring c' (xs ++ [item]) /\
    forall r, is_Some (c_items c' !! r) <-> is_Some (c_items c !! r).
Proof.
  intros Hr Hni Hi. pose proof Hr as (Hl & Hd & Hc). unfold circlist_queue_item, circlist_empty. rewrite Hl. destruct xs as [|x xs]; cbn [head].
  - rewrite bool_decide_eq_true_2 by done. unfold mbind at 1, st_bind at 1.
    destruct (set_prev_ok c item (Some item) Hi) as (c1 & -> & N1 & P1 & D1 & _). unfold mbind, st_bind.
    destruct (set_next_ok c1 item (Some item)) as (c2 & -> & N2 & P2 & D2 & _); [by rewrite D1|]. unfold set_list. eexists. split; [done|].
    split; [|intros r; cbn [c_items]; by rewrite D2, D1]. split; [done|]. split; [apply NoDup_singleton|]. cbn [app cyc chain c_items].
    by rewrite N2, P2, P1, !decide_True.
  - rewrite bool_decide_eq_false_2 by done. cbn [head] in Hl. destruct (last (x :: xs)) as [l|] eqn:El; [|by apply last_None in El].
    destruct (chain_last _ _ _ _ _ El Hc) as [Hnl Hpx]. apply not_elem_of_cons in Hni as [Hix Hni].
    assert (Hlin : l ∈ x :: xs) by by apply last_Some_elem_of.
    assert (Hil : item <> l) by (intros ->; apply elem_of_cons in Hlin as [?|?]; done).
    assert (Hxs : forall p, p ∈ x :: xs -> is_Some (c_items c !! p)) by (intros; by apply (ring_in c (x :: xs))).
    unfold item_load at 1. destruct (c_items c !! x) as [ix|] eqn:Ex; [|unfold prv in Hpx; by rewrite Ex in Hpx].
    rewrite bind_ok. assert (Epx : prev ix = Some l) by (unfold prv in Hpx; by rewrite Ex in Hpx). rewrite Epx.
    unfold mbind, st_bind. destruct (set_prev_ok c item (Some l) Hi) as (c1 & -> & N1 & P1 & D1 & L1).
    destruct (set_next_ok c1 item (Some x)) as (c2 & -> & N2 & P2 & D2 & L2); [by rewrite D1|].
    destruct (set_prev_next_ok c2 item l (Some item)) as (c3 & -> & N3 & P3 & D3 & L3);
      [by rewrite P2, P1, decide_True|rewrite D2, D1; by apply Hxs|].
    destruct (set_prev_ok c3 x (Some item)) as (c4 & -> & N4 & P4 & D4 & L4); [rewrite D3, D2, D1; by apply Hxs; left|].
    exists c4. split; [done|]. split; [|intros r; by rewrite D4, D3, D2, D1].
    split; [by rewrite L4, L3, L2, L1, Hl|]. split.
    { apply NoDup_app. split; [done|]. split; [|apply NoDup_singleton]. intros p Hp ->%list_elem_of_singleton.
      apply elem_of_cons in Hp as [?|?]; done. }
    cbn [app cyc]. apply chain_app. split; [|split].
    + apply (chain_retarget (c_items c) _ xs x x item l Hd El Hc).
      * intros p Hp Hpl. rewrite N4, N3, decide_False, N2, N1 by done. rewrite decide_False; [done|].
        intros ->. apply elem_of_cons in Hp as [?|?]; done.
      * by rewrite N4, N3, decide_True.
      * intros p Hp. apply NoDup_cons in Hd as [Hnx _]. rewrite P4, decide_False by (intros ->; done).
        rewrite P3, P2, P1, decide_False by (intros ->; done). done.
      * by rewrite P4, decide_False, P3, P2, P1, decide_True.
    + by rewrite N4, N3, decide_False, N2, decide_True.
    + by rewrite P4, decide_True.
Qed.

Lemma push_ok c xs item : ring c xs -> item ∉ xs -> is_Some (c_items c !! item) ->
  exists c', circlist_push_item item c = Ok (tt, c') /\ ring c' (item :: xs) /\
    forall r, is_Some (c_items c' !! r) <-> is_Some (c_items c !! r).
Proof.
  intros Hr Hni Hi. destruct (queue_ok c xs item Hr Hni Hi) as (c' & E & (_ & Hd & Hc) & Hs).
  unfold circlist_push_item, mbind, st_bind. rewrite E. unfold set_list. eexists. split; [done|]. split; [|done].
  split; [done|]. split; [by rewrite Permutation_app_comm in Hd|]. cbn [c_items]. by apply (cyc_rotate _ xs [item]).
Qed.

Lemma delete_ok c l1 y l2 : ring c (l1 ++ y :: l2) ->
  exists c', circlist_delete_item y c = Ok (tt, c') /\ ring c' (l1 ++ l2) /\
    forall r, is_Some (c_items c' !! r) <-> is_Some (c_items c !! r).
Proof.
  intros (Hl & Hd & Hc). pose proof (ring_in c _ y (conj Hl (conj Hd Hc)) ltac:(apply elem_of_app; right; left)) as [i Ei].
  assert (Hin : forall p, p ∈ l1 ++ l2 -> is_Some (c_items c !! p)).
  { intros p Hp. apply (ring_in c (l1 ++ y :: l2)); [done|]. apply elem_of_app in Hp as [?|?]; apply elem_of_app; [by left|right; by right]. }
  assert (Hrot : cyc (c_items c) (l2 ++ l1 ++ [y])).
  { replace (l2 ++ l1 ++ [y]) with ((l2 ++ l1) ++ [y]) by by rewrite app_assoc. apply (cyc_rotate _ [y]). cbn [app].
    by apply (cyc_rotate _ l1 (y :: l2)). }
  unfold circlist_delete_item, item_load at 1. rewrite Ei, bind_ok. rewrite app_assoc in Hrot.
  assert (Hd' : NoDup (y :: l2 ++ l1)) by (revert Hd; rewrite Permutation_app_comm; cbn; done).
  apply NoDup_cons in Hd' as [Hny Hd2]. assert (Hdl : NoDup (l1 ++ l2)) by by rewrite Permutation_app_comm.
  destruct (l2 ++ l1) as [|z zs] eqn:Ez.
  { apply app_eq_nil in Ez as [-> ->]. cbn in Hrot. destruct Hrot as [Hn _]. unfold nxt in Hn. rewrite Ei in Hn. cbn in Hn.
    rewrite Hn, bool_decide_eq_true_2 by done. unfold set_list. eexists. split; [done|]. split; [|done]. by split; [|split; [constructor|]]. }
  cbn [app cyc] in Hrot. apply chain_app in Hrot as [Hc1 [Hny' Hpz]]. apply not_elem_of_cons in Hny as [Hyz Hny].
  assert (Eni : next i = Some z) by (unfold nxt in Hny'; by rewrite Ei in Hny'). rewrite Eni.
  rewrite bool_decide_eq_false_2 by congruence. destruct (last (z :: zs)) as [l|] eqn:El; [|by apply last_None in El].
  destruct (chain_last _ _ _ _ _ El Hc1) as [Hnl Hpy]. assert (Epi : prev i = Some l) by (unfold prv in Hpy; by rewrite Ei in Hpy).
  assert (Hzin : forall p, p ∈ z :: zs -> is_Some (c_items c !! p)).
  { intros p Hp. apply Hin. rewrite <- Ez in Hp. revert Hp. rewrite !elem_of_app. tauto. }
  assert (Hlz : l ∈ z :: zs) by by apply last_Some_elem_of.
  assert (Hyl : y <> l) by (intros ->; apply elem_of_cons in Hlz as [?|?]; done).
  rewrite Epi. unfold mbind, st_bind.
  destruct (set_prev_ok c z (Some l)) as (c1 & -> & N1 & P1 & D1 & L1); [apply Hzin; left|].
  destruct (set_prev_next_ok c1 y l (Some z)) as (c2 & -> & N2 & P2 & D2 & L2); [by rewrite P1, decide_False|rewrite D1; by apply Hzin|].
  assert (Hcyc : cyc (c_items c2) (l1 ++ l2)).
  { apply (cyc_rotate _ l2 l1). rewrite Ez. cbn [cyc]. apply (chain_retarget (c_items c) _ zs z y z l Hd2 El Hc1).
    - intros p Hp Hpl. by rewrite N2, decide_False, N1.
    - by rewrite N2, decide_True.
    - intros p Hp. apply NoDup_cons in Hd2 as [Hnz _]. rewrite P2, P1, decide_False; [done|]. intros ->. done.
    - by rewrite P2, P1, decide_True. }
  assert (Hs : forall r, is_Some (c_items c2 !! r) <-> is_Some (c_items c !! r)) by (intros r; by rewrite D2, D1).
  unfold move_list. rewrite L2, L1, Hl. destruct l1 as [|x l1]; cbn [app head] in *.
  - rewrite bool_decide_eq_true_2 by done. unfold set_list. eexists. split; [done|]. split; [|done].
    rewrite app_nil_r in Ez. subst l2. done.
  - apply NoDup_cons in Hd as [Hnx _]. rewrite bool_decide_eq_false_2.
    + exists c2. split; [done|]. split; [|done]. split; [by rewrite L2, L1, Hl|done].
    + intros [= ->]. apply Hnx. apply elem_of_app. right. left.
Qed.

(** ** The scans *)

Lemma ring_size c xs : ring c xs -> (length xs <= size (c_items c))%nat.
Proof.
  intros Hr. pose proof Hr as (_ & Hd & _). rewrite <- (size_list_to_set (C := gset positive) xs Hd), <- (size_dom (D := gset positive)).
  apply subseteq_size. intros p Hp%elem_of_list_to_set. apply elem_of_dom. by apply (ring_in c xs).
Qed.

Lemma scan_next_ok c xs : forall fuel a b, chain (c_items c) a xs b -> b ∉ xs -> (length xs < fuel)%nat ->
  scan_loop next fuel c (Some b) (Some a) = Ok (a :: xs).
Proof.
  induction xs as [|x xs IH]; intros fuel a b Hc Hb Hf; (destruct fuel as [|fuel]; [cbn in Hf; lia|]); cbn [scan_loop];
    unfold item_load at 1; destruct (c_items c !! a) as [i|] eqn:Ei.
  - destruct Hc as [Hn _]. unfold nxt in Hn. rewrite Ei in Hn. cbn in Hn. rewrite bind_ok, Hn, bool_decide_eq_true_2 by done.
    by destruct fuel.
  - destruct Hc as [Hn _]. unfold nxt in Hn. by rewrite Ei in Hn.
  - destruct Hc as (Hn & _ & Hc). unfold nxt in Hn. rewrite Ei in Hn. cbn in Hn. apply not_elem_of_cons in Hb as [Hbx Hb].
    rewrite bind_ok, Hn, bool_decide_eq_false_2 by congruence. rewrite (IH fuel x b Hc Hb); [done|cbn in Hf; lia].
  - destruct Hc as (Hn & _). unfold nxt in Hn. by rewrite Ei in Hn.
Qed.

Lemma scan_prev_ok c xs : forall fuel a b, chain (c_items c) a xs b -> a ∉ xs -> (length xs < fuel)%nat ->
  scan_loop prev fuel c (Some a) (Some b) = Ok (b :: rev xs).
Proof.
  induction xs as [|x xs IH] using rev_ind; intros fuel a b Hc Ha Hf; (destruct fuel as [|fuel]; [lia|]); cbn [scan_loop];
    unfold item_load at 1; destruct (c_items c !! b) as [i|] eqn:Ei.
  - destruct Hc as [_ Hp]. unfold prv in Hp. rewrite Ei in Hp. cbn in Hp. rewrite bind_ok, Hp, bool_decide_eq_true_2 by done.
    by destruct fuel.
  - destruct Hc as [_ Hp]. unfold prv in Hp. by rewrite Ei in Hp.
  - apply chain_app in Hc as [Hc [_ Hp]]. unfold prv in Hp. rewrite Ei in Hp. cbn in Hp. rewrite not_elem_of_app, list_elem_of_singleton in Ha.
    rewrite bind_ok, Hp, bool_decide_eq_false_2 by naive_solver. rewrite length_app in Hf. cbn in Hf.
    rewrite (IH fuel a x Hc); [by rewrite rev_app_distr|naive_solver|lia].
  - apply chain_app in Hc as [_ [_ Hp]]. unfold prv in Hp. by rewrite Ei in Hp.
Qed.

Lemma scan_ok c xs : ring c xs -> circlist_scan c = Ok xs.
Proof.
  intros Hr. pose proof (ring_size c xs Hr). destruct Hr as (Hl & Hd & Hc). unfold circlist_scan. rewrite Hl.
  destruct xs as [|x xs]; [done|]. cbn [head]. apply NoDup_cons in Hd as [Hni _].
  apply scan_next_ok; [done|done|]. cbn [length] in *. lia.
Qed.

Lemma scan_back_ok c xs : ring c xs -> circlist_scan_back c = Ok (rev xs).
Proof.
  intros Hr. pose proof (ring_size c xs Hr). destruct Hr as (Hl & Hd & Hc). unfold circlist_scan_back, CIRCLIST_LAST, circlist_empty. rewrite Hl.
  destruct xs as [|x xs]; [done|]. cbn [head]. rewrite bool_decide_eq_false_2 by done.
  destruct (last (x :: xs)) as [l|] eqn:El; [|by apply last_None in El]. destruct (chain_last _ _ _ _ _ El Hc) as [Hnl Hpx].
  unfold item_load at 1. unfold prv in Hpx. destruct (c_items c !! x) as [i|] eqn:Ei; [|done]. cbn in Hpx. rewrite bind_ok, Hpx, bind_ok.
  (* the ring seen from its last item *)
  destruct (exists_last (l := x :: xs) ltac:(done)) as (ys & l' & Exs). rewrite Exs, last_snoc in El. injection El as <-.
  assert (Hrot : cyc (c_items c) ([l'] ++ ys)) by (apply cyc_rotate; by rewrite <- Exs). cbn [app cyc] in Hrot. rewrite Exs in Hd.
  rewrite (scan_prev_ok c ys _ l' l' Hrot).
  - by rewrite Exs, rev_app_distr.
  - apply NoDup_app in Hd as (_ & Hdis & _). intros Hin. apply (Hdis l' Hin). left.
  - assert (E : length (x :: xs) = S (length ys)) by (rewrite Exs, length_app; cbn; lia). lia.
Qed.

(** ** Sequences of operations *)

Inductive cl_op : Type := ClQueue (p : positive) | ClPush (p : positive) | ClDelete (p : positive).

Definition cl_step (op : cl_op) : ST circlist unit :=
  match op with
  | ClQueue p => circlist_queue_item p
  | ClPush p => circlist_push_item p
  | ClDelete p => circlist_delete_item p
  end.
Definition list_step (op : cl_op) (xs : list positive) : list positive :=
  match op with
  | ClQueue p => xs ++ [p]
  | ClPush p => p :: xs
  | ClDelete p => filter (fun q => q <> p) xs
  end.
(** An item is put in a list it is not in, and deleted from one it is in. *)
Definition cl_op_ok (c : circlist) (op : cl_op) (xs : list positive) : Prop :=
  match op with
  | ClQueue p | ClPush p => p ∉ xs /\ is_Some (c_items c !! p)
  | ClDelete p => p ∈ xs
  end.

Fixpoint cl_run (ops : list cl_op) (c : circlist) : res circlist :=
  match ops with [] => Ok c | op :: ops => '(_, c) ← cl_step op c; cl_run ops c end.
Fixpoint list_run (ops : list cl_op) (xs : list positive) : list positive :=
  match ops with [] => xs | op :: ops => list_run ops (list_step op xs) end.
Fixpoint cl_ops_ok (c : circlist) (ops : list cl_op) (xs : list positive) : Prop :=
  match ops with [] => True | op :: ops => cl_op_ok c op xs /\ cl_ops_ok c ops (list_step op xs) end.


Lemma cl_step_ok op c xs : ring c xs -> cl_op_ok c op xs ->
  exists c', cl_step op c = Ok (tt, c') /\ ring c' (list_step op xs) /\ forall r, is_Some (c_items c' !! r) <-> is_Some (c_items c !! r).
Proof.
  intros Hr Hop. destruct op as [p|p|p]; cbn [cl_step list_step cl_op_ok] in *.
  - destruct Hop. by apply queue_ok.
  - destruct Hop. by apply push_ok.
  - apply list_elem_of_split in Hop as (l1 & l2 & ->). rewrite filter_delete by apply Hr. by apply delete_ok.
Qed.

Lemma cl_run_ok ops : forall c c0 xs, ring c xs -> (forall r, is_Some (c_items c !! r) <-> is_Some (c_items c0 !! r)) -> cl_ops_ok c0 ops xs ->
  exists c', cl_run ops c = Ok c' /\ ring c' (list_run ops xs).
Proof.
  induction ops as [|op ops IH]; intros c c0 xs Hr Hs Hops; cbn [cl_run list_run]; [by exists c|]. destruct Hops as [Hop Hops].
  destruct (cl_step_ok op c xs Hr) as (c1 & -> & Hr1 & Hs1).
  { destruct op; cbn in *; rewrite ?Hs; done. }
  rewrite bind_ok. apply (IH c1 c0); [done| |done]. intros r. by rewrite Hs1, Hs.
Qed.

(** ** Properties *)

(** C35: the ring of pointers is a list. After any sequence of queueing, pushing
    and deleting, from the empty list, the pointers form a ring of the items of
    the list the operations build, no write is outside an object, and the scans
    visit exactly its items, in order and backwards, and end. *)
Theorem circlist_simulates_list (items : gmap positive circlist_item) (ops : list cl_op) :
  cl_ops_ok (Circ items None) ops [] ->
  exists c, cl_run ops (Circ items None) = Ok c /\
    circlist_scan c = Ok (list_run ops []) /\ circlist_scan_back c = Ok (rev (list_run ops [])).
Proof.
  intros Hops. destruct (cl_run_ok ops (Circ items None) (Circ items None) []) as (c & E & Hr); [|done|done|].
  - split; [done|]. split; [constructor|done].
  - exists c. split; [done|]. split; [by apply scan_ok|by apply scan_back_ok].
Qed.

Definition four_items : gmap positive circlist_item :=
  {[ 1%positive := Item None None; 2%positive := Item None None; 3%positive := Item None None; 4%positive := Item None None ]}.
Definition four_ops : list cl_op :=
  [ClQueue 1; ClQueue 2; ClPush 3; ClDelete 1; ClQueue 4; ClDelete 3; ClQueue 1]%positive.

Lemma circlist_simulates_list_witness :
  cl_ops_ok (Circ four_items None) four_ops [] /\
  exists c, cl_run four_ops (Circ four_items None) = Ok c /\
    circlist_scan c = Ok [2; 4; 1]%positive /\ circlist_scan_back c = Ok [1; 4; 2]%positive.
Proof.
  assert (H : cl_ops_ok (Circ four_items None) four_ops []).
  { cbn. repeat split; try (apply (bool_decide_unpack _); by vm_compute). }
  split; [exact H|]. exact (circlist_simulates_list four_items four_ops H).
Defined.
