(* ===== verification/Poll.v ===== *)
(** * The event loop (lib/poll/poll.c)

    Timers, kept in the order in which they expire, and descriptors that are
    waited for. Entries are objects with a count of references: a callback may
    remove any of them, itself included. The lists are those of Circlist.v. *)
From S2P Require Export Records Objects.

Inductive poll_type : Set := POLL_CB_NONE | POLL_CB_DEVICE | POLL_CB_TIME.
#[export] Instance poll_type_eq_dec : EqDecision poll_type.
Proof. solve_decision. Defined.

(** The function and its argument are numbers. What only devices have and what only
    timers have is a union in the code: nothing reads the part of the other type. *)
Record poll_entry : Type := PollEntry {
  callback : Z; callbackData : Z; permanent : bool; queued : bool; refCount : Z; type : poll_type;
  fd : Z; idx : Z; readable : bool; writeable : bool; expiry : Z; delay : Z }.
#[export] Instance poll_entry_eta : Eta poll_entry := fun r =>
  PollEntry (callback r) (callbackData r) (permanent r) (queued r) (refCount r) (type r)
    (fd r) (idx r) (readable r) (writeable r) (expiry r) (delay r).
(** What the memory of a new entry holds does not matter. *)
Definition any_entry : poll_entry := PollEntry 0 0 false false 0 POLL_CB_NONE 0 0 false false 0 0.

(** [struct pollfd]: the descriptor, and whether it can be read and written. *)
Record pollfd : Type := PollFd { pf_fd : Z; pf_in : bool; pf_out : bool }.

(** What poll(2) gives: it was interrupted, it failed, or which descriptors can
    be read and written. *)
Inductive poll_outcome : Type := PollEintr | PollFailed | PollReady (rd wr : Z -> bool).

(** What a callback asks of the loop. *)
Inductive poll_cmd : Type :=
| CmdTime (delayUsec : Z) (permanent : bool) (callback callbackData : Z)
| CmdDevice (fd : Z) (readable writeable permanent : bool) (callback callbackData : Z)
| CmdTimeRemove (permanent : bool) (callback callbackData : Z)
| CmdDeviceRemove (fd : Z) (readable writeable permanent : bool) (callback callbackData : Z).

(** A callback: it asks, one thing after the other, and leaves the state of the
    program. *)
Inductive poll_prog (U : Type) : Type :=
| PDone (u : U)
| PPanic
| PCmd (c : poll_cmd) (k : bool -> poll_prog U).
Arguments PDone {U} u.
Arguments PPanic {U}.
Arguments PCmd {U} c k.

Definition poll_get_device_key (fd : Z) (read write permanent : bool) : list byte :=
  le_bytes 8 (Z.lor (wrap64 (Z.shiftl (wrap64 fd) 32)) (Z.b2z read * 2 ^ 8 + Z.b2z write * 2 ^ 4 + Z.b2z permanent)).

Section poll.
Context `{T : Table positive}.

(** The program around the loop: its state, its callbacks, and whether it is to
    end. *)
Context {U : Type} (call : Z -> Z -> U -> poll_prog U) (exiting : U -> bool).

(** [clock] and [ticks] are as in Peers.v; [outcomes] is what poll(2) is going to
    give, then nothing is ready; [sleeps] is how long it was told to wait, the last
    time first. [insertions] is the static counter of
    [poll_insert_time]. *)
Record poll_loop : Type := PollLoop {
  entries_heap : gmap positive poll_entry; list_time : list positive; list_device : list positive; list_free : list positive;
  hash : table; poll_max_fds : Z; poll_fds : list pollfd; insertions : Z;
  pl_clock : nat -> Z; pl_ticks : nat; outcomes : list poll_outcome; sleeps : list Z; user : U }.
#[export] Instance poll_loop_eta : Eta poll_loop := fun r =>
  PollLoop (entries_heap r) (list_time r) (list_device r) (list_free r) (hash r) (poll_max_fds r) (poll_fds r) (insertions r)
    (pl_clock r) (pl_ticks r) (outcomes r) (sleeps r) (user r).

Definition time_now : ST poll_loop Z := fun l => Ok (pl_clock l (pl_ticks l), l <| pl_ticks ::= S |>).
Definition entry_load (p : positive) : ST poll_loop poll_entry := fun l => e ← obj_load (entries_heap l) p; Ok (e, l).
Definition on_entry (p : positive) (f : poll_entry -> poll_entry) : ST poll_loop unit := fun l =>
  e ← obj_load (entries_heap l) p; Ok (tt, l <| entries_heap := <[p := f e]> (entries_heap l) |>).
Definition on_loop (f : poll_loop -> poll_loop) : ST poll_loop unit := fun l => Ok (tt, f l).

(** ** Entries *)

(** [circlist_delete_item]: the item must be on the list. *)
Definition without (p : positive) (l : list positive) : res (list positive) :=
  if bool_decide (p ∈ l) then Ok (filter (fun q => q <> p) l) else Fault UB.
Definition dequeue_time (p : positive) : ST poll_loop unit := fun l => q ← without p (list_time l); Ok (tt, l <| list_time := q |>).
Definition dequeue_device (p : positive) : ST poll_loop unit := fun l => q ← without p (list_device l); Ok (tt, l <| list_device := q |>).

Definition poll_get_device_key_from_entry (e : poll_entry) : res (list byte) :=
  _ ← ASSERT (bool_decide (type e = POLL_CB_DEVICE));
  Ok (poll_get_device_key (fd e) (readable e) (writeable e) (permanent e)).

Definition poll_entry_get : ST poll_loop positive := fun l =>
  match list_free l with
  | [] => let p := obj_new (entries_heap l) in Ok (p, l <| entries_heap ::= <[p := any_entry]> |>)
  | p :: free => Ok (p, l <| list_free := free |>)
  end.
Definition poll_entry_put (p : positive) : ST poll_loop unit :=
  _ ← on_entry p (fun e => e <| type := POLL_CB_NONE |>);
  on_loop (fun l => l <| list_free ::= fun q => q ++ [p] |>).
Definition poll_entry_ref (p : positive) : ST poll_loop unit :=
  e ← entry_load p;
  _ ← lift (ASSERT (0 <=? refCount e));
  on_entry p (fun e => e <| refCount ::= fun n => n + 1 |>).
(** [true]: it was the last reference, and the pointer of the caller is NULL. *)
Definition poll_entry_unref (p : positive) : ST poll_loop bool :=
  e ← entry_load p;
  _ ← lift (ASSERT (0 <? refCount e));
  _ ← on_entry p (fun e => e <| refCount ::= fun n => n - 1 |>);
  if 0 <? refCount e - 1 then mret false else _ ← poll_entry_put p; mret true.

Definition poll_entry_remove_from_hashtable (p : positive) : ST poll_loop unit := fun l =>
  e ← obj_load (entries_heap l) p;
  key ← poll_get_device_key_from_entry e;
  '(s, h) ← t_remove (hash l) key;
  _ ← ASSERT s;
  Ok (tt, l <| hash := h |>).

(** ** Timers *)

Fixpoint check_order_loop (ps : list positive) (last : Z) : ST poll_loop unit :=
  match ps with
  | [] => mret tt
  | p :: ps => e ← entry_load p; _ ← lift (ASSERT (last <=? expiry e)); check_order_loop ps (expiry e)
  end.
Definition poll_check_time_queue_order : ST poll_loop unit := fun l => check_order_loop (list_time l) 0 l.

(** [CIRCLIST_SCAN]: before the first entry that expires later. *)
Fixpoint insert_before (x : Z) (p : positive) (ps : list positive) : ST poll_loop (list positive) :=
  match ps with
  | [] => mret [p]
  | q :: ps => e ← entry_load q; if x <? expiry e then mret (p :: q :: ps) else ps ← insert_before x p ps; mret (q :: ps)
  end.
Definition poll_insert_time (p : positive) : ST poll_loop unit :=
  e ← entry_load p;
  _ ← lift (ASSERT (bool_decide (type e = POLL_CB_TIME)));
  _ ← lift (ASSERT (0 <? refCount e));
  _ ← on_entry p (fun e => e <| queued := true |>);
  ps ← (fun l => insert_before (expiry e) p (list_time l) l);
  _ ← on_loop (fun l => l <| list_time := ps |> <| insertions ::= fun n => n + 1 |>);
  n ← gets insertions;
  if Z.rem n 32 =? 0 then poll_check_time_queue_order else mret tt.

Definition poll_recalc_expiry (p : positive) : ST poll_loop unit :=
  now ← time_now;
  on_entry p (fun e => e <| expiry := wrap64 (now + delay e) |>).
Definition poll_get_next_expiry : ST poll_loop Z := fun l =>
  match list_time l with [] => Ok (0, l) | p :: _ => e ← obj_load (entries_heap l) p; Ok (expiry e, l) end.
Definition poll_get_next_expired (now : Z) : ST poll_loop (option positive) := fun l =>
  match list_time l with
  | [] => Ok (None, l)
  | p :: _ =>
      e ← obj_load (entries_heap l) p;
      if expiry e <=? now then Ok (Some p, l) else _ ← ASSERT (now <? expiry e); Ok (None, l)
  end.

(** ** Registering and removing *)

(** The result of a removal is whether there was one. *)
Definition poll_callback_time (delayUsec : Z) (perm : bool) (cb cbData : Z) : ST poll_loop unit :=
  _ ← lift (ASSERT (negb (cb =? 0)));
  p ← poll_entry_get;
  _ ← on_entry p (fun e => e <| type := POLL_CB_TIME |> <| callback := cb |> <| callbackData := cbData |>
        <| permanent := perm |> <| refCount := 0 |> <| delay := delayUsec |>);
  _ ← poll_entry_ref p;
  _ ← poll_recalc_expiry p;
  poll_insert_time p.

Definition poll_insert_device (p : positive) : ST poll_loop unit :=
  e ← entry_load p;
  key ← lift (poll_get_device_key_from_entry e);
  s ← (fun l => '(s, h) ← t_insert (hash l) key p; Ok (s, l <| hash := h |>));
  _ ← lift (ASSERT s);
  _ ← on_loop (fun l => l <| list_device ::= fun q => q ++ [p] |>);
  on_entry p (fun e => e <| queued := true |>).
Definition poll_callback_device (fd' : Z) (rd wr perm : bool) (cb cbData : Z) : ST poll_loop unit :=
  _ ← lift (ASSERT (negb (cb =? 0)));
  p ← poll_entry_get;
  _ ← on_entry p (fun e => e <| type := POLL_CB_DEVICE |> <| callback := cb |> <| callbackData := cbData |>
        <| permanent := perm |> <| refCount := 0 |> <| fd := fd' |> <| idx := -1 |> <| readable := rd |> <| writeable := wr |>);
  _ ← poll_entry_ref p;
  poll_insert_device p.

Definition is_timer (perm : bool) (cb cbData : Z) (e : poll_entry) : bool :=
  (callback e =? cb) && (callbackData e =? cbData) && eqb (permanent e) perm.
Fixpoint time_remove_loop (perm : bool) (cb cbData : Z) (ps : list positive) : ST poll_loop bool :=
  match ps with
  | [] => mret false
  | p :: ps =>
      e ← entry_load p;
      if is_timer perm cb cbData e then
        _ ← on_entry p (fun e => e <| queued := false |>);
        _ ← dequeue_time p;
        _ ← poll_entry_unref p;
        mret true
      else time_remove_loop perm cb cbData ps
  end.
Definition poll_callback_time_remove (perm : bool) (cb cbData : Z) : ST poll_loop bool := fun l =>
  time_remove_loop perm cb cbData (list_time l) l.

Definition poll_callback_device_remove (fd' : Z) (rd wr perm : bool) (cb cbData : Z) : ST poll_loop bool :=
  o ← (fun l => o ← t_lookup (hash l) (poll_get_device_key fd' rd wr perm); Ok (o, l));
  match o with
  | None => mret false
  | Some p =>
      e ← entry_load p;
      _ ← lift (ASSERT (bool_decide (type e = POLL_CB_DEVICE)));
      _ ← lift (ASSERT (fd e =? fd'));
      _ ← lift (ASSERT (callback e =? cb));
      _ ← lift (ASSERT (callbackData e =? cbData));
      _ ← lift (ASSERT (eqb (permanent e) perm && eqb (readable e) rd && eqb (writeable e) wr));
      _ ← lift (ASSERT (queued e));
      _ ← on_entry p (fun e => e <| queued := false |>);
      _ ← poll_entry_remove_from_hashtable p;
      _ ← dequeue_device p;
      _ ← poll_entry_unref p;
      mret true
  end.

(** ** Callbacks *)

Definition run_cmd (c : poll_cmd) : ST poll_loop bool :=
  match c with
  | CmdTime delayUsec perm cb cbData => _ ← poll_callback_time delayUsec perm cb cbData; mret false
  | CmdDevice fd rd wr perm cb cbData => _ ← poll_callback_device fd rd wr perm cb cbData; mret false
  | CmdTimeRemove perm cb cbData => poll_callback_time_remove perm cb cbData
  | CmdDeviceRemove fd rd wr perm cb cbData => poll_callback_device_remove fd rd wr perm cb cbData
  end.
Fixpoint run_prog (pr : poll_prog U) : ST poll_loop unit :=
  match pr with
  | PDone u => on_loop (fun l => l <| user := u |>)
  | PPanic => lift (Fault Panic)
  | PCmd c k => b ← run_cmd c; run_prog (k b)
  end.

Definition poll_entry_fire (p : positive) : ST poll_loop unit :=
  e ← entry_load p;
  _ ← lift (ASSERT (negb (callback e =? 0)));
  _ ← lift (ASSERT (queued e));
  _ ← lift (ASSERT (0 <? refCount e));
  u ← gets user;
  run_prog (call (callback e) (callbackData e) u).

(** The body of the loop of [poll_run_time_queue]. *)
Definition run_time_entry (p : positive) : ST poll_loop unit :=
  _ ← poll_entry_ref p;
  _ ← dequeue_time p;
  _ ← poll_entry_fire p;
  gone ← poll_entry_unref p;
  if gone : bool then lift (Fault UB) else
  e ← entry_load p;
  _ ← lift (ASSERT (0 <? refCount e));
  if negb (permanent e) then
    gone ← poll_entry_unref p;
    lift (ASSERT gone)
  else
    _ ← poll_recalc_expiry p;
    poll_insert_time p.
(** [false]: the fuel is not enough. *)
Fixpoint run_time_loop (fuel : nat) (now : Z) : ST poll_loop bool :=
  match fuel with
  | O => mret false
  | S fuel =>
      o ← poll_get_next_expired now;
      match o with
      | None => mret true
      | Some p => _ ← run_time_entry p; run_time_loop fuel now
      end
  end.
Definition poll_run_time_queue (fuel : nat) : ST poll_loop bool := now ← time_now; run_time_loop fuel now.

(** ** Descriptors *)

(** The array given to poll(2), from the index [n] on. *)
Fixpoint fill_fds (ps : list positive) (n : Z) : ST poll_loop (list pollfd) :=
  match ps with
  | [] => mret []
  | p :: ps =>
      e ← entry_load p;
      _ ← lift (ASSERT (0 <=? fd e));
      l ← gets poll_max_fds;
      _ ← lift (ASSERT (n <? l));
      _ ← on_entry p (fun e => e <| idx := n |>);
      r ← fill_fds ps (n + 1);
      mret (PollFd (fd e) (readable e) (writeable e) :: r)
  end.
Definition poll_timeout (deadline now : Z) : Z :=
  if deadline =? 0 then 1000 else if deadline <=? now then 0 else sint32 ((deadline - now) / 1000).
(** poll(2), again when it was interrupted; what can be answered is what was
    asked for. *)
Fixpoint poll_sys (deadline : Z) (fds : list pollfd) (os : list poll_outcome) : ST poll_loop (list pollfd) :=
  now ← time_now;
  _ ← on_loop (fun l => l <| sleeps ::= cons (poll_timeout deadline now) |> <| outcomes := tail os |>);
  match os with
  | [] => mret (map (fun f => PollFd (pf_fd f) false false) fds)
  | PollEintr :: os => poll_sys deadline fds os
  | PollFailed :: _ => lift (Fault Panic)
  | PollReady rd wr :: _ => mret (map (fun f => PollFd (pf_fd f) (pf_in f && rd (pf_fd f)) (pf_out f && wr (pf_fd f))) fds)
  end.
Definition poll_device_poll (deadline : Z) : ST poll_loop unit :=
  fds ← (fun l => fill_fds (list_device l) 0 l);
  fds ← (fun l => poll_sys deadline fds (outcomes l) l);
  on_loop (fun l => l <| poll_fds := fds |>).

Definition poll_entry_active (e : poll_entry) : ST poll_loop bool := fun l =>
  _ ← ASSERT (wrap64 (idx e) <? poll_max_fds l);
  match (if idx e <? 0 then None else poll_fds l !! Z.to_nat (idx e)) with
  | None => Fault UB
  | Some f => _ ← ASSERT (pf_fd f =? fd e); Ok ((readable e && pf_in f) || (writeable e && pf_out f), l)
  end.

(** The entries to fire, with a reference on each. *)
Fixpoint active_entries (ps : list positive) : ST poll_loop (list positive) :=
  match ps with
  | [] => mret []
  | p :: ps =>
      e ← entry_load p;
      _ ← lift (ASSERT (bool_decide (type e = POLL_CB_DEVICE)));
      a ← poll_entry_active e;
      if a : bool then _ ← poll_entry_ref p; r ← active_entries ps; mret (p :: r) else active_entries ps
  end.
Fixpoint fire_entries (queue : list positive) : ST poll_loop unit :=
  match queue with
  | [] => mret tt
  | p :: queue =>
      e ← entry_load p;
      _ ← (if queued e then
             _ ← (if negb (permanent e) then
                    _ ← poll_entry_remove_from_hashtable p;
                    _ ← dequeue_device p;
                    gone ← poll_entry_unref p;
                    lift (ASSERT (negb gone))
                  else mret tt);
             poll_entry_fire p
           else mret tt);
      _ ← poll_entry_unref p;
      fire_entries queue
  end.
Definition poll_run_device_queue : ST poll_loop unit :=
  queue ← (fun l => active_entries (list_device l) l);
  fire_entries queue.

(** ** The loop *)

(** [rounds] bounds the rounds; [false] when one of the bounds was not enough. *)
Fixpoint poll_runloop (fuel rounds : nat) : ST poll_loop bool :=
  match rounds with
  | O => mret false
  | S rounds =>
      ok ← poll_run_time_queue fuel;
      if negb ok then mret false else
      u ← gets user;
      if exiting u then mret true else
      deadline ← poll_get_next_expiry;
      _ ← poll_device_poll deadline;
      u ← gets user;
      if exiting u then mret true else
      _ ← poll_run_device_queue;
      u ← gets user;
      if exiting u then mret true else poll_runloop fuel rounds
  end.

(** ** Creating and destroying *)

(** [max_fds] is the limit of the system; [clock] and [os] are what it answers. *)
Definition poll_create (max_fds : Z) (clock : nat -> Z) (os : list poll_outcome) (u : U) : res poll_loop :=
  h ← t_create;
  Ok (PollLoop ∅ [] [] [] h max_fds [] 0 clock O os [] u).
Definition poll_destroy (l : poll_loop) : res unit :=
  _ ← ASSERT (bool_decide (list_device l = []));
  ASSERT (bool_decide (list_time l = [])).
End poll.
