(* ===== verification/PollInv.v ===== *)
(** * The event loop keeps its entries (lib/poll/poll.c)

    Every entry has as many references as there are lists and running queues it
    is on; what is on a list is never on the list of free entries, and the timers
    are in order. Whatever the callbacks do, the loop never follows the pointer of
    an entry that is gone. *)
From Stdlib Require Import Sorting.Sorted.
From S2P Require Export Poll.

Section inv.
Context `{T : Table positive} {U : Type}.
Implicit Types l : poll_loop (U := U).
Implicit Types held : list positive.

Definition key_of (e : poll_entry) : list byte := poll_get_device_key (fd e) (readable e) (writeable e) (permanent e).
Definition times (p : positive) held : Z := Zlen (filter (fun q => q = p) held).
Definition listed l : list positive := list_time l ++ list_device l.
(** The list it is on, and the references that are [held]. *)
Definition refs held l (p : positive) : Z := Z.b2z (bool_decide (p ∈ listed l)) + times p held.
Definition expiry_of (h : gmap positive poll_entry) (p : positive) : Z := from_option expiry 0 (h !! p).
Definition in_order (h : gmap positive poll_entry) (ps : list positive) : Prop :=
  StronglySorted (fun p q => expiry_of h p <= expiry_of h q) ps.

(** Descriptors are small: the table never has too many of them. *)
Definition FD_LIMIT : Z := 2 ^ 20.

(** [cur] are the entries on their way from a list to its callback. *)
Record loop_ok (cur : list positive) held l : Prop := {
  lk_nodup : NoDup (list_time l) /\ NoDup (list_device l) /\ NoDup (list_free l);
  lk_apart : forall p, (p ∈ list_time l -> p ∉ list_device l /\ p ∉ list_free l) /\ (p ∈ list_device l -> p ∉ list_free l);
  lk_heap : forall p, p ∈ listed l ++ list_free l ++ held -> is_Some (entries_heap l !! p);
  lk_held : forall p, p ∈ held -> p ∉ list_free l;
  lk_time : forall p e, p ∈ list_time l -> entries_heap l !! p = Some e -> type e = POLL_CB_TIME;
  lk_dev : forall p e, p ∈ list_device l -> entries_heap l !! p = Some e -> type e = POLL_CB_DEVICE /\ 0 <= fd e < FD_LIMIT;
  lk_refs : forall p e, p ∈ listed l ++ held -> entries_heap l !! p = Some e -> refCount e = refs held l p;
  lk_hash : exists m, tbl_ok (hash l) m /\
    forall k p, m !! k = Some p <-> p ∈ list_device l /\ exists e, entries_heap l !! p = Some e /\ key_of e = k;
  lk_queued : forall p e, p ∈ held -> entries_heap l !! p = Some e -> type e = POLL_CB_DEVICE -> queued e = true ->
    p ∈ list_device l \/ p ∈ cur;
  lk_order : in_order (entries_heap l) (list_time l) }.

Lemma time_in p l (ps : list positive) : p ∈ list_time l -> p ∈ listed l ++ ps.
Proof. intros Hp. unfold listed. rewrite !elem_of_app. by left; left. Qed.
Lemma device_in p l (ps : list positive) : p ∈ list_device l -> p ∈ listed l ++ ps.
Proof. intros Hp. unfold listed. rewrite !elem_of_app. by left; right. Qed.
Lemma held_in p l (ps qs : list positive) : p ∈ qs -> p ∈ listed l ++ ps ++ qs.
Proof. intros Hp. rewrite !elem_of_app. by right; right. Qed.

Definition put_entry (p : positive) (e : poll_entry) l := l <| entries_heap := <[p := e]> (entries_heap l) |>.

Lemma times_cons p q held : times p (q :: held) = Z.b2z (bool_decide (q = p)) + times p held.
Proof. unfold times. rewrite filter_cons. destruct (decide (q = p)) as [E|E]; [rewrite bool_decide_eq_true_2 by done; zlen; cbn [Z.b2z]; lia|by rewrite bool_decide_eq_false_2]. Qed.
Lemma times_nonneg p held : 0 <= times p held.
Proof. apply Zlen_nonneg. Qed.
Lemma times_in p held : p ∈ held <-> 0 < times p held.
Proof.
  induction held as [|q held IH]; [split; [by intros ?%elem_of_nil|change (times p []) with 0; lia]|]. rewrite times_cons, elem_of_cons, IH.
  pose proof (times_nonneg p held). split.
  - intros [->|]; [rewrite bool_decide_eq_true_2 by done; cbn; lia|]. destruct (bool_decide _); cbn; lia.
  - destruct (bool_decide (q = p)) eqn:E; [|cbn; lia]. apply bool_decide_eq_true in E. by left.
Qed.

Lemma in_order_ext h h' ps : (forall p, p ∈ ps -> expiry_of h' p = expiry_of h p) -> in_order h ps -> in_order h' ps.
Proof.
  intros Hx Hs. induction Hs as [|p ps Hs IH Hf]; constructor.
  - apply IH. intros q Hq. apply Hx. by right.
  - apply Forall_forall. intros q Hq. rewrite !Hx by (left || by right). by apply (proj1 (Forall_forall _ _) Hf).
Qed.

(** ** Changing one entry *)

Lemma entry_ok c held held' l p e e' : loop_ok c held l -> entries_heap l !! p = Some e ->
  (p ∈ list_time l -> type e' = type e /\ expiry e' = expiry e) ->
  (p ∈ list_device l -> type e' = type e /\ fd e' = fd e /\ key_of e' = key_of e) ->
  (p ∈ listed l ++ held' -> refCount e' = refs held' l p) ->
  (forall q, q <> p -> times q held' = times q held) ->
  (p ∈ held' -> p ∉ list_free l) ->
  (p ∈ held' -> type e' = POLL_CB_DEVICE -> queued e' = true -> p ∈ list_device l \/ p ∈ c) ->
  loop_ok c held' (put_entry p e' l).
Proof.
  intros [Hn Ha Hh Hf Ht Hd Hr Hm Hq Ho] Ep Et Ed Er Eh Ef Eq.
  assert (Hin : forall q, q <> p -> q ∈ held' <-> q ∈ held) by (intros q Hne; rewrite !times_in; by rewrite Eh).
  assert (Hl : forall q e0, <[p := e']> (entries_heap l) !! q = Some e0 -> (q = p /\ e0 = e') \/ (q <> p /\ entries_heap l !! q = Some e0)).
  { intros q e0 [[<- <-]|[Hne E]]%lookup_insert_Some; [by left|right; by split]. }
  unfold refs, listed in *. split; unfold refs, listed in *; cbn [put_entry set list_time list_device list_free entries_heap hash] in *.
  - done.
  - done.
  - intros q Hq'. destruct (decide (q = p)) as [->|Hne]; [rewrite lookup_insert_eq; by eexists|]. rewrite lookup_insert_ne by done.
    apply Hh. rewrite !elem_of_app in *. specialize (Hin q Hne). tauto.
  - intros q Hq'. destruct (decide (q = p)) as [->|Hne]; [by apply Ef|]. apply Hf. by apply Hin.
  - intros q e0 Hq' [[-> ->]|[Hne E]]%Hl; [|by apply (Ht q e0)]. destruct (Et Hq') as [-> _]. by apply (Ht p e).
  - intros q e0 Hq' [[-> ->]|[Hne E]]%Hl; [|by apply (Hd q e0)]. destruct (Ed Hq') as (-> & -> & _). by apply (Hd p e).
  - intros q e0 Hq' [[-> ->]|[Hne E]]%Hl; [by apply Er|]. rewrite (Hr q e0); [by rewrite Eh| |done].
    rewrite !elem_of_app in *. specialize (Hin q Hne). tauto.
  - destruct Hm as (m & Hm & Hk). exists m. split; [done|]. intros k q. rewrite Hk. split; intros (Hq' & e0 & E & Ek); (split; [done|]).
    + destruct (decide (q = p)) as [->|Hne]; [exists e'; rewrite lookup_insert_eq; split; [done|]|exists e0; by rewrite lookup_insert_ne].
      destruct (Ed Hq') as (_ & _ & ->). congruence.
    + apply Hl in E as [[-> ->]|[Hne E]]; [exists e; split; [done|]|by exists e0]. destruct (Ed Hq') as (_ & _ & <-). done.
  - intros q e0 Hq' [[-> ->]|[Hne E]]%Hl; [by apply Eq|]. apply (Hq q e0); [by apply Hin|done].
  - apply (in_order_ext (entries_heap l)); [|done]. intros q Hq'. unfold expiry_of. destruct (decide (q = p)) as [->|Hne].
    + rewrite lookup_insert_eq, Ep. cbn. by apply Et.
    + by rewrite lookup_insert_ne.
Qed.

(** ** Moving an entry *)

Lemma elem_of_others p q (ps : list positive) : q ∈ filter (fun x => x <> p) ps <-> q ∈ ps /\ q <> p.
Proof. rewrite list_elem_of_filter. tauto. Qed.
Lemma without_ok p (ps : list positive) : p ∈ ps -> without p ps = Ok (filter (fun q => q <> p) ps).
Proof. intros Hp. unfold without. by rewrite bool_decide_eq_true_2. Qed.
Lemma in_order_filter h p (ps : list positive) : in_order h ps -> in_order h (filter (fun q => q <> p) ps).
Proof.
  intros Hs. induction Hs as [|q ps Hs IH Hf]; [constructor|]. rewrite filter_cons. destruct (decide _); [|done]. constructor; [done|].
  apply Forall_forall. intros x [Hx _]%elem_of_others. by apply (proj1 (Forall_forall _ _) Hf).
Qed.

(** Its reference is held instead. *)
Lemma drop_time c held l p : loop_ok c held l -> p ∈ list_time l ->
  loop_ok c (p :: held) (l <| list_time := filter (fun q => q <> p) (list_time l) |>).
Proof.
  intros [(Hn1 & Hn2 & Hn3) Ha Hh Hf Ht Hd Hr Hm Hq Ho] Hp. unfold refs, listed in *.
  assert (Hnd : p ∉ list_device l /\ p ∉ list_free l) by by apply Ha.
  split; unfold refs, listed; cbn [set list_time list_device list_free entries_heap hash].
  - split; [by apply NoDup_filter|done].
  - intros q. specialize (Ha q). rewrite elem_of_others. tauto.
  - intros q Hq'. apply Hh. rewrite !elem_of_app, elem_of_cons in *. rewrite elem_of_others in Hq'. destruct Hq' as [[?|?]|[?|[->|?]]]; tauto.
  - intros q [->|Hq']%elem_of_cons; [tauto|by apply Hf].
  - intros q e [Hq' _]%elem_of_others. by apply Ht.
  - done.
  - intros q e Hq' E. rewrite times_cons. rewrite (Hr q e); [|rewrite !elem_of_app, elem_of_cons, elem_of_others in *; destruct Hq' as [[?|?]|[->|?]]; tauto|done].
    destruct (decide (q = p)) as [->|Hne].
    + rewrite (bool_decide_eq_true_2 (p = p)), (bool_decide_eq_true_2 (p ∈ list_time l ++ list_device l)), (bool_decide_eq_false_2 (p ∈ filter _ _ ++ _)); [cbn; lia|..|done].
      * rewrite elem_of_app, elem_of_others. tauto.
      * rewrite elem_of_app. tauto.
    + rewrite (bool_decide_eq_false_2 (p = q)) by done. cbn [Z.b2z].
      rewrite (bool_decide_ext (q ∈ filter _ _ ++ _) (q ∈ list_time l ++ list_device l)); [lia|]. rewrite !elem_of_app, elem_of_others. tauto.
  - done.
  - intros q e [->|Hq']%elem_of_cons E Hty; [|by apply (Hq q e)]. by rewrite (Ht p e Hp E) in Hty.
  - by apply in_order_filter.
Qed.

Lemma refs_dropped (p q : positive) (ls ls' : list positive) held n : (forall x, x ∈ ls' <-> x ∈ ls /\ x <> p) -> p ∈ ls ->
  n = Z.b2z (bool_decide (q ∈ ls)) + times q held -> n = Z.b2z (bool_decide (q ∈ ls')) + times q (p :: held).
Proof.
  intros Hls Hp ->. rewrite times_cons. destruct (decide (q = p)) as [->|Hne].
  - rewrite (bool_decide_eq_true_2 (p = p)), (bool_decide_eq_true_2 (p ∈ ls)), (bool_decide_eq_false_2 (p ∈ ls')); [cbn; lia|..|done]; [|done].
    rewrite Hls. tauto.
  - rewrite (bool_decide_eq_false_2 (p = q)) by done. cbn [Z.b2z]. rewrite (bool_decide_ext (q ∈ ls') (q ∈ ls)); [lia|]. rewrite Hls. tauto.
Qed.

(** It was taken out of the table. *)
Lemma drop_device c held l p e h : loop_ok c held l -> p ∈ list_device l -> entries_heap l !! p = Some e -> queued e = false \/ p ∈ c ->
  (forall m, tbl_ok (hash l) m -> tbl_ok h (delete (key_of e) m)) ->
  loop_ok c (p :: held) (l <| hash := h |> <| list_device := filter (fun q => q <> p) (list_device l) |>).
Proof.
  intros [(Hn1 & Hn2 & Hn3) Ha Hh Hf Ht Hd Hr Hm Hq Ho] Hp Ep Hqe Hdel. unfold refs, listed in *.
  assert (Hnd : p ∉ list_time l /\ p ∉ list_free l) by (pose proof (Ha p); tauto).
  split; unfold refs, listed; cbn [set list_time list_device list_free entries_heap hash].
  - split; [done|]. split; [by apply NoDup_filter|done].
  - intros q. specialize (Ha q). rewrite elem_of_others. tauto.
  - intros q Hq'. apply Hh. rewrite !elem_of_app, elem_of_cons in *. rewrite elem_of_others in Hq'. destruct Hq' as [[?|?]|[?|[->|?]]]; tauto.
  - intros q [->|Hq']%elem_of_cons; [tauto|by apply Hf].
  - done.
  - intros q e0 [Hq' _]%elem_of_others. by apply Hd.
  - intros q e0 Hq' E. eapply (refs_dropped p q (list_time l ++ list_device l)).
    + intros x. rewrite !elem_of_app, elem_of_others. destruct (decide (x = p)) as [->|]; tauto.
    + rewrite elem_of_app. tauto.
    + apply Hr; [|done]. rewrite !elem_of_app, elem_of_cons, elem_of_others in *. destruct Hq' as [[?|?]|[->|?]]; tauto.
  - destruct Hm as (m & Hm & Hk). exists (delete (key_of e) m). split; [by apply Hdel|]. intros k q. rewrite lookup_delete_Some, Hk, elem_of_others. split.
    + intros (Hne & Hq' & e0 & E0 & Ek). split; [|by exists e0]. split; [done|]. intros ->. apply Hne. congruence.
    + intros ((Hq' & Hne) & e0 & E0 & Ek). split; [|split; [done|by exists e0]]. intros Ekk.
      assert (E1 : m !! k = Some q) by (apply Hk; split; [done|by exists e0]).
      assert (E2 : m !! k = Some p) by (apply Hk; split; [done|by exists e]). congruence.
  - intros q e0 [->|Hq']%elem_of_cons E Hty Hqu.
    + right. destruct Hqe as [Hqe|Hqe]; [congruence|done].
    + destruct (decide (q = p)) as [->|Hne]; [right; destruct Hqe as [Hqe|Hqe]; [congruence|done]|].
      rewrite elem_of_others. destruct (Hq q e0 Hq' E Hty Hqu); tauto.
  - done.
Qed.

(** What was held is on a list. *)
Lemma refs_added (p q : positive) (ls ls' : list positive) held n : (forall x, x ∈ ls' <-> x ∈ ls \/ x = p) -> p ∉ ls ->
  n = Z.b2z (bool_decide (q ∈ ls)) + times q (p :: held) -> n = Z.b2z (bool_decide (q ∈ ls')) + times q held.
Proof.
  intros Hls Hp ->. rewrite times_cons. destruct (decide (q = p)) as [->|Hne].
  - rewrite (bool_decide_eq_true_2 (p = p)), (bool_decide_eq_false_2 (p ∈ ls)), (bool_decide_eq_true_2 (p ∈ ls')); [cbn; lia|..|done]; [|done].
    rewrite Hls. tauto.
  - rewrite (bool_decide_eq_false_2 (p = q)) by done. cbn [Z.b2z]. rewrite (bool_decide_ext (q ∈ ls') (q ∈ ls)); [lia|]. rewrite Hls. tauto.
Qed.

Lemma add_time c held l p e (ps : list positive) : loop_ok c (p :: held) l -> p ∉ listed l -> entries_heap l !! p = Some e -> type e = POLL_CB_TIME ->
  ps ≡ₚ p :: list_time l -> in_order (entries_heap l) ps -> loop_ok c held (l <| list_time := ps |>).
Proof.
  intros [(Hn1 & Hn2 & Hn3) Ha Hh Hf Ht Hd Hr Hm Hq Ho] Hp Ep Ety Hps Hor. unfold refs, listed in *. rewrite elem_of_app in Hp.
  assert (Hin : forall q, q ∈ ps <-> q = p \/ q ∈ list_time l) by (intros q; by rewrite Hps, elem_of_cons).
  assert (Hpf : p ∉ list_free l) by (apply Hf; left).
  split; unfold refs, listed; cbn [set list_time list_device list_free entries_heap hash].
  - split; [rewrite Hps; apply NoDup_cons; split; [tauto|done]|done].
  - intros q. specialize (Ha q). rewrite Hin. split; [|tauto]. intros [->|?]; [split; [tauto|done]|tauto].
  - intros q Hq'. apply Hh. rewrite !elem_of_app, elem_of_cons in *. rewrite Hin in Hq'. tauto.
  - intros q Hq'. apply Hf. by right.
  - intros q e0 [->|Hq']%Hin E; [congruence|by apply (Ht q e0)].
  - done.
  - intros q e0 Hq' E. eapply (refs_added p q (list_time l ++ list_device l)).
    + intros x. rewrite !elem_of_app, Hin. tauto.
    + rewrite elem_of_app. tauto.
    + apply Hr; [|done]. rewrite !elem_of_app, elem_of_cons in *. rewrite Hin in Hq'. tauto.
  - done.
  - intros q e0 Hq' E Hty Hqu. apply (Hq q e0); [by right|done..].
  - done.
Qed.

Lemma add_device c held l p e h : loop_ok c (p :: held) l -> p ∉ listed l -> entries_heap l !! p = Some e -> type e = POLL_CB_DEVICE ->
  0 <= fd e < FD_LIMIT ->
  (forall m, tbl_ok (hash l) m -> m !! key_of e = None /\ tbl_ok h (<[key_of e := p]> m)) ->
  loop_ok c held (l <| hash := h |> <| list_device := list_device l ++ [p] |>).
Proof.
  intros [(Hn1 & Hn2 & Hn3) Ha Hh Hf Ht Hd Hr Hm Hq Ho] Hp Ep Ety Hfd Hins. unfold refs, listed in *. rewrite elem_of_app in Hp.
  assert (Hin : forall q, q ∈ list_device l ++ [p] <-> q = p \/ q ∈ list_device l) by (intros q; rewrite elem_of_app, list_elem_of_singleton; tauto).
  assert (Hpf : p ∉ list_free l) by (apply Hf; left).
  split; unfold refs, listed; cbn [set list_time list_device list_free entries_heap hash].
  - split; [done|]. split; [|done]. rewrite Permutation_app_comm. apply NoDup_cons. split; [tauto|done].
  - intros q. specialize (Ha q). rewrite Hin. split; [|intros [->|?]; [done|tauto]]. intros Hq'. split; [|tauto]. intros [->|?]; tauto.
  - intros q Hq'. apply Hh. rewrite !elem_of_app, !elem_of_cons, ?elem_of_nil in *. tauto.
  - intros q Hq'. apply Hf. by right.
  - done.
  - intros q e0 [->|Hq']%Hin E; [split; congruence|by apply (Hd q e0)].
  - intros q e0 Hq' E. eapply (refs_added p q (list_time l ++ list_device l)).
    + intros x. rewrite !elem_of_app, list_elem_of_singleton. tauto.
    + rewrite elem_of_app. tauto.
    + apply Hr; [|done]. rewrite !elem_of_app, !elem_of_cons, ?elem_of_nil in *. tauto.
  - destruct Hm as (m & Hm & Hk). destruct (Hins m Hm) as [Hno Hok]. exists (<[key_of e := p]> m). split; [done|].
    intros k q. rewrite lookup_insert_Some, Hk, Hin. split.
    + intros [[<- <-]|(Hne & Hq' & e0 & E0 & Ek)]; [split; [by left|by exists e]|split; [by right|by exists e0]].
    + intros ([->|Hq'] & e0 & E0 & Ek); [left; split; [congruence|done]|]. right. split; [|split; [done|by exists e0]].
      intros Ekk. assert (Hx : m !! key_of e = Some q) by (apply Hk; split; [done|exists e0; by rewrite Ekk]). congruence.
  - intros q e0 Hq' E Hty Hqu. rewrite Hin. destruct (Hq q e0 (list_elem_of_further _ _ _ Hq') E Hty Hqu); tauto.
  - done.
Qed.

(** What is on no list is free. *)
Lemma add_free c held l p : loop_ok c held l -> p ∉ listed l -> p ∉ held -> p ∉ list_free l -> is_Some (entries_heap l !! p) ->
  loop_ok c held (l <| list_free := list_free l ++ [p] |>).
Proof.
  intros [(Hn1 & Hn2 & Hn3) Ha Hh Hf Ht Hd Hr Hm Hq Ho] Hp Hph Hpf Hx. unfold refs, listed in *. rewrite elem_of_app in Hp.
  split; unfold refs, listed; cbn [set list_time list_device list_free entries_heap hash]; try done.
  - split; [done|]. split; [done|]. rewrite Permutation_app_comm. apply NoDup_cons. done.
  - intros q. specialize (Ha q). rewrite elem_of_app, list_elem_of_singleton. destruct (decide (q = p)) as [->|]; tauto.
  - intros q Hq'. rewrite !elem_of_app, list_elem_of_singleton in Hq'. destruct (decide (q = p)) as [->|]; [done|]. apply Hh. rewrite !elem_of_app. tauto.
  - intros q Hq'. rewrite elem_of_app, list_elem_of_singleton. intros [?| ->]; [by apply (Hf q)|done].
Qed.

Lemma more_cur c p held l : loop_ok c held l -> loop_ok (p :: c) held l.
Proof.
  intros []. split; try done. intros q e Hq E Hty Hqu. destruct (lk_queued0 q e Hq E Hty Hqu); [by left|right; by right].
Qed.
Lemma less_cur c p held l : loop_ok (p :: c) held l ->
  (forall e, p ∈ held -> entries_heap l !! p = Some e -> type e = POLL_CB_DEVICE -> queued e = true -> p ∈ list_device l \/ p ∈ c) -> loop_ok c held l.
Proof.
  intros [] Hp. split; try done. intros q e Hq E Hty Hqu. destruct (lk_queued0 q e Hq E Hty Hqu) as [?|[->|?]%elem_of_cons]; [by left| |by right].
  by apply (Hp e).
Qed.

(** ** The code is safe: it does what is said, or stops on an assertion *)

Definition safe {A} (m : ST (poll_loop (U := U)) A) l (Q : A -> poll_loop (U := U) -> Prop) : Prop :=
  match m l with Ok (a, l') => Q a l' | Fault Panic => True | Fault UB => False end.

Lemma safe_mret {A} (a : A) l (Q : A -> poll_loop -> Prop) : Q a l -> safe (mret a) l Q.
Proof. done. Qed.
Lemma safe_then {A B} (m : ST poll_loop A) (k : A -> ST poll_loop B) l Q :
  safe m l (fun a l' => safe (k a) l' Q) -> safe (m ≫= k) l Q.
Proof. unfold safe, mbind, st_bind. by destruct (m l) as [[a l']|[]]. Qed.
Lemma safe_conseq {A} (m : ST poll_loop A) l (Q Q' : A -> poll_loop -> Prop) : safe m l Q -> (forall a l', Q a l' -> Q' a l') -> safe m l Q'.
Proof. unfold safe. intros Hm HQ. destruct (m l) as [[a l']|[]]; [by apply HQ|done|done]. Qed.
Lemma safe_assert {A} b (k : ST poll_loop A) l Q : (b = true -> safe k l Q) -> safe (_ ← lift (ASSERT b); k) l Q.
Proof. intros Hk. apply safe_then. unfold safe, lift, ASSERT. destruct b; [by apply Hk|done]. Qed.
Lemma safe_load {A} p e (k : poll_entry -> ST poll_loop A) l Q : entries_heap l !! p = Some e -> safe (k e) l Q -> safe (entry_load p ≫= k) l Q.
Proof. intros Ep Hk. apply safe_then. unfold safe, entry_load. by rewrite (obj_load_ok _ _ _ Ep). Qed.
Lemma safe_on_entry {A} p e f (k : ST poll_loop A) l Q : entries_heap l !! p = Some e -> safe k (put_entry p (f e) l) Q ->
  safe (_ ← on_entry p f; k) l Q.
Proof. intros Ep Hk. apply safe_then. unfold safe, on_entry. by rewrite (obj_load_ok _ _ _ Ep). Qed.

Lemma put_entry_lookup p e l : entries_heap (put_entry p e l) !! p = Some e.
Proof. apply lookup_insert_eq. Qed.
Lemma loop_entry c held l p : loop_ok c held l -> p ∈ listed l ++ list_free l ++ held -> exists e, entries_heap l !! p = Some e.
Proof. intros [] Hp. by apply lk_heap0. Qed.

(** *** References *)

Lemma ref_ok c held l p e : loop_ok c held l -> entries_heap l !! p = Some e -> p ∉ list_free l -> refCount e = refs held l p ->
  (type e = POLL_CB_DEVICE -> queued e = true -> p ∈ list_device l \/ p ∈ c) ->
  safe (poll_entry_ref p) l (fun _ l' => l' = put_entry p (e <| refCount := refCount e + 1 |>) l /\ loop_ok c (p :: held) l').
Proof.
  intros Hok Ep Hf Er Hq. unfold poll_entry_ref. eapply safe_load; [done|]. apply safe_assert. intros _.
  unfold safe, on_entry. rewrite (obj_load_ok _ _ _ Ep). split; [done|].
  apply (entry_ok c held (p :: held) l p e); try done.
  - intros _. cbn. rewrite Er. unfold refs. rewrite times_cons, (bool_decide_eq_true_2 (p = p)) by done. cbn. lia.
  - intros q Hne. rewrite times_cons, bool_decide_eq_false_2 by done. done.
Qed.

Lemma unref_ok c held l p e : loop_ok c (p :: held) l -> entries_heap l !! p = Some e ->
  safe (poll_entry_unref p) l (fun gone l' => loop_ok c held l' /\ list_time l' = list_time l /\ list_device l' = list_device l /\
    gone = bool_decide (refs held l p = 0) /\ (gone = false -> l' = put_entry p (e <| refCount := refCount e - 1 |>) l)).
Proof.
  intros Hok Ep. unfold poll_entry_unref. eapply safe_load; [done|].
  assert (Er : refCount e = refs held l p + 1).
  { rewrite (lk_refs _ _ _ Hok p e); [|rewrite elem_of_app, elem_of_cons; tauto|done].
    unfold refs. rewrite times_cons, (bool_decide_eq_true_2 (p = p)) by done. cbn. lia. }
  apply safe_assert. intros _. eapply safe_on_entry; [done|]. set (e1 := e <| refCount := refCount e - 1 |>).
  assert (Hok1 : loop_ok c held (put_entry p e1 l)).
  { apply (entry_ok c (p :: held) held l p e); try done.
    - intros _. cbn. lia.
    - intros q Hne. by rewrite times_cons, bool_decide_eq_false_2 by done.
    - intros Hp. apply (lk_held _ _ _ Hok). left.
    - intros Hp. apply (lk_queued _ _ _ Hok p e); [by left|done]. }
  destruct (Z.ltb_spec 0 (refCount e - 1)) as [Hlt|Hge].
  - apply safe_mret. split; [done|]. split; [done|]. split; [done|]. rewrite bool_decide_eq_false_2 by lia. done.
  - assert (Hz : refs held l p = 0). { unfold refs in *. pose proof (times_nonneg p held). destruct (bool_decide _); cbn in *; lia. }
    assert (Hnl : p ∉ listed l) by (intros Hp; unfold refs in Hz; rewrite bool_decide_eq_true_2 in Hz by done; pose proof (times_nonneg p held); cbn in Hz; lia).
    assert (Hnh : p ∉ held) by (rewrite times_in; unfold refs in Hz; destruct (bool_decide _); cbn in Hz; lia).
    assert (Hnf : p ∉ list_free l) by (apply (lk_held _ _ _ Hok); left).
    unfold poll_entry_put. apply safe_then. eapply safe_on_entry; [apply put_entry_lookup|]. unfold safe, on_loop, mret, st_ret.
    split; [|split; [done|split; [done|split; [by rewrite bool_decide_eq_true_2|done]]]].
    change (put_entry p (e1 <| type := POLL_CB_NONE |>) (put_entry p e1 l)) with (put_entry p (e1 <| type := POLL_CB_NONE |>) (put_entry p e1 l)).
    apply add_free; [|done..|rewrite put_entry_lookup; by eexists].
    apply (entry_ok c held held (put_entry p e1 l) p e1); try done.
    + apply put_entry_lookup.
    + intros Hp. by destruct Hnl; apply elem_of_app; left.
    + intros Hp. by destruct Hnl; apply elem_of_app; right.
    + intros [Hp|Hp]%elem_of_app; done.
Qed.

Definition same_entries l l' : Prop := entries_heap l' = entries_heap l /\ list_time l' = list_time l /\ list_device l' = list_device l /\
  list_free l' = list_free l /\ hash l' = hash l.
Lemma same_ok c held l l' : same_entries l l' -> loop_ok c held l -> loop_ok c held l'.
Proof.
  intros (E1 & E2 & E3 & E4 & E5) []. split; unfold refs, listed in *; rewrite ?E1, ?E2, ?E3, ?E4, ?E5; done.
Qed.

(** What is held is not put on a list. *)
Definition no_new held l l' : Prop := forall p, p ∈ held -> p ∈ listed l' -> p ∈ listed l.
Lemma no_new_refl held l : no_new held l l.
Proof. intros p _ Hp. exact Hp. Qed.
Lemma no_new_trans held l1 l2 l3 : no_new held l1 l2 -> no_new held l2 l3 -> no_new held l1 l3.
Proof. intros H1 H2 p Hh Hp. apply H1; [done|]. by apply H2. Qed.

(** *** Timers *)

Lemma dequeue_time_ok c held l p : loop_ok c held l -> p ∈ list_time l ->
  safe (dequeue_time p) l (fun _ l' => l' = l <| list_time := filter (fun q => q <> p) (list_time l) |> /\ loop_ok c (p :: held) l').
Proof.
  intros Hok Hp. unfold safe, dequeue_time. rewrite (without_ok _ _ Hp). cbn [mbind res_bind]. split; [done|]. by apply drop_time.
Qed.

Lemma check_order_safe (ps : list positive) : forall last l, (forall p, p ∈ ps -> is_Some (entries_heap l !! p)) ->
  safe (check_order_loop ps last) l (fun _ l' => l' = l).
Proof.
  induction ps as [|p ps IH]; intros last l Hin; cbn [check_order_loop]; [done|].
  destruct (Hin p) as [e Ep]; [by left|]. eapply safe_load; [done|]. apply safe_assert. intros _. apply IH. intros q Hq. apply Hin. by right.
Qed.

Lemma insert_before_ok x p (ps : list positive) l : expiry_of (entries_heap l) p = x ->
  (forall q, q ∈ ps -> is_Some (entries_heap l !! q)) -> in_order (entries_heap l) ps ->
  exists ps', insert_before x p ps l = Ok (ps', l) /\ ps' ≡ₚ p :: ps /\ in_order (entries_heap l) ps'.
Proof.
  intros Ex. induction ps as [|q ps IH]; intros Hin Hs; cbn [insert_before].
  - exists [p]. split; [done|]. split; [done|]. by repeat constructor.
  - destruct (Hin q) as [e Eq]; [by left|]. inversion_clear Hs as [|? ? Hs' Hf]. unfold mbind at 1, st_bind at 1, entry_load. rewrite (obj_load_ok _ _ _ Eq).
    cbn [mbind res_bind]. assert (Exq : expiry_of (entries_heap l) q = expiry e) by (unfold expiry_of; by rewrite Eq).
    destruct (Z.ltb_spec x (expiry e)) as [Hlt|Hge].
    + exists (p :: q :: ps). split; [done|]. split; [done|]. constructor; [by constructor|]. constructor; [lia|].
      eapply Forall_impl; [exact Hf|]. cbn. lia.
    + destruct IH as (ps' & E & Hp & Ho); [intros r Hr; apply Hin; by right|done|]. unfold mbind, st_bind. rewrite E. exists (q :: ps').
      split; [done|]. split; [rewrite Hp; apply Permutation_swap|]. constructor; [done|]. rewrite Hp. constructor; [lia|done].
Qed.

Lemma insert_time_ok c held l p e : loop_ok c (p :: held) l -> p ∉ listed l -> entries_heap l !! p = Some e ->
  safe (poll_insert_time p) l (fun _ l' => loop_ok c held l' /\ forall q, q ∈ listed l' -> q = p \/ q ∈ listed l).
Proof.
  intros Hok Hp Ep. unfold poll_insert_time. eapply safe_load; [done|]. apply safe_assert. intros Hty%bool_decide_eq_true. apply safe_assert. intros _.
  eapply safe_on_entry; [done|]. set (e1 := e <| queued := true |>). set (l1 := put_entry p e1 l).
  assert (Hok1 : loop_ok c (p :: held) l1).
  { apply (entry_ok c (p :: held) (p :: held) l p e); try done.
    - intros Hp'. by apply (lk_refs _ _ _ Hok p e).
    - intros _. apply (lk_held _ _ _ Hok). left.
    - intros _ Hd. change (type e1) with (type e) in Hd. congruence. }
  destruct (insert_before_ok (expiry e) p (list_time l1) l1) as (ps & E & Hps & Ho).
  { unfold expiry_of, l1. by rewrite put_entry_lookup. }
  { intros q Hq. apply (lk_heap _ _ _ Hok1). by apply time_in. }
  { apply (lk_order _ _ _ Hok1). }
  apply safe_then. unfold safe at 1. rewrite E. apply safe_then. unfold safe at 1, on_loop. set (l2 := l1 <| list_time := ps |> <| insertions ::= fun n => n + 1 |>).
  assert (Hok2 : loop_ok c held l2).
  { apply (same_ok c held (l1 <| list_time := ps |>)); [done|]. by apply (add_time c held l1 p e1); [|done|apply put_entry_lookup|..]. }
  assert (Hin2 : forall q, q ∈ listed l2 -> q = p \/ q ∈ listed l).
  { intros q. unfold listed, l2, l1. cbn [set put_entry list_time list_device]. rewrite !elem_of_app, Hps, elem_of_cons. unfold l1. cbn [put_entry set list_time]. tauto. }
  apply safe_then. unfold safe at 1, gets. destruct (_ =? 0); [|by apply safe_mret]. unfold poll_check_time_queue_order, safe.
  apply (safe_conseq _ _ (fun _ l' => l' = l2)); [|by intros _ l' ->]. apply check_order_safe. intros q Hq. apply (lk_heap _ _ _ Hok2).
  by apply time_in.
Qed.

Lemma recalc_ok c held l p e : loop_ok c held l -> p ∉ listed l -> entries_heap l !! p = Some e ->
  safe (poll_recalc_expiry p) l (fun _ l' => loop_ok c held l' /\ listed l' = listed l /\ list_free l' = list_free l /\
    exists x, entries_heap l' !! p = Some (e <| expiry := x |>)).
Proof.
  intros Hok Hp Ep. unfold poll_recalc_expiry. apply safe_then. unfold safe at 1, time_now. set (l1 := l <| pl_ticks ::= S |>).
  assert (Hok1 : loop_ok c held l1) by (by apply (same_ok c held l)). unfold safe, on_entry. change (entries_heap l1) with (entries_heap l).
  rewrite (obj_load_ok _ _ _ Ep). cbn [mbind res_bind]. split; [|split; [done|split; [done|eexists; apply lookup_insert_eq]]].
  apply (entry_ok c held held l1 p e); try done.
  - intros Hp'. by destruct Hp; apply elem_of_app; left.
  - intros Hp'. by apply (lk_refs _ _ _ Hok p e).
  - intros Hp'. by apply (lk_held _ _ _ Hok).
  - intros Hp'. by apply (lk_queued _ _ _ Hok p e).
Qed.

(** *** Registering *)

(** Nothing is known of a new entry. *)
Lemma heap_new c held l p e : loop_ok c held l -> p ∉ listed l ++ list_free l ++ held ->
  loop_ok c held (put_entry p e l).
Proof.
  intros [Hn Ha Hh Hf Ht Hd Hr Hm Hq Ho] Hp.
  assert (Hl : forall x, x ∈ listed l ++ list_free l ++ held -> <[p := e]> (entries_heap l) !! x = entries_heap l !! x)
    by (intros x Hx; apply lookup_insert_ne; intros ->; done).
  assert (Hl2 : forall x, x ∈ list_time l -> <[p := e]> (entries_heap l) !! x = entries_heap l !! x) by (intros x Hx; by apply Hl, time_in).
  assert (Hl3 : forall x, x ∈ list_device l -> <[p := e]> (entries_heap l) !! x = entries_heap l !! x) by (intros x Hx; by apply Hl, device_in).
  assert (Hl4 : forall x, x ∈ held -> <[p := e]> (entries_heap l) !! x = entries_heap l !! x) by (intros x Hx; by apply Hl, held_in).
  split; unfold refs, listed; cbn [put_entry set list_time list_device list_free entries_heap hash].
  - exact Hn.
  - exact Ha.
  - intros x Hx. rewrite (Hl x Hx). by apply Hh.
  - exact Hf.
  - intros x e0 Hx. rewrite (Hl2 x Hx). by apply Ht.
  - intros x e0 Hx. rewrite (Hl3 x Hx). by apply Hd.
  - intros x e0 Hx. rewrite Hl; [by apply Hr|]. unfold listed. rewrite !elem_of_app in *. tauto.
  - destruct Hm as (m & Hm & Hk). exists m. split; [exact Hm|]. intros k x. rewrite Hk. split; intros (Hx & e0 & E); (split; [done|]); exists e0.
    + by rewrite (Hl3 x Hx).
    + by rewrite (Hl3 x Hx) in E.
  - intros x e0 Hx. rewrite (Hl4 x Hx). by apply Hq.
  - apply (in_order_ext (entries_heap l)); [|exact Ho]. intros x Hx. unfold expiry_of. by rewrite (Hl2 x Hx).
Qed.

Lemma get_ok c held l : loop_ok c held l ->
  safe poll_entry_get l (fun p l' => loop_ok c held l' /\ p ∉ listed l' /\ p ∉ held /\ p ∉ list_free l' /\ is_Some (entries_heap l' !! p) /\ listed l' = listed l).
Proof.
  intros Hok. unfold safe, poll_entry_get. destruct (list_free l) as [|p free] eqn:Ef.
  - set (p := obj_new (entries_heap l)). assert (Hp : p ∉ listed l ++ list_free l ++ held).
    { intros Hx. destruct (lk_heap _ _ _ Hok _ Hx) as [e E]. unfold p in E. by rewrite obj_new_fresh in E. }
    split; [by apply heap_new|]. rewrite !elem_of_app in Hp. cbn [set list_free entries_heap].
    split; [unfold listed in *; cbn [set list_time list_device]; rewrite elem_of_app in *; tauto|]. split; [tauto|]. split; [tauto|].
    rewrite lookup_insert_eq. split; [by eexists|done].
  - destruct Hok as [(Hn1 & Hn2 & Hn3) Ha Hh Hf Ht Hd Hr Hm Hq Ho]. rewrite Ef in *. apply NoDup_cons in Hn3 as [Hpf Hn3].
    split; [|split; [|split; [|split; [exact Hpf|split; [|done]]]]].
    + split; unfold refs, listed; cbn [set list_time list_device list_free entries_heap hash]; try assumption.
      * done.
      * intros x. specialize (Ha x). rewrite elem_of_cons in Ha. tauto.
      * intros x Hx. apply Hh. unfold listed. rewrite !elem_of_app, elem_of_cons in *. tauto.
      * intros x Hx Hx'. apply (Hf x Hx). by right.
    + unfold listed. cbn [set list_time list_device]. rewrite elem_of_app. specialize (Ha p). rewrite elem_of_cons in Ha. tauto.
    + intros Hx. apply (Hf p Hx). by left.
    + apply Hh. rewrite !elem_of_app, elem_of_cons. tauto.
Qed.

Lemma register_time_ok c held l delayUsec perm cb cbData : loop_ok c held l ->
  safe (poll_callback_time delayUsec perm cb cbData) l (fun _ l' => loop_ok c held l' /\ no_new held l l').
Proof.
  intros Hok. unfold poll_callback_time. apply safe_assert. intros _. apply safe_then. eapply safe_conseq; [by apply get_ok|].
  clear Hok. intros p l' (Hok & Hpl & Hph & Hpf & [e Ep] & El'). unfold no_new. rewrite <- El'. clear l El'. rename l' into l. eapply safe_on_entry; [exact Ep|]. set (e1 := _ : poll_entry).
  assert (Hok1 : loop_ok c held (put_entry p e1 l)) by (apply heap_new; [done|]; rewrite !elem_of_app; tauto).
  apply safe_then. eapply safe_conseq.
  { apply (ref_ok c held _ p e1 Hok1); [apply put_entry_lookup|done| |done]. unfold refs.
    assert (Ht : times p held = 0) by (pose proof (times_nonneg p held); rewrite times_in in Hph; lia).
    rewrite Ht, bool_decide_eq_false_2 by done. done. }
  cbv beta. intros _ l2 (E2 & Hok2). set (e2 := e1 <| refCount := refCount e1 + 1 |>) in *.
  assert (Ep2 : entries_heap l2 !! p = Some e2) by (rewrite E2; apply put_entry_lookup).
  assert (Hpl2 : p ∉ listed l2) by (rewrite E2; done).
  apply safe_then. eapply safe_conseq; [by apply (recalc_ok c (p :: held) l2 p e2)|]. cbv beta.
  intros _ l3 (Hok3 & El & _ & x & Ep3). eapply safe_conseq; [eapply insert_time_ok; [exact Hok3|by rewrite El|exact Ep3]|]. cbv beta.
  intros _ l4 [Hok4 H4]. split; [done|]. intros q Hq Hl. destruct (H4 q Hl) as [->|Hl']; [done|]. rewrite El, E2 in Hl'. exact Hl'.
Qed.

Lemma table_unique (h : table) (m m' : gmap (list byte) positive) : tbl_ok h m -> tbl_ok h m' -> m = m'.
Proof. intros Hm Hm'. apply map_eq. intros k. pose proof (t_lookup_ok _ _ k Hm). pose proof (t_lookup_ok _ _ k Hm'). congruence. Qed.

(** Every device is one of a few. *)
Definition device_keys : list (list byte) :=
  map (fun '(f, (r, (w, pm))) => poll_get_device_key f r w pm)
    (list_prod (seqZ 0 FD_LIMIT) (list_prod [true; false] (list_prod [true; false] [true; false]))).
Lemma device_keys_in e : 0 <= fd e < FD_LIMIT -> key_of e ∈ device_keys.
Proof.
  intros Hfd. unfold device_keys, key_of. apply list_elem_of_In, in_map_iff. exists (fd e, (readable e, (writeable e, permanent e))).
  split; [done|]. assert (Hb : forall b : bool, In b [true; false]) by (intros []; cbn; tauto).
  rewrite !in_prod_iff. split; [|by split; [|split]]. apply list_elem_of_In, elem_of_seqZ. lia.
Qed.
Lemma device_keys_few : exists keys : list (list byte),
  Z.of_nat (length keys) = 2 ^ 23 /\ forall e, 0 <= fd e < FD_LIMIT -> key_of e ∈ keys.
Proof.
  exists device_keys. split; [|exact device_keys_in]. unfold device_keys. rewrite length_map, length_prod, length_seqZ.
  change (length (list_prod _ _)) with 8%nat. rewrite Nat2Z.inj_mul, Z2Nat.id by (unfold FD_LIMIT; lia). reflexivity.
Qed.
Lemma devices_few (c : list positive) held l (m : gmap (list byte) positive) : loop_ok c held l -> (forall k p, m !! k = Some p <-> p ∈ list_device l /\ exists e, entries_heap l !! p = Some e /\ key_of e = k) ->
  Z.of_nat (size m) < 2 ^ 32 - 1.
Proof.
  intros Hok Hk. destruct device_keys_few as (keys & Hd & Hin). assert (Hs : elements (dom m) ⊆+ keys).
  { apply NoDup_submseteq; [apply NoDup_elements|]. intros k Hx. apply elem_of_elements, elem_of_dom in Hx as [p Hp].
    apply Hk in Hp as (Hp & e & Ep & <-). apply Hin. by apply (lk_dev _ _ _ Hok p e). }
  apply submseteq_length in Hs. rewrite <- size_dom. unfold size, set_size. cbn [compose]. lia.
Qed.

Lemma insert_device_ok c held l p e : loop_ok (p :: c) (p :: held) l -> p ∉ listed l -> p ∉ held -> entries_heap l !! p = Some e ->
  0 <= fd e < FD_LIMIT -> safe (poll_insert_device p) l (fun _ l' => loop_ok c held l' /\ forall q, q ∈ listed l' -> q = p \/ q ∈ listed l).
Proof.
  intros Hok Hp Hph Ep Hfd. unfold poll_insert_device. eapply safe_load; [exact Ep|]. apply safe_then.
  unfold safe at 1, lift, poll_get_device_key_from_entry, ASSERT. destruct (bool_decide (type e = POLL_CB_DEVICE)) eqn:Ety; [|exact I].
  apply bool_decide_eq_true in Ety. cbn [mbind res_bind]. change (poll_get_device_key _ _ _ _) with (key_of e).
  destruct (lk_hash _ _ _ Hok) as (m & Hm & Hk). destruct (t_insert_ok (hash l) m (key_of e) p Hm (devices_few _ _ _ _ Hok Hk)) as (h & Eh & Hh).
  apply safe_then. unfold safe at 1. rewrite Eh. cbn [mbind res_bind]. apply safe_assert. intros Hno. rewrite Hno in Hh. apply bool_decide_eq_true in Hno.
  apply safe_then. unfold safe at 1, on_loop. set (l1 := l <| hash := h |> <| list_device := list_device l ++ [p] |>).
  assert (Hok1 : loop_ok (p :: c) held l1).
  { apply (add_device _ held l p e h); try done. intros m' Hm'.
    by rewrite (table_unique _ _ _ Hm' Hm). }
  change (safe (on_entry p (fun e => e <| queued := true |>)) l1 (fun _ l' => loop_ok c held l' /\ forall q, q ∈ listed l' -> q = p \/ q ∈ listed l)).
  unfold safe, on_entry. change (entries_heap l1) with (entries_heap l). rewrite (obj_load_ok _ _ _ Ep). cbn [mbind res_bind].
  split; [|intros q; unfold listed, l1; cbn [set list_time list_device]; rewrite !elem_of_app, list_elem_of_singleton; tauto].
  apply (less_cur c p); [|intros e' Hp'; done]. change (loop_ok (p :: c) held (put_entry p (e <| queued := true |>) l1)).
  apply (entry_ok _ held held l1 p e); try done.
  - intros Hp'. apply (lk_refs _ _ _ Hok1 p e); done.
Qed.

Lemma register_device_ok c held l fd' rd wr perm cb cbData : loop_ok c held l -> 0 <= fd' < FD_LIMIT ->
  safe (poll_callback_device fd' rd wr perm cb cbData) l (fun _ l' => loop_ok c held l' /\ no_new held l l').
Proof.
  intros Hok Hfd. unfold poll_callback_device. apply safe_assert. intros _. apply safe_then. eapply safe_conseq; [by apply get_ok|].
  clear Hok. intros p l' (Hok & Hpl & Hph & Hpf & [e Ep] & El'). unfold no_new. rewrite <- El'. clear l El'. rename l' into l. eapply safe_on_entry; [exact Ep|]. set (e1 := _ : poll_entry).
  assert (Hok1 : loop_ok (p :: c) held (put_entry p e1 l)) by (apply more_cur, heap_new; [done|]; rewrite !elem_of_app; tauto).
  apply safe_then. eapply safe_conseq.
  { apply (ref_ok _ held _ p e1 Hok1); [apply put_entry_lookup|done| |by right; left]. unfold refs.
    assert (Ht : times p held = 0) by (pose proof (times_nonneg p held); rewrite times_in in Hph; lia).
    rewrite Ht, bool_decide_eq_false_2 by done. done. }
  cbv beta. intros _ l2 (E2 & Hok2). set (e2 := e1 <| refCount := refCount e1 + 1 |>) in *.
  eapply safe_conseq; [apply (insert_device_ok c held l2 p e2); try done; [by rewrite E2|rewrite E2; apply put_entry_lookup]|]. cbv beta.
  intros _ l3 [Hok3 H3]. split; [done|]. intros q Hq Hl. destruct (H3 q Hl) as [->|Hl']; [done|]. rewrite E2 in Hl'. exact Hl'.
Qed.

(** *** Removing *)

Lemma dequeue_device_ok c held l p e : loop_ok c held l -> p ∈ list_device l -> entries_heap l !! p = Some e -> queued e = false \/ p ∈ c ->
  safe (_ ← poll_entry_remove_from_hashtable p; dequeue_device p) l (fun _ l' => entries_heap l' = entries_heap l /\ loop_ok c (p :: held) l' /\ forall q, q ∈ listed l' -> q ∈ listed l).
Proof.
  intros Hok Hp Ep Hq. destruct (lk_dev _ _ _ Hok p e Hp Ep) as [Hty Hfd]. destruct (lk_hash _ _ _ Hok) as (m & Hm & Hk).
  destruct (t_remove_ok (hash l) m (key_of e) Hm) as (h & Eh & Hh). apply safe_then.
  unfold safe at 1, poll_entry_remove_from_hashtable, poll_get_device_key_from_entry. rewrite (obj_load_ok _ _ _ Ep). cbn [mbind res_bind].
  rewrite (bool_decide_eq_true_2 (type e = POLL_CB_DEVICE)) by done. cbn [ASSERT mbind res_bind]. change (poll_get_device_key _ _ _ _) with (key_of e). rewrite Eh.
  cbn [mbind res_bind]. destruct (bool_decide _); [|exact I]. cbn [ASSERT mbind res_bind]. unfold safe, dequeue_device.
  change (list_device (l <| hash := h |>)) with (list_device l). rewrite (without_ok _ _ Hp). cbn [mbind res_bind]. split; [done|].
  split; [|intros q; unfold listed; cbn [set list_time list_device]; rewrite !elem_of_app, elem_of_others; tauto].
  apply (drop_device c held l p e h); try done. intros m' Hm'.
  by rewrite (table_unique _ _ _ Hm' Hm).
Qed.
End inv.
