(* ===== verification/PollTime.v ===== *)
(** * How many timers are due (lib/poll/poll.c)

    When every timer is to wait for some time, nothing that a callback asks of the
    loop makes another timer due now. *)
From S2P Require Export PollInv.

Section time.
Context `{T : Table positive} {U : Type}.
Implicit Types l : poll_loop (U := U).

Definition is_due (now : Z) l (p : positive) : Prop := expiry_of (entries_heap l) p <= now.
#[export] Instance is_due_dec now l p : Decision (is_due now l p) := Z_le_dec _ _.
Definition due (now : Z) l : nat := length (filter (is_due now l) (list_time l)).

(** A delay that is neither nothing nor for ever. *)
Definition waits (delayUsec : Z) : Prop := 0 < delayUsec < 2 ^ 62.
(** The clock does not go back, and the delays are those. *)
Record time_ok (now : Z) l : Prop := {
  tk_clock : forall n m, (n <= m)%nat -> 0 <= pl_clock l n <= pl_clock l m /\ pl_clock l m < 2 ^ 62;
  tk_now : now <= pl_clock l (pl_ticks l);
  tk_delay : forall p e, entries_heap l !! p = Some e -> type e = POLL_CB_TIME -> waits (delay e) }.
Definition calm l l' : Prop := forall now, time_ok now l -> time_ok now l' /\ (due now l' <= due now l)%nat.

Lemma calm_refl l : calm l l.
Proof. intros now Hok. split; [exact Hok|lia]. Qed.
Lemma calm_trans l1 l2 l3 : calm l1 l2 -> calm l2 l3 -> calm l1 l3.
Proof. intros H1 H2 now Hok. destruct (H1 now Hok) as [Hok2 ?]. destruct (H2 now Hok2). split; [done|lia]. Qed.

(** What holds when the code ends. *)
Definition post {A} (m : ST (poll_loop (U := U)) A) l (Q : A -> poll_loop (U := U) -> Prop) : Prop :=
  match m l with Ok (a, l') => Q a l' | Fault _ => True end.
Lemma post_ret {A} (a : A) l (Q : A -> poll_loop -> Prop) : Q a l -> post (mret a) l Q.
Proof. done. Qed.
Lemma post_bind {A B} (m : ST poll_loop A) (k : A -> ST poll_loop B) l Q :
  post m l (fun a l' => post (k a) l' Q) -> post (m ≫= k) l Q.
Proof. unfold post, mbind, st_bind. by destruct (m l) as [[a l']|]. Qed.
Lemma post_conseq {A} (m : ST poll_loop A) l (Q Q' : A -> poll_loop -> Prop) : post m l Q -> (forall a l', Q a l' -> Q' a l') -> post m l Q'.
Proof. unfold post. intros Hm HQ. destruct (m l) as [[a l']|]; [by apply HQ|done]. Qed.
Lemma post_safe {A} (m : ST poll_loop A) l Q : safe m l Q -> post m l Q.
Proof. unfold safe, post. by destruct (m l) as [[a l']|[]]. Qed.
Lemma safe_post {A} (m : ST poll_loop A) l (Q Q' : A -> poll_loop -> Prop) : safe m l Q -> post m l Q' -> safe m l (fun a l' => Q a l' /\ Q' a l').
Proof. unfold safe, post. by destruct (m l) as [[a l']|[]]. Qed.

Abbreviation calmly m l := (post m l (fun _ l' => calm l l')).
Lemma calm_bind {A B} (m : ST poll_loop A) (k : A -> ST poll_loop B) l : calmly m l -> (forall a l', calmly (k a) l') -> calmly (m ≫= k) l.
Proof.
  intros Hm Hk. apply post_bind. eapply post_conseq; [exact Hm|]. cbv beta. intros a l' Hl. eapply post_conseq; [apply Hk|].
  cbv beta. intros _ l''. by apply calm_trans.
Qed.
Lemma calm_ret {A} (a : A) l : calmly (mret a : ST poll_loop A) l.
Proof. apply calm_refl. Qed.
Lemma calm_lift {A} (r : res A) l : calmly (lift r) l.
Proof. unfold post, lift. destruct r; cbn; [apply calm_refl|done]. Qed.
Lemma calm_load p l : calmly (entry_load p) l.
Proof. unfold post, entry_load. destruct (obj_load _ _); cbn; [apply calm_refl|done]. Qed.

Lemma filter_local (P Q : positive -> Prop) `{!forall p, Decision (P p)} `{!forall p, Decision (Q p)} (ps : list positive) :
  (forall p, p ∈ ps -> P p <-> Q p) -> filter P ps = filter Q ps.
Proof.
  induction ps as [|p ps IH]; intros Hx; [done|]. rewrite !filter_cons, IH by (intros q Hq; apply Hx; by right).
  assert (P p <-> Q p) by (apply Hx; left). destruct (decide (P p)), (decide (Q p)); tauto.
Qed.
Lemma filter_fewer (P : positive -> Prop) `{!forall p, Decision (P p)} (ps qs : list positive) :
  ps `sublist_of` qs -> (length (filter P ps) <= length (filter P qs))%nat.
Proof.
  induction 1 as [|p ps qs Hs IH|p ps qs Hs IH]; [done|..]; rewrite !filter_cons; destruct (decide _); cbn; lia.
Qed.

(** The timers are those they were, or fewer. *)
Lemma calm_frame l l' : pl_clock l' = pl_clock l -> (pl_ticks l <= pl_ticks l')%nat -> list_time l' `sublist_of` list_time l ->
  (forall p, p ∈ list_time l' -> expiry_of (entries_heap l') p = expiry_of (entries_heap l) p) ->
  ((forall p e, entries_heap l !! p = Some e -> type e = POLL_CB_TIME -> waits (delay e)) ->
   forall p e, entries_heap l' !! p = Some e -> type e = POLL_CB_TIME -> waits (delay e)) -> calm l l'.
Proof.
  intros Ec Et Hs Hx Hd now [Hc Hn Hw]. split; [split; [by rewrite Ec|rewrite Ec; pose proof (Hc _ _ Et); lia|by apply Hd]|]. unfold due.
  rewrite (filter_local _ (is_due now l)); [by apply filter_fewer|]. intros p Hp. unfold is_due. by rewrite Hx.
Qed.

Lemma calm_put p e e' l : entries_heap l !! p = Some e -> expiry e' = expiry e ->
  (type e' = POLL_CB_TIME -> (type e = POLL_CB_TIME /\ delay e' = delay e) \/ waits (delay e')) -> calm l (put_entry p e' l).
Proof.
  intros Ep He Ht. apply calm_frame; cbn [put_entry set pl_clock pl_ticks list_time entries_heap]; try done.
  - intros q _. unfold expiry_of. destruct (decide (q = p)) as [->|Hne]; [rewrite lookup_insert_eq, Ep; exact He|by rewrite lookup_insert_ne].
  - intros Hw q e0 [[<- <-]|[_ E]]%lookup_insert_Some Hty; [|by apply (Hw q)]. destruct (Ht Hty) as [[Hty' ->]|?]; [by apply (Hw p)|done].
Qed.
Lemma calm_on_entry p f l : (forall e, expiry (f e) = expiry e) ->
  (forall e, type (f e) = POLL_CB_TIME -> (type e = POLL_CB_TIME /\ delay (f e) = delay e) \/ waits (delay (f e))) -> calmly (on_entry p f) l.
Proof.
  intros He Ht. unfold post, on_entry, obj_load. destruct (entries_heap l !! p) as [e|] eqn:Ep; cbn [mbind res_bind]; [|done].
  exact (calm_put p e (f e) l Ep (He e) (Ht e)).
Qed.
Lemma calm_same (f : poll_loop -> poll_loop) l : same_entries l (f l) -> pl_clock (f l) = pl_clock l -> pl_ticks (f l) = pl_ticks l -> calmly (on_loop f) l.
Proof. intros (E1 & E2 & _) E3 E4. unfold post, on_loop. apply calm_frame; rewrite ?E1, ?E2, ?E3, ?E4; done. Qed.

(** ** What the callbacks ask *)

Lemma calm_ref p l : calmly (poll_entry_ref p) l.
Proof.
  apply calm_bind; [apply calm_load|]. intros e l1. apply calm_bind; [apply calm_lift|]. intros _ l2. apply calm_on_entry; [done|]. by left.
Qed.
Lemma calm_unref p l : calmly (poll_entry_unref p) l.
Proof.
  apply calm_bind; [apply calm_load|]. intros e l1. apply calm_bind; [apply calm_lift|]. intros _ l2.
  apply calm_bind; [apply calm_on_entry; [done|by left]|]. intros _ l3. destruct (0 <? _); [apply calm_ret|].
  apply calm_bind; [|intros _ l4; apply calm_ret]. apply calm_bind; [by apply calm_on_entry|]. intros _ l4. unfold post, on_loop. by apply calm_frame.
Qed.
Lemma calm_dequeue_time p l : calmly (dequeue_time p) l.
Proof.
  unfold post, dequeue_time, without. destruct (bool_decide _); cbn [mbind res_bind]; [|done].
  apply calm_frame; cbn [set list_time]; try done. apply sublist_filter.
Qed.

(** A timer that is set anew is late. *)
Definition late (now : Z) l p : Prop := now < expiry_of (entries_heap l) p.
Lemma calm_recalc p l : p ∉ list_time l ->
  post (poll_recalc_expiry p) l (fun _ l' => calm l l' /\ forall now, time_ok now l ->
    (forall e, entries_heap l' !! p = Some e -> type e = POLL_CB_TIME) -> late now l' p).
Proof.
  intros Hp. unfold poll_recalc_expiry. apply post_bind. unfold post, time_now, on_entry. cbn [set entries_heap].
  unfold obj_load. destruct (entries_heap l !! p) as [e|] eqn:Ep; cbn [mbind res_bind]; [|done]. split.
  - apply calm_frame; cbn [set pl_clock pl_ticks list_time entries_heap]; [done|exact (le_S _ _ (le_n _))|done|..].
    + intros q Hq. unfold expiry_of. rewrite lookup_insert_ne; [done|]. by intros ->.
    + intros Hw q e0 [[<- <-]|[_ E]]%lookup_insert_Some Hty; [by apply (Hw p e)|by apply (Hw q)].
  - intros now [Hc Hn Hw] Hty. unfold late, expiry_of. cbn [set entries_heap]. rewrite lookup_insert_eq. cbn.
    pose proof (Hc (pl_ticks l) _ (Nat.le_refl _)). destruct (Hw p e Ep (Hty _ (lookup_insert_eq _ _ _))). unfold wrap64. rewrite Z.mod_small; lia.
Qed.

Lemma insert_before_perm x p (ps : list positive) l : post (insert_before x p ps) l (fun ps' l' => l' = l /\ ps' ≡ₚ p :: ps).
Proof.
  induction ps as [|q ps IH]; cbn [insert_before]; [by apply post_ret|]. apply post_bind. unfold post at 1, entry_load.
  destruct (obj_load _ _) as [e|]; cbn [mbind res_bind]; [|done]. destruct (x <? expiry e); [by apply post_ret|].
  apply post_bind. eapply post_conseq; [exact IH|]. cbv beta. intros ps' l' [-> Hp]. apply post_ret. split; [done|]. rewrite Hp. apply Permutation_swap.
Qed.
Lemma check_order_same (ps : list positive) : forall last l, post (check_order_loop ps last) l (fun _ l' => l' = l).
Proof.
  induction ps as [|p ps IH]; intros last l; cbn [check_order_loop]; [done|]. apply post_bind. unfold post at 1, entry_load.
  destruct (obj_load _ _) as [e|]; cbn [mbind res_bind]; [|done]. apply post_bind. unfold post at 1, lift. destruct (ASSERT _); [apply IH|done].
Qed.
Lemma insert_time_late p l now : late now l p -> time_ok now l ->
  post (poll_insert_time p) l (fun _ l' => time_ok now l' /\ (due now l' <= due now l)%nat).
Proof.
  intros Hlate Hok. unfold poll_insert_time. apply post_bind. unfold post at 1, entry_load, obj_load.
  destruct (entries_heap l !! p) as [e|] eqn:Ep; cbn [mbind res_bind]; [|done]. do 2 (apply post_bind; unfold post at 1, lift; destruct (ASSERT _); [|done]; cbn [mbind res_bind]).
  apply post_bind. unfold post at 1, on_entry. rewrite (obj_load_ok _ _ _ Ep). cbn [mbind res_bind]. set (e1 := e <| queued := true |>).
  change (l <| entries_heap := <[p := e1]> (entries_heap l) |>) with (put_entry p e1 l). set (l1 := put_entry p e1 l).
  assert (Hc1 : calm l l1) by (apply (calm_put p e e1 l Ep); [done|by left]).
  destruct (Hc1 now Hok) as [Hok1 Hd1]. apply post_bind. eapply post_conseq; [apply insert_before_perm|]. cbv beta. intros ps l2 [-> Hps].
  apply post_bind. unfold post at 1, on_loop. set (l2 := l1 <| list_time := ps |> <| insertions ::= fun n => n + 1 |>).
  assert (Hend : time_ok now l2 /\ (due now l2 <= due now l)%nat).
  { split; [by destruct Hok1|]. unfold due. change (filter (is_due now l2) (list_time l2)) with (filter (is_due now l1) ps). rewrite Hps, filter_cons.
    rewrite decide_False; [exact Hd1|]. unfold is_due, expiry_of, l1. rewrite put_entry_lookup. cbn.
    unfold late, expiry_of in Hlate. rewrite Ep in Hlate. cbn in Hlate. lia. }
  apply post_bind. unfold post at 1, gets. destruct (_ =? 0); [|by apply post_ret].
  eapply post_conseq; [apply check_order_same|]. cbv beta. by intros _ l3 ->.
Qed.

Lemma on_entry_post p f l : post (on_entry p f) l (fun _ l' => exists e, entries_heap l !! p = Some e /\ l' = put_entry p (f e) l).
Proof. unfold post, on_entry, obj_load. destruct (entries_heap l !! p) as [e|]; cbn [mbind res_bind]; [by exists e|done]. Qed.
Lemma ref_post p l : post (poll_entry_ref p) l (fun _ l' => exists e, entries_heap l !! p = Some e /\ l' = put_entry p (e <| refCount ::= fun n => n + 1 |>) l).
Proof.
  unfold poll_entry_ref. apply post_bind. unfold post at 1, entry_load. destruct (obj_load _ _) as [e|]; cbn [mbind res_bind]; [|done].
  apply post_bind. unfold post at 1, lift. destruct (ASSERT _); [|done]. apply on_entry_post.
Qed.
(** A new expiry, then on the list. *)
Lemma insert_time_type p l e : entries_heap l !! p = Some e -> type e <> POLL_CB_TIME -> poll_insert_time p l = Fault Panic.
Proof.
  intros Ep Hty. unfold poll_insert_time, mbind, st_bind, entry_load. rewrite (obj_load_ok _ _ _ Ep). cbn [mbind res_bind].
  unfold lift. by rewrite (bool_decide_eq_false_2 _ Hty).
Qed.
Lemma rearm_calm p l : p ∉ list_time l -> calmly (_ ← poll_recalc_expiry p; poll_insert_time p) l.
Proof.
  intros Hp. apply post_bind. eapply post_conseq; [by apply calm_recalc|]. cbv beta. intros _ l1 [Hc Hlate].
  destruct (poll_insert_time p l1) as [[[] l2]|] eqn:E; unfold post; rewrite E; [|done]. intros now Hok. destruct (Hc now Hok) as [Hok1 Hd1].
  assert (Hl : late now l1 p).
  { apply (Hlate now Hok). intros e Ep. destruct (decide (type e = POLL_CB_TIME)) as [Hty|Hty]; [exact Hty|].
    rewrite (insert_time_type p l1 e Ep Hty) in E. discriminate. }
  pose proof (insert_time_late p l1 now Hl Hok1) as Hi. unfold post in Hi. rewrite E in Hi. destruct Hi. split; [done|lia].
Qed.

Lemma calm_get c held l : loop_ok c held l -> calmly poll_entry_get l.
Proof.
  intros Hok. pose proof (get_ok c held l Hok) as Hg. unfold safe in Hg. unfold post.
  destruct (poll_entry_get l) as [[p l1]|] eqn:Eg; [|done]. destruct Hg as (_ & Hp & _ & _ & _ & El).
  unfold poll_entry_get in Eg. destruct (list_free l); injection Eg as <- <-; [|by apply calm_frame].
  apply calm_frame; cbn [set pl_clock pl_ticks list_time entries_heap]; try done.
  - intros q Hq. unfold expiry_of. rewrite lookup_insert_ne; [done|]. intros <-. apply Hp. unfold listed. rewrite elem_of_app. by left.
  - intros Hx q e [[<- <-]|[_ E]]%lookup_insert_Some Hty; [done|by apply (Hx q)].
Qed.
Lemma calm_register_time c held l delayUsec perm cb cbData : loop_ok c held l -> waits delayUsec ->
  calmly (poll_callback_time delayUsec perm cb cbData) l.
Proof.
  intros Hok Hw. unfold poll_callback_time. apply post_bind. unfold post at 1, lift. destruct (ASSERT _); [|done]. cbn [mbind res_bind].
  apply post_bind. pose proof (post_safe _ _ _ (get_ok c held l Hok)) as Hg. pose proof (calm_get c held l Hok) as Hc1. unfold post in Hg, Hc1. unfold post at 1.
  destruct (poll_entry_get l) as [[p l1]|]; [|done]. destruct Hg as (_ & Hp & _).
  assert (Hpt : p ∉ list_time l1) by (intros Hx; apply Hp; unfold listed; rewrite elem_of_app; by left).
  apply (post_conseq _ _ (fun _ l' => calm l1 l')); [|intros _ l2 Hl2; exact (calm_trans _ _ _ Hc1 Hl2)].
  apply post_bind. eapply post_conseq; [apply on_entry_post|]. cbv beta. intros _ l2 (e & Ep & E2).
  set (e1 := set delay _ _) in E2. assert (Hc2 : calm l1 l2) by (rewrite E2; apply (calm_put p e); [done|done|by right]).
  apply post_bind. eapply post_conseq; [apply ref_post|]. cbv beta. intros _ l3 (e' & Ep' & E3).
  assert (He' : e' = e1) by (rewrite E2, put_entry_lookup in Ep'; by injection Ep' as <-). subst e'.
  assert (Hc3 : calm l2 l3) by (rewrite E3; apply (calm_put p e1); [done|done|by left]).
  apply (post_conseq _ _ (fun _ l' => calm l3 l')); [|intros _ l4 Hl4; exact (calm_trans _ _ _ (calm_trans _ _ _ Hc2 Hc3) Hl4)].
  apply rearm_calm. by rewrite E3, E2.
Qed.

Lemma calm_insert_device p l : calmly (poll_insert_device p) l.
Proof.
  apply calm_bind; [apply calm_load|]. intros e l1. apply calm_bind; [apply calm_lift|]. intros k l2. apply calm_bind.
  { unfold post. destruct (t_insert (hash l2) k p) as [[s h]|]; cbn [mbind res_bind]; [by apply calm_frame|done]. }
  intros s l3. apply calm_bind; [apply calm_lift|]. intros _ l4. apply calm_bind; [by apply calm_frame|]. intros _ l5.
  apply calm_on_entry; [done|by left].
Qed.
Lemma calm_register_device c held l fd' rd wr perm cb cbData : loop_ok c held l -> calmly (poll_callback_device fd' rd wr perm cb cbData) l.
Proof.
  intros Hok. unfold poll_callback_device. apply post_bind. unfold post at 1, lift. destruct (ASSERT _); [|done]. cbn [mbind res_bind].
  apply calm_bind; [by eapply calm_get|]. intros p l1. apply calm_bind; [by apply calm_on_entry|]. intros _ l2.
  apply calm_bind; [apply calm_ref|]. intros _ l3. apply calm_insert_device.
Qed.

Lemma calm_time_remove_loop perm cb cbData (ps : list positive) : forall l, calmly (time_remove_loop perm cb cbData ps) l.
Proof.
  induction ps as [|p ps IH]; intros l; cbn [time_remove_loop]; [apply calm_ret|]. apply calm_bind; [apply calm_load|]. intros e l1.
  destruct (is_timer _ _ _ _); [|apply IH]. apply calm_bind; [apply calm_on_entry; [done|by left]|]. intros _ l2.
  apply calm_bind; [apply calm_dequeue_time|]. intros _ l3. apply calm_bind; [apply calm_unref|]. intros b l4. apply calm_ret.
Qed.
Lemma calm_from_hashtable p l : calmly (poll_entry_remove_from_hashtable p) l.
Proof.
  unfold post, poll_entry_remove_from_hashtable. destruct (obj_load _ _) as [e|]; cbn [mbind res_bind]; [|done].
  destruct (poll_get_device_key_from_entry e) as [k|]; cbn [mbind res_bind]; [|done].
  destruct (t_remove _ _) as [[s h]|]; cbn [mbind res_bind]; [|done]. destruct s; cbn [ASSERT mbind res_bind]; [by apply calm_frame|done].
Qed.
Lemma calm_dequeue_device p l : calmly (dequeue_device p) l.
Proof. unfold post, dequeue_device, without. destruct (bool_decide _); cbn [mbind res_bind]; [by apply calm_frame|done]. Qed.
Lemma calm_device_remove fd' rd wr perm cb cbData l : calmly (poll_callback_device_remove fd' rd wr perm cb cbData) l.
Proof.
  unfold poll_callback_device_remove. apply calm_bind; [unfold post; destruct (t_lookup _ _); cbn [mbind res_bind]; [apply calm_refl|done]|].
  intros [p|] l1; [|apply calm_ret]. apply calm_bind; [apply calm_load|]. intros e l2.
  do 6 (apply calm_bind; [apply calm_lift|]; intros _ ?l). apply calm_bind; [apply calm_on_entry; [done|by left]|]. intros _ ?l.
  apply calm_bind; [apply calm_from_hashtable|]. intros _ ?l. apply calm_bind; [apply calm_dequeue_device|]. intros _ ?l.
  apply calm_bind; [apply calm_unref|]. intros b' ?l. apply calm_ret.
Qed.
End time.
