(* ===== verification/PollSafe.v ===== *)
(** * The event loop never uses an entry that is gone (lib/poll/poll.c)

    Whatever the callbacks register and remove, the rounds of the loop keep the
    invariant of PollInv.v. *)
From S2P Require Export PollTime.

Section safe.
Context `{T : Table positive} {U : Type}.
Implicit Types l : poll_loop (U := U).
Implicit Types (held c : list positive).

(** What a callback may do: the invariant, and nothing that is held is on a list
    again. *)
Definition fine c held l l' : Prop := loop_ok c held l' /\ no_new held l l'.
Lemma fine_refl c held l : loop_ok c held l -> fine c held l l.
Proof. intros Hok. split; [exact Hok|apply no_new_refl]. Qed.
Lemma fine_trans c held l1 l2 l3 : fine c held l1 l2 -> fine c held l2 l3 -> fine c held l1 l3.
Proof. intros [_ H1] [Hok H2]. split; [exact Hok|]. by eapply no_new_trans. Qed.

Lemma safe_assoc {A B C} (m : ST poll_loop A) (k : A -> ST poll_loop B) (j : B -> ST poll_loop C) l Q :
  safe ((m ≫= k) ≫= j) l Q -> safe (m ≫= fun x => k x ≫= j) l Q.
Proof. unfold safe, mbind, st_bind. by destruct (m l) as [[a l']|[]]. Qed.

(** ** Removing *)

Lemma unlist_time c held l p e : loop_ok c held l -> p ∈ list_time l -> entries_heap l !! p = Some e ->
  safe (_ ← on_entry p (fun e => e <| queued := false |>); _ ← dequeue_time p; _ ← poll_entry_unref p; mret true) l (fun _ l' => fine c held l l').
Proof.
  intros Hok Hp Ep. eapply safe_on_entry; [exact Ep|]. set (e1 := e <| queued := false |>).
  assert (Hok1 : loop_ok c held (put_entry p e1 l)).
  { apply (entry_ok c held held l p e); try done.
    - intros Hp'. by apply (lk_refs _ _ _ Hok p e).
    - intros Hp'. by apply (lk_held _ _ _ Hok). }
  apply safe_then. eapply safe_conseq; [by apply (dequeue_time_ok c held _ p)|]. cbv beta. intros _ l2 [E2 Hok2].
  assert (Ep2 : entries_heap l2 !! p = Some e1) by (rewrite E2; apply put_entry_lookup).
  apply safe_then. eapply safe_conseq; [by apply (unref_ok c held l2 p e1)|]. cbv beta. intros b l3 (Hok3 & E3 & E4 & _).
  apply safe_mret. split; [exact Hok3|]. intros q _. unfold listed. rewrite E3, E4, E2. cbn [put_entry set list_time list_device].
  rewrite !elem_of_app, elem_of_others. tauto.
Qed.

Lemma time_remove_loop_ok c held perm cb cbData (ps : list positive) l : loop_ok c held l -> (forall p, p ∈ ps -> p ∈ list_time l) ->
  safe (time_remove_loop perm cb cbData ps) l (fun _ l' => fine c held l l').
Proof.
  intros Hok. induction ps as [|p ps IH]; intros Hin; cbn [time_remove_loop]; [by apply safe_mret, fine_refl|].
  assert (Hp : p ∈ list_time l) by (apply Hin; left).
  destruct (loop_entry c held l p Hok) as [e Ep]; [by apply time_in|]. eapply safe_load; [exact Ep|].
  destruct (is_timer _ _ _ _); [by eapply unlist_time|]. apply IH. intros q Hq. apply Hin. by right.
Qed.

Lemma device_remove_ok c held l fd' rd wr perm cb cbData : loop_ok c held l ->
  safe (poll_callback_device_remove fd' rd wr perm cb cbData) l (fun _ l' => fine c held l l').
Proof.
  intros Hok. unfold poll_callback_device_remove. destruct (lk_hash _ _ _ Hok) as (m & Hm & Hk). apply safe_then. unfold safe at 1.
  rewrite (t_lookup_ok _ m _ Hm). cbn [mbind res_bind]. destruct (m !! _) as [p|] eqn:E; [|by apply safe_mret, fine_refl].
  apply Hk in E as (Hp & e & Ep & _). eapply safe_load; [exact Ep|]. do 6 (apply safe_assert; intros _).
  eapply safe_on_entry; [exact Ep|]. set (e1 := e <| queued := false |>).
  assert (Hok1 : loop_ok c held (put_entry p e1 l)).
  { apply (entry_ok c held held l p e); try done.
    - intros Hp'. by apply (lk_refs _ _ _ Hok p e).
    - intros Hp'. by apply (lk_held _ _ _ Hok). }
  pose proof (dequeue_device_ok c held _ p e1 Hok1 Hp (put_entry_lookup _ _ _) (or_introl eq_refl)) as Hd.
  unfold safe, mbind, st_bind in Hd |- *. destruct (poll_entry_remove_from_hashtable p _) as [[[] l2]|[]]; [|done|done].
  destruct (dequeue_device p l2) as [[[] l3]|[]]; [|done|done]. destruct Hd as (E3 & Hok3 & Hin3).
  assert (Ep3 : entries_heap l3 !! p = Some e1) by (rewrite E3; apply put_entry_lookup).
  pose proof (unref_ok c held l3 p e1 Hok3 Ep3) as Hu. unfold safe in Hu. destruct (poll_entry_unref p l3) as [[g l4]|[]]; [|done|done].
  destruct Hu as (Hok4 & E4 & E5 & _). split; [exact Hok4|]. intros q _. unfold listed. rewrite E4, E5. exact (Hin3 q).
Qed.

(** ** Callbacks *)

Definition cmd_ok (cmd : poll_cmd) : Prop := match cmd with CmdDevice fd _ _ _ _ _ => 0 <= fd < FD_LIMIT | _ => True end.
Fixpoint prog_ok (pr : poll_prog U) : Prop :=
  match pr with PCmd cmd k => cmd_ok cmd /\ forall b, prog_ok (k b) | _ => True end.

Lemma run_cmd_ok c held l cmd : loop_ok c held l -> cmd_ok cmd -> safe (run_cmd cmd) l (fun _ l' => fine c held l l').
Proof.
  intros Hok Hc. destruct cmd; cbn [run_cmd].
  - apply safe_then. eapply safe_conseq; [by apply register_time_ok|]. intros x l' Hl. apply safe_mret. exact Hl.
  - apply safe_then. eapply safe_conseq; [by apply register_device_ok|]. intros x l' Hl. apply safe_mret. exact Hl.
  - by apply time_remove_loop_ok.
  - by apply device_remove_ok.
Qed.
(** Every timer waits. *)
Definition cmd_waits (cmd : poll_cmd) : Prop := match cmd with CmdTime delayUsec _ _ _ => waits delayUsec | _ => True end.
Fixpoint prog_waits (pr : poll_prog U) : Prop :=
  match pr with PCmd cmd k => cmd_waits cmd /\ forall b, prog_waits (k b) | _ => True end.
Lemma run_cmd_calm c held l cmd : loop_ok c held l -> cmd_waits cmd -> post (run_cmd cmd) l (fun _ l' => calm l l').
Proof.
  intros Hok Hw. destruct cmd; cbn [run_cmd].
  - apply calm_bind; [by eapply calm_register_time|]. intros _ l'. apply calm_ret.
  - apply calm_bind; [by eapply calm_register_device|]. intros _ l'. apply calm_ret.
  - apply calm_time_remove_loop.
  - apply calm_device_remove.
Qed.

Lemma run_prog_ok c held pr : forall l, loop_ok c held l -> prog_ok pr ->
  safe (run_prog pr) l (fun _ l' => fine c held l l' /\ (prog_waits pr -> calm l l')).
Proof.
  induction pr as [u| |cmd k IH]; intros l Hok Hpr; cbn [run_prog].
  - unfold safe, on_loop. split; [split; [by apply (same_ok c held l)|intros p _ Hp; exact Hp]|]. intros _. by apply calm_frame.
  - exact I.
  - destruct Hpr as [Hc Hk]. apply safe_then.
    assert (Hcalm : post (run_cmd cmd) l (fun _ l' => cmd_waits cmd -> calm l l')).
    { pose proof (run_cmd_calm c held l cmd Hok) as Hp. unfold post in Hp |- *. by destruct (run_cmd cmd l) as [[b l']|]. }
    eapply safe_conseq; [apply (safe_post _ _ _ _ (run_cmd_ok c held l cmd Hok Hc) Hcalm)|]. cbv beta. intros b l1 [H1 Hl1].
    eapply safe_conseq; [apply IH; [apply H1|apply Hk]|]. cbv beta. intros _ l2 [H2 Hl2]. split; [by eapply fine_trans|].
    intros [Hw Hws]. exact (calm_trans _ _ _ (Hl1 Hw) (Hl2 (Hws b))).
Qed.

Context (call : Z -> Z -> U -> poll_prog U) (exiting : U -> bool) (Hcall : forall cb d u, prog_ok (call cb d u)).

Definition calls_wait : Prop := forall cb d u, prog_waits (call cb d u).
Lemma fire_ok c held l p : loop_ok c held l -> p ∈ held -> safe (poll_entry_fire call p) l (fun _ l' => fine c held l l' /\ (calls_wait -> calm l l')).
Proof.
  intros Hok Hp. destruct (loop_entry c held l p Hok) as [e Ep]; [by apply held_in|]. unfold poll_entry_fire. eapply safe_load; [exact Ep|].
  do 3 (apply safe_assert; intros _). apply safe_then. unfold safe at 1, gets.
  eapply safe_conseq; [by apply run_prog_ok|]. cbv beta. intros _ l' [Hf Hc]. split; [exact Hf|]. intros Hw. apply Hc, Hw.
Qed.
Lemma refs_held held l p : 1 <= refs (p :: held) l p.
Proof. unfold refs. rewrite times_cons, (bool_decide_eq_true_2 (p = p)) by done. pose proof (times_nonneg p held). destruct (bool_decide _); cbn; lia. Qed.

(** ** The queue of timers *)

Lemma rearm_ok held l p e : loop_ok [] (p :: held) l -> p ∉ listed l -> entries_heap l !! p = Some e ->
  safe (_ ← poll_recalc_expiry p; poll_insert_time p) l (fun _ l' => loop_ok [] held l').
Proof.
  intros Hok Hp Ep. apply safe_then. eapply safe_conseq; [by apply (recalc_ok [] (p :: held) l p e)|]. cbv beta.
  intros _ l1 (Hok1 & El & _ & x & Ep1). eapply safe_conseq; [eapply insert_time_ok; [exact Hok1|by rewrite El|exact Ep1]|]. cbv beta. by intros _ l2 [Hok2 _].
Qed.

(** The timer that is taken off was due. *)
Lemma due_taken now l p : p ∈ list_time l -> is_due now l p -> NoDup (list_time l) ->
  due now l = S (due now (l <| list_time := filter (fun q => q <> p) (list_time l) |>)).
Proof.
  intros Hp Hd Hnd. destruct (list_elem_of_split _ _ Hp) as (ps & qs & E). unfold due. cbn [set list_time].
  rewrite (filter_local (is_due now (l <| list_time := _ |>)) (is_due now l)) by done. rewrite E in Hnd |- *. rewrite filter_delete by exact Hnd.
  rewrite !filter_app, filter_cons_True by exact Hd. rewrite !length_app. cbn. lia.
Qed.

Lemma taken_ok now l l1 l2 p e n : loop_ok [] [] l -> p ∈ list_time l -> entries_heap l !! p = Some e ->
  l1 = put_entry p (e <| refCount := n |>) l -> l2 = l1 <| list_time := filter (fun q => q <> p) (list_time l1) |> ->
  time_ok now l -> is_due now l p -> time_ok now l2 /\ (due now l2 < due now l)%nat.
Proof.
  intros Hok Hp Ep E1 E2 Ht Hdue. assert (Hc1 : calm l l1) by (rewrite E1; apply (calm_put p e); [done|done|by left]).
  destruct (Hc1 now Ht) as [Ht1 Hl1]. assert (Ht2 : time_ok now l2) by (rewrite E2; by destruct Ht1). split; [exact Ht2|].
  rewrite E2. enough (due now l1 = S (due now (l1 <| list_time := filter (fun q => q <> p) (list_time l1) |>))) by lia.
  apply due_taken; rewrite E1; [done| |apply (lk_nodup _ _ _ Hok)].
  revert Hdue. unfold is_due, expiry_of. by rewrite put_entry_lookup, Ep.
Qed.

(** After the callback: it is let go, or waits again. *)
Lemma run_time_end_ok l p : loop_ok [] [p; p] l -> p ∉ listed l -> 
  safe (gone ← poll_entry_unref p;
    if gone : bool then lift (Fault UB) else
    e ← entry_load p;
    _ ← lift (ASSERT (0 <? refCount e));
    if negb (permanent e) then
      gone ← poll_entry_unref p;
      lift (ASSERT gone)
    else
      _ ← poll_recalc_expiry p;
      poll_insert_time p) l (fun _ l' => loop_ok [] [] l' /\ calm l l').
Proof.
  intros Hok Hp. destruct (loop_entry _ _ l p Hok) as [e Ep]; [rewrite !elem_of_app, elem_of_cons; tauto|].
  apply safe_then. eapply safe_conseq; [by apply (unref_ok _ _ _ p e Hok)|]. cbv beta. intros gone l1 (Hok1 & E4 & E5 & -> & E6).
  assert (Hp1 : p ∉ listed l1) by (unfold listed; by rewrite E4, E5).
  pose proof (refs_held [] l p). rewrite bool_decide_eq_false_2 in E6 |- * by lia. cbn iota. pose proof (E6 eq_refl) as E1. clear E4 E5 E6.
  assert (Hc1 : calm l l1) by (rewrite E1; apply (calm_put p e); [done|done|by left]).
  apply (safe_conseq _ _ (fun _ l' => loop_ok [] [] l' /\ calm l1 l')); [|intros _ l' [? Hc]; split; [done|exact (calm_trans _ _ _ Hc1 Hc)]].
  set (e1 := e <| refCount := refCount e - 1 |>) in *. assert (Ep1 : entries_heap l1 !! p = Some e1) by (rewrite E1; apply put_entry_lookup).
  clear E1. eapply safe_load; [exact Ep1|]. apply safe_assert. intros _. destruct (negb _).
  - apply safe_then. pose proof (safe_post _ _ _ _ (unref_ok _ _ _ _ _ Hok1 Ep1) (calm_unref p l1)) as Hu.
    eapply safe_conseq; [exact Hu|]. cbv beta. intros g l2 [(Hok2 & _) Hc2]. unfold safe, lift. by destruct g.
  - apply safe_post; [by apply (rearm_ok [] l1 p e1)|]. apply rearm_calm. intros Hx. apply Hp1. unfold listed. rewrite elem_of_app. by left.
Qed.

(** What one timer that has expired does. *)
Definition fired p l l' : Prop := loop_ok [] [] l' /\
  (calls_wait -> forall now, time_ok now l -> is_due now l p -> time_ok now l' /\ (due now l' < due now l)%nat).

Lemma run_time_entry_ok l p : loop_ok [] [] l -> p ∈ list_time l -> safe (run_time_entry call p) l (fun _ l' => fired p l l').
Proof.
  intros Hok Hp. unfold run_time_entry. destruct (loop_entry [] [] l p Hok) as [e Ep]; [by apply time_in|].
  pose proof (lk_time _ _ _ Hok p e Hp Ep) as Hty. assert (Hpd : p ∉ list_device l /\ p ∉ list_free l) by by apply (lk_apart _ _ _ Hok).
  apply safe_then. eapply safe_conseq; [apply (ref_ok [] [] l p e Hok Ep); [tauto| |intros; congruence]|].
  { apply (lk_refs _ _ _ Hok); [by apply time_in|exact Ep]. }
  cbv beta. intros _ l1 [E1 Hok1]. assert (Hp1 : p ∈ list_time l1) by by rewrite E1.
  apply safe_then. eapply safe_conseq; [by apply (dequeue_time_ok _ _ _ _ Hok1)|]. cbv beta. intros _ l2 [E2 Hok2].
  assert (Hn2 : p ∉ listed l2). { rewrite E2, E1. unfold listed. cbn [put_entry set list_time list_device]. rewrite elem_of_app, elem_of_others. tauto. }
  assert (Hd2 : forall now, time_ok now l -> is_due now l p -> time_ok now l2 /\ (due now l2 < due now l)%nat) by (intros now; exact (taken_ok now l l1 l2 p e _ Hok Hp Ep E1 E2)).
  clear E1 E2 Hok1 Hp1. apply safe_then. eapply safe_conseq; [apply (fire_ok _ _ _ p Hok2); left|]. cbv beta. intros _ l3 [[Hok3 Hn3] Hc3].
  assert (Hn : p ∉ listed l3) by (intros Hl; apply Hn2, Hn3; [left|done]).
  apply (safe_conseq _ _ (fun _ l' => loop_ok [] [] l' /\ calm l3 l')).
  2:{ intros _ l' [Hok' Hc']. split; [exact Hok'|]. intros Hw now Ht Hdue. destruct (Hd2 now Ht Hdue) as [Ht2 Hlt].
      destruct (calm_trans _ _ _ (Hc3 Hw) Hc' now Ht2). split; [done|lia]. }
  by apply run_time_end_ok.
Qed.

Lemma run_time_loop_ok fuel now : forall l, loop_ok [] [] l -> safe (run_time_loop call fuel now) l (fun _ l' => loop_ok [] [] l').
Proof.
  induction fuel as [|fuel IH]; intros l Hok; cbn [run_time_loop]; [exact Hok|]. apply safe_then. unfold safe at 1, poll_get_next_expired.
  destruct (list_time l) as [|p ps] eqn:El; [by apply safe_mret|]. assert (Hp : p ∈ list_time l) by (rewrite El; left).
  destruct (loop_entry [] [] l p Hok) as [e Ep]; [by apply time_in|]. rewrite (obj_load_ok _ _ _ Ep). cbn [mbind res_bind].
  destruct (expiry e <=? now); [|destruct (now <? expiry e); [by apply safe_mret|exact I]].
  apply safe_then. eapply safe_conseq; [by apply (run_time_entry_ok l p)|]. cbv beta. intros _ l1 [Hok1 _]. by apply IH.
Qed.

(** As many turns as there are timers due, and one to see that none is left. *)
Lemma run_time_loop_ends fuel now : forall l, calls_wait -> loop_ok [] [] l -> time_ok now l -> (due now l < fuel)%nat ->
  safe (run_time_loop call fuel now) l (fun b l' => b = true /\ loop_ok [] [] l' /\ due now l' = O).
Proof.
  induction fuel as [|fuel IH]; intros l Hw Hok Ht Hlt; [lia|]. cbn [run_time_loop]. apply safe_then. unfold safe at 1, poll_get_next_expired.
  destruct (list_time l) as [|p ps] eqn:El; [apply safe_mret; split_and!; [done..|unfold due; by rewrite El]|].
  assert (Hp : p ∈ list_time l) by (rewrite El; left).
  destruct (loop_entry [] [] l p Hok) as [e Ep]; [by apply time_in|]. rewrite (obj_load_ok _ _ _ Ep). cbn [mbind res_bind].
  assert (Ex : expiry_of (entries_heap l) p = expiry e) by (unfold expiry_of; by rewrite Ep).
  destruct (Z.leb_spec (expiry e) now) as [Hle|Hgt].
  - apply safe_then. eapply safe_conseq; [by apply (run_time_entry_ok l p)|]. cbv beta. intros _ l1 [Hok1 Hd1].
    destruct (Hd1 Hw now Ht) as [Ht1 Hlt1]; [unfold is_due; lia|]. apply IH; [done..|lia].
  - rewrite (proj2 (Z.ltb_lt _ _) Hgt). cbn [ASSERT mbind res_bind]. split; [done|]. split; [exact Hok|].
    pose proof (lk_order _ _ _ Hok) as Ho. unfold due. rewrite El in Ho |- *. inversion_clear Ho as [|? ? _ Hf].
    destruct (filter _ _) as [|q qs] eqn:Eq; [done|]. exfalso.
    assert (Hq : q ∈ filter (is_due now l) (p :: ps)) by (rewrite Eq; left). apply list_elem_of_filter in Hq as [Hq Hin]. unfold is_due in Hq.
    apply elem_of_cons in Hin as [->|Hin]; [lia|]. pose proof (proj1 (Forall_forall _ _) Hf q Hin). cbv beta in *. lia.
Qed.

(** ** The queue of descriptors *)

Lemma held_perm c held held' l : held ≡ₚ held' -> loop_ok c held l -> loop_ok c held' l.
Proof.
  intros Hp [Hn Ha Hh Hf Ht Hd Hr Hm Hq Ho].
  assert (Hin : forall q, q ∈ held' <-> q ∈ held) by (intros q; by rewrite Hp).
  assert (Hti : forall q, times q held' = times q held) by (intros q; unfold times, Zlen; by rewrite Hp).
  split; try assumption; unfold refs in *.
  - intros q Hx. apply Hh. rewrite !elem_of_app, Hin in *. exact Hx.
  - intros q Hx. apply Hf. by apply Hin.
  - intros q e Hx E. rewrite Hti. apply Hr; [|exact E]. rewrite !elem_of_app, Hin in *. exact Hx.
  - intros q e Hx. apply Hq. by apply Hin.
Qed.

(** Every device has its slot in the array. *)
Definition slots_ok l : Prop := forall p e, p ∈ list_device l -> entries_heap l !! p = Some e -> 0 <= idx e < Zlen (poll_fds l).

Lemma fill_fds_ok (ps : list positive) : forall n l, loop_ok [] [] l -> (forall p, p ∈ ps -> p ∈ list_device l) -> 0 <= n ->
  safe (fill_fds ps n) l (fun r l' => loop_ok [] [] l' /\ list_device l' = list_device l /\ Zlen r = Zlen ps /\
    (forall p, p ∉ ps -> entries_heap l' !! p = entries_heap l !! p) /\
    (forall p e, p ∈ ps -> entries_heap l' !! p = Some e -> 0 <= idx e < n + Zlen ps)).
Proof.
  induction ps as [|p ps IH]; intros n l Hok Hin Hn; cbn [fill_fds]; [apply safe_mret; split_and!; try done; by intros ? ? ?%elem_of_nil|].
  assert (Hp : p ∈ list_device l) by (apply Hin; left).
  destruct (loop_entry [] [] l p Hok) as [e Ep]; [by apply device_in|]. eapply safe_load; [exact Ep|]. apply safe_assert. intros _.
  apply safe_then. unfold safe at 1, gets. apply safe_assert. intros _. eapply safe_on_entry; [exact Ep|]. set (e1 := e <| idx := n |>).
  assert (Hok1 : loop_ok [] [] (put_entry p e1 l)).
  { apply (entry_ok [] [] [] l p e); try done; [by intros Hp'; apply (lk_refs _ _ _ Hok p e)|by intros ?%elem_of_nil..]. }
  apply safe_then. eapply safe_conseq; [apply (IH (n + 1) _ Hok1); [intros q Hq; apply Hin; by right|lia]|]. cbv beta.
  intros r l2 (Hok2 & E2 & Er & Hout & Hidx). apply safe_mret. split; [exact Hok2|]. split; [exact E2|]. split; [zlen; lia|]. split.
  - intros q [Hne Hq]%not_elem_of_cons. rewrite Hout by done. by apply lookup_insert_ne.
  - pose proof (Zlen_nonneg ps). intros q e0 Hq E0. rewrite Zlen_cons. destruct (decide (q ∈ ps)) as [Hqs|Hqs]; [pose proof (Hidx q e0 Hqs E0); lia|].
    apply elem_of_cons in Hq as [->|?]; [|done]. rewrite Hout, put_entry_lookup in E0 by done. injection E0 as <-. cbn. lia.
Qed.

Lemma poll_sys_ok deadline (fds : list pollfd) os : forall l,
  safe (poll_sys deadline fds os) l (fun r l' => same_entries l l' /\ Zlen r = Zlen fds).
Proof.
  induction os as [|o os IH]; intros l; cbn [poll_sys]; apply safe_then; unfold safe at 1, time_now; apply safe_then; unfold safe at 1, on_loop.
  - apply safe_mret. split; [done|]. unfold Zlen. by rewrite length_map.
  - destruct o; [|exact I|apply safe_mret; split; [done|unfold Zlen; by rewrite length_map]].
    eapply safe_conseq; [apply IH|]. cbv beta. intros r l' [Hs Hl]. by split.
Qed.

Lemma device_poll_ok deadline l : loop_ok [] [] l -> safe (poll_device_poll deadline) l (fun _ l' => loop_ok [] [] l' /\ slots_ok l').
Proof.
  intros Hok. unfold poll_device_poll. apply safe_then. unfold safe at 1.
  pose proof (fill_fds_ok (list_device l) 0 l Hok (fun p Hp => Hp) (Z.le_refl 0)) as Hf. unfold safe in Hf.
  destruct (fill_fds _ 0 l) as [[fds l1]|[]]; [|done|done]. destruct Hf as (Hok1 & E1 & Er & _ & Hidx). apply safe_then. unfold safe at 1.
  pose proof (poll_sys_ok deadline fds (outcomes l1) l1) as Hs. unfold safe in Hs.
  destruct (poll_sys _ _ _ l1) as [[r l2]|[]]; [|done|done]. destruct Hs as [Hs El].
  unfold safe, on_loop. split; [apply (same_ok [] [] l1); [by destruct Hs as (? & ? & ? & ? & ?)|done]|].
  destruct Hs as (S1 & _ & S3 & _). intros p e Hp E. cbn [set list_device entries_heap poll_fds] in *. rewrite S3, E1 in Hp. rewrite S1 in E.
  pose proof (Hidx p e Hp E). lia.
Qed.

Lemma active_ok (ps : list positive) : forall held l, loop_ok [] held l -> slots_ok l -> (forall p, p ∈ ps -> p ∈ list_device l) -> NoDup ps ->
  safe (active_entries ps) l (fun r l' => loop_ok [] (r ++ held) l' /\ NoDup r /\ forall p, p ∈ r -> p ∈ ps).
Proof.
  induction ps as [|p ps IH]; intros held l Hok Hs Hin Hnd; cbn [active_entries]; [by apply safe_mret|]. apply NoDup_cons in Hnd as [Hps Hnd].
  assert (Hp : p ∈ list_device l) by (apply Hin; left).
  destruct (loop_entry [] held l p Hok) as [e Ep]; [by apply device_in|]. eapply safe_load; [exact Ep|]. apply safe_assert. intros _.
  apply safe_then. unfold safe at 1, poll_entry_active. destruct (wrap64 (idx e) <? poll_max_fds l); [|exact I]. cbn [ASSERT mbind res_bind].
  destruct (Hs p e Hp Ep) as [Hlo Hhi]. apply Z.ltb_ge in Hlo. rewrite Hlo. apply Z.ltb_ge in Hlo.
  destruct (lookup_lt_is_Some_2 (poll_fds l) (Z.to_nat (idx e))) as [f Ef]; [unfold Zlen in Hhi; lia|]. rewrite Ef.
  destruct (pf_fd f =? fd e); [|exact I]. cbn [ASSERT mbind res_bind].
  destruct (_ || _); [|eapply safe_conseq; [apply IH; try done; intros q Hq; apply Hin; by right|];
    cbv beta; intros r l' (? & ? & Hr); split_and!; try done; intros q Hq; right; by apply Hr].
  apply safe_then. eapply safe_conseq; [apply (ref_ok [] held l p e Hok Ep); [|by apply (lk_refs _ _ _ Hok); [apply device_in|]|by left]|].
  { by apply (lk_apart _ _ _ Hok). }
  cbv beta. intros _ l1 [E1 Hok1]. apply safe_then. eapply safe_conseq.
  { apply (IH (p :: held) l1 Hok1); [|rewrite E1; intros q Hq; apply Hin; by right|exact Hnd].
    rewrite E1. intros q e0 Hq. cbn [put_entry set list_device entries_heap poll_fds] in *. rewrite lookup_insert_Some. intros [[<- <-]|[_ E0]]; [exact (Hs p e Hp Ep)|by apply (Hs q)]. }
  cbv beta. intros r l2 (Hok2 & Hndr & Hr). apply safe_mret. split; [|split; [apply NoDup_cons; split; [by intros Hx; apply Hps, Hr|done]|]].
  - apply (held_perm _ (r ++ p :: held)); [|exact Hok2]. symmetry. apply Permutation_middle.
  - intros q [->|Hq]%elem_of_cons; [by left|right; by apply Hr].
Qed.

(** A device that is to fire once leaves the table and the list first. *)
Lemma retire_ok queue l p e : loop_ok [] (p :: queue) l -> entries_heap l !! p = Some e -> queued e = true ->
  safe (_ ← poll_entry_remove_from_hashtable p; _ ← dequeue_device p; gone ← poll_entry_unref p; lift (ASSERT (negb gone))) l
    (fun _ l' => loop_ok [p] (p :: queue) l').
Proof.
  intros Hok Ep Hq. destruct (decide (type e = POLL_CB_DEVICE)) as [Hty|Hty].
  - destruct (lk_queued _ _ _ Hok p e) as [Hp|Hx]; [left|done..| |by apply elem_of_nil in Hx].
    pose proof (dequeue_device_ok [p] (p :: queue) l p e (more_cur [] p _ l Hok) Hp Ep (or_intror (list_elem_of_here _ _))) as Hd.
    unfold safe, mbind, st_bind in Hd |- *. destruct (poll_entry_remove_from_hashtable p l) as [[[] l1]|[]]; [|done|done].
    destruct (dequeue_device p l1) as [[[] l2]|[]]; [|done|done]. destruct Hd as (E2 & Hok2 & _).
    assert (Ep2 : entries_heap l2 !! p = Some e) by (by rewrite E2).
    pose proof (unref_ok _ _ _ p e Hok2 Ep2) as Hu. unfold safe in Hu. destruct (poll_entry_unref p l2) as [[g l3]|[]]; [|done|done].
    destruct Hu as (Hok3 & _). unfold lift. destruct g; cbn; done.
  - unfold safe, mbind, st_bind, poll_entry_remove_from_hashtable, poll_get_device_key_from_entry. rewrite (obj_load_ok _ _ _ Ep).
    cbn [mbind res_bind]. by rewrite (bool_decide_eq_false_2 _ Hty).
Qed.

Lemma fire_one_ok queue l p e : loop_ok [] (p :: queue) l -> p ∉ queue -> entries_heap l !! p = Some e ->
  safe (_ ← (if queued e then
             _ ← (if negb (permanent e) then
                    _ ← poll_entry_remove_from_hashtable p;
                    _ ← dequeue_device p;
                    gone ← poll_entry_unref p;
                    lift (ASSERT (negb gone))
                  else mret tt);
             poll_entry_fire call p
           else mret tt); poll_entry_unref p) l (fun _ l' => loop_ok [] queue l').
Proof.
  intros Hok Hp Ep.
  assert (Hend : forall l', loop_ok [p] (p :: queue) l' -> safe (poll_entry_unref p) l' (fun _ l'' => loop_ok [] queue l'')).
  { intros l' Hok'. destruct (loop_entry _ _ l' p Hok') as [e' Ep']; [rewrite !elem_of_app, elem_of_cons; tauto|].
    eapply safe_conseq; [by apply (unref_ok [p] queue l' p e')|]. cbv beta. intros _ l'' (Hok'' & _). by apply (less_cur [] p). }
  apply safe_then. eapply (safe_conseq _ _ (fun _ l' => loop_ok [p] (p :: queue) l')); [|by intros [] l' Hl'; apply Hend].
  destruct (queued e) eqn:Hq; [|by apply safe_mret, more_cur]. apply safe_then.
  eapply (safe_conseq _ _ (fun _ l' => loop_ok [p] (p :: queue) l')).
  - destruct (permanent e); [by apply safe_mret, more_cur|by eapply retire_ok].
  - cbv beta. intros _ l1 Hok1. eapply safe_conseq; [apply (fire_ok _ _ _ p Hok1); left|]. cbv beta. by intros _ l2 [[Hok2 _] _].
Qed.

Lemma fire_entries_ok queue : forall l, loop_ok [] queue l -> NoDup queue -> safe (fire_entries call queue) l (fun _ l' => loop_ok [] [] l').
Proof.
  induction queue as [|p queue IH]; intros l Hok Hnd; cbn [fire_entries]; [by apply safe_mret|]. apply NoDup_cons in Hnd as [Hp Hnd].
  destruct (loop_entry _ _ l p Hok) as [e Ep]; [rewrite !elem_of_app, elem_of_cons; tauto|]. eapply safe_load; [exact Ep|].
  apply (safe_assoc _ (fun _ => poll_entry_unref p) (fun _ => fire_entries call queue)). apply safe_then.
  eapply safe_conseq; [by apply (fire_one_ok queue l p e)|]. cbv beta. intros g l2 Hok2. by apply IH.
Qed.

Lemma run_device_queue_ok l : loop_ok [] [] l -> slots_ok l -> safe (poll_run_device_queue call) l (fun _ l' => loop_ok [] [] l').
Proof.
  intros Hok Hs. unfold poll_run_device_queue. apply safe_then. unfold safe at 1.
  pose proof (active_ok (list_device l) [] l Hok Hs (fun p Hp => Hp)) as Ha. unfold safe in Ha.
  destruct (active_entries _ l) as [[queue l1]|[]]; [|apply Ha, (lk_nodup _ _ _ Hok)..].
  destruct Ha as (Hok1 & Hnd & _); [apply (lk_nodup _ _ _ Hok)|]. rewrite app_nil_r in Hok1. by apply fire_entries_ok.
Qed.

(** ** The loop *)

Lemma runloop_ok fuel rounds : forall l, loop_ok [] [] l -> safe (poll_runloop call exiting fuel rounds) l (fun _ l' => loop_ok [] [] l').
Proof.
  induction rounds as [|rounds IH]; intros l Hok; cbn [poll_runloop]; [by apply safe_mret|]. apply safe_then.
  eapply (safe_conseq _ _ (fun _ l' => loop_ok [] [] l')).
  { unfold poll_run_time_queue. apply safe_then. unfold safe at 1, time_now. apply run_time_loop_ok. by apply (same_ok [] [] l). }
  cbv beta. clear l Hok. intros ok l Hok. destruct (negb ok); [by apply safe_mret|]. apply safe_then. unfold safe at 1, gets.
  destruct (exiting _); [by apply safe_mret|]. apply safe_then.
  assert (Hx : exists x, poll_get_next_expiry l = Ok (x, l)).
  { unfold poll_get_next_expiry. destruct (list_time l) as [|p ps] eqn:El; [by eexists|].
    destruct (loop_entry _ _ l p Hok) as [e Ep]; [apply time_in; rewrite El; left|]. rewrite (obj_load_ok _ _ _ Ep). by eexists. }
  destruct Hx as [x Ex]. unfold safe at 1. rewrite Ex. apply safe_then. eapply safe_conseq; [by apply device_poll_ok|]. cbv beta.
  intros _ l1 [Hok1 Hs1]. apply safe_then. unfold safe at 1, gets. destruct (exiting _); [by apply safe_mret|]. apply safe_then.
  eapply safe_conseq; [by apply run_device_queue_ok|]. cbv beta. intros _ l2 Hok2. apply safe_then. unfold safe at 1, gets.
  destruct (exiting _); [by apply safe_mret|]. by apply IH.
Qed.

Lemma create_loop_ok max_fds clock os (u : U) : exists l, poll_create max_fds clock os u = Ok l /\ loop_ok [] [] l.
Proof.
  destruct t_create_ok as (h & Eh & Hh). unfold poll_create. rewrite Eh. eexists. split; [reflexivity|].
  split; unfold listed; cbn; try (by intros ? ?%elem_of_nil); try (by intros ? ? ?%elem_of_nil); try done.
  - split_and!; apply NoDup_nil_2.
  - intros p. split; by intros ?%elem_of_nil.
  - exists ∅. split; [exact Hh|]. intros k p. rewrite lookup_empty. split; [done|]. by intros [?%elem_of_nil _].
  - constructor.
Qed.

(** C6: the loop never follows the pointer of an entry that is gone, takes from a
    list what is not on it, or reads past the array of descriptors, whatever its
    callbacks register and remove, in whatever order the timers expire and the
    descriptors are ready: it stops on an assertion or keeps its invariant. *)
Theorem poll_loop_safe max_fds clock os (u : U) (start : poll_prog U) fuel rounds : prog_ok start ->
  match (l ← poll_create max_fds clock os u; (_ ← run_prog start; poll_runloop call exiting fuel rounds) l) with
  | Ok (_, l) => loop_ok [] [] l
  | Fault f => f = Panic
  end.
Proof.
  intros Hst. destruct (create_loop_ok max_fds clock os u) as (l & -> & Hok). cbn [mbind res_bind].
  pose proof (run_prog_ok [] [] start l Hok Hst) as Hr. unfold safe, mbind, st_bind in Hr |- *.
  destruct (run_prog start l) as [[[] l1]|[]]; [|done|done]. pose proof (runloop_ok fuel rounds l1 (proj1 (proj1 Hr))) as Hl. unfold safe in Hl.
  by destruct (poll_runloop _ _ _ _ l1) as [[b l2]|[]].
Qed.

(** C7: the queue of timers is run in as many turns as there are timers due, when the
    clock does not go back and every timer, those the callbacks set included,
    waits for some time: then none of those left is due. *)
Theorem timers_end max_fds clock os (u : U) (start : poll_prog U) fuel : prog_ok start -> prog_waits start -> calls_wait ->
  (forall n m, (n <= m)%nat -> 0 <= clock n <= clock m /\ clock m < 2 ^ 62) ->
  match (l ← poll_create max_fds clock os u; run_prog start l) with
  | Ok (_, l) => (due (pl_clock l (pl_ticks l)) l < fuel)%nat ->
      match poll_run_time_queue call fuel l with
      | Ok (b, l') => b = true /\ forall p e, p ∈ list_time l' -> entries_heap l' !! p = Some e -> pl_clock l (pl_ticks l) < expiry e
      | Fault f => f = Panic
      end
  | Fault f => f = Panic
  end.
Proof.
  intros Hst Hsw Hw Hclock. destruct (create_loop_ok max_fds clock os u) as (l & El & Hok). rewrite El. cbn [mbind res_bind].
  pose proof (run_prog_ok [] [] start l Hok Hst) as Hr. unfold safe in Hr. destruct (run_prog start l) as [[[] l1]|[]]; [|done|done].
  destruct Hr as [[Hok1 _] Hc1]. assert (Ht0 : time_ok (clock O) l).
  { unfold poll_create in El. destruct t_create as [h|]; [|done]. injection El as <-. by split. }
  destruct (Hc1 Hsw _ Ht0) as [[Hc _ Hd] _]. set (now := pl_clock l1 (pl_ticks l1)). intros Hlt.
  unfold poll_run_time_queue, mbind, st_bind, time_now. fold now.
  set (l2 := l1 <| pl_ticks ::= S |>). assert (Hok2 : loop_ok [] [] l2) by (by apply (same_ok [] [] l1)).
  assert (Ht2 : time_ok now l2) by (split; [exact Hc|exact (proj2 (proj1 (Hc _ _ (le_S _ _ (le_n _)))))|exact Hd]).
  pose proof (run_time_loop_ends fuel now l2 Hw Hok2 Ht2 Hlt) as He. unfold safe in He.
  destruct (run_time_loop _ _ _ l2) as [[b l3]|[]]; [|done|done]. destruct He as (-> & Hok3 & Hd3). split; [done|].
  intros p e Hp Ep. assert (Hnd : ~ is_due now l3 p).
  { intros Hdue. unfold due in Hd3. apply length_zero_iff_nil in Hd3. by apply (filter_nil_not_elem_of _ _ p Hd3 Hdue). }
  unfold is_due, expiry_of in Hnd. rewrite Ep in Hnd. cbn in Hnd. lia.
Qed.
End safe.

(** A timer that goes on, one that goes once and waits for the descriptor 7, the
    descriptor 8, and 7 which puts an end to 8. *)
Definition demo_call (cb cbData : Z) (u : list Z) : poll_prog (list Z) :=
  if cb =? 1 then PCmd (CmdDevice 7 true false false 3 cbData) (fun _ => PDone (cb :: u))
  else if cb =? 3 then PCmd (CmdDeviceRemove 8 true false true 4 0) (fun b => PCmd (CmdTime 20 true 5 0) (fun _ => PDone (Z.b2z b + 30 :: u)))
  else PDone (cb :: u).
Definition demo_start : poll_prog (list Z) :=
  PCmd (CmdTime 10 true 2 0) (fun _ => PCmd (CmdTime 5 false 1 0) (fun _ => PCmd (CmdDevice 8 true false true 4 0) (fun _ => PDone []))).
Definition demo_exit (u : list Z) : bool := 9 <? Zlen u.
Definition demo_clock (n : nat) : Z := 10 * Z.min (Z.of_nat n) 1000.
Definition demo_outcomes : list poll_outcome := [PollEintr; PollReady (fun _ => true) (fun _ => false); PollReady (fun _ => true) (fun _ => false)].

Lemma demo_ok cb d u : prog_ok (demo_call cb d u).
Proof. unfold demo_call. repeat case_match; cbn; unfold FD_LIMIT; try split; try lia; done. Qed.
Lemma demo_waits cb d u : prog_waits (demo_call cb d u).
Proof. unfold demo_call, waits. repeat case_match; cbn; unfold waits; try split; try lia; done. Qed.

(** Each of them called, in the order of their expiry, 8 gone when 7 asked. *)
Lemma poll_loop_safe_witness :
  match (l ← poll_create 100 demo_clock demo_outcomes []; (_ ← run_prog demo_start; poll_runloop demo_call demo_exit 50 20) l) with
  | Ok (b, l) => loop_ok [] [] l /\ (b, user l, Zlen (list_time l), list_device l, Zlen (list_free l)) = (true, [2; 5; 2; 5; 2; 5; 2; 31; 4; 1; 2], 2, [], 2)
  | Fault _ => False
  end.
Proof.
  assert (Hst : prog_ok demo_start) by (cbn; unfold FD_LIMIT; repeat split; lia).
  pose proof (poll_loop_safe demo_call demo_exit demo_ok 100 demo_clock demo_outcomes [] demo_start 50 20 Hst) as Hs.
  assert (E : match (l ← poll_create 100 demo_clock demo_outcomes []; (_ ← run_prog demo_start; poll_runloop demo_call demo_exit 50 20) l) with
    | Ok (b, l) => (b, user l, Zlen (list_time l), list_device l, Zlen (list_free l)) = (true, [2; 5; 2; 5; 2; 5; 2; 31; 4; 1; 2], 2, [], 2)
    | Fault _ => False end) by (vm_compute; exact eq_refl).
  revert Hs E. generalize (l ← poll_create 100 demo_clock demo_outcomes []; (_ ← run_prog demo_start; poll_runloop demo_call demo_exit 50 20) l).
  intros [[b l]|f] Hs E; [exact (conj Hs E)|exact E].
Defined.

Lemma timers_end_witness :
  match (l ← poll_create 100 demo_clock demo_outcomes []; run_prog demo_start l) with
  | Ok (_, l) => due (pl_clock l (pl_ticks l)) l = 2%nat /\
      match poll_run_time_queue demo_call 3 l with
      | Ok (b, l') => b = true /\ Zlen (list_time l') = 1 /\
          (forall p e, p ∈ list_time l' -> entries_heap l' !! p = Some e -> pl_clock l (pl_ticks l) < expiry e)
      | Fault _ => False
      end
  | Fault _ => False
  end.
Proof.
  assert (Hst : prog_ok demo_start) by (cbn; unfold FD_LIMIT; repeat split; lia).
  assert (Hsw : prog_waits demo_start) by (cbn; unfold waits; repeat split; lia).
  assert (Hc : forall n m, (n <= m)%nat -> 0 <= demo_clock n <= demo_clock m /\ demo_clock m < 2 ^ 62) by (intros n m Hn; unfold demo_clock; lia).
  pose proof (timers_end demo_call demo_ok 100 demo_clock demo_outcomes [] demo_start 3 Hst Hsw demo_waits Hc) as Hs.
  assert (E : match (l ← poll_create 100 demo_clock demo_outcomes []; run_prog demo_start l) with
    | Ok (_, l) => due (pl_clock l (pl_ticks l)) l = 2%nat /\
        match poll_run_time_queue demo_call 3 l with Ok (_, l') => Zlen (list_time l') = 1 | Fault _ => False end
    | Fault _ => False end) by (vm_compute; exact (conj eq_refl eq_refl)).
  revert Hs E. generalize (l ← poll_create 100 demo_clock demo_outcomes []; run_prog demo_start l).
  intros [[u l]|f]; [|intros _ E; exact E]. intros Hs [Ed E]. split; [exact Ed|]. assert (Hd : (due (pl_clock l (pl_ticks l)) l < 3)%nat) by (rewrite Ed; lia).
  specialize (Hs Hd). revert Hs E. generalize (poll_run_time_queue demo_call 3 l). intros [[b l']|f] Hs E; [|exact E].
  destruct Hs as [Hb Hp]. exact (conj Hb (conj E Hp)).
Defined.
