(* ===== verification/Netasync.v ===== *)
(** * One socket of the network (lib/netasync/netasync.c)

    A socket that connects, directly or through a SOCKS proxy, sends from a queue
    of buffers and fills a buffer it receives into. The buffers to send are a
    linked list of objects, with a pointer to the pointer at its end. *)
From S2P Require Export Records Errno Objects.

(** The functions of the program and their arguments are numbers. *)
Inductive send_callback : Type := SendSocks | SendUser (callback clientData : Z).
Inductive recv_callback : Type := RecvSocks | RecvUser (callback clientData : Z).
#[export] Instance send_callback_eq_dec : EqDecision send_callback.
Proof. solve_decision. Defined.
#[export] Instance recv_callback_eq_dec : EqDecision recv_callback.
Proof. solve_decision. Defined.

(** [struct netasync_send_ctx]: what is left to write are the [len] bytes of
    [buf_orig] from [buf] on. *)
Record netasync_send_ctx : Type := SendCtx {
  buf_orig : list byte; buf : Z; len : Z; callback : send_callback; next : option positive }.
#[export] Instance netasync_send_ctx_eta : Eta netasync_send_ctx := fun r =>
  SendCtx (buf_orig r) (buf r) (len r) (callback r) (next r).

Inductive SocksState : Set :=
| SOCKS_INIT | SOCKS_CONNECTING_PROXY | SOCKS_CONNECTED_PROXY_RECV | SOCKS_CONNECTED_PROXY
| SOCKS_CONNECTED_REMOTE | SOCKS_CONNECTED_REMOTE_RECV | SOCKS_CONNECTED_OK.
Definition socks_next (s : SocksState) : SocksState :=
  match s with
  | SOCKS_INIT => SOCKS_CONNECTING_PROXY
  | SOCKS_CONNECTING_PROXY => SOCKS_CONNECTED_PROXY_RECV
  | SOCKS_CONNECTED_PROXY_RECV => SOCKS_CONNECTED_PROXY
  | SOCKS_CONNECTED_PROXY => SOCKS_CONNECTED_REMOTE
  | SOCKS_CONNECTED_REMOTE => SOCKS_CONNECTED_REMOTE_RECV
  | _ => SOCKS_CONNECTED_OK
  end.

(** [struct sockaddr_in]: the address and the port, as the bytes that go over the
    network. *)
Record sockaddr_in : Type := SockAddr { sin_addr : list byte; sin_port : list byte }.

(** [recvd] is what the buffer of [recvBufLen] bytes has received; the buffer is
    [socksRecvBuf] when the callback is that of the proxy. [sendCtxTail] is [None]
    when it points to [sendCtxList], else it points to the [next] of an entry. *)
Record netasync_socket : Type := Socket {
  fd : Z; err : Z; connectCb : option (Z * Z); connect_timeout : bool; connect_async : bool; bound : bool;
  useSocks5 : bool; socksRecvBuf : list byte; socksAddr : sockaddr_in; socks_state : SocksState;
  errorCb : option (Z * Z); recvBufLen : Z; recvd : list byte; recvCb : option recv_callback; recvPartial : bool;
  sendCtxList : option positive; sendCtxTail : option positive }.
#[export] Instance netasync_socket_eta : Eta netasync_socket := fun r =>
  Socket (fd r) (err r) (connectCb r) (connect_timeout r) (connect_async r) (bound r)
    (useSocks5 r) (socksRecvBuf r) (socksAddr r) (socks_state r)
    (errorCb r) (recvBufLen r) (recvd r) (recvCb r) (recvPartial r) (sendCtxList r) (sendCtxTail r).

(** What the system calls give, in their order, then what is said here. socket():
    a descriptor or an error (the descriptor 3); fcntl() and setsockopt(): an error
    or 0 (0); connect(): an error or 0 ([EINPROGRESS]); getaddrinfo(): an address
    or nothing (nothing); SO_ERROR: an error or 0 (0); write(): a count or an error
    ([EAGAIN]); read(): bytes, none at the end, or an error ([EAGAIN]). *)
Record net_system : Type := System {
  sockets : list (Z + Z); nonblocks : list Z; connects : list Z; resolves : list (option sockaddr_in);
  so_errors : list Z; writes : list (Z + Z); reads : list (list byte + Z) }.
#[export] Instance net_system_eta : Eta net_system := fun r =>
  System (sockets r) (nonblocks r) (connects r) (resolves r) (so_errors r) (writes r) (reads r).

(** What the loop is to call when the descriptor can be written or read. *)
Inductive device_callback : Set := CbConnected | CbSendReady | CbReceive | CbAccept.
#[export] Instance device_callback_eq_dec : EqDecision device_callback.
Proof. solve_decision. Defined.

(** What the socket calls in the program, which then acts on the socket. *)
Inductive user_call : Type :=
| UserConnected (callback clientData err : Z)
| UserError (callback clientData err : Z)
| UserSent (callback clientData err : Z)
| UserReceived (callback clientData : Z) (buf : list byte).
Inductive net_prog (U : Type) : Type :=
| NDone (u : U)
| NPanic
| NSend (buf : list byte) (callback clientData : Z) (k : Z -> net_prog U)
| NReceive (len : Z) (partial : bool) (callback clientData : Z) (k : net_prog U)
| NClose (k : net_prog U).
Arguments NDone {U} u.
Arguments NPanic {U}.
Arguments NSend {U} buf callback clientData k.
Arguments NReceive {U} len partial callback clientData k.
Arguments NClose {U} k.

Section netasync.
Context {U : Type} (user : user_call -> U -> net_prog U).

(** [the_sock] is [None] when the socket was freed. [writable], [readable] and
    [timer] are what the loop of Poll.v has for this descriptor; [sends] is the
    static counter of [netasync_send_ctx], [wire] what was written. *)
Record net : Type := Net {
  the_sock : option netasync_socket; ctxs : gmap positive netasync_send_ctx;
  writable : option device_callback; readable : option device_callback; timer : bool;
  sends : Z; wire : list byte; sys : net_system; prog_state : U }.
#[export] Instance net_eta : Eta net := fun r =>
  Net (the_sock r) (ctxs r) (writable r) (readable r) (timer r) (sends r) (wire r) (sys r) (prog_state r).

Definition sock_load : ST net netasync_socket := fun n =>
  match the_sock n with Some s => Ok (s, n) | None => Fault UB end.
Definition on_sock (f : netasync_socket -> netasync_socket) : ST net unit := fun n =>
  match the_sock n with Some s => Ok (tt, n <| the_sock := Some (f s) |>) | None => Fault UB end.
Definition on_net (f : net -> net) : ST net unit := fun n => Ok (tt, f n).
Definition ctx_load (p : positive) : ST net netasync_send_ctx := fun n => c ← obj_load (ctxs n) p; Ok (c, n).
Definition ctx_store (p : positive) (c : netasync_send_ctx) : ST net unit := fun n =>
  _ ← obj_load (ctxs n) p; Ok (tt, n <| ctxs := <[p := c]> (ctxs n) |>).
(** [free]: it must be there. *)
Definition ctx_free (p : positive) : ST net unit := fun n =>
  _ ← obj_load (ctxs n) p; Ok (tt, n <| ctxs := delete p (ctxs n) |>).

(** The next answer of the system. *)
Definition answer {A} (list_of : net_system -> list A) (rest : list A -> net_system -> net_system) (default : A) : ST net A := fun n =>
  match list_of (sys n) with
  | [] => Ok (default, n)
  | a :: l => Ok (a, n <| sys := rest l (sys n) |>)
  end.

(** ** The event loop, for one descriptor *)

(** [poll_callback_device] stops when there is a callback already;
    [poll_callback_device_remove] when the callback is another one. *)
Definition register_writable (cb : device_callback) : ST net unit := fun n =>
  match writable n with None => Ok (tt, n <| writable := Some cb |>) | Some _ => Fault Panic end.
Definition register_readable (cb : device_callback) : ST net unit := fun n =>
  match readable n with None => Ok (tt, n <| readable := Some cb |>) | Some _ => Fault Panic end.
Definition remove_writable (cb : device_callback) : ST net bool := fun n =>
  match writable n with
  | None => Ok (false, n)
  | Some cb' => _ ← ASSERT (bool_decide (cb' = cb)); Ok (true, n <| writable := None |>)
  end.
Definition remove_readable (cb : device_callback) : ST net bool := fun n =>
  match readable n with
  | None => Ok (false, n)
  | Some cb' => _ ← ASSERT (bool_decide (cb' = cb)); Ok (true, n <| readable := None |>)
  end.
Definition remove_timer : ST net bool := fun n => Ok (timer n, n <| timer := false |>).

(** ** Stopping *)

Definition netasync_timeout_stop : ST net unit :=
  s ← sock_load;
  _ ← lift (ASSERT (connect_timeout s));
  r ← remove_timer;
  _ ← lift (ASSERT r);
  on_sock (fun s => s <| connect_timeout := false |>).
Definition netasync_connect_stop : ST net unit :=
  r ← remove_writable CbConnected;
  _ ← lift (ASSERT r);
  on_sock (fun s => s <| connect_async := false |>).
Definition netasync_send_stop : ST net unit := _ ← remove_writable CbSendReady; mret tt.
Definition netasync_receive_stop : ST net unit := _ ← remove_readable CbReceive; mret tt.
Definition netasync_receive_reset : ST net unit :=
  on_sock (fun s => s <| recvBufLen := 0 |> <| recvd := [] |> <| recvCb := None |> <| recvPartial := false |>).
Definition netasync_listen_stop : ST net unit :=
  s ← sock_load;
  _ ← lift (ASSERT (bound s));
  r ← remove_readable CbAccept;
  lift (ASSERT r).

(** ** Sending and receiving *)

(** [ *sock->sendCtxTail = ctx ]. *)
Definition tail_store (p : option positive) : ST net unit :=
  s ← sock_load;
  match sendCtxTail s with
  | None => on_sock (fun s => s <| sendCtxList := p |>)
  | Some q => c ← ctx_load q; ctx_store q (c <| next := p |>)
  end.
Definition netasync_send (data : list byte) (cb : send_callback) : ST net Z :=
  s ← sock_load;
  _ ← lift (ASSERT (negb (connect_async s)));
  _ ← lift (ASSERT (err s =? 0));
  p ← (fun n => let p := obj_new (ctxs n) in Ok (p, n <| ctxs := <[p := SendCtx data 0 (Zlen data) cb None]> (ctxs n) |>));
  let newSend := bool_decide (sendCtxList s = None) in
  _ ← tail_store (Some p);
  _ ← on_sock (fun s => s <| sendCtxTail := Some p |>);
  _ ← (if newSend then register_writable CbSendReady else mret tt);
  s ← sock_load;
  mret (err s).

Definition netasync_receive (n : Z) (partial : bool) (cb : recv_callback) : ST net unit :=
  s ← sock_load;
  _ ← lift (ASSERT (err s =? 0));
  _ ← lift (ASSERT (bool_decide (recvCb s = None)));
  _ ← lift (ASSERT (recvBufLen s =? 0));
  _ ← lift (ASSERT (0 <? n));
  _ ← on_sock (fun s => s <| recvBufLen := n |> <| recvd := [] |> <| recvCb := Some cb |> <| recvPartial := partial |>);
  register_readable CbReceive.

(** The buffers that were not sent. *)
Fixpoint free_send_buf_loop (fuel : nat) (ctx : option positive) : ST net unit :=
  match fuel, ctx with
  | _, None => mret tt
  | O, Some _ => lift (Fault UB)
  | S fuel, Some p => c ← ctx_load p; _ ← ctx_free p; free_send_buf_loop fuel (next c)
  end.
Definition netasync_free_send_buf : ST net unit :=
  s ← sock_load;
  n ← (fun n : net => Ok (size (ctxs n), n));
  free_send_buf_loop (S n) (sendCtxList s).

Definition close_part (c : bool) (m : ST net unit) : ST net unit := if c then m else mret tt.
Definition netasync_close : ST net unit :=
  s ← sock_load; _ ← close_part (bound s) netasync_listen_stop;
  s ← sock_load; _ ← close_part (negb (bool_decide (sendCtxList s = None))) (_ ← netasync_free_send_buf; netasync_send_stop);
  s ← sock_load; _ ← close_part (connect_timeout s) netasync_timeout_stop;
  s ← sock_load; _ ← close_part (connect_async s) netasync_connect_stop;
  s ← sock_load; _ ← close_part (negb (bool_decide (recvCb s = None))) (_ ← netasync_receive_stop; netasync_receive_reset);
  on_net (fun n => n <| the_sock := None |>).

(** What the program does. *)
Fixpoint run_user (pr : net_prog U) : ST net unit :=
  match pr with
  | NDone u => on_net (fun n => n <| prog_state := u |>)
  | NPanic => lift (Fault Panic)
  | NSend data cb cbData k => r ← netasync_send data (SendUser cb cbData); run_user (k r)
  | NReceive n partial cb cbData k => _ ← netasync_receive n partial (RecvUser cb cbData); run_user k
  | NClose k => _ ← netasync_close; run_user k
  end.
Definition call_user (c : user_call) : ST net unit := u ← gets prog_state; run_user (user c u).

(** ** Connecting *)

Definition connect_callback (connectCb : option (Z * Z)) (e : Z) : ST net unit :=
  match connectCb with None => mret tt | Some (cb, cbData) => call_user (UserConnected cb cbData e) end.
(** [exit:] of [netasync_socks_handler]. *)
Definition socks_exit : ST net unit :=
  s ← sock_load;
  _ ← lift (ASSERT (negb (bool_decide (connectCb s = None))));
  connect_callback (connectCb s) (err s).
Definition socks_advance : ST net unit := on_sock (fun s => s <| socks_state ::= socks_next |>).
Definition socks_send (data : list byte) : ST net unit :=
  r ← netasync_send data SendSocks;
  _ ← lift (ASSERT (r =? 0));
  socks_advance.
Definition byte_of (i : nat) (l : list byte) : Z := from_option byte_Z 0 (l !! i).
Definition socks_fail : ST net unit := _ ← on_sock (fun s => s <| err := EINVAL |>); socks_exit.
Definition netasync_socks_handler : ST net unit :=
  s ← sock_load;
  if negb (err s =? 0) then socks_exit else
  let reply := socksRecvBuf s in
  match socks_state s with
  | SOCKS_CONNECTING_PROXY => socks_send (map Z_byte [5; 1; 0])
  | SOCKS_CONNECTED_PROXY_RECV => _ ← netasync_receive 2 false RecvSocks; socks_advance
  | SOCKS_CONNECTED_PROXY =>
      if negb (byte_of 0 reply =? 5) || negb (byte_of 1 reply =? 0) then socks_fail else
      socks_send (map Z_byte [5; 1; 0; 1] ++ sin_addr (socksAddr s) ++ sin_port (socksAddr s))
  | SOCKS_CONNECTED_REMOTE => _ ← netasync_receive 10 false RecvSocks; socks_advance
  | SOCKS_CONNECTED_REMOTE_RECV =>
      if negb (byte_of 0 reply =? 5) then socks_fail else
      if negb (byte_of 1 reply =? 0) then socks_fail else
      _ ← lift (ASSERT (byte_of 2 reply =? 0));
      socks_exit
  | _ => lift (Fault Panic)
  end.

Definition netasync_getsocket_errno : ST net Z :=
  s ← sock_load;
  _ ← lift (ASSERT (0 <? fd s));
  answer so_errors (fun l y => y <| so_errors := l |>) 0.
Definition netasync_connected : ST net unit :=
  _ ← on_sock (fun s => s <| connect_async := false |>);
  s ← sock_load;
  _ ← close_part (connect_timeout s) netasync_timeout_stop;
  _ ← close_part (err s =? 0) (e ← netasync_getsocket_errno; on_sock (fun s => s <| err := e |>));
  s ← sock_load;
  if useSocks5 s then netasync_socks_handler else connect_callback (connectCb s) (err s).

Definition netasync_connect_timeout_cb : ST net unit :=
  s ← sock_load;
  _ ← lift (ASSERT (connect_timeout s));
  _ ← lift (ASSERT (connect_async s));
  _ ← on_sock (fun s => s <| connect_timeout := false |> <| err := ETIMEDOUT |>);
  _ ← netasync_connect_stop;
  netasync_connected.

(** [exit:] of [netasync_connect]: the socket may be gone after the call. *)
Definition connect_exit (cb : option (Z * Z)) : ST net Z :=
  s ← sock_load;
  let res := if bool_decide (cb = None) then err s else 0 in
  _ ← netasync_connected;
  mret res.
(** What is to be done after connect(), with what it gave. *)
Definition connect_pending (cb : option (Z * Z)) (timeout_sec errno : Z) : ST net Z :=
  if bool_decide (cb = None) || negb (errno =? EINPROGRESS) then
    _ ← on_sock (fun s => s <| err := errno |>); connect_exit cb
  else
    _ ← close_part (0 <? timeout_sec) (_ ← on_sock (fun s => s <| connect_timeout := true |>); on_net (fun n => n <| timer := true |>));
    _ ← on_sock (fun s => s <| connect_async := true |>);
    _ ← register_writable CbConnected;
    mret 0.
Definition netasync_connect (addr : sockaddr_in) (timeout_sec : Z) (cb : option (Z * Z)) : ST net Z :=
  _ ← on_sock (fun s => s <| connectCb := cb |> <| connect_timeout := false |> <| connect_async := false |>);
  s ← sock_load;
  _ ← lift (ASSERT (fd s <? 0));
  o ← answer sockets (fun l y => y <| sockets := l |>) (inl 3);
  match o with
  | inr e =>
      _ ← on_sock (fun s => s <| err := e |>);
      if (e =? EMFILE) || (e =? ENFILE) then lift (Fault Panic) else connect_exit cb
  | inl fd' =>
      _ ← on_sock (fun s => s <| fd := fd' |>);
      e ← answer nonblocks (fun l y => y <| nonblocks := l |>) 0;
      _ ← on_sock (fun s => s <| err := e |>);
      if negb (e =? 0) then connect_exit cb else
      if useSocks5 s then
        a ← answer resolves (fun l y => y <| resolves := l |>) None;
        if bool_decide (a = None) then connect_exit cb else
        c ← answer connects (fun l y => y <| connects := l |>) EINPROGRESS;
        if c =? 0 then connect_exit cb else
        _ ← on_sock (fun s => s <| socksAddr := addr |> <| socks_state := SOCKS_CONNECTING_PROXY |>);
        connect_pending cb timeout_sec c
      else
        c ← answer connects (fun l y => y <| connects := l |>) EINPROGRESS;
        if c =? 0 then connect_exit cb else connect_pending cb timeout_sec c
  end.

(** ** What the loop calls *)

Definition fire_errorhandler : ST net unit :=
  s ← sock_load;
  match errorCb s with
  | None => lift (Fault Panic)
  | Some (cb, cbData) => call_user (UserError cb cbData (err s))
  end.
Definition send_done (cb : send_callback) (e : Z) : ST net unit :=
  match cb with SendSocks => netasync_socks_handler | SendUser f d => call_user (UserSent f d e) end.

(** One write(2), which one call in 37 leaves out. The [static] count is an int:
    the remainder is all that is used of it. *)
Definition netasync_send_ctx_write (p : positive) : ST net (Z + Z) :=
  _ ← on_net (fun n => n <| sends ::= fun c => c + 1 |>);
  count ← gets sends;
  if Z.rem count 37 =? 0 then mret (inl 0) else
  c ← ctx_load p;
  data ← lift (mem_load (buf_orig c) (buf c) (len c));
  o ← answer writes (fun l y => y <| writes := l |>) (inr EAGAIN);
  match o with
  | inl k => let k := Z.max 0 (Z.min k (len c)) in _ ← on_net (fun n => n <| wire ::= fun w => w ++ take (Z.to_nat k) data |>); mret (inl k)
  | inr e => if e =? EAGAIN then mret (inl 0) else mret (inr e)
  end.
(** The first buffer is done. *)
Definition netasync_send_ctx_pop (p : positive) : ST net (option positive) :=
  c ← ctx_load p;
  _ ← on_sock (fun s => s <| sendCtxList := next c |>);
  _ ← ctx_free p;
  s ← sock_load;
  _ ← close_part (bool_decide (sendCtxList s = None)) (on_sock (fun s => s <| sendCtxTail := None |>));
  _ ← send_done (callback c) (err s);
  mret (sendCtxList s).
Definition netasync_send_ctx_run (p : positive) : ST net unit :=
  s ← sock_load;
  _ ← lift (ASSERT (err s =? 0));
  r ← netasync_send_ctx_write p;
  match r with
  | inr e =>
      _ ← on_sock (fun s => s <| err := e |>);
      _ ← lift (ASSERT (negb (e =? EBADF)));
      fire_errorhandler
  | inl k =>
      c ← ctx_load p;
      _ ← ctx_store p (c <| buf ::= fun b => b + k |> <| len ::= fun l => l - k |>);
      ctx ← (if len c - k =? 0 then netasync_send_ctx_pop p else mret (Some p));
      s ← sock_load;
      _ ← lift (ASSERT (err s =? 0));
      match ctx with
      | None => mret tt
      | Some q => _ ← ctx_load q; register_writable CbSendReady
      end
  end.
Definition netasync_send_ready_cb : ST net unit :=
  s ← sock_load;
  match sendCtxList s with None => lift (Fault UB) | Some p => _ ← ctx_load p; netasync_send_ctx_run p end.

(** The bytes of the proxy go to the front of [socksRecvBuf]. *)
Definition store_at (i : nat) (data l : list byte) : list byte := take i l ++ data ++ drop (i + length data) l.
Definition recv_store (data : list byte) : ST net unit :=
  s ← sock_load;
  _ ← close_part (bool_decide (recvCb s = Some RecvSocks)) (on_sock (fun s => s <| socksRecvBuf ::= store_at (length (recvd s)) data |>));
  on_sock (fun s => s <| recvd ::= fun l => l ++ data |>).
(** [None]: the socket was handed to its error handler. *)
Fixpoint receive_loop (fuel : nat) (got : list byte) : ST net (option (list byte)) :=
  match fuel with
  | O => lift (Fault UB)
  | S fuel =>
      s ← sock_load;
      o ← answer reads (fun l y => y <| reads := l |>) (inr EAGAIN);
      match o with
      | inr e =>
          if e =? EAGAIN then mret (Some got) else
          _ ← on_sock (fun s => s <| err := e |>); _ ← fire_errorhandler; mret None
      | inl [] => _ ← netasync_getsocket_errno; _ ← fire_errorhandler; mret None
      | inl data =>
          let data := take (Z.to_nat (recvBufLen s - Zlen (recvd s))) data in
          _ ← recv_store data;
          s ← sock_load;
          if Zlen (recvd s) =? recvBufLen s then mret (Some (got ++ data)) else receive_loop fuel (got ++ data)
      end
  end.
Definition recv_done (cb : recv_callback) (data : list byte) : ST net unit :=
  match cb with RecvSocks => netasync_socks_handler | RecvUser f d => call_user (UserReceived f d data) end.
(** The callback is given what this call has read. *)
Definition netasync_receive_cb : ST net unit :=
  s ← sock_load;
  _ ← lift (ASSERT (negb (bool_decide (recvCb s = None))));
  fuel ← (fun n : net => Ok (S (length (reads (sys n))), n));
  r ← receive_loop fuel [];
  match r with
  | None => mret tt
  | Some got =>
      s ← sock_load;
      _ ← lift (ASSERT (negb (recvPartial s)));
      if Zlen (recvd s) =? recvBufLen s then
        match recvCb s with
        | None => lift (Fault UB)
        | Some cb => _ ← netasync_receive_stop; _ ← netasync_receive_reset; recv_done cb got
        end
      else mret tt
  end.

(** What happens: the descriptor can be written or read, the timer expires, or the
    program acts by itself. The writer and the timer go once. *)
Inductive net_event : Type := EvWritable | EvReadable | EvTimer | EvUser (pr : net_prog U).
Definition net_step (ev : net_event) : ST net unit :=
  match ev with
  | EvWritable =>
      w ← gets writable;
      _ ← on_net (fun n => n <| writable := None |>);
      match w with
      | Some CbConnected => netasync_connected
      | Some CbSendReady => netasync_send_ready_cb
      | _ => mret tt
      end
  | EvReadable => r ← gets readable; match r with Some CbReceive => netasync_receive_cb | _ => mret tt end
  | EvTimer => t ← gets timer; _ ← on_net (fun n => n <| timer := false |>); close_part t netasync_connect_timeout_cb
  | EvUser pr => run_user pr
  end.
Fixpoint net_run (evs : list net_event) : ST net unit :=
  match evs with [] => mret tt | ev :: evs => _ ← net_step ev; net_run evs end.

(** [calloc] and what it is followed by; [netasync_set_errorhandler] and
    [netasync_use_socks]. *)
Definition netasync_create (y : net_system) (u : U) : net :=
  Net (Some (Socket (-1) 0 None false false false false (replicate 16 x00) (SockAddr [] []) SOCKS_INIT None 0 [] None false None None))
    ∅ None None false 0 [] y u.
Definition netasync_set_errorhandler (cb cbData : Z) : ST net unit := on_sock (fun s => s <| errorCb := Some (cb, cbData) |>).
Definition netasync_use_socks : ST net unit := on_sock (fun s => s <| useSocks5 := true |>).
End netasync.
