(* ===== verification/NetSend.v ===== *)
(** * What a socket sends (lib/netasync/netasync.c)

    The linked list of buffers is a queue, whatever the system makes of each
    write: what was given to it goes out in order, once. *)
From S2P Require Export Netasync.

Section send.
Context {U : Type} (user : user_call -> U -> net_prog U).
Implicit Types n : net (U := U).

(** ** The queue *)

(** What is left of each buffer, what was written, what was given; the system and
    the program as they are. *)
Record fifo : Type := Fifo {
  pending : list (list byte * send_callback); written : list byte; given : list byte; f_sends : Z; f_sys : net_system; f_state : U }.
#[export] Instance fifo_eta : Eta fifo := fun r => Fifo (pending r) (written r) (given r) (f_sends r) (f_sys r) (f_state r).

(** Programs that only send. *)
Fixpoint sends_only (pr : net_prog U) : Prop :=
  match pr with NDone _ => True | NSend _ _ _ k => forall r, sends_only (k r) | _ => False end.
Fixpoint fifo_prog (pr : net_prog U) (f : fifo) : fifo :=
  match pr with
  | NSend data cb d k => fifo_prog (k 0) (f <| pending ::= fun q => q ++ [(data, SendUser cb d)] |> <| given ::= fun g => g ++ data |>)
  | NDone u => f <| f_state := u |>
  | _ => f
  end.
(** How many bytes the system takes when it is offered some. *)
Definition fifo_take (f : fifo) : Z * fifo :=
  let f := f <| f_sends ::= fun c => c + 1 |> in
  if Z.rem (f_sends f) 37 =? 0 then (0, f) else
  match writes (f_sys f) with
  | [] => (0, f)
  | o :: l => (match o with inl k => Z.max 0 k | inr _ => 0 end, f <| f_sys := f_sys f <| writes := l |> |>)
  end.
Definition fifo_writable (f : fifo) : fifo :=
  match pending f with
  | [] => f
  | (data, cb) :: q =>
      let '(k, f) := fifo_take f in
      let f := f <| written ::= fun w => w ++ take (Z.to_nat k) data |> in
      match drop (Z.to_nat k) data, cb with
      | [], SendUser cb d => fifo_prog (user (UserSent cb d 0) (f_state f)) (f <| pending := q |>)
      | rest, _ => f <| pending := (rest, cb) :: q |>
      end
  end.
Definition fifo_step (ev : net_event (U := U)) (f : fifo) : fifo :=
  match ev with EvWritable => fifo_writable f | EvUser pr => fifo_prog pr f | _ => f end.
Fixpoint fifo_run (evs : list net_event) (f : fifo) : fifo :=
  match evs with [] => f | ev :: evs => fifo_run evs (fifo_step ev f) end.

Definition left_to_send (f : fifo) : list byte := concat (map fst (pending f)).

(** Nothing is lost, added, or sent twice or out of order. *)
Definition fifo_sound (f : fifo) : Prop := written f ++ left_to_send f = given f.
Lemma fifo_prog_sound pr : forall f, fifo_sound f -> fifo_sound (fifo_prog pr f).
Proof.
  unfold fifo_sound, left_to_send. induction pr as [u| |data cb d k IH|m pa cb d k IH|k IH]; intros f Hf; cbn [fifo_prog]; try done. apply IH.
  cbn [set pending written given]. rewrite map_app, concat_app. cbn. by rewrite app_nil_r, app_assoc, Hf.
Qed.
Lemma fifo_take_same f : let '(k, f') := fifo_take f in
  pending f' = pending f /\ written f' = written f /\ given f' = given f /\ f_state f' = f_state f.
Proof. unfold fifo_take. destruct (_ =? 0); [done|]. by destruct (writes _). Qed.
Lemma fifo_writable_sound f : fifo_sound f -> fifo_sound (fifo_writable f).
Proof.
  unfold fifo_writable. destruct (pending f) as [|[data cb] q] eqn:Ep; [done|]. pose proof (fifo_take_same f) as Ht.
  destruct (fifo_take f) as [k f1]. destruct Ht as (E1 & E2 & E3 & E4). unfold fifo_sound, left_to_send. rewrite Ep. cbn [map concat fst]. intros Hf.
  assert (Hw : forall rest, drop (Z.to_nat k) data = rest -> (written f1 ++ take (Z.to_nat k) data) ++ rest ++ concat (map fst q) = given f1).
  { intros rest <-. rewrite E2, E3, <- Hf, <- !app_assoc. f_equal. by rewrite app_assoc, take_drop. }
  destruct (drop (Z.to_nat k) data) as [|x rest] eqn:Ed; [|by apply (Hw (x :: rest))].
  destruct cb as [|cb d]; [by apply (Hw [])|]. apply fifo_prog_sound. by apply (Hw []).
Qed.
Lemma fifo_run_sound evs : forall f, fifo_sound f -> fifo_sound (fifo_run evs f).
Proof.
  induction evs as [|ev evs IH]; intros f Hf; cbn [fifo_run]; [done|]. apply IH. destruct ev; cbn [fifo_step]; try done.
  - by apply fifo_writable_sound.
  - by apply fifo_prog_sound.
Qed.

(** ** The linked list *)

(** [data] is what is left of a buffer. *)
Definition rest_of (c : netasync_send_ctx) (data : list byte) : Prop :=
  0 <= buf c <= Zlen (buf_orig c) /\ len c = Zlen data /\ drop (Z.to_nat (buf c)) (buf_orig c) = data.
(** From the pointer [h], the entries [ps] hold the queue [q]. *)
Fixpoint chained (heap : gmap positive netasync_send_ctx) (h : option positive) (ps : list positive) (q : list (list byte * send_callback)) : Prop :=
  match ps, q with
  | [], [] => h = None
  | p :: ps, (data, cb) :: q => h = Some p /\ exists c, heap !! p = Some c /\ callback c = cb /\ rest_of c data /\ chained heap (next c) ps q
  | _, _ => False
  end.

Lemma chained_in heap ps : forall h q p, chained heap h ps q -> p ∈ ps -> is_Some (heap !! p).
Proof.
  induction ps as [|p' ps IH]; intros h [|[data cb] q] p; cbn [chained]; try done; [by intros _ ?%elem_of_nil|].
  intros (_ & c & Hc & _ & _ & Hq) [->|Hp]%elem_of_cons; [by eexists|by eapply IH].
Qed.
Lemma chained_ext heap heap' ps : forall h q, (forall p, p ∈ ps -> heap' !! p = heap !! p) -> chained heap h ps q -> chained heap' h ps q.
Proof.
  induction ps as [|p ps IH]; intros h [|[data cb] q] Hx; cbn [chained]; try done.
  intros (-> & c & Hc & ? & ? & Hq). split; [done|]. exists c. rewrite Hx by left. split_and!; try done.
  apply IH; [|done]. intros p' Hp'. apply Hx. by right.
Qed.
Lemma chained_null heap h ps q : chained heap h ps q -> (h = None <-> q = []) /\ (ps = [] <-> q = []).
Proof. destruct ps as [|p ps], q as [|[data cb] q]; cbn [chained]; intros Hq; try done. destruct Hq as [-> _]. by split. Qed.

(** A new entry behind the last one, through the pointer to its [next]. *)
Lemma chained_snoc heap p c data cb ps : forall h q t ct, chained heap h ps q -> NoDup ps -> p ∉ ps ->
  heap !! p = Some c -> callback c = cb -> rest_of c data -> next c = None ->
  last ps = Some t -> heap !! t = Some ct ->
  chained (<[t := ct <| next := Some p |>]> heap) h (ps ++ [p]) (q ++ [(data, cb)]).
Proof.
  induction ps as [|p1 ps IH]; intros h [|[data1 cb1] q] t ct; cbn [chained]; try done.
  intros (-> & c1 & Hc1 & ? & ? & Hq) Hnd Hp Hc Hcb Hd Hn Ht Hct. apply NoDup_cons in Hnd as [Hp1 Hnd].
  apply not_elem_of_cons in Hp as [Hne Hp]. cbn [app chained]. split; [done|].
  destruct ps as [|p2 ps].
  - injection Ht as <-. assert (Ec : ct = c1) by congruence. subst ct. exists (c1 <| next := Some p |>). rewrite lookup_insert_eq. split_and!; try done.
    destruct q; [|done]. cbn [app chained]. split; [done|]. exists c. rewrite lookup_insert_ne by done. split_and!; done.
  - assert (Hpt : p1 <> t) by (intros ->; apply Hp1; by apply last_Some_elem_of). exists c1. rewrite lookup_insert_ne by done. split_and!; try done.
    by apply IH.
Qed.

(** ** The socket stands for the queue *)

(** A connected socket with no error and no proxy; the loop is asked for a turn
    exactly when something is to be sent. *)
Definition stands_for n (f : fifo) : Prop :=
  exists s ps, the_sock n = Some s /\ err s = 0 /\ connect_async s = false /\
    chained (ctxs n) (sendCtxList s) ps (pending f) /\ NoDup ps /\ sendCtxTail s = last ps /\
    writable n = (if bool_decide (pending f = []) then None else Some CbSendReady) /\
    wire n = written f /\ sends n = f_sends f /\ sys n = f_sys f /\ prog_state n = f_state f.

Definition head_of n : option positive := the_sock n ≫= sendCtxList.
(** During a turn, the loop was not asked yet. *)
Definition in_turn (asked : bool) n (f : fifo) : Prop :=
  exists s ps, the_sock n = Some s /\ err s = 0 /\ connect_async s = false /\
    chained (ctxs n) (sendCtxList s) ps (pending f) /\ NoDup ps /\ sendCtxTail s = last ps /\
    writable n = (if asked then Some CbSendReady else None) /\
    wire n = written f /\ sends n = f_sends f /\ sys n = f_sys f /\ prog_state n = f_state f.
Lemma stands_in_turn n f : stands_for n f <-> in_turn (negb (bool_decide (pending f = []))) n f.
Proof. unfold stands_for, in_turn. destruct (bool_decide _); done. Qed.

Lemma send_step asked n f data cb : in_turn asked n f -> (asked = true -> pending f <> []) ->
  exists n', netasync_send data cb n = Ok (0, n') /\
    in_turn (asked || bool_decide (pending f = [])) n' (f <| pending ::= fun q => q ++ [(data, cb)] |> <| given ::= fun g => g ++ data |>) /\
    (pending f <> [] -> head_of n' = head_of n).
Proof.
  intros (s & ps & Es & Ee & Ea & Hq & Hnd & Et & Ew & Hrest) Has. destruct n as [so h w r t sn wi y u]. cbn in *. subst so w.
  destruct (chained_null _ _ _ _ Hq) as [Hnull Hps].
  set (p := obj_new h). set (c := SendCtx data 0 (Zlen data) cb None).
  assert (Hco : rest_of c data) by (pose proof (Zlen_nonneg data); split; [cbn; lia|done]).
  assert (Hp : p ∉ ps) by (intros Hin; destruct (chained_in _ _ _ _ p Hq Hin) as [c0 E0]; unfold p in E0; by rewrite obj_new_fresh in E0).
  assert (Hq' : chained (<[p := c]> h) (sendCtxList s) ps (pending f)).
  { apply (chained_ext h); [|exact Hq]. intros p' Hp'. rewrite lookup_insert_ne; [done|]. by intros <-. }
  unfold netasync_send. erewrite st_bind_Ok; [|reflexivity]. rewrite Ea, Ee. do 2 (erewrite st_bind_Ok; [|reflexivity]).
  erewrite st_bind_Ok; [|reflexivity]. cbv zeta. cbn [ctxs set]. fold p c. unfold tail_store. rewrite st_bind_assoc.
  erewrite st_bind_Ok; [|reflexivity]. rewrite Et. destruct (last ps) as [q|] eqn:El.
  - assert (Hne : pending f <> []) by (intros E; apply Hps in E; by rewrite E in El).
    assert (Hin : q ∈ ps) by by apply last_Some_elem_of.
    destruct (chained_in _ _ _ _ q Hq' Hin) as [cq Ecq]. rewrite st_bind_assoc.
    erewrite st_bind_Ok; [|unfold ctx_load; cbn [ctxs set]; rewrite (obj_load_ok _ _ _ Ecq); reflexivity].
    erewrite st_bind_Ok; [|unfold ctx_store; cbn [ctxs set]; rewrite (obj_load_ok _ _ _ Ecq); reflexivity].
    erewrite st_bind_Ok; [|reflexivity]. rewrite bool_decide_eq_false_2 by (rewrite Hnull; exact Hne). rewrite bool_decide_eq_false_2 by exact Hne.
    erewrite st_bind_Ok; [|reflexivity]. erewrite st_bind_Ok; [|reflexivity]. cbn [mret st_ret the_sock set]. eexists. split; [cbn; by rewrite Ee|]. split; [|done].
    eexists _, (ps ++ [p]). cbn [the_sock set]. split; [reflexivity|]. cbn. split_and!; try done; try tauto.
    + apply (chained_snoc _ p c data cb ps _ _ q cq Hq' Hnd Hp); [by rewrite lookup_insert_eq|done|exact Hco|done..].
    + rewrite Permutation_app_comm. by apply NoDup_cons.
    + by rewrite last_snoc.
    + by rewrite orb_false_r.
  - apply last_None in El. subst ps. assert (Hnil : pending f = []) by by apply Hps.
    assert (asked = false) as -> by (destruct asked; [by destruct Has|done]).
    erewrite st_bind_Ok; [|reflexivity]. erewrite st_bind_Ok; [|reflexivity]. rewrite bool_decide_eq_true_2 by (by apply Hnull).
    erewrite st_bind_Ok; [|reflexivity]. erewrite st_bind_Ok; [|reflexivity]. eexists. split; [cbn; by rewrite Ee|]. split; [|done].
    eexists _, [p]. cbn [the_sock set]. split; [reflexivity|]. cbn. rewrite Hnil. cbn. split_and!; try done; try tauto.
    + exists c. by rewrite lookup_insert_eq.
    + apply NoDup_singleton.
Qed.

(** ** The program sends *)

Lemma fifo_prog_more pr : forall f, pending f <> [] -> pending (fifo_prog pr f) <> [].
Proof.
  induction pr as [u| |data cb d k IH|m pa cb d k IH|k IH]; intros f Hf; cbn [fifo_prog]; try done. apply IH. cbn. by destruct (pending f).
Qed.
Lemma user_step pr : forall asked n f, in_turn asked n f -> (asked = true -> pending f <> []) -> sends_only pr ->
  exists n', run_user pr n = Ok (tt, n') /\
    in_turn (asked || (bool_decide (pending f = []) && negb (bool_decide (pending (fifo_prog pr f) = [])))) n' (fifo_prog pr f) /\
    (pending f <> [] -> head_of n' = head_of n).
Proof.
  induction pr as [u| |data cb d k IH|m pa cb d k IH|k IH]; intros asked n f Hn Has Hpr; try done; cbn [run_user fifo_prog].
  - eexists. split; [reflexivity|]. split; [|done]. destruct Hn as (s & ps & Es & Ee & Ea & Hq & Hnd & Et & Ew & Ewi & Esn & Esy & Eu). exists s, ps.
    cbn. split_and!; try done. rewrite Ew. destruct asked, (bool_decide _); done.
  - destruct (send_step asked n f data (SendUser cb d) Hn Has) as (n1 & E1 & Hn1 & Hh1). set (f1 := f <| pending ::= fun q => q ++ [(data, SendUser cb d)] |> <| given ::= fun g => g ++ data |>) in *.
    assert (Hf1 : pending f1 <> []) by (cbn; by destruct (pending f)).
    destruct (IH 0 _ n1 f1 Hn1) as (n2 & E2 & Hn2 & Hh2); [done|apply Hpr|]. exists n2. erewrite st_bind_Ok; [|exact E1]. split; [exact E2|].
    split; [|intros Hne; rewrite (Hh2 Hf1); exact (Hh1 Hne)].
    rewrite (bool_decide_eq_false_2 (pending f1 = [])) in Hn2 by exact Hf1. cbn [andb] in Hn2. rewrite orb_false_r in Hn2.
    rewrite (bool_decide_eq_false_2 (pending (fifo_prog _ _) = [])) by (by apply fifo_prog_more). cbn [negb]. by rewrite andb_true_r.
Qed.

(** ** A turn *)

(** The system may take fewer bytes than it is offered, or none, but does not
    fail. *)
Definition no_failure (f : fifo) : Prop := Forall (fun o => match o with inl _ => True | inr e => e = EAGAIN end) (writes (f_sys f)).

Lemma mem_load_rest bs (off : Z) data : 0 <= off <= Zlen bs -> drop (Z.to_nat off) bs = data -> mem_load bs off (Zlen data) = Ok data.
Proof.
  intros Ho <-. unfold mem_load. assert (Hl : Zlen (drop (Z.to_nat off) bs) = Zlen bs - off) by (unfold Zlen in *; rewrite length_drop; lia).
  rewrite Hl. decide_cmp. f_equal. rewrite <- Hl. apply take_ge. unfold Zlen. lia.
Qed.

Lemma write_step n f p c data : no_failure f -> ctxs n !! p = Some c -> rest_of c data -> sends n = f_sends f -> sys n = f_sys f ->
  let '(k, f1) := fifo_take f in let k' := Z.max 0 (Z.min k (len c)) in
  netasync_send_ctx_write p n = Ok (inl k', n <| sends := f_sends f1 |> <| wire ::= fun w => w ++ take (Z.to_nat k) data |> <| sys := f_sys f1 |>)
    /\ no_failure f1 /\ 0 <= k.
Proof.
  intros Hf Hc (Hb & Hl & Hd) Esn Esy. unfold fifo_take, netasync_send_ctx_write. erewrite st_bind_Ok; [|reflexivity]. erewrite st_bind_Ok; [|reflexivity].
  destruct n as [so h w r t sn wi y u]. cbn in Esn, Esy, Hc. subst sn y. cbn [sends set f_sends f_sys]. pose proof (Zlen_nonneg data).
  destruct (Z.rem _ 37 =? 0).
  { rewrite Z.min_l, Z.max_id by lia. split; [cbn; by rewrite app_nil_r|]. by split. }
  erewrite st_bind_Ok; [|unfold ctx_load; cbn [ctxs set]; rewrite (obj_load_ok _ _ _ Hc); reflexivity]. rewrite Hl.
  erewrite st_bind_Ok; [|unfold lift; rewrite (mem_load_rest _ _ _ Hb Hd); reflexivity]. unfold no_failure in *.
  destruct (writes (f_sys f)) as [|o l] eqn:Ewr.
  - erewrite st_bind_Ok; [|unfold answer; cbn [sys set]; rewrite Ewr; reflexivity]. rewrite Z.min_l, Z.max_id by lia.
    split; [cbn; by rewrite app_nil_r|]. cbn. by rewrite Ewr.
  - apply Forall_cons in Hf as [Ho Hf]. erewrite st_bind_Ok; [|unfold answer; cbn [sys set]; rewrite Ewr; reflexivity].
    destruct o as [k|e]; cbn [f_sys set writes].
    + split; [|split; [exact Hf|lia]]. replace (Z.max 0 (Z.min (Z.max 0 k) (Zlen data))) with (Z.max 0 (Z.min k (Zlen data))) by lia.
      assert (Et : take (Z.to_nat (Z.max 0 (Z.min k (Zlen data)))) data = take (Z.to_nat (Z.max 0 k)) data).
      { destruct (Z.le_ge_cases k (Zlen data)); [f_equal; lia|]. unfold Zlen in *. by rewrite !take_ge by lia. }
      rewrite <- Et. reflexivity.
    + subst e. cbn. rewrite Z.min_l, Z.max_id by lia. split; [by rewrite app_nil_r|]. done.
Qed.

Lemma rest_of_more c data (k : Z) : rest_of c data -> 0 <= k ->
  rest_of (c <| buf ::= fun b => b + Z.max 0 (Z.min k (len c)) |> <| len ::= fun l => l - Z.max 0 (Z.min k (len c)) |>) (drop (Z.to_nat k) data).
Proof.
  intros (Hb & Hl & Hd) Hk. set (k' := Z.max 0 (Z.min k (len c))). pose proof (Zlen_nonneg data).
  assert (Hlen : Zlen data = Zlen (buf_orig c) - buf c) by (rewrite <- Hd; unfold Zlen in *; rewrite length_drop; lia).
  assert (Hdr : drop (Z.to_nat k) data = drop (Z.to_nat k') data).
  { destruct (Z.le_ge_cases k (Zlen data)); [f_equal; lia|]. unfold Zlen in *. by rewrite !drop_ge by lia. }
  rewrite Hdr. split; [cbn; lia|]. split; [cbn; unfold Zlen in *; rewrite length_drop; lia|]. cbn.
  rewrite <- Hd, drop_drop. f_equal. lia.
Qed.

(** Its first buffer is done: what follows is the queue. *)
Lemma pop_step n f p c cb d q s ps : the_sock n = Some s -> err s = 0 -> connect_async s = false -> ctxs n !! p = Some c ->
  callback c = SendUser cb d -> pending f = q -> chained (delete p (ctxs n)) (next c) ps q -> NoDup ps -> sendCtxTail s = last (p :: ps) ->
  writable n = None -> wire n = written f -> sends n = f_sends f -> sys n = f_sys f -> prog_state n = f_state f ->
  sends_only (user (UserSent cb d 0) (f_state f)) ->
  exists n', netasync_send_ctx_pop user p n = Ok (next c, n') /\
    let f' := fifo_prog (user (UserSent cb d 0) (f_state f)) f in
    in_turn (bool_decide (q = []) && negb (bool_decide (pending f' = []))) n' f' /\ (q <> [] -> head_of n' = next c).
Proof.
  intros Es Ee Ea Ec Ecb Eq Hch Hnd Et Ew Ewi Esn Esy Eu Hso. destruct n as [so h w r t sn wi y u]. cbn in *. subst so w wi sn y u.
  unfold netasync_send_ctx_pop. erewrite st_bind_Ok; [|unfold ctx_load; cbn [ctxs]; rewrite (obj_load_ok _ _ _ Ec); reflexivity].
  erewrite st_bind_Ok; [|reflexivity]. erewrite st_bind_Ok; [|unfold ctx_free; cbn [ctxs set]; rewrite (obj_load_ok _ _ _ Ec); reflexivity].
  erewrite st_bind_Ok; [|reflexivity]. rewrite Ecb. cbn [set sendCtxList err]. rewrite Ee.
  set (s1 := s <| sendCtxList := next c |> <| sendCtxTail := last ps |>).
  set (n1 := Net (Some s1) (delete p h) None r t (f_sends f) (written f) (f_sys f) (f_state f)).
  erewrite (st_bind_Ok _ _ _ tt n1).
  2:{ destruct (chained_null _ _ _ _ Hch) as [Hn Hp]. unfold close_part, n1, s1. destruct (bool_decide (next c = None)) eqn:En; cbn.
      - apply bool_decide_eq_true in En. apply Hn, Hp in En. by subst ps.
      - apply bool_decide_eq_false in En. repeat f_equal. destruct ps as [|p1 ps]; [by destruct En; apply Hn, Hp|].
        change (last (p1 :: ps)) with (last (p :: p1 :: ps)). rewrite <- Et. by destruct s. }
  assert (Hn1 : in_turn false n1 f). { exists s1, ps. cbn. rewrite Eq. done. }
  destruct (user_step _ false n1 f Hn1 ltac:(done) Hso) as (n2 & E2 & Hn2 & Hh2).
  cbn [send_done]. unfold call_user. erewrite st_bind_Ok; [|erewrite st_bind_Ok; [exact E2|reflexivity]].
  exists n2. split; [reflexivity|]. rewrite Eq in Hn2, Hh2. split; [exact Hn2|]. intros Hne. by rewrite Hh2.
Qed.

Context (Huser : forall c u, sends_only (user c u)).

Lemma in_turn_done (q : list (list byte * send_callback)) n f : in_turn (bool_decide (q = []) && negb (bool_decide (pending f = []))) n f ->
  (q <> [] -> pending f <> []) ->
  forall h, (q = [] <-> h = None) -> (q <> [] -> head_of n = h) ->
  exists n', (s ← sock_load; _ ← lift (ASSERT (err s =? 0));
    match h with None => mret tt | Some q => _ ← ctx_load q; register_writable CbSendReady end) n = Ok (tt, n') /\ stands_for n' f.
Proof.
  intros (s & ps & Es & Ee & Ea & Hch & Hnd & Et & Ew & Hrest) Hmore h Hh Hhd.
  erewrite st_bind_Ok; [|unfold sock_load; rewrite Es; reflexivity]. erewrite st_bind_Ok; [|unfold lift; rewrite Ee; reflexivity].
  destruct h as [p|].
  - assert (Hq : q <> []) by (intros E; apply Hh in E; discriminate). specialize (Hmore Hq). specialize (Hhd Hq).
    unfold head_of in Hhd. rewrite Es in Hhd. cbn in Hhd.
    assert (Hp : is_Some (ctxs n !! p)).
    { destruct ps as [|p1 ps], (pending f) as [|[data cb] q1]; try done. destruct Hch as (E1 & c & Ec & _). assert (p1 = p) as <- by congruence. by eexists. }
    destruct Hp as [c Ec]. erewrite st_bind_Ok; [|unfold ctx_load; rewrite (obj_load_ok _ _ _ Ec); reflexivity].
    rewrite (bool_decide_eq_false_2 (q = [])) in Ew by exact Hq. cbn in Ew. unfold register_writable. rewrite Ew. eexists. split; [reflexivity|].
    exists s, ps. cbn. rewrite (bool_decide_eq_false_2 (pending f = [])) by exact Hmore. done.
  - eexists. split; [reflexivity|]. rewrite (bool_decide_eq_true_2 (q = [])) in Ew by (by apply Hh). exists s, ps. split_and!; try done; try tauto.
    rewrite Ew. by destruct (bool_decide (pending f = [])).
Qed.

(** All that is queued is the program's own. *)
Definition user_queue (f : fifo) : Prop := Forall (fun '(_, cb) => exists f d, cb = SendUser f d) (pending f).

Lemma turn_step n f : stands_for n f -> no_failure f -> user_queue f ->
  exists n', net_step user EvWritable n = Ok (tt, n') /\ stands_for n' (fifo_writable f).
Proof.
  intros (s & ps & Es & Ee & Ea & Hch & Hnd & Et & Ew & Ewi & Esn & Esy & Eu) Hf Huq. unfold fifo_writable, user_queue in *. cbn [net_step].
  erewrite st_bind_Ok; [|reflexivity]. erewrite st_bind_Ok; [|reflexivity]. rewrite Ew. set (n0 := n <| writable := None |>).
  destruct (pending f) as [|[data cb] q] eqn:Ep.
  { eexists. split; [reflexivity|]. exists s, ps. unfold n0. cbn. rewrite Ep. split_and!; done. }
  apply Forall_cons in Huq as [(cb' & d & ->) Huq]. cbn [bool_decide]. rewrite bool_decide_eq_false_2 by done. unfold netasync_send_ready_cb.
  erewrite st_bind_Ok; [|unfold sock_load; cbn; rewrite Es; reflexivity]. destruct ps as [|p ps]; [done|]. destruct Hch as (Ehd & c & Ec & Ecb & Hc & Hch). rewrite Ehd.
  erewrite st_bind_Ok; [|unfold ctx_load; cbn; rewrite (obj_load_ok _ _ _ Ec); reflexivity]. unfold netasync_send_ctx_run.
  erewrite st_bind_Ok; [|unfold sock_load; cbn; rewrite Es; reflexivity]. erewrite st_bind_Ok; [|unfold lift; rewrite Ee; reflexivity].
  pose proof (write_step n0 f p c data Hf Ec Hc Esn Esy) as Hw. pose proof (fifo_take_same f) as Hts. destruct (fifo_take f) as [k f1]. cbv zeta in Hw.
  destruct Hw as (E1 & Hf1 & Hk). destruct Hts as (Ep1 & Ew1 & _ & Es1). erewrite st_bind_Ok; [|exact E1]. clear E1.
  cbv beta iota.
  set (n1 := n0 <| sends := f_sends f1 |> <| wire := wire (n0 <| sends := f_sends f1 |>) ++ take (Z.to_nat k) data |> <| sys := f_sys f1 |>).
  assert (Ec1 : ctxs n1 !! p = Some c) by exact Ec.
  erewrite st_bind_Ok; [|unfold ctx_load; rewrite (obj_load_ok _ _ _ Ec1); reflexivity].
  erewrite st_bind_Ok; [|unfold ctx_store; rewrite (obj_load_ok _ _ _ Ec1); reflexivity].
  pose proof (rest_of_more c data k Hc Hk) as Hc2. cbv beta in Hc2. set (k' := Z.max 0 (Z.min k (len c))) in *.
  set (c2 := c <| buf := buf c + k' |> <| len := len (c <| buf := buf c + k' |>) - k' |>) in *. set (n2 := n1 <| ctxs := <[p := c2]> (ctxs n1) |>).
  assert (Ec2 : ctxs n2 !! p = Some c2) by apply lookup_insert_eq. apply NoDup_cons in Hnd as [Hp Hnd].
  assert (Ew2 : wire n2 = written f1 ++ take (Z.to_nat k) data) by (rewrite Ew1, <- Ewi; reflexivity).
  change (len c - k') with (len c2). rewrite (proj1 (proj2 Hc2)). cbv beta.
  set (fw := f1 <| written := written f1 ++ take (Z.to_nat k) data |>).
  assert (Eu2 : prog_state n2 = f_state fw) by (change (f_state fw) with (f_state f1); rewrite Es1; exact Eu).
  destruct (drop (Z.to_nat k) data) as [|x rest] eqn:Ed.
  - change (Zlen [] =? 0) with true. cbv iota. set (f2 := fw <| pending := q |>).
    assert (Hch2 : chained (delete p (ctxs n2)) (next c2) ps q).
    { apply (chained_ext (ctxs n)); [|exact Hch]. intros p' Hp'. assert (p <> p') by (by intros ->). rewrite lookup_delete_ne by done. by apply lookup_insert_ne. }
    destruct (pop_step n2 f2 p c2 cb' d q s ps) as (n3 & E3 & Hn3 & Hh3); try done.
    erewrite st_bind_Ok; [|exact E3]. apply (in_turn_done q n3 _ Hn3); [|symmetry; exact (proj1 (chained_null _ _ _ _ Hch))|exact Hh3].
    intros Hq. by apply fifo_prog_more.
  - rewrite (proj2 (Z.eqb_neq _ 0)) by (zlen; pose proof (Zlen_nonneg rest); lia). erewrite st_bind_Ok; [|reflexivity].
    apply (in_turn_done ((x :: rest, SendUser cb' d) :: q)); try done; [|intros _; unfold head_of, n2; cbn; by rewrite Es]. exists s, (p :: ps). cbn [bool_decide andb pending set].
    rewrite bool_decide_eq_false_2 by done. split_and!; try done; [|by apply NoDup_cons].
    split; [exact Ehd|]. exists c2. split; [exact Ec2|]. split; [exact Ecb|]. split; [exact Hc2|].
    apply (chained_ext (ctxs n)); [|exact Hch]. intros p' Hp'. apply lookup_insert_ne. by intros ->.
Qed.

(** ** Runs *)

Lemma fifo_prog_keeps pr : forall f, no_failure f -> user_queue f -> no_failure (fifo_prog pr f) /\ user_queue (fifo_prog pr f).
Proof.
  induction pr as [u| |data cb d k IH|m pa cb d k IH|k IH]; intros f Hf Hu; cbn [fifo_prog]; try done. apply IH; [exact Hf|].
  unfold user_queue. cbn. apply Forall_app. split; [exact Hu|]. constructor; [by eexists _, _|constructor].
Qed.
Lemma fifo_take_keeps f : no_failure f -> no_failure (fifo_take f).2.
Proof.
  unfold fifo_take. intros Hf. cbv zeta. set (f2 := f <| f_sends ::= fun c => c + 1 |>). destruct (_ =? 0); [exact Hf|].
  assert (Hf2 : no_failure f2) by exact Hf. clearbody f2. unfold no_failure in Hf2.
  destruct (writes (f_sys f2)) as [|o l] eqn:E; cbn [snd]; [unfold no_failure; rewrite E; constructor|]. inversion_clear Hf2. assumption.
Qed.
Lemma fifo_writable_keeps f : no_failure f -> user_queue f -> no_failure (fifo_writable f) /\ user_queue (fifo_writable f).
Proof.
  intros Hf Hu. unfold fifo_writable. destruct (pending f) as [|[data cb] q] eqn:Ep; [done|]. pose proof (fifo_take_keeps f Hf) as Ht.
  unfold user_queue in Hu. rewrite Ep in Hu. apply Forall_cons in Hu as [(cb' & d & ->) Hu]. destruct (fifo_take f) as [k f1]. cbn in Ht.
  destruct (drop _ _); [by apply fifo_prog_keeps|]. split; [exact Ht|]. unfold user_queue. cbn. constructor; [by eexists _, _|exact Hu].
Qed.

(** What happens to a socket that only sends. *)
Definition sending (ev : net_event (U := U)) : Prop := match ev with EvWritable => True | EvUser pr => sends_only pr | _ => False end.
Lemma run_step evs : forall n f, stands_for n f -> no_failure f -> user_queue f -> Forall sending evs ->
  exists n', net_run user evs n = Ok (tt, n') /\ stands_for n' (fifo_run evs f).
Proof.
  induction evs as [|ev evs IH]; intros n f Hn Hf Hu He; cbn [net_run fifo_run]; [by exists n|]. apply Forall_cons in He as [Hev He].
  assert (Hs : exists n1, net_step user ev n = Ok (tt, n1) /\ stands_for n1 (fifo_step ev f)).
  { destruct ev as [| | |pr]; try done; [by apply turn_step|]. apply stands_in_turn in Hn.
    destruct (user_step pr _ n f Hn) as (n1 & E1 & Hn1 & _); [by intros ?%negb_true_iff%bool_decide_eq_false|exact Hev|].
    exists n1. split; [exact E1|]. apply stands_in_turn. cbn [fifo_step]. pose proof (fifo_prog_more pr f) as Hm.
    destruct (bool_decide_reflect (pending f = [])) as [Ee|Ee]; cbn in Hn1; [exact Hn1|].
    by rewrite bool_decide_eq_false_2 by (by apply Hm). }
  destruct Hs as (n1 & E1 & Hn1). erewrite st_bind_Ok; [|exact E1].
  assert (Hk : no_failure (fifo_step ev f) /\ user_queue (fifo_step ev f)) by (destruct ev; try done; [by apply fifo_writable_keeps|by apply fifo_prog_keeps]).
  destruct Hk. by apply IH.
Qed.

(** Nothing was sent yet. *)
Definition idle n : Prop :=
  exists s, the_sock n = Some s /\ err s = 0 /\ connect_async s = false /\ sendCtxList s = None /\ sendCtxTail s = None /\ writable n = None /\ wire n = [].
Definition fifo_of n : fifo := Fifo [] [] [] (sends n) (sys n) (prog_state n).
Lemma idle_stands n : idle n -> stands_for n (fifo_of n).
Proof. intros (s & Es & Ee & Ea & Eh & Et & Ew & Ewi). exists s, []. split_and!; try done. apply NoDup_nil_2. Qed.

(** The linked list and its turns are the queue: whatever the program gives, at
    any time, its callbacks included, and however the system cuts the writes, the
    code goes on without fault and what was written, followed by what is left, is
    what was given, in order. *)
Theorem send_queue_refines evs n : idle n -> no_failure (fifo_of n) -> Forall sending evs ->
  exists n', net_run user evs n = Ok (tt, n') /\ let f := fifo_run evs (fifo_of n) in
    stands_for n' f /\ wire n' ++ left_to_send f = given f.
Proof.
  intros Hn Hf He. destruct (run_step evs n (fifo_of n) (idle_stands n Hn) Hf) as (n' & E & Hn'); [constructor|exact He|].
  exists n'. split; [exact E|]. split; [exact Hn'|]. destruct Hn' as (s & ps & _ & _ & _ & _ & _ & _ & _ & -> & _).
  by apply fifo_run_sound.
Qed.

(** ** Everything goes out *)

(** The system takes something of what it is offered, for as many writes. *)
Definition takes (m : nat) (f : fifo) : Prop :=
  (m <= length (writes (f_sys f)))%nat /\ Forall (fun o => exists k, o = inl k /\ 1 <= k) (writes (f_sys f)).
Definition cost (f : fifo) : nat := (length (left_to_send f) + length (pending f))%nat.
Definition plain : Prop := forall cb d u, exists u', user (UserSent cb d 0) u = NDone u'.

Lemma takes_no_failure m f : takes m f -> no_failure f.
Proof. intros [_ Hf]. eapply Forall_impl; [exact Hf|]. by intros o (k & -> & _). Qed.
Lemma fifo_take_counts m f : takes (S m) f -> let '(k, f') := fifo_take f in
  takes m f' /\ f_sends f' = f_sends f + 1 /\ (Z.rem (f_sends f + 1) 37 = 0 \/ 1 <= k) /\ (k = 0 -> takes (S m) f').
Proof.
  unfold fifo_take. intros Ht. cbv zeta beta. set (f2 := f <| f_sends := f_sends f + 1 |>). assert (Ht2 : takes (S m) f2) by exact Ht.
  assert (Es : f_sends f2 = f_sends f + 1) by reflexivity. rewrite Es. clearbody f2. clear Ht. unfold takes in *. destruct Ht2 as [Hl Hf].
  destruct (Z.eqb_spec (Z.rem (f_sends f + 1) 37) 0) as [E|E].
  - split; [split; [lia|exact Hf]|]. split; [exact Es|]. split; [by left|]. intros _. split; [exact Hl|exact Hf].
  - destruct (writes (f_sys f2)) as [|o l]; [cbn in Hl; lia|].
    apply Forall_cons in Hf as [(k & -> & Hk) Hf]. cbn in Hl |- *. split; [split; [lia|exact Hf]|]. split; [exact Es|]. split; [right; lia|lia].
Qed.

Lemma turn_cost m f : plain -> user_queue f -> takes (S m) f -> pending f <> [] -> let f' := fifo_writable f in
  user_queue f' /\ takes m f' /\ f_sends f' = f_sends f + 1 /\ given f' = given f /\ (cost f' <= cost f)%nat /\
  (Z.rem (f_sends f + 1) 37 = 0 \/ (cost f' < cost f)%nat).
Proof.
  intros Hpl Hu Ht Hne. cbv zeta. pose proof (fifo_writable_keeps f (takes_no_failure _ _ Ht) Hu) as [_ Hu']. split; [exact Hu'|]. clear Hu'.
  unfold cost, left_to_send, fifo_writable, user_queue in *. destruct (pending f) as [|[data cb] q]; [done|]. apply Forall_cons in Hu as [(cb' & d & ->) _].
  pose proof (fifo_take_counts m f Ht) as Hc. pose proof (fifo_take_same f) as Hs. destruct (fifo_take f) as [k f1].
  destruct Hc as (Ht1 & Es & Hk & _). destruct Hs as (_ & _ & Eg & _). assert (Hlen : length (drop (Z.to_nat k) data) = (length data - Z.to_nat k)%nat) by apply length_drop.
  destruct (drop (Z.to_nat k) data) as [|x rest].
  - destruct (Hpl cb' d (f_state (f1 <| written ::= fun w => w ++ take (Z.to_nat k) data |>))) as [u' ->].
    cbn [fifo_prog set pending f_sys f_sends given map concat fst length]. rewrite length_app. split; [exact Ht1|]. split; [exact Es|]. split; [exact Eg|]. lia.
  - cbn [fifo_prog set pending f_sys f_sends given map concat fst length] in *. rewrite !length_app. cbn [length]. split; [exact Ht1|]. split; [exact Es|].
    split; [exact Eg|]. lia.
Qed.
Lemma turn_empty f : pending f = [] -> fifo_writable f = f.
Proof. unfold fifo_writable. by intros ->. Qed.
Lemma turns_empty m f : pending f = [] -> fifo_run (replicate m EvWritable) f = f.
Proof. intros Hf. induction m as [|m IH]; [done|]. cbn [replicate fifo_run fifo_step]. by rewrite turn_empty. Qed.

Lemma drains c : plain -> forall f, user_queue f -> 0 <= f_sends f -> (cost f <= c)%nat -> takes (2 * c) f ->
  let f' := fifo_run (replicate (2 * c) EvWritable) f in pending f' = [] /\ given f' = given f.
Proof.
  intros Hpl. induction c as [|c IH]; intros f Hu Hs Hc Ht; cbv zeta.
  { unfold cost in Hc. cbn. split; [|done]. apply length_zero_iff_nil. lia. }
  destruct (decide (pending f = [])) as [E|E]; [by rewrite turns_empty|].
  replace (2 * S c)%nat with (S (S (2 * c))) in * by lia. cbn [replicate fifo_run fifo_step].
  destruct (turn_cost _ f Hpl Hu Ht E) as (Hu1 & Ht1 & Es1 & Eg1 & Hc1 & Hd1). set (f1 := fifo_writable f) in *.
  destruct (decide (pending f1 = [])) as [E1|E1]; [rewrite turn_empty, turns_empty by exact E1; done|].
  destruct (turn_cost _ f1 Hpl Hu1 Ht1 E1) as (Hu2 & Ht2 & Es2 & Eg2 & Hc2 & Hd2). set (f2 := fifo_writable f1) in *.
  destruct (IH f2) as [Hp Hg]; [exact Hu2|lia| |exact Ht2|].
  - destruct Hd1 as [Hd1|Hd1]; [|lia]. destruct Hd2 as [Hd2|Hd2]; [|lia]. exfalso. rewrite Es1 in Hd2.
    rewrite !Z.rem_mod_nonneg in * by lia. Z.div_mod_to_equations. lia.
  - by rewrite Hg, Eg2, Eg1.
Qed.

(** What is given is written: when each write takes something, twice as many turns
    as there are bytes and buffers are enough - one turn in 37 does not write -
    and then the loop is asked for no more of them. *)
Theorem send_queue_drains pr n c : idle n -> 0 <= sends n -> plain -> sends_only pr ->
  (cost (fifo_prog pr (fifo_of n)) <= c)%nat -> takes (2 * c) (fifo_of n) ->
  exists n', net_run user (EvUser pr :: replicate (2 * c) EvWritable) n = Ok (tt, n') /\
    wire n' = given (fifo_prog pr (fifo_of n)) /\ head_of n' = None /\ writable n' = None.
Proof.
  intros Hn Hs Hpl Hpr Hc Ht. destruct (run_step (EvUser pr :: replicate (2 * c) EvWritable) n (fifo_of n)) as (n' & E & Hn');
    [by apply idle_stands|exact (takes_no_failure _ _ Ht)|constructor|constructor; [exact Hpr|by apply Forall_replicate]|].
  exists n'. split; [exact E|]. cbn [fifo_run fifo_step] in Hn'. set (f1 := fifo_prog pr (fifo_of n)) in *.
  assert (Hsame : forall pr f, f_sends (fifo_prog pr f) = f_sends f /\ f_sys (fifo_prog pr f) = f_sys f).
  { clear. induction pr as [u| |data cb d k IH|m pa cb d k IH|k IH]; intros f; cbn [fifo_prog]; try done. by destruct (IH 0 (f <| pending ::= fun q => q ++ [(data, SendUser cb d)] |> <| given ::= fun g => g ++ data |>)) as [-> ->]. }
  destruct (Hsame pr (fifo_of n)) as [Es1 Ey1]. destruct (drains c Hpl f1) as [Hp Hg]; [| |exact Hc| |].
  - unfold f1. apply (fifo_prog_keeps pr); [exact (takes_no_failure _ _ Ht)|constructor].
  - unfold f1. rewrite Es1. exact Hs.
  - unfold takes, f1. rewrite Ey1. exact Ht.
  - set (f2 := fifo_run _ f1) in *. assert (Hso : fifo_sound f2) by (apply fifo_run_sound, fifo_prog_sound; done).
    destruct Hn' as (s & ps & Es & _ & _ & Hch & _ & _ & Ew & -> & _). rewrite Hp in Hch, Ew. unfold fifo_sound, left_to_send in Hso. rewrite Hp in Hso.
    cbn [map concat] in Hso. rewrite app_nil_r in Hso. split; [by rewrite Hso, Hg|]. split; [|exact Ew].
    unfold head_of. rewrite Es. cbn. by apply (chained_null _ _ _ _ Hch).
Qed.
End send.

(** The second buffer is given when the first was sent; the system takes three
    bytes, then none, then ten at most. *)
Definition wire_user (c : user_call) (u : list Z) : net_prog (list Z) :=
  match c with
  | UserSent 1 d e => NSend (map Z_byte [7; 8; 9]) 2 d (fun _ => NDone (1 :: u))
  | UserSent cb _ _ => NDone (cb :: u)
  | _ => NDone u
  end.
Definition quiet_user (c : user_call) (u : list Z) : net_prog (list Z) := match c with UserSent cb _ _ => NDone (cb :: u) | _ => NDone u end.
Definition wire_sys (ws : list (Z + Z)) : net_system := System [] [] [] [] [] ws [].
Definition wire_start (ws : list (Z + Z)) : net (U := list Z) :=
  (netasync_create (wire_sys ws) ([] : list Z)) <| the_sock ::= option_map (fun s => s <| fd := 3 |>) |>.
Definition wire_events : list (net_event (U := list Z)) :=
  [EvUser (NSend (map Z_byte [1; 2; 3; 4; 5]) 1 0 (fun _ => NDone [])); EvWritable; EvWritable; EvUser (NSend [x06] 3 0 (fun _ => NDone [])); EvWritable; EvWritable; EvWritable; EvWritable].

Lemma send_queue_refines_witness : exists n',
  net_run wire_user wire_events (wire_start [inl 3; inr EAGAIN; inl 10; inl 10; inl 10]) = Ok (tt, n') /\
  wire n' = map Z_byte [1; 2; 3; 4; 5; 6; 7; 8; 9] /\ head_of n' = None /\ prog_state n' = [2; 3; 1].
Proof.
  destruct (send_queue_refines wire_user) with (evs := wire_events) (n := wire_start [inl 3; inr EAGAIN; inl 10; inl 10; inl 10]) as (n' & E & _ & _).
  - intros [| |cb d e|]; cbn; try done. intros u. by repeat case_match.
  - eexists. split_and!; reflexivity.
  - unfold no_failure. cbn. repeat constructor.
  - repeat constructor.
  - exists n'. split; [exact E|]. revert E. vm_compute. intros [= <-]. split; [reflexivity|]. split; reflexivity.
Defined.

Lemma send_queue_drains_witness : exists n',
  net_run quiet_user (EvUser (NSend (map Z_byte [1; 2; 3]) 1 0 (fun _ => NSend [] 2 0 (fun _ => NDone []))) :: replicate 10 EvWritable)
    (wire_start (replicate 10 (inl 1))) = Ok (tt, n') /\
  wire n' = map Z_byte [1; 2; 3] /\ head_of n' = None /\ writable n' = None.
Proof.
  destruct (send_queue_drains quiet_user) with (pr := NSend (map Z_byte [1; 2; 3]) 1 0 (fun _ => NSend [] 2 0 (fun _ => NDone (U := list Z) [])))
    (n := wire_start (replicate 10 (inl 1))) (c := 5%nat) as (n' & E & Ew & Hh & Hw).
  - by intros [].
  - eexists. split_and!; reflexivity.
  - cbn. lia.
  - intros cb d u. by eexists.
  - done.
  - vm_compute. lia.
  - split; [cbn; lia|]. repeat constructor; (eexists; split; [reflexivity|lia]).
  - exists n'. exact (conj E (conj Ew (conj Hh Hw))).
Defined.
