(* ===== verification/NetConnect.v ===== *)
(** * What a connection comes to (lib/netasync/netasync.c)

    Without a proxy, one of the outcomes the peers know; what is said to a SOCKS 5
    proxy and what its answers do; a proxy that is not found. *)
From S2P Require Export Netasync.

Section connect.
Context {U : Type} (user : user_call -> U -> net_prog U).
Implicit Types n : net (U := U).

(** A new socket that is to use a proxy, at some address. *)
Definition proxied (y : net_system) (u : U) (a : sockaddr_in) (cb d : Z) : res (Z * net) :=
  (_ ← netasync_use_socks; netasync_connect user a 15 (Some (cb, d))) (netasync_create y u).

(** A proxy whose name is not found stops the process: the error of getaddrinfo()
    is not put in the socket, whose handler is called before the proxy was. *)
Theorem socks_unresolved_panics y (u : U) a cb d fd' : sockets y = [inl fd'] -> 0 < fd' -> nonblocks y = [] -> resolves y = [] -> so_errors y = [] ->
  proxied y u a cb d = Fault Panic.
Proof.
  intros Es Hfd En Er Eo. unfold proxied, netasync_connect, netasync_use_socks, netasync_create.
  do 4 (erewrite st_bind_Ok; [|reflexivity]). erewrite st_bind_Ok; [|unfold answer; cbn [sys]; cbn; rewrite Es; reflexivity]. cbv beta iota.
  erewrite st_bind_Ok; [|reflexivity]. erewrite st_bind_Ok; [|unfold answer; cbn; rewrite En; reflexivity].
  erewrite st_bind_Ok; [|reflexivity]. cbn [Z.eqb negb useSocks5 set]. erewrite st_bind_Ok; [|unfold answer; cbn; rewrite Er; reflexivity].
  rewrite bool_decide_eq_true_2 by done. unfold connect_exit. erewrite st_bind_Ok; [|reflexivity]. cbv zeta.
  assert (Ec : forall n s, the_sock n = Some s -> connect_timeout s = false -> err s = 0 -> 0 < fd s -> so_errors (sys n) = [] -> useSocks5 s = true ->
    socks_state s = SOCKS_INIT -> netasync_connected user n = Fault Panic).
  { clear. intros [so h w r t sn wi [] us] [] Es Ht Ee Hf Ey Eu Ei. cbn in *. subst.
    lazy -[Z.ltb]. rewrite (proj2 (Z.ltb_lt _ _) Hf).
    reflexivity. }
  unfold mbind at 1, st_bind at 1. erewrite Ec; [reflexivity|reflexivity|reflexivity|reflexivity|exact Hfd|exact Eo|reflexivity|reflexivity].
Qed.

(** What the calls of a connection without a proxy come to: socket(), fcntl(),
    connect(), then the error of the socket when there was none. *)
Definition dialled (y : net_system) : connect_outcome :=
  match hd (inl 3) (sockets y) with
  | inr e => CoNoSocket e
  | inl _ =>
      let e := hd 0 (nonblocks y) in
      if negb (e =? 0) then CoNow e else
      let c := hd EINPROGRESS (connects y) in
      if c =? 0 then CoNow (hd 0 (so_errors y)) else
      if c =? EINPROGRESS then CoPending else CoNow c
  end.

(** The callback is called with [e], the socket being connected no more. *)
Definition calls_back (cb d e : Z) n (r : res (Z * net (U := U))) : Prop :=
  exists n1 s1, the_sock n1 = Some s1 /\ connect_async s1 = false /\ connect_timeout s1 = false /\ err s1 = e /\
    writable n1 = writable n /\ timer n1 = timer n /\ ctxs n1 = ctxs n /\ prog_state n1 = prog_state n /\
    r = (_ ← call_user user (UserConnected cb d e); mret 0) n1.

Lemma answer_hd {A} (f : net_system -> list A) g (a : A) n : (f (sys n) = [] -> g [] (sys n) = sys n) ->
  answer f g a n = Ok (hd a (f (sys n)), n <| sys := g (tl (f (sys n))) (sys n) |>).
Proof. unfold answer. destruct (f (sys n)); cbn; [|done]. intros ->; [|done]. by destruct n. Qed.

(** The connection is over: the callback is called with the error of the socket. *)
Lemma connected_calls n s cb d : the_sock n = Some s -> connectCb s = Some (cb, d) -> connect_timeout s = false -> useSocks5 s = false -> 0 < fd s \/ err s <> 0 ->
  calls_back cb d (if err s =? 0 then hd 0 (so_errors (sys n)) else err s) n (connect_exit user (Some (cb, d)) n).
Proof.
  intros Es Ec Et Eu Hf. unfold connect_exit, sock_load. erewrite st_bind_Ok; [|by rewrite Es]. cbv zeta. rewrite bool_decide_eq_false_2 by done.
  unfold netasync_connected. rewrite !st_bind_assoc. erewrite st_bind_Ok; [|unfold on_sock; by rewrite Es].
  set (s1 := s <| connect_async := false |>). rewrite st_bind_assoc. erewrite st_bind_Ok; [|reflexivity]. change (connect_timeout s1) with (connect_timeout s). rewrite Et.
  rewrite st_bind_assoc. erewrite st_bind_Ok; [|reflexivity]. change (err s1) with (err s). destruct (Z.eqb_spec (err s) 0) as [E0|E0].
  - cbn [close_part]. unfold netasync_getsocket_errno. rewrite !st_bind_assoc. erewrite st_bind_Ok; [|reflexivity].
    rewrite !st_bind_assoc. erewrite st_bind_Ok; [|change (fd s1) with (fd s); unfold lift; rewrite (proj2 (Z.ltb_lt _ _)) by (by destruct Hf); reflexivity].
    erewrite st_bind_Ok; [|apply answer_hd; cbn; by destruct (sys n) as [? ? ? ? [] ? ?]]. cbn [sys set].
    erewrite st_bind_Ok; [|reflexivity]. rewrite st_bind_assoc. erewrite st_bind_Ok; [|reflexivity]. set (e := hd 0 (so_errors (sys n))).
    change (useSocks5 (s1 <| err := e |>)) with (useSocks5 s). rewrite Eu. change (connectCb (s1 <| err := e |>)) with (connectCb s).
    rewrite Ec. change (err (s1 <| err := e |>)) with e. cbn [connect_callback].
    match goal with |- calls_back _ _ _ _ (_ ?n1) => exists n1 end.
    eexists. split; [reflexivity|]. by repeat split.
  - cbn [close_part]. rewrite st_bind_assoc. erewrite st_bind_Ok; [|reflexivity]. rewrite st_bind_assoc. erewrite st_bind_Ok; [|reflexivity]. change (useSocks5 s1) with (useSocks5 s). rewrite Eu.
    change (connectCb s1) with (connectCb s). rewrite Ec. cbn [connect_callback]. match goal with |- calls_back _ _ _ _ (_ ?n1) => exists n1 end.
    eexists. split; [reflexivity|]. by repeat split.
Qed.

(** A connection without a proxy, for a caller with a callback: it is pending, with
    the socket registered and, if there is a limit, the timer set; or the callback
    is called at once; or no descriptor is left, and the process stops. *)
Theorem netasync_connect_outcomes n s addr t cb d : the_sock n = Some s -> useSocks5 s = false -> fd s < 0 -> writable n = None ->
  (forall f l, sockets (sys n) = inl f :: l -> 0 < f) -> (forall e l, sockets (sys n) = inr e :: l -> e <> 0) ->
  match dialled (sys n) with
  | CoPending => exists n' s', netasync_connect user addr t (Some (cb, d)) n = Ok (0, n') /\ the_sock n' = Some s' /\
      connect_async s' = true /\ connect_timeout s' = (0 <? t) /\ err s' = 0 /\ writable n' = Some CbConnected /\
      timer n' = (0 <? t) || timer n /\ ctxs n' = ctxs n /\ prog_state n' = prog_state n
  | CoNow e => calls_back cb d e n (netasync_connect user addr t (Some (cb, d)) n)
  | CoNoSocket e =>
      if (e =? EMFILE) || (e =? ENFILE) then netasync_connect user addr t (Some (cb, d)) n = Fault Panic
      else calls_back cb d e n (netasync_connect user addr t (Some (cb, d)) n)
  end.
Proof.
  intros Es Eu Hfd Hw Hpos Hneg. unfold netasync_connect, dialled. erewrite st_bind_Ok; [|unfold on_sock; by rewrite Es].
  erewrite st_bind_Ok; [|reflexivity]. erewrite st_bind_Ok; [|unfold lift; cbn [fd set]; rewrite (proj2 (Z.ltb_lt _ _)) by done; reflexivity].
  erewrite st_bind_Ok; [|apply answer_hd; cbn; by destruct (sys n) as [[] ? ? ? ? ? ?]]. cbn [sys set].
  set (s1 := s <| connectCb := _ |> <| connect_timeout := false |> <| connect_async := false |>).
  assert (Ht : forall n1 (s' : netasync_socket) e, the_sock n1 = Some s' -> connectCb s' = Some (cb, d) -> connect_timeout s' = false -> useSocks5 s' = false ->
    0 < fd s' \/ err s' <> 0 -> e = (if err s' =? 0 then hd 0 (so_errors (sys n1)) else err s') ->
    writable n1 = writable n -> timer n1 = timer n -> ctxs n1 = ctxs n -> prog_state n1 = prog_state n ->
    calls_back cb d e n (connect_exit user (Some (cb, d)) n1)).
  { intros n1 s' e E1 E2 E3 E4 E5 -> F1 F2 F3 F4. destruct (connected_calls n1 s' cb d E1 E2 E3 E4 E5) as (n2 & s2 & ? & ? & ? & ? & ? & ? & ? & ? & ?).
    exists n2, s2. repeat split; congruence. }
  destruct (hd (inl 3) (sockets (sys n))) as [f|e] eqn:Eo.
  - assert (Hf : 0 < f). { destruct (sockets (sys n)) as [|x l] eqn:El; cbn in Eo; [injection Eo as <-; lia|subst x; by apply (Hpos f l)]. }
    erewrite st_bind_Ok; [|reflexivity]. erewrite st_bind_Ok; [|apply answer_hd; cbn; by destruct (sys n) as [? [] ? ? ? ? ?]]. cbn [sys set].
    erewrite st_bind_Ok; [|reflexivity]. change (nonblocks (sys n <| sockets ::= tail |>)) with (nonblocks (sys n)). set (e := hd 0 (nonblocks (sys n))).
    destruct (Z.eqb_spec e 0) as [E0|E0]; cbn [negb].
    2: { eapply Ht; try reflexivity; [exact Eu|by right|]. cbn [set err]. by destruct (Z.eqb_spec e 0). }
    change (useSocks5 s1) with (useSocks5 s). rewrite Eu. erewrite st_bind_Ok; [|apply answer_hd; cbn; by destruct (sys n) as [? ? [] ? ? ? ?]]. cbn [sys set].
    set (c := hd EINPROGRESS (connects (sys n))).
    repeat match goal with |- context [hd EINPROGRESS (connects ?x)] => change (hd EINPROGRESS (connects x)) with c end.
    destruct (Z.eqb_spec c 0) as [Ec|Ec].
    { eapply Ht; try reflexivity; [exact Eu|by left|]. cbn [set err]. by rewrite E0. }
    unfold connect_pending. rewrite bool_decide_eq_false_2 by done. cbn [orb]. destruct (Z.eqb_spec c EINPROGRESS) as [Ep|Ep]; cbn [negb].
    + destruct (0 <? t); cbn [close_part]; rewrite ?st_bind_assoc.
      * do 3 (erewrite st_bind_Ok; [|reflexivity]). erewrite st_bind_Ok; [|unfold register_writable; cbn [writable set]; rewrite Hw; reflexivity].
        eexists _, _. split; [reflexivity|]. by repeat split.
      * do 2 (erewrite st_bind_Ok; [|reflexivity]). erewrite st_bind_Ok; [|unfold register_writable; cbn [writable set]; rewrite Hw; reflexivity].
        eexists _, _. split; [reflexivity|]. by repeat split.
    + erewrite st_bind_Ok; [|reflexivity]. eapply Ht; try reflexivity; [exact Eu|by right|]. cbn [set err]. by destruct (Z.eqb_spec c 0).
  - erewrite st_bind_Ok; [|reflexivity]. assert (He : e <> 0). { destruct (sockets (sys n)) as [|x l] eqn:El; cbn in Eo; [done|subst x; by apply (Hneg e l)]. }
    destruct ((e =? EMFILE) || (e =? ENFILE)); [done|]. eapply Ht; try reflexivity; [exact Eu|by right|]. cbn [set err]. by destruct (Z.eqb_spec e 0).
Qed.

Definition answers (os : list (option sockaddr_in)) (rs : list (list byte + Z)) : net_system :=
  System [] [] [] os [] (replicate 2 (inl 100)) rs.
End connect.

(** The greeting, the request for 1.2.3.4:8333, the answers in pieces; the callback
    is told of success. *)
Definition told_user (c : user_call) (u : list Z) : net_prog (list Z) :=
  match c with UserConnected cb d e => NDone (cb :: d :: e :: u) | UserError cb d e => NDone (cb :: d :: e :: u) | _ => NDone u end.
Definition connecting_events : list (net_event (U := list Z)) := [EvWritable; EvWritable; EvReadable; EvReadable; EvWritable; EvReadable].
Definition told (reply1 reply2 : list Z) : option (list Z * list Z) :=
  match proxied told_user (answers [Some (SockAddr [] [])] [inl (take 1 (map Z_byte reply1)); inr EAGAIN; inl (drop 1 (map Z_byte reply1));
      inl (take 4 (map Z_byte reply2)); inl (drop 4 (map Z_byte reply2))]) [] (SockAddr (map Z_byte [1; 2; 3; 4]) (map Z_byte [32; 141])) 7 8 with
  | Ok (0, n) => match net_run told_user connecting_events n with Ok (_, n) => Some (map byte_Z (wire n), prog_state n) | Fault _ => None end
  | _ => None
  end.
Example socks_accepted : told [5; 0] [5; 0; 0; 1; 0; 0; 0; 0; 0; 0] = Some ([5; 1; 0; 5; 1; 0; 1; 1; 2; 3; 4; 32; 141], [7; 8; 0]).
Proof. vm_compute. reflexivity. Qed.
Example socks_refused : told [5; 0] [5; 5; 0; 1; 0; 0; 0; 0; 0; 0] = Some ([5; 1; 0; 5; 1; 0; 1; 1; 2; 3; 4; 32; 141], [7; 8; EINVAL]).
Proof. vm_compute. reflexivity. Qed.
Example socks_no_authentication : told [5; 255] [] = Some ([5; 1; 0], [7; 8; EINVAL]).
Proof. vm_compute. reflexivity. Qed.

Lemma socks_unresolved_panics_witness :
  proxied told_user (System [inl 4] [] [] [] [] [] []) [] (SockAddr [] []) 7 8 = Fault Panic.
Proof. apply (socks_unresolved_panics told_user _ [] (SockAddr [] []) 7 8 4); [reflexivity|lia|reflexivity..]. Defined.
