(* ===== verification/AddrBook.v ===== *)
(** * The address book (core/addrbook.c)

    The addresses of peers the program has heard of, in a table of objects that
    the peers point into, saved to a file as an array of C structs. *)
From Stdlib Require Import Strings.String.
From S2P Require Export Objects Files Messages Config.

(** [sizeof(btc_msg_address)]: 30 bytes of fields, 2 of padding. *)
Definition sizeof_address : Z := 32.

Record peer_addr : Type := PeerAddr {
  pa_addr : btc_msg_address; pa_pad : list byte; pa_connected : bool; pa_triedalready : bool }.

(** The struct as memcpy sees it. *)
Definition address_image (a : peer_addr) : list byte :=
  let b := pa_addr a in
  le_bytes 8 (a_services b) ++ a_ip b ++ le_bytes 4 (a_time b) ++ le_bytes 2 (a_port b) ++ pa_pad a.
(** [calloc], then [memcpy(&a->addr, buf + i, 32)]. *)
Definition address_of (b : list byte) : peer_addr :=
  PeerAddr (MsgAddress (le_Z (take 8 b)) (take 16 (drop 8 b)) (le_Z (take 4 (drop 24 b))) (le_Z (take 2 (drop 28 b))))
    (drop 30 b) false false.

Section addrbook.
Context `{T : Table positive}.

Record addrbook : Type := AddrBook {
  ab_desc : file; ab_hash_addr : table; ab_heap : gmap positive peer_addr; ab_filename : list byte; ab_unsaved : Z }.

Definition with_desc (f : file) (b : addrbook) : addrbook :=
  AddrBook f (ab_hash_addr b) (ab_heap b) (ab_filename b) (ab_unsaved b).
Definition with_addrs (t : table) (b : addrbook) : addrbook :=
  AddrBook (ab_desc b) t (ab_heap b) (ab_filename b) (ab_unsaved b).
Definition with_objects (h : gmap positive peer_addr) (b : addrbook) : addrbook :=
  AddrBook (ab_desc b) (ab_hash_addr b) h (ab_filename b) (ab_unsaved b).
Definition with_unsaved (n : Z) (b : addrbook) : addrbook :=
  AddrBook (ab_desc b) (ab_hash_addr b) (ab_heap b) (ab_filename b) n.

(** [safe_calloc] of an address: its place and the book. *)
Definition new_addr (a : peer_addr) (b : addrbook) : positive * addrbook :=
  let p := obj_new (ab_heap b) in (p, with_objects (<[p := a]> (ab_heap b)) b).

Definition addrbook_add_entry_int (paddr : positive) : ST addrbook bool := fun b =>
  a ← obj_load (ab_heap b) paddr;
  '(s, t) ← t_insert (ab_hash_addr b) (a_ip (pa_addr a)) paddr;
  Ok (s, with_addrs t b).

Definition addrbook_get_count (b : addrbook) : Z := t_getnumentries (ab_hash_addr b).

Definition addrbook_remove_entry (paddr : positive) : ST addrbook unit := fun b =>
  a ← obj_load (ab_heap b) paddr;
  '(s, t) ← t_remove (ab_hash_addr b) (a_ip (pa_addr a));
  _ ← ASSERT s;
  Ok (tt, with_addrs t b).

(** [hashtable_get_entry_idx] through the interface: [get_entry_idx_spec]. *)
Definition t_entry_idx (t : table) (idx : Z) : res (option (list byte * positive)) :=
  if t_getnumentries t <? idx then Ok None else
  match t_entries t !! Z.to_nat idx with Some e => Ok (Some e) | None => Fault Panic end.

(** [rnd] is what [random()] gives. *)
Definition addrbook_get_rand_addr (rnd : Z) (b : addrbook) : res (option positive) :=
  let count := addrbook_get_count b in
  if count =? 0 then Ok None else
  e ← t_entry_idx (ab_hash_addr b) (rnd mod count);
  match e with
  | Some (key, addr) => _ ← ASSERT (Zlen key =? 16); Ok (Some addr)
  | None => Fault Panic
  end.

Definition addrbook_get_by_ip (b : addrbook) (ip : list byte) : res (option positive) := t_lookup (ab_hash_addr b) ip.

(** ** The file *)

(** [hashtable_linearize] through the interface. *)
Definition load_address (heap : gmap positive peer_addr) (p : positive) (n : Z) : res (list byte) :=
  a ← obj_load heap p; mem_load (address_image a) 0 n.
Definition t_linearize (t : table) (heap : gmap positive peer_addr) (entry_size : Z) : res (option (list byte)) :=
  let n := t_getnumentries t in
  if n =? 0 then Ok None else
  buf ← t_for_each t (hashtable_linearize_cb n entry_size (load_address heap)) [];
  Ok (Some buf).

(** The error and the book. *)
Definition addrbook_save : ST addrbook bool := fun b =>
  let count := addrbook_get_count b in
  _ ← ASSERT (0 <? count);
  addrs ← t_linearize (ab_hash_addr b) (ab_heap b) sizeof_address;
  match addrs with
  | None => Fault Panic
  | Some addrs =>
      let '(_, f) := file_truncate (ab_desc b) 0 in
      let '(r, numWritten, f) := file_pwrite f 0 addrs in
      let b := with_desc f b in
      Ok (r, if r || negb (numWritten =? count * sizeof_address) then b else with_unsaved 0 b)
  end.

Definition addrbook_add_entry (paddr : positive) : ST addrbook bool :=
  s ← addrbook_add_entry_int paddr;
  if negb s then mret false else
  _ ← (fun b => n ← i32 (ab_unsaved b + 1); Ok (tt, with_unsaved n b));
  n ← gets ab_unsaved;
  if 1000 <=? n then _ ← addrbook_save; mret s else mret s.

(** The entry of the address is freed, whoever points to it. *)
Definition addrbook_replace_entry (paddr : positive) : ST addrbook unit := fun b =>
  a ← obj_load (ab_heap b) paddr;
  o ← t_lookup (ab_hash_addr b) (a_ip (pa_addr a));
  match o with
  | None => Fault Panic
  | Some paddr0 =>
      '(_, b) ← addrbook_remove_entry paddr0 b;
      let b := with_objects (delete paddr0 (ab_heap b)) b in
      '(s, b) ← addrbook_add_entry paddr b;
      _ ← ASSERT s;
      Ok (tt, b)
  end.

(** [snprintf(path, PATH_MAX, "%s/peers.dat", dir)]; [dir] is the directory of
    the program. *)
Definition addrbook_get_path (dir : list byte) (conf : config) : res (option (list byte) * config) :=
  config_getstring conf (Some (take 4095 (dir ++ str "/peers.dat"))) (str "peers.filename").

(** The addresses of one read, each in a new object. *)
Fixpoint add_addresses (n : nat) (buf : list byte) : ST addrbook unit :=
  match n with
  | O => mret tt
  | S n => fun b =>
      let '(p, b) := new_addr (address_of (take 32 buf)) b in
      '(s, b) ← addrbook_add_entry_int p b;
      _ ← ASSERT s;
      add_addresses n (drop 32 buf) b
  end.

(** [btc_msg_address buf[10000]] *)
Definition sizeof_buf : Z := 10000 * sizeof_address.

(** The error of the last read and the book; [fuel] bounds the reads, a read
    that gives nothing being tried again. *)
Fixpoint load_addresses (fuel : nat) (offset size : Z) (res0 : bool) : ST addrbook bool :=
  match fuel with
  | O => fun _ => Fault UB
  | S fuel => fun b =>
      if negb (offset <? size) then Ok (res0, b) else
      let numBytes := minimum (size - offset) sizeof_buf in
      let '(r, buf, f) := file_pread (ab_desc b) offset numBytes in
      let b := with_desc f b in
      if r : bool then Ok (r, b) else
      '(_, b) ← add_addresses (Z.to_nat (Zlen buf / sizeof_address)) buf b;
      load_addresses fuel (offset + Zlen buf) size r b
  end.

(** The error, the book, the configuration and the directory. *)
Definition addrbook_open (dir : list byte) (conf : config) (d : disk) :
    res (bool * option addrbook * config * disk) :=
  hash ← t_create;
  '(name, conf) ← addrbook_get_path dir conf;
  match name with
  | None => Fault UB
  | Some filename =>
      let '(there, d) := file_exists filename d in
      '(r, d) ←
        (if there : bool then Ok (false, d) else
         let '(r, d) := file_create filename d in
         if r : bool then Ok (true, d) else going_on (file_chmod filename d));
      if r : bool then Ok (true, None, conf, d) else
      let '(desc, d) := file_open filename d in
      match desc with
      | None => Ok (true, None, conf, d)
      | Some f =>
          let '(size, f) := file_getsize f in
          if size <? 0 then Ok (true, None, conf, d) else
          '(r, b) ← load_addresses (S (Z.to_nat size + length (f_io f))) 0 size false (AddrBook f hash ∅ filename 0);
          Ok (r, Some b, conf, d)
      end
  end.

Definition addrbook_zap (dir : list byte) (conf : config) (d : disk) : res (config * disk) :=
  '(name, conf) ← addrbook_get_path dir conf;
  match name with
  | None => Fault UB
  | Some filename =>
      let '(there, d) := file_exists filename d in
      Ok (conf, if there : bool then (file_unlink filename d).2 else d)
  end.

(** The directory after the file is closed. *)
Definition addrbook_close (o : option addrbook) (d : disk) : res disk :=
  match o with
  | None => Ok d
  | Some b =>
      '(_, b) ← (if 0 <? ab_unsaved b then addrbook_save b else Ok (false, b));
      Ok (file_synced (ab_filename b) (ab_desc b) d)
  end.
End addrbook.

(** ** The struct *)

Definition address_wf (a : peer_addr) : Prop := wf_address (pa_addr a) /\ length (pa_pad a) = 2%nat.

(** What is saved of an address: the struct, not the flags. *)
Definition idle (a : peer_addr) : peer_addr := PeerAddr (pa_addr a) (pa_pad a) false false.

Lemma Zlen_address_image a : address_wf a -> Zlen (address_image a) = 32.
Proof. intros ((_ & Hip & _) & Hp). unfold address_image. zlen. unfold Zlen. rewrite Hip, Hp. lia. Qed.

Lemma address_of_image a : address_wf a -> address_of (address_image a) = idle a.
Proof.
  destruct a as [[sv ip tm po] pad c t]. intros ((Hs & Hip & Ht & Hpo) & Hpad). unfold address_of, address_image, idle.
  cbn [pa_addr pa_pad a_services a_ip a_time a_port] in *.
  assert (Hl : forall n v, length (le_bytes n v) = n) by apply length_le_bytes.
  assert (E1 : forall r, le_Z (take 8 (le_bytes 8 sv ++ r)) = sv).
  { intros r. rewrite take_app_length' by (by rewrite Hl). apply le_Z_bytes_small. lia. }
  assert (E2 : forall r, take 16 (drop 8 (le_bytes 8 sv ++ ip ++ r)) = ip).
  { intros r. rewrite drop_app_length' by (by rewrite Hl). by apply take_app_length'. }
  assert (E3 : forall r, le_Z (take 4 (drop 24 (le_bytes 8 sv ++ ip ++ le_bytes 4 tm ++ r))) = tm).
  { intros r. rewrite app_assoc, drop_app_length' by (rewrite length_app, Hl; lia).
    rewrite take_app_length' by (by rewrite Hl). apply le_Z_bytes_small. lia. }
  assert (E4 : le_Z (take 2 (drop 28 (le_bytes 8 sv ++ ip ++ le_bytes 4 tm ++ le_bytes 2 po ++ pad))) = po).
  { rewrite 2 app_assoc, drop_app_length' by (rewrite !length_app, !Hl; lia).
    rewrite take_app_length' by (by rewrite Hl). apply le_Z_bytes_small. lia. }
  assert (E5 : drop 30 (le_bytes 8 sv ++ ip ++ le_bytes 4 tm ++ le_bytes 2 po ++ pad) = pad).
  { rewrite 3 app_assoc. apply drop_app_length'. rewrite !length_app, !Hl. lia. }
  by rewrite E1, E2, E3, E4, E5.
Qed.

Section proofs.
Context `{T : Table positive}.
Implicit Types b : addrbook.
Implicit Types m : gmap (list byte) peer_addr.

(** The book holds the map [m]: each address under its ip. *)
Definition book_ok b m : Prop :=
  rep (ab_hash_addr b) (ab_heap b) m /\ map_Forall (fun ip a => a_ip (pa_addr a) = ip /\ address_wf a) m /\
  Z.of_nat (size m) < 2 ^ 32 - 1.

Definition images (l : list peer_addr) : list byte := concat (map address_image l).

Lemma Zlen_images l : Forall address_wf l -> Zlen (images l) = 32 * Zlen l.
Proof.
  unfold images. induction 1 as [|a l Ha _ IH]; [done|]. cbn [map concat]. rewrite Zlen_app, IH, Zlen_address_image by done. zlen. lia.
Qed.

Lemma book_entries b m : book_ok b m -> exists l, l ≡ₚ (map_to_list m).*2 /\ Zlen l = Z.of_nat (size m) /\
  Forall address_wf l /\ Forall2 (fun (e : list byte * positive) x => ab_heap b !! e.2 = Some x) (t_entries (ab_hash_addr b)) l.
Proof.
  intros (Hr & Hw & Hs). destruct (rep_entries _ _ _ Hr) as (l & Hp & HF). exists (l.*2).
  assert (Hl : Forall (fun x : list byte * peer_addr => a_ip (pa_addr x.2) = x.1 /\ address_wf x.2) l).
  { rewrite Hp. apply Forall_forall. intros [k e] Hin%elem_of_map_to_list. by apply (Hw k e). }
  split; [by rewrite Hp|]. split.
  { unfold Zlen. rewrite length_fmap, Hp. by rewrite length_map_to_list. }
  split; [clear -Hl; induction Hl as [|x l [_ ?] _ IH]; by constructor|].
  clear -HF. induction HF as [|[k p] [k' e] ents l [_ E] _ IH]; [constructor|]. by constructor.
Qed.

(** *** Saving *)

Lemma linearize_loop heap n : forall (ents : list (list byte * positive)) (l done0 : list peer_addr),
  Forall address_wf (done0 ++ l) -> Zlen (done0 ++ l) <= n ->
  Forall2 (fun e x => heap !! e.2 = Some x) ents l ->
  fold_entries (hashtable_linearize_cb n 32 (load_address heap)) ents (images done0) = Ok (images (done0 ++ l)).
Proof.
  intros ents l done0 Hw Hn HF. revert done0 Hw Hn. induction HF as [|[k p] a ents l Ea _ IH]; intros done0 Hw Hn.
  { by rewrite app_nil_r. }
  apply Forall_app in Hw as [Hd Hl]. inversion Hl as [|? ? Ha Hl']; subst. cbn [fold_entries]. unfold hashtable_linearize_cb at 2, load_address at 2.
  cbn [snd] in Ea. rewrite (obj_load_ok _ _ _ Ea), bind_ok.
  assert (Em : mem_load (address_image a) 0 32 = Ok (address_image a)).
  { pose proof (mem_load_app [] (address_image a) []) as Em. rewrite app_nil_r, Zlen_address_image in Em by done. exact Em. }
  rewrite Em, bind_ok, Zlen_images by done. rewrite Zlen_app, Zlen_cons in Hn. pose proof (Zlen_nonneg l).
  rewrite leb_t by lia. rewrite bind_ok. replace (images done0 ++ address_image a) with (images (done0 ++ [a])).
  2: { unfold images. rewrite map_app, concat_app. cbn [map concat]. by rewrite app_nil_r. }
  rewrite IH; [by rewrite <- app_assoc|by rewrite <- app_assoc; apply Forall_app|]. rewrite <- app_assoc. cbn [app]. zlen. lia.
Qed.

Lemma save_ok b m : book_ok b m -> m <> ∅ -> f_io (ab_desc b) = [] ->
  exists l b', addrbook_save b = Ok (false, b') /\ l ≡ₚ (map_to_list m).*2 /\ Forall address_wf l /\
    f_data (ab_desc b') = images l /\ f_io (ab_desc b') = [] /\ ab_unsaved b' = 0 /\ book_ok b' m /\ ab_filename b' = ab_filename b.
Proof.
  intros Hok Hne Hio. destruct (book_entries b m Hok) as (l & Hp & Hn & Hw & HF). pose proof Hok as (Hr & Hm & Hs).
  assert (Hpos : 0 < Z.of_nat (size m)).
  { destruct (size m) eqn:E; [by apply map_size_empty_inv in E|lia]. }
  unfold addrbook_save, addrbook_get_count, t_linearize. rewrite (rep_size _ _ _ Hr), ltb_t, eqb_f by lia. cbn [ASSERT]. rewrite bind_ok. unfold t_for_each.
  change (@nil byte) with (images []). rewrite (linearize_loop (ab_heap b) _ _ l []) by (try done; cbn [app]; lia). rewrite !bind_ok.
  unfold file_truncate, next_io. rewrite Hio. unfold file_pwrite. cbn [f_io f_data f_pos]. rewrite Hio. cbn [pwrite_loop tail app].
  rewrite Zlen_images, <- Hn by done. unfold sizeof_address. rewrite eqb_t by lia. cbn [orb negb].
  eexists l, _. split; [done|]. split; [done|]. split; [done|].
  cbn [with_unsaved with_desc ab_desc ab_unsaved ab_filename f_data f_io ab_hash_addr ab_heap]. split; [|split; [done|split; [done|split; [exact Hok|done]]]].
  change (Z.to_nat 0) with 0%nat. unfold file_put. rewrite !take_0. rewrite ?Nat.sub_0_l. cbn [app length replicate]. by rewrite drop_nil, app_nil_r.
Qed.

(** *** Loading *)

(** The addresses of a list, each idle, under their ips. *)
Definition load_map m (l : list peer_addr) : gmap (list byte) peer_addr :=
  foldl (fun m a => <[a_ip (pa_addr a) := idle a]> m) m l.

Lemma idle_wf a : address_wf a -> address_wf (idle a).
Proof. done. Qed.

Lemma add_address_ok b m a : book_ok b m -> address_wf a -> m !! a_ip (pa_addr a) = None -> Z.of_nat (size m) < 2 ^ 32 - 2 ->
  exists b' t, addrbook_add_entry_int (new_addr (idle a) b).1 (new_addr (idle a) b).2 = Ok (true, b') /\
    b' = with_addrs t (new_addr (idle a) b).2 /\ book_ok b' (<[a_ip (pa_addr a) := idle a]> m).
Proof.
  intros (Hr & Hm & Hs) Ha Hno Hs'. unfold addrbook_add_entry_int, new_addr. cbn [fst snd with_objects ab_heap ab_hash_addr].
  rewrite (obj_load_ok _ _ (idle a)) by apply lookup_insert_eq. rewrite bind_ok.
  destruct (rep_insert _ _ _ (a_ip (pa_addr a)) (obj_new (ab_heap b)) (idle a) Hr (obj_new_fresh _) Hs) as (t & Et & Ht).
  change (a_ip (pa_addr (idle a))) with (a_ip (pa_addr a)). rewrite Et, bind_ok, bool_decide_eq_true_2 by exact Hno.
  destruct (Ht Hno) as [Hr' _]. eexists _, t. split; [done|]. split; [done|].
  split; [exact Hr'|]. rewrite map_size_insert_None by exact Hno. split; [|lia].
  apply map_Forall_insert_2; [exact (conj eq_refl (idle_wf a Ha))|exact Hm].
Qed.

Lemma add_addresses_ok : forall (l : list peer_addr) b m rest, book_ok b m -> Forall address_wf l ->
  NoDup ((fun a => a_ip (pa_addr a)) <$> l) -> Forall (fun a => m !! a_ip (pa_addr a) = None) l ->
  Z.of_nat (size m) + Zlen l < 2 ^ 32 - 1 ->
  exists b', add_addresses (length l) (images l ++ rest) b = Ok (tt, b') /\ book_ok b' (load_map m l) /\
    Z.of_nat (size (load_map m l)) = Z.of_nat (size m) + Zlen l /\
    ab_desc b' = ab_desc b /\ ab_filename b' = ab_filename b /\ ab_unsaved b' = ab_unsaved b.
Proof.
  induction l as [|a l IH]; intros b m rest Hok Hw Hd Hno Hs; cbn [length add_addresses load_map foldl].
  { exists b. rewrite Zlen_nil. split; [done|]. split; [exact Hok|]. split; [lia|done]. }
  inversion Hw as [|? ? Ha Hw']; subst. inversion Hno as [|? ? Hn Hno']; subst.
  cbn [fmap list_fmap] in Hd. apply NoDup_cons in Hd as [Hni Hd]. rewrite Zlen_cons in *. pose proof (Zlen_nonneg l).
  unfold images. cbn [map concat]. fold (images l). rewrite <- app_assoc.
  assert (Hl : length (address_image a) = 32%nat) by (pose proof (Zlen_address_image a Ha) as E; unfold Zlen in E; lia).
  rewrite take_app_length', drop_app_length' by done. rewrite address_of_image by done.
  destruct (add_address_ok b m a Hok Ha Hn) as (b1 & t & E & Eb & Hok1); [lia|].
  unfold new_addr in E, Eb |- *. cbn [fst snd] in E, Eb. rewrite E, bind_ok. cbn [ASSERT]. rewrite bind_ok.
  assert (Hs1 : Z.of_nat (size (<[a_ip (pa_addr a) := idle a]> m)) = Z.of_nat (size m) + 1) by (rewrite map_size_insert_None by exact Hn; lia).
  destruct (IH b1 (<[a_ip (pa_addr a) := idle a]> m) rest Hok1 Hw' Hd) as (b' & E' & Hok' & Hs' & Hde & Hfi & Hun).
  - apply Forall_forall. intros a' Hin. rewrite lookup_insert_ne; [by eapply Forall_forall in Hno'|].
    intros Ee. apply Hni. rewrite Ee. apply list_elem_of_fmap. by exists a'.
  - lia.
  - exists b'. split; [exact E'|]. split; [exact Hok'|]. split; [fold (load_map (<[a_ip (pa_addr a) := idle a]> m) l); lia|].
    subst b1. by rewrite Hde, Hfi, Hun.
Qed.

Lemma images_app (l l' : list peer_addr) : images (l ++ l') = images l ++ images l'.
Proof. unfold images. by rewrite map_app, concat_app. Qed.

Lemma pread_images f (before l1 l2 : list peer_addr) : f_io f = [] -> f_data f = images (before ++ l1 ++ l2) ->
  file_pread f (Zlen (images before)) (Zlen (images l1)) = (false, images l1, f).
Proof.
  intros Hio Hd. unfold file_pread. rewrite Hio, Hd. cbn [pread_loop tail]. rewrite !to_nat_Zlen, !images_app.
  rewrite drop_app_length, take_app_length. destruct f as [da po io]. cbn in *. subst. by rewrite !images_app.
Qed.

Lemma load_addresses_ok : forall fuel (l : list peer_addr) b m (before : list peer_addr), book_ok b m -> Forall address_wf (before ++ l) ->
  NoDup ((fun a => a_ip (pa_addr a)) <$> l) -> Forall (fun a => m !! a_ip (pa_addr a) = None) l ->
  Z.of_nat (size m) + Zlen l < 2 ^ 32 - 1 -> f_io (ab_desc b) = [] -> f_data (ab_desc b) = images (before ++ l) -> (length l < fuel)%nat ->
  exists b', load_addresses fuel (Zlen (images before)) (Zlen (images (before ++ l))) false b = Ok (false, b') /\
    book_ok b' (load_map m l) /\ ab_filename b' = ab_filename b /\ ab_unsaved b' = ab_unsaved b /\
    f_data (ab_desc b') = f_data (ab_desc b) /\ f_io (ab_desc b') = [].
Proof.
  induction fuel as [|fuel IH]; intros l b m before Hok Hw Hd Hno Hs Hio Hda Hf; [lia|]. cbn [load_addresses].
  apply Forall_app in Hw as [Hw0 Hw]. rewrite images_app, Zlen_app, (Zlen_images l) by done.
  destruct (decide (l = [])) as [->|Hne].
  { rewrite (@Zlen_nil peer_addr), ltb_f by lia. exists b. split; [done|]. split; [exact Hok|done]. }
  assert (Hpos : 0 < Zlen l) by (destruct l; [done|zlia]). rewrite ltb_t by lia. cbn [negb].
  set (n := Nat.min (length l) (Z.to_nat 10000)). set (l1 := take n l) in *. set (l2 := drop n l) in *.
  assert (El : l = l1 ++ l2) by (symmetry; apply take_drop).
  assert (Hl1 : length l1 = n) by (unfold l1; rewrite length_take; lia).
  assert (Hn0 : (0 < n)%nat) by (unfold n, Zlen in *; lia).
  rewrite El in Hw, Hd, Hno, Hda. apply Forall_app in Hw as [Hw1 Hw2]. apply Forall_app in Hno as [Hno1 Hno2].
  rewrite fmap_app in Hd. apply NoDup_app in Hd as (Hd1 & Hdis & Hd2).
  assert (Hnum : minimum (Zlen (images before) + 32 * Zlen l - Zlen (images before)) sizeof_buf = Zlen (images l1)).
  { rewrite (Zlen_images l1) by done. unfold Zlen. rewrite Hl1. unfold minimum, sizeof_buf, sizeof_address, n.
    destruct (_ <? _) eqn:E; zbool; unfold Zlen in *; lia. }
  rewrite Hnum, (pread_images _ before l1 l2 Hio Hda).
  replace (with_desc (ab_desc b) b) with b by (by destruct b). rewrite (Zlen_images l1) by done.
  unfold sizeof_address. rewrite Z.mul_comm, Z.div_mul by lia. rewrite to_nat_Zlen.
  assert (Hlen : Zlen l = Zlen l1 + Zlen l2) by (rewrite El; apply Zlen_app).
  destruct (add_addresses_ok l1 b m [] Hok Hw1 Hd1 Hno1) as (b1 & E1 & Hok1 & Hs1 & Hde & Hfi & Hun); [pose proof (Zlen_nonneg l2); lia|].
  rewrite app_nil_r in E1. rewrite E1, bind_ok. rewrite app_assoc in Hda.
  specialize (IH l2 b1 (load_map m l1) (before ++ l1) Hok1). rewrite Hde in IH.
  assert (Hlm : load_map (load_map m l1) l2 = load_map m l) by (unfold load_map; by rewrite <- foldl_app, <- El).
  assert (Z2 : Zlen (images ((before ++ l1) ++ l2)) = Zlen (images before) + 32 * Zlen l1 + 32 * Zlen l2).
  { rewrite !images_app, !Zlen_app, (Zlen_images l1), (Zlen_images l2) by done. done. }
  assert (Z1 : Zlen (images (before ++ l1)) = Zlen (images before) + 32 * Zlen l1).
  { by rewrite images_app, Zlen_app, (Zlen_images l1) by done. }
  rewrite Z1, Z2 in IH.
  replace (Zlen (images before) + Zlen l1 * 32) with (Zlen (images before) + 32 * Zlen l1) by lia.
  replace (Zlen (images before) + 32 * Zlen l) with (Zlen (images before) + 32 * Zlen l1 + 32 * Zlen l2) by lia.
  destruct IH as (b' & E' & Hok' & Hfi' & Hun' & Hda' & Hio').
  - apply Forall_app; split; [apply Forall_app; by split|done].
  - done.
  - apply Forall_forall. intros a Ha. assert (Hmiss : forall l m, Forall (fun a' => a_ip (pa_addr a') <> a_ip (pa_addr a)) l ->
      m !! a_ip (pa_addr a) = None -> load_map m l !! a_ip (pa_addr a) = None).
    { clear. induction l as [|x l IH]; intros m Hl Hm; [done|]. inversion Hl; subst. cbn. apply IH; [done|]. by rewrite lookup_insert_ne. }
    apply Hmiss; [|by eapply Forall_forall in Hno2]. apply Forall_forall. intros x Hx Exa.
    apply (Hdis (a_ip (pa_addr x))); [apply list_elem_of_fmap; by exists x|]. rewrite Exa. apply list_elem_of_fmap. by exists a.
  - lia.
  - done.
  - exact Hda.
  - assert (length l = length l1 + length l2)%nat by (rewrite El; apply length_app). lia.
  - exists b'. rewrite Hlm in Hok'. split; [exact E'|]. split; [exact Hok'|]. rewrite Hfi', Hun', Hda'. by rewrite Hfi, Hun.
Qed.

Lemma load_map_list : forall (l : list peer_addr) m, NoDup ((fun a => a_ip (pa_addr a)) <$> l) ->
  Forall (fun a => m !! a_ip (pa_addr a) = None) l ->
  load_map m l = list_to_map ((fun a => (a_ip (pa_addr a), idle a)) <$> l) ∪ m.
Proof.
  induction l as [|a l IH]; intros m Hd Hno; cbn; [by rewrite map_empty_union|].
  cbn [fmap list_fmap] in Hd. apply NoDup_cons in Hd as [Hni Hd]. inversion Hno as [|? ? Hn Hno']; subst.
  fold (load_map (<[a_ip (pa_addr a) := idle a]> m) l). rewrite IH; [|done|].
  - rewrite <- insert_union_l, insert_union_r; [done|]. apply not_elem_of_list_to_map_1.
    intros [[k a'] [Ek Hin]]%list_elem_of_fmap. cbn in Ek. subst. apply Hni. apply list_elem_of_fmap in Hin as (a2 & [= -> ->] & Hin).
    apply list_elem_of_fmap. by exists a2.
  - apply Forall_forall. intros a' Hin. rewrite lookup_insert_ne; [by eapply Forall_forall in Hno'|].
    intros Ee. apply Hni. rewrite Ee. apply list_elem_of_fmap. by exists a'.
Qed.

(** The values of a map of addresses, read back. *)
Lemma load_map_all m (l : list peer_addr) : l ≡ₚ (map_to_list m).*2 -> map_Forall (fun ip a => a_ip (pa_addr a) = ip) m ->
  NoDup ((fun a => a_ip (pa_addr a)) <$> l) /\ load_map ∅ l = idle <$> m.
Proof.
  intros Hp Hm. assert (HF : Forall (fun x : list byte * peer_addr => a_ip (pa_addr x.2) = x.1) (map_to_list m)).
  { apply Forall_forall. intros [k a] Hin%elem_of_map_to_list. by apply Hm. }
  assert (E1 : (fun a => a_ip (pa_addr a)) <$> (map_to_list m).*2 = (map_to_list m).*1).
  { clear -HF. induction HF as [|[k a] l' E _ IH]; [done|]. cbn [fmap list_fmap fst snd] in *. by rewrite E, IH. }
  assert (E2 : (fun a => (a_ip (pa_addr a), idle a)) <$> (map_to_list m).*2 = prod_map id idle <$> map_to_list m).
  { clear -HF. induction HF as [|[k a] l' E _ IH]; [done|]. cbn [fmap list_fmap fst snd prod_map id] in *. by rewrite E, IH. }
  assert (Hnd : NoDup ((fun a => a_ip (pa_addr a)) <$> l)) by (rewrite Hp, E1; apply NoDup_fst_map_to_list).
  split; [done|]. rewrite load_map_list; [|done|apply Forall_forall; intros; by rewrite lookup_empty].
  rewrite (right_id_L ∅ (∪)), <- (list_to_map_to_list (idle <$> m)), map_to_list_fmap, <- E2.
  apply list_to_map_proper; [by rewrite <- list_fmap_compose|by rewrite Hp].
Qed.

Lemma book_address m : map_Forall (fun ip a => a_ip (pa_addr a) = ip /\ address_wf a) m -> map_Forall (fun ip a => a_ip (pa_addr a) = ip) m.
Proof. intros Hm ip a E. by apply Hm. Qed.

(** Opening a file that was saved. *)
Lemma book_open_ok dir conf conf' d filename m (l : list peer_addr) :
  addrbook_get_path dir conf = Ok (Some filename, conf') -> dk_files d !! filename = Some (images l) -> dk_io d = [] ->
  l ≡ₚ (map_to_list m).*2 -> Forall address_wf l -> map_Forall (fun ip a => a_ip (pa_addr a) = ip) m ->
  Z.of_nat (size m) < 2 ^ 32 - 1 ->
  exists b, addrbook_open dir conf d = Ok (false, Some b, conf', d) /\ book_ok b (idle <$> m) /\
    ab_unsaved b = 0 /\ ab_filename b = filename /\ f_io (ab_desc b) = [] /\ f_data (ab_desc b) = images l.
Proof.
  intros Hpath Hf Hio Hp Hw Hm Hs. destruct d as [files io]. cbn [dk_files dk_io] in Hf, Hio. subst io. destruct (load_map_all m l Hp Hm) as [Hnd Hall]. pose proof (Zlen_nonneg l).
  unfold addrbook_open. destruct t_create_ok as (t & -> & Ht). rewrite bind_ok, Hpath, bind_ok.
  unfold file_exists, dk_next. cbn [dk_io dk_files]. rewrite Hf, bool_decide_eq_true_2 by by eexists. cbn [andb]. rewrite bind_ok.
  unfold file_open, dk_next. cbn [dk_io dk_files]. rewrite Hf. unfold file_getsize, next_io. cbn [f_io f_data].
  rewrite ltb_f by apply Zlen_nonneg. assert (Hn : Zlen l = Z.of_nat (size m)) by (unfold Zlen; by rewrite Hp, length_fmap, length_map_to_list).
  assert (Hok : book_ok (AddrBook (File (images l) 0 []) t ∅ filename 0) ∅).
  { split; [apply (rep_empty _ _ Ht)|]. split; [apply map_Forall_empty|]. rewrite map_size_empty. lia. }
  destruct (load_addresses_ok (S (Z.to_nat (Zlen (images l)) + length (@nil io_outcome))) l _ ∅ [] Hok Hw Hnd) as (b & E & Hok' & Hfi & Hun & Hda & Hio').
  - apply Forall_forall. intros a _. apply lookup_empty.
  - rewrite map_size_empty. lia.
  - done.
  - done.
  - rewrite Zlen_images by done. unfold Zlen. cbn [length]. lia.
  - cbn [app] in E. change (Zlen (images [])) with 0 in E. rewrite E, bind_ok. exists b. split; [done|]. rewrite Hall in Hok'.
    split; [exact Hok'|]. done.
Qed.
End proofs.

(** ** Properties *)

(** C37: the book survives the program: what was added is written when the book is
    closed and found again when it is opened, every address with its services,
    time and port, none of them connected or tried. *)
Theorem addrbook_reopen `{T : Table positive} (b : addrbook) (m : gmap (list byte) peer_addr) (dir : list byte) (conf conf' : config) (d : disk) :
  book_ok b m -> m <> ∅ -> 0 < ab_unsaved b -> f_io (ab_desc b) = [] ->
  addrbook_get_path dir conf = Ok (Some (ab_filename b), conf') ->
  exists d' b', addrbook_close (Some b) d = Ok d' /\ addrbook_open dir conf d' = Ok (false, Some b', conf', d') /\
    book_ok b' (idle <$> m).
Proof.
  intros Hok Hne Hun Hio Hpath. destruct (save_ok b m Hok Hne Hio) as (l & b1 & E & Hp & Hw & Hda & Hio1 & _ & _ & Hfi).
  unfold addrbook_close. rewrite ltb_t by done. rewrite E, bind_ok. destruct Hok as (_ & Hm & Hs).
  destruct (book_open_ok dir conf conf' (file_synced (ab_filename b1) (ab_desc b1) d) (ab_filename b) m l Hpath) as (b' & E' & Hok' & _).
  - unfold file_synced. cbn [dk_files]. by rewrite Hfi, lookup_insert_eq, Hda.
  - exact Hio1.
  - done.
  - done.
  - by apply book_address.
  - done.
  - eexists _, b'. split; [done|]. split; [exact E'|exact Hok'].
Qed.

(** Closing a book stops the program when everything in it has been removed
    since something was added: an address is added to an empty book, its peer
    cannot be reached and the address is removed, the program exits. *)
Theorem addrbook_emptied_panics `{T : Table positive} (b : addrbook) (paddr : positive) (a : peer_addr) (d : disk) :
  tbl_ok (ab_hash_addr b) ∅ -> ab_heap b !! paddr = Some a -> 0 <= ab_unsaved b < 999 ->
  exists b1 b2, addrbook_add_entry paddr b = Ok (true, b1) /\ addrbook_remove_entry paddr b1 = Ok (tt, b2) /\
    addrbook_close (Some b2) d = Fault Panic.
Proof.
  intros Ht Hp Hu. set (ip := a_ip (pa_addr a)).
  destruct (t_insert_ok _ ∅ ip paddr Ht) as (t1 & E1 & Ht1); [rewrite map_size_empty; lia|].
  rewrite bool_decide_eq_true_2 in E1, Ht1 by apply lookup_empty. destruct (t_remove_ok _ _ ip Ht1) as (t2 & E2 & Ht2).
  rewrite bool_decide_eq_true_2 in E2 by (rewrite lookup_insert_eq; by eexists).
  eexists _, _. split; [|split].
  - unfold addrbook_add_entry. unfold mbind, st_bind, addrbook_add_entry_int. rewrite (obj_load_ok _ _ _ Hp), bind_ok. fold ip.
    rewrite E1, bind_ok. cbn [negb with_addrs ab_unsaved]. rewrite i32_ok by lia. cbn [mbind res_bind gets with_unsaved ab_unsaved].
    rewrite leb_f by lia. done.
  - unfold addrbook_remove_entry. cbn [with_unsaved with_addrs ab_heap ab_hash_addr]. rewrite (obj_load_ok _ _ _ Hp), bind_ok. fold ip.
    rewrite E2, bind_ok. done.
  - unfold addrbook_close. cbn [with_unsaved with_addrs ab_unsaved]. rewrite ltb_t by lia. unfold addrbook_save, addrbook_get_count.
    cbn [with_unsaved with_addrs ab_hash_addr]. rewrite (t_getnumentries_ok _ _ Ht2), delete_insert_id, map_size_empty by apply lookup_empty. done.
Qed.

(** An address that is removed from a book with nothing to save is there
    again at the next start: closing the book leaves the same file. *)
Theorem addrbook_removal_not_saved `{T : Table positive} (b b' : addrbook) (paddr : positive) (d : disk) :
  ab_unsaved b = 0 -> addrbook_remove_entry paddr b = Ok (tt, b') -> addrbook_close (Some b') d = addrbook_close (Some b) d.
Proof.
  intros Hu E. unfold addrbook_remove_entry in E. apply res_bind_Ok in E as (a & _ & E). apply res_bind_Ok in E as ([s t] & _ & E).
  apply res_bind_Ok in E as ([] & _ & E). injection E as <-. unfold addrbook_close. cbn [with_addrs ab_unsaved]. rewrite Hu. done.
Qed.

(** *** An address in a book *)

Definition one_address : peer_addr := PeerAddr (MsgAddress 1037 (replicate 10 x00 ++ [xff; xff; x0a; x00; x00; x01]) 1700000000 8333) [x00; x00] true true.
Definition book_dir : list byte := str "/home/user/.bitc".
Definition book_file : list byte := str "/home/user/.bitc/peers.dat".

Lemma one_book : exists b : addrbook, book_ok b {[a_ip (pa_addr one_address) := idle one_address]} /\ ab_unsaved b = 1 /\
  f_io (ab_desc b) = [] /\ ab_filename b = book_file.
Proof.
  destruct (t_create_ok (V := positive)) as (t & _ & Ht). set (b0 := AddrBook (File [] 0 []) t ∅ book_file 1).
  assert (Hok : book_ok b0 ∅) by (split; [by apply rep_empty|]; split; [apply map_Forall_empty|by rewrite map_size_empty]).
  destruct (add_address_ok b0 ∅ one_address Hok) as (b & t' & _ & -> & Hb); [split; [by repeat split|done]|by apply lookup_empty|by rewrite map_size_empty|].
  eexists. split; [exact Hb|]. done.
Qed.

Lemma addrbook_reopen_witness : exists (b : addrbook) conf' d' b', addrbook_close (Some b) (Disk ∅ []) = Ok d' /\
  addrbook_open book_dir config_create d' = Ok (false, Some b', conf', d') /\
  book_ok b' {[a_ip (pa_addr one_address) := idle one_address]}.
Proof.
  destruct one_book as (b & Hb & Hu & Hio & Hf). exists b.
  assert (Hp : exists conf', addrbook_get_path book_dir config_create = Ok (Some book_file, conf')) by (eexists; vm_compute; reflexivity).
  destruct Hp as (conf' & Hp). destruct (addrbook_reopen b _ book_dir config_create conf' (Disk ∅ []) Hb) as (d' & b' & E & E' & Hb').
  - apply map_non_empty_singleton.
  - by rewrite Hu.
  - done.
  - by rewrite Hf.
  - exists conf', d', b'. split; [exact E|]. split; [exact E'|]. by rewrite map_fmap_singleton in Hb'.
Defined.

Lemma addrbook_emptied_panics_witness : exists (b b1 b2 : addrbook), addrbook_add_entry 1 b = Ok (true, b1) /\
  addrbook_remove_entry 1 b1 = Ok (tt, b2) /\ addrbook_close (Some b2) (Disk ∅ []) = Fault Panic.
Proof.
  destruct (t_create_ok (V := positive)) as (t & _ & Ht). exists (AddrBook (File [] 0 []) t {[1%positive := one_address]} book_file 0).
  by apply (addrbook_emptied_panics _ 1 one_address).
Defined.
