(* ===== verification/CfHeaderStore.v ===== *)
(** * The store of filter headers (core/cfheader-store.c)

    The file is that of Files.v: any call to the system may fail or transfer
    fewer bytes than asked. The process's copy is the list of the
    first [count] entries of the array. An [int] status is a [bool], [true] for
    an error. *)
From S2P Require Export Files Hash.

(** ** The store *)

Definition CFHS_MAGIC_0 : Z := 0x42.
Definition CFHS_MAGIC_1 : Z := 0x54.
Definition CFHS_MAGIC_2 : Z := 0x43.
Definition CFHS_MAGIC_3 : Z := 0x46.
Definition CFHS_VERSION_1 : Z := 1.
Definition CFHS_VERSION_2 : Z := 2.
Definition CFHS_HEADER_SIZE_V1 : Z := 9.
Definition CFHS_HEADER_SIZE_V2 : Z := 13.
Definition CFHS_RECORD_SIZE : Z := 68.

Record cfheader_entry : Type := CfEntry {
  ce_height : Z; ce_filterHeader : uint256; ce_filterHash : uint256 }.

Record cfheaderstore : Type := Cfs {
  cfs_fd : file; cfs_headerSize : Z; cfs_baseHeight : Z;
  cfs_entries : list cfheader_entry; cfs_capacity : Z }.

Definition cfs_count (cfs : cfheaderstore) : Z := Zlen (cfs_entries cfs).

Definition set_fd (cfs : cfheaderstore) (f : file) : cfheaderstore :=
  Cfs f (cfs_headerSize cfs) (cfs_baseHeight cfs) (cfs_entries cfs) (cfs_capacity cfs).

Definition cfheader_calc `{Sha256} (filterHash prevFilterHeader : uint256) : uint256 :=
  hash256_calc (take 32 filterHash ++ take 32 prevFilterHeader).

Definition write_le32 (val : Z) : list byte := le_bytes 4 val.
Definition read_le32 (buf : list byte) : Z := le_Z (take 4 buf).

Definition header_image (headerSize count baseHeight : Z) : list byte :=
  map Z_byte [CFHS_MAGIC_0; CFHS_MAGIC_1; CFHS_MAGIC_2; CFHS_MAGIC_3;
    if headerSize =? CFHS_HEADER_SIZE_V2 then CFHS_VERSION_2 else CFHS_VERSION_1] ++
  write_le32 (wrap32 count) ++
  (if headerSize =? CFHS_HEADER_SIZE_V2 then write_le32 (wrap32 baseHeight) else []).

Definition cfheaderstore_write_header (cfs : cfheaderstore) : bool * cfheaderstore :=
  let hdr := header_image (cfs_headerSize cfs) (cfs_count cfs) (cfs_baseHeight cfs) in
  let '(res, f) := sys_lseek (cfs_fd cfs) 0 in
  if res : bool then (true, set_fd cfs f) else
  let '(n, f) := sys_write f (take (Z.to_nat (cfs_headerSize cfs)) hdr) in
  (negb (n =? cfs_headerSize cfs), set_fd cfs f).

(** [if (count >= capacity) { capacity *= 2; realloc }] *)
Definition grow_entries (cfs : cfheaderstore) : res cfheaderstore :=
  if cfs_capacity cfs <=? cfs_count cfs
  then c ← i32 (cfs_capacity cfs * 2);
       Ok (Cfs (cfs_fd cfs) (cfs_headerSize cfs) (cfs_baseHeight cfs) (cfs_entries cfs) c)
  else Ok cfs.

(** [entries[count] = ..; count++] *)
Definition add_entry (cfs : cfheaderstore) (e : cfheader_entry) : res cfheaderstore :=
  if cfs_count cfs <? cfs_capacity cfs
  then Ok (Cfs (cfs_fd cfs) (cfs_headerSize cfs) (cfs_baseHeight cfs) (cfs_entries cfs ++ [e])
               (cfs_capacity cfs))
  else Fault UB.

(** Each record takes at least a byte of the file, or ends the loop. *)
Fixpoint load_records (fuel : nat) (i count : Z) (cfs : cfheaderstore) : res cfheaderstore :=
  match fuel with
  | O => Fault UB
  | S fuel =>
      if negb (i <? count) then Ok cfs else
      let '(n, rec, f) := sys_read (cfs_fd cfs) (Z.to_nat CFHS_RECORD_SIZE) in
      let cfs := set_fd cfs f in
      if negb (n =? CFHS_RECORD_SIZE) then Ok cfs else
      cfs ← grow_entries cfs;
      cfs ← add_entry cfs (CfEntry (sint32 (read_le32 rec)) (take 32 (drop 4 rec)) (take 32 (drop 36 rec)));
      load_records fuel (i + 1) count cfs
  end.

(** The state of [cfheaderstore_init] once the file is open and its version
    known; [None] is a failure. *)
Definition init_fresh (f : file) : option cfheaderstore :=
  let '(res, cfs) := cfheaderstore_write_header (Cfs f CFHS_HEADER_SIZE_V2 (-1) [] 1024) in
  if res : bool then None else Some cfs.

Definition init_load (f : file) (headerSize : Z) : res (option cfheaderstore) :=
  let restLen := headerSize - 5 in
  let '(n, rest, f) := sys_read f (Z.to_nat restLen) in
  if negb (n =? restLen) then Ok (init_fresh f) else
  let count := sint32 (read_le32 rest) in
  cfs ← load_records (S (length (f_data f))) 0 count (Cfs f headerSize 0 [] 1024);
  let base :=
    match cfs_entries cfs with
    | e :: _ => ce_height e
    | [] => if headerSize =? CFHS_HEADER_SIZE_V1 then 0 else -1
    end in
  let cfs := Cfs (cfs_fd cfs) headerSize base (cfs_entries cfs) (cfs_capacity cfs) in
  if negb (cfs_count cfs =? count) then Ok (Some (cfheaderstore_write_header cfs).2) else Ok (Some cfs).

(** [fd] is the file that [open] gave, [None] if it failed. *)
Definition cfheaderstore_init (fd : option file) : res (option cfheaderstore) :=
  match fd with
  | None => Ok None
  | Some f =>
      let '(n, hdr, f) := sys_read f 5 in
      if n =? 0 then Ok (init_fresh f) else
      if negb (n =? 5) ||
         negb (bool_decide (take 4 hdr = map Z_byte [CFHS_MAGIC_0; CFHS_MAGIC_1; CFHS_MAGIC_2; CFHS_MAGIC_3]))
      then Ok (init_fresh f) else
      let version := le_Z (drop 4 hdr) in
      if version =? CFHS_VERSION_1 then init_load f CFHS_HEADER_SIZE_V1 else
      if version =? CFHS_VERSION_2 then init_load f CFHS_HEADER_SIZE_V2 else
      Ok (init_fresh f)
  end.

Definition last_height (cfs : cfheaderstore) : Z :=
  match last (cfs_entries cfs) with Some e => ce_height e | None => 0 end.

Definition cfheaderstore_get_tip_height (cfs : option cfheaderstore) : Z :=
  match cfs with
  | None => -1
  | Some cfs => if cfs_count cfs =? 0 then -1 else last_height cfs
  end.

Definition cfheaderstore_get_base_height (cfs : option cfheaderstore) : Z :=
  match cfs with
  | None => -1
  | Some cfs => if cfs_count cfs =? 0 then -1 else cfs_baseHeight cfs
  end.

(** The second half of [cfheaderstore_append]: the record, then the header. *)
Definition append_record (cfs : cfheaderstore) (height : Z) (filterHeader filterHash : uint256) :
    res (bool * cfheaderstore) :=
  let rec := write_le32 (wrap32 height) ++ filterHeader ++ filterHash in
  let offset := cfs_headerSize cfs + cfs_count cfs * CFHS_RECORD_SIZE in
  let '(r, f) := sys_lseek (cfs_fd cfs) offset in
  let cfs := set_fd cfs f in
  if r : bool then Ok (true, cfs) else
  let '(n, f) := sys_write f rec in
  let cfs := set_fd cfs f in
  if negb (n =? CFHS_RECORD_SIZE) then Ok (true, cfs) else
  let base := if cfs_count cfs =? 0 then height else cfs_baseHeight cfs in
  let cfs := Cfs f (cfs_headerSize cfs) base (cfs_entries cfs) (cfs_capacity cfs) in
  cfs ← add_entry cfs (CfEntry height filterHeader filterHash);
  Ok (cfheaderstore_write_header cfs).

Definition cfheaderstore_append (cfs : cfheaderstore) (height : Z) (filterHeader filterHash : uint256) :
    res (bool * cfheaderstore) :=
  refused ←
    (if cfs_count cfs =? 0
     then Ok ((0 <=? cfs_baseHeight cfs) && negb (height =? cfs_baseHeight cfs))
     else expected ← i32 (last_height cfs + 1); Ok (negb (height =? expected)));
  if (refused : bool) then Ok (true, cfs) else
  cfs ← grow_entries cfs;
  append_record cfs height filterHeader filterHash.

(** The entry of a height, as both getters find it; [None] is the error. *)
Definition entry_at (cfs : cfheaderstore) (height : Z) : res (option cfheader_entry) :=
  if cfs_count cfs =? 0 then Ok None else
  idx ← i32 (height - cfs_baseHeight cfs);
  if (idx <? 0) || (cfs_count cfs <=? idx) then Ok None else
  match cfs_entries cfs !! Z.to_nat idx with Some e => Ok (Some e) | None => Fault UB end.

Definition cfheaderstore_get_header (cfs : cfheaderstore) (height : Z) : res (option uint256) :=
  e ← entry_at cfs height; Ok (option_map ce_filterHeader e).

Definition cfheaderstore_get_hash (cfs : cfheaderstore) (height : Z) : res (option uint256) :=
  e ← entry_at cfs height; Ok (option_map ce_filterHash e).

(** ** What the file holds *)

Definition record_image (e : cfheader_entry) : list byte :=
  write_le32 (wrap32 (ce_height e)) ++ ce_filterHeader e ++ ce_filterHash e.

Definition entry_wf (e : cfheader_entry) : Prop :=
  is_uint256 (ce_filterHeader e) /\ is_uint256 (ce_filterHash e) /\ - 2 ^ 31 <= ce_height e < 2 ^ 31.

Definition version_of (headerSize : Z) : Z :=
  if headerSize =? CFHS_HEADER_SIZE_V2 then CFHS_VERSION_2 else CFHS_VERSION_1.
Definition header_start (headerSize : Z) : list byte :=
  map Z_byte [CFHS_MAGIC_0; CFHS_MAGIC_1; CFHS_MAGIC_2; CFHS_MAGIC_3; version_of headerSize].

Definition size_ok (headerSize : Z) : Prop :=
  headerSize = CFHS_HEADER_SIZE_V1 \/ headerSize = CFHS_HEADER_SIZE_V2.

(** A header that announces [t] records, followed by the records of [es]
    and anything. The base height of the header is not constrained: it is not
    used. *)
Definition disk_holds (data : list byte) (headerSize t : Z) (es : list cfheader_entry) : Prop :=
  exists bb junk, data = header_start headerSize ++ le_bytes 4 t ++ bb ++ concat (map record_image es) ++ junk /\
    Zlen bb = headerSize - 9 /\ 0 <= t <= Zlen es.

(** The base height [cfheaderstore_init] derives. *)
Definition base_of (headerSize : Z) (es : list cfheader_entry) : Z :=
  match es with
  | e :: _ => ce_height e
  | [] => if headerSize =? CFHS_HEADER_SIZE_V1 then 0 else -1
  end.

Lemma sint32_wrap32 z : - 2 ^ 31 <= z < 2 ^ 31 -> sint32 (wrap32 z) = z.
Proof.
  intros Hz. unfold sint32, wrap32. rewrite Zplus_mod_idemp_l. rewrite Z.mod_small by lia. lia.
Qed.

Lemma Zlen_record e : entry_wf e -> Zlen (record_image e) = 68.
Proof.
  intros (H1 & H2 & _). unfold record_image, write_le32. zlen. unfold Zlen. rewrite H1, H2. done.
Qed.

Lemma read_record e : entry_wf e ->
  CfEntry (sint32 (read_le32 (record_image e))) (take 32 (drop 4 (record_image e)))
    (take 32 (drop 36 (record_image e))) = e.
Proof.
  intros (H1 & H2 & H3). unfold record_image, read_le32, write_le32.
  rewrite take_app_length' by (by rewrite length_le_bytes).
  rewrite le_Z_bytes_small by apply wrap32_bound. rewrite sint32_wrap32 by done.
  rewrite drop_app_length' by (by rewrite length_le_bytes). rewrite take_app_length' by (by rewrite H1).
  replace 36%nat with (4 + 32)%nat by done. rewrite <- drop_drop, drop_app_length' by (by rewrite length_le_bytes).
  rewrite drop_app_length' by (by rewrite H1). rewrite take_ge by (rewrite H2; lia). by destruct e.
Qed.

(** *** Loading *)

Definition room (cfs : cfheaderstore) (es : list cfheader_entry) : Prop :=
  cfs_count cfs + Zlen es < 2 ^ 30 /\ cfs_count cfs <= cfs_capacity cfs /\
  cfs_capacity cfs <= Z.max 1024 (2 * cfs_count cfs) /\ 1024 <= cfs_capacity cfs.

Lemma grow_add cfs e es :
  room cfs (e :: es) ->
  exists cfs', (cfs ← grow_entries cfs; add_entry cfs e) = Ok cfs' /\ room cfs' es /\
    cfs_fd cfs' = cfs_fd cfs /\ cfs_headerSize cfs' = cfs_headerSize cfs /\
    cfs_baseHeight cfs' = cfs_baseHeight cfs /\ cfs_entries cfs' = cfs_entries cfs ++ [e].
Proof.
  unfold room, cfs_count. intros (H1 & H2 & H3 & H4). rewrite Zlen_cons in H1.
  pose proof (Zlen_nonneg es). unfold grow_entries, cfs_count.
  destruct (Z.leb_spec (cfs_capacity cfs) (Zlen (cfs_entries cfs))) as [Hl|Hl].
  - rewrite i32_ok by lia. rewrite !bind_ok. unfold add_entry, cfs_count. cbn [cfs_entries cfs_capacity].
    rewrite ltb_t by lia. eexists. split; [done|]. cbn. rewrite Zlen_app, Zlen_cons, Zlen_nil.
    repeat split; lia.
  - rewrite bind_ok. unfold add_entry, cfs_count. rewrite ltb_t by lia. eexists. split; [done|]. cbn.
    rewrite Zlen_app, Zlen_cons, Zlen_nil. repeat split; lia.
Qed.

Lemma grow_keeps cfs cfs' :
  grow_entries cfs = Ok cfs' -> cfs_fd cfs' = cfs_fd cfs /\ cfs_entries cfs' = cfs_entries cfs.
Proof.
  unfold grow_entries. destruct (_ <=? _); [|by intros [= <-]].
  destruct (i32 _); [|done]. rewrite bind_ok. by intros [= <-].
Qed.

Lemma add_entry_room cfs e cfs' : add_entry cfs e = Ok cfs' -> cfs_count cfs < cfs_capacity cfs.
Proof. unfold add_entry. by destruct (Z.ltb_spec (cfs_count cfs) (cfs_capacity cfs)). Qed.

Lemma load_records_spec es : forall fuel i count cfs data pos rest,
  cfs_fd cfs = File data pos [] -> 0 <= pos -> drop (Z.to_nat pos) data = concat (map record_image es) ++ rest ->
  Forall entry_wf es -> count - i = Zlen es -> room cfs es -> (length es < fuel)%nat ->
  exists cfs', load_records fuel i count cfs = Ok cfs' /\
    cfs_entries cfs' = cfs_entries cfs ++ es /\ f_data (cfs_fd cfs') = data /\ f_io (cfs_fd cfs') = [] /\
    room cfs' [].
Proof.
  induction es as [|e es IH]; intros fuel i count cfs data pos rest Hf Hp Hd Hw Hc Hr Hfu;
    (destruct fuel as [|fuel]; [cbn in Hfu; lia|]); cbn [load_records].
  { rewrite Zlen_nil in Hc. rewrite ltb_f by lia. cbn. exists cfs. rewrite app_nil_r, Hf. done. }
  rewrite Zlen_cons in Hc. pose proof (Zlen_nonneg es). rewrite ltb_t by lia. cbn [negb].
  inversion Hw as [|? ? He Hw']; subst. cbn [map concat] in Hd. rewrite <- app_assoc in Hd.
  pose proof (Zlen_record e He) as Hl. assert (Hl' : length (record_image e) = Z.to_nat CFHS_RECORD_SIZE)
    by (unfold Zlen in Hl; change (Z.to_nat CFHS_RECORD_SIZE) with 68%nat; lia).
  rewrite Hf, (sys_read_all _ _ _ _ _ Hd Hl'). change (Z.of_nat (Z.to_nat CFHS_RECORD_SIZE)) with 68.
  change (68 =? CFHS_RECORD_SIZE) with true. cbn [negb]. rewrite read_record by done.
  destruct (grow_add (set_fd cfs (File data (pos + 68) [])) e es) as (cfs1 & E & Hr1 & Hf1 & Hh1 & Hb1 & He1);
    [exact Hr|].
  apply res_bind_Ok in E as (cfs0 & E0 & E1). rewrite E0, bind_ok, E1, bind_ok.
  destruct (IH fuel (i + 1) count cfs1 data (pos + 68) rest) as (cfs2 & -> & He2 & Hd2 & Hi2 & Hr2).
  - by rewrite Hf1.
  - lia.
  - replace 68 with (Z.of_nat (Z.to_nat CFHS_RECORD_SIZE)) by done. by eapply drop_read.
  - done.
  - lia.
  - done.
  - cbn in Hfu. lia.
  - exists cfs2. split; [done|]. split; [|done]. rewrite He2, He1. cbn. by rewrite <- app_assoc.
Qed.

Lemma Zlen_records es : Forall entry_wf es -> Zlen (concat (map record_image es)) = 68 * Zlen es.
Proof.
  induction 1 as [|e es He _ IH]; [done|]. cbn [map concat].
  rewrite Zlen_app, Zlen_cons, Zlen_record, IH by done. lia.
Qed.

Definition reopened (cfs : cfheaderstore) (data : list byte) (headerSize : Z) (es : list cfheader_entry) : Prop :=
  cfs_entries cfs = es /\ cfs_headerSize cfs = headerSize /\ cfs_baseHeight cfs = base_of headerSize es /\
  f_data (cfs_fd cfs) = data /\ f_io (cfs_fd cfs) = [] /\ room cfs [].

Lemma init_load_spec data hs t es pre :
  size_ok hs -> disk_holds data hs t es -> Forall entry_wf es -> Zlen es < 2 ^ 30 -> pre = 5 ->
  exists cfs, init_load (File data pre []) hs = Ok (Some cfs) /\ reopened cfs data hs (take (Z.to_nat t) es).
Proof.
  intros Hs (bb & junk & Ed & Hbb & Ht) Hw Hl ->. unfold init_load.
  assert (Hrest : Z.of_nat (Z.to_nat (hs - 5)) = hs - 5) by (destruct Hs as [-> | ->]; done).
  assert (Hlen : length (le_bytes 4 t ++ bb) = Z.to_nat (hs - 5)).
  { rewrite length_app, length_le_bytes. unfold Zlen in Hbb. destruct Hs as [-> | ->]; cbn in *; lia. }
  assert (Hd5 : drop (Z.to_nat 5) data = (le_bytes 4 t ++ bb) ++ concat (map record_image es) ++ junk).
  { rewrite Ed. change (Z.to_nat 5) with (length (header_start hs)). by rewrite drop_app_length, <- app_assoc. }
  rewrite (sys_read_all _ _ _ _ _ Hd5 Hlen), Hrest, Z.eqb_refl. cbn [negb].
  assert (Ec : sint32 (read_le32 (le_bytes 4 t ++ bb)) = t).
  { unfold read_le32. rewrite take_app_length' by (by rewrite length_le_bytes).
    rewrite le_Z_bytes_small by lia. apply sint32_small. lia. }
  rewrite Ec. cbn [f_data].
  assert (Htl : Zlen (take (Z.to_nat t) es) = t) by (unfold Zlen in *; rewrite length_take; lia).
  assert (Hwt : Forall entry_wf (take (Z.to_nat t) es)) by (by apply Forall_take).
  destruct (load_records_spec (take (Z.to_nat t) es) (S (length data)) 0 t (Cfs (File data (5 + (hs - 5)) []) hs 0 [] 1024)
    data (5 + (hs - 5)) (concat (map record_image (drop (Z.to_nat t) es)) ++ junk)) as (cfs & -> & He & Hda & Hio & Hr).
  - done.
  - destruct Hs as [-> | ->]; done.
  - rewrite <- Hrest, (drop_read data 5 _ _ _ ltac:(done) Hd5 Hlen).
    by rewrite app_assoc, <- concat_app, <- map_app, take_drop.
  - done.
  - lia.
  - unfold room, cfs_count. cbn [cfs_entries cfs_capacity]. rewrite Zlen_nil. lia.
  - assert (Hle : Zlen es <= Zlen data).
    { pose proof (Zlen_records es Hw). rewrite Ed. zlen. zlia. }
    rewrite length_take. unfold Zlen in Hle. lia.
  - rewrite bind_ok. cbn [cfs_entries app] in He. unfold cfs_count. cbn [cfs_entries].
    rewrite He, Htl, Z.eqb_refl. cbn [negb]. eexists. split; [done|].
    unfold reopened. cbn [cfs_entries cfs_headerSize cfs_baseHeight cfs_fd].
    split; [done|]. split; [done|]. split; [done|]. split; [done|]. split; [done|].
    unfold room, cfs_count in *. cbn [cfs_entries cfs_capacity] in *. by rewrite He in *.
Qed.

Lemma init_spec data hs t es :
  size_ok hs -> disk_holds data hs t es -> Forall entry_wf es -> Zlen es < 2 ^ 30 ->
  exists cfs, cfheaderstore_init (Some (File data 0 [])) = Ok (Some cfs) /\
    reopened cfs data hs (take (Z.to_nat t) es).
Proof.
  intros Hs Hd Hw Hl. pose proof Hd as (bb & junk & Ed & _). unfold cfheaderstore_init.
  rewrite (sys_read_all data 0 5 (header_start hs) _ Ed eq_refl).
  destruct (init_load_spec data hs t es 5 Hs Hd Hw Hl eq_refl) as (cfs & E & Hr).
  exists cfs. split; [|done]. rewrite <- E. by destruct Hs as [-> | ->].
Qed.

(** ** Writing *)

(** A write cut after [k] bytes leaves a mixture of the new bytes and the old. *)
Lemma torn_app (k : nat) (x1 x2 y1 y2 : list byte) :
  length x1 = length y1 ->
  take k (x1 ++ x2) ++ drop k (y1 ++ y2) =
  (take k x1 ++ drop k y1) ++ take (k - length x1) x2 ++ drop (k - length x1) y2.
Proof.
  intros Hl. rewrite take_app, drop_app, <- Hl. rewrite <- !app_assoc.
  destruct (Nat.le_gt_cases k (length x1)) as [Hk|Hk].
  - replace (k - length x1)%nat with 0%nat by lia. by rewrite !take_0.
  - rewrite (drop_ge y1) by lia. done.
Qed.

Lemma take_le_bytes j : forall n v, (j <= n)%nat -> take j (le_bytes n v) = le_bytes j v.
Proof.
  induction j as [|j IH]; intros n v Hj; [done|]. destruct n as [|n]; [lia|].
  change (Z_byte v :: take j (le_bytes n (v / 256)) = Z_byte v :: le_bytes j (v / 256)).
  by rewrite IH by lia.
Qed.

Lemma drop_le_bytes j : forall n v, (j <= n)%nat -> drop j (le_bytes n v) = le_bytes (n - j) (v / 256 ^ Z.of_nat j).
Proof.
  induction j as [|j IH]; intros n v Hj; [by rewrite drop_0, Nat.sub_0_r, Z.div_1_r|].
  destruct n as [|n]; [lia|]. change (drop (S j) (le_bytes (S n) v)) with (drop j (le_bytes n (v / 256))).
  rewrite IH, Nat.sub_succ by lia. f_equal.
  rewrite Z.div_div by lia. f_equal. rewrite Nat2Z.inj_succ, Z.pow_succ_r by lia. lia.
Qed.

(** A counter that was being incremented reads as at most its new value. *)
Lemma torn_counter (k : nat) c :
  0 <= c < 2 ^ 31 ->
  exists t, take k (le_bytes 4 (c + 1)) ++ drop k (le_bytes 4 c) = le_bytes 4 t /\ 0 <= t <= c + 1 /\
    ((4 <= k)%nat -> t = c + 1) /\ (k = 0%nat -> t = c).
Proof.
  intros Hc. destruct (Nat.le_gt_cases 4 k) as [Hk|Hk].
  { exists (c + 1). rewrite take_ge, drop_ge by (rewrite length_le_bytes; lia).
    rewrite app_nil_r. split; [done|]. split; [lia|]. split; [done|lia]. }
  rewrite take_le_bytes, drop_le_bytes by lia.
  set (M := 256 ^ Z.of_nat k). assert (HM : 0 < M) by (apply Z.pow_pos_nonneg; lia).
  exists ((c + 1) mod M + M * (c / M)).
  assert (Hb : 0 <= c / M) by (apply Z.div_pos; lia).
  pose proof (Z.mod_pos_bound (c + 1) M HM) as Hm. pose proof (Z.div_mod c M ltac:(lia)) as Hdm.
  pose proof (Z.mod_pos_bound c M HM) as Hm2.
  assert (Hle : (c + 1) mod M + M * (c / M) <= c + 1).
  { pose proof (Z.mod_le (c mod M + 1) M ltac:(lia) HM).
    replace (c + 1) with (c mod M + 1 + (c / M) * M) at 1 by lia.
    rewrite Z_mod_plus_full. lia. }
  split; [|split; [nia|split; [lia|]]].
  - rewrite <- (le_bytes_Z (le_bytes k (c + 1) ++ le_bytes (4 - k) (c / M))).
    rewrite length_app, !length_le_bytes. replace (k + (4 - k))%nat with 4%nat by lia. f_equal.
    rewrite le_Z_app, Zlen_le_bytes, !le_Z_bytes. fold M.
    assert (H8 : 2 ^ (8 * Z.of_nat k) = M) by (unfold M; rewrite Z.pow_mul_r by lia; done).
    rewrite H8. rewrite (Z.mod_small (c / M)); [done|]. split; [done|].
    apply Z.div_lt_upper_bound; [done|]. rewrite <- H8, <- Z.pow_add_r by lia.
    replace (8 * Z.of_nat k + 8 * Z.of_nat (4 - k)) with 32 by lia. lia.
  - intros ->. unfold M. cbn. rewrite Z.mod_1_r, Z.div_1_r. lia.
Qed.

(** *** The header and the records *)

Lemma header_image_parts hs c base :
  size_ok hs -> 0 <= c < 2 ^ 32 ->
  exists bb, take (Z.to_nat hs) (header_image hs c base) = header_start hs ++ le_bytes 4 c ++ bb /\
    Zlen bb = hs - 9.
Proof.
  intros Hs Hc. unfold header_image, write_le32. rewrite (wrap32_small c) by done.
  exists (if hs =? CFHS_HEADER_SIZE_V2 then le_bytes 4 (wrap32 base) else []).
  split; [|by destruct Hs as [-> | ->]].
  rewrite take_ge; [by destruct Hs as [-> | ->]|].
  rewrite !length_app, length_map, length_le_bytes.
  destruct Hs as [-> | ->]; cbn; rewrite ?length_le_bytes; unfold CFHS_HEADER_SIZE_V1, CFHS_HEADER_SIZE_V2; lia.
Qed.

Lemma torn_header k hs c bb bb' R :
  0 <= c < 2 ^ 31 -> Zlen bb = hs - 9 -> Zlen bb' = hs - 9 -> (k <= Z.to_nat hs)%nat ->
  exists t bb'', take k (header_start hs ++ le_bytes 4 (c + 1) ++ bb') ++
      drop k (header_start hs ++ le_bytes 4 c ++ bb ++ R) =
    header_start hs ++ le_bytes 4 t ++ bb'' ++ R /\
    Zlen bb'' = hs - 9 /\ 0 <= t <= c + 1 /\ (k = Z.to_nat hs -> t = c + 1) /\ (k = 0%nat -> t = c).
Proof.
  intros Hc Hbb Hbb' Hk. rewrite torn_app by done. rewrite take_drop.
  change (length (header_start hs)) with 5%nat. rewrite torn_app by (by rewrite !length_le_bytes).
  rewrite length_le_bytes. destruct (torn_counter (k - 5) c Hc) as (t & -> & Ht & Hfull & Hnone).
  exists t, (take (k - 5 - 4) bb' ++ drop (k - 5 - 4) bb). unfold Zlen in *.
  rewrite <- !app_assoc. split.
  { do 3 f_equal. rewrite drop_app_le by lia. done. }
  rewrite length_app, length_take, length_drop. split; [lia|]. split; [done|].
  split; [intros ->; apply Hfull; lia|intros ->; by apply Hnone].
Qed.

Lemma Zlen_start hs : Zlen (header_start hs) = 5.
Proof. done. Qed.

(** Writing the header of one more record over any outcome. *)
Lemma write_header_spec cfs c es :
  size_ok (cfs_headerSize cfs) -> cfs_count cfs = c + 1 -> 0 <= c < 2 ^ 30 -> c + 1 <= Zlen es ->
  disk_holds (f_data (cfs_fd cfs)) (cfs_headerSize cfs) c es ->
  exists r f t, cfheaderstore_write_header cfs = (r, set_fd cfs f) /\
    disk_holds (f_data f) (cfs_headerSize cfs) t es /\ 0 <= t <= c + 1 /\ (r = false -> t = c + 1) /\
    (f_io (cfs_fd cfs) = [] -> r = false /\ f_io f = []).
Proof.
  intros Hs Hc Hcb Hes (bb & junk & Ed & Hbb & Ht). unfold cfheaderstore_write_header. rewrite Hc.
  destruct (sys_lseek_spec (cfs_fd cfs) 0) as (r & f1 & -> & Hd1 & Hp1 & Hio1). destruct r.
  { exists true, f1, c. split; [done|]. split; [|split; [lia|split; [done|intros E; by apply Hio1 in E as [? _]]]].
    exists bb, junk. by rewrite Hd1. }
  specialize (Hp1 eq_refl).
  destruct (header_image_parts (cfs_headerSize cfs) (c + 1) (cfs_baseHeight cfs) Hs ltac:(lia)) as (bb' & -> & Hbb').
  set (img := header_start (cfs_headerSize cfs) ++ le_bytes 4 (c + 1) ++ bb').
  assert (Himg : Zlen img = cfs_headerSize cfs) by (unfold img; zlen; rewrite Zlen_start; lia).
  pose proof (Zlen_nonneg (f_data f1)) as Hnn.
  destruct (sys_write_spec f1 img ltac:(lia)) as (k & n & f2 & -> & Hk & Hd2 & Hn & Hio2).
  rewrite Hp1 in Hd2. change (Z.to_nat 0) with 0%nat in Hd2. rewrite take_0 in Hd2. cbn [app Nat.add] in Hd2.
  assert (Hk' : (k <= Z.to_nat (cfs_headerSize cfs))%nat) by (unfold Zlen in Himg; lia).
  destruct (torn_header k (cfs_headerSize cfs) c bb bb' (concat (map record_image es) ++ junk)
    ltac:(lia) Hbb Hbb' Hk') as (t & bb2 & Et & Hbb2 & Ht2 & Hfull & _).
  rewrite Hd1, Ed in Hd2. fold img in Et. rewrite Et in Hd2.
  eexists _, f2, t. split; [done|]. split; [|split; [lia|split]].
  - exists bb2, junk. rewrite Hd2. split; [done|]. split; [done|lia].
  - intros Hr. apply negb_false_iff, Z.eqb_eq in Hr. apply Hfull. rewrite Hn by lia.
    unfold Zlen in Himg. lia.
  - intros E. apply Hio1 in E as [_ E]. apply Hio2 in E as [-> E]. rewrite Himg, Z.eqb_refl. done.
Qed.

(** A record written, entirely or in part, after the ones that count. *)
Lemma write_record_spec hs es e f off :
  size_ok hs -> Forall entry_wf es -> entry_wf e -> f_pos f = off -> off = hs + Zlen es * 68 ->
  disk_holds (f_data f) hs (Zlen es) es ->
  exists n f', sys_write f (record_image e) = (n, f') /\ disk_holds (f_data f') hs (Zlen es) es /\
    (n = 68 -> disk_holds (f_data f') hs (Zlen es) (es ++ [e])) /\
    (f_io f = [] -> n = 68 /\ f_io f' = []).
Proof.
  intros Hs Hw He Hpos Hoff (bb & junk & Ed & Hbb & Ht).
  set (pre := header_start hs ++ le_bytes 4 (Zlen es) ++ bb ++ concat (map record_image es)).
  assert (Hpre : Zlen pre = off).
  { unfold pre. zlen. rewrite Zlen_start, Zlen_records by done. lia. }
  assert (Ed' : f_data f = pre ++ junk) by (rewrite Ed; unfold pre; by rewrite <- !app_assoc).
  assert (Hlen : Z.to_nat off = length pre) by (unfold Zlen in Hpre; lia).
  destruct (sys_write_spec f (record_image e)) as (k & n & f' & -> & Hk & Hd & Hn & Hio).
  { rewrite Hpos, <- Hpre, Ed'. zlen. pose proof (Zlen_nonneg junk). pose proof (Zlen_nonneg pre). lia. }
  rewrite Hpos, Hlen, Ed', take_app_length in Hd. rewrite (Zlen_record e He) in Hn, Hio.
  pose proof (Zlen_nonneg es). exists n, f'. split; [done|]. split; [|split; [|done]].
  - exists bb. eexists. rewrite Hd. unfold pre. rewrite <- !app_assoc. split; [done|]. split; [done|lia].
  - intros ->. specialize (Hn eq_refl). subst k. rewrite firstn_all in Hd. revert Hd.
    generalize (drop (length pre + length (record_image e)) (pre ++ junk)). intros junk' Hd.
    exists bb, junk'. rewrite Hd. unfold pre. rewrite map_app, concat_app. cbn [map concat].
    rewrite app_nil_r, <- !app_assoc. split; [done|]. split; [done|]. zlen. lia.
Qed.

(** ** The store and its file *)

(** Consecutive heights, within the range of an [int]. *)
Definition heights_ok (es : list cfheader_entry) : Prop :=
  forall e0, head es = Some e0 ->
    0 <= ce_height e0 /\ ce_height e0 + Zlen es < 2 ^ 31 /\
    forall i e, es !! i = Some e -> ce_height e = ce_height e0 + Z.of_nat i.

Definition store_ok (cfs : cfheaderstore) : Prop :=
  size_ok (cfs_headerSize cfs) /\ Forall entry_wf (cfs_entries cfs) /\ room cfs [] /\
  cfs_baseHeight cfs = base_of (cfs_headerSize cfs) (cfs_entries cfs) /\
  heights_ok (cfs_entries cfs) /\
  disk_holds (f_data (cfs_fd cfs)) (cfs_headerSize cfs) (cfs_count cfs) (cfs_entries cfs).

(** The heights the next append may have. *)
Definition accepts (headerSize : Z) (es : list cfheader_entry) (height : Z) : bool :=
  match last es with
  | Some e => height =? ce_height e + 1
  | None => (headerSize =? CFHS_HEADER_SIZE_V2) || (height =? 0)
  end.

Lemma heights_take n es : heights_ok es -> heights_ok (take n es).
Proof.
  intros H e0 He. destruct es as [|e es]; [by destruct n|]. destruct n as [|n]; [done|].
  destruct (H e0 He) as (H1 & H2 & H3). split; [done|]. split.
  - unfold Zlen in *. rewrite length_take. lia.
  - intros i e' Hi. apply H3. apply lookup_take_Some in Hi as [Hi _]. exact Hi.
Qed.

Lemma heights_last (es : list cfheader_entry) e0 e :
  heights_ok es -> head es = Some e0 -> last es = Some e -> ce_height e = ce_height e0 + Zlen es - 1.
Proof.
  intros H H0 Hl. destruct (H e0 H0) as (_ & _ & Hh). rewrite last_lookup in Hl.
  rewrite (Hh _ _ Hl). assert (es <> []) by (by intros ->). destruct es; [done|]. unfold Zlen. cbn. lia.
Qed.

Lemma head_last (es : list cfheader_entry) e : last es = Some e -> exists e0, head es = Some e0.
Proof. destruct es as [|e0 es]; [done|]. by exists e0. Qed.

Lemma heights_snoc hs es e :
  heights_ok es -> accepts hs es (ce_height e) = true -> 0 <= ce_height e -> ce_height e + 1 < 2 ^ 31 ->
  heights_ok (es ++ [e]).
Proof.
  intros H Ha H0 H1 e0 He0. unfold accepts in Ha. destruct (last es) as [el|] eqn:El.
  - destruct (head_last es el El) as [e1 He1]. pose proof (heights_last es e1 el H He1 El) as Hl.
    apply Z.eqb_eq in Ha. destruct (H e1 He1) as (H2 & H3 & H4).
    assert (e0 = e1) as -> by (destruct es; cbn in *; congruence).
    assert (Hz : Zlen (es ++ [e]) = Zlen es + 1) by (zlen; lia). split; [done|]. split; [lia|].
    intros i e' Hi. apply lookup_app_Some in Hi as [Hi|[Hge Hi]]; [by apply H4|].
    apply list_lookup_singleton_Some in Hi as [Hi <-]. unfold Zlen in Hl. lia.
  - apply last_None in El. subst es. cbn in He0. injection He0 as <-. cbn. split; [done|].
    unfold Zlen. cbn. split; [lia|]. intros i e' Hi. apply list_lookup_singleton_Some in Hi as [-> <-]. lia.
Qed.

Lemma disk_take data hs t es :
  disk_holds data hs t es -> disk_holds data hs t (take (Z.to_nat t) es).
Proof.
  intros (bb & junk & -> & Hbb & Ht).
  exists bb, (concat (map record_image (drop (Z.to_nat t) es)) ++ junk).
  rewrite !app_assoc, <- (app_assoc _ (concat _) (concat _)), <- concat_app, <- map_app, take_drop.
  split; [done|]. split; [done|]. unfold Zlen in *. rewrite length_take. lia.
Qed.

(** Whatever prefix the header announces, the reopened store is well formed. *)
Lemma reopen_spec data hs t es :
  size_ok hs -> disk_holds data hs t es -> Forall entry_wf es -> Zlen es < 2 ^ 30 -> heights_ok es ->
  exists cfs, cfheaderstore_init (Some (File data 0 [])) = Ok (Some cfs) /\ store_ok cfs /\
    cfs_entries cfs = take (Z.to_nat t) es /\ cfs_headerSize cfs = hs /\ f_io (cfs_fd cfs) = [].
Proof.
  intros Hs Hd Hw Hl Hh. destruct (init_spec data hs t es Hs Hd Hw Hl) as (cfs & E & He & Hsz & Hb & Hda & Hio & Hr).
  exists cfs. split; [done|]. split; [|done]. unfold store_ok, cfs_count. rewrite Hsz, He, Hb, Hda.
  assert (Htl : Zlen (take (Z.to_nat t) es) = t).
  { destruct Hd as (_ & _ & _ & _ & Ht). unfold Zlen in *. rewrite length_take. lia. }
  rewrite Htl. split; [done|]. split; [by apply Forall_take|]. split; [done|]. split; [done|].
  split; [by apply heights_take|by apply disk_take].
Qed.

Lemma refused_spec cfs height :
  store_ok cfs ->
  (if cfs_count cfs =? 0
   then Ok ((0 <=? cfs_baseHeight cfs) && negb (height =? cfs_baseHeight cfs))
   else expected ← i32 (last_height cfs + 1); Ok (negb (height =? expected))) =
  Ok (negb (accepts (cfs_headerSize cfs) (cfs_entries cfs) height)).
Proof.
  intros (Hs & _ & _ & Hb & Hh & _). unfold accepts, cfs_count, last_height. rewrite Hb.
  destruct (last (cfs_entries cfs)) as [e|] eqn:El.
  - destruct (head_last _ _ El) as [e0 He0]. pose proof (heights_last _ _ _ Hh He0 El) as Hl.
    destruct (Hh e0 He0) as (H1 & H2 & _). assert (0 < Zlen (cfs_entries cfs)).
    { destruct (cfs_entries cfs); [done|]. unfold Zlen. cbn. lia. }
    rewrite eqb_f by lia. rewrite i32_ok by lia. done.
  - apply last_None in El. rewrite El. cbn. by destruct Hs as [-> | ->].
Qed.

(** What an append that was not refused leaves: on the disk, a prefix of the
    entries with the new one; all of them when the result is 0. *)
Definition appended (cfs : cfheaderstore) (e : cfheader_entry) (r : bool) (cfs' : cfheaderstore) : Prop :=
  let es := cfs_entries cfs in
  (exists t, disk_holds (f_data (cfs_fd cfs')) (cfs_headerSize cfs) t (es ++ [e])) /\
  (r = false -> store_ok cfs' /\ cfs_entries cfs' = es ++ [e] /\ cfs_headerSize cfs' = cfs_headerSize cfs) /\
  (f_io (cfs_fd cfs) = [] -> r = false /\ f_io (cfs_fd cfs') = []).

Lemma base_snoc hs es e :
  (if Zlen es =? 0 then ce_height e else base_of hs es) = base_of hs (es ++ [e]).
Proof. by destruct es. Qed.

Lemma append_record_spec cfs e :
  let es := cfs_entries cfs in let hs := cfs_headerSize cfs in
  size_ok hs -> Forall entry_wf es -> entry_wf e -> heights_ok (es ++ [e]) ->
  cfs_baseHeight cfs = base_of hs es -> cfs_count cfs < cfs_capacity cfs -> Zlen es + 1 < 2 ^ 30 ->
  1024 <= cfs_capacity cfs <= Z.max 1024 (2 * (Zlen es + 1)) ->
  disk_holds (f_data (cfs_fd cfs)) hs (cfs_count cfs) es ->
  exists r cfs', append_record cfs (ce_height e) (ce_filterHeader e) (ce_filterHash e) = Ok (r, cfs') /\
    ((disk_holds (f_data (cfs_fd cfs')) hs (Zlen es) es /\ r = true /\ f_io (cfs_fd cfs) <> []) \/
     appended cfs e r cfs').
Proof.
  intros es hs Hs Hw He Hh Hb Hroom Hc Hcap Hd. unfold append_record.
  change (write_le32 (wrap32 (ce_height e)) ++ ce_filterHeader e ++ ce_filterHash e) with (record_image e).
  destruct (sys_lseek_spec (cfs_fd cfs) (cfs_headerSize cfs + cfs_count cfs * CFHS_RECORD_SIZE))
    as (r & f1 & -> & Hd1 & Hp1 & Hio1).
  destruct r.
  { eexists true, _. split; [done|]. left. cbn [set_fd cfs_fd]. rewrite Hd1.
    split; [exact Hd|]. split; [done|]. intros E. by apply Hio1 in E as [? _]. }
  destruct (write_record_spec hs es e f1 (hs + Zlen es * 68)) as (n & f2 & -> & Hold & Hnew & Hio2);
    [done|done|done|by apply Hp1|done|by rewrite Hd1|].
  change CFHS_RECORD_SIZE with 68.
  destruct (Z.eqb_spec n 68) as [->|Hn]; cbn [negb].
  2: { eexists true, _. split; [done|]. left. cbn [set_fd cfs_fd]. split; [exact Hold|]. split; [done|].
       intros E. apply Hio1 in E as [_ E]. by apply Hio2 in E as [? _]. }
  specialize (Hnew eq_refl). unfold add_entry, cfs_count in *.
  cbn [set_fd cfs_fd cfs_entries cfs_capacity cfs_headerSize cfs_baseHeight].
  fold es in Hroom |- *. rewrite ltb_t, bind_ok, Hb, base_snoc by done. destruct e as [h fh hh].
  cbn [ce_height ce_filterHeader ce_filterHash]. set (e := CfEntry h fh hh) in *. fold hs.
  assert (Hsnoc : Zlen (es ++ [e]) = Zlen es + 1) by (zlen; lia).
  destruct (write_header_spec (Cfs f2 hs (base_of hs (es ++ [e])) (es ++ [e]) (cfs_capacity cfs)) (Zlen es) (es ++ [e]))
    as (r & f3 & t & -> & Hd3 & Ht & Hr3 & Hio3); [done|exact Hsnoc| |lia|exact Hnew|].
  { pose proof (Zlen_nonneg es). lia. }
  exists r. eexists. split; [done|]. right. unfold appended. cbn [set_fd cfs_fd cfs_entries cfs_headerSize].
  fold es hs. split; [by exists t|]. split.
  - intros ->. specialize (Hr3 eq_refl). subst t. split; [|done]. unfold store_ok, room, cfs_count.
    cbn [set_fd cfs_fd cfs_entries cfs_capacity cfs_headerSize cfs_baseHeight]. rewrite Hsnoc.
    change (Zlen (@nil cfheader_entry)) with 0.
    split; [done|]. split; [apply Forall_app; split; [done|by constructor]|]. split; [lia|]. done.
  - intros E. apply Hio1 in E as [_ E]. apply Hio2 in E as [_ E]. by apply Hio3.
Qed.

Lemma append_spec cfs height fh hh :
  store_ok cfs -> 0 <= height -> height + 1 < 2 ^ 31 -> is_uint256 fh -> is_uint256 hh ->
  cfs_count cfs + 1 < 2 ^ 30 ->
  let es := cfs_entries cfs in let hs := cfs_headerSize cfs in
  exists r cfs', cfheaderstore_append cfs height fh hh = Ok (r, cfs') /\
    if accepts hs es height then
      (disk_holds (f_data (cfs_fd cfs')) hs (Zlen es) es /\ r = true /\ f_io (cfs_fd cfs) <> []) \/
      appended cfs (CfEntry height fh hh) r cfs'
    else r = true /\ cfs' = cfs.
Proof.
  intros Hok Hh0 Hh1 Hfh Hhh Hc es hs. unfold cfheaderstore_append. rewrite refused_spec by done.
  rewrite bind_ok. fold es hs. destruct (accepts hs es height) eqn:Ea; cbn [negb]; [|by exists true, cfs].
  destruct Hok as (Hs & Hw & (Hr1 & Hr2 & Hr3 & Hr4) & Hb & Hhs & Hd).
  unfold grow_entries. unfold cfs_count in *. fold es hs in Hs, Hw, Hb, Hhs, Hd, Hr1, Hr2, Hr3, Hc |- *.
  pose proof (Zlen_nonneg es). pose (e := CfEntry height fh hh).
  assert (He : entry_wf e) by (repeat split; cbn; try done; lia).
  assert (Hsn : heights_ok (es ++ [e])) by (by eapply heights_snoc).
  destruct (Z.leb_spec (cfs_capacity cfs) (Zlen es)) as [Hl|Hl].
  - rewrite i32_ok, !bind_ok by lia.
    apply (append_record_spec (Cfs (cfs_fd cfs) hs (cfs_baseHeight cfs) es (cfs_capacity cfs * 2)) e);
      unfold cfs_count; cbn [cfs_fd cfs_headerSize cfs_entries cfs_baseHeight cfs_capacity]; try done; lia.
  - rewrite bind_ok. apply (append_record_spec cfs e); unfold cfs_count; fold es hs; try done; lia.
Qed.

(** *** Lookups *)

Definition find_height (es : list cfheader_entry) (height : Z) : option cfheader_entry :=
  List.find (fun e => ce_height e =? height) es.

Lemma find_consecutive es : forall b height,
  (forall i e, es !! i = Some e -> ce_height e = b + Z.of_nat i) ->
  find_height es height = if height <? b then None else es !! Z.to_nat (height - b).
Proof.
  unfold find_height. induction es as [|e es IH]; intros b height H; cbn [find].
  { by destruct (height <? b). }
  rewrite (H 0%nat e eq_refl). destruct (Z.eqb_spec (b + Z.of_nat 0) height) as [E|E].
  - rewrite ltb_f by lia. by replace (Z.to_nat (height - b)) with 0%nat by lia.
  - rewrite (IH (b + 1)).
    + destruct (Z.ltb_spec height b); [by rewrite ltb_t by lia|]. rewrite ltb_f by lia.
      by replace (Z.to_nat (height - b)) with (S (Z.to_nat (height - (b + 1)))) by lia.
    + intros i e' Hi. rewrite (H (S i) e' Hi). lia.
Qed.

Lemma entry_at_spec cfs height :
  store_ok cfs -> 0 <= height < 2 ^ 31 -> entry_at cfs height = Ok (find_height (cfs_entries cfs) height).
Proof.
  intros (Hs & _ & _ & Hb & Hh & _) Hr. unfold entry_at, cfs_count. rewrite Hb.
  destruct (cfs_entries cfs) as [|e0 es] eqn:Ees; [done|].
  destruct (Hh e0 eq_refl) as (H1 & H2 & H3). cbn [base_of]. pose proof (Zlen_nonneg es).
  rewrite eqb_f by (rewrite Zlen_cons; lia). rewrite Zlen_cons in *.
  rewrite i32_ok, bind_ok by lia. rewrite (find_consecutive _ _ _ H3).
  destruct (Z.ltb_spec height (ce_height e0)) as [Hl|Hl]; [by rewrite ltb_t by lia|].
  rewrite ltb_f by lia. cbn [orb].
  destruct (Z.leb_spec (1 + Zlen es) (height - ce_height e0)) as [Hg|Hg].
  - rewrite lookup_ge_None_2; [done|]. cbn [length]. unfold Zlen in Hg. lia.
  - destruct (lookup_lt_is_Some_2 (e0 :: es) (Z.to_nat (height - ce_height e0))) as [e ->]; [|done].
    cbn [length]. unfold Zlen in Hg. lia.
Qed.

(** *** Any file can be opened *)

Lemma load_records_total fuel : forall i count cfs,
  0 <= f_pos (cfs_fd cfs) <= Zlen (f_data (cfs_fd cfs)) -> Zlen (f_data (cfs_fd cfs)) < 2 ^ 31 ->
  Zlen (f_data (cfs_fd cfs)) - f_pos (cfs_fd cfs) < 68 * Z.of_nat fuel ->
  68 * cfs_count cfs <= f_pos (cfs_fd cfs) -> room cfs [] ->
  exists cfs', load_records fuel i count cfs = Ok cfs'.
Proof.
  induction fuel as [|fuel IH]; intros i count cfs Hp Hl Hf Hc Hr; [lia|]. cbn [load_records].
  destruct (i <? count); [|by exists cfs]. cbn [negb].
  destruct (sys_read_any (cfs_fd cfs) (Z.to_nat CFHS_RECORD_SIZE) Hp) as (n & rec & f & -> & Hd & Hp' & Hn).
  change (Z.of_nat (Z.to_nat CFHS_RECORD_SIZE)) with 68 in Hn. change CFHS_RECORD_SIZE with 68.
  destruct (Z.eqb_spec n 68) as [E|E]; cbn [negb]; [|by eexists]. specialize (Hn E).
  match goal with |- context [add_entry _ ?e] => destruct (grow_add (set_fd cfs f) e []) as
    (cfs1 & E1 & Hr1 & Hf1 & _ & _ & He1) end.
  { unfold room, cfs_count in *. cbn [set_fd cfs_entries cfs_capacity]. rewrite Zlen_cons, Zlen_nil in *. lia. }
  apply res_bind_Ok in E1 as (cfs0 & E0 & E1). rewrite E0, bind_ok, E1, bind_ok.
  apply IH; rewrite ?Hf1; cbn [set_fd cfs_fd]; rewrite ?Hd; try lia; try done.
  unfold cfs_count in *. rewrite He1. cbn [set_fd cfs_entries]. rewrite Zlen_app, Zlen_cons, Zlen_nil. lia.
Qed.

Lemma init_load_total f hs :
  size_ok hs -> 0 <= f_pos f <= Zlen (f_data f) -> Zlen (f_data f) < 2 ^ 31 ->
  exists o, init_load f hs = Ok o.
Proof.
  intros Hs Hp Hl. unfold init_load.
  destruct (sys_read_any f (Z.to_nat (hs - 5)) Hp) as (n & rest & f1 & -> & Hd & Hp1 & _).
  destruct (negb (n =? hs - 5)); [by eexists|].
  destruct (load_records_total (S (length (f_data f1))) 0 (sint32 (read_le32 rest)) (Cfs f1 hs 0 [] 1024))
    as (cfs & ->); cbn [cfs_fd]; rewrite ?Hd.
  - lia.
  - done.
  - unfold Zlen. lia.
  - change (cfs_count _) with 0. lia.
  - done.
  - rewrite bind_ok. destruct (negb _); by eexists.
Qed.

(** ** Sequences of operations, the file reopened in between *)

Inductive cf_op : Type :=
| CfAppend (height : Z) (filterHeader filterHash : uint256)
| CfGetHeader (height : Z)
| CfGetHash (height : Z)
| CfTip
| CfBase
| CfReopen.

Inductive cf_out : Type :=
| CoStatus (res : bool)
| CoHash (h : option uint256)
| CoHeight (h : Z).

Definition cf_step (op : cf_op) (cfs : cfheaderstore) : res (cf_out * cfheaderstore) :=
  match op with
  | CfAppend height fh hh => '(r, cfs) ← cfheaderstore_append cfs height fh hh; Ok (CoStatus r, cfs)
  | CfGetHeader height => h ← cfheaderstore_get_header cfs height; Ok (CoHash h, cfs)
  | CfGetHash height => h ← cfheaderstore_get_hash cfs height; Ok (CoHash h, cfs)
  | CfTip => Ok (CoHeight (cfheaderstore_get_tip_height (Some cfs)), cfs)
  | CfBase => Ok (CoHeight (cfheaderstore_get_base_height (Some cfs)), cfs)
  | CfReopen =>
      o ← cfheaderstore_init (Some (File (f_data (cfs_fd cfs)) 0 []));
      match o with Some cfs => Ok (CoStatus false, cfs) | None => Ok (CoStatus true, cfs) end
  end.

Fixpoint cf_run (ops : list cf_op) (cfs : cfheaderstore) : res (list cf_out * cfheaderstore) :=
  match ops with
  | [] => Ok ([], cfs)
  | op :: ops => '(o, cfs) ← cf_step op cfs; '(os, cfs) ← cf_run ops cfs; Ok (o :: os, cfs)
  end.

(** The specification: a list of entries with consecutive heights. *)
Definition spec_step (op : cf_op) (es : list cfheader_entry) : cf_out * list cfheader_entry :=
  match op with
  | CfAppend height fh hh =>
      let ok := match last es with Some e => height =? ce_height e + 1 | None => true end in
      (CoStatus (negb ok), if ok then es ++ [CfEntry height fh hh] else es)
  | CfGetHeader height => (CoHash (option_map ce_filterHeader (find_height es height)), es)
  | CfGetHash height => (CoHash (option_map ce_filterHash (find_height es height)), es)
  | CfTip => (CoHeight (match last es with Some e => ce_height e | None => -1 end), es)
  | CfBase => (CoHeight (match head es with Some e => ce_height e | None => -1 end), es)
  | CfReopen => (CoStatus false, es)
  end.

Fixpoint spec_run (ops : list cf_op) (es : list cfheader_entry) : list cf_out :=
  match ops with
  | [] => []
  | op :: ops => let '(o, es) := spec_step op es in o :: spec_run ops es
  end.

Definition op_ok (op : cf_op) : Prop :=
  match op with
  | CfAppend height fh hh => (0 <= height /\ height + 1 < 2 ^ 31) /\ is_uint256 fh /\ is_uint256 hh
  | CfGetHeader height | CfGetHash height => 0 <= height < 2 ^ 31
  | _ => True
  end.

(** A store whose file has the current format and no failure ahead. *)
Definition store_v2 (cfs : cfheaderstore) : Prop :=
  store_ok cfs /\ cfs_headerSize cfs = CFHS_HEADER_SIZE_V2 /\ f_io (cfs_fd cfs) = [].

Lemma store_disk cfs : store_ok cfs ->
  disk_holds (f_data (cfs_fd cfs)) (cfs_headerSize cfs) (Zlen (cfs_entries cfs)) (cfs_entries cfs).
Proof. by intros (_ & _ & _ & _ & _ & Hd). Qed.

Lemma reopen_ok cfs :
  store_ok cfs -> exists cfs', cfheaderstore_init (Some (File (f_data (cfs_fd cfs)) 0 [])) = Ok (Some cfs') /\
    store_ok cfs' /\ cfs_entries cfs' = cfs_entries cfs /\ cfs_headerSize cfs' = cfs_headerSize cfs /\
    f_io (cfs_fd cfs') = [].
Proof.
  intros Hok. pose proof (store_disk cfs Hok) as Hd. destruct Hok as (Hs & Hw & (Hr & _) & _ & Hh & _).
  destruct (reopen_spec _ _ _ _ Hs Hd Hw) as (cfs' & E & Hok' & He & Hsz & Hio);
    [unfold cfs_count in Hr; rewrite Zlen_nil in Hr; lia|done|].
  exists cfs'. split; [done|]. split; [done|]. split; [|done].
  rewrite He, to_nat_Zlen. apply firstn_all.
Qed.

Lemma cf_step_spec op cfs :
  store_v2 cfs -> op_ok op -> cfs_count cfs + 1 < 2 ^ 30 ->
  exists cfs', cf_step op cfs = Ok ((spec_step op (cfs_entries cfs)).1, cfs') /\ store_v2 cfs' /\
    cfs_entries cfs' = (spec_step op (cfs_entries cfs)).2 /\ cfs_count cfs' <= cfs_count cfs + 1.
Proof.
  intros (Hok & Hsz & Hio) Hop Hc. destruct op as [height fh hh|height|height| | |]; cbn [cf_step spec_step fst snd].
  - destruct Hop as ([H0 H1] & Hfh & Hhh).
    destruct (append_spec cfs height fh hh Hok H0 H1 Hfh Hhh Hc) as (r & cfs' & -> & HA). rewrite bind_ok.
    unfold accepts in HA. rewrite Hsz in HA. change (CFHS_HEADER_SIZE_V2 =? CFHS_HEADER_SIZE_V2) with true in HA.
    cbn [orb] in HA. exists cfs'. destruct (match last _ with Some _ => _ | None => _ end).
    + destruct HA as [(_ & _ & Hio')|(_ & Hdone & Hio')]; [done|]. destruct (Hio' Hio) as [-> Hio2].
      destruct (Hdone eq_refl) as (Hok' & He & Hsz'). unfold cfs_count. rewrite He.
      split; [done|]. split; [split; [done|split; [by rewrite Hsz', Hsz|done]]|]. split; [done|]. zlen. lia.
    + destruct HA as [-> ->]. split; [done|]. split; [done|]. split; [done|lia].
  - exists cfs. unfold cfheaderstore_get_header. rewrite entry_at_spec, !bind_ok by done.
    split; [done|]. split; [done|]. split; [done|lia].
  - exists cfs. unfold cfheaderstore_get_hash. rewrite entry_at_spec, !bind_ok by done.
    split; [done|]. split; [done|]. split; [done|lia].
  - exists cfs. unfold cfheaderstore_get_tip_height, last_height, cfs_count.
    split; [|split; [done|split; [done|lia]]]. destruct (cfs_entries cfs) as [|e es] eqn:Ees; [done|].
    rewrite eqb_f by (rewrite Zlen_cons; pose proof (Zlen_nonneg es); lia).
    destruct (last (e :: es)) eqn:El; [done|]. by apply last_None in El.
  - exists cfs. unfold cfheaderstore_get_base_height, cfs_count. pose proof Hok as (Hs & Hw & Hr & Hb & _).
    rewrite Hb. split; [|split; [done|split; [done|lia]]].
    destruct (cfs_entries cfs) as [|e es] eqn:Ees; [done|].
    rewrite eqb_f by (rewrite Zlen_cons; pose proof (Zlen_nonneg es); lia). done.
  - destruct (reopen_ok cfs Hok) as (cfs' & -> & Hok' & He & Hsz' & Hio'). rewrite bind_ok.
    exists cfs'. unfold cfs_count. rewrite He. split; [done|].
    split; [split; [done|split; [by rewrite Hsz', Hsz|done]]|]. split; [done|lia].
Qed.

Lemma cf_run_spec ops : forall cfs,
  store_v2 cfs -> Forall op_ok ops -> cfs_count cfs + Zlen ops < 2 ^ 30 ->
  exists cfs', cf_run ops cfs = Ok (spec_run ops (cfs_entries cfs), cfs').
Proof.
  induction ops as [|op ops IH]; intros cfs Hok Hops Hc; cbn [cf_run spec_run]; [by exists cfs|].
  inversion Hops; subst. rewrite Zlen_cons in Hc. pose proof (Zlen_nonneg ops).
  destruct (cf_step_spec op cfs Hok) as (cfs1 & -> & Hok1 & He1 & Hc1); [done|lia|]. rewrite bind_ok.
  destruct (IH cfs1 Hok1) as (cfs2 & ->); [done|lia|]. rewrite bind_ok. exists cfs2. rewrite He1.
  by destruct (spec_step op (cfs_entries cfs)).
Qed.

Definition new_store : cfheaderstore :=
  Cfs (File (take 13 (header_image 13 0 (-1))) 13 []) 13 (-1) [] 1024.

Lemma new_store_ok : cfheaderstore_init (Some (File [] 0 [])) = Ok (Some new_store) /\ store_v2 new_store.
Proof.
  split; [by vm_compute|]. unfold store_v2, store_ok, room. cbn [cfs_entries cfs_headerSize cfs_baseHeight cfs_fd new_store].
  split; [|done]. split; [by right|]. split; [constructor|]. split; [by vm_compute|]. split; [done|].
  split; [done|]. exists (write_le32 (wrap32 (-1))), []. by vm_compute.
Qed.

(** The record is written, then the header's seek fails. *)
Lemma append_record_failing cfs height fh hh :
  cfs_count cfs < cfs_capacity cfs -> Zlen fh = 32 -> Zlen hh = 32 ->
  f_io (cfs_fd cfs) = [IoOk; IoOk; IoFail] ->
  exists cfs', append_record cfs height fh hh = Ok (true, cfs') /\
    cfs_entries cfs' = cfs_entries cfs ++ [CfEntry height fh hh].
Proof.
  intros Hc Hf Hh Hio. unfold append_record, sys_lseek, next_io. rewrite Hio.
  unfold sys_write, next_io. cbn [set_fd cfs_fd f_io f_data f_pos].
  assert (E : Zlen (write_le32 (wrap32 height) ++ fh ++ hh) = 68) by (unfold write_le32; zlen; lia).
  rewrite E. change (68 =? CFHS_RECORD_SIZE) with true. cbn [negb].
  unfold add_entry, cfs_count in *. cbn [set_fd cfs_fd cfs_entries cfs_capacity cfs_headerSize cfs_baseHeight].
  rewrite ltb_t, bind_ok by done.
  unfold cfheaderstore_write_header, sys_lseek, next_io. cbn [cfs_fd f_io]. by eexists.
Qed.

(** ** Properties *)

(** C34: the store is an append-only list of filter headers that survives being
    closed. On a new file, for any sequence of appends, lookups by height and
    reopenings, every call answers as the specification does: an append is
    accepted at any height when the list is empty and only at the tip plus one
    after that, a lookup finds the entry of the height, and reopening the file
    changes nothing. No call overflows or leaves the array. *)
Theorem cfheaderstore_simulates_list (ops : list cf_op) :
  Forall op_ok ops -> Zlen ops < 2 ^ 30 ->
  exists cfs0 cfs, cfheaderstore_init (Some (File [] 0 [])) = Ok (Some cfs0) /\
    cf_run ops cfs0 = Ok (spec_run ops [], cfs).
Proof.
  intros Hops Hl. destruct new_store_ok as [E Hok].
  destruct (cf_run_spec ops new_store Hok Hops ltac:(unfold cfs_count, Zlen in *; cbn; lia)) as (cfs & Er).
  by exists new_store, cfs.
Qed.

Definition sample_ops : list cf_op :=
  [CfAppend 700 (replicate 32 x01) (replicate 32 x02); CfAppend 700 (replicate 32 x01) (replicate 32 x02);
   CfReopen; CfAppend 701 (replicate 32 x03) (replicate 32 x04); CfReopen; CfGetHash 701; CfBase; CfTip].

Lemma cfheaderstore_simulates_list_witness :
  exists cfs0 cfs, cfheaderstore_init (Some (File [] 0 [])) = Ok (Some cfs0) /\
    cf_run sample_ops cfs0 = Ok ([CoStatus false; CoStatus true; CoStatus false; CoStatus false; CoStatus false;
      CoHash (Some (replicate 32 x04)); CoHeight 700; CoHeight 701], cfs).
Proof.
  apply (cfheaderstore_simulates_list sample_ops); [|by vm_compute].
  repeat constructor; by vm_compute.
Defined.

(** C30: no failure of the system corrupts the file. Whatever the outcomes of
    the calls (errors, short writes of the record or of the header), after an
    append the file opens as a well-formed store whose entries are a prefix of
    the old ones with the new one; when the append answered 0, of all of them.
    A counter caught in the middle of an increment can only be too small. *)
Theorem cfheaderstore_append_crash_safe (cfs : cfheaderstore) (height : Z) (fh hh : uint256) :
  store_ok cfs -> 0 <= height -> height + 1 < 2 ^ 31 -> is_uint256 fh -> is_uint256 hh ->
  cfs_count cfs + 1 < 2 ^ 30 ->
  exists r cfs' cfs2 t, cfheaderstore_append cfs height fh hh = Ok (r, cfs') /\
    cfheaderstore_init (Some (File (f_data (cfs_fd cfs')) 0 [])) = Ok (Some cfs2) /\ store_ok cfs2 /\
    cfs_entries cfs2 = take t (cfs_entries cfs ++ [CfEntry height fh hh]) /\
    (r = false -> cfs_entries cfs2 = cfs_entries cfs ++ [CfEntry height fh hh]).
Proof.
  intros Hok H0 H1 Hfh Hhh Hc.
  destruct (append_spec cfs height fh hh Hok H0 H1 Hfh Hhh Hc) as (r & cfs' & E & HA).
  exists r, cfs'. pose proof Hok as (Hs & Hw & _ & _ & Hh & _). pose proof (store_disk cfs Hok) as Hd.
  unfold cfs_count in Hc. set (es := cfs_entries cfs) in *. set (e := CfEntry height fh hh) in *.
  assert (Hpre : forall n, take (Z.to_nat n) es = take (Nat.min (Z.to_nat n) (length es)) (es ++ [e])).
  { intros n. by rewrite take_app_le, take_min_length by lia. }
  destruct (accepts _ es height) eqn:Ea.
  2: { destruct HA as [-> ->]. destruct (reopen_spec _ _ _ _ Hs Hd Hw ltac:(lia) Hh) as (cfs2 & E2 & Hok2 & He2 & _).
       eexists cfs2, _. split; [done|]. split; [done|]. split; [done|]. rewrite He2, Hpre. done. }
  destruct HA as [(Hd' & -> & _)|((t & Hd') & Hdone & _)].
  { destruct (reopen_spec _ _ _ _ Hs Hd' Hw ltac:(lia) Hh) as (cfs2 & E2 & Hok2 & He2 & _).
    eexists cfs2, _. split; [done|]. split; [done|]. split; [done|]. rewrite He2, Hpre. done. }
  destruct r.
  - assert (He : entry_wf e) by (repeat split; cbn; try done; lia).
    destruct (reopen_spec _ _ _ _ Hs Hd') as (cfs2 & E2 & Hok2 & He2 & _);
      [apply Forall_app; split; [done|by constructor]|zlen; fold es; lia|by eapply heights_snoc|].
    by exists cfs2, (Z.to_nat t).
  - destruct (Hdone eq_refl) as (Hok' & He' & _). destruct (reopen_ok cfs' Hok') as (cfs2 & E2 & Hok2 & He2 & _).
    exists cfs2, (length (es ++ [e])). rewrite He2, He', firstn_all. done.
Qed.

(** The new store, with the record written and the header cut after six bytes. *)
Definition failing_store : cfheaderstore :=
  Cfs (File (take 13 (header_image 13 0 (-1))) 13 [IoOk; IoOk; IoOk; IoShort 6]) 13 (-1) [] 1024.

Lemma cfheaderstore_append_crash_safe_witness :
  exists r cfs' cfs2 t, cfheaderstore_append failing_store 5 (replicate 32 x01) (replicate 32 x02) = Ok (r, cfs') /\
    cfheaderstore_init (Some (File (f_data (cfs_fd cfs')) 0 [])) = Ok (Some cfs2) /\ store_ok cfs2 /\
    cfs_entries cfs2 = take t [CfEntry 5 (replicate 32 x01) (replicate 32 x02)] /\
    (r = false -> cfs_entries cfs2 = [CfEntry 5 (replicate 32 x01) (replicate 32 x02)]).
Proof.
  apply (cfheaderstore_append_crash_safe failing_store); [|lia|lia|done|done|by vm_compute].
  destruct new_store_ok as [_ [Hok _]]. exact Hok.
Defined.

(** Opening is total: on any file (foreign, truncated, with counts and
    heights that make no sense) of less than 2 GiB and with any failure of the
    system, [cfheaderstore_init] returns a store or the error, never leaves its
    arrays and never overflows. *)
Theorem cfheaderstore_init_total (data : list byte) (io : list io_outcome) :
  Zlen data < 2 ^ 31 -> exists o, cfheaderstore_init (Some (File data 0 io)) = Ok o.
Proof.
  intros Hl. unfold cfheaderstore_init.
  destruct (sys_read_any (File data 0 io) 5) as (n & hdr & f & -> & Hd & Hp & _);
    [cbn; pose proof (Zlen_nonneg data); lia|]. cbn [f_pos f_data] in *.
  destruct (n =? 0); [by eexists|]. destruct (_ || _); [by eexists|].
  destruct (_ =? CFHS_VERSION_1); [apply init_load_total; [by left|rewrite Hd; lia|by rewrite Hd]|].
  destruct (_ =? CFHS_VERSION_2); [apply init_load_total; [by right|rewrite Hd; lia|by rewrite Hd]|].
  by eexists.
Qed.

Lemma cfheaderstore_init_total_witness :
  exists o, cfheaderstore_init (Some (File (map Z_byte [0x42; 0x54; 0x43; 0x46; 2; 255; 255; 255; 255; 7]) 0 [IoOk; IoShort 3]))
    = Ok o.
Proof. apply cfheaderstore_init_total. by vm_compute. Defined.

(** An append whose header could not be written answers 1 but keeps the
    entry in memory: the next attempt at the same height is refused. *)
Theorem cfheaderstore_append_half_done (cfs : cfheaderstore) (height : Z) (fh hh : uint256) :
  store_ok cfs -> 0 <= height -> height + 1 < 2 ^ 31 -> is_uint256 fh -> is_uint256 hh ->
  cfs_count cfs + 1 < 2 ^ 30 ->
  accepts (cfs_headerSize cfs) (cfs_entries cfs) height = true ->
  f_io (cfs_fd cfs) = [IoOk; IoOk; IoFail] ->
  exists cfs', cfheaderstore_append cfs height fh hh = Ok (true, cfs') /\
    cfs_entries cfs' = cfs_entries cfs ++ [CfEntry height fh hh] /\
    cfheaderstore_append cfs' height fh hh = Ok (true, cfs').
Proof.
  intros Hok H0 H1 Hfh Hhh Hc Ha Hio. unfold cfheaderstore_append at 1. rewrite refused_spec by done.
  rewrite bind_ok, Ha. cbn [negb]. destruct (grow_add cfs (CfEntry height fh hh) []) as (cfs_e & Eg & _).
  { destruct Hok as (_ & _ & Hr & _). unfold room in *. rewrite Zlen_cons, Zlen_nil in *. lia. }
  apply res_bind_Ok in Eg as (cfs1 & Eg & Ee). rewrite Eg, bind_ok.
  destruct (grow_keeps cfs cfs1 Eg) as [Hfd Hes].
  destruct (append_record_failing cfs1 height fh hh) as (cfs' & -> & He');
    [by eapply add_entry_room|unfold Zlen; by rewrite Hfh|unfold Zlen; by rewrite Hhh|by rewrite Hfd|].
  exists cfs'. rewrite He', Hes. split; [done|]. split; [done|].
  unfold cfheaderstore_append, cfs_count, last_height. rewrite He', last_snoc. cbn [ce_height].
  rewrite eqb_f by (rewrite Zlen_app, Zlen_cons, Zlen_nil; pose proof (Zlen_nonneg (cfs_entries cfs1)); lia).
  rewrite i32_ok, !bind_ok by lia. rewrite eqb_f by lia. done.
Qed.

Lemma cfheaderstore_append_half_done_witness :
  exists cfs', cfheaderstore_append
      (Cfs (File (take 13 (header_image 13 0 (-1))) 13 [IoOk; IoOk; IoFail]) 13 (-1) [] 1024)
      5 (replicate 32 x01) (replicate 32 x02) = Ok (true, cfs') /\
    cfs_entries cfs' = [CfEntry 5 (replicate 32 x01) (replicate 32 x02)] /\
    cfheaderstore_append cfs' 5 (replicate 32 x01) (replicate 32 x02) = Ok (true, cfs').
Proof.
  apply (cfheaderstore_append_half_done
    (Cfs (File (take 13 (header_image 13 0 (-1))) 13 [IoOk; IoOk; IoFail]) 13 (-1) [] 1024)
    5 (replicate 32 x01) (replicate 32 x02)); [|lia|lia|done|done|by vm_compute|done|done].
  destruct new_store_ok as [_ [Hok _]]. exact Hok.
Defined.
