(* ===== verification/PeerStats.v ===== *)
(** * Quality of the peers across runs (core/peerstats.c)

    One record per peer address, in a table of objects (Objects.v) that is
    loaded from a file and rewritten as a whole. *)
From Stdlib Require Import Sorting.Sorted.
From S2P Require Export Objects Files.
From S2P Require Import CfHeaderStore.

Definition PSTAT_MAGIC : list byte := map Z_byte [0x42; 0x50; 0x53; 0x54].
Definition PSTAT_VERSION_1 : Z := 1.
Definition PSTAT_VERSION_2 : Z := 2.
Definition PSTAT_HEADER_SIZE : Z := 9.
Definition PSTAT_RECORD_SIZE_1 : Z := 36.
Definition PSTAT_RECORD_SIZE_2 : Z := 40.

Definition write_le64 (val : Z) : list byte := map (fun i => Z_byte (Z.shiftr val (8 * i))) [0; 1; 2; 3; 4; 5; 6; 7].
Definition read_le64 (buf : list byte) : Z := le_Z (take 8 buf).

Record peerstats_entry : Type := PsEntry {
  pe_ip : list byte; pe_services : Z; pe_latencyUsec : Z; pe_cfilterOk : Z; pe_cfilterFail : Z; pe_avgChunkUsec : Z }.

(** [calloc] and the address. *)
Definition new_entry (ip : list byte) : peerstats_entry := PsEntry ip 0 0 0 0 0.

Definition record_bytes (e : peerstats_entry) : list byte :=
  pe_ip e ++ write_le64 (pe_services e) ++ write_le32 (pe_latencyUsec e) ++ write_le32 (pe_cfilterOk e) ++
  write_le32 (pe_cfilterFail e) ++ write_le32 (pe_avgChunkUsec e).

Definition entry_of (recSize : Z) (rec : list byte) : peerstats_entry :=
  PsEntry (take 16 rec) (read_le64 (drop 16 rec)) (read_le32 (drop 24 rec)) (read_le32 (drop 28 rec))
    (read_le32 (drop 32 rec)) (if recSize =? PSTAT_RECORD_SIZE_2 then read_le32 (drop 36 rec) else 0).

Section peerstats.
Context `{T : Table positive}.

Record peerstats : Type := Ps {
  ps_fd : file; ps_hash : table; ps_heap : gmap positive peerstats_entry; ps_dirty : bool }.

Definition with_fd (f : file) (ps : peerstats) : peerstats := Ps f (ps_hash ps) (ps_heap ps) (ps_dirty ps).

(** A record is inserted under its address; a duplicate is dropped. *)
Definition add_record (e : peerstats_entry) (ps : peerstats) : res peerstats :=
  let p := obj_new (ps_heap ps) in
  '(s, t) ← t_insert (ps_hash ps) (pe_ip e) p;
  Ok (if s : bool then Ps (ps_fd ps) t (<[p := e]> (ps_heap ps)) (ps_dirty ps)
      else Ps (ps_fd ps) t (ps_heap ps) (ps_dirty ps)).

(** [fuel] bounds the records left in the file. *)
Fixpoint load_entries (fuel : nat) (recSize i count : Z) (ps : peerstats) : res peerstats :=
  match fuel with
  | O => Ok ps
  | S fuel =>
      if negb (i <? count) then Ok ps else
      let '(n, rec, f) := sys_read (ps_fd ps) (Z.to_nat recSize) in
      let ps := with_fd f ps in
      if negb (n =? recSize) then Ok ps else
      ps ← add_record (entry_of recSize rec) ps;
      load_entries fuel recSize (i + 1) count ps
  end.

(** [fd] is the file that [open] gave, [None] if it failed. *)
Definition peerstats_init (fd : option file) : res (option peerstats) :=
  match fd with
  | None => Ok None
  | Some f =>
      hash ← t_create;
      let '(n, hdr, f) := sys_read f (Z.to_nat PSTAT_HEADER_SIZE) in
      let ps := Ps f hash ∅ false in
      let version := le_Z (take 1 (drop 4 hdr)) in
      if (n =? PSTAT_HEADER_SIZE) && bool_decide (take 4 hdr = PSTAT_MAGIC) &&
         ((version =? PSTAT_VERSION_1) || (version =? PSTAT_VERSION_2)) then
        let recSize := if version =? PSTAT_VERSION_2 then PSTAT_RECORD_SIZE_2 else PSTAT_RECORD_SIZE_1 in
        ps ← load_entries (S (length (f_data f))) recSize 0 (read_le32 (drop 5 hdr)) ps;
        Ok (Some ps)
      else Ok (Some ps)
  end.

(** The buffer and the index of the next record. *)
Definition peerstats_flush_cb (heap : gmap positive peerstats_entry) (_ : list byte) (p : positive)
    (ctx : list byte * Z) : res (list byte * Z) :=
  let '(buf, idx) := ctx in
  e ← obj_load heap p;
  buf ← mem_store buf (PSTAT_HEADER_SIZE + idx * PSTAT_RECORD_SIZE_2) (record_bytes e);
  Ok (buf, wrap32 (idx + 1)).

Definition peerstats_flush (o : option peerstats) : res (option peerstats) :=
  match o with
  | None => Ok None
  | Some ps =>
      if negb (ps_dirty ps) then Ok o else
      let count := t_getnumentries (ps_hash ps) in
      let total := PSTAT_HEADER_SIZE + count * PSTAT_RECORD_SIZE_2 in
      buf ← mem_store (replicate (Z.to_nat total) x00) 0 (PSTAT_MAGIC ++ [Z_byte PSTAT_VERSION_2] ++ write_le32 count);
      '(buf, _) ← t_for_each (ps_hash ps) (peerstats_flush_cb (ps_heap ps)) (buf, 0);
      let '(r, f) := sys_lseek (ps_fd ps) 0 in
      if r : bool then Ok (Some (with_fd f ps)) else
      let '(n, f) := sys_write f buf in
      if negb (n =? total) then Ok (Some (with_fd f ps)) else
      let '(_, f) := file_truncate f total in
      Ok (Some (Ps f (ps_hash ps) (ps_heap ps) false))
  end.

(** The file that is left. *)
Definition peerstats_exit (o : option peerstats) : res (option file) :=
  o ← peerstats_flush o; Ok (option_map ps_fd o).

Definition peerstats_get_or_create (ps : peerstats) (ip : list byte) : res (positive * peerstats) :=
  o ← t_lookup (ps_hash ps) ip;
  match o with
  | Some p => Ok (p, ps)
  | None =>
      let p := obj_new (ps_heap ps) in
      '(_, t) ← t_insert (ps_hash ps) ip p;
      Ok (p, Ps (ps_fd ps) t (<[p := new_entry ip]> (ps_heap ps)) (ps_dirty ps))
  end.

(** [f] on the entry of [ip], which is created if there is none. *)
Definition record_entry (f : peerstats_entry -> peerstats_entry) (o : option peerstats) (ip : list byte) :
    res (option peerstats) :=
  match o with
  | None => Ok None
  | Some ps =>
      '(p, ps) ← peerstats_get_or_create ps ip;
      e ← obj_load (ps_heap ps) p;
      Ok (Some (Ps (ps_fd ps) (ps_hash ps) (<[p := f e]> (ps_heap ps)) true))
  end.

Definition set_handshake (latencyUsec services : Z) (e : peerstats_entry) : peerstats_entry :=
  PsEntry (pe_ip e) services latencyUsec (pe_cfilterOk e) (pe_cfilterFail e) (pe_avgChunkUsec e).
Definition peerstats_record_handshake (o : option peerstats) (ip : list byte) (latencyUsec services : Z) :
    res (option peerstats) := record_entry (set_handshake latencyUsec services) o ip.

Definition add_ok (chunkUsec : Z) (e : peerstats_entry) : peerstats_entry :=
  let avg := pe_avgChunkUsec e in
  PsEntry (pe_ip e) (pe_services e) (pe_latencyUsec e) (wrap32 (pe_cfilterOk e + 1)) (pe_cfilterFail e)
    (if 0 <? chunkUsec then if avg =? 0 then chunkUsec else wrap32 (wrap64 (avg * 3 + chunkUsec) / 4) else avg).
Definition peerstats_record_cfilter_ok (o : option peerstats) (ip : list byte) (chunkUsec : Z) : res (option peerstats) :=
  record_entry (add_ok chunkUsec) o ip.

Definition add_fail (e : peerstats_entry) : peerstats_entry :=
  PsEntry (pe_ip e) (pe_services e) (pe_latencyUsec e) (pe_cfilterOk e) (wrap32 (pe_cfilterFail e + 1)) (pe_avgChunkUsec e).
Definition peerstats_record_cfilter_fail (o : option peerstats) (ip : list byte) : res (option peerstats) :=
  record_entry add_fail o ip.

Definition peerstats_lookup (o : option peerstats) (ip : list byte) : res (option peerstats_entry) :=
  match o with
  | None => Ok None
  | Some ps =>
      p ← t_lookup (ps_hash ps) ip;
      match p with None => Ok None | Some p => e ← obj_load (ps_heap ps) p; Ok (Some e) end
  end.

Definition peerstats_score (e : peerstats_entry) : res Z :=
  if 0 <? pe_cfilterFail e then i32 (-1000 - sint32 (pe_cfilterFail e)) else
  if pe_cfilterOk e =? 0 then Ok 0 else
  if pe_avgChunkUsec e =? 0 then Ok 1 else
  Ok (100000 - sint32 (pe_avgChunkUsec e / 1000) + sint32 (Z.min (pe_cfilterOk e) 50)).

(** [for (i = insertAt; i > 0 && score(out[i - 1]) < score; i--) out[i] = out[i - 1]],
    then [out[i] = e]: [l] is [out] up to [insertAt], the last one first. *)
Fixpoint shift_lower (score : Z) (e : peerstats_entry) (l : list peerstats_entry) : res (list peerstats_entry) :=
  match l with
  | [] => Ok [e]
  | x :: l' =>
      s ← peerstats_score x;
      if s <? score then l' ← shift_lower score e l'; Ok (x :: l') else Ok (e :: l)
  end.

(** [out] holds [count] entries, the last one first. *)
Definition peerstats_best_cb (heap : gmap positive peerstats_entry) (maxOut : Z) (_ : list byte) (p : positive)
    (out : list peerstats_entry) : res (list peerstats_entry) :=
  e ← obj_load heap p;
  score ← peerstats_score e;
  if score <=? 0 then Ok out else
  if Zlen out <? maxOut then shift_lower score e out else
  match out with
  | [] => Fault UB
  | x :: out' => s ← peerstats_score x; if s <? score then shift_lower score e out' else Ok out
  end.

(** The entries written, the best one first. *)
Definition peerstats_get_best (o : option peerstats) (maxOut : Z) : res (list peerstats_entry) :=
  match o with
  | None => Ok []
  | Some ps =>
      if maxOut <=? 0 then Ok [] else
      out ← t_for_each (ps_hash ps) (peerstats_best_cb (ps_heap ps) maxOut) [];
      Ok (rev out)
  end.
End peerstats.

(** ** The file *)

Definition entry_wf (e : peerstats_entry) : Prop :=
  length (pe_ip e) = 16%nat /\ u64 (pe_services e) /\ u32 (pe_latencyUsec e) /\ u32 (pe_cfilterOk e) /\
  u32 (pe_cfilterFail e) /\ u32 (pe_avgChunkUsec e).

Lemma write_le64_bytes v : write_le64 v = le_bytes 8 v.
Proof.
  unfold write_le64. cbn [map]. unfold le_bytes. repeat f_equal; rewrite Z.shiftr_div_pow2 by lia;
    rewrite ?Z.div_div by lia; f_equal; lia.
Qed.

Lemma Zlen_stat_record e : length (pe_ip e) = 16%nat -> Zlen (record_bytes e) = 40.
Proof. intros Hl. unfold record_bytes, write_le32. rewrite write_le64_bytes. zlen. unfold Zlen. rewrite Hl. lia. Qed.

Lemma field_at n v pre post k : length pre = k -> 0 <= v < 2 ^ (8 * Z.of_nat n) ->
  le_Z (take n (drop k (pre ++ le_bytes n v ++ post))) = v.
Proof.
  intros <- Hv. rewrite drop_app_length, take_app_length' by by rewrite length_le_bytes. by apply le_Z_bytes_small.
Qed.

(** A record is read back as it was written. *)
Lemma entry_of_record e : entry_wf e -> entry_of 40 (record_bytes e) = e.
Proof.
  destruct e as [ip sv la ok fa av]. intros (Hl & Hs & Hla & Ho & Hf & Ha). unfold entry_of, record_bytes, read_le64, read_le32, write_le32.
  rewrite write_le64_bytes. change (40 =? PSTAT_RECORD_SIZE_2) with true. cbv iota.
  cbn [pe_ip pe_services pe_latencyUsec pe_cfilterOk pe_cfilterFail pe_avgChunkUsec] in *.
  set (R := ip ++ _). assert (Hlen : forall n v, length (le_bytes n v) = n) by apply length_le_bytes.
  assert (E1 : le_Z (take 8 (drop 16 R)) = sv) by (apply field_at; [done|lia]).
  assert (E2 : le_Z (take 4 (drop 24 R)) = la).
  { subst R. rewrite app_assoc. apply field_at; [rewrite length_app, Hlen; lia|lia]. }
  assert (E3 : le_Z (take 4 (drop 28 R)) = ok).
  { subst R. rewrite 2 app_assoc. apply field_at; [rewrite !length_app, !Hlen; lia|lia]. }
  assert (E4 : le_Z (take 4 (drop 32 R)) = fa).
  { subst R. rewrite 3 app_assoc. apply field_at; [rewrite !length_app, !Hlen; lia|lia]. }
  assert (E5 : le_Z (take 4 (drop 36 R)) = av).
  { subst R. rewrite 4 app_assoc, <- (app_nil_r (le_bytes 4 av)). apply field_at; [rewrite !length_app, !Hlen; lia|lia]. }
  rewrite E1, E2, E3, E4, E5. f_equal. subst R. by rewrite take_app_length'.
Qed.

Section proofs.
Context `{T : Table positive}.
Implicit Types ps : peerstats.
Implicit Types m : gmap (list byte) peerstats_entry.

(** The store holds the map [m]: each entry under its address. *)
Definition stats_ok ps m : Prop :=
  rep (ps_hash ps) (ps_heap ps) m /\ map_Forall (fun ip e => pe_ip e = ip /\ entry_wf e) m /\ Z.of_nat (size m) < 2 ^ 32 - 1.

(** *** The operations on the map *)

(** What keeps the address and the ranges. *)
Definition keeps_wf (f : peerstats_entry -> peerstats_entry) : Prop :=
  forall e, entry_wf e -> entry_wf (f e) /\ pe_ip (f e) = pe_ip e.

Lemma new_entry_wf ip : length ip = 16%nat -> entry_wf (new_entry ip).
Proof. intros. split_and!; cbn; try done; lia. Qed.

Lemma get_or_create_ok ps m ip : stats_ok ps m -> length ip = 16%nat -> Z.of_nat (size m) < 2 ^ 32 - 2 ->
  let e := default (new_entry ip) (m !! ip) in
  exists p ps', peerstats_get_or_create ps ip = Ok (p, ps') /\ stats_ok ps' (<[ip := e]> m) /\
    t_lookup (ps_hash ps') ip = Ok (Some p) /\ ps_heap ps' !! p = Some e /\ ps_fd ps' = ps_fd ps.
Proof.
  intros (Hr & Hw & Hs) Hl Hs' e. unfold peerstats_get_or_create. destruct (rep_lookup _ _ _ ip Hr) as (o & Eo & Ho).
  rewrite Eo, bind_ok. destruct o as [p|].
  - destruct Ho as [Ep [e' Ee]]. assert (e = e') as -> by (unfold e; by rewrite Ee). exists p, ps.
    rewrite insert_id by done. split; [done|]. split; [exact (conj Hr (conj Hw Hs))|]. split; [exact Eo|]. split; [congruence|done].
  - assert (e = new_entry ip) as -> by (unfold e; by rewrite Ho). set (p := obj_new (ps_heap ps)).
    destruct (rep_insert _ _ _ ip p (new_entry ip) Hr (obj_new_fresh _) Hs) as (t & Et & Ht). destruct (Ht Ho) as [Hr' El].
    rewrite Et, bind_ok. eexists p, _. split; [done|]. cbn [ps_hash ps_heap ps_fd]. split; [|by rewrite lookup_insert_eq].
    split; [done|]. split; [apply map_Forall_insert_2; [split; [done|by apply new_entry_wf]|done]|].
    rewrite map_size_insert_None by done. lia.
Qed.

Lemma record_entry_ok f ps m ip : stats_ok ps m -> length ip = 16%nat -> Z.of_nat (size m) < 2 ^ 32 - 2 -> keeps_wf f ->
  exists ps', record_entry f (Some ps) ip = Ok (Some ps') /\ stats_ok ps' (<[ip := f (default (new_entry ip) (m !! ip))]> m) /\
    ps_dirty ps' = true /\ ps_fd ps' = ps_fd ps.
Proof.
  intros Hok Hl Hs Hf. unfold record_entry.
  destruct (get_or_create_ok ps m ip Hok Hl Hs) as (p & ps1 & E & (Hr & Hw & Hs1) & Et & Eh & Efd).
  rewrite E, bind_ok, (obj_load_ok _ _ _ Eh), bind_ok. eexists. split; [done|]. split; [|done].
  unfold stats_ok. cbn [ps_hash ps_heap]. pose proof (rep_update _ _ _ ip p (f (default (new_entry ip) (m !! ip))) Hr Et) as Hu.
  rewrite insert_insert_eq in Hu. split; [done|].
  destruct (Hw ip (default (new_entry ip) (m !! ip))) as [Ei Hwf]; [by rewrite lookup_insert_eq|].
  destruct (Hf _ Hwf) as [Hwf' Ei']. split; [|by rewrite !map_size_insert in *].
  intros ip' e' [[<- <-]|[Hne El]]%lookup_insert_Some; [by rewrite Ei', Ei|]. apply Hw. by rewrite lookup_insert_ne.
Qed.

Lemma add_ok_wf chunkUsec : u32 chunkUsec -> keeps_wf (add_ok chunkUsec).
Proof.
  intros Hc e (Hl & Hs & Hla & Ho & Hf & Ha). split; [|done]. unfold add_ok, entry_wf. cbn -[wrap32 Z.pow].
  refine (conj Hl (conj Hs (conj Hla (conj (wrap32_bound _) (conj Hf _))))).
  destruct (0 <? chunkUsec); [destruct (_ =? 0); [exact Hc|apply wrap32_bound]|exact Ha].
Qed.
Lemma add_fail_wf : keeps_wf add_fail.
Proof. intros e (Hl & Hs & Hla & Ho & Hf & Ha). split; [|done]. exact (conj Hl (conj Hs (conj Hla (conj Ho (conj (wrap32_bound _) Ha))))). Qed.
Lemma set_handshake_wf la sv : u32 la -> u64 sv -> keeps_wf (set_handshake la sv).
Proof. intros Hl Hs e (Hi & _ & _ & Ho & Hf & Ha). split; [|done]. exact (conj Hi (conj Hs (conj Hl (conj Ho (conj Hf Ha))))). Qed.

Lemma lookup_ok ps m ip : stats_ok ps m -> peerstats_lookup (Some ps) ip = Ok (m !! ip).
Proof.
  intros (Hr & _). cbn [peerstats_lookup]. destruct (rep_lookup _ _ _ ip Hr) as (o & -> & Ho). rewrite bind_ok.
  destruct o as [p|]; [|by rewrite Ho]. destruct Ho as [Ep [e Ee]]. rewrite Ee in Ep. by rewrite (obj_load_ok _ _ _ Ep), Ee.
Qed.

(** *** Saving *)

Definition image (l : list peerstats_entry) : list byte :=
  PSTAT_MAGIC ++ [Z_byte PSTAT_VERSION_2] ++ write_le32 (Zlen l) ++ concat (map record_bytes l).

Lemma Zlen_stat_records (l : list peerstats_entry) : Forall entry_wf l -> Zlen (concat (map record_bytes l)) = 40 * Zlen l.
Proof.
  induction 1 as [|e l (Hl & _) _ IH]; [done|]. cbn [map concat]. rewrite Zlen_app, IH, Zlen_stat_record by done. zlen. lia.
Qed.

(** Each record goes to its place in the buffer, which is large enough. *)
Lemma flush_loop (heap : gmap positive peerstats_entry) : forall (ents : list (list byte * positive)) (l done0 : list peerstats_entry) pre,
  Zlen pre = 9 -> Forall entry_wf done0 -> Forall entry_wf l -> Zlen done0 + Zlen l < 2 ^ 32 ->
  Forall2 (fun e x => heap !! e.2 = Some x) ents l ->
  fold_entries (peerstats_flush_cb heap) ents
    (pre ++ concat (map record_bytes done0) ++ replicate (Z.to_nat (40 * Zlen l)) x00, Zlen done0) =
  Ok (pre ++ concat (map record_bytes (done0 ++ l)), Zlen done0 + Zlen l).
Proof.
  intros ents l done0 pre Hp Hd Hl Hn HF. revert done0 Hd Hl Hn. induction HF as [|[k p] e ents l Ee HF IH]; intros done0 Hd Hl Hn.
  { rewrite !app_nil_r. cbn [fold_entries]. rewrite Zlen_nil, Z.add_0_r. done. }
  inversion Hl as [|? ? He Hl']; subst. cbn [fold_entries fst snd] in *. unfold peerstats_flush_cb at 2.
  rewrite (obj_load_ok _ _ _ Ee), bind_ok. rewrite Zlen_cons in *.
  assert (Er : replicate (Z.to_nat (40 * (1 + Zlen l))) x00 = replicate 40 x00 ++ replicate (Z.to_nat (40 * Zlen l)) x00).
  { rewrite <- replicate_add. f_equal. pose proof (Zlen_nonneg l). lia. }
  rewrite Er. pose proof (mem_store_app (pre ++ concat (map record_bytes done0)) (replicate 40 x00) (record_bytes e)
    (replicate (Z.to_nat (40 * Zlen l)) x00)) as Em. rewrite <- !app_assoc in Em.
  replace (PSTAT_HEADER_SIZE + Zlen done0 * PSTAT_RECORD_SIZE_2) with (Zlen (pre ++ concat (map record_bytes done0))).
  2: { rewrite Zlen_app, Hp, Zlen_stat_records by done. unfold PSTAT_HEADER_SIZE, PSTAT_RECORD_SIZE_2. lia. }
  rewrite Em, !bind_ok by (rewrite Zlen_stat_record by apply He; done).
  specialize (IH (done0 ++ [e])). rewrite map_app, concat_app in IH. cbn [map concat] in IH. rewrite app_nil_r, <- !app_assoc in IH.
  pose proof (Zlen_nonneg l). pose proof (Zlen_nonneg done0).
  rewrite wrap32_small by lia. replace (Zlen done0 + 1) with (Zlen (done0 ++ [e])) by (zlen; lia).
  rewrite IH; [|apply Forall_app; split; [done|by constructor]|done|zlen; lia]. f_equal. f_equal. zlen. lia.
Qed.

Lemma entries_of ps m : stats_ok ps m -> exists l, l ≡ₚ (map_to_list m).*2 /\ Zlen l = Z.of_nat (size m) /\
  Forall entry_wf l /\ NoDup (pe_ip <$> l) /\
  Forall2 (fun (e : list byte * positive) x => ps_heap ps !! e.2 = Some x) (t_entries (ps_hash ps)) l.
Proof.
  intros (Hr & Hw & Hs). destruct (rep_entries _ _ _ Hr) as (l & Hp & HF). exists (l.*2).
  assert (Hl : Forall (fun x : list byte * peerstats_entry => pe_ip x.2 = x.1 /\ entry_wf x.2) l).
  { rewrite Hp. apply Forall_forall. intros [k e] Hin%elem_of_map_to_list. by apply (Hw k e). }
  split; [by rewrite Hp|]. split.
  { unfold Zlen. rewrite length_fmap, Hp. by rewrite length_map_to_list. }
  split; [clear -Hl; induction Hl as [|x l [_ ?] _ IH]; by constructor|]. split.
  - replace (pe_ip <$> l.*2) with (l.*1); [rewrite Hp; apply NoDup_fst_map_to_list|].
    clear -Hl. induction Hl as [|[k e] l [E _] _ IH]; [done|]. cbn in *. by rewrite IH, E.
  - clear -HF. induction HF as [|[k p] [k' e] ents l [_ E] _ IH]; [constructor|]. by constructor.
Qed.

(** With no failure ahead the file becomes the image of the table. *)
Lemma flush_ok ps m : stats_ok ps m -> f_io (ps_fd ps) = [] ->
  exists f l, peerstats_flush (Some ps) = Ok (Some (Ps f (ps_hash ps) (ps_heap ps) false)) /\ f_io f = [] /\
    l ≡ₚ (map_to_list m).*2 /\ Forall entry_wf l /\ NoDup (pe_ip <$> l) /\ f_data f = (if ps_dirty ps then image l else f_data (ps_fd ps)).
Proof.
  intros Hok Hio. destruct (entries_of ps m Hok) as (l & Hp & Hn & Hw & Hd & HF). destruct Hok as (Hr & _ & Hs).
  unfold peerstats_flush. destruct (ps_dirty ps) eqn:Edirty; cbn [negb].
  2: { exists (ps_fd ps), l. split; [|done]. by destruct ps; cbn in *; subst. }
  rewrite (rep_size _ _ _ Hr), <- Hn. change PSTAT_HEADER_SIZE with 9. change PSTAT_RECORD_SIZE_2 with 40.
  set (hdr := PSTAT_MAGIC ++ [Z_byte PSTAT_VERSION_2] ++ write_le32 (Zlen l)).
  assert (Hh : Zlen hdr = 9) by (unfold hdr, write_le32; zlen; reflexivity). pose proof (Zlen_nonneg l).
  assert (Er : replicate (Z.to_nat (9 + Zlen l * 40)) x00 = replicate 9 x00 ++ replicate (Z.to_nat (40 * Zlen l)) x00).
  { rewrite <- replicate_add. f_equal. lia. }
  rewrite Er. pose proof (mem_store_app [] (replicate 9 x00) hdr (replicate (Z.to_nat (40 * Zlen l)) x00)) as Em.
  cbn [app] in Em. rewrite Zlen_nil in Em. rewrite Em, bind_ok by by rewrite Hh. unfold t_for_each.
  pose proof (flush_loop (ps_heap ps) (t_entries (ps_hash ps)) l [] hdr Hh (Forall_nil_2 _) Hw) as Hloop. cbn [map concat app] in Hloop.
  rewrite Zlen_nil, !Z.add_0_l in Hloop. rewrite Hloop, bind_ok by (try done; lia).
  unfold sys_lseek, next_io. rewrite Hio. unfold sys_write, next_io. cbn [f_io f_data f_pos]. rewrite Hio.
  assert (Hbuf : Zlen (hdr ++ concat (map record_bytes l)) = 9 + Zlen l * 40) by (rewrite Zlen_app, Hh, Zlen_stat_records by done; lia).
  rewrite Hbuf, Z.eqb_refl. cbn [negb]. unfold file_truncate, next_io. cbn [f_io f_data f_pos].
  eexists _, l. split; [done|]. split; [done|]. split; [done|]. split; [done|]. split; [done|]. cbn [f_data].
  set (b := hdr ++ concat (map record_bytes l)) in *. rewrite file_put_in by lia. change (Z.to_nat 0) with 0%nat. rewrite take_0, app_nil_l.
  replace (Z.to_nat (9 + Zlen l * 40)) with (length b) by (rewrite <- Hbuf; unfold Zlen; lia). rewrite take_app_length.
  rewrite length_app. replace (length b - _)%nat with 0%nat by lia. cbn [replicate]. unfold b, hdr, image. by rewrite app_nil_r, <- !app_assoc.
Qed.

(** *** Loading *)

(** The first record of an address is kept. *)
Definition keep_first m (e : peerstats_entry) : gmap (list byte) peerstats_entry :=
  if decide (m !! pe_ip e = None) then <[pe_ip e := e]> m else m.

Lemma add_record_ok ps m e : stats_ok ps m -> entry_wf e -> Z.of_nat (size m) < 2 ^ 32 - 2 ->
  exists ps', add_record e ps = Ok ps' /\ stats_ok ps' (keep_first m e) /\ ps_fd ps' = ps_fd ps /\
    Z.of_nat (size (keep_first m e)) <= Z.of_nat (size m) + 1.
Proof.
  intros (Hr & Hw & Hs) He Hs'. unfold add_record, keep_first.
  destruct (rep_insert _ _ _ (pe_ip e) (obj_new (ps_heap ps)) e Hr (obj_new_fresh _) Hs) as (t & Et & Ht). rewrite Et, bind_ok.
  destruct (decide (m !! pe_ip e = None)) as [En|En].
  - rewrite bool_decide_eq_true_2 by done. destruct (Ht En) as [Hr' _]. eexists. split; [done|]. rewrite map_size_insert_None by done.
    split; [|split; [done|lia]]. split; [done|]. rewrite map_size_insert_None by done. split; [|lia].
    apply map_Forall_insert_2; [exact (conj eq_refl He)|exact Hw].
  - rewrite bool_decide_eq_false_2 by done. destruct Hr as (pm & Htb & Hpt).
    destruct (t_insert_ok (ps_hash ps) pm (pe_ip e) (obj_new (ps_heap ps)) Htb) as (t' & Et' & Htb').
    { rewrite (points_to_size _ _ _ Hpt). exact Hs. }
    rewrite Et in Et'. injection Et' as Eb <-. rewrite <- Eb, bool_decide_eq_false_2 in Htb' by done.
    eexists. split; [done|]. split; [|split; [done|lia]]. exact (conj (ex_intro _ pm (conj Htb' Hpt)) (conj Hw Hs)).
Qed.

Lemma load_entries_ok : forall (l : list peerstats_entry) fuel i count ps m pre,
  stats_ok ps m -> Forall entry_wf l -> Z.of_nat (size m) + Zlen l < 2 ^ 32 - 1 -> (length l < fuel)%nat -> count = i + Zlen l ->
  f_io (ps_fd ps) = [] -> f_data (ps_fd ps) = pre ++ concat (map record_bytes l) -> f_pos (ps_fd ps) = Zlen pre ->
  exists ps', load_entries fuel 40 i count ps = Ok ps' /\ stats_ok ps' (foldl keep_first m l) /\ ps_fd ps' = File (f_data (ps_fd ps)) (Zlen (f_data (ps_fd ps))) [].
Proof.
  induction l as [|e l IH]; intros fuel i count ps m pre Hok Hl Hn Hf -> Hio Hda Hp; (destruct fuel as [|fuel]; [cbn in *; lia|]); cbn [load_entries].
  { rewrite Zlen_nil, ltb_f by lia. exists ps. split; [done|]. split; [done|]. cbn [map concat] in Hda. rewrite app_nil_r in Hda.
    destruct ps as [[fd po io] ha he di]; cbn in *. by subst. }
  inversion Hl as [|? ? He Hl']; subst. rewrite Zlen_cons in *. pose proof (Zlen_nonneg l). rewrite ltb_t by lia. cbn [negb].
  assert (E : sys_read (ps_fd ps) (Z.to_nat 40) = (40, record_bytes e, File (f_data (ps_fd ps)) (Zlen (pre ++ record_bytes e)) [])).
  { cbn [map concat] in Hda. destruct ps as [[fd po io] ha he di]; cbn [ps_fd f_io f_data f_pos] in *. subst.
    unfold sys_read, next_io. cbn [f_io f_data f_pos]. rewrite to_nat_Zlen, drop_app_length, take_app_length'.
    2: { pose proof (Zlen_stat_record e (proj1 He)) as Hz. unfold Zlen in Hz. lia. }
    rewrite Zlen_app, Zlen_stat_record by apply He. done. }
  rewrite E. cbn [negb Z.eqb Pos.eqb]. rewrite entry_of_record by done.
  destruct (add_record_ok (with_fd (File (f_data (ps_fd ps)) (Zlen (pre ++ record_bytes e)) []) ps) m e) as (ps1 & E1 & Hok1 & Hfd & Hsz);
    [exact Hok|done|lia|]. rewrite E1, bind_ok.
  destruct (IH fuel (i + 1) (i + (1 + Zlen l)) ps1 (keep_first m e) (pre ++ record_bytes e)) as (ps' & E' & Hok' & Hfd');
    rewrite ?Hfd; cbn [with_fd ps_fd f_io f_data f_pos]; [done|done|lia|cbn in Hf; lia|lia|done| |done|].
  - rewrite Hda. cbn [map concat]. by rewrite <- app_assoc.
  - exists ps'. split; [done|]. split; [done|]. rewrite Hfd', Hfd. done.
Qed.

(** The records of distinct addresses make the map. *)
Lemma keep_first_all m (l : list peerstats_entry) : forall m0, l ≡ₚ (map_to_list m).*2 -> map_Forall (fun ip e => pe_ip e = ip) m ->
  m0 = ∅ -> foldl keep_first m0 l = m.
Proof.
  intros m0 Hp Hm ->. assert (Hgen : forall l m0, NoDup (pe_ip <$> l) -> (forall e, e ∈ l -> m0 !! pe_ip e = None) ->
    foldl keep_first m0 l = list_to_map ((fun e => (pe_ip e, e)) <$> l) ∪ m0).
  { clear. induction l as [|e l IH]; intros m0 Hd Hno; cbn; [by rewrite map_empty_union|].
    apply NoDup_cons in Hd as [Hni Hd]. unfold keep_first at 2. rewrite decide_True by (apply Hno; left).
    rewrite IH; [|done|].
    - rewrite <- insert_union_l, insert_union_r; [done|]. apply not_elem_of_list_to_map_1.
      intros [[k e'] [Ek Hin]]%list_elem_of_fmap. cbn in Ek. subst. apply Hni. apply list_elem_of_fmap in Hin as (e2 & [= -> ->] & Hin).
      by apply list_elem_of_fmap_2.
    - intros e' Hin. rewrite lookup_insert_ne; [apply Hno; by right|]. intros E. apply Hni. rewrite E. by apply list_elem_of_fmap_2. }
  assert (Hkeys : (fun e => (pe_ip e, e)) <$> l ≡ₚ map_to_list m).
  { rewrite Hp. replace ((fun e => (pe_ip e, e)) <$> (map_to_list m).*2) with (map_to_list m); [done|].
    assert (HF : Forall (fun x : list byte * peerstats_entry => pe_ip x.2 = x.1) (map_to_list m)).
    { apply Forall_forall. intros [k e] Hin%elem_of_map_to_list. by apply Hm. }
    clear -HF. induction HF as [|[k e] l' E _ IH]; [done|]. cbn [snd fst fmap list_fmap] in *. rewrite E. f_equal. exact IH. }
  assert (Hnd : NoDup (((fun e => (pe_ip e, e)) <$> l).*1)) by (rewrite Hkeys; apply NoDup_fst_map_to_list).
  rewrite Hgen; [|by rewrite <- list_fmap_compose in Hnd|done].
  rewrite (right_id_L ∅ (∪)), <- (list_to_map_to_list m). by apply list_to_map_proper.
Qed.

Lemma init_ok m (l : list peerstats_entry) : l ≡ₚ (map_to_list m).*2 -> Forall entry_wf l -> map_Forall (fun ip e => pe_ip e = ip) m ->
  Z.of_nat (size m) < 2 ^ 32 - 1 ->
  exists ps, peerstats_init (Some (File (image l) 0 [])) = Ok (Some ps) /\ stats_ok ps m /\ f_io (ps_fd ps) = [] /\
    f_data (ps_fd ps) = image l.
Proof.
  intros Hp Hl Hm Hs. assert (Hn : Zlen l = Z.of_nat (size m)).
  { unfold Zlen. by rewrite Hp, length_fmap, length_map_to_list. }
  pose proof (Zlen_nonneg l). unfold peerstats_init. destruct t_create_ok as (t & -> & Ht). rewrite bind_ok.
  set (hdr := PSTAT_MAGIC ++ [Z_byte PSTAT_VERSION_2] ++ write_le32 (Zlen l)).
  assert (Hh : Zlen hdr = 9) by (unfold hdr, write_le32; zlen; reflexivity).
  assert (Ei : image l = hdr ++ concat (map record_bytes l)) by (unfold image, hdr; by rewrite <- !app_assoc).
  assert (Er : sys_read (File (image l) 0 []) (Z.to_nat PSTAT_HEADER_SIZE) = (9, hdr, File (image l) 9 [])).
  { unfold sys_read, next_io. cbn [f_io f_data f_pos]. rewrite Ei. change (Z.to_nat 0) with 0%nat. rewrite drop_0.
    rewrite take_app_length' by (unfold Zlen in Hh; unfold PSTAT_HEADER_SIZE; lia). by rewrite Hh. }
  rewrite Er. change (9 =? PSTAT_HEADER_SIZE) with true. change (take 4 hdr) with PSTAT_MAGIC. rewrite bool_decide_eq_true_2 by done.
  change (le_Z (take 1 (drop 4 hdr))) with 2. cbn [andb orb Z.eqb PSTAT_VERSION_1 PSTAT_VERSION_2 Pos.eqb f_data].
  assert (Ec : read_le32 (drop 5 hdr) = Zlen l).
  { change (drop 5 hdr) with (write_le32 (Zlen l)). unfold read_le32, write_le32. rewrite take_ge by by rewrite length_le_bytes.
    apply le_Z_bytes_small. lia. }
  rewrite Ec. change PSTAT_RECORD_SIZE_2 with 40.
  assert (Hok : stats_ok (Ps (File (image l) 9 []) t ∅ false) ∅).
  { split; [apply (rep_empty _ _ Ht)|]. split; [apply map_Forall_empty|]. rewrite map_size_empty. lia. }
  destruct (load_entries_ok l (S (length (image l))) 0 (Zlen l) (Ps (File (image l) 9 []) t ∅ false) ∅ hdr Hok Hl) as (ps & E & Hok' & Hfd).
  - rewrite map_size_empty. lia.
  - pose proof (Zlen_stat_records l Hl). rewrite Ei, length_app. unfold Zlen in *. lia.
  - lia.
  - done.
  - exact Ei.
  - by rewrite Hh.
  - rewrite E, bind_ok. exists ps. split; [done|]. rewrite Hfd. split; [|done].
    by rewrite (keep_first_all m l ∅ Hp Hm eq_refl) in Hok'.
Qed.

(** *** The best peers *)

(** The failures counted so far leave the score an [int]. *)
Definition scored (e : peerstats_entry) : Prop := is_ok (peerstats_score e) = true.
Definition score_of (e : peerstats_entry) : Z := match peerstats_score e with Ok s => s | Fault _ => 0 end.
Definition worse (a b : peerstats_entry) : Prop := score_of a <= score_of b.

Lemma score_ok e : scored e -> peerstats_score e = Ok (score_of e).
Proof. unfold scored, score_of. by destruct (peerstats_score e). Qed.

Lemma shift_lower_ok e : forall l, Forall scored l -> StronglySorted worse l ->
  exists l', shift_lower (score_of e) e l = Ok l' /\ l' ≡ₚ e :: l /\ StronglySorted worse l'.
Proof.
  induction l as [|x l IH]; intros Hs Hl; cbn [shift_lower]; [by exists [e]; repeat constructor|].
  inversion Hs as [|? ? Hx Hs']; subst. inversion Hl as [|? ? Hl' Hle]; subst. rewrite (score_ok x Hx), bind_ok.
  destruct (Z.ltb_spec (score_of x) (score_of e)) as [Hlt|Hge].
  - destruct (IH Hs' Hl') as (l' & -> & Hp & Hso). rewrite bind_ok. exists (x :: l'). split; [done|].
    split; [rewrite Hp; apply Permutation_swap|]. constructor; [done|]. rewrite Hp. constructor; [unfold worse; lia|done].
  - exists (e :: x :: l). split; [done|]. split; [done|]. constructor; [done|]. constructor; [exact Hge|].
    apply List.Forall_forall. intros y Hy. rewrite List.Forall_forall in Hle. specialize (Hle y Hy). unfold worse in *. lia.
Qed.

(** [out] is the best of [es]: what is left out is not better. *)
Definition best_of (maxOut : Z) (es out : list peerstats_entry) : Prop :=
  StronglySorted worse out /\ Zlen out <= maxOut /\
  exists rest, out ++ rest ≡ₚ filter (fun e => 0 < score_of e) es /\
    (rest <> [] -> Zlen out = maxOut) /\ forall r o, r ∈ rest -> o ∈ out -> worse r o.

Lemma best_cb_ok heap maxOut k p e es out : 0 < maxOut -> heap !! p = Some e -> Forall scored (e :: es) -> best_of maxOut es out ->
  exists out', peerstats_best_cb heap maxOut k p out = Ok out' /\ best_of maxOut (es ++ [e]) out'.
Proof.
  intros Hm He Hs (Hso & Hlen & rest & Hp & Hfull & Hbest). inversion Hs as [|? ? Hse Hses]; subst.
  unfold peerstats_best_cb. rewrite (obj_load_ok _ _ _ He), bind_ok, (score_ok e Hse), bind_ok.
  assert (Hout : Forall scored out).
  { apply Forall_forall. intros x Hx. assert (Hin : x ∈ filter (fun e => 0 < score_of e) es) by (rewrite <- Hp; apply elem_of_app; by left).
    apply list_elem_of_filter in Hin as [_ Hin]. by eapply Forall_forall in Hses. }
  unfold best_of. rewrite filter_app. destruct (Z.leb_spec (score_of e) 0) as [Hle|Hgt].
  { exists out. split; [done|]. split; [done|]. split; [done|]. exists rest. rewrite filter_cons_False, filter_nil, app_nil_r by lia. done. }
  rewrite filter_cons_True, filter_nil by lia. destruct (Z.ltb_spec (Zlen out) maxOut) as [Hroom|Hno].
  - destruct (shift_lower_ok e out Hout Hso) as (out' & -> & Hp' & Hso'). exists out'. split; [done|]. split; [done|].
    assert (Hl' : Zlen out' = 1 + Zlen out) by (unfold Zlen; rewrite Hp'; cbn [length]; lia). split; [lia|].
    destruct rest as [|r rest]; [|by specialize (Hfull ltac:(done)); lia]. exists []. rewrite app_nil_r in Hp |- *.
    split; [rewrite Hp', Hp; apply Permutation_cons_append|]. split; [done|]. intros r o Hr. by apply not_elem_of_nil in Hr.
  - destruct out as [|x out]; [rewrite Zlen_nil in *; lia|]. inversion Hout as [|? ? Hx Hout']; subst.
    inversion Hso as [|? ? Hso' Hx']; subst. rewrite List.Forall_forall in Hx'. rewrite (score_ok x Hx), bind_ok.
    destruct (Z.ltb_spec (score_of x) (score_of e)) as [Hlt|Hge].
    + destruct (shift_lower_ok e out Hout' Hso') as (out' & -> & Hp' & Hso2). exists out'. split; [done|]. split; [done|].
      assert (Hl' : Zlen out' = Zlen (x :: out)) by (unfold Zlen; rewrite Hp'; done). split; [lia|]. exists (x :: rest).
      split; [rewrite Hp', <- Hp, <- Permutation_middle, <- Permutation_cons_append; apply Permutation_swap|].
      split; [intros _; lia|]. intros r o Hr Ho. rewrite Hp' in Ho. apply elem_of_cons in Hr as [->|Hr], Ho as [->|Ho]; unfold worse.
      * lia.
      * apply Hx'. by apply list_elem_of_In.
      * pose proof (Hbest r x Hr ltac:(left)). unfold worse in *. lia.
      * apply Hbest; [done|by right].
    + exists (x :: out). split; [done|]. split; [done|]. split; [done|]. exists (e :: rest).
      split; [rewrite <- Hp, <- Permutation_middle; apply Permutation_cons_append|].
      split; [intros _; lia|]. intros r o [->|Hr]%elem_of_cons Ho; [|by apply Hbest].
      apply elem_of_cons in Ho as [->|Ho]; [exact Hge|]. specialize (Hx' o (proj1 (list_elem_of_In _ _) Ho)). unfold worse in *. lia.
Qed.

Lemma best_loop heap maxOut : 0 < maxOut -> forall ents (l es out : list peerstats_entry), Forall scored (es ++ l) -> best_of maxOut es out ->
  Forall2 (fun (e : list byte * positive) x => heap !! e.2 = Some x) ents l ->
  exists out', fold_entries (peerstats_best_cb heap maxOut) ents out = Ok out' /\ best_of maxOut (es ++ l) out'.
Proof.
  intros Hm ents l es out Hs Hb HF. revert es out Hs Hb. induction HF as [|[k p] e ents l Ee _ IH]; intros es out Hs Hb; cbn [fold_entries].
  { exists out. by rewrite app_nil_r. }
  apply Forall_app in Hs as [Hes Hl]. inversion Hl as [|? ? He Hl']; subst.
  destruct (best_cb_ok heap maxOut k p e es out Hm Ee ltac:(by constructor) Hb) as (out1 & -> & Hb1). rewrite bind_ok.
  destruct (IH (es ++ [e]) out1) as (out' & E & Hb'); [|exact Hb1|].
  - rewrite <- app_assoc. cbn. apply Forall_app. by split; [|constructor].
  - exists out'. split; [exact E|]. by rewrite <- app_assoc in Hb'.
Qed.

(** *** Sequences of events, the program restarted in between *)

Inductive ps_op : Type :=
| PsHandshake (ip : list byte) (latencyUsec services : Z)
| PsOk (ip : list byte) (chunkUsec : Z)
| PsFail (ip : list byte)
| PsLookup (ip : list byte)
| PsRestart.

Definition ps_step (op : ps_op) (o : option peerstats) : res (option peerstats_entry * option peerstats) :=
  match op with
  | PsHandshake ip la sv => o ← peerstats_record_handshake o ip la sv; Ok (None, o)
  | PsOk ip chunkUsec => o ← peerstats_record_cfilter_ok o ip chunkUsec; Ok (None, o)
  | PsFail ip => o ← peerstats_record_cfilter_fail o ip; Ok (None, o)
  | PsLookup ip => e ← peerstats_lookup o ip; Ok (e, o)
  | PsRestart =>
      f ← peerstats_exit o;
      o ← peerstats_init (match f with Some f => Some (File (f_data f) 0 []) | None => None end);
      Ok (None, o)
  end.

Fixpoint ps_run (ops : list ps_op) (o : option peerstats) : res (list (option peerstats_entry) * option peerstats) :=
  match ops with
  | [] => Ok ([], o)
  | op :: ops => '(r, o) ← ps_step op o; '(rs, o) ← ps_run ops o; Ok (r :: rs, o)
  end.

(** The specification: a map from addresses to records, kept for ever. *)
Definition at_entry (f : peerstats_entry -> peerstats_entry) (ip : list byte) m : gmap (list byte) peerstats_entry :=
  <[ip := f (default (new_entry ip) (m !! ip))]> m.
Definition ps_spec (op : ps_op) m : option peerstats_entry * gmap (list byte) peerstats_entry :=
  match op with
  | PsHandshake ip la sv => (None, at_entry (set_handshake la sv) ip m)
  | PsOk ip chunkUsec => (None, at_entry (add_ok chunkUsec) ip m)
  | PsFail ip => (None, at_entry add_fail ip m)
  | PsLookup ip => (m !! ip, m)
  | PsRestart => (None, m)
  end.
Fixpoint ps_spec_run (ops : list ps_op) m : list (option peerstats_entry) :=
  match ops with
  | [] => []
  | op :: ops => let '(r, m) := ps_spec op m in r :: ps_spec_run ops m
  end.

Definition ps_op_ok (op : ps_op) : Prop :=
  match op with
  | PsHandshake ip la sv => length ip = 16%nat /\ u32 la /\ u64 sv
  | PsOk ip chunkUsec => length ip = 16%nat /\ u32 chunkUsec
  | PsFail ip => length ip = 16%nat
  | _ => True
  end.

(** The file of a store that has nothing to write is that of its table. *)
Definition stored ps m : Prop :=
  stats_ok ps m /\ f_io (ps_fd ps) = [] /\
  (ps_dirty ps = false -> (m = ∅ /\ f_data (ps_fd ps) = []) \/
     exists l, l ≡ₚ (map_to_list m).*2 /\ Forall entry_wf l /\ f_data (ps_fd ps) = image l).

Lemma stored_record f ps m ip : stored ps m -> length ip = 16%nat -> Z.of_nat (size m) < 2 ^ 32 - 2 -> keeps_wf f ->
  exists ps', record_entry f (Some ps) ip = Ok (Some ps') /\ stored ps' (at_entry f ip m) /\
    Z.of_nat (size (at_entry f ip m)) <= Z.of_nat (size m) + 1.
Proof.
  intros (Hok & Hio & _) Hl Hs Hf. destruct (record_entry_ok f ps m ip Hok Hl Hs Hf) as (ps' & E & Hok' & Hd & Hfd).
  exists ps'. split; [exact E|]. split; [split; [exact Hok'|split; [by rewrite Hfd|intros E'; congruence]]|].
  unfold at_entry. destruct (m !! ip) eqn:Em; [rewrite map_size_insert_Some by (by eexists); lia|rewrite map_size_insert_None by (exact Em); lia].
Qed.

Lemma keeps_address m : map_Forall (fun ip e => pe_ip e = ip /\ entry_wf e) m -> map_Forall (fun ip e => pe_ip e = ip) m.
Proof. intros Hm ip e E. by apply Hm. Qed.

Lemma new_stats : exists ps, peerstats_init (Some (File [] 0 [])) = Ok (Some ps) /\ stored ps ∅.
Proof.
  unfold peerstats_init. destruct t_create_ok as (t & -> & Ht). rewrite bind_ok. cbn -[Z.pow]. eexists. split; [done|].
  split; [|split; [done|intros _; by left]]. split; [apply (rep_empty _ _ Ht)|]. split; [apply map_Forall_empty|].
  rewrite map_size_empty. lia.
Qed.

Lemma restart_stored ps m : stored ps m -> exists ps', ps_step PsRestart (Some ps) = Ok (None, Some ps') /\ stored ps' m.
Proof.
  intros (Hok & Hio & Hfile). destruct (flush_ok ps m Hok Hio) as (f & l & E & _ & Hp & Hl & _ & Hd).
  cbn [ps_step]. unfold peerstats_exit. rewrite E, !bind_ok. cbn [option_map ps_fd].
  assert (Hcase : (m = ∅ /\ f_data f = []) \/ exists l, l ≡ₚ (map_to_list m).*2 /\ Forall entry_wf l /\ f_data f = image l).
  { rewrite Hd. destruct (ps_dirty ps); [right; by exists l|]. by apply Hfile. }
  destruct Hcase as [[-> ->]|(l' & Hp' & Hl' & ->)].
  { destruct new_stats as (ps' & -> & Hst). rewrite bind_ok. by exists ps'. }
  destruct Hok as (_ & Hm & Hs). destruct (init_ok m l' Hp' Hl' (keeps_address m Hm) Hs) as (ps' & -> & Hok' & Hio' & Hd').
  rewrite bind_ok. exists ps'. split; [done|]. split; [exact Hok'|]. split; [exact Hio'|]. intros _. right. by exists l'.
Qed.

Lemma ps_step_ok op ps m : stored ps m -> ps_op_ok op -> Z.of_nat (size m) < 2 ^ 32 - 2 ->
  exists ps', ps_step op (Some ps) = Ok ((ps_spec op m).1, Some ps') /\ stored ps' (ps_spec op m).2 /\
    Z.of_nat (size (ps_spec op m).2) <= Z.of_nat (size m) + 1.
Proof.
  intros Hst Hop Hs. destruct op as [ip la sv|ip chunk|ip|ip|]; cbn [ps_step ps_spec fst snd].
  - destruct Hop as (Hl & Hla & Hsv). destruct (stored_record _ ps m ip Hst Hl Hs (set_handshake_wf la sv Hla Hsv)) as (ps' & E & Hst').
    unfold peerstats_record_handshake. rewrite E, bind_ok. by exists ps'.
  - destruct Hop as (Hl & Hc). destruct (stored_record _ ps m ip Hst Hl Hs (add_ok_wf chunk Hc)) as (ps' & E & Hst').
    unfold peerstats_record_cfilter_ok. rewrite E, bind_ok. by exists ps'.
  - destruct (stored_record _ ps m ip Hst Hop Hs add_fail_wf) as (ps' & E & Hst').
    unfold peerstats_record_cfilter_fail. rewrite E, bind_ok. by exists ps'.
  - rewrite (lookup_ok ps m ip (proj1 Hst)), bind_ok. exists ps. split; [done|]. split; [exact Hst|lia].
  - destruct (restart_stored ps m Hst) as (ps' & E & Hst'). cbn [ps_step] in E. exists ps'. split; [exact E|]. split; [exact Hst'|lia].
Qed.

Lemma ps_run_ok ops : forall ps m, stored ps m -> Forall ps_op_ok ops -> Z.of_nat (size m) + Zlen ops < 2 ^ 32 - 1 ->
  exists ps', ps_run ops (Some ps) = Ok (ps_spec_run ops m, Some ps').
Proof.
  induction ops as [|op ops IH]; intros ps m Hst Hops Hs; cbn [ps_run ps_spec_run]; [by exists ps|].
  inversion Hops; subst. rewrite Zlen_cons in Hs. pose proof (Zlen_nonneg ops).
  destruct (ps_step_ok op ps m Hst) as (ps1 & E & Hst1 & Hs1); [done|lia|]. rewrite E, bind_ok.
  destruct (ps_spec op m) as [r m1]. cbn [fst snd] in *. destruct (IH ps1 m1 Hst1) as (ps2 & ->); [done|lia|].
  rewrite bind_ok. by exists ps2.
Qed.
End proofs.

(** ** Properties *)

(** C36: the store is a map from addresses to records that survives the
    program. On a new file, for any sequence of handshakes, served chunks,
    failures, lookups and restarts of the program, every call succeeds inside
    its buffers and a lookup gives what the events of the address add up to, the
    ones before a restart included. *)
Theorem peerstats_simulates_map `{T : Table positive} (ops : list ps_op) :
  Forall ps_op_ok ops -> Zlen ops < 2 ^ 32 - 1 ->
  exists ps0 ps, peerstats_init (Some (File [] 0 [])) = Ok (Some ps0) /\ ps_run ops (Some ps0) = Ok (ps_spec_run ops ∅, ps).
Proof.
  intros Hops Hl. destruct new_stats as (ps0 & E & Hst). destruct (ps_run_ok ops ps0 ∅ Hst Hops) as (ps & Er).
  { rewrite map_size_empty. lia. }
  by exists ps0, (Some ps).
Qed.

Definition one_ip : list byte := replicate 10 x00 ++ [xff; xff; x0a; x00; x00; x01].
Definition one_run : list ps_op :=
  [PsHandshake one_ip 5000 1037; PsOk one_ip 4000; PsRestart; PsOk one_ip 8000; PsLookup one_ip; PsFail one_ip; PsRestart; PsLookup one_ip].

Lemma peerstats_simulates_map_witness :
  Forall ps_op_ok one_run /\
  exists ps0 ps, peerstats_init (T := hashtable_Table positive) (Some (File [] 0 [])) = Ok (Some ps0) /\
    ps_run one_run (Some ps0) = Ok ([None; None; None; None; Some (PsEntry one_ip 1037 5000 2 0 5000); None; None;
      Some (PsEntry one_ip 1037 5000 2 1 5000)], ps).
Proof.
  assert (H : Forall ps_op_ok one_run) by (repeat constructor; try (by vm_compute)).
  split; [exact H|]. exact (peerstats_simulates_map (T := hashtable_Table positive) one_run H ltac:(by vm_compute)).
Defined.

(** The peers preferred when connecting: the list is sorted, the best first,
    holds peers with a positive score only, as many as asked if there are as
    many, and no peer left out is better than one of the list. *)
Theorem peerstats_get_best_top `{T : Table positive} (ps : peerstats) (m : gmap (list byte) peerstats_entry) (maxOut : Z) :
  stats_ok ps m -> map_Forall (fun _ e => scored e) m -> 0 < maxOut ->
  exists best, peerstats_get_best (Some ps) maxOut = Ok best /\ best_of maxOut (map_to_list m).*2 (rev best).
Proof.
  intros Hok Hsc Hm. unfold peerstats_get_best. rewrite leb_f by lia.
  destruct (entries_of ps m Hok) as (l & Hp & _ & _ & _ & HF).
  assert (Hs : Forall scored l).
  { rewrite Hp. apply Forall_fmap, Forall_forall. intros [k e] Hin%elem_of_map_to_list. exact (Hsc k e Hin). }
  destruct (best_loop (ps_heap ps) maxOut Hm (t_entries (ps_hash ps)) l [] [] Hs) as (out & E & Hb).
  - split; [constructor|]. split; [rewrite Zlen_nil; lia|]. exists []. split; [done|]. split; [done|]. intros r o Hr. by apply not_elem_of_nil in Hr.
  - exact HF.
  - unfold t_for_each. rewrite E, bind_ok. exists (rev out). split; [done|]. rewrite rev_involutive. cbn [app] in Hb.
    destruct Hb as (Hso & Hl & rest & Hr & Hb). split; [exact Hso|]. split; [exact Hl|]. exists rest. split; [by rewrite Hr, Hp|exact Hb].
Qed.
