(* ===== verification/Key.v ===== *)
(** * Keys (core/key.c)

    A key pair of secp256k1: making one, taking it from and to the bytes of its
    private scalar, the hash of its public key, signing and verifying. The curve
    and the EVP layer are OpenSSL's: the class [Secp256k1], with the documented
    meaning of the functions used as laws. *)
From Stdlib Require Import Strings.String.
From S2P Require Export Text Base58.

Class Secp256k1 : Type := {
  EC_POINT : Type;
  EVP_PKEY : Type;
  (** the order of the group *)
  ec_order : Z;
  EC_POINT_mul : Z -> option EC_POINT;
  (** the compressed form *)
  EC_POINT_point2oct : EC_POINT -> list byte;
  (** OSSL_PARAM_BLD and EVP_PKEY_fromdata, of the scalar and the public key *)
  EVP_PKEY_fromdata : Z -> list byte -> option EVP_PKEY;
  (** EVP_PKEY_get_bn_param(OSSL_PKEY_PARAM_PRIV_KEY) *)
  EVP_PKEY_get_priv : EVP_PKEY -> option Z;
  EVP_PKEY_sign : EVP_PKEY -> list byte -> option (list byte);
  EVP_PKEY_verify : EVP_PKEY -> list byte -> list byte -> Z;
  ec_order_bound : 2 ^ 255 < ec_order < 2 ^ 256;
  EC_POINT_mul_ok : forall d, 0 < d < ec_order -> exists p, EC_POINT_mul d = Some p /\ Zlen (EC_POINT_point2oct p) = 33;
  EC_POINT_mul_inj : forall d d' p p', 0 < d < ec_order -> 0 < d' < ec_order ->
    EC_POINT_mul d = Some p -> EC_POINT_mul d' = Some p' -> EC_POINT_point2oct p = EC_POINT_point2oct p' -> d = d';
  EVP_PKEY_fromdata_ok : forall d p, 0 < d < ec_order -> EC_POINT_mul d = Some p ->
    exists k, EVP_PKEY_fromdata d (EC_POINT_point2oct p) = Some k /\ EVP_PKEY_get_priv k = Some d;
  EVP_PKEY_sign_verify : forall k data sig, EVP_PKEY_sign k data = Some sig -> EVP_PKEY_verify k data sig = 1;
  EVP_PKEY_sign_length : forall k data sig, EVP_PKEY_sign k data = Some sig -> Zlen sig < 2 ^ 20
}.

Section key.
Context `{Secp256k1} `{Sha256}.

(** [pub_len] is the length of [k_pub_key], 0 for NULL. *)
Record key : Type := Key { k_pkey : option EVP_PKEY; k_pub_key : option (list byte) }.

Definition key_alloc : key := Key None None.

Definition key_pubkey_from_priv_bn (priv : Z) : option (list byte) :=
  match EC_POINT_mul priv with
  | None => None
  | Some point =>
      let pub := EC_POINT_point2oct point in
      if (Zlen pub =? 0) || (65 <? Zlen pub) then None else Some pub
  end.

Definition key_build_pkey (priv : Z) (pub : list byte) : option EVP_PKEY := EVP_PKEY_fromdata priv pub.

(** [BN_num_bytes(bn) + 1] bytes: the scalar, big-endian and minimal, and a 1
    for a compressed key. [None] is the return 0. *)
Definition key_get_privkey (k : key) : option (list byte) :=
  match k_pkey k with
  | None => None
  | Some pkey =>
      match EVP_PKEY_get_priv pkey with
      | None => None
      | Some bn => Some (be_bytes (mpi_nbytes bn) bn ++ [x01])
      end
  end.

Definition key_get_pubkey (k : key) : list byte := default [] (k_pub_key k).

(** [generated] is what EVP_PKEY_generate gives. *)
Definition key_generate_new (generated : option EVP_PKEY) : option key :=
  match generated with
  | None => None
  | Some pkey =>
      match EVP_PKEY_get_priv pkey with
      | None => None
      | Some priv =>
          match key_pubkey_from_priv_bn priv with
          | None => None
          | Some pub => Some (Key (Some pkey) (Some pub))
          end
      end
  end.

(** The result and the key; [privkey] is the block, [len] its length. *)
Definition key_set_privkey (k : key) (privkey : list byte) (len : Z) : res (bool * key) :=
  _ ← ASSERT ((len =? 32) || (len =? 33));
  b32 ← mem_load privkey 0 32;
  let bn := be_Z b32 in
  match key_pubkey_from_priv_bn bn with
  | None => Ok (false, Key (k_pkey k) None)
  | Some pub =>
      match key_build_pkey bn pub with
      | None => Ok (false, Key None None)
      | Some pkey => Ok (true, Key (Some pkey) (Some pub))
      end
  end.

(** A context cannot be made of a NULL key: 0. *)
Definition key_verify (k : key) (data sig : list byte) : bool :=
  match k_pkey k with Some pkey => EVP_PKEY_verify pkey data sig =? 1 | None => false end.
Definition key_sign (k : key) (data : list byte) : option (list byte) :=
  match k_pkey k with Some pkey => EVP_PKEY_sign pkey data | None => None end.

(** The public key is logged first. *)
Definition key_get_pubkey_hash160 (k : key) : res uint160 :=
  match k_pub_key k with
  | None => Fault Panic
  | Some pub =>
      _ ← ASSERT (0 <? Zlen pub);
      _ ← log_bytes (Some (str "KEY: pubkey: ")) pub;
      hash160_calc pub
  end.

(** ** What the operations do *)

(** A key pair: the scalar [d] and its public key. *)
Definition key_of (d : Z) (k : key) : Prop :=
  0 < d < ec_order /\ exists pkey p, k = Key (Some pkey) (Some (EC_POINT_point2oct p)) /\
    EVP_PKEY_get_priv pkey = Some d /\ EC_POINT_mul d = Some p.

(** The bytes key_get_privkey gives for a scalar. *)
Definition privkey_bytes (d : Z) : list byte := be_bytes (mpi_nbytes d) d ++ [x01].

Lemma key_get_privkey_of d k : key_of d k -> key_get_privkey k = Some (privkey_bytes d).
Proof. intros (_ & pkey & p & -> & E & _). unfold key_get_privkey. cbn [k_pkey]. by rewrite E. Qed.

Lemma key_pub_of d k : key_of d k -> exists pub, k_pub_key k = Some pub /\ key_get_pubkey k = pub /\ Zlen pub = 33 /\
  key_pubkey_from_priv_bn d = Some pub.
Proof.
  intros (Hd & pkey & p & -> & _ & Ep). destruct (EC_POINT_mul_ok d Hd) as (p' & Ep' & Hl).
  rewrite Ep in Ep'. injection Ep' as <-. exists (EC_POINT_point2oct p). split_and!; [done..|].
  unfold key_pubkey_from_priv_bn. rewrite Ep. cbv zeta. by rewrite Hl.
Qed.

(** The hash of the public key: 20 bytes. *)
Lemma key_hash_of d k : key_of d k -> exists h, key_get_pubkey_hash160 k = Ok h /\ length h = 20%nat /\
  hash160_calc (key_get_pubkey k) = Ok h.
Proof.
  intros Hk. destruct (key_pub_of d k Hk) as (pub & Ek & Eg & Hl & _). unfold key_get_pubkey_hash160.
  destruct (hash160_calc_length pub) as (h & Eh & Hh). exists h. rewrite Ek, Eg, Hl. cbn [Z.ltb Z.compare ASSERT].
  rewrite bind_ok. destruct (str_snprintf_bytes_total 16384 (Some (str "KEY: pubkey: ")) pub) as [s Es].
  { right. cbn [pfx_len]. rewrite Hl. by vm_compute. }
  unfold log_bytes. rewrite Es, bind_ok. split_and!; [done| |done]. exact Hh.
Qed.

(** Two scalars, two public keys. *)
Lemma key_of_inj d d' k k' : key_of d k -> key_of d' k' -> key_get_pubkey k = key_get_pubkey k' -> d = d'.
Proof.
  intros (Hd & pk & p & -> & _ & Ep) (Hd' & pk' & p' & -> & _ & Ep') E. cbn in E.
  by apply (EC_POINT_mul_inj d d' p p').
Qed.

Lemma key_generate_of d pkey : 0 < d < ec_order -> EVP_PKEY_get_priv pkey = Some d ->
  exists k, key_generate_new (Some pkey) = Some k /\ key_of d k.
Proof.
  intros Hd E. destruct (EC_POINT_mul_ok d Hd) as (p & Ep & Hl). unfold key_generate_new, key_pubkey_from_priv_bn.
  rewrite E, Ep. cbv zeta. rewrite Hl. cbn [Z.eqb Z.ltb Z.compare Pos.compare Pos.compare_cont orb].
  eexists. split; [done|]. split; [done|]. eauto 6.
Qed.

(** Reading the 32 bytes of a scalar. *)
Lemma key_set_privkey_of d bytes rest len : 0 < d < ec_order -> length bytes = 32%nat -> be_Z bytes = d ->
  len = 32 \/ len = 33 -> exists k, key_set_privkey key_alloc (bytes ++ rest) len = Ok (true, k) /\ key_of d k.
Proof.
  intros Hd Hb Ed Hlen. unfold key_set_privkey.
  assert ((len =? 32) || (len =? 33) = true) as -> by (by destruct Hlen as [-> | ->]).
  cbn [ASSERT]. rewrite bind_ok. pose proof (mem_load_app [] bytes rest) as Em. unfold Zlen in Em. rewrite Hb in Em.
  cbn [app length] in Em. change (Z.of_nat 0) with 0 in Em. change (Z.of_nat 32) with 32 in Em.
  rewrite Em, bind_ok. cbv zeta. rewrite Ed. destruct (EC_POINT_mul_ok d Hd) as (p & Ep & Hl).
  unfold key_pubkey_from_priv_bn, key_build_pkey. rewrite Ep. cbv zeta. rewrite Hl.
  cbn [Z.eqb Z.ltb Z.compare Pos.compare Pos.compare_cont orb].
  destruct (EVP_PKEY_fromdata_ok d p Hd Ep) as (pk & Ef & Eg). rewrite Ef. eexists. split; [done|].
  split; [done|]. eauto 6.
Qed.

Lemma be_Z_bytes n v : 0 <= v < 2 ^ (8 * Z.of_nat n) -> be_Z (be_bytes n v) = v.
Proof. intros Hv. unfold be_Z, be_bytes. by rewrite rev_involutive, le_Z_bytes_small. Qed.
Lemma be_bytes_length n v : length (be_bytes n v) = n.
Proof. unfold be_bytes. by rewrite length_rev, length_le_bytes. Qed.

Lemma nbytes_32 d : 2 ^ 248 <= d < 2 ^ 256 -> mpi_nbytes d = 32%nat.
Proof. intros Hd. by apply (mpi_nbytes_unique d 31). Qed.
Lemma nbytes_31 d : 2 ^ 240 <= d < 2 ^ 248 -> mpi_nbytes d = 31%nat.
Proof. intros Hd. by apply (mpi_nbytes_unique d 30). Qed.

(** ** Properties *)

(** A key whose scalar takes its 32 bytes is the same key after it was saved and
    set again: same scalar, same public key, same address. *)
Theorem key_privkey_roundtrip d k rest : key_of d k -> 2 ^ 248 <= d ->
  exists priv k', key_get_privkey k = Some priv /\ Zlen priv = 33 /\
    key_set_privkey key_alloc (priv ++ rest) (Zlen priv) = Ok (true, k') /\ key_of d k' /\
    key_get_pubkey_hash160 k' = key_get_pubkey_hash160 k.
Proof.
  intros Hk Hd. pose proof Hk as (Hdo & _). pose proof ec_order_bound as Ho.
  assert (Hn : mpi_nbytes d = 32%nat) by (apply nbytes_32; lia).
  assert (Hl : Zlen (privkey_bytes d) = 33).
  { unfold privkey_bytes, Zlen. rewrite Hn, length_app, be_bytes_length. done. }
  exists (privkey_bytes d). rewrite Hl. unfold privkey_bytes at 2. rewrite Hn, <- app_assoc.
  destruct (key_set_privkey_of d (be_bytes 32 d) ([x01] ++ rest) 33) as (k' & Ek' & Hk'); [done|apply be_bytes_length| |by right|].
  { apply be_Z_bytes. change (8 * Z.of_nat 32) with 256. lia. }
  exists k'. split; [by apply key_get_privkey_of|]. split_and!; [done..|].
  destruct (key_pub_of d k Hk) as (pub & E1 & _ & _ & E2), (key_pub_of d k' Hk') as (pub' & E1' & _ & _ & E2').
  unfold key_get_pubkey_hash160. rewrite E1, E1'. by replace pub' with pub by congruence.
Qed.

(** A scalar that takes 31 bytes - one generated key in 256 - is saved in 32
    bytes, the last of them the mark of a compressed key, and is set again as
    another scalar: the public key is not that of the key that was saved. *)
Theorem key_short_privkey_changes d k rest : key_of d k -> 2 ^ 240 <= d < 2 ^ 248 -> 256 * d + 1 < ec_order ->
  exists priv k', key_get_privkey k = Some priv /\ Zlen priv = 32 /\
    key_set_privkey key_alloc (priv ++ rest) (Zlen priv) = Ok (true, k') /\ key_of (256 * d + 1) k' /\
    key_get_pubkey k' <> key_get_pubkey k.
Proof.
  intros Hk Hd Ho. pose proof Hk as (Hdo & _).
  assert (Hn : mpi_nbytes d = 31%nat) by (by apply nbytes_31).
  assert (Hlen : length (privkey_bytes d) = 32%nat).
  { unfold privkey_bytes. rewrite Hn, length_app, be_bytes_length. done. }
  assert (Hl : Zlen (privkey_bytes d) = 32) by (unfold Zlen; by rewrite Hlen).
  exists (privkey_bytes d). rewrite Hl.
  destruct (key_set_privkey_of (256 * d + 1) (privkey_bytes d) rest 32) as (k' & Ek' & Hk'); [lia|done| |by left|].
  { unfold privkey_bytes. rewrite Hn, be_Z_app, be_Z_bytes by (change (8 * Z.of_nat 31) with 248; lia).
    change (be_Z [x01]) with 1. change (256 ^ Zlen [x01]) with 256. lia. }
  exists k'. split; [by apply key_get_privkey_of|]. split_and!; [done..|].
  intros E. pose proof (key_of_inj _ _ _ _ Hk' Hk E). lia.
Qed.

(** What key_sign makes, key_verify accepts. *)
Lemma key_sign_verifies k data sig : key_sign k data = Some sig -> key_verify k data sig = true.
Proof.
  unfold key_sign, key_verify. destruct (k_pkey k) as [pkey|]; [|done]. intros E.
  by rewrite (EVP_PKEY_sign_verify _ _ _ E).
Qed.
End key.

(** Scalars as points: a curve for the witnesses (multiplication is the identity,
    a signature is the digest). *)
Definition toy_curve : Secp256k1.
Proof.
  refine {| EC_POINT := Z; EVP_PKEY := Z; ec_order := 2 ^ 256 - 1;
    EC_POINT_mul := fun d => Some d; EC_POINT_point2oct := fun d => be_bytes 33 d;
    EVP_PKEY_fromdata := fun d _ => Some d; EVP_PKEY_get_priv := Some;
    EVP_PKEY_sign := fun _ data => Some (take 32 data);
    EVP_PKEY_verify := fun _ data sig => if bool_decide (sig = take 32 data) then 1 else 0 |}.
  - split; reflexivity.
  - intros d Hd. exists d. split; [done|]. unfold Zlen. by rewrite be_bytes_length.
  - intros d d' p p' Hd Hd' [= <-] [= <-] E%(f_equal be_Z). change (8 * Z.of_nat 33) with 264 in *.
    rewrite !be_Z_bytes in E; [done|..]; change (8 * Z.of_nat 33) with 264; lia.
  - intros d p Hd [= <-]. by exists d.
  - intros k data sig [= <-]. by rewrite bool_decide_eq_true_2.
  - intros k data sig [= <-]. unfold Zlen. rewrite length_take. lia.
Defined.

Section witness.
#[local] Existing Instance toy_curve.
#[local] Existing Instance toy_sha256.

Lemma toy_key_of d : 0 < d < 2 ^ 256 - 1 -> key_of d (Key (Some d) (Some (be_bytes 33 d))).
Proof. intros Hd. split; [exact Hd|]. by exists d, d. Qed.

Lemma key_privkey_roundtrip_witness : let d := 2 ^ 250 + 5 in let k := Key (Some d) (Some (be_bytes 33 d)) in
  exists priv k', key_get_privkey k = Some priv /\ Zlen priv = 33 /\
    key_set_privkey key_alloc (priv ++ []) (Zlen priv) = Ok (true, k') /\ key_of d k' /\
    key_get_pubkey_hash160 k' = key_get_pubkey_hash160 k.
Proof.
  intros d k. apply (key_privkey_roundtrip d k []); [apply toy_key_of; split; reflexivity|]. by apply Z.leb_le.
Defined.

Lemma key_short_privkey_changes_witness : let d := 2 ^ 247 + 5 in let k := Key (Some d) (Some (be_bytes 33 d)) in
  exists priv k', key_get_privkey k = Some priv /\ Zlen priv = 32 /\
    key_set_privkey key_alloc (priv ++ []) (Zlen priv) = Ok (true, k') /\ key_of (256 * d + 1) k' /\
    key_get_pubkey k' <> key_get_pubkey k.
Proof.
  intros d k. apply (key_short_privkey_changes d k []); [apply toy_key_of; split; reflexivity| |reflexivity].
  split; [by apply Z.leb_le|reflexivity].
Defined.
End witness.
