(* ===== verification/Crypt.v ===== *)
(** * Encryption of the wallet (core/crypt.c)

    The key derived from a passphrase, the encryption of private keys and their
    authentication code. AES, the key derivation and mlock are the class
    [EvpCipher]; HMAC is defined on top of SHA-256 as the code does it and shown
    to be the HMAC of RFC 2104. An [int64] count found by timing
    (crypt_determine_count) is an argument. *)
From S2P Require Export Hash.

Definition CRYPT_SALT_LEN : Z := 8.
Definition CRYPT_NUM_ITERATIONS_OLD : Z := 1337.

Class EvpCipher : Type := {
  (** the length returned, the key and the IV, of salt, data and count *)
  EVP_BytesToKey : list byte -> list byte -> Z -> Z * list byte * list byte;
  (** EncryptInit, Update and Final with AES-256-CBC; DecryptInit, ... *)
  EVP_Encrypt : list byte -> list byte -> list byte -> option (list byte);
  EVP_Decrypt : list byte -> list byte -> list byte -> option (list byte);
  (** whether so many bytes can be locked in memory *)
  util_memlock : Z -> bool;
  EVP_Decrypt_Encrypt : forall key iv p c, EVP_Encrypt key iv p = Some c -> EVP_Decrypt key iv c = Some p;
  (** padding to a multiple of the block, one more when it is one *)
  EVP_Encrypt_length : forall key iv p c, EVP_Encrypt key iv p = Some c -> Zlen c = 16 * (Zlen p / 16 + 1)
}.

Record crypt_key : Type := CryptKey { ck_key : list byte; ck_iv : list byte; ck_salt : list byte }.

(** ** HMAC *)

Definition byte_xor (a c : byte) : byte := Z_byte (Z.lxor (byte_Z a) (byte_Z c)).

(** [for (i = 0; i < n; i++) pad[i] ^= c] *)
Fixpoint xor_loop (n : nat) (pad : list byte) (c : byte) : list byte :=
  match n, pad with
  | S n, x :: pad => byte_xor x c :: xor_loop n pad c
  | _, _ => pad
  end.

Section crypt.
Context `{Sha256} `{EvpCipher}.

(** [NULL] when the memory cannot be locked; the block is zeroed. *)
Definition secure_alloc (len : Z) : option (list byte) :=
  if util_memlock (16 + len) then Some (replicate (Z.to_nat len) x00) else None.

(** The status, the key and [*count_ptr]. *)
Definition crypt_set_key_from_passphrase (determined : Z) (pass : list byte) (ckey : crypt_key) (count_ptr : Z) :
    bool * crypt_key * Z :=
  let count := if count_ptr =? 0 then sint32 determined else sint32 count_ptr in
  if (count_ptr =? 0) && (count <? 0) then (false, ckey, count_ptr) else
  let '(len, key, iv) := EVP_BytesToKey (ck_salt ckey) pass count in
  if negb (len =? 32) then (false, CryptKey (replicate 32 x00) (replicate 32 x00) (ck_salt ckey), count_ptr)
  else (true, CryptKey key iv (ck_salt ckey), if count_ptr =? 0 then count else count_ptr).

(** [None] is the return 0. *)
Definition crypt_encrypt (ckey : crypt_key) (plaintext : list byte) : option (list byte) :=
  EVP_Encrypt (ck_key ckey) (ck_iv ckey) plaintext.

(** Without locked memory, OpenSSL would write through a null pointer. *)
Definition crypt_decrypt (ckey : crypt_key) (cipher : list byte) : res (option (list byte)) :=
  match secure_alloc (Zlen cipher) with
  | None => Fault UB
  | Some _ => Ok (EVP_Decrypt (ck_key ckey) (ck_iv ckey) cipher)
  end.

Definition crypt_hmac_sha256 (text key : list byte) : res uint256 :=
  _ ← ASSERT (Zlen text <? 512);
  let key := if 64 <? Zlen key then sha256_calc key else key in
  _ ← ASSERT (Zlen key <? 65);
  let pad := key ++ replicate (65 - length key) x00 in
  let ipad := xor_loop 64 pad x36 in
  let opad := xor_loop 64 pad x5c in
  let buf_hash := sha256_calc (take 64 ipad ++ text) in
  Ok (sha256_calc (take 64 opad ++ buf_hash)).

(** ** RFC 2104 *)

(** The key as one block of 64 bytes. *)
Definition hmac_block (key : list byte) : list byte :=
  let k := if decide (64 < length key)%nat then sha256 key else key in k ++ replicate (64 - length k) x00.
Definition hmac (key text : list byte) : list byte :=
  let k := hmac_block key in
  sha256 (zip_with byte_xor k (replicate 64 x5c) ++ sha256 (zip_with byte_xor k (replicate 64 x36) ++ text)).

Lemma hmac_block_length key : length (hmac_block key) = 64%nat.
Proof.
  unfold hmac_block. rewrite length_app, length_replicate. destruct (decide _); [rewrite sha256_length; lia|lia].
Qed.

Lemma xor_loop_zip n c : forall pad, (n <= length pad)%nat -> take n (xor_loop n pad c) = zip_with byte_xor (take n pad) (replicate n c).
Proof.
  induction n as [|n IH]; intros [|x pad] Hl; cbn in *; [done..|lia|]. by rewrite IH by lia.
Qed.

Lemma crypt_hmac_ok (text key : list byte) : Zlen text < 512 -> crypt_hmac_sha256 text key = Ok (hmac key text).
Proof.
  intros Hl. unfold crypt_hmac_sha256. rewrite (ltb_t (Zlen text) 512 Hl). cbn [ASSERT]. rewrite bind_ok. cbv zeta.
  set (k := if 64 <? Zlen key then sha256_calc key else key).
  assert (Hk : hmac_block key = k ++ replicate (64 - length k) x00 /\ (length k <= 64)%nat).
  { unfold hmac_block, k, Zlen. destruct (Z.ltb_spec 64 (Z.of_nat (length key))); [rewrite decide_True by lia|rewrite decide_False by lia].
    - split; [done|]. unfold sha256_calc. rewrite sha256_length. lia.
    - split; [done|lia]. }
  destruct Hk as [Hb Hk]. rewrite ltb_t by (unfold Zlen; lia). cbn [ASSERT]. rewrite bind_ok.
  assert (Ht : take 64 (k ++ replicate (65 - length k) x00) = hmac_block key).
  { rewrite Hb. replace (65 - length k)%nat with (64 - length k + 1)%nat by lia. rewrite replicate_add, app_assoc.
    rewrite take_app_le by (rewrite length_app, length_replicate; lia). apply take_ge.
    rewrite length_app, length_replicate. lia. }
  rewrite !xor_loop_zip, Ht by (rewrite length_app, length_replicate; lia). done.
Qed.

(** C18: the code computes the HMAC of RFC 2104 with SHA-256 on every text below 512
    bytes, whatever the length of the key, and stops the process above. *)
Theorem crypt_hmac_is_hmac (text key : list byte) :
  crypt_hmac_sha256 text key = if Zlen text <? 512 then Ok (hmac key text) else Fault Panic.
Proof.
  destruct (Z.ltb_spec (Zlen text) 512) as [Hl|Hl]; [by apply crypt_hmac_ok|].
  unfold crypt_hmac_sha256. by rewrite (ltb_f (Zlen text) 512 Hl).
Qed.

(** What is encrypted is decrypted with the same key, memory permitting. *)
Lemma crypt_decrypt_encrypt ckey p c : crypt_encrypt ckey p = Some c -> util_memlock (16 + Zlen c) = true ->
  crypt_decrypt ckey c = Ok (Some p).
Proof.
  intros E Hm. unfold crypt_decrypt, secure_alloc. rewrite Hm. by rewrite (EVP_Decrypt_Encrypt _ _ _ _ E).
Qed.

(** The same salt, passphrase and count give the same key. *)
Lemma crypt_set_key_again determined pass ckey ckey' count :
  crypt_set_key_from_passphrase determined pass ckey 0 = (true, ckey', count) -> count <> 0 -> sint32 count = count ->
  forall determined' other, ck_salt other = ck_salt ckey ->
    crypt_set_key_from_passphrase determined' pass other count = (true, ckey', count).
Proof.
  unfold crypt_set_key_from_passphrase. intros E Hc Hs determined' other Eo.
  change (0 =? 0) with true in E. cbv iota beta in E. cbn [andb] in E.
  destruct (sint32 determined <? 0); [done|].
  destruct (EVP_BytesToKey (ck_salt ckey) pass (sint32 determined)) as [[len key] iv] eqn:Ek.
  destruct (len =? 32) eqn:El; cbn [negb] in E; [|done]. injection E as <- <-.
  rewrite (eqb_f (sint32 determined)) by done. cbn [andb]. rewrite Hs, Eo, Ek, El. done.
Qed.
End crypt.

(** Encryption by padding alone, for the witnesses. *)
Definition toy_pad (p : list byte) : list byte :=
  let n := Z.to_nat (16 - Zlen p mod 16) in p ++ replicate n (Z_byte (Z.of_nat n)).
Definition toy_unpad (c : list byte) : option (list byte) :=
  match last c with Some n => Some (take (length c - Z.to_nat (byte_Z n)) c) | None => None end.
Definition toy_cipher : EvpCipher.
Proof.
  refine {| EVP_BytesToKey := fun salt pass count => (32, take 32 (pass ++ salt ++ le_bytes 32 count), salt);
    EVP_Encrypt := fun _ _ p => Some (toy_pad p); EVP_Decrypt := fun _ _ c => toy_unpad c; util_memlock := fun _ => true |}.
  - intros _ _ p c [= <-]. unfold toy_pad, toy_unpad. pose proof (Z.mod_pos_bound (Zlen p) 16 ltac:(lia)).
    set (n := Z.to_nat (16 - Zlen p mod 16)). assert (Hn : (0 < n <= 16)%nat) by lia.
    set (d := Z_byte (Z.of_nat n)). assert (E : last (p ++ replicate n d) = Some d).
    { replace n with (n - 1 + 1)%nat by lia. rewrite replicate_add, app_assoc. apply last_snoc. }
    rewrite E. assert (Ed : byte_Z d = Z.of_nat n) by (unfold d; rewrite byte_Z_byte, Z.mod_small by lia; done). rewrite Ed, Nat2Z.id. f_equal.
    rewrite length_app, length_replicate, Nat.add_sub. apply take_app_length.
  - intros _ _ p c [= <-]. unfold toy_pad. rewrite Zlen_app, Zlen_replicate.
    pose proof (Z.div_mod (Zlen p) 16). pose proof (Z.mod_pos_bound (Zlen p) 16). lia.
Defined.
