(* ===== verification/WalletKeys.v ===== *)
(** * The wallet's keys (core/wallet.c)

    The keys of the wallet behind a hash table, their addresses, the scripts the
    compact filters are matched against, and the file the keys are kept in, in
    clear or encrypted. The rest of the wallet, on top of the transaction
    database, is Wallet.v. The objects a table points to are not changed once
    they are in it: the table holds them by value. *)
From Stdlib Require Import Strings.String.
From S2P Require Export Config Hashtable Key Crypt.

Inductive wallet_state : Set := WALLET_UNKNOWN | WALLET_PLAIN | WALLET_ENCRYPTED_LOCKED | WALLET_ENCRYPTED_UNLOCKED.
#[export] Instance wallet_state_eq_dec : EqDecision wallet_state.
Proof. solve_decision. Defined.

Section wallet.
Context `{Secp256k1} `{S256 : Sha256} `{EvpCipher} `{BigNum}.

(** [pub] and [pubLen] are never set. *)
Record wallet_key : Type := WalletKey {
  wk_key : option key; wk_birth : Z; wk_desc : option (list byte); wk_btc_addr : option (list byte);
  wk_pub_key : uint160; wk_cfg_idx : Z; wk_spendable : bool }.

Context `{TK : Table wallet_key} {DB : Type}.

(** [DB] is the transaction database. The cache of filter scripts is a list of
    scripts and a flag. *)
Record wallet : Type := Wallet {
  wl_filename : list byte; wl_txdb : option DB; wl_hash_keys : table; wl_balance : Z;
  wl_pass : option (list byte); wl_ckey : crypt_key;
  wl_filterScripts : list (list byte); wl_filterScriptsValid : bool }.

Definition with_keys (t : table) (w : wallet) : wallet :=
  Wallet (wl_filename w) (wl_txdb w) t (wl_balance w) (wl_pass w) (wl_ckey w) (wl_filterScripts w) (wl_filterScriptsValid w).
Definition with_ckey (k : crypt_key) (w : wallet) : wallet :=
  Wallet (wl_filename w) (wl_txdb w) (wl_hash_keys w) (wl_balance w) (wl_pass w) k (wl_filterScripts w) (wl_filterScriptsValid w).
Definition with_pass (p : option (list byte)) (w : wallet) : wallet :=
  Wallet (wl_filename w) (wl_txdb w) (wl_hash_keys w) (wl_balance w) p (wl_ckey w) (wl_filterScripts w) (wl_filterScriptsValid w).
Definition with_scripts (l : list (list byte)) (valid : bool) (w : wallet) : wallet :=
  Wallet (wl_filename w) (wl_txdb w) (wl_hash_keys w) (wl_balance w) (wl_pass w) (wl_ckey w) l valid.
Definition with_txdb (x : option DB) (w : wallet) : wallet :=
  Wallet (wl_filename w) x (wl_hash_keys w) (wl_balance w) (wl_pass w) (wl_ckey w) (wl_filterScripts w) (wl_filterScriptsValid w).
Definition with_balance (z : Z) (w : wallet) : wallet :=
  Wallet (wl_filename w) (wl_txdb w) (wl_hash_keys w) z (wl_pass w) (wl_ckey w) (wl_filterScripts w) (wl_filterScriptsValid w).

(** ** Filter scripts *)

Definition wallet_invalidate_filter_scripts (w : wallet) : wallet := with_scripts [] false w.

(** OP_DUP OP_HASH160 <20 bytes> OP_EQUALVERIFY OP_CHECKSIG *)
Definition wallet_get_filter_scripts_cb (_ : list byte) (wkey : wallet_key) (ctx : list (list byte)) : res (list (list byte)) :=
  data ← mem_load (wk_pub_key wkey) 0 20;
  Ok (ctx ++ [[x76; xa9; x14] ++ data ++ [x88; xac]]).

(** The scripts, whose lengths are all 25, and the wallet. *)
Definition wallet_get_filter_scripts (w : wallet) : res (list (list byte) * wallet) :=
  w ← (if wl_filterScriptsValid w then Ok w else
       scripts ← t_for_each (wl_hash_keys w) wallet_get_filter_scripts_cb [];
       Ok (with_scripts scripts true w));
  Ok (wl_filterScripts w, w).

(** ** Keys *)

(** [type0] is what an uninitialised variable of base58.c holds. *)
Variable type0 : Z.

(** The encrypted bytes when the code matches. Copying the last 64 characters to
    the front overlaps them in a string below 128. *)
Definition wallet_verify_hmac (w : wallet) (privStr : list byte) : res (option (list byte)) :=
  let len := length privStr in
  if decide (len < 65)%nat then Ok None else
  if decide (len < 128)%nat then Fault UB else
  let macStr := drop (len - 64) privStr in
  _ ← ASSERT (bool_decide (privStr !! (len - 65)%nat = Some x2d));
  let keyStr := take (len - 65) privStr in
  '(hash, hash_len) ← str_to_bytes (Some macStr);
  '(key, key_len) ← str_to_bytes (Some keyStr);
  _ ← ASSERT (hash_len =? 32);
  key ← ptr_load key key_len;
  hash ← ptr_load hash 32;
  match wl_pass w with
  | None => Fault UB
  | Some pass =>
      mac ← crypt_hmac_sha256 key pass;
      Ok (if bool_decide (mac = hash) then Some key else None)
  end.

(** A private key in clear. *)
Definition plain_source (s : list byte) : res (option (option (list byte * Z) * uint160)) :=
  b ← b58_privkey_to_bytes type0 s;
  match b with
  | None => Fault Panic
  | Some (None, _) => Ok (Some (None, replicate 20 x00))
  | Some (Some m, len) => Ok (Some (Some (m, len), replicate 20 x00))
  end.

(** The private key's block and length, none when only the public key can be
    read, and then the hash of that one; [None]: the return 0. *)
Definition alloc_source (state : wallet_state) (w : wallet) (priv : list byte) (pub : option (list byte)) :
    res (option (option (list byte * Z) * uint160)) :=
  if bool_decide (state = WALLET_ENCRYPTED_LOCKED) then
    match wl_pass w with
    | Some _ =>
        enc ← wallet_verify_hmac w priv;
        match enc with
        | None => Ok None
        | Some enc =>
            sec ← crypt_decrypt (wl_ckey w) enc;
            match sec with None => Fault Panic | Some buf => plain_source (cstr buf) end
        end
    | None =>
        '(pkey, plen) ← str_to_bytes pub;
        bytes ← ptr_load pkey plen;
        h ← hash160_calc bytes;
        Ok (Some (None, h))
    end
  else plain_source priv.

(** The result of key_set_privkey is not looked at. *)
Definition wallet_alloc_key (state : wallet_state) (w : wallet) (priv pub desc : option (list byte)) (birth : Z)
    (spendable : bool) : res (bool * wallet) :=
  priv ← match priv with Some s => Ok s | None => Fault Panic end;
  src ← alloc_source state w priv pub;
  match src with
  | None => Ok (false, w)
  | Some (buf, pub_key) =>
      '(k, pub_key) ← match buf with
                      | None => Ok (None, pub_key)
                      | Some (buf, len) =>
                          '(_, k) ← key_set_privkey key_alloc buf len;
                          h ← key_get_pubkey_hash160 k;
                          Ok (Some k, h)
                      end;
      _ ← ASSERT (negb (uint160_iszero (Some pub_key)));
      addr ← b58_pubkey_from_uint160 pub_key;
      let wkey := WalletKey k birth desc addr pub_key (t_getnumentries (wl_hash_keys w)) spendable in
      '(s, t) ← t_insert (wl_hash_keys w) pub_key wkey;
      _ ← ASSERT s;
      Ok (true, wallet_invalidate_filter_scripts (with_keys t w))
  end.

Definition wallet_lookup_pubkey (w : wallet) (pub_key : uint160) : res (option key) :=
  o ← t_lookup (wl_hash_keys w) pub_key;
  match o with
  | None => Ok None
  | Some wkey => match wk_key wkey with Some k => Ok (Some k) | None => Fault Panic end
  end.

Definition wallet_is_pubkey_spendable (w : wallet) (pub_key : uint160) : res bool :=
  o ← t_lookup (wl_hash_keys w) pub_key;
  match o with Some wkey => Ok (wk_spendable wkey) | None => Fault Panic end.

Definition wallet_is_pubkey_hash160_mine (w : wallet) (pub_key : uint160) : res bool :=
  o ← t_lookup (wl_hash_keys w) pub_key;
  Ok (bool_decide (is_Some o)).

(** [MIN] of an [uint64] and a [time_t]: as unsigned numbers. *)
Definition wallet_get_birth_cb (_ : list byte) (wkey : wallet_key) (birth : Z) : res Z :=
  Ok (if birth <? wrap64 (wk_birth wkey) then birth else wrap64 (wk_birth wkey)).
(** [now] is time(NULL). *)
Definition wallet_get_birth (now : Z) (w : wallet) : res Z :=
  birth ← t_for_each (wl_hash_keys w) wallet_get_birth_cb (wrap64 (now + 100 * 365 * 24 * 60 * 60));
  Ok (wrap64 (birth - 12 * 60 * 60)).

Definition wallet_find_key_by_idx_cb (cfg_idx : Z) (_ : list byte) (wkey : wallet_key) (found : option wallet_key) :
    res (option wallet_key) :=
  Ok (if wk_cfg_idx wkey =? cfg_idx then Some wkey else found).
Definition wallet_find_key_by_idx (w : wallet) (cfg_idx : Z) : res (option wallet_key) :=
  t_for_each (wl_hash_keys w) (wallet_find_key_by_idx_cb cfg_idx) None.

(** Without a key 0, a field of NULL is read. *)
Definition wallet_get_change_addr (w : wallet) : res (option (list byte)) :=
  wkey ← wallet_find_key_by_idx w 0;
  match wkey with Some wkey => Ok (wk_btc_addr wkey) | None => Fault UB end.

(** ** The file of the keys *)

Definition wallet_hmac_string (privkey passphrase : list byte) : res (list byte) :=
  hmac ← crypt_hmac_sha256 privkey passphrase;
  str_snprintf_bytes 128 None hmac.

Definition wallet_encrypt_string (w : wallet) (plaintext : option (list byte)) (ckey : crypt_key) : res (list byte) :=
  plaintext ← match plaintext with Some s => Ok s | None => Fault Panic end;
  match secure_alloc (Zlen plaintext + 1), wl_pass w with
  | Some _, Some pass =>
      match crypt_encrypt ckey (plaintext ++ [x00]) with
      | None => Fault Panic
      | Some cipher =>
          cipherStr ← str_snprintf_bytes 1024 None cipher;
          hmac ← wallet_hmac_string cipher pass;
          Ok (cipherStr ++ x2d :: hmac)
      end
  | _, _ => Fault UB
  end.

(** [key%u.<suffix>] *)
Definition key_name (idx : Z) (suffix : string) : list byte := str "key" ++ dec_str 10 idx ++ x2e :: str suffix.

(** [w] is [btc->wallet]. *)
Definition wallet_save_key_cb (w : wallet) (_ : list byte) (wkey : wallet_key) (wcfg : config) : res config :=
  match wk_key wkey with
  | None => Fault UB
  | Some k =>
      let privkey := default [] (key_get_privkey k) in
      privStr ← b58_bytes_to_privkey privkey;
      pubStr ← str_snprintf_bytes 256 None (key_get_pubkey k);
      wcfg ← config_setint64 wcfg (wk_birth wkey) (key_name (wk_cfg_idx wkey) "birth");
      wcfg ← config_setstring wcfg (wk_desc wkey) (key_name (wk_cfg_idx wkey) "desc");
      wcfg ← config_setstring wcfg (Some pubStr) (key_name (wk_cfg_idx wkey) "pubkey");
      wcfg ← config_setbool wcfg (wk_spendable wkey) (key_name (wk_cfg_idx wkey) "spendable");
      privStr ← match wl_pass w with
                | Some _ => enc ← wallet_encrypt_string w privStr (wl_ckey w); Ok (Some enc)
                | None => Ok privStr
                end;
      config_setstring wcfg privStr (key_name (wk_cfg_idx wkey) "privkey")
  end.

(** The salt in the configuration and the key derived again. [salt] is what
    RAND_bytes gives, [determined] what crypt_determine_count does; [None]: the
    random bytes could not be had. *)
Definition save_crypt (salt : option (list byte)) (determined : Z) (w : wallet) (cfg : config) : res (option (wallet * config)) :=
  match wl_pass w with
  | None => Ok (Some (w, cfg))
  | Some pass =>
      match salt with
      | None => Ok None
      | Some salt =>
          let ckey := CryptKey (ck_key (wl_ckey w)) (ck_iv (wl_ckey w)) salt in
          saltStr ← str_snprintf_bytes 80 None salt;
          cfg ← config_setstring cfg (Some saltStr) (str "encryption.salt");
          let '(s, ckey, count) := crypt_set_key_from_passphrase determined pass ckey 0 in
          _ ← ASSERT s;
          _ ← ASSERT (CRYPT_NUM_ITERATIONS_OLD <=? count);
          cfg ← config_setint64 cfg count (str "encryption.numIterations");
          Ok (Some (with_ckey ckey w, cfg))
      end
  end.

(** Where the process stops, the directory is the one it leaves. *)
Definition or_stop {A B : Type} (r : res A) (d : disk) (k : A -> res B * disk) : res B * disk :=
  match r with Ok a => k a | Fault f => (Fault f, d) end.

(** The file is replaced: the old one is renamed first. [true] for an error. *)
Definition save_file (filename : list byte) (cfg : config) (d : disk) : res bool * disk :=
  or_stop (file_rotate filename 1 d) d (fun '(_, d) =>
    let '(res, d) := file_create filename d in
    if res : bool then (Ok true, d) else
    let '(res, d) := file_chmod filename d in
    or_stop res d (fun res =>
      if res : bool then (Ok true, d) else
      let '(fd, d) := file_open filename d in
      or_stop (config_write cfg (Some filename) fd) d (fun '(res, _, fd) =>
        (Ok res, match fd with Some f => file_synced filename f d | None => d end)))).

(** The run of wallet_save_keys: what it gives, or where it stops, and what is on
    the disk then. [btc->wallet] is the same wallet. *)
Definition save_keys (salt : option (list byte)) (determined : Z) (w : wallet) (d : disk) : res (bool * wallet) * disk :=
  or_stop (config_setint64 config_create (sint32 (t_getnumentries (wl_hash_keys w))) (str "numKeys")) d (fun cfg =>
  or_stop (save_crypt salt determined w cfg) d (fun r =>
  match r with
  | None => (Ok (true, w), d)
  | Some (w, cfg) =>
      or_stop (t_for_each (wl_hash_keys w) (wallet_save_key_cb w) cfg) d (fun cfg =>
        let '(res, d) := save_file (wl_filename w) cfg d in
        (res ← res; Ok (res, w), d))
  end)).
Definition wallet_save_keys (salt : option (list byte)) (determined : Z) (w : wallet) (d : disk) :
    res (bool * wallet * disk) := going_on (save_keys salt determined w d).

Definition wallet_crypt_init (determined : Z) (w : wallet) (saltStr : option (list byte)) (count : Z) : res wallet :=
  match saltStr, wl_pass w with
  | Some saltStr, Some pass =>
      '(salt, len) ← str_to_bytes (Some saltStr);
      _ ← ASSERT (len =? CRYPT_SALT_LEN);
      salt ← ptr_load salt len;
      let '(s, ckey, count0) :=
        crypt_set_key_from_passphrase determined pass (CryptKey (ck_key (wl_ckey w)) (ck_iv (wl_ckey w)) salt) count in
      _ ← ASSERT s;
      _ ← ASSERT (count =? count0);
      Ok (with_ckey ckey w)
  | _, _ => Ok w
  end.

(** One round of the loop of wallet_load_keys. *)
Definition load_key (state : wallet_state) (i : Z) (w : wallet) (cfg : config) : res (bool * wallet * config) :=
  '(birth, cfg) ← config_getint64 cfg 0 (key_name i "birth");
  '(desc, cfg) ← config_getstring cfg None (key_name i "desc");
  '(priv, cfg) ← config_getstring cfg None (key_name i "privkey");
  '(pub, cfg) ← config_getstring cfg None (key_name i "pubkey");
  '(spendable, cfg) ← config_getbool cfg true (key_name i "spendable");
  '(s, w) ← wallet_alloc_key state w priv pub desc birth spendable;
  Ok (s, w, cfg).
Fixpoint load_loop (state : wallet_state) (n : nat) (i : Z) (w : wallet) (cfg : config) : res (bool * wallet * config) :=
  match n with
  | O => Ok (true, w, cfg)
  | S n =>
      '(s, w, cfg) ← load_key state i w cfg;
      if s : bool then load_loop state n (i + 1) w cfg else Ok (false, w, cfg)
  end.

(** [true] for an error, and the state of the wallet. *)
Definition wallet_load_keys (determined : Z) (w : wallet) (cfg : config) : res (bool * wallet * wallet_state) :=
  '(n, cfg) ← config_getint64 cfg 0 (str "numKeys");
  '(saltStr, cfg) ← config_getstring cfg None (str "encryption.salt");
  '(count, cfg) ← config_getint64 cfg CRYPT_NUM_ITERATIONS_OLD (str "encryption.numIterations");
  let state := match saltStr with None => WALLET_PLAIN | Some _ => WALLET_ENCRYPTED_LOCKED end in
  w ← wallet_crypt_init determined w saltStr count;
  '(s, w, _) ← load_loop state (Z.to_nat (sint32 n)) 0 w cfg;
  if negb s then Ok (true, w, state) else
  Ok (false, w, match wl_pass w, state with Some _, WALLET_ENCRYPTED_LOCKED => WALLET_ENCRYPTED_UNLOCKED | _, _ => state end).

(** A wallet without keys yet; [t] is hashtable_create(). *)
Definition new_wallet (filename : list byte) (pass : option (list byte)) (t : table) : wallet :=
  Wallet filename None t 0 pass (CryptKey (replicate 32 x00) (replicate 32 x00) (replicate 8 x00)) [] false.

(** The wallet when it can be read, and [*wallet_state]. Reading goes through a
    stream of the file's bytes that may fail at the end ([fails]). *)
Definition wallet_open_file (determined : Z) (filename : list byte) (pass : option (list byte)) (fails : bool) (d : disk) :
    res (option wallet * wallet_state * disk) :=
  t ← t_create;
  let w := new_wallet filename pass t in
  let '(there, d) := file_exists filename d in
  '(cfg, d) ← (if there : bool then
                 let '(ok, d) := dk_next d in
                 let fd := match dk_files d !! filename with
                           | Some x => if ok : bool then Some (Stream x fails) else None
                           | None => None
                           end in
                 cfg ← config_load filename fd; Ok (cfg, d)
               else Ok (Some config_create, d));
  match cfg with
  | None => Ok (None, WALLET_UNKNOWN, d)
  | Some cfg =>
      '(res, w, state) ← wallet_load_keys determined w cfg;
      Ok (if res : bool then None else Some w, state, d)
  end.

Definition wallet_verify (determined : Z) (filename : list byte) (passphrase : option (list byte)) (fails : bool) (d : disk) :
    res (bool * wallet_state * disk) :=
  '(w, state, d) ← wallet_open_file determined filename passphrase fails d;
  Ok (bool_decide (is_Some w), state, d).

(** [true] for an error, the address of the key that was made, the wallet. [now]
    is time(NULL). *)
Definition wallet_add_key (generated : option EVP_PKEY) (now : Z) (state : wallet_state) (salt : option (list byte))
    (determined : Z) (w : wallet) (desc : option (list byte)) (d : disk) :
    res (bool * option (list byte) * wallet * disk) :=
  match key_generate_new generated with
  | None => Ok (true, None, w, d)
  | Some k =>
      let privkey := default [] (key_get_privkey k) in
      privStr ← b58_bytes_to_privkey privkey;
      h ← key_get_pubkey_hash160 k;
      btc_addr ← b58_pubkey_from_uint160 h;
      '(_, w) ← wallet_alloc_key state w privStr None desc now true;
      '(res, w, d) ← wallet_save_keys salt determined w d;
      Ok (res, btc_addr, w, d)
  end.

Definition wallet_encrypt (salt : option (list byte)) (determined : Z) (w : wallet) (pass : option (list byte)) (d : disk) :
    res (bool * wallet * disk) :=
  match pass with
  | None => Fault Panic
  | Some _ => wallet_save_keys salt determined (with_pass pass w) d
  end.
End wallet.

(** ** The keys as a map

    The table stands for a map from public key hashes to keys; the indices in
    the file are 0, 1, ... in some order; the cache, when valid, is up to date. *)
Section keys.
Context `{Secp256k1} `{S256 : Sha256} `{EvpCipher} `{BigNum} `{TK : Table wallet_key} {DB : Type}.
Variable type0 : Z.
Implicit Types w : wallet (DB := DB).
Implicit Types m : gmap (list byte) wallet_key.

Definition entry_ok (h : uint160) (wkey : wallet_key) : Prop :=
  wk_pub_key wkey = h /\ length h = 20%nat /\ uint160_iszero (Some h) = false /\
  b58_pubkey_from_uint160 h = Ok (wk_btc_addr wkey) /\
  (forall k, wk_key wkey = Some k -> exists d, key_of d k /\ hash160_calc (key_get_pubkey k) = Ok h).

Definition keys_ok (t : table) m : Prop :=
  tbl_ok t m /\
  (forall h wkey, m !! h = Some wkey -> entry_ok h wkey /\ 0 <= wk_cfg_idx wkey < Z.of_nat (size m)) /\
  (forall h h' wkey wkey', m !! h = Some wkey -> m !! h' = Some wkey' -> wk_cfg_idx wkey = wk_cfg_idx wkey' -> h = h').

Definition p2pkh_script (h : uint160) : list byte := [x76; xa9; x14] ++ h ++ [x88; xac].
Definition scripts_of m : list (list byte) := p2pkh_script <$> (map_to_list m).*1.

Definition wallet_ok w m : Prop :=
  keys_ok (wl_hash_keys w) m /\ (wl_filterScriptsValid w = true -> wl_filterScripts w ≡ₚ scripts_of m).

Lemma keys_ok_empty t : tbl_ok t ∅ -> keys_ok t ∅.
Proof. intros Ht. split; [done|]. split; intros *; by rewrite lookup_empty. Qed.

Lemma be_Z_zero h : be_Z h = 0 -> h = replicate (length h) x00.
Proof. intros E. rewrite <- (be_bytes_be_Z h) at 1. rewrite E. unfold be_bytes. induction (length h) as [|n IH]; [done|].
  cbn [replicate]. rewrite <- IH. change (le_bytes (S n) 0) with (x00 :: le_bytes n 0). cbn [rev].
  clear IH E. induction n as [|n IH]; [done|]. change (le_bytes (S n) 0) with (x00 :: le_bytes n 0). cbn [rev].
  rewrite IH at 1. done.
Qed.

(** Every hash but 0 has an address. *)
Lemma address_of h : length h = 20%nat -> uint160_iszero (Some h) = false -> exists s, b58_pubkey_from_uint160 h = Ok (Some s).
Proof.
  intros Hl Hz. destruct (base58_check_roundtrip PUBKEY_ADDRESS h) as (s & E & _); [done|unfold Zlen; rewrite Hl; done| |by exists s].
  right. intros E%be_Z_zero. rewrite Hl in E. by rewrite E in Hz.
Qed.

(** A new key takes the next index. *)
Lemma keys_ok_insert t m h wkey : keys_ok t m -> m !! h = None -> Z.of_nat (size m) < 2 ^ 32 - 1 ->
  entry_ok h wkey -> wk_cfg_idx wkey = Z.of_nat (size m) ->
  exists t', t_insert t h wkey = Ok (true, t') /\ keys_ok t' (<[h := wkey]> m).
Proof.
  intros (Ht & He & Hi) Hn Hs Hw Hx. destruct (t_insert_ok t m h wkey Ht Hs) as (t' & E & Ht').
  rewrite bool_decide_eq_true_2 in E, Ht' by done. exists t'. split; [done|]. split; [done|].
  rewrite map_size_insert_None by done. split.
  - intros h' k [[<- <-]|[Hne E']]%lookup_insert_Some; [split; [done|lia]|]. destruct (He _ _ E'). split; [done|lia].
  - intros h1 h2 k1 k2 [[<- <-]|[N1 E1]]%lookup_insert_Some [[<- <-]|[N2 E2]]%lookup_insert_Some; [done| | |by apply Hi].
    + destruct (He _ _ E2) as [_ ?]. lia.
    + destruct (He _ _ E1) as [_ ?]. lia.
Qed.

(** wallet_alloc_key on a private key that can be read. *)
Lemma alloc_key_ok state w m priv pub desc birth spendable buf len z k d h :
  keys_ok (wl_hash_keys w) m -> Z.of_nat (size m) < 2 ^ 32 - 1 ->
  alloc_source type0 state w priv pub = Ok (Some (Some (buf, len), z)) ->
  key_set_privkey key_alloc buf len = Ok (true, k) -> key_of d k -> hash160_calc (key_get_pubkey k) = Ok h ->
  uint160_iszero (Some h) = false -> m !! h = None ->
  exists t' addr, let wkey := WalletKey (Some k) birth desc addr h (Z.of_nat (size m)) spendable in
    wallet_alloc_key type0 state w (Some priv) pub desc birth spendable =
      Ok (true, wallet_invalidate_filter_scripts (with_keys t' w)) /\
    keys_ok t' (<[h := wkey]> m) /\ b58_pubkey_from_uint160 h = Ok addr.
Proof.
  intros Hk Hs Ea Ek Hd Eh Hz Hn. destruct (key_hash_of d k Hd) as (h' & Eg & Hl & Eh').
  assert (h' = h) as -> by congruence. destruct (address_of h Hl Hz) as [s Es].
  set (wkey := WalletKey (Some k) birth desc (Some s) h (Z.of_nat (size m)) spendable).
  destruct (keys_ok_insert (wl_hash_keys w) m h wkey Hk Hn Hs) as (t' & Et & Ht').
  { split_and!; [done..|]. intros k' [= <-]. by exists d. }
  { done. }
  exists t', (Some s). cbv zeta. split_and!; [|done..]. unfold wallet_alloc_key. rewrite bind_ok, Ea, bind_ok, Ek, bind_ok, Eg, !bind_ok, Hz.
  cbn [negb ASSERT]. rewrite bind_ok, Es, bind_ok. cbv zeta. rewrite (t_getnumentries_ok _ _ (proj1 Hk)).
  fold wkey. rewrite Et, bind_ok. done.
Qed.

(** A key that is there already stops the process. *)
Lemma alloc_key_twice state w m priv pub desc birth spendable buf len z k d h :
  keys_ok (wl_hash_keys w) m -> Z.of_nat (size m) < 2 ^ 32 - 1 ->
  alloc_source type0 state w priv pub = Ok (Some (Some (buf, len), z)) ->
  key_set_privkey key_alloc buf len = Ok (true, k) -> key_of d k -> hash160_calc (key_get_pubkey k) = Ok h ->
  is_Some (m !! h) -> wallet_alloc_key type0 state w (Some priv) pub desc birth spendable = Fault Panic.
Proof.
  intros Hk Hs Ea Ek Hd Eh [wk Hm]. destruct (key_hash_of d k Hd) as (h' & Eg & Hl & Eh').
  assert (h' = h) as -> by congruence. destruct Hk as (Ht & He & _). destruct (He _ _ Hm) as ((_ & _ & Hz & Es & _) & _).
  unfold wallet_alloc_key. rewrite bind_ok, Ea, bind_ok, Ek, bind_ok, Eg, !bind_ok, Hz.
  cbn [negb ASSERT]. rewrite bind_ok, Es, bind_ok. cbv zeta.
  match goal with |- context [t_insert _ h ?wkey] => destruct (t_insert_ok (wl_hash_keys w) m h wkey Ht Hs) as (t' & E & _) end.
  rewrite E, bind_ok, bool_decide_eq_false_2 by (by rewrite Hm). done.
Qed.

(** ** Filter scripts *)

Lemma filter_scripts_fold l ctx : Forall (fun e : list byte * wallet_key => wk_pub_key e.2 = e.1 /\ length e.1 = 20%nat) l ->
  fold_entries wallet_get_filter_scripts_cb l ctx = Ok (ctx ++ (p2pkh_script <$> l.*1)).
Proof.
  intros HF. revert ctx. induction HF as [|[h wkey] l [E Hl] _ IH]; intros ctx; cbn [fold_entries]; [by rewrite app_nil_r|].
  cbn [fst snd] in *. assert (Ec : wallet_get_filter_scripts_cb h wkey ctx = Ok (ctx ++ [p2pkh_script h])).
  { unfold wallet_get_filter_scripts_cb. rewrite E. pose proof (mem_load_app [] h []) as Em. cbn [app] in Em.
    rewrite app_nil_r in Em. unfold Zlen in Em. rewrite Hl in Em.
    change (Z.of_nat (length [])) with 0 in Em. change (Z.of_nat 20) with 20 in Em. by rewrite Em. }
  rewrite Ec, bind_ok, IH, <- app_assoc. done.
Qed.

Lemma filter_scripts_ok w m : wallet_ok w m ->
  exists l w', wallet_get_filter_scripts w = Ok (l, w') /\ l ≡ₚ scripts_of m /\ wallet_ok w' m /\
    wl_hash_keys w' = wl_hash_keys w /\ wl_filterScriptsValid w' = true /\ wl_filterScripts w' = l.
Proof.
  intros [Hk Hc]. unfold wallet_get_filter_scripts. destruct (wl_filterScriptsValid w) eqn:Ev.
  { rewrite bind_ok. exists (wl_filterScripts w), w. split_and!; [done|by apply Hc|split; [done|intros _; by apply Hc]|done..]. }
  destruct Hk as (Ht & He & Hi). pose proof (t_entries_ok _ _ Ht) as Hp. unfold t_for_each.
  rewrite filter_scripts_fold, !bind_ok.
  2: { rewrite Hp. apply Forall_forall. intros [h wkey] Hin%elem_of_map_to_list. destruct (He _ _ Hin) as ((? & ? & _) & _). done. }
  cbn [app]. eexists _, _. split; [done|]. assert (Hl : (p2pkh_script <$> (t_entries (wl_hash_keys w)).*1) ≡ₚ scripts_of m).
  { unfold scripts_of. by rewrite Hp. }
  split_and!; [done| |done..]. split; [by split_and!|]. done.
Qed.

(** ** Looking keys up *)

Lemma keys_lookup w m h : keys_ok (wl_hash_keys w) m -> t_lookup (wl_hash_keys w) h = Ok (m !! h).
Proof. intros (Ht & _). by apply t_lookup_ok. Qed.

Lemma mine_ok w m h : keys_ok (wl_hash_keys w) m -> wallet_is_pubkey_hash160_mine w h = Ok (bool_decide (is_Some (m !! h))).
Proof. intros Hk. unfold wallet_is_pubkey_hash160_mine. by rewrite (keys_lookup _ _ _ Hk). Qed.

Lemma find_idx_fold i l o : fold_entries (wallet_find_key_by_idx_cb i) l o =
  Ok (default o (Some <$> last (filter (fun x : wallet_key => wk_cfg_idx x = i) l.*2))).
Proof.
  revert o. induction l as [|[h x] l IH]; intros o; [done|]. cbn [fold_entries fmap list_fmap snd].
  assert (Ec : wallet_find_key_by_idx_cb i h x o = Ok (if wk_cfg_idx x =? i then Some x else o)) by done.
  rewrite Ec, bind_ok, IH, filter_cons.
  destruct (Z.eqb_spec (wk_cfg_idx x) i) as [E|E].
  - rewrite decide_True, last_cons by done. by destruct (last _).
  - by rewrite decide_False.
Qed.

(** The key of index [i], which there is for every index below the number of keys. *)
Lemma find_idx_ok w m h wkey : keys_ok (wl_hash_keys w) m -> m !! h = Some wkey ->
  wallet_find_key_by_idx w (wk_cfg_idx wkey) = Ok (Some wkey).
Proof.
  intros (Ht & He & Hi) Hm. unfold wallet_find_key_by_idx, t_for_each. rewrite find_idx_fold.
  pose proof (t_entries_ok _ _ Ht) as Hp. set (l := t_entries (wl_hash_keys w)) in *.
  assert (Hin : wkey ∈ filter (fun x : wallet_key => wk_cfg_idx x = wk_cfg_idx wkey) l.*2).
  { apply list_elem_of_filter. split; [done|]. apply list_elem_of_fmap. exists (h, wkey). split; [done|].
    rewrite Hp. by apply elem_of_map_to_list. }
  assert (Hall : forall x, x ∈ filter (fun x : wallet_key => wk_cfg_idx x = wk_cfg_idx wkey) l.*2 -> x = wkey).
  { intros x [Ex Hx]%list_elem_of_filter. apply list_elem_of_fmap in Hx as ([h' x'] & -> & Hx').
    rewrite Hp in Hx'. apply elem_of_map_to_list in Hx'. cbn in Ex. pose proof (Hi _ _ _ _ Hx' Hm Ex) as ->. cbn. congruence. }
  destruct (last _) as [x|] eqn:El.
  - cbn. f_equal. f_equal. apply Hall. apply last_Some in El as [r ->]. apply elem_of_app. right. left.
  - apply last_None in El. rewrite El in Hin. by apply not_elem_of_nil in Hin.
Qed.
End keys.
