(* ===== verification/WalletFile.v ===== *)
(** * The wallet file (core/wallet.c on top of lib/config)

    The entries of a key in the file, in clear or encrypted: what is written for
    it, and that it is read back. The whole file is WalletReload.v. *)
From Stdlib Require Import Strings.String.
From S2P Require Export ConfigMap WalletKeys.

(** ** Names of the entries *)

Definition key_suffixes : list string := ["birth"; "desc"; "pubkey"; "spendable"; "privkey"]%string.

(** One goal for each member of a list. *)
Ltac members Hs := repeat (apply elem_of_cons in Hs; destruct Hs as [->|Hs]); [..|by apply not_elem_of_nil in Hs].

Lemma tolower_id c : byte_Z c < 65 \/ 90 < byte_Z c -> tolower c = c.
Proof.
  intros Hc. unfold tolower. destruct (Z.leb_spec 65 (byte_Z c)), (Z.leb_spec (byte_Z c) 90); try done; lia.
Qed.
Lemma digits_fold s : Forall (fun c => is_digit c = true) s -> fold_case s = s.
Proof.
  unfold fold_case. induction 1 as [|c s Hc _ IH]; [done|]. cbn [map]. rewrite IH, tolower_id; [done|].
  unfold is_digit in Hc. zbool. lia.
Qed.

Lemma idx_digits i : 0 <= i < 2 ^ 32 ->
  Forall (fun c => is_digit c = true) (dec_str 10 i) /\ (length (dec_str 10 i) <= 10)%nat /\ digits_val 0 (dec_str 10 i) = i.
Proof. intros Hi. apply (dec_str_spec 10 i 10); lia. Qed.

Lemma suffix_plain s : s ∈ key_suffixes -> fold_case (str s) = str s /\ (length (str s) <= 9)%nat.
Proof. intros Hs. members Hs; (split; [done|cbn; lia]). Qed.

Lemma key_name_plain i s : 0 <= i < 2 ^ 32 -> s ∈ key_suffixes -> plain_name (key_name i s).
Proof.
  intros Hi Hs. destruct (idx_digits i Hi) as (HF & Hl & _). destruct (suffix_plain s Hs) as [Ef Hls].
  unfold plain_name, key_name. split.
  - unfold fold_case in *. rewrite !map_app. cbn [map]. rewrite Ef. by rewrite (digits_fold _ HF : map tolower _ = _).
  - rewrite !length_app. cbn [length]. change (length (str "key")) with 3%nat. lia.
Qed.

Lemma digit_dot s t s' t' : Forall (fun c => is_digit c = true) s -> Forall (fun c => is_digit c = true) s' ->
  s ++ x2e :: t = s' ++ x2e :: t' -> s = s' /\ t = t'.
Proof.
  intros HF. revert s'. induction HF as [|c s Hc _ IH]; intros [|c' s']; cbn [app]; intros HF' E.
  - by injection E as ->.
  - injection E as <- _. inversion_clear HF' as [|? ? Hd _]. done.
  - injection E as -> _. done.
  - injection E as <- E. inversion_clear HF' as [|? ? _ HF'']. destruct (IH s' HF'' E) as [-> ->]. done.
Qed.

Lemma key_name_inj i j s t : 0 <= i < 2 ^ 32 -> 0 <= j < 2 ^ 32 -> s ∈ key_suffixes -> t ∈ key_suffixes ->
  key_name i s = key_name j t -> i = j /\ s = t.
Proof.
  intros Hi Hj Hs Ht E. unfold key_name in E. apply app_inv_head in E.
  destruct (idx_digits i Hi) as (HF & _ & Ei), (idx_digits j Hj) as (HF' & _ & Ej).
  destruct (digit_dot _ _ _ _ HF HF' E) as [Ed Es]. split; [congruence|].
  clear E. members Hs; members Ht; done.
Qed.

Lemma key_name_other i s k : 0 <= i < 2 ^ 32 -> head k <> Some x6b -> key_name i s <> k.
Proof. intros Hi Hk E. subst k. by apply Hk. Qed.

(** Names and printable values are kept by the text format. *)
Lemma key_name_text i s : 0 <= i < 2 ^ 32 -> s ∈ key_suffixes -> key_text (key_name i s) /\ (length (key_name i s) <= 23)%nat.
Proof.
  intros Hi Hs. destruct (idx_digits i Hi) as (HF & Hl & _). destruct (suffix_plain s Hs) as [_ Hls].
  assert (Hc : forall c, c ∈ [x00; x0a; x3d] -> c ∉ key_name i s).
  { intros c Hc Hin. unfold key_name in Hin. apply elem_of_app in Hin as [Hin|[Hin|Hin]%elem_of_app].
    - members Hc; revert Hin; by apply notin_check.
    - rewrite Forall_forall in HF. specialize (HF c Hin). members Hc; done.
    - members Hc; members Hs; revert Hin; by apply notin_check. }
  split; [split_and!|].
  - apply Hc. left.
  - apply Hc. right; left.
  - apply Hc. right; right; left.
  - by eexists _, _.
  - unfold key_name. rewrite app_assoc, last_app. cbn [last]. by members Hs.
  - unfold key_name. rewrite !length_app. cbn [length]. change (length (str "key")) with 3%nat. lia.
Qed.

(** A text of printable characters. *)
Definition printable (v : list byte) : Prop := Forall (fun c => 32 <= byte_Z c) v /\ v <> [].
Lemma printable_text v : printable v -> val_text v.
Proof.
  intros [HF Hne]. rewrite Forall_forall in HF. split_and!; [..|done]; intros Hin%HF; by vm_compute in Hin.
Qed.
Lemma print_d64_printable z : - 2 ^ 63 <= z < 2 ^ 63 -> printable (print_d64 z) /\ (length (print_d64 z) <= 21)%nat.
Proof.
  intros Hz. unfold print_d64.
  assert (Hd : forall n, 0 <= n < 10 ^ 20 -> printable (dec_str 20 n) /\ (length (dec_str 20 n) <= 20)%nat).
  { intros n Hn. destruct (dec_str_spec 20 n 20 Hn ltac:(lia)) as (HF & Hl & _). split; [|done]. split; [|apply dec_str_ne].
    revert HF. apply List.Forall_impl. intros c Hc. unfold is_digit in Hc. zbool. lia. }
  destruct (z <? 0) eqn:Ez; zbool.
  - destruct (Hd (- z)) as [[HF Hne] Hl]; [lia|]. split; [|cbn [length]; lia]. split; [|done]. by constructor.
  - destruct (Hd z) as [Hp Hl]; [lia|]. split; [done|lia].
Qed.
Lemma hex_printable l : l <> [] -> printable (concat (map hex2 l)).
Proof.
  intros Hl. split; [|destruct l; [done|by cbn]].
  generalize (hex_chars l). apply List.Forall_impl. intros c Hc. lia.
Qed.

(** ** Saving one key *)

Lemma map_fits_insert M key v : map_fits M -> (forall s, text_of v = Some s -> kv_fits (key, s)) -> map_fits (<[key := v]> M).
Proof. intros HM Hv fk w s [[<- <-]|[_ E]]%lookup_insert_Some Es; [by apply Hv|by apply (HM _ w)]. Qed.
Lemma map_fits_empty : map_fits ∅.
Proof. intros fk v s. by rewrite lookup_empty. Qed.
Lemma name_fits i s t : 0 <= i < 2 ^ 32 -> s ∈ key_suffixes -> val_text t -> (length t <= 900)%nat -> kv_fits (key_name i s, t).
Proof.
  intros Hi Hs Ht Hl. destruct (key_name_text i s Hi Hs) as [Hk Hlk]. split_and!; [done|done|]. unfold line_fits. cbn [fst snd]. lia.
Qed.

(** ** Texts of private keys *)

Section texts.
Context `{Secp256k1} `{S256 : Sha256} `{EvpCipher} `{BigNum} {DB : Type} `{TK : Table wallet_key}.
Implicit Types w : wallet (DB := DB).

Lemma privkey_bytes_split d : 2 ^ 248 <= d < 2 ^ 256 -> privkey_bytes d = be_bytes 32 d ++ [x01] /\ Zlen (privkey_bytes d) = 33.
Proof.
  intros Hd. unfold privkey_bytes. rewrite (nbytes_32 d Hd). split; [done|].
  unfold Zlen. rewrite length_app, be_bytes_length. done.
Qed.

(** In base 58, a private key of 32 bytes. *)
Lemma privkey_text d : 2 ^ 248 <= d < 2 ^ 256 -> exists s, b58_bytes_to_privkey (privkey_bytes d) = Ok (Some s) /\
  Forall (fun c => 48 < byte_Z c) s /\ 15 <= Zlen s <= 53 /\
  forall type0, exists m, b58_privkey_to_bytes type0 s = Ok (Some (Some (privkey_bytes d ++ m), 33)).
Proof.
  intros Hd. destruct (privkey_bytes_split d Hd) as [Eb Hl].
  destruct (privkey_roundtrip (privkey_bytes d)) as (s & E & Er).
  { right. exists (be_bytes 32 d). split; [done|apply be_bytes_length]. }
  exists s. split; [done|]. unfold b58_bytes_to_privkey, base58_encode_check in E. cbn [app] in E.
  set (data := (Z_byte PRIVKEY_ADDRESS :: privkey_bytes d) ++ hash4_calc (Z_byte PRIVKEY_ADDRESS :: privkey_bytes d)) in *.
  assert (Hld : Zlen data = 38).
  { unfold data. rewrite Zlen_app, Zlen_cons, Hl. unfold Zlen. by rewrite hash4_calc_length. }
  assert (Hz : 256 ^ 33 <= be_Z data).
  { unfold data. rewrite be_Z_app, be_Z_cons, Hl. pose proof (be_Z_bound (privkey_bytes d)).
    pose proof (be_Z_bound (hash4_calc (Z_byte PRIVKEY_ADDRESS :: privkey_bytes d))) as Hh.
    assert (Zlen (hash4_calc (Z_byte PRIVKEY_ADDRESS :: privkey_bytes d)) = 4) as -> by (unfold Zlen; by rewrite hash4_calc_length).
    change (byte_Z (Z_byte PRIVKEY_ADDRESS)) with 128. lia. }
  destruct (base58_encode_text data s) as (HF & _ & Hu & Hb); [by rewrite Hld|lia|exact E|].
  rewrite Hld in Hu. change (38 * 138 / 100 + 1) with 53 in Hu. split_and!; [done| |done|].
  - destruct (Z.le_gt_cases 15 (Zlen s)) as [|Hs]; [done|]. exfalso.
    assert (58 ^ Zlen s <= 58 ^ 14) by (apply Z.pow_le_mono_r; lia).
    assert (58 ^ 14 < 256 ^ 33) by reflexivity. lia.
  - intros type0. destruct (Er type0) as [m Em]. exists m. by rewrite Em, Hl.
Qed.

(** What crypt_encrypt makes of such a text, and its hexadecimal form. *)
Lemma cipher_length ckey p c : crypt_encrypt ckey p = Some c -> 16 <= Zlen p <= 54 -> 32 <= Zlen c <= 64.
Proof.
  intros E Hp. pose proof (EVP_Encrypt_length _ _ _ _ E) as Hl.
  assert (16 / 16 <= Zlen p / 16 <= 54 / 16) by (split; apply Z.div_le_mono; lia).
  change (16 / 16) with 1 in *. change (54 / 16) with 3 in *. lia.
Qed.

(** Memory can be locked, encryption and key derivation do not fail. *)
Definition crypt_works : Prop :=
  (forall n, util_memlock n = true) /\ (forall key iv p, is_Some (EVP_Encrypt key iv p)) /\
  (forall salt pass n, (EVP_BytesToKey salt pass n).1.1 = 32).

Lemma encrypt_string_ok w s pass : crypt_works -> wl_pass w = Some pass -> 15 <= Zlen s <= 53 -> exists c,
  crypt_encrypt (wl_ckey w) (s ++ [x00]) = Some c /\ 32 <= Zlen c <= 64 /\
  wallet_encrypt_string w (Some s) (wl_ckey w) =
    Ok (concat (map hex2 c) ++ x2d :: concat (map hex2 (hmac pass c))).
Proof.
  intros (Hm & He & _) Ep Hs. destruct (He (ck_key (wl_ckey w)) (ck_iv (wl_ckey w)) (s ++ [x00])) as [c Ec].
  assert (Hc : 32 <= Zlen c <= 64) by (apply (cipher_length (wl_ckey w) (s ++ [x00])); [done|rewrite Zlen_app; change (Zlen [x00]) with 1; lia]).
  exists c. split_and!; [done|lia|lia|]. unfold wallet_encrypt_string. rewrite bind_ok. unfold secure_alloc.
  rewrite Hm, Ep. unfold crypt_encrypt at 1. rewrite Ec, str_snprintf_bytes_spec, bind_ok by lia.
  unfold wallet_hmac_string. rewrite crypt_hmac_ok, bind_ok by lia.
  rewrite str_snprintf_bytes_spec; [done|]. unfold hmac, Zlen. by rewrite sha256_length.
Qed.

(** The code of a text that was encrypted matches. *)
Lemma verify_hmac_ok w pass c : wl_pass w = Some pass -> 32 <= Zlen c <= 64 ->
  wallet_verify_hmac w (concat (map hex2 c) ++ x2d :: concat (map hex2 (hmac pass c))) = Ok (Some c).
Proof.
  intros Ep Hc. assert (Hh : length (hmac pass c) = 32%nat) by (unfold hmac; by rewrite sha256_length).
  set (mac := concat (map hex2 (hmac pass c))). assert (Hm : length mac = 64%nat) by (unfold mac; rewrite length_hex_concat; lia).
  set (t := concat (map hex2 c)). assert (Ht : (64 <= length t)%nat) by (unfold t; rewrite length_hex_concat; unfold Zlen in Hc; lia).
  unfold wallet_verify_hmac. rewrite length_app. cbn [length]. rewrite Hm.
  rewrite !decide_False by lia. replace (length t + 65 - 64)%nat with (length t + 1)%nat by lia.
  replace (length t + 65 - 65)%nat with (length t) by lia.
  rewrite list_lookup_middle, bool_decide_eq_true_2 by done. cbn [ASSERT]. rewrite bind_ok, take_app_length.
  replace (drop (length t + 1) (t ++ x2d :: mac)) with mac.
  2: { change (x2d :: mac) with ([x2d] ++ mac). rewrite app_assoc. replace (length t + 1)%nat with (length (t ++ [x2d])) by (rewrite length_app; done).
    by rewrite drop_app_length. }
  cbv zeta. unfold mac, t. rewrite !str_to_bytes_hex, !bind_ok. unfold Zlen at 2. rewrite Hh. cbn [Z.of_nat Z.eqb Pos.eqb ASSERT].
  change (Z.of_nat 32 =? 32) with true. cbn [ASSERT]. rewrite bind_ok, ptr_load_prefix, bind_ok.
  replace 32 with (Zlen (hmac pass c)) by (unfold Zlen; by rewrite Hh). rewrite ptr_load_prefix, bind_ok, Ep.
  rewrite crypt_hmac_ok, bind_ok by lia. by rewrite bool_decide_eq_true_2.
Qed.
End texts.

Section file.
Context `{Secp256k1} `{S256 : Sha256} `{EvpCipher} `{BigNum} `{TK : Table wallet_key} {DB : Type}.
Variable type0 : Z.
Implicit Types w : wallet (DB := DB).
Implicit Types M : gmap (list byte) kval.

(** The text the private key of an entry is saved as. *)
Definition priv_text w (wkey : wallet_key) (p : list byte) : Prop :=
  exists k s, wk_key wkey = Some k /\ b58_bytes_to_privkey (default [] (key_get_privkey k)) = Ok (Some s) /\
    match wl_pass w with
    | None => p = s
    | Some _ => wallet_encrypt_string w (Some s) (wl_ckey w) = Ok p
    end.

(** A key whose fields have a text. *)
Definition savable w (wkey : wallet_key) : Prop :=
  (exists p, priv_text w wkey p /\ printable p /\ (length p <= 900)%nat) /\
  (forall k, wk_key wkey = Some k -> exists d, key_of d k) /\
  - 2 ^ 63 <= wk_birth wkey < 2 ^ 63 /\ 0 <= wk_cfg_idx wkey < 2 ^ 32 /\
  match wk_desc wkey with Some s => val_text s /\ (length s <= 900)%nat | None => True end.

(** The entries of a key. *)
Definition key_saved w M (wkey : wallet_key) : Prop :=
  let name := key_name (wk_cfg_idx wkey) in
  exists p pub, priv_text w wkey p /\
    M !! name "birth"%string = Some (VInt (wk_birth wkey)) /\ M !! name "desc"%string = Some (VStr (wk_desc wkey)) /\
    M !! name "pubkey"%string = Some (VStr (Some pub)) /\ M !! name "spendable"%string = Some (VBool (wk_spendable wkey)) /\
    M !! name "privkey"%string = Some (VStr (Some p)).

Definition not_of (wkey : wallet_key) (key : list byte) : Prop :=
  forall s, s ∈ key_suffixes -> key <> key_name (wk_cfg_idx wkey) s.

Ltac member := repeat (first [left | right]); done.
Ltac suffix := apply (bool_decide_unpack _); by vm_compute.
Ltac name_ne Hi := let E := fresh "E" in intros E; apply key_name_inj in E as [_ E]; [done|exact Hi|exact Hi|suffix|suffix].
Ltac name_lookup Hi := repeat first [rewrite lookup_insert_eq | rewrite lookup_insert_ne by (name_ne Hi)].

Lemma save_key_cb_ok w h wkey cfg M n : filled cfg M n -> map_fits M -> savable w wkey ->
  (forall s, s ∈ key_suffixes -> M !! key_name (wk_cfg_idx wkey) s = None) ->
  exists cfg' M', wallet_save_key_cb w h wkey cfg = Ok cfg' /\ filled cfg' M' (n + 5) /\ map_fits M' /\
    key_saved w M' wkey /\ (forall key, not_of wkey key -> M' !! key = M !! key).
Proof.
  intros HM Hfit ((p & Hp & Hpp & Hpl) & Hkey & Hb & Hi & Hd) Hn. pose proof Hp as (k & s & Ek & Es & Ep).
  destruct (Hkey k Ek) as [d Hkd]. destruct (key_pub_of d k Hkd) as (pub & _ & Epub & Hpub & _).
  set (i := wk_cfg_idx wkey) in *. set (pubs := concat (map hex2 pub)).
  assert (Hs : forall x, x ∈ key_suffixes -> plain_name (key_name i x)) by (intros x Hx; by apply key_name_plain).
  assert (Epubs : str_snprintf_bytes 256 None (key_get_pubkey k) = Ok pubs).
  { rewrite Epub. apply str_snprintf_bytes_spec. lia. }
  destruct (fill_int cfg M n (key_name i "birth") (wk_birth wkey) HM) as (c1 & E1 & F1); [apply Hs; suffix|apply Hn; suffix|].
  destruct (fill_string c1 _ _ (key_name i "desc") (wk_desc wkey) F1) as (c2 & E2 & F2); [apply Hs; suffix| |].
  { name_lookup Hi. apply Hn; suffix. }
  destruct (fill_string c2 _ _ (key_name i "pubkey") (Some pubs) F2) as (c3 & E3 & F3); [apply Hs; suffix| |].
  { name_lookup Hi. apply Hn; suffix. }
  destruct (fill_bool c3 _ _ (key_name i "spendable") (wk_spendable wkey) F3) as (c4 & E4 & F4); [apply Hs; suffix| |].
  { name_lookup Hi. apply Hn; suffix. }
  destruct (fill_string c4 _ _ (key_name i "privkey") (Some p) F4) as (c5 & E5 & F5); [apply Hs; suffix| |].
  { name_lookup Hi. apply Hn; suffix. }
  exists c5. eexists. split; [|split; [replace (n + 5) with (n + 1 + 1 + 1 + 1 + 1) by lia; exact F5|split_and!]].
  - unfold wallet_save_key_cb. rewrite Ek. cbv zeta. rewrite Es, bind_ok, Epubs, bind_ok. fold i.
    rewrite E1, bind_ok, E2, bind_ok, E3, bind_ok, E4, bind_ok.
    destruct (wl_pass w); [rewrite Ep, bind_ok|subst s]; by rewrite bind_ok.
  - assert (Hlp : (length pubs <= 900)%nat) by (unfold pubs; rewrite length_hex_concat; unfold Zlen in Hpub; lia).
    assert (Hne : pub <> []) by (intros ->; done).
    destruct (print_d64_printable (wk_birth wkey) Hb) as [Hbp Hbl].
    assert (Hfits : forall x v, x ∈ key_suffixes -> val_text v /\ (length v <= 900)%nat -> kv_fits (key_name i x, v)).
    { intros x v Hx [Hv Hl]. by apply name_fits. }
    repeat apply map_fits_insert; [done|..]; intros x Ex; cbn [text_of] in Ex.
    + injection Ex as <-. apply Hfits; [suffix|]. split; [by apply printable_text|lia].
    + rewrite Ex in Hd. apply Hfits; [suffix|done].
    + injection Ex as <-. apply Hfits; [suffix|]. split; [by apply printable_text, hex_printable|done].
    + injection Ex as <-. apply Hfits; [suffix|]. destruct (wk_spendable wkey); (split; [|cbn; lia]);
        (split_and!; [by apply notin_check|by apply notin_check|done]).
    + injection Ex as <-. apply Hfits; [suffix|]. split; [by apply printable_text|done].
  - unfold key_saved. cbv zeta. fold i. exists p, pubs. split_and!; [done|by name_lookup Hi..].
  - intros key Hkk. rewrite !lookup_insert_ne; [done|..]; intros E; (eapply Hkk; [|exact (eq_sym E)]); suffix.
Qed.

(** ** Saving all of them *)

Lemma key_saved_frame w M M' wkey : (forall s, s ∈ key_suffixes -> M' !! key_name (wk_cfg_idx wkey) s = M !! key_name (wk_cfg_idx wkey) s) ->
  key_saved w M wkey -> key_saved w M' wkey.
Proof.
  intros HM (p & pub & Hp & H1' & H2' & H3' & H4' & H5'). exists p, pub. cbv zeta.
  split_and!; [done|rewrite HM; [done|suffix]..].
Qed.

Lemma save_keys_fold w l : forall cfg M n, filled cfg M n -> map_fits M ->
  Forall (fun e : list byte * wallet_key => savable w e.2) l -> NoDup (wk_cfg_idx <$> l.*2) ->
  (forall e s, e ∈ l -> s ∈ key_suffixes -> M !! key_name (wk_cfg_idx e.2) s = None) ->
  exists cfg' M', fold_entries (wallet_save_key_cb w) l cfg = Ok cfg' /\ filled cfg' M' (n + 5 * Zlen l) /\ map_fits M' /\
    (forall e, e ∈ l -> key_saved w M' e.2) /\
    (forall key, (forall e, e ∈ l -> not_of e.2 key) -> M' !! key = M !! key).
Proof.
  induction l as [|[h wkey] l IH]; intros cfg M n HM Hfit HF Hd Hn.
  { exists cfg, M. split_and!; [done|by change (5 * Zlen (@nil (list byte * wallet_key))) with 0; rewrite Z.add_0_r|done|by intros e ?%not_elem_of_nil|done]. }
  inversion_clear HF as [|? ? Hw HF']. cbn [fmap list_fmap snd] in Hd. apply NoDup_cons in Hd as [Hni Hd]. cbn [snd] in Hw.
  assert (Hi : forall e, e ∈ l -> 0 <= wk_cfg_idx e.2 < 2 ^ 32).
  { intros e He. rewrite Forall_forall in HF'. by destruct (HF' e He) as (_ & _ & _ & ? & _). }
  assert (Hne : forall e s t, e ∈ l -> s ∈ key_suffixes -> t ∈ key_suffixes -> key_name (wk_cfg_idx e.2) s <> key_name (wk_cfg_idx wkey) t).
  { intros e s t He Hs Ht E. apply key_name_inj in E as [E _]; [|by apply Hi|apply Hw|done|done].
    apply Hni. rewrite <- E. by apply list_elem_of_fmap_2, list_elem_of_fmap_2. }
  destruct (save_key_cb_ok w h wkey cfg M n HM Hfit Hw) as (c1 & M1 & E1 & F1 & Hf1 & Hk1 & Hr1).
  { intros s Hs. apply (Hn (h, wkey)); [left|done]. }
  destruct (IH c1 M1 (n + 5) F1 Hf1 HF' Hd) as (c2 & M2 & E2 & F2 & Hf2 & Hk2 & Hr2).
  { intros e s He Hs. rewrite Hr1 by (intros t Ht; by apply Hne). apply Hn; [by right|done]. }
  exists c2, M2. cbn [fold_entries]. rewrite E1, bind_ok. split_and!; [done| |done|..].
  - rewrite Zlen_cons. by replace (n + 5 * (1 + Zlen l)) with (n + 5 + 5 * Zlen l) by lia.
  - intros e [->|He]%elem_of_cons; [|by apply Hk2]. apply (key_saved_frame w M1); [|done]. intros s Hs. apply Hr2.
    intros e He t Ht E. by apply (Hne e t s).
  - intros key Hkey. rewrite Hr2, Hr1; [done|..].
    + apply (Hkey (h, wkey)). left.
    + intros e He. apply Hkey. by right.
Qed.

(** ** Reading the texts back *)

Lemma key_of_bound d k : key_of d k -> 2 ^ 248 <= d -> 2 ^ 248 <= d < 2 ^ 256.
Proof. intros [Hd _] Hl. pose proof ec_order_bound. lia. Qed.

Lemma scalar_text d k s : key_of d k -> 2 ^ 248 <= d ->
  b58_bytes_to_privkey (default [] (key_get_privkey k)) = Ok (Some s) ->
  Forall (fun c => 48 < byte_Z c) s /\ 15 <= Zlen s <= 53 /\
  exists m, b58_privkey_to_bytes type0 s = Ok (Some (Some (privkey_bytes d ++ m), 33)).
Proof.
  intros Hk Hd E. rewrite (key_get_privkey_of d k Hk) in E. cbn [default from_option id] in E.
  destruct (privkey_text d (key_of_bound d k Hk Hd)) as (s' & E' & HF & Hl & Hr).
  assert (s' = s) as -> by (rewrite E in E'; congruence). split_and!; [done|lia|lia|apply Hr].
Qed.

(** A key whose scalar takes 32 bytes, with a description of one line. *)
Definition storable (wkey : wallet_key) : Prop :=
  (exists k d, wk_key wkey = Some k /\ key_of d k /\ 2 ^ 248 <= d) /\ - 2 ^ 63 <= wk_birth wkey < 2 ^ 63 /\
  match wk_desc wkey with Some s => val_text s /\ (length s <= 900)%nat | None => True end.

Lemma text_printable s : Forall (fun c => 48 < byte_Z c) s -> 15 <= Zlen s -> printable s.
Proof. intros HF Hl. split; [|by intros ->]. revert HF. apply List.Forall_impl. intros c Hc. lia. Qed.

Lemma storable_savable w wkey : crypt_works -> storable wkey -> 0 <= wk_cfg_idx wkey < 2 ^ 32 -> savable w wkey.
Proof.
  intros Hc ((k & d & Ek & Hk & Hd) & Hb & Hdesc) Hi. split_and!; [|intros k' Ek'; exists d; congruence|lia|lia|lia|lia|done].
  destruct (privkey_text d (key_of_bound d k Hk Hd)) as (s & Es & HF & Hl & _).
  assert (Es' : b58_bytes_to_privkey (default [] (key_get_privkey k)) = Ok (Some s)) by (by rewrite (key_get_privkey_of d k Hk)).
  destruct (wl_pass w) as [pass|] eqn:Ep.
  - destruct (encrypt_string_ok w s pass Hc Ep Hl) as (c & _ & Hcl & Ee).
    exists (concat (map hex2 c) ++ x2d :: concat (map hex2 (hmac pass c))). split_and!.
    + exists k, s. rewrite Ep. done.
    + split; [|by intros [_ ?]%app_eq_nil]. apply Forall_app. split; [|constructor; [by vm_compute|]];
        generalize (hex_chars c) (hex_chars (hmac pass c)); intros X1 X2; [revert X1|revert X2]; apply List.Forall_impl; intros x Hx; lia.
    + rewrite length_app. cbn [length]. rewrite !length_hex_concat. unfold hmac. rewrite sha256_length. unfold Zlen in Hcl. lia.
  - exists s. split_and!; [exists k, s; by rewrite Ep|apply text_printable; [done|lia]|unfold Zlen in Hl; lia].
Qed.

(** The state a wallet is loaded in. *)
Definition stored_state w : wallet_state :=
  match wl_pass w with None => WALLET_PLAIN | Some _ => WALLET_ENCRYPTED_LOCKED end.

Lemma priv_source w w' wkey k d p pub : crypt_works -> wk_key wkey = Some k -> key_of d k -> 2 ^ 248 <= d ->
  priv_text w wkey p -> wl_pass w' = wl_pass w -> (wl_pass w <> None -> wl_ckey w' = wl_ckey w) ->
  exists m, alloc_source type0 (stored_state w) w' p pub = Ok (Some (Some (privkey_bytes d ++ m, 33), replicate 20 x00)).
Proof.
  intros Hc Ek Hk Hd (k' & s & Ek' & Es & Ep) Epass Eck. assert (k' = k) as -> by congruence.
  destruct (scalar_text d k s Hk Hd Es) as (HF & Hl & m & Er). exists m. unfold alloc_source, stored_state.
  assert (Eplain : plain_source type0 s = Ok (Some (Some (privkey_bytes d ++ m, 33), replicate 20 x00)))
    by (unfold plain_source; by rewrite Er, bind_ok).
  destruct (wl_pass w) as [pass|] eqn:Ew; [|subst p; by rewrite bool_decide_eq_false_2].
  rewrite bool_decide_eq_true_2, Epass by done.
  destruct (encrypt_string_ok w s pass Hc Ew Hl) as (c & Ec & Hcl & Ee). rewrite Ep in Ee. injection Ee as ->.
  rewrite (verify_hmac_ok w' pass c) by done. rewrite bind_ok, Eck by done.
  rewrite (crypt_decrypt_encrypt _ _ _ Ec) by apply Hc. rewrite bind_ok, cstr_app; [done|].
  intros Hin. rewrite Forall_forall in HF. by specialize (HF _ Hin).
Qed.

(** ** The encryption of the file *)

Definition salt_name : list byte := str "encryption.salt".
Definition count_name : list byte := str "encryption.numiterations".
Definition num_name : list byte := str "numkeys".

(** The salt and the count from which the key can be derived again. *)
Definition crypt_saved w (ckey : crypt_key) M : Prop :=
  match wl_pass w with
  | None => M !! salt_name = None /\ M !! count_name = None
  | Some pass => exists salt count, Zlen salt = 8 /\ 1337 <= count < 2 ^ 31 /\
      M !! salt_name = Some (VStr (Some (concat (map hex2 salt)))) /\ M !! count_name = Some (VInt count) /\
      forall determined other, ck_salt other = salt -> crypt_set_key_from_passphrase determined pass other count = (true, ckey, count)
  end.

Lemma sint32_bound z : - 2 ^ 31 <= sint32 z < 2 ^ 31.
Proof. unfold sint32. pose proof (Z.mod_pos_bound (z + 2 ^ 31) (2 ^ 32)). lia. Qed.

Lemma save_crypt_ok salt determined w cfg M n : crypt_works -> filled cfg M n -> map_fits M ->
  M !! salt_name = None -> M !! count_name = None ->
  (wl_pass w <> None -> exists s, salt = Some s /\ Zlen s = 8 /\ 1337 <= sint32 determined) ->
  exists ckey cfg' M', save_crypt salt determined w cfg = Ok (Some (with_ckey ckey w, cfg')) /\
    filled cfg' M' (n + 2) /\ map_fits M' /\ crypt_saved w ckey M' /\
    (forall key, key <> salt_name -> key <> count_name -> M' !! key = M !! key).
Proof.
  intros (_ & _ & Hd) HF Hfit Hs0 Hc0 Hsalt. unfold save_crypt, crypt_saved. destruct (wl_pass w) as [pass|] eqn:Ep.
  2: { exists (wl_ckey w), cfg, M. split_and!; [by destruct w| | |done..]; [|done]. destruct HF as (? & ? & ?). split_and!; [done..|lia]. }
  destruct (Hsalt ltac:(done)) as (s & -> & Hl & Hdet). cbv zeta.
  rewrite (str_snprintf_bytes_spec 80 s) by lia. rewrite bind_ok.
  destruct (fill_string cfg M n salt_name (Some (concat (map hex2 s))) HF) as (c1 & E1 & F1); [split; [done|cbn; lia]|done|].
  fold salt_name. rewrite E1, bind_ok. set (ck0 := CryptKey (ck_key (wl_ckey w)) (ck_iv (wl_ckey w)) s).
  pose proof (sint32_bound determined) as Hb.
  destruct (EVP_BytesToKey s pass (sint32 determined)) as [[l key] iv] eqn:Ek.
  assert (l = 32) as -> by (specialize (Hd s pass (sint32 determined)); by rewrite Ek in Hd).
  assert (Eset : crypt_set_key_from_passphrase determined pass ck0 0 = (true, CryptKey key iv s, sint32 determined)).
  { unfold crypt_set_key_from_passphrase. change (0 =? 0) with true. cbv iota. rewrite ltb_f by lia. cbn [andb ck_salt ck0].
    by rewrite Ek. }
  rewrite Eset. cbn [ASSERT]. rewrite bind_ok. unfold CRYPT_NUM_ITERATIONS_OLD. rewrite leb_t by lia. cbn [ASSERT]. rewrite bind_ok.
  destruct (fill_int_name c1 _ (n + 1) (str "encryption.numIterations") count_name (sint32 determined) F1) as (c2 & E2 & F2); [by vm_compute|by rewrite lookup_insert_ne|].
  rewrite E2, bind_ok. eexists _, c2, _. split; [done|].
  split; [replace (n + 2) with (n + 1 + 1) by lia; exact F2|]. split_and!.
  - assert (Hf : forall k t, head k = Some x65 -> key_text k -> (length k <= 30)%nat -> printable t -> (length t <= 30)%nat -> kv_fits (k, t)).
    { intros k t _ Hk Hlk Ht Hlt. split_and!; [done|by apply printable_text|]. unfold line_fits. cbn [fst snd]. lia. }
    assert (Hsn : key_text salt_name) by (split_and!; [by apply notin_check..|by eexists _, _|done]).
    assert (Hcn : key_text count_name) by (split_and!; [by apply notin_check..|by eexists _, _|done]).
    assert (Hne : s <> []) by by intros ->.
    assert (Hls : length salt_name = 15%nat) by reflexivity. assert (Hlc : length count_name = 24%nat) by reflexivity.
    destruct (print_d64_printable (sint32 determined)) as [Hp Hpl]; [lia|].
    repeat apply map_fits_insert; [done|..]; intros x [= <-]; apply Hf; try done; try (by apply hex_printable); try lia.
    rewrite length_hex_concat. unfold Zlen in Hl. lia.
  - exists s, (sint32 determined). rewrite lookup_insert_eq, lookup_insert_ne, lookup_insert_eq by done.
    split_and!; [done|lia..|done|done|]. intros det other Eo.
    apply (crypt_set_key_again determined pass ck0); [done|lia| |done]. by rewrite sint32_small by lia.
  - intros k Hk1 Hk2. by rewrite !lookup_insert_ne.
Qed.

(** ** Loading one key *)

(** The entries of a key as they are read from the file. *)
Definition key_raw w M (wkey : wallet_key) : Prop :=
  let name := key_name (wk_cfg_idx wkey) in let raw s := VRaw (Some s) in
  exists p pub, priv_text w wkey p /\
    M !! name "birth"%string = Some (raw (print_d64 (wk_birth wkey))) /\ M !! name "desc"%string = raw <$> wk_desc wkey /\
    M !! name "pubkey"%string = Some (raw pub) /\
    M !! name "spendable"%string = Some (raw (if wk_spendable wkey then str "TRUE" else str "FALSE")) /\
    M !! name "privkey"%string = Some (raw p).

Lemma key_saved_raw w M wkey : key_saved w M wkey -> key_raw w (reloaded M) wkey.
Proof.
  intros (p & pub & Hp & H1' & H2' & H3' & H4' & H5'). exists p, pub. unfold reloaded. cbv zeta in *. rewrite !lookup_omap, H1', H2', H3', H4', H5'.
  split_and!; [done..|by destruct (wk_spendable wkey)|done].
Qed.

Lemma key_raw_frame w M M' wkey : (forall s, s ∈ key_suffixes -> M' !! key_name (wk_cfg_idx wkey) s = M !! key_name (wk_cfg_idx wkey) s) ->
  key_raw w M wkey -> key_raw w M' wkey.
Proof.
  intros HM (p & pub & Hp & H1' & H2' & H3' & H4' & H5'). exists p, pub. cbv zeta.
  split_and!; [done|rewrite HM; [done|suffix]..].
Qed.

(** The same key, perhaps with another EVP_PKEY of the same scalar. *)
Definition same_key (wkey wkey' : wallet_key) : Prop :=
  wk_birth wkey' = wk_birth wkey /\ wk_desc wkey' = wk_desc wkey /\ wk_btc_addr wkey' = wk_btc_addr wkey /\
  wk_pub_key wkey' = wk_pub_key wkey /\ wk_cfg_idx wkey' = wk_cfg_idx wkey /\ wk_spendable wkey' = wk_spendable wkey /\
  exists k k' d, wk_key wkey = Some k /\ wk_key wkey' = Some k' /\ key_of d k /\ key_of d k'.

Lemma key_of_pub d k k' : key_of d k -> key_of d k' -> key_get_pubkey k' = key_get_pubkey k.
Proof.
  intros Hk Hk'. destruct (key_pub_of d k Hk) as (pub & _ & E1 & _ & E2), (key_pub_of d k' Hk') as (pub' & _ & E1' & _ & E2').
  congruence.
Qed.

Lemma load_key_ok w w' h wkey m' cfg M : crypt_works -> storable wkey -> entry_ok h wkey ->
  keys_ok (wl_hash_keys w') m' -> m' !! h = None -> wk_cfg_idx wkey = Z.of_nat (size m') -> Z.of_nat (size m') < 2 ^ 31 ->
  wl_pass w' = wl_pass w -> (wl_pass w <> None -> wl_ckey w' = wl_ckey w) ->
  stands_for (cf_list cfg) M -> key_raw w M wkey ->
  exists t cfg' M' wkey', load_key type0 (stored_state w) (wk_cfg_idx wkey) w' cfg =
      Ok (true, wallet_invalidate_filter_scripts (with_keys t w'), cfg') /\
    keys_ok t (<[h := wkey']> m') /\ same_key wkey wkey' /\
    stands_for (cf_list cfg') M' /\ (forall key, not_of wkey key -> M' !! key = M !! key).
Proof.
  intros Hc ((k & d & Ek & Hk & Hd) & Hb & _) (Eh & Hlh & Hz & Ea & Hkk) Ht Hn Hi Hs Ep Eck Hcfg
    (p & pub & Hp & R1 & R2 & R3 & R4 & R5).
  assert (Hib : 0 <= wk_cfg_idx wkey < 2 ^ 32) by lia.
  assert (Hpl : forall x, x ∈ key_suffixes -> plain_name (key_name (wk_cfg_idx wkey) x)) by (intros x Hx; by apply key_name_plain).
  assert (Hoth : forall (x y : string) m1 m2, elsewhere (key_name (wk_cfg_idx wkey) x) m1 m2 ->
    x ∈ key_suffixes -> y ∈ key_suffixes -> x <> y -> m2 !! key_name (wk_cfg_idx wkey) y = m1 !! key_name (wk_cfg_idx wkey) y).
  { intros x y m1 m2 He Hx Hy Hne. apply He. intros E. apply key_name_inj in E as [_ E]; [by apply Hne|done..]. }
  destruct (load_int cfg M (key_name (wk_cfg_idx wkey) "birth") 0 (wk_birth wkey) Hcfg) as (c1 & M1 & E1 & F1 & O1); [apply Hpl; suffix|done|done|].
  destruct (load_string c1 M1 (key_name (wk_cfg_idx wkey) "desc") (wk_desc wkey) F1) as (c2 & M2 & E2 & F2 & O2); [apply Hpl; suffix| |].
  { rewrite (Hoth _ _ _ _ O1) by (suffix || done). by rewrite R2. }
  destruct (load_string c2 M2 (key_name (wk_cfg_idx wkey) "privkey") (Some p) F2) as (c3 & M3 & E3 & F3 & O3); [apply Hpl; suffix| |].
  { rewrite (Hoth _ _ _ _ O2), (Hoth _ _ _ _ O1) by (suffix || done). by rewrite R5. }
  destruct (load_string c3 M3 (key_name (wk_cfg_idx wkey) "pubkey") (Some pub) F3) as (c4 & M4 & E4 & F4 & O4); [apply Hpl; suffix| |].
  { rewrite (Hoth _ _ _ _ O3), (Hoth _ _ _ _ O2),
      (Hoth _ _ _ _ O1) by (suffix || done). by rewrite R3. }
  destruct (load_bool c4 M4 (key_name (wk_cfg_idx wkey) "spendable") true (wk_spendable wkey) F4) as (c5 & M5 & E5 & F5 & O5); [apply Hpl; suffix| |].
  { rewrite (Hoth _ _ _ _ O4), (Hoth _ _ _ _ O3),
      (Hoth _ _ _ _ O2), (Hoth _ _ _ _ O1) by (suffix || done). by rewrite R4. }
  destruct (priv_source w w' wkey k d p (Some pub) Hc Ek Hk Hd Hp Ep Eck) as [mm Esrc].
  destruct (privkey_bytes_split d (key_of_bound d k Hk Hd)) as [Eb _].
  destruct (key_set_privkey_of d (be_bytes 32 d) ([x01] ++ mm) 33) as (k' & Ek' & Hk'); [apply Hk|apply be_bytes_length| |by right|].
  { apply be_Z_bytes. change (8 * Z.of_nat 32) with 256. pose proof (key_of_bound d k Hk Hd). lia. }
  assert (Hh' : hash160_calc (key_get_pubkey k') = Ok h).
  { rewrite (key_of_pub d k k' Hk Hk'). by destruct (Hkk k Ek) as (d' & _ & E). }
  destruct (alloc_key_ok type0 (stored_state w) w' m' p (Some pub) (wk_desc wkey) (wk_birth wkey) (wk_spendable wkey)
    (privkey_bytes d ++ mm) 33 (replicate 20 x00) k' d h Ht) as (t & addr & Eal & Ht' & Eaddr); [lia|done| |done..|].
  { by rewrite Eb, <- app_assoc. }
  eexists t, c5, M5, _. split; [|split; [exact Ht'|split; [|split; [exact F5|]]]].
  - unfold load_key. by rewrite E1, bind_ok, E2, bind_ok, E3, bind_ok, E4, bind_ok, E5, bind_ok, Eal, bind_ok.
  - unfold same_key. cbn. split_and!; [done..|congruence|done|done|done|by exists k, k', d].
  - intros key Hkey. assert (Hne : forall x, x ∈ key_suffixes -> key <> key_name (wk_cfg_idx wkey) x) by (intros x Hx; by apply Hkey).
    rewrite O5, O4, O3, O2, O1 by (apply Hne; suffix). done.
Qed.
End file.
