(* ===== verification/WalletReload.v ===== *)
(** * Saving and opening a wallet (core/wallet.c)

    A wallet that was saved is opened again with the same keys, in clear or
    encrypted; what stays on disk when a save fails; the keys a save does not
    keep. *)
From Stdlib Require Import Strings.String.
From S2P Require Export WalletFile.

Section reload.
Context `{Secp256k1} `{S256 : Sha256} `{EvpCipher} `{BigNum} `{TK : Table wallet_key} {DB : Type}.
Variable type0 : Z.
Implicit Types w : wallet (DB := DB).
Implicit Types M : gmap (list byte) kval.
Implicit Types m : gmap (list byte) wallet_key.

(** ** The indices *)

Lemma keys_idx_nodup t m : keys_ok t m -> NoDup (wk_cfg_idx <$> (t_entries t).*2).
Proof.
  intros (Ht & _ & Hi). rewrite (t_entries_ok _ _ Ht). rewrite <- list_fmap_compose.
  apply NoDup_fmap_2_strong; [|apply NoDup_map_to_list]. intros [h1 k1] [h2 k2] E1%elem_of_map_to_list E2%elem_of_map_to_list E.
  cbn in E. assert (h1 = h2) as <- by by apply (Hi _ _ _ _ E1 E2). congruence.
Qed.

(** Every index below the number of keys is that of a key. *)
Lemma keys_idx_onto t m i : keys_ok t m -> 0 <= i < Z.of_nat (size m) -> exists h wkey, m !! h = Some wkey /\ wk_cfg_idx wkey = i.
Proof.
  intros Hk Hb. pose proof (keys_idx_nodup t m Hk) as Hd. destruct Hk as (Ht & He & _).
  pose proof (t_entries_ok _ _ Ht) as Hp. set (l := wk_cfg_idx <$> (t_entries t).*2) in *.
  assert (Hl : length l = size m).
  { unfold l. rewrite !length_fmap, Hp. by rewrite length_map_to_list. }
  assert (Hin : i ∈ l).
  { assert (Hs : l ⊆+ seqZ 0 (Z.of_nat (size m))).
    { apply NoDup_submseteq; [done|]. intros x Hx. apply list_elem_of_fmap in Hx as (wkey & -> & Hx).
      apply list_elem_of_fmap in Hx as ([h k] & -> & Hx). rewrite Hp in Hx. apply elem_of_map_to_list in Hx.
      apply elem_of_seqZ. destruct (He _ _ Hx) as [_ ?]. cbn. lia. }
    apply submseteq_length_Permutation in Hs; [|rewrite length_seqZ; lia]. rewrite Hs. apply elem_of_seqZ. lia. }
  apply list_elem_of_fmap in Hin as (wkey & -> & Hx). apply list_elem_of_fmap in Hx as ([h k] & -> & Hx).
  rewrite Hp in Hx. apply elem_of_map_to_list in Hx. by exists h, k.
Qed.

(** ** Loading all the keys *)

Lemma same_key_refl wkey : storable wkey -> same_key wkey wkey.
Proof. intros ((k & d & Ek & Hk & _) & _). split_and!; [done..|by exists k, k, d]. Qed.

(** The keys below [i] are there, as they were. *)
Definition loaded_upto (i : Z) m m' : Prop :=
  (forall h wkey', m' !! h = Some wkey' -> exists wkey, m !! h = Some wkey /\ same_key wkey wkey' /\ wk_cfg_idx wkey < i) /\
  (forall h wkey, m !! h = Some wkey -> wk_cfg_idx wkey < i -> is_Some (m' !! h)) /\ Z.of_nat (size m') = i.

Lemma loaded_insert t i m m' h wkey wkey' : keys_ok t m -> loaded_upto i m m' -> m !! h = Some wkey -> wk_cfg_idx wkey = i ->
  same_key wkey wkey' -> m' !! h = None /\ loaded_upto (i + 1) m (<[h := wkey']> m').
Proof.
  intros (_ & _ & Hi) (Ha & Hb & Hs) Hm Ei Hsame. assert (Hn : m' !! h = None).
  { destruct (m' !! h) as [k|] eqn:E; [|done]. destruct (Ha _ _ E) as (wk & Ewk & _ & Hlt). assert (wk = wkey) by congruence. subst wk. lia. }
  split; [done|]. split_and!.
  - intros h1 k1 [[<- <-]|[Hne E]]%lookup_insert_Some; [exists wkey; split_and!; [done..|lia]|].
    destruct (Ha _ _ E) as (wk & ? & ? & ?). exists wk. split_and!; [done..|lia].
  - intros h1 k1 E Hlt. destruct (decide (h1 = h)) as [->|Hne]; [rewrite lookup_insert_eq; by eexists|].
    rewrite lookup_insert_ne by done. apply (Hb _ _ E). assert (wk_cfg_idx k1 <> i); [|lia]. intros E1. apply Hne.
    by apply (Hi _ _ _ _ E Hm); rewrite E1.
  - rewrite map_size_insert_None by done. lia.
Qed.

Definition storable_keys m : Prop := forall h wkey, m !! h = Some wkey -> storable wkey.

Lemma load_keys_loop_ok w m : crypt_works -> keys_ok (wl_hash_keys w) m -> storable_keys m -> Z.of_nat (size m) < 2 ^ 31 ->
  forall n i w' m' cfg M, Z.of_nat n + i = Z.of_nat (size m) -> 0 <= i ->
  keys_ok (wl_hash_keys w') m' -> loaded_upto i m m' ->
  wl_pass w' = wl_pass w -> (wl_pass w <> None -> wl_ckey w' = wl_ckey w) ->
  stands_for (cf_list cfg) M -> (forall h wkey, m !! h = Some wkey -> i <= wk_cfg_idx wkey -> key_raw w M wkey) ->
  wl_filterScriptsValid w' = false -> wl_filterScripts w' = [] ->
  exists t cfg' m2, load_loop type0 (stored_state w) n i w' cfg = Ok (true, with_keys t w', cfg') /\
    keys_ok t m2 /\ loaded_upto (Z.of_nat (size m)) m m2.
Proof.
  intros Hc Hk Hst Hsz. induction n as [|n IH]; intros i w' m' cfg M Hn Hi Hk' Hup Ep Eck HM Hraw Hv Hl.
  { exists (wl_hash_keys w'), cfg, m'. split_and!; [by destruct w'|done|by replace (Z.of_nat (size m)) with i by lia]. }
  destruct (keys_idx_onto _ _ i Hk) as (h & wkey & Hm & Ei); [lia|].
  pose proof Hk as (_ & He & Hinj). destruct (He _ _ Hm) as [Hent _].
  assert (Hn' : m' !! h = None) by (apply (loaded_insert _ i m m' h wkey wkey Hk Hup Hm Ei), same_key_refl; by eapply Hst).
  assert (Es : Z.of_nat (size m') = i) by apply Hup.
  destruct (load_key_ok type0 w w' h wkey m' cfg M Hc (Hst _ _ Hm) Hent Hk' Hn') as (t1 & c1 & M1 & wkey' & E1 & K1 & S1 & F1 & O1);
    [lia|lia|done|done|done|apply (Hraw _ _ Hm); lia|].
  destruct (loaded_insert _ i m m' h wkey wkey' Hk Hup Hm Ei S1) as [_ Hup'].
  destruct (IH (i + 1) (wallet_invalidate_filter_scripts (with_keys t1 w')) (<[h := wkey']> m') c1 M1) as (t2 & c2 & m2 & E2 & K2 & L2); try done; [lia|lia| |].
  { intros h2 k2 E2 Hlt. apply (key_raw_frame w M); [|apply (Hraw _ _ E2); lia]. intros s Hs. apply O1. intros s' Hs' E.
    apply key_name_inj in E as [E _]; [lia| | |done|done]; [destruct (He _ _ E2)|destruct (He _ _ Hm)]; lia. }
  exists t2, c2, m2. split_and!; [|done..]. cbn [load_loop]. rewrite Ei in E1. rewrite E1, bind_ok, E2.
  unfold wallet_invalidate_filter_scripts, with_scripts, with_keys. cbn. by rewrite Hv, Hl.
Qed.

(** ** The file is replaced *)

Lemma rotated_ne filename : (length filename < 4095)%nat -> rotated filename 0 <> filename.
Proof.
  intros Hl E%(f_equal length). unfold rotated in E. rewrite length_take, length_app in E.
  change (length (x2e :: dec_str 10 (Z.of_nat 0))) with 2%nat in E. lia.
Qed.

(** Rotating once: the older copy is removed, the file takes its name. *)
Lemma file_rotate_1 filename d : file_rotate filename 1 d =
  let '(there, d) := file_exists (rotated filename 0) d in
  if negb there then Ok (file_rename filename (rotated filename 0) d) else
  let '(res, d) := file_unlink (rotated filename 0) d in
  Ok (if res : bool then (true, d) else file_rename filename (rotated filename 0) d).
Proof.
  unfold file_rotate. change (bool_decide (0 < 1)%nat) with true. cbn [rotate_loop ASSERT]. rewrite bind_ok.
  destruct (file_exists _ d) as [there d']. destruct there; cbn [negb]; [|done]. change (bool_decide (1 = 1)%nat) with true. cbv iota.
  destruct (file_unlink _ d') as [res d2]. by destruct res.
Qed.

(** A rename that succeeds leaves the file under the other name. *)
Lemma rotate_keeps filename d d1 x : (length filename < 4095)%nat -> dk_files d !! filename = Some x ->
  file_rotate filename 1 d = Ok (false, d1) -> dk_files d1 !! rotated filename 0 = Some x.
Proof.
  intros Hl%rotated_ne Hx. rewrite file_rotate_1.
  assert (Hr : forall d', dk_files d' !! filename = Some x ->
    Ok (file_rename filename (rotated filename 0) d') = Ok (false, d1) -> dk_files d1 !! rotated filename 0 = Some x).
  { intros d' Ex. unfold file_rename, dk_next. destruct (dk_io d') as [|[| | |] l]; cbn; rewrite Ex; intros [= <-]; apply lookup_insert_eq. }
  destruct (file_exists (rotated filename 0) d) as [there d2] eqn:E2.
  assert (Ex2 : dk_files d2 !! filename = Some x).
  { unfold file_exists, dk_next in E2. destruct (dk_io d) as [|[| | |] l]; by injection E2 as _ <-. }
  destruct there; cbn [negb]; [|by apply Hr].
  destruct (file_unlink (rotated filename 0) d2) as [res d3] eqn:E3. destruct res; [done|]. apply Hr.
  unfold file_unlink, dk_next in E3. destruct (dk_io d2) as [|[| | |] l]; cbn in E3; try done; injection E3 as <-; cbn;
    by rewrite lookup_delete_ne.
Qed.

(** Rotating once does not stop. *)
Lemma rotate_runs filename d : exists r d1, file_rotate filename 1 d = Ok (r, d1).
Proof.
  rewrite file_rotate_1. destruct (file_exists _ d) as [there d2]. destruct there; cbn [negb].
  - destruct (file_unlink _ d2) as [res d3]. destruct res; [by eexists _, _|]. destruct (file_rename _ _ d3). by eexists _, _.
  - destruct (file_rename _ _ d2). by eexists _, _.
Qed.

(** What comes after the rename only changes the new file, and where it stops too. *)
Lemma save_file_other filename cfg d r d' name : name <> filename -> save_file filename cfg d = (r, d') ->
  exists r1 d1, file_rotate filename 1 d = Ok (r1, d1) /\ dk_files d' !! name = dk_files d1 !! name.
Proof.
  intros Hne E. destruct (rotate_runs filename d) as (r1 & d1 & Er). exists r1, d1. split; [done|]. unfold save_file in E. rewrite Er in E. cbn [or_stop] in E.
  destruct (file_create filename d1) as [r2 d2] eqn:E2. assert (H2 : dk_files d2 !! name = dk_files d1 !! name).
  { unfold file_create, dk_next in E2. destruct (dk_io d1) as [|[| | |] l]; cbn in E2; injection E2 as _ <-; cbn; try done;
      (destruct (dk_files d1 !! filename); [done|cbn; by rewrite lookup_insert_ne]). }
  destruct r2; [by injection E as _ <-|]. destruct (file_chmod filename d2) as [r3 d3] eqn:E3.
  assert (H3 : dk_files d3 !! name = dk_files d2 !! name).
  { unfold file_chmod, chmod_path, dk_next in E3. destruct (dk_io d2) as [|[| | |] l]; cbn in E3; by injection E3 as _ <-. }
  destruct r3 as [[]|f]; cbn [or_stop] in E; [injection E as _ <-; congruence| |injection E as _ <-; congruence].
  destruct (file_open filename d3) as [fd d4] eqn:E4.
  assert (H4 : dk_files d4 !! name = dk_files d3 !! name).
  { unfold file_open, dk_next in E4. destruct (dk_io d3) as [|[| | |] l]; cbn in E4; destruct (dk_files d3 !! filename); by injection E4 as _ <-. }
  destruct (config_write cfg (Some filename) fd) as [[[r5 c5] fd5]|f]; cbn [or_stop] in E; [|injection E as _ <-; congruence].
  injection E as _ <-. destruct fd5; cbn; [rewrite lookup_insert_ne by done|]; congruence.
Qed.

Lemma save_file_keeps filename cfg d d1 x r d' : (length filename < 4095)%nat -> dk_files d !! filename = Some x ->
  file_rotate filename 1 d = Ok (false, d1) -> save_file filename cfg d = (r, d') -> dk_files d' !! rotated filename 0 = Some x.
Proof.
  intros Hl Hx Hr Hs. destruct (save_file_other _ _ _ _ _ (rotated filename 0) (rotated_ne _ Hl) Hs) as (r1 & d2 & Hr2 & E).
  rewrite Hr in Hr2. injection Hr2 as <- <-. rewrite E. by apply (rotate_keeps _ d).
Qed.

(** Without errors, the new file has the text of the configuration. *)
Lemma save_file_ok filename cfg M F : (length filename < 4095)%nat -> filled cfg M (2 ^ 40) -> map_fits M ->
  exists text F', save_file filename cfg (Disk F []) = (Ok false, Disk F' []) /\ F' !! filename = Some text /\
    (forall x, F !! filename = Some x -> F' !! rotated filename 0 = Some x) /\
    (forall fails, exists cfg', config_load filename (Some (Stream text fails)) = Ok (Some cfg') /\
      stands_for (cf_list cfg') (reloaded M)).
Proof.
  intros Hl (HM & Hs & Hz) Hf. destruct (config_saved_map cfg M filename HM Hs Hf) as (text & Ew & El); [lia|].
  assert (Er : exists r F1, file_rotate filename 1 (Disk F []) = Ok (r, Disk F1 [])).
  { rewrite file_rotate_1. unfold file_exists, dk_next. cbn. case_bool_decide; cbn; unfold file_rename; cbn;
      destruct (_ !! filename); by eexists _, _. }
  destruct Er as (r & F1 & Er). assert (Ec : exists F2, file_create filename (Disk F1 []) = (false, Disk F2 []) /\ is_Some (F2 !! filename)).
  { unfold file_create, dk_next. cbn. destruct (F1 !! filename) eqn:E; eexists; (split; [done|]); [by rewrite E|].
    rewrite lookup_insert_eq. by eexists. }
  destruct Ec as (F2 & Ec & x2 & Hx2).
  assert (Esave : save_file filename cfg (Disk F []) = (Ok false, Disk (<[filename := text]> F2) [])).
  { assert (E1 : file_chmod filename (Disk F2 []) = (Ok false, Disk F2 [])).
    { unfold file_chmod, chmod_path, dk_next. cbn. by rewrite Hx2, bool_decide_eq_true_2. }
    assert (E2 : file_open filename (Disk F2 []) = (Some (File x2 0 []), Disk F2 [])) by (unfold file_open, dk_next; cbn; by rewrite Hx2).
    unfold save_file. rewrite Er. cbn [or_stop]. rewrite Ec, E1. cbn [or_stop]. by rewrite E2, Ew. }
  exists text, (<[filename := text]> F2). split_and!; [done|apply lookup_insert_eq| |done].
  intros x Hx. assert (r = false) as ->.
  { revert Er. rewrite file_rotate_1. unfold file_exists, file_unlink, file_rename, dk_next. cbn. pose proof (rotated_ne _ Hl).
    case_bool_decide; cbn; rewrite ?lookup_delete_ne by done; rewrite Hx; by intros [= <- _]. }
  apply (save_file_keeps filename cfg (Disk F []) (Disk F1 []) x (Ok false) _ Hl Hx Er Esave).
Qed.

(** ** Saving *)

(** What can be asked of RAND_bytes and of the timing, when there is a passphrase. *)
Definition salt_ok (salt : option (list byte)) (determined : Z) w : Prop :=
  wl_pass w <> None -> exists s, salt = Some s /\ Zlen s = 8 /\ 1337 <= sint32 determined.

(** The file of a wallet whose keys are [m]. *)
Definition file_of w (ckey : crypt_key) m (text : list byte) : Prop := exists M,
  M !! num_name = Some (VInt (Z.of_nat (size m))) /\ crypt_saved w ckey M /\
  (forall h wkey, m !! h = Some wkey -> key_saved (with_ckey ckey w) M wkey) /\
  (forall fails, exists cfg, config_load (wl_filename w) (Some (Stream text fails)) = Ok (Some cfg) /\
    stands_for (cf_list cfg) (reloaded M)).

(** The configuration that a save writes. *)
Lemma saved_config salt determined w m : crypt_works -> keys_ok (wl_hash_keys w) m -> storable_keys m ->
  Z.of_nat (size m) < 2 ^ 31 -> salt_ok salt determined w ->
  exists ckey cfg M, (forall d, save_keys salt determined w d =
      let '(res, d) := save_file (wl_filename w) cfg d in (res ← res; Ok (res, with_ckey ckey w), d)) /\
    filled cfg M (2 ^ 40) /\ map_fits M /\ M !! num_name = Some (VInt (Z.of_nat (size m))) /\ crypt_saved w ckey M /\
    (forall h wkey, m !! h = Some wkey -> key_saved (with_ckey ckey w) M wkey).
Proof.
  intros Hc Hk Hst Hsz Hsalt. pose proof Hk as (Ht & He & _).
  destruct (fill_int_name config_create ∅ 0 (str "numKeys") num_name (Z.of_nat (size m)) filled_create) as (c1 & E1 & F1); [by vm_compute|done|].
  assert (Hfit1 : map_fits (<[num_name := VInt (Z.of_nat (size m))]> ∅)).
  { apply map_fits_insert; [apply map_fits_empty|]. intros x [= <-]. destruct (print_d64_printable (Z.of_nat (size m))) as [Hp Hpl]; [lia|].
    split_and!; [split_and!; [by apply notin_check..|by eexists _, _|done]|by apply printable_text|]. unfold line_fits. cbn [fst snd].
    change (length num_name) with 7%nat. lia. }
  destruct (save_crypt_ok salt determined w c1 _ _ Hc F1 Hfit1) as (ckey & c2 & M2 & E2 & F2 & Hfit2 & Hcs & O2); [done|done|done|].
  assert (Hb : forall h wkey, m !! h = Some wkey -> 0 <= wk_cfg_idx wkey < 2 ^ 32) by (intros h wkey Hm; destruct (He _ _ Hm); lia).
  destruct (save_keys_fold (with_ckey ckey w) (t_entries (wl_hash_keys w)) c2 M2 _ F2 Hfit2) as (c3 & M3 & E3 & F3 & Hfit3 & K3 & O3).
  { rewrite (t_entries_ok _ _ Ht). apply Forall_forall. intros [h wkey] Hin%elem_of_map_to_list.
    apply storable_savable; [done|by eapply Hst|by eapply Hb]. }
  { by eapply keys_idx_nodup. }
  { intros [h wkey] s Hin Hs. rewrite (t_entries_ok _ _ Ht) in Hin. apply elem_of_map_to_list, Hb in Hin. cbn [snd].
    rewrite O2, lookup_insert_ne; [done|apply not_eq_sym|..]; by apply key_name_other. }
  assert (Hn : Zlen (t_entries (wl_hash_keys w)) = Z.of_nat (size m)).
  { unfold Zlen. by rewrite (t_entries_ok _ _ Ht), length_map_to_list. }
  assert (Hkeep : forall k, head k <> Some x6b -> M3 !! k = M2 !! k).
  { intros k Hk'. apply O3. intros [h wkey] Hin s Hs. rewrite (t_entries_ok _ _ Ht) in Hin. apply elem_of_map_to_list, Hb in Hin.
    apply not_eq_sym. by apply key_name_other. }
  exists ckey, c3, M3. split_and!; [| |done|by rewrite Hkeep, O2, lookup_insert_eq| |].
  - intros d. unfold save_keys. rewrite (t_getnumentries_ok _ _ Ht), sint32_small by lia. rewrite E1. cbn [or_stop]. rewrite E2. cbn [or_stop].
    unfold t_for_each. change (wl_hash_keys (with_ckey ckey w)) with (wl_hash_keys w). by rewrite E3.
  - destruct F3 as (? & ? & ?). split_and!; [done..|]. lia.
  - unfold crypt_saved in *. by rewrite !Hkeep.
  - intros h wkey Hm. apply (K3 (h, wkey)). rewrite (t_entries_ok _ _ Ht). by apply elem_of_map_to_list.
Qed.

Lemma save_keys_ok salt determined w m F : crypt_works -> keys_ok (wl_hash_keys w) m -> storable_keys m ->
  Z.of_nat (size m) < 2 ^ 31 -> salt_ok salt determined w -> (length (wl_filename w) < 4095)%nat ->
  exists ckey text F', wallet_save_keys salt determined w (Disk F []) = Ok (false, with_ckey ckey w, Disk F' []) /\
    F' !! wl_filename w = Some text /\ file_of w ckey m text /\
    (forall x, F !! wl_filename w = Some x -> F' !! rotated (wl_filename w) 0 = Some x).
Proof.
  intros Hc Hk Hst Hsz Hsalt Hl. destruct (saved_config salt determined w m Hc Hk Hst Hsz Hsalt) as (ckey & cfg & M & E & HF & Hfit & Hrest).
  destruct (save_file_ok (wl_filename w) cfg M F Hl HF Hfit) as (text & F' & E4 & Hx & Hold & Hload).
  exists ckey, text, F'. split_and!; [unfold wallet_save_keys; by rewrite E, E4|done| |done]. exists M. destruct Hrest as (? & ? & ?). by split_and!.
Qed.

(** ** Opening *)

(** The same keys under the same hashes. *)
Definition same_keys m m' : Prop :=
  (forall h, is_Some (m' !! h) <-> is_Some (m !! h)) /\
  (forall h wkey wkey', m !! h = Some wkey -> m' !! h = Some wkey' -> same_key wkey wkey').

Lemma loaded_all t m m' : keys_ok t m -> loaded_upto (Z.of_nat (size m)) m m' -> same_keys m m'.
Proof.
  intros (_ & He & _) (Ha & Hb & _). split.
  - intros h. split; [intros [k' E]; destruct (Ha _ _ E) as (k & ? & _); by exists k|].
    intros [k E]. destruct (He _ _ E) as [_ ?]. apply (Hb _ _ E). lia.
  - intros h k k' E E'. destruct (Ha _ _ E') as (k1 & E1 & Hs & _). by replace k with k1 by congruence.
Qed.

(** The key is derived as it was when the wallet was saved. *)
Lemma crypt_init_ok w w0 ckey M determined : crypt_saved w ckey M -> wl_pass w0 = wl_pass w ->
  exists saltStr count, reloaded M !! salt_name = (fun s => VRaw (Some s)) <$> saltStr /\
    (saltStr = None <-> wl_pass w = None) /\ - 2 ^ 63 <= count < 2 ^ 63 /\
    reloaded M !! count_name = (match saltStr with None => None | Some _ => Some (VRaw (Some (print_d64 count))) end) /\
    (saltStr = None -> count = CRYPT_NUM_ITERATIONS_OLD) /\
    exists ckey', wallet_crypt_init determined w0 saltStr count = Ok (with_ckey ckey' w0) /\ (wl_pass w <> None -> ckey' = ckey).
Proof.
  unfold crypt_saved, reloaded. intros Hs Ep. rewrite !lookup_omap. destruct (wl_pass w) as [pass|].
  - destruct Hs as (salt & count & Hl & Hc & E1 & E2 & Hset). exists (Some (concat (map hex2 salt))), count. rewrite E1, E2.
    split_and!; [done|done|lia|lia|done|done|]. exists ckey. split; [|done]. unfold wallet_crypt_init.
    rewrite Ep, str_to_bytes_hex, bind_ok, Hl. change (8 =? CRYPT_SALT_LEN) with true. cbn [ASSERT]. rewrite bind_ok, <- Hl, ptr_load_prefix, bind_ok.
    rewrite (Hset determined) by done. cbn [ASSERT]. by rewrite bind_ok, Z.eqb_refl.
  - destruct Hs as [E1 E2]. exists None, CRYPT_NUM_ITERATIONS_OLD. rewrite E1, E2. split_and!; try done.
    exists (wl_ckey w0). split; [|done]. by destruct w0.
Qed.

Lemma load_keys_ok w m ckey text determined w0 fails : crypt_works -> keys_ok (wl_hash_keys w) m -> storable_keys m ->
  Z.of_nat (size m) < 2 ^ 31 -> file_of w ckey m text ->
  wl_pass w0 = wl_pass w -> keys_ok (wl_hash_keys w0) ∅ -> wl_filterScriptsValid w0 = false -> wl_filterScripts w0 = [] ->
  exists cfg w2 m2, config_load (wl_filename w) (Some (Stream text fails)) = Ok (Some cfg) /\
    wallet_load_keys type0 determined w0 cfg =
      Ok (false, w2, match wl_pass w with None => WALLET_PLAIN | Some _ => WALLET_ENCRYPTED_UNLOCKED end) /\
    wallet_ok w2 m2 /\ same_keys m m2 /\ wl_pass w2 = wl_pass w /\ (wl_pass w <> None -> wl_ckey w2 = ckey).
Proof.
  intros Hc Hk Hst Hsz (M & En & Hcs & Hkeys & Hload) Ep Hk0 Hv Hl. destruct (Hload fails) as (cfg & El & HM).
  exists cfg. pose proof Hk as (_ & He & _).
  destruct (crypt_init_ok w w0 ckey M determined Hcs Ep) as (saltStr & count & Es & Hnone & Hcb & Ec & Hdef & ckey' & Ei & Hck).
  destruct (load_int_name cfg _ (str "numKeys") num_name 0 (Z.of_nat (size m)) HM) as (c1 & M1 & E1 & F1 & O1); [by vm_compute|lia| |].
  { unfold reloaded. by rewrite lookup_omap, En. }
  destruct (load_string c1 M1 salt_name saltStr F1) as (c2 & M2 & E2 & F2 & O2); [split; [done|cbn; lia]|by rewrite O1|].
  assert (Ecount : M2 !! count_name = reloaded M !! count_name) by (by rewrite O2, O1).
  assert (E3 : exists c3 M3, config_getint64 c2 CRYPT_NUM_ITERATIONS_OLD (str "encryption.numIterations") = Ok (count, c3) /\
    stands_for (cf_list c3) M3 /\ elsewhere count_name M2 M3).
  { destruct saltStr; [by apply load_int_name; [..|rewrite Ecount, Ec]|]. rewrite Hdef by done. apply load_int_default; [done|by vm_compute|].
    by rewrite Ecount, Ec. }
  destruct E3 as (c3 & M3 & E3 & F3 & O3).
  set (w1 := with_ckey ckey' w0). set (wsaved := with_ckey ckey w).
  destruct (load_keys_loop_ok wsaved m Hc Hk Hst Hsz (Z.to_nat (Z.of_nat (size m))) 0 w1 ∅ c3 M3) as (t & c4 & m2 & E4 & K4 & L4);
    [lia|done|done| |done| |done| |done|done|].
  { split_and!; [intros h wkey E; by rewrite lookup_empty in E| |done]. intros h wkey Hm Hlt. destruct (He _ _ Hm). lia. }
  { intros Hne. by apply Hck. }
  { intros h wkey Hm _. apply (key_raw_frame _ (reloaded M)); [|by apply key_saved_raw, (Hkeys h)].
    intros s Hs. destruct (He _ _ Hm) as [_ ?]. rewrite O3, O2, O1 by (by apply key_name_other; [lia|]). done. }
  assert (Est : match saltStr with None => WALLET_PLAIN | Some _ => WALLET_ENCRYPTED_LOCKED end = stored_state wsaved).
  { unfold stored_state. change (wl_pass wsaved) with (wl_pass w).
    destruct saltStr, (wl_pass w); try done; [by pose proof (proj2 Hnone eq_refl)|by pose proof (proj1 Hnone eq_refl)]. }
  exists (with_keys t w1), m2. split_and!; [done| |split; [done|]|by apply (loaded_all _ m m2 Hk)|done|done].
  - unfold wallet_load_keys. rewrite E1, bind_ok. fold salt_name. rewrite E2, bind_ok, E3, bind_ok. cbv zeta. rewrite Est, Ei, bind_ok.
    rewrite sint32_small by lia. fold w1. rewrite E4, bind_ok. cbn [negb]. change (wl_pass (with_keys t w1)) with (wl_pass w0).
    rewrite Ep. unfold stored_state. change (wl_pass wsaved) with (wl_pass w). by destruct (wl_pass w).
  - cbn. by rewrite Hv.
Qed.

(** ** Properties *)

(** The state a wallet is opened in with the right passphrase. *)
Definition opened_state w : wallet_state :=
  match wl_pass w with None => WALLET_PLAIN | Some _ => WALLET_ENCRYPTED_UNLOCKED end.

(** The file of a wallet can be opened. *)
Lemma file_of_opens w m ckey text determined fails F : crypt_works -> keys_ok (wl_hash_keys w) m -> storable_keys m ->
  Z.of_nat (size m) < 2 ^ 31 -> file_of w ckey m text -> F !! wl_filename w = Some text ->
  exists w2 m2, wallet_open_file type0 determined (wl_filename w) (wl_pass w) fails (Disk F []) =
      Ok (Some w2, opened_state w, Disk F []) /\ wallet_ok w2 m2 /\ same_keys m m2.
Proof.
  intros Hc Hk Hst Hsz Hf Hx. destruct t_create_ok as (t0 & Et & Ht0).
  destruct (load_keys_ok w m ckey text determined (new_wallet (wl_filename w) (wl_pass w) t0) fails Hc Hk Hst Hsz Hf)
    as (cfg & w2 & m2 & El & Ek & Hok & Hsame & _); [done|by apply keys_ok_empty|done|done|].
  exists w2, m2. split; [|done]. unfold wallet_open_file. rewrite Et, bind_ok. unfold file_exists, dk_next. cbn [dk_io dk_files andb].
  rewrite Hx, bool_decide_eq_true_2 by done. cbv zeta. cbn [dk_io dk_files]; rewrite ?Hx; cbv iota. by rewrite El, !bind_ok, Ek, bind_ok.
Qed.

(** C22: a wallet whose keys were saved is opened again with the same keys: the same
    hashes, births, descriptions, addresses, indices, and the same scalars, in
    clear or, with the passphrase, encrypted; what was in the file before is
    kept next to it. *)
Theorem wallet_reload salt determined w m F : crypt_works -> keys_ok (wl_hash_keys w) m -> storable_keys m ->
  Z.of_nat (size m) < 2 ^ 31 -> salt_ok salt determined w -> (length (wl_filename w) < 4095)%nat ->
  exists w1 F', wallet_save_keys salt determined w (Disk F []) = Ok (false, w1, Disk F' []) /\
    wl_hash_keys w1 = wl_hash_keys w /\
    (forall x, F !! wl_filename w = Some x -> F' !! rotated (wl_filename w) 0 = Some x) /\
    forall determined' fails, exists w2 m2,
      wallet_open_file type0 determined' (wl_filename w) (wl_pass w) fails (Disk F' []) =
        Ok (Some w2, opened_state w, Disk F' []) /\ wallet_ok w2 m2 /\ same_keys m m2.
Proof.
  intros Hc Hk Hst Hsz Hs Hl. destruct (save_keys_ok salt determined w m F Hc Hk Hst Hsz Hs Hl) as (ckey & text & F' & E & Hx & Hf & Hold).
  exists (with_ckey ckey w), F'. split_and!; [done..|]. intros determined' fails. by eapply file_of_opens.
Qed.

(** C16: whatever fails while the keys are saved, once the old file could be
    renamed its content is there under the old name or the new one: when the save
    ends, with or without an error, and when it stops the process, as it does
    where the mode of the new file cannot be set. *)
Theorem wallet_save_keeps_old salt determined w d d1 r d' x : (length (wl_filename w) < 4095)%nat ->
  dk_files d !! wl_filename w = Some x -> file_rotate (wl_filename w) 1 d = Ok (false, d1) ->
  save_keys salt determined w d = (r, d') ->
  (dk_files d' !! wl_filename w = Some x \/ dk_files d' !! rotated (wl_filename w) 0 = Some x) /\
  wallet_save_keys salt determined w d = match r with Ok (res, w') => Ok (res, w', d') | Fault f => Fault f end.
Proof.
  intros Hl Hx Hr E. split; [|unfold wallet_save_keys; rewrite E; by destruct r as [[res w']|f]]. unfold save_keys in E.
  destruct (config_setint64 _ _ _) as [c1|f]; cbn [or_stop] in E; [|injection E as _ <-; by left].
  destruct (save_crypt salt determined w c1) as [o|f] eqn:Er; cbn [or_stop] in E; [|injection E as _ <-; by left].
  destruct o as [[w1 c2]|]; [|injection E as _ <-; by left].
  destruct (t_for_each _ _ _) as [c3|f]; cbn [or_stop] in E; [|injection E as _ <-; by left].
  assert (Hw : wl_filename w1 = wl_filename w).
  { unfold save_crypt in Er. destruct (wl_pass w); [|by injection Er as <- _]. destruct salt as [salt|]; [|done].
    apply res_bind_Ok in Er as (? & _ & Er). apply res_bind_Ok in Er as (? & _ & Er).
    destruct (crypt_set_key_from_passphrase _ _ _ _) as [[? ?] ?]. apply res_bind_Ok in Er as (? & _ & Er).
    apply res_bind_Ok in Er as (? & _ & Er). apply res_bind_Ok in Er as (? & _ & Er). by injection Er as <- _. }
  rewrite Hw in E. destruct (save_file (wl_filename w) c3 d) as [r4 d4] eqn:E4. injection E as _ <-. right.
  by apply (save_file_keeps (wl_filename w) c3 d d1 x r4).
Qed.

(** A write that fails leaves nothing. *)
Lemma write_loop_fails l : forall kvs pos, saved_kvs l = Ok kvs -> kvs <> [] ->
  config_write_loop l 0 (File [] pos [IoFail]) = Ok (true, File [] pos []).
Proof.
  induction l as [|e l IH]; cbn [saved_kvs config_write_loop]; intros kvs pos E Hne; [by injection E as <-|].
  destruct (kv_save e); cbn [negb] in *; [|by apply (IH kvs)]. apply res_bind_Ok in E as (s & -> & E). rewrite bind_ok.
  apply res_bind_Ok in E as (kvs' & E' & [= <-]). destruct s as [s|]; [done|by apply (IH kvs')].
Qed.

(** When the old file cannot be renamed - the status of file_rotate is not
    looked at - and the write then fails, no file has the keys any more. *)
Theorem wallet_save_loses_keys salt determined w m x : crypt_works -> keys_ok (wl_hash_keys w) m -> storable_keys m ->
  Z.of_nat (size m) < 2 ^ 31 -> salt_ok salt determined w -> (length (wl_filename w) < 4095)%nat ->
  exists io w', wallet_save_keys salt determined w (Disk {[wl_filename w := x]} io) =
    Ok (true, w', Disk {[wl_filename w := []]} []).
Proof.
  intros Hc Hk Hst Hsz Hsalt Hl. destruct (saved_config salt determined w m Hc Hk Hst Hsz Hsalt) as (ckey & cfg & M & E & (HM & Hs & Hz) & Hfit & Hnum & _).
  destruct (saved_kvs_ok _ _ HM Hs Hfit) as (kvs & Ekvs & _ & _ & Hin).
  assert (Hne : kvs <> []).
  { apply (proj2 HM) in Hnum as (e & He & Ek & Ev). assert (Hi : (kv_key e, print_d64 (Z.of_nat (size m))) ∈ kvs).
    { apply Hin. by exists e, (VInt (Z.of_nat (size m))). } intros ->. by apply not_elem_of_nil in Hi. }
  exists [IoOk; IoFail; IoOk; IoOk; IoOk; IoOk; IoFail], (with_ckey ckey w). unfold wallet_save_keys. rewrite E. clear E.
  set (fn := wl_filename w) in *. pose proof (rotated_ne fn Hl) as Hr.
  assert (Esave : save_file fn cfg (Disk {[fn := x]} [IoOk; IoFail; IoOk; IoOk; IoOk; IoOk; IoFail]) = (Ok true, Disk {[fn := []]} [])); [|by rewrite Esave].
  assert (E1 : file_rotate fn 1 (Disk {[fn := x]} [IoOk; IoFail; IoOk; IoOk; IoOk; IoOk; IoFail]) =
    Ok (true, Disk {[fn := x]} [IoOk; IoOk; IoOk; IoOk; IoFail])).
  { rewrite file_rotate_1. unfold file_exists, file_rename, dk_next. cbn. rewrite lookup_singleton_ne by done. cbn. by rewrite lookup_singleton_eq. }
  assert (E2 : file_create fn (Disk {[fn := x]} [IoOk; IoOk; IoOk; IoOk; IoFail]) = (false, Disk {[fn := x]} [IoOk; IoOk; IoOk; IoFail])).
  { unfold file_create, dk_next. cbn. by rewrite lookup_singleton_eq. }
  assert (E3 : file_chmod fn (Disk {[fn := x]} [IoOk; IoOk; IoOk; IoFail]) = (Ok false, Disk {[fn := x]} [IoOk; IoOk; IoFail])).
  { unfold file_chmod, chmod_path, dk_next. cbn. by rewrite lookup_singleton_eq. }
  assert (E4 : file_open fn (Disk {[fn := x]} [IoOk; IoOk; IoFail]) = (Some (File x 0 [IoOk; IoFail]), Disk {[fn := x]} [IoOk; IoFail])).
  { unfold file_open, dk_next. cbn. by rewrite lookup_singleton_eq. }
  unfold save_file. rewrite E1. cbn [or_stop]. rewrite E2, E3. cbn [or_stop]. rewrite E4. unfold config_write. rewrite !bind_ok.
  change (file_truncate (File x 0 [IoOk; IoFail]) 0) with (false, File [] 0 [IoFail]). cbv iota beta. cbn [cf_list].
  rewrite (write_loop_fails _ kvs 0 Ekvs Hne), !bind_ok. unfold file_synced. cbn. by rewrite insert_singleton_eq.
Qed.
End reload.

(** ** A wallet of one key, for the witnesses *)

Section witness.
#[local] Existing Instance toy_curve.
#[local] Existing Instance toy_sha256.
#[local] Existing Instance toy_cipher.
#[local] Existing Instance Z_bignum.

Definition toy_scalar : Z := 2 ^ 250 + 5.
Definition toy_key : key := Key (Some toy_scalar) (Some (be_bytes 33 toy_scalar)).
Definition toy_hash : uint160 := match hash160_calc (be_bytes 33 toy_scalar) with Ok h => h | Fault _ => [] end.
Definition toy_wkey (addr : option (list byte)) : wallet_key :=
  WalletKey (Some toy_key) 1700000000 (Some (str "main")) addr toy_hash 0 true.
Definition one_wallet (t : table (V := wallet_key)) (pass : option (list byte)) : wallet (DB := unit) := with_keys t (new_wallet (str "wallet.cfg") pass t).

Lemma toy_scalar_key : key_of toy_scalar toy_key.
Proof. apply toy_key_of. split; reflexivity. Qed.
Lemma toy_hash_ok : hash160_calc (key_get_pubkey toy_key) = Ok toy_hash.
Proof. by vm_compute. Qed.
Lemma toy_hash_nonzero : uint160_iszero (Some toy_hash) = false /\ length toy_hash = 20%nat.
Proof. by vm_compute. Qed.

Lemma toy_keys : exists (t : table (V := wallet_key)) addr, keys_ok t {[toy_hash := toy_wkey addr]}.
Proof.
  destruct (t_create_ok (V := wallet_key)) as (t0 & _ & Ht0). destruct toy_hash_nonzero as [Hz Hl]. destruct (address_of toy_hash Hl Hz) as [addr Ea].
  destruct (keys_ok_insert t0 ∅ toy_hash (toy_wkey (Some addr))) as (t & _ & Hk); [by apply keys_ok_empty|done|done| |done|by exists t, (Some addr)].
  split_and!; [done..|]. intros k [= <-]. exists toy_scalar. split; [apply toy_scalar_key|apply toy_hash_ok].
Qed.
Lemma toy_storable addr : storable_keys {[toy_hash := toy_wkey addr]}.
Proof.
  intros h wkey [<- <-]%lookup_singleton_Some. split; [|split; [cbn; lia|split; [split_and!; [by apply notin_check..|done]|cbn; lia]]].
  exists toy_key, toy_scalar. split_and!; [done|apply toy_scalar_key|by apply Z.leb_le].
Qed.
Lemma toy_works : crypt_works.
Proof. split_and!; [done|by intros; eexists|done]. Qed.

Lemma wallet_reload_witness : exists (t : table (V := wallet_key)) addr, let w := one_wallet t (Some (str "secret")) in
  let m := {[toy_hash := toy_wkey addr]} in
  exists w1 F', wallet_save_keys (Some (replicate 8 x07)) 2000 w (Disk {[str "wallet.cfg" := [x41]]} []) = Ok (false, w1, Disk F' []) /\
    wl_hash_keys w1 = wl_hash_keys w /\
    (forall x, ({[str "wallet.cfg" := [x41]]} : gmap (list byte) (list byte)) !! wl_filename w = Some x -> F' !! rotated (wl_filename w) 0 = Some x) /\
    forall determined' fails, exists (w2 : wallet (DB := unit)) m2,
      wallet_open_file 0 determined' (wl_filename w) (wl_pass w) fails (Disk F' []) =
        Ok (Some w2, opened_state w, Disk F' []) /\ wallet_ok w2 m2 /\ same_keys m m2.
Proof.
  destruct toy_keys as (t & addr & Hk). exists t, addr. intros w m.
  apply (wallet_reload 0 (Some (replicate 8 x07)) 2000 w m); [apply toy_works|done|apply toy_storable|unfold m; rewrite map_size_singleton; lia| |by apply Nat.ltb_lt].
  intros _. exists (replicate 8 x07). done.
Defined.

(** The mode of the new file cannot be set: the process stops, the keys are in the
    renamed file. *)
Lemma wallet_save_keeps_old_witness : exists (t : table (V := wallet_key)) addr d', let w := one_wallet t None in
  keys_ok t {[toy_hash := toy_wkey addr]} /\
  save_keys None 0 w (Disk {[str "wallet.cfg" := [x41]]} [IoOk; IoOk; IoOk; IoFail]) = (Fault Panic, d') /\
  (dk_files d' !! wl_filename w = Some [x41] \/ dk_files d' !! rotated (wl_filename w) 0 = Some [x41]).
Proof.
  destruct toy_keys as (t & addr & Hk). exists t, addr.
  destruct (saved_config None 0 (one_wallet t None) _ toy_works Hk (toy_storable addr)) as (ckey & cfg & M & E & _); [done|by intros ?|].
  eexists. intros w. split; [exact Hk|].
  assert (Es : save_keys None 0 w (Disk {[str "wallet.cfg" := [x41]]} [IoOk; IoOk; IoOk; IoFail]) =
    (Fault Panic, Disk {[rotated (str "wallet.cfg") 0 := [x41]; str "wallet.cfg" := []]} [])).
  { rewrite E. change (wl_filename (one_wallet t None)) with (str "wallet.cfg").
    assert (Ef : save_file (str "wallet.cfg") cfg (Disk {[str "wallet.cfg" := [x41]]} [IoOk; IoOk; IoOk; IoFail]) =
      (Fault Panic, Disk {[rotated (str "wallet.cfg") 0 := [x41]; str "wallet.cfg" := []]} [])).
    { vm_cast_no_check (eq_refl (@Fault bool Panic, Disk {[rotated (str "wallet.cfg") 0 := [x41]; str "wallet.cfg" := []]} [])). }
    by rewrite Ef. }
  split; [exact Es|].
  apply (wallet_save_keeps_old None 0 w (Disk {[str "wallet.cfg" := [x41]]} [IoOk; IoOk; IoOk; IoFail]) (Disk {[rotated (str "wallet.cfg") 0 := [x41]]} [IoOk; IoFail])
    (Fault Panic) (Disk {[rotated (str "wallet.cfg") 0 := [x41]; str "wallet.cfg" := []]} []) [x41]); [by apply Nat.ltb_lt|apply lookup_singleton_eq| |exact Es].
  vm_cast_no_check (eq_refl (@Ok (bool * disk) (false, Disk {[rotated (str "wallet.cfg") 0 := [x41]]} [IoOk; IoFail]))).
Defined.

Lemma wallet_save_loses_keys_witness : exists (t : table (V := wallet_key)) addr, let w := one_wallet t None in
  keys_ok t {[toy_hash := toy_wkey addr]} /\
  exists io w', wallet_save_keys None 0 w (Disk {[wl_filename w := [x41]]} io) = Ok (true, w', Disk {[wl_filename w := []]} []).
Proof.
  destruct toy_keys as (t & addr & Hk). exists t, addr. intros w. split; [exact Hk|].
  apply (wallet_save_loses_keys None 0 w {[toy_hash := toy_wkey addr]} [x41]);
    [apply toy_works|done|apply toy_storable|rewrite map_size_singleton; lia|intros Hne; destruct (Hne eq_refl)|by apply Nat.ltb_lt].
Defined.
End witness.
