(* ===== verification/WalletAdd.v ===== *)
(** * Adding keys to a wallet (core/wallet.c)

    A new key in a wallet: the address that is returned, what the wallet holds
    and what its file holds; a key whose scalar is short; a wallet that is
    locked. When the wallet was born. *)
From Stdlib Require Import Strings.String.
From S2P Require Export WalletReload.

Section add.
Context `{Secp256k1} `{S256 : Sha256} `{EvpCipher} `{BigNum} `{TK : Table wallet_key} {DB : Type}.
Variable type0 : Z.
Implicit Types w : wallet (DB := DB).
Implicit Types m : gmap (list byte) wallet_key.

(** The scalar that is set from the text of a scalar: the mark of a compressed
    key becomes the last byte of one that takes 31 bytes. *)
Definition set_scalar (d : Z) : Z := if d <? 2 ^ 248 then 256 * d + 1 else d.

(** The text of a key that was generated, read back. *)
Lemma generated_source d : 2 ^ 240 <= d < ec_order -> set_scalar d < ec_order -> exists s mm len k',
  b58_bytes_to_privkey (privkey_bytes d) = Ok (Some s) /\
  plain_source type0 s = Ok (Some (Some (privkey_bytes d ++ mm, len), replicate 20 x00)) /\
  key_set_privkey key_alloc (privkey_bytes d ++ mm) len = Ok (true, k') /\ key_of (set_scalar d) k'.
Proof.
  intros Hd Hs. pose proof ec_order_bound as Ho. unfold set_scalar in *. destruct (Z.ltb_spec d (2 ^ 248)) as [Hlt|Hge].
  - assert (Eb : privkey_bytes d = be_bytes 31 d ++ [x01]) by (unfold privkey_bytes; by rewrite (nbytes_31 d ltac:(lia))).
    assert (Hl : length (privkey_bytes d) = 32%nat) by (rewrite Eb, length_app, be_bytes_length; done).
    destruct (privkey_roundtrip (privkey_bytes d)) as (s & E & Er); [by left|]. destruct (Er type0) as [mm Em].
    assert (Hz : Zlen (privkey_bytes d) = 32) by (unfold Zlen; by rewrite Hl). rewrite Hz in Em.
    destruct (key_set_privkey_of (256 * d + 1) (privkey_bytes d) mm 32) as (k' & Ek & Hk); [lia|done| |by left|].
    { rewrite Eb, be_Z_app, be_Z_bytes by (change (8 * Z.of_nat 31) with 248; lia).
      change (be_Z [x01]) with 1. change (256 ^ Zlen [x01]) with 256. lia. }
    exists s, mm, 32, k'. split_and!; [done|unfold plain_source; by rewrite Em, bind_ok|done|done].
  - destruct (privkey_bytes_split d ltac:(lia)) as [Eb Hz].
    destruct (privkey_roundtrip (privkey_bytes d)) as (s & E & Er).
    { right. exists (be_bytes 32 d). split; [done|apply be_bytes_length]. }
    destruct (Er type0) as [mm Em]. rewrite Hz in Em.
    destruct (key_set_privkey_of d (be_bytes 32 d) ([x01] ++ mm) 33) as (k' & Ek & Hk); [lia|apply be_bytes_length| |by right|].
    { apply be_Z_bytes. change (8 * Z.of_nat 32) with 256. lia. }
    exists s, mm, 33, k'. split_and!; [done|unfold plain_source; by rewrite Em, bind_ok| |done].
    by rewrite Eb, <- app_assoc.
Qed.

(** The hash of the public key of a scalar. *)
Definition hash_of (d : Z) (h : uint160) : Prop := exists k, key_of d k /\ hash160_calc (key_get_pubkey k) = Ok h.
Lemma hash_of_key d k h : key_of d k -> hash_of d h -> hash160_calc (key_get_pubkey k) = Ok h.
Proof. intros Hk (k' & Hk' & E). by rewrite (key_of_pub d k' k Hk' Hk). Qed.

(** *** A key is generated, put in a wallet that is open, and the wallet is saved *)

Section generated.
Variables (pkey : EVP_PKEY) (d : Z) (h h' : uint160) (now : Z) (state : wallet_state) (salt : option (list byte)) (determined : Z).
Variables (w : wallet (DB := DB)) (m : gmap (list byte) wallet_key) (desc : option (list byte)) (F : gmap (list byte) (list byte)).
Hypothesis Hc : crypt_works.
Hypothesis Hk : keys_ok (wl_hash_keys w) m.
Hypothesis Hst : storable_keys m.
Hypothesis Hsz : Z.of_nat (size m) < 2 ^ 31 - 1.
Hypothesis Hsalt : salt_ok salt determined w.
Hypothesis Hl : (length (wl_filename w) < 4095)%nat.
Hypothesis Hstate : state <> WALLET_ENCRYPTED_LOCKED.
Hypothesis Ep : EVP_PKEY_get_priv pkey = Some d.
Hypothesis Hnow : - 2 ^ 63 <= now < 2 ^ 63.
Hypothesis Hdesc : match desc with Some s => val_text s /\ (length s <= 900)%nat | None => True end.
(** The hashes of the key that is generated and of the key that is set. *)
Hypothesis Hh : hash_of d h.
Hypothesis Hz : uint160_iszero (Some h) = false.
Hypothesis Hh' : hash_of (set_scalar d) h'.
Hypothesis Hz' : uint160_iszero (Some h') = false.
Hypothesis Hn : m !! h' = None.

Lemma add_key_ok : 2 ^ 240 <= d < ec_order -> set_scalar d < ec_order ->
  exists addr wkey k' w2 F' ckey text, wallet_add_key type0 (Some pkey) now state salt determined w desc (Disk F []) =
      Ok (false, Some addr, w2, Disk F' []) /\ b58_pubkey_from_uint160 h = Ok (Some addr) /\
    (wk_key wkey = Some k' /\ key_of (set_scalar d) k' /\ wk_birth wkey = now /\ wk_desc wkey = desc) /\
    keys_ok (wl_hash_keys w2) (<[h' := wkey]> m) /\ storable_keys (<[h' := wkey]> m) /\
    wl_filename w2 = wl_filename w /\ wl_pass w2 = wl_pass w /\
    F' !! wl_filename w2 = Some text /\ file_of w2 ckey (<[h' := wkey]> m) text.
Proof.
  intros Hd Hs. destruct (key_generate_of d pkey) as (k & Eg & Hkd); [lia|done|].
  destruct (key_hash_of d k Hkd) as (h0 & Eh0 & Hlen & Eh). rewrite (hash_of_key d k h Hkd Hh) in Eh. injection Eh as <-.
  destruct (address_of h Hlen Hz) as [addr Eaddr].
  destruct (generated_source d Hd Hs) as (s & mm & len & k' & Es & Esrc & Eset & Hk').
  destruct (alloc_key_ok type0 state w m s None desc now true (privkey_bytes d ++ mm) len (replicate 20 x00) k' (set_scalar d) h' Hk)
    as (t & addr' & Eal & Ht & Eaddr'); [lia| |done|done|by apply (hash_of_key (set_scalar d))|done|done|].
  { unfold alloc_source. by rewrite bool_decide_eq_false_2. }
  set (wkey := WalletKey (Some k') now desc addr' h' (Z.of_nat (size m)) true) in *.
  set (w1 := wallet_invalidate_filter_scripts (with_keys t w)) in *.
  assert (Hst2 : storable_keys (<[h' := wkey]> m)).
  { intros h1 k1 [[<- <-]|[_ E1]]%lookup_insert_Some; [|by eapply Hst]. split; [|split; [exact Hnow|exact Hdesc]].
    exists k', (set_scalar d). split_and!; [done..|]. unfold set_scalar. destruct (Z.ltb_spec d (2 ^ 248)); lia. }
  destruct (save_keys_ok salt determined w1 (<[h' := wkey]> m) F Hc Ht Hst2) as (ckey & text & F' & Esave & Hx & Hf & _);
    [rewrite map_size_insert_None by done; lia|done|done|].
  exists addr, wkey, k', (with_ckey ckey w1), F', ckey, text. split_and!; try done.
  unfold wallet_add_key. rewrite Eg. cbv zeta. rewrite (key_get_privkey_of d k Hkd). cbn [default from_option id].
  by rewrite Es, bind_ok, Eh0, bind_ok, Eaddr, bind_ok, Eal, bind_ok, Esave, bind_ok.
Qed.

(** What the wallet holds afterwards: the table, and the file when it is opened again. *)
Lemma add_key_holds : 2 ^ 240 <= d < ec_order -> set_scalar d < ec_order ->
  exists addr wkey k' w2 F', wallet_add_key type0 (Some pkey) now state salt determined w desc (Disk F []) =
      Ok (false, Some addr, w2, Disk F' []) /\ b58_pubkey_from_uint160 h = Ok (Some addr) /\
    (wk_key wkey = Some k' /\ key_of (set_scalar d) k' /\ wk_birth wkey = now /\ wk_desc wkey = desc) /\
    (forall h0, wallet_is_pubkey_hash160_mine w2 h0 = Ok (bool_decide (is_Some ((<[h' := wkey]> m) !! h0)))) /\
    forall determined' fails, exists w3, wallet_open_file type0 determined' (wl_filename w) (wl_pass w) fails (Disk F' []) =
        Ok (Some w3, opened_state w, Disk F' []) /\
      (forall h0, wallet_is_pubkey_hash160_mine w3 h0 = Ok (bool_decide (is_Some ((<[h' := wkey]> m) !! h0)))) /\
      exists wkey3, t_lookup (wl_hash_keys w3) h' = Ok (Some wkey3) /\ same_key wkey wkey3.
Proof.
  intros Hd Hs. destruct (add_key_ok Hd Hs) as (addr & wkey & k' & w2 & F' & ckey & text & E & Ea & (W1 & W2 & W3 & W4) & Hk2 & Hst2 & Efn & Epass & Hx & Hf).
  exists addr, wkey, k', w2, F'. split_and!; [done..|by intros h0; apply mine_ok|]. intros determined' fails.
  destruct (file_of_opens type0 w2 _ ckey text determined' fails F' Hc Hk2 Hst2) as (w3 & m3 & E3 & [Hk3 _] & [Hdom Hsame]);
    [rewrite map_size_insert_None by done; lia|done|done|].
  unfold opened_state in *. rewrite Efn, Epass in E3. exists w3. split_and!; [done| |].
  - intros h0. rewrite (mine_ok w3 m3 h0 Hk3). f_equal. apply bool_decide_ext, Hdom.
  - destruct (proj2 (Hdom h')) as [wkey3 E4]; [rewrite lookup_insert_eq; by eexists|]. exists wkey3.
    split; [by rewrite (keys_lookup w3 m3 h' Hk3), E4|]. apply (Hsame h'); [apply lookup_insert_eq|done].
Qed.

(** C17: a new key of the wallet whose scalar takes its 32 bytes - 255 times out of
    256 - is in the wallet under the address that is returned, and is there
    with its scalar when the file is opened again. *)
Theorem wallet_add_key_kept : 2 ^ 248 <= d < ec_order -> h' = h ->
  exists addr w2 F', wallet_add_key type0 (Some pkey) now state salt determined w desc (Disk F []) =
      Ok (false, Some addr, w2, Disk F' []) /\ b58_pubkey_from_uint160 h = Ok (Some addr) /\
    wallet_is_pubkey_hash160_mine w2 h = Ok true /\
    forall determined' fails, exists w3 wkey k, wallet_open_file type0 determined' (wl_filename w) (wl_pass w) fails (Disk F' []) =
        Ok (Some w3, opened_state w, Disk F' []) /\
      t_lookup (wl_hash_keys w3) h = Ok (Some wkey) /\ wk_key wkey = Some k /\ key_of d k /\ wk_birth wkey = now /\ wk_desc wkey = desc.
Proof.
  intros Hd Eh. assert (Es : set_scalar d = d) by (unfold set_scalar; rewrite ltb_f by lia; done).
  destruct add_key_holds as (addr & wkey & k' & w2 & F' & E & Ea & (Ek & Hk' & Eb & Ed) & Hm & Hr); [lia|lia|].
  rewrite Eh in *. exists addr, w2, F'. split_and!; [done..| |].
  { rewrite Hm, bool_decide_eq_true_2; [done|]. rewrite lookup_insert_eq. by eexists. }
  intros determined' fails. destruct (Hr determined' fails) as (w3 & E3 & _ & wkey3 & Et & (Sb & Sd & _ & _ & _ & _ & k & k3 & d0 & E1 & E2 & K1 & K2)).
  exists w3, wkey3, k3. split_and!; [done..| |congruence|congruence].
  assert (k = k') as -> by congruence. rewrite Es in Hk'. by replace d with d0 by by apply (key_of_inj d0 d k' k').
Qed.

(** A new key whose scalar takes 31 bytes - one in 256 - is not the one the
    wallet keeps: whatever is sent to the address that is returned is not the
    wallet's, now or when the file is opened again. *)
Theorem wallet_add_key_lost : 2 ^ 240 <= d < 2 ^ 248 -> 256 * d + 1 < ec_order -> h' <> h -> m !! h = None ->
  exists addr w2 F', wallet_add_key type0 (Some pkey) now state salt determined w desc (Disk F []) =
      Ok (false, Some addr, w2, Disk F' []) /\ b58_pubkey_from_uint160 h = Ok (Some addr) /\
    wallet_is_pubkey_hash160_mine w2 h = Ok false /\
    forall determined' fails, exists w3, wallet_open_file type0 determined' (wl_filename w) (wl_pass w) fails (Disk F' []) =
        Ok (Some w3, opened_state w, Disk F' []) /\ wallet_is_pubkey_hash160_mine w3 h = Ok false.
Proof.
  intros Hd Ho Hne Hm0. pose proof ec_order_bound. assert (Es : set_scalar d = 256 * d + 1) by (unfold set_scalar; rewrite ltb_t by lia; done).
  destruct add_key_holds as (addr & wkey & k' & w2 & F' & E & Ea & _ & Hm & Hr); [lia|lia|].
  assert (Hnot : bool_decide (is_Some ((<[h' := wkey]> m) !! h)) = false).
  { rewrite lookup_insert_ne, Hm0 by done. by apply bool_decide_eq_false_2, is_Some_None. }
  exists addr, w2, F'. split_and!; [done..|by rewrite Hm, Hnot|]. intros determined' fails.
  destruct (Hr determined' fails) as (w3 & E3 & Hm3 & _). exists w3. split; [done|]. by rewrite Hm3, Hnot.
Qed.
End generated.

(** ** A wallet that is locked *)

Lemma save_locked_fault w l cfg : (exists h wkey, (h, wkey) ∈ l /\ wk_key wkey = None) ->
  exists f, fold_entries (wallet_save_key_cb w) l cfg = Fault f.
Proof.
  intros (h & wkey & Hin & Ek). revert cfg. induction l as [|[h0 k0] l IH]; [by apply not_elem_of_nil in Hin|]. intros cfg. cbn [fold_entries].
  apply elem_of_cons in Hin as [E|Hin]; [injection E as <- <-; exists UB; unfold wallet_save_key_cb; by rewrite Ek|].
  destruct (wallet_save_key_cb w h0 k0 cfg) as [c1|f]; [rewrite bind_ok; by apply IH|by eexists].
Qed.

(** Without a passphrase, a key whose private part is not known is added. *)
Lemma alloc_locked w m priv desc birth s w1 : keys_ok (wl_hash_keys w) m -> Z.of_nat (size m) < 2 ^ 31 -> wl_pass w = None ->
  wallet_alloc_key type0 WALLET_ENCRYPTED_LOCKED w priv None desc birth true = Ok (s, w1) ->
  wl_pass w1 = None /\ exists h wkey, (h, wkey) ∈ t_entries (wl_hash_keys w1) /\ wk_key wkey = None.
Proof.
  intros (Ht & _) Hsz Ep E. unfold wallet_alloc_key in E. apply res_bind_Ok in E as (p & _ & E).
  apply res_bind_Ok in E as (src & Es & E). unfold alloc_source in Es. rewrite bool_decide_eq_true_2, Ep in Es by done.
  cbn [str_to_bytes] in Es. rewrite bind_ok, ptr_load_zero, bind_ok in Es. apply res_bind_Ok in Es as (h & _ & [= <-]).
  rewrite bind_ok in E. apply res_bind_Ok in E as (u & _ & E). apply res_bind_Ok in E as (addr & _ & E). cbv zeta in E.
  destruct (t_insert_ok (wl_hash_keys w) m h (WalletKey None birth desc addr h (t_getnumentries (wl_hash_keys w)) true) Ht) as (t & Et & Ht'); [lia|].
  rewrite Et, bind_ok in E. apply res_bind_Ok in E as (u2 & Ea & [= _ <-]). split; [exact Ep|].
  case_bool_decide as Hn; [|done]. eexists h, _. split; [|shelve]. cbn. rewrite (t_entries_ok _ _ Ht').
  apply elem_of_map_to_list, lookup_insert_eq. Unshelve. done.
Qed.

(** Adding a key to an encrypted wallet without its passphrase - what the
    command line does - never comes back. *)
Theorem wallet_add_key_locked generated now salt determined w m desc dk : keys_ok (wl_hash_keys w) m ->
  Z.of_nat (size m) < 2 ^ 31 -> wl_pass w = None -> is_Some (key_generate_new generated) ->
  exists f, wallet_add_key type0 generated now WALLET_ENCRYPTED_LOCKED salt determined w desc dk = Fault f.
Proof.
  intros Hk Hsz Ep [k Eg]. unfold wallet_add_key. rewrite Eg. cbv zeta.
  destruct (b58_bytes_to_privkey _) as [priv|f]; [rewrite bind_ok|by eexists].
  destruct (key_get_pubkey_hash160 k) as [h|f]; [rewrite bind_ok|by eexists].
  destruct (b58_pubkey_from_uint160 h) as [addr|f]; [rewrite bind_ok|by eexists].
  destruct (wallet_alloc_key _ _ _ _ _ _ _ _) as [[s w1]|f] eqn:Eal; [rewrite bind_ok|by eexists].
  destruct (alloc_locked w m _ _ _ _ _ Hk Hsz Ep Eal) as [Ep1 Hin]. unfold wallet_save_keys, save_keys.
  destruct (config_setint64 _ _ _) as [c|f]; cbn [or_stop]; [|by eexists]. unfold save_crypt. rewrite Ep1. cbn [or_stop].
  unfold t_for_each. destruct (save_locked_fault w1 _ c Hin) as [f Ef]. exists f. by rewrite Ef.
Qed.

(** ** The birth of the wallet *)

Lemma birth_fold l b0 : exists b, fold_entries wallet_get_birth_cb l b0 = Ok b /\ b <= b0 /\
  (forall e, e ∈ l -> b <= wrap64 (wk_birth e.2)) /\ (b = b0 \/ exists e, e ∈ l /\ b = wrap64 (wk_birth e.2)).
Proof.
  revert b0. induction l as [|[h wkey] l IH]; intros b0.
  { exists b0. split_and!; [done|lia|by intros e ?%not_elem_of_nil|by left]. }
  cbn [fold_entries]. set (x := wrap64 (wk_birth wkey)).
  assert (Ec : wallet_get_birth_cb h wkey b0 = Ok (if b0 <? x then b0 else x)) by done. rewrite Ec, bind_ok.
  destruct (IH (if b0 <? x then b0 else x)) as (b & E & Hb & Hall & Hex). exists b. split; [done|].
  assert (Hm : (if b0 <? x then b0 else x) <= b0 /\ (if b0 <? x then b0 else x) <= x) by (destruct (Z.ltb_spec b0 x); lia).
  split_and!; [lia| |].
  - intros e [->|He]%elem_of_cons; [cbn; fold x; lia|by apply Hall].
  - destruct Hex as [->|(e & He & ->)]; [|right; exists e; split; [by right|done]].
    destruct (b0 <? x); [by left|]. right. exists (h, wkey). split; [left|done].
Qed.

(** The birth of a wallet is half a day before the oldest of its keys, or some
    day in a hundred years when it has none - modulo 2^64. *)
Theorem wallet_get_birth_oldest now w m : keys_ok (wl_hash_keys w) m ->
  exists b, wallet_get_birth now w = Ok (wrap64 (b - 43200)) /\ b <= wrap64 (now + 3153600000) /\
    (forall h wkey, m !! h = Some wkey -> b <= wrap64 (wk_birth wkey)) /\
    (b = wrap64 (now + 3153600000) \/ exists h wkey, m !! h = Some wkey /\ b = wrap64 (wk_birth wkey)).
Proof.
  intros (Ht & _). pose proof (t_entries_ok _ _ Ht) as Hp.
  destruct (birth_fold (t_entries (wl_hash_keys w)) (wrap64 (now + 100 * 365 * 24 * 60 * 60))) as (b & E & Hb & Hall & Hex).
  exists b. split_and!; [|exact Hb| |].
  - unfold wallet_get_birth, t_for_each. by rewrite E.
  - intros h wkey Hm. apply (Hall (h, wkey)). rewrite Hp. by apply elem_of_map_to_list.
  - destruct Hex as [->|([h wkey] & He & ->)]; [by left|right]. rewrite Hp in He. apply elem_of_map_to_list in He. by exists h, wkey.
Qed.

(** A key without a birth in the file has birth 0, and the wallet is then born
    in the far future: later than every block. *)
Theorem wallet_birth_unset now w m h wkey : keys_ok (wl_hash_keys w) m -> m !! h = Some wkey -> wk_birth wkey = 0 ->
  wallet_get_birth now w = Ok (2 ^ 64 - 43200).
Proof.
  intros (Ht & _) Hm Hz. pose proof (t_entries_ok _ _ Ht) as Hp.
  destruct (birth_fold (t_entries (wl_hash_keys w)) (wrap64 (now + 100 * 365 * 24 * 60 * 60))) as (b & E & Hb & Hall & Hex).
  assert (b <= 0).
  { specialize (Hall (h, wkey)). cbn [snd] in Hall. rewrite Hz in Hall. apply Hall. rewrite Hp. by apply elem_of_map_to_list. }
  assert (0 <= b) by (destruct Hex as [->|(e & _ & ->)]; apply Z.mod_pos_bound; done). assert (b = 0) as -> by lia.
  unfold wallet_get_birth, t_for_each. by rewrite E.
Qed.
End add.

Section witness.
#[local] Existing Instance toy_curve.
#[local] Existing Instance toy_sha256.
#[local] Existing Instance toy_cipher.
#[local] Existing Instance Z_bignum.

Definition toy_digest (d : Z) : uint160 := match hash160_calc (be_bytes 33 d) with Ok h => h | Fault _ => [] end.
Definition key_at (d : Z) : key := Key (Some d) (Some (be_bytes 33 d)).
Lemma toy_hash_of d : 0 < d < 2 ^ 256 - 1 -> hash160_calc (be_bytes 33 d) = Ok (toy_digest d) -> hash_of d (toy_digest d).
Proof. intros Hd E. exists (key_at d). split; [by apply toy_key_of|exact E]. Qed.

Ltac toy_hash := apply toy_hash_of; [split; reflexivity|match goal with |- ?x = _ => vm_cast_no_check (eq_refl x) end].

(** A new key in a wallet of one. *)
Lemma wallet_add_key_kept_witness : exists (t : table (V := wallet_key)) addr0, let w := one_wallet t None in let d := 2 ^ 251 + 9 in
  keys_ok t {[toy_hash := toy_wkey addr0]} /\
  exists addr w2 F', wallet_add_key 0 (Some d) 1800000000 WALLET_PLAIN None 0 w (Some (str "second")) (Disk ∅ []) =
      Ok (false, Some addr, w2, Disk F' []) /\ b58_pubkey_from_uint160 (toy_digest d) = Ok (Some addr) /\
    wallet_is_pubkey_hash160_mine w2 (toy_digest d) = Ok true /\
    forall determined' fails, exists (w3 : wallet (DB := unit)) wkey k,
      wallet_open_file 0 determined' (wl_filename w) (wl_pass w) fails (Disk F' []) = Ok (Some w3, opened_state w, Disk F' []) /\
      t_lookup (wl_hash_keys w3) (toy_digest d) = Ok (Some wkey) /\ wk_key wkey = Some k /\ key_of d k /\ wk_birth wkey = 1800000000 /\
      wk_desc wkey = Some (str "second").
Proof.
  destruct toy_keys as (t & addr0 & Hk). exists t, addr0. intros w d. split; [exact Hk|].
  apply (wallet_add_key_kept 0 (d : @EVP_PKEY toy_curve) d (toy_digest d) (toy_digest d) 1800000000 WALLET_PLAIN None 0 w {[toy_hash := toy_wkey addr0]} (Some (str "second")) ∅);
    [apply toy_works|exact Hk|apply toy_storable|rewrite map_size_singleton; lia|intros Hne; destruct (Hne eq_refl)|by apply Nat.ltb_lt|done|done|lia
    |split; [split_and!; [by apply notin_check..|done]|cbn; lia]|toy_hash|vm_cast_no_check (eq_refl false)|toy_hash|vm_cast_no_check (eq_refl false)
    |apply lookup_singleton_ne, (bool_decide_unpack _); vm_cast_no_check I|split; [by apply Z.leb_le|reflexivity]|reflexivity].
Defined.

(** One of 31 bytes. *)
Lemma wallet_add_key_lost_witness : exists (t : table (V := wallet_key)) addr0, let w := one_wallet t None in let d := 2 ^ 247 + 9 in
  keys_ok t {[toy_hash := toy_wkey addr0]} /\
  exists addr w2 F', wallet_add_key 0 (Some d) 1800000000 WALLET_PLAIN None 0 w None (Disk ∅ []) =
      Ok (false, Some addr, w2, Disk F' []) /\ b58_pubkey_from_uint160 (toy_digest d) = Ok (Some addr) /\
    wallet_is_pubkey_hash160_mine w2 (toy_digest d) = Ok false /\
    forall determined' fails, exists (w3 : wallet (DB := unit)),
      wallet_open_file 0 determined' (wl_filename w) (wl_pass w) fails (Disk F' []) = Ok (Some w3, opened_state w, Disk F' []) /\
      wallet_is_pubkey_hash160_mine w3 (toy_digest d) = Ok false.
Proof.
  destruct toy_keys as (t & addr0 & Hk). exists t, addr0. intros w d. split; [exact Hk|].
  apply (wallet_add_key_lost 0 (d : @EVP_PKEY toy_curve) d (toy_digest d) (toy_digest (256 * d + 1)) 1800000000 WALLET_PLAIN None 0 w {[toy_hash := toy_wkey addr0]} None ∅);
    [apply toy_works|exact Hk|apply toy_storable|rewrite map_size_singleton; lia|intros Hne; destruct (Hne eq_refl)|by apply Nat.ltb_lt|done|done|lia
    |done|toy_hash|vm_cast_no_check (eq_refl false)| |vm_cast_no_check (eq_refl false)| |split; [by apply Z.leb_le|reflexivity]|reflexivity| |].
  - change (set_scalar d) with (256 * d + 1). toy_hash.
  - apply lookup_singleton_ne, (bool_decide_unpack _). vm_cast_no_check I.
  - apply (bool_decide_unpack _). vm_cast_no_check I.
  - apply lookup_singleton_ne, (bool_decide_unpack _). vm_cast_no_check I.
Defined.

Lemma wallet_add_key_locked_witness : exists (t : table (V := wallet_key)) addr0, keys_ok t {[toy_hash := toy_wkey addr0]} /\
  exists f, wallet_add_key 0 (Some (2 ^ 251 + 9)) 1800000000 WALLET_ENCRYPTED_LOCKED None 0 (one_wallet t None) None (Disk ∅ []) = Fault f.
Proof.
  destruct toy_keys as (t & addr0 & Hk). exists t, addr0. split; [exact Hk|].
  apply (wallet_add_key_locked 0 (Some (2 ^ 251 + 9 : @EVP_PKEY toy_curve)) 1800000000 None 0 (one_wallet t None) {[toy_hash := toy_wkey addr0]} None); [exact Hk|rewrite map_size_singleton; lia|done|].
  by eexists.
Defined.

Lemma wallet_get_birth_oldest_witness : exists (t : table (V := wallet_key)) addr0, let m : gmap (list byte) wallet_key := {[toy_hash := toy_wkey addr0]} in
  exists b, wallet_get_birth 1800000000 (one_wallet t None) = Ok (wrap64 (b - 43200)) /\ b <= wrap64 (1800000000 + 3153600000) /\
    (forall h wkey, m !! h = Some wkey -> b <= wrap64 (wk_birth wkey)) /\
    (b = wrap64 (1800000000 + 3153600000) \/ exists h wkey, m !! h = Some wkey /\ b = wrap64 (wk_birth wkey)).
Proof.
  destruct toy_keys as (t & addr0 & Hk). exists t, addr0. apply (wallet_get_birth_oldest 1800000000 (one_wallet t None)). exact Hk.
Defined.

Lemma wallet_birth_unset_witness : exists (t : table (V := wallet_key)), wallet_get_birth 1800000000 (one_wallet t None) = Ok (2 ^ 64 - 43200).
Proof.
  destruct (t_create_ok (V := wallet_key)) as (t0 & _ & Ht0). destruct toy_hash_nonzero as [Hz Hl]. destruct (address_of toy_hash Hl Hz) as [addr Ea].
  set (wkey := WalletKey None 0 None (Some addr) toy_hash 0 true).
  destruct (keys_ok_insert t0 ∅ toy_hash wkey) as (t & _ & Hk); [by apply keys_ok_empty|done|done| |done|].
  { split_and!; [done..|]. by intros k [=]. }
  exists t. by apply (wallet_birth_unset 1800000000 (one_wallet t None) (<[toy_hash := wkey]> ∅) toy_hash wkey); [|apply lookup_insert_eq|].
Defined.
End witness.
