(* ===== verification/BlockStore.v ===== *)
(** * The block store (core/block-store.c)

    The headers known, the best chain and the orphans. The entries live in a
    heap: a [struct blockentry *] is an address, [None] is NULL. The two hash
    tables are reached through the interface [Table]; the lock is not modelled,
    a call runs to its end. *)
From Stdlib Require Import Strings.String.
From S2P Require Export Files Hashtable Serialize.

(** ** Checkpoints *)

Definition cpt_testnet : list (Z * string) :=
  [(0, "000000000933ea01ad0ee984209779baaec3ced90fa3f408719526f8d77f4943"%string)].

Definition cpt_main : list (Z * string) :=
  [(     0, "000000000019d6689c085ae165831e934ff763ae46a2a6c172b3f1b60a8ce26f"%string);
   ( 11111, "0000000069e244f73d78e8fd29ba2fd2ed618bd6fa2ee92559f542fdb26e7c1d"%string);
   ( 33333, "000000002dd5588a74784eaa7ab0507a18ad16a236e7b1ce69f00d7ddfb5d0a6"%string);
   ( 74000, "0000000000573993a3c9e41ce34471c079dcf5f52a0e824a81e7f953b8661a20"%string);
   (105000, "00000000000291ce28027faea320c8d2b054b2e0fe44a773f3eefb151d6bdc97"%string);
   (134444, "00000000000005b12ffd4cd315cd34ffd4a594f430ac814c91184a0d42d2b0fe"%string);
   (168000, "000000000000099e61ea72015e79632f216fe6cb33d7899acb35b75c8303b763"%string);
   (193000, "000000000000059f452a5f7340de6682a977387c17010ff6e6c3bd83ca8b1317"%string);
   (210000, "000000000000048b95347e83192f69cf0366076336c639f9b7228e9ba171342e"%string);
   (216116, "00000000000001b4f4b433e81ee46494af945cf96014816a4e2370f11b23df4e"%string);
   (225430, "00000000000001c108384350f74090433e7fcf79a606b8e797f065b130575932"%string);
   (250000, "000000000000003887df1f29024b06fc2200b55f8af8f35453d7be294df2d214"%string);
   (275000, "00000000000000044750d80a0d3f3e307e54e8802397ae840d91adc28068f5bc"%string)].

Record block_cpt_entry : Type := CptEntry { cpt_height : Z; cpt_hash : uint256 }.

(** The loop of [blockstore_init] that fills [block_cpt_main] or
    [block_cpt_testnet]. *)
Fixpoint load_checkpoints (l : list (Z * string)) : res (list block_cpt_entry) :=
  match l with
  | [] => Ok []
  | (height, hashStr) :: l =>
      let '(s, hash) := uint256_from_str (list_byte_of_string hashStr) uint256_zero_out in
      _ ← ASSERT s;
      t ← load_checkpoints l;
      Ok (CptEntry height hash :: t)
  end.

Fixpoint blockstore_validate_chkpt (array : list block_cpt_entry) (hash : uint256) (height : Z) : bool :=
  match array with
  | [] => true
  | c :: array =>
      if height =? cpt_height c then uint256_issame hash (cpt_hash c)
      else blockstore_validate_chkpt array hash height
  end.

(** ** The store *)

Record blockentry : Type := BlockEntry {
  be_prev : option positive; be_next : option positive;
  be_header : btc_block_header; be_height : Z; be_written : bool }.

Definition set_prev (p : option positive) (e : blockentry) : blockentry :=
  BlockEntry p (be_next e) (be_header e) (be_height e) (be_written e).
Definition set_next (p : option positive) (e : blockentry) : blockentry :=
  BlockEntry (be_prev e) p (be_header e) (be_height e) (be_written e).
Definition set_height (h : Z) (e : blockentry) : blockentry :=
  BlockEntry (be_prev e) (be_next e) (be_header e) h (be_written e).
Definition set_written (e : blockentry) : blockentry :=
  BlockEntry (be_prev e) (be_next e) (be_header e) (be_height e) true.

Section blockstore.
Context `{Sha256} `{T : Table positive}.

(** [heap] is the memory of the entries, [cpt] the checkpoints of the network,
    [count] the static counter of [blockstore_add_header]. *)
Record blockstore : Type := BlockStore {
  bs_heap : gmap positive blockentry;
  bs_desc : file; bs_filesize : Z;
  bs_genesis_hash : uint256; bs_best_hash : uint256;
  bs_best_chain : option positive; bs_genesis : option positive;
  bs_height : Z; bs_hash_blk : table; bs_hash_orphans : table;
  bs_cpt : list block_cpt_entry; bs_count : Z }.

(** The 80 bytes of the structure in memory are those of the wire. *)
Definition header_hash (hdr : btc_block_header) : uint256 := hash256_calc (blockheader_bytes hdr).

Definition with_heap (h : gmap positive blockentry) (bs : blockstore) : blockstore :=
  BlockStore h (bs_desc bs) (bs_filesize bs) (bs_genesis_hash bs) (bs_best_hash bs) (bs_best_chain bs)
    (bs_genesis bs) (bs_height bs) (bs_hash_blk bs) (bs_hash_orphans bs) (bs_cpt bs) (bs_count bs).
Definition with_blk (t : table) (bs : blockstore) : blockstore :=
  BlockStore (bs_heap bs) (bs_desc bs) (bs_filesize bs) (bs_genesis_hash bs) (bs_best_hash bs)
    (bs_best_chain bs) (bs_genesis bs) (bs_height bs) t (bs_hash_orphans bs) (bs_cpt bs) (bs_count bs).
Definition with_orphans (t : table) (bs : blockstore) : blockstore :=
  BlockStore (bs_heap bs) (bs_desc bs) (bs_filesize bs) (bs_genesis_hash bs) (bs_best_hash bs)
    (bs_best_chain bs) (bs_genesis bs) (bs_height bs) (bs_hash_blk bs) t (bs_cpt bs) (bs_count bs).
(** [best_chain], [height] and [best_hash] *)
Definition with_best (p : positive) (height : Z) (hash : uint256) (bs : blockstore) : blockstore :=
  BlockStore (bs_heap bs) (bs_desc bs) (bs_filesize bs) (bs_genesis_hash bs) hash (Some p) (bs_genesis bs)
    height (bs_hash_blk bs) (bs_hash_orphans bs) (bs_cpt bs) (bs_count bs).
Definition with_genesis (p : positive) (bs : blockstore) : blockstore :=
  BlockStore (bs_heap bs) (bs_desc bs) (bs_filesize bs) (bs_genesis_hash bs) (bs_best_hash bs)
    (bs_best_chain bs) (Some p) (bs_height bs) (bs_hash_blk bs) (bs_hash_orphans bs) (bs_cpt bs) (bs_count bs).
Definition with_file (f : file) (size : Z) (bs : blockstore) : blockstore :=
  BlockStore (bs_heap bs) f size (bs_genesis_hash bs) (bs_best_hash bs) (bs_best_chain bs)
    (bs_genesis bs) (bs_height bs) (bs_hash_blk bs) (bs_hash_orphans bs) (bs_cpt bs) (bs_count bs).
Definition with_count (n : Z) (bs : blockstore) : blockstore :=
  BlockStore (bs_heap bs) (bs_desc bs) (bs_filesize bs) (bs_genesis_hash bs) (bs_best_hash bs)
    (bs_best_chain bs) (bs_genesis bs) (bs_height bs) (bs_hash_blk bs) (bs_hash_orphans bs) (bs_cpt bs) n.

(** *** Accesses *)

Definition deref (bs : blockstore) (p : positive) : res blockentry :=
  match bs_heap bs !! p with Some e => Ok e | None => Fault UB end.
Definition load (p : positive) : ST blockstore blockentry := fun bs => e ← deref bs p; Ok (e, bs).
Definition update (p : positive) (f : blockentry -> blockentry) : ST blockstore unit := fun bs =>
  e ← deref bs p; Ok (tt, with_heap (<[p := f e]> (bs_heap bs)) bs).
Definition modify (f : blockstore -> blockstore) : ST blockstore unit := fun bs => Ok (tt, f bs).

Definition insert_blk (hash : uint256) (p : positive) : ST blockstore bool := fun bs =>
  '(s, t) ← t_insert (bs_hash_blk bs) hash p; Ok (s, with_blk t bs).
Definition remove_blk (hash : uint256) : ST blockstore bool := fun bs =>
  '(s, t) ← t_remove (bs_hash_blk bs) hash; Ok (s, with_blk t bs).
Definition insert_orphan (hash : uint256) (p : positive) : ST blockstore bool := fun bs =>
  '(s, t) ← t_insert (bs_hash_orphans bs) hash p; Ok (s, with_orphans t bs).
Definition remove_orphan (hash : uint256) : ST blockstore bool := fun bs =>
  '(s, t) ← t_remove (bs_hash_orphans bs) hash; Ok (s, with_orphans t bs).

Definition blockstore_lookup (bs : blockstore) (hash : uint256) : res (option positive) :=
  be ← t_lookup (bs_hash_orphans bs) hash;
  match be with
  | Some p => Ok (Some p)
  | None => t_lookup (bs_hash_blk bs) hash
  end.

Definition blockstore_get_timestamp (bs : blockstore) : res Z :=
  match bs_best_chain bs with
  | None => Ok 1231006505
  | Some p => e ← deref bs p; _ ← ASSERT (bs_height bs =? be_height e); Ok (bh_timestamp (be_header e))
  end.

Definition blockstore_get_height (bs : option blockstore) : res Z :=
  match bs with
  | None => Ok 0
  | Some bs =>
      match bs_best_chain bs with
      | None => Ok 0
      | Some p => e ← deref bs p; _ ← ASSERT (bs_height bs =? be_height e); Ok (bs_height bs)
      end
  end.

Definition blockstore_get_block_height (bs : blockstore) (hash : uint256) : res Z :=
  if uint256_iszero (Some hash) then Ok 0 else
  be ← t_lookup (bs_hash_blk bs) hash;
  match be with
  | None => Fault Panic
  | Some p => e ← deref bs p; Ok (be_height e)
  end.

Definition blockstore_get_highest (bs : blockstore) (hash0 hash1 : uint256) : res uint256 :=
  if uint256_iszero (Some hash0) then Ok hash1 else
  if uint256_iszero (Some hash1) then Ok hash0 else
  height0 ← blockstore_get_block_height bs hash0;
  height1 ← blockstore_get_block_height bs hash1;
  _ ← ASSERT (0 <? height0);
  _ ← ASSERT (0 <? height1);
  Ok (if height0 <? height1 then hash1 else hash0).

(** [for (e = best_chain; e != genesis; e = e->prev)], up to an entry with
    [found]; NULL is dereferenced if the genesis block is not met. *)
Fixpoint walk_back (fuel : nat) (bs : blockstore) (found : blockentry -> bool) (e : option positive) :
    res (option blockentry) :=
  match fuel with
  | O => Fault UB
  | S fuel =>
      if bool_decide (e = bs_genesis bs) then Ok None else
      match e with
      | None => Fault UB
      | Some p =>
          be ← deref bs p;
          if found be then Ok (Some be) else walk_back fuel bs found (be_prev be)
      end
  end.
Definition walk (bs : blockstore) (found : blockentry -> bool) : res (option blockentry) :=
  walk_back (S (size (bs_heap bs))) bs found (bs_best_chain bs).

Definition blockstore_get_block_at_height (bs : blockstore) (height : Z) :
    res (option (uint256 * btc_block_header)) :=
  _ ← ASSERT (height <=? bs_height bs);
  e ← walk bs (fun e => be_height e =? height);
  Ok (option_map (fun e => (header_hash (be_header e), be_header e)) e).

(** *** The best chain *)

(** The entries from [li] on go from the best chain to the orphans. *)
Fixpoint orphan_loop (fuel : nat) (li : option positive) : ST blockstore unit :=
  match fuel with
  | O => lift (Fault UB)
  | S fuel =>
      match li with
      | None => mret tt
      | Some p =>
          e ← load p;
          let hash := header_hash (be_header e) in
          s ← remove_blk hash;
          _ ← lift (ASSERT s);
          _ ← update p (set_height (-1));
          s ← insert_orphan hash p;
          _ ← lift (ASSERT s);
          e ← load p;
          orphan_loop fuel (be_next e)
      end
  end.

Fixpoint blockstore_set_chain_links (fuel : nat) (be : positive) : ST blockstore Z :=
  match fuel with
  | O => lift (Fault UB)
  | S fuel =>
      e ← load be;
      let hash := header_hash (be_header e) in
      if 0 <=? be_height e then
        n ← gets (fun bs => S (size (bs_heap bs)));
        _ ← orphan_loop n (be_next e);
        e ← load be;
        mret (be_height e)
      else
        _ ← lift (ASSERT (be_height e =? -1));
        bs ← gets (fun bs => bs);
        prev ← lift (blockstore_lookup bs (bh_prevBlock (be_header e)));
        match prev with
        | None => lift (Fault Panic)
        | Some prev =>
            h ← blockstore_set_chain_links fuel prev;
            _ ← update be (set_height (1 + h));
            _ ← update prev (set_next (Some be));
            _ ← update be (set_prev (Some prev));
            s ← remove_orphan hash;
            _ ← lift (ASSERT s);
            s ← insert_blk hash be;
            _ ← lift (ASSERT s);
            e ← load be;
            mret (be_height e)
        end
  end.

Fixpoint blockstore_find_alternate_chain_height (fuel : nat) (bs : blockstore) (be : positive) : res Z :=
  match fuel with
  | O => Fault UB
  | S fuel =>
      e ← deref bs be;
      if 0 <? be_height e then Ok (be_height e) else
      _ ← ASSERT (be_height e =? -1);
      prev ← blockstore_lookup bs (bh_prevBlock (be_header e));
      match prev with
      | None => Ok 0
      | Some prev => h ← blockstore_find_alternate_chain_height fuel bs prev; Ok (1 + h)
      end
  end.

(** The recursions go through distinct entries of the heap. *)
Definition blockstore_set_best_chain (be : positive) (hash : uint256) : ST blockstore unit :=
  bs ← gets (fun bs => bs);
  let fuel := S (size (bs_heap bs)) in
  height ← lift (blockstore_find_alternate_chain_height fuel bs be);
  if height <=? bs_height bs then mret tt else
  _ ← blockstore_set_chain_links fuel be;
  modify (with_best be height hash).

Definition blockstore_add_entry (be : positive) (hash : uint256) : ST blockstore unit :=
  bs ← gets (fun bs => bs);
  match bs_best_chain bs with
  | None =>
      s ← insert_blk hash be;
      _ ← lift (ASSERT s);
      _ ← lift (ASSERT (uint256_issame hash (bs_genesis_hash bs)));
      e ← load be;
      _ ← lift (ASSERT (bool_decide (be_prev e = None)));
      _ ← lift (ASSERT (negb (bs_height bs =? 0)));
      _ ← modify (with_genesis be);
      _ ← modify (with_best be 0 hash);
      update be (set_height 0)
  | Some tip =>
      e ← load be;
      if uint256_issame (bh_prevBlock (be_header e)) (bs_best_hash bs) then
        s ← insert_blk hash be;
        _ ← lift (ASSERT s);
        _ ← update be (set_height (bs_height bs + 1));
        _ ← update tip (set_next (Some be));
        _ ← update be (set_prev (Some tip));
        modify (with_best be (bs_height bs + 1) hash)
      else
        _ ← update be (set_height (-1));
        s ← insert_orphan hash be;
        _ ← lift (ASSERT s);
        blockstore_set_best_chain be hash
  end.

Definition blockstore_has_header (bs : blockstore) (hash : uint256) : res bool :=
  be ← t_lookup (bs_hash_blk bs) hash; Ok (bool_decide (is_Some be)).
Definition blockstore_is_orphan (bs : blockstore) (hash : uint256) : res bool :=
  be ← t_lookup (bs_hash_orphans bs) hash; Ok (bool_decide (is_Some be)).
Definition blockstore_is_block_known (bs : blockstore) (hash : uint256) : res bool :=
  s ← blockstore_has_header bs hash;
  if (s : bool) then Ok true else blockstore_is_orphan bs hash.

(** A new address. *)
Definition blockstore_alloc_entry (hdr : btc_block_header) (written : bool) : ST blockstore positive := fun bs =>
  let p := fresh (dom (bs_heap bs) : gset positive) in
  Ok (p, with_heap (<[p := BlockEntry None None hdr 0 written]> (bs_heap bs)) bs).

(** The result and [*orphan]. *)
Definition blockstore_add_header (hdr : btc_block_header) (hash : uint256) : ST blockstore (bool * bool) :=
  _ ← modify (fun bs => with_count (wrap32 (bs_count bs + 1)) bs);
  bs ← gets (fun bs => bs);
  _ ← lift (ASSERT (negb (bs_count bs mod 32 =? 0) || uint256_issame hash (header_hash hdr)));
  be ← lift (blockstore_lookup bs hash);
  match be with
  | Some _ => mret (false, false)
  | None =>
      _ ← lift (ASSERT (blockstore_validate_chkpt (bs_cpt bs) hash (wrap32 (bs_height bs + 1))));
      _ ← lift (ASSERT (bool_decide (is_Some (bs_best_chain bs)) || uint256_issame hash (bs_genesis_hash bs)));
      be ← blockstore_alloc_entry hdr false;
      _ ← blockstore_add_entry be hash;
      e ← load be;
      mret (true, be_height e =? -1)
  end.

(** *** Reading the chain *)

(** The time [birth] is compared with the 32-bit timestamps. *)
Definition blockstore_get_hash_from_birth (bs : blockstore) (birth : Z) : res uint256 :=
  e ← walk bs (fun e => bh_timestamp (be_header e) <? birth);
  Ok (match e with Some e => header_hash (be_header e) | None => bs_genesis_hash bs end).

Definition blockstore_is_next (bs : blockstore) (prev next : uint256) : res bool :=
  be ← t_lookup (bs_hash_blk bs) prev;
  match be with
  | None => Ok false
  | Some p =>
      e ← deref bs p;
      match be_next e with
      | None => Ok false
      | Some n => e ← deref bs n; Ok (uint256_issame (header_hash (be_header e)) next)
      end
  end.

(** [while (be && i < num)], [num] more hashes at most. *)
Fixpoint next_hashes_loop (num : nat) (bs : blockstore) (be : option positive) : res (list uint256) :=
  match num, be with
  | S num, Some p =>
      e ← deref bs p;
      t ← next_hashes_loop num bs (be_next e);
      Ok (header_hash (be_header e) :: t)
  | _, _ => Ok []
  end.

Definition blockstore_get_next_hashes (bs : blockstore) (start : uint256) : res (list uint256) :=
  be ← t_lookup (bs_hash_blk bs) start;
  match be with
  | None => Ok []
  | Some p => e ← deref bs p; next_hashes_loop 1000 bs (be_next e)
  end.

Definition blockstore_get_best_hash (bs : blockstore) : uint256 :=
  match bs_best_chain bs with None => uint256_zero_out | Some _ => bs_best_hash bs end.

Definition blockstore_get_genesis (bs : blockstore) : uint256 := bs_genesis_hash bs.

Definition blockstore_get_block_timestamp (bs : blockstore) (hash : uint256) : res Z :=
  if uint256_iszero (Some hash) then Ok 0 else
  be ← blockstore_lookup bs hash;
  match be with
  | None => Fault Panic
  | Some p => e ← deref bs p; Ok (bh_timestamp (be_header e))
  end.

(** [for (i = 0; i < step && be; i++) be = be->prev]; [fuel] bounds the chain. *)
Fixpoint step_back (fuel : nat) (bs : blockstore) (step : Z) (be : option positive) :
    res (option positive) :=
  match fuel with
  | O => Fault UB
  | S fuel =>
      match be with
      | Some p => if 0 <? step then e ← deref bs p; step_back fuel bs (step - 1) (be_prev e) else Ok be
      | None => Ok None
      end
  end.

Fixpoint locator_loop (fuel : nat) (bs : blockstore) (be : option positive) (step n : Z) :
    res (list uint256) :=
  match fuel with
  | O => Fault UB
  | S fuel =>
      match be with
      | None => Ok []
      | Some p =>
          _ ← ASSERT (n <? 64);
          e ← deref bs p;
          let n := n + 1 in
          let step := if 10 <=? n then wrap32 (step * 2) else step in
          be ← step_back (S (size (bs_heap bs))) bs step be;
          t ← locator_loop fuel bs be step n;
          Ok (header_hash (be_header e) :: t)
      end
  end.

Definition blockstore_get_locator_hashes (bs : blockstore) : res (list uint256) :=
  locator_loop 65 bs (bs_best_chain bs) 1 0.

(** *** The file of the headers *)

(** The entries from [e] back that are not written, newest first. *)
Fixpoint unwritten (fuel : nat) (bs : blockstore) (e : option positive) : res (list (positive * blockentry)) :=
  match fuel with
  | O => Fault UB
  | S fuel =>
      match e with
      | None => Ok []
      | Some p =>
          be ← deref bs p;
          if be_written be then Ok [] else
          t ← unwritten fuel bs (be_prev be);
          Ok ((p, be) :: t)
      end
  end.

(** [e->written = 1] for each of them. *)
Definition mark_written (l : list (positive * blockentry)) (bs : blockstore) : blockstore :=
  with_heap (foldr (fun pe h => <[pe.1 := set_written pe.2]> h) (bs_heap bs) l) bs.

Definition blockstore_write_headers : ST blockstore unit := fun bs =>
  l ← unwritten (S (size (bs_heap bs))) bs (bs_best_chain bs);
  _ ← ASSERT (Zlen l <? 2048);
  if Zlen l =? 0 then Ok (tt, bs) else
  let bs := mark_written l bs in
  let buf := concat (map (fun pe => blockheader_bytes (be_header pe.2)) (rev l)) in
  let '(err, numWritten, f) := file_pwrite (bs_desc bs) (bs_filesize bs) buf in
  if err || negb (numWritten =? Zlen l * 80) then Ok (tt, with_file f (bs_filesize bs) bs)
  else Ok (tt, with_file f (bs_filesize bs + numWritten) bs).

(** The structure behind 80 bytes of the file. *)
Definition header_of_bytes (b : list byte) : btc_block_header :=
  BlockHeader (le_Z (take 4 b)) (take 32 (drop 4 b)) (take 32 (drop 36 b))
    (le_Z (take 4 (drop 68 b))) (le_Z (take 4 (drop 72 b))) (le_Z (take 4 (drop 76 b))).

(** [true] when a checkpoint refuses a header. *)
Fixpoint load_headers (n : nat) (buf : list byte) : ST blockstore bool :=
  match n with
  | O => mret false
  | S n =>
      let hdr := header_of_bytes (take 80 buf) in
      be ← blockstore_alloc_entry hdr true;
      let hash := header_hash hdr in
      bs ← gets (fun bs => bs);
      if negb (blockstore_validate_chkpt (bs_cpt bs) hash (wrap32 (bs_height bs + 1))) then mret true else
      _ ← blockstore_add_entry be hash;
      load_headers n (drop 80 buf)
  end.

(** By blocks of 10,000 headers; a read of 0 bytes would not end the loop.
    [stop offset] is [btc->stop] after the read at [offset]: the user asked to
    quit. *)
Fixpoint load_file (stop : Z -> bool) (fuel : nat) (offset : Z) : ST blockstore bool :=
  match fuel with
  | O => lift (Fault UB)
  | S fuel =>
      bs ← gets (fun bs => bs);
      if negb (offset <? bs_filesize bs) then mret false else
      let numBytes := minimum (bs_filesize bs - offset) (10000 * 80) in
      let '(err, buf, f) := file_pread (bs_desc bs) offset numBytes in
      _ ← modify (with_file f (bs_filesize bs));
      if (err : bool) || stop offset then mret true else
      r ← load_headers (Z.to_nat (Zlen buf / 80)) buf;
      if (r : bool) then mret true else
      load_file stop fuel (offset + Zlen buf)
  end.

Definition blockset_open_file (stop : Z -> bool) : ST blockstore bool := fun bs =>
  let '(filesize, f) := file_getsize (bs_desc bs) in
  let bs := with_file f filesize bs in
  if filesize <? 0 then Ok (true, bs) else
  load_file stop (S (length (f_data f))) 0 bs.

(** The file that is left. *)
Definition blockstore_exit (bs : option blockstore) : res (option file) :=
  match bs with
  | None => Ok None
  | Some bs =>
      '(_, bs) ← blockstore_write_headers bs;
      _ ← t_clear (bs_hash_blk bs);
      _ ← t_clear (bs_hash_orphans bs);
      Ok (Some (bs_desc bs))
  end.

(** [fd] is the file as opened; [None] is a failure. *)
Definition blockstore_init (testnet : bool) (stop : Z -> bool) (fd : file) : res (option blockstore) :=
  blk ← t_create;
  orphans ← t_create;
  array ← load_checkpoints (if testnet then cpt_testnet else cpt_main);
  match array with
  | [] => Fault UB
  | c :: _ =>
      let bs := BlockStore ∅ fd 0 (cpt_hash c) uint256_zero_out None None (-1) blk orphans array 0 in
      '(r, bs) ← blockset_open_file stop bs;
      if (r : bool) then _ ← blockstore_exit (Some bs); Ok None else Ok (Some bs)
  end.
End blockstore.

(** ** The well-formed stores *)

(** As many keys as entries at most, when each entry has one key. *)
Lemma size_injective {A : Type} (m : gmap (list byte) positive) : forall heap : gmap positive A,
  (forall k p, m !! k = Some p -> is_Some (heap !! p)) ->
  (forall k1 k2 p, m !! k1 = Some p -> m !! k2 = Some p -> k1 = k2) ->
  (size m <= size heap)%nat.
Proof.
  induction m as [|k p m Hk IH] using map_ind; intros heap Hin Hinj; [rewrite map_size_empty; lia|].
  rewrite map_size_insert_None by done.
  destruct (Hin k p (lookup_insert_eq _ _ _)) as [a Ha].
  assert (size heap = S (size (delete p heap))) as ->.
  { rewrite <- (insert_delete_id heap p a Ha) at 1. apply map_size_insert_None. apply lookup_delete_eq. }
  assert (Hm : forall k' p', m !! k' = Some p' -> <[k := p]> m !! k' = Some p').
  { intros k' p' E. rewrite lookup_insert_ne; [done|]. intros ->. congruence. }
  apply le_n_S, IH.
  - intros k' p' E. rewrite lookup_delete_ne; [by apply (Hin k'), Hm|].
    intros ->. assert (k = k') as -> by (eapply Hinj; [apply lookup_insert_eq|by apply Hm]). congruence.
  - intros k1 k2 p' E1 E2. eapply Hinj; by apply Hm.
Qed.

Section wf.
Context `{Sha256} `{T : Table positive}.
Implicit Types bs : blockstore.
Implicit Types heap : gmap positive blockentry.
Implicit Types c : list positive.

(** The entry at [p] has hash [k]. *)
Definition keyed heap (k : uint256) (p : positive) : Prop :=
  exists e, heap !! p = Some e /\ header_hash (be_header e) = k.

(** The table [t] holds the entries of [P], each under its hash. *)
Definition tbl_is heap (t : table) (P : positive -> Prop) : Prop :=
  exists m, tbl_ok t m /\ forall k p, m !! k = Some p <-> P p /\ keyed heap k p.

(** A hash is the hash of one entry, and the heap is not full. *)
Definition heap_ok heap : Prop :=
  (forall k p q, keyed heap k p -> keyed heap k q -> p = q) /\ Z.of_nat (size heap) < 2 ^ 32 - 1.

(** The tables: the blocks of [B] in one, every other entry in the other. *)
Definition index_ok bs (B : list positive) : Prop :=
  heap_ok (bs_heap bs) /\
  (forall p, p ∈ B -> is_Some (bs_heap bs !! p)) /\
  tbl_is (bs_heap bs) (bs_hash_blk bs) (fun p => p ∈ B) /\
  tbl_is (bs_heap bs) (bs_hash_orphans bs) (fun p => p ∉ B).

(** An orphan has height -1. *)
Definition tables_ok bs (B : list positive) : Prop :=
  index_ok bs B /\ forall p e, bs_heap bs !! p = Some e -> p ∉ B -> be_height e = -1.

(** The entry at place [i] of the chain [c]: its height, its links, its
    parent. The [next] of the last one is not constrained. *)
Definition link_ok heap c (i : nat) (p : positive) : Prop :=
  exists e, heap !! p = Some e /\ be_height e = Z.of_nat i /\
    (forall q, c !! S i = Some q -> be_next e = Some q) /\
    match i with
    | O => be_prev e = None
    | S j => be_prev e = c !! j /\ exists q, c !! j = Some q /\ keyed heap (bh_prevBlock (be_header e)) q
    end.

Definition chain_ok heap c : Prop := NoDup c /\ forall i p, c !! i = Some p -> link_ok heap c i p.

(** The last block has no [next]. *)
Definition tip_ok heap c : Prop := forall p e, last c = Some p -> heap !! p = Some e -> be_next e = None.

(** The store between two calls: [c] is the best chain, the genesis block
    first. *)
Definition bs_wf bs c : Prop :=
  tables_ok bs c /\ chain_ok (bs_heap bs) c /\ tip_ok (bs_heap bs) c /\
  bs_best_chain bs = last c /\ bs_genesis bs = head c /\ bs_height bs = Zlen c - 1 /\
  (forall p, last c = Some p -> keyed (bs_heap bs) (bs_best_hash bs) p) /\
  (forall p, head c = Some p -> keyed (bs_heap bs) (bs_genesis_hash bs) p).

(** Changes of an entry that keep its header. *)
Definition keeps_header (f : blockentry -> blockentry) : Prop := forall e, be_header (f e) = be_header e.

Lemma keyed_insert heap p e f k q :
  heap !! p = Some e -> keeps_header f -> keyed (<[p := f e]> heap) k q <-> keyed heap k q.
Proof.
  intros Hp Hf. unfold keyed. destruct (decide (p = q)) as [<-|Hne].
  - rewrite lookup_insert_eq, Hp. split; intros (e' & [= <-] & <-); [exists e|exists (f e)]; by rewrite Hf.
  - by rewrite lookup_insert_ne.
Qed.

Lemma keyed_fun heap p k1 k2 : keyed heap k1 p -> keyed heap k2 p -> k1 = k2.
Proof. intros (e1 & E1 & <-) (e2 & E2 & <-). congruence. Qed.

Lemma deref_ok bs p e : bs_heap bs !! p = Some e -> deref bs p = Ok e.
Proof. intros E. unfold deref. by rewrite E. Qed.

Lemma update_ok bs p f e :
  bs_heap bs !! p = Some e -> update p f bs = Ok (tt, with_heap (<[p := f e]> (bs_heap bs)) bs).
Proof. intros E. unfold update. rewrite (deref_ok _ _ _ E). done. Qed.

Lemma load_ok bs p e : bs_heap bs !! p = Some e -> load p bs = Ok (e, bs).
Proof. intros E. unfold load. by rewrite (deref_ok _ _ _ E). Qed.

(** *** The tables *)

Lemma tbl_is_lookup heap t P k :
  tbl_is heap t P -> exists o, t_lookup t k = Ok o /\ forall p, o = Some p <-> P p /\ keyed heap k p.
Proof. intros (m & Hm & Hk). exists (m !! k). split; [by apply t_lookup_ok|]. intros p. apply Hk. Qed.

Lemma tbl_is_ext heap heap' t (P P' : positive -> Prop) :
  (forall k p, P p /\ keyed heap k p <-> P' p /\ keyed heap' k p) -> tbl_is heap t P -> tbl_is heap' t P'.
Proof. intros HP (m & Hm & Hk). exists m. split; [done|]. intros k p. by rewrite Hk. Qed.

Lemma tbl_is_remove heap t (P : positive -> Prop) k p :
  heap_ok heap -> tbl_is heap t P -> P p -> keyed heap k p ->
  exists t', t_remove t k = Ok (true, t') /\ tbl_is heap t' (fun q => P q /\ q <> p).
Proof.
  intros [Hinj _] (m & Hm & Hk) Hp Hkp. destruct (t_remove_ok t m k Hm) as (t' & E & Ht').
  rewrite bool_decide_eq_true_2 in E by (exists p; by apply Hk). exists t'. split; [done|].
  eexists. split; [done|]. intros k' q. rewrite lookup_delete_Some, Hk. split.
  - intros [Hne [Hq Hkq]]. split; [split; [done|]|done]. intros ->. by apply Hne, (keyed_fun heap p).
  - intros [[Hq Hne] Hkq]. split; [|done]. intros <-. by apply Hne, (Hinj k).
Qed.

Lemma tbl_is_insert heap t (P : positive -> Prop) k p :
  heap_ok heap -> tbl_is heap t P -> ~ P p -> keyed heap k p ->
  exists t', t_insert t k p = Ok (true, t') /\ tbl_is heap t' (fun q => P q \/ q = p).
Proof.
  intros [Hinj Hs] (m & Hm & Hk) Hp Hkp.
  assert (Hnone : m !! k = None).
  { destruct (m !! k) as [q|] eqn:E; [|done]. apply Hk in E as [Hq E]. by rewrite (Hinj _ _ _ E Hkp) in Hq. }
  destruct (t_insert_ok t m k p Hm) as (t' & E & Ht').
  { assert (size m <= size heap)%nat; [|lia]. apply size_injective.
    - intros k' q E. apply Hk in E as (_ & e & He & _). by rewrite He.
    - intros k1 k2 q E1 E2. apply Hk in E1 as [_ E1]. apply Hk in E2 as [_ E2]. by apply (keyed_fun heap q). }
  rewrite bool_decide_eq_true_2 in E, Ht' by done. exists t'. split; [done|].
  eexists. split; [done|]. intros k' q. destruct (decide (k' = k)) as [->|Hne].
  - rewrite lookup_insert_eq. split.
    + intros [= <-]. by split; [right|].
    + intros [_ Hq]. f_equal. by apply (Hinj k).
  - rewrite lookup_insert_ne, Hk by done. split; [naive_solver|]. intros [[Hq | ->] Hkq]; [done|].
    by destruct Hne; apply (keyed_fun heap p).
Qed.

(** [blockstore_lookup] finds every entry. *)
Lemma blockstore_lookup_ok bs B k :
  index_ok bs B ->
  exists o, blockstore_lookup bs k = Ok o /\ forall p, o = Some p <-> keyed (bs_heap bs) k p.
Proof.
  intros ([Hinj _] & _ & Hb & Ho). unfold blockstore_lookup.
  destruct (tbl_is_lookup _ _ _ k Ho) as (o & -> & Hko). rewrite bind_ok.
  destruct (tbl_is_lookup _ _ _ k Hb) as (o' & -> & Hkb). destruct o as [p|].
  - exists (Some p). split; [done|]. intros q. destruct (proj1 (Hko p) eq_refl) as [_ Hp]. split.
    + by intros [= <-].
    + intros Hq. f_equal. by apply (Hinj k).
  - exists o'. split; [done|]. intros q. rewrite Hkb. split; [by intros []|]. intros Hq. split; [|done].
    destruct (decide (q ∈ B)); [done|]. assert (@None positive = Some q) by (by apply Hko). done.
Qed.

(** *** Moving an entry between the tables *)

(** The accesses change the heap and the tables only. *)
Definition same_rest bs bs' : Prop :=
  bs' = with_heap (bs_heap bs') (with_blk (bs_hash_blk bs') (with_orphans (bs_hash_orphans bs') bs)).

Lemma same_rest_trans bs1 bs2 bs3 : same_rest bs1 bs2 -> same_rest bs2 bs3 -> same_rest bs1 bs3.
Proof. destruct bs1, bs2, bs3. unfold same_rest. intros E1 E2. injection E1. injection E2. intros. subst. done. Qed.

Lemma heap_ok_update heap p e f :
  heap !! p = Some e -> keeps_header f -> heap_ok heap -> heap_ok (<[p := f e]> heap).
Proof.
  intros He Hf [Hinj Hs]. split.
  - intros k q1 q2. rewrite !(keyed_insert _ _ _ _ _ _ He Hf). apply Hinj.
  - rewrite map_size_insert_Some; [done|by rewrite He].
Qed.

Lemma tbl_is_update heap p e f t P :
  heap !! p = Some e -> keeps_header f -> tbl_is heap t P -> tbl_is (<[p := f e]> heap) t P.
Proof. intros He Hf. apply tbl_is_ext. intros k q. by rewrite (keyed_insert _ _ _ _ _ _ He Hf). Qed.

Lemma index_ok_update bs B p e f :
  bs_heap bs !! p = Some e -> keeps_header f -> index_ok bs B ->
  index_ok (with_heap (<[p := f e]> (bs_heap bs)) bs) B.
Proof.
  intros He Hf (Hok & Hin & Hb & Ho). split; [by apply heap_ok_update|]. split; [|split; by apply tbl_is_update].
  intros q Hq. cbn. destruct (decide (p = q)) as [<-|Hne]; [by rewrite lookup_insert_eq|].
  rewrite lookup_insert_ne by done. by apply Hin.
Qed.

(** From the best chain to the orphans. *)
Lemma blk_to_orphan {A : Type} bs B B' p e (K : ST blockstore A) :
  index_ok bs B -> p ∈ B -> bs_heap bs !! p = Some e -> (forall q, q ∈ B' <-> q ∈ B /\ q <> p) ->
  exists bs', same_rest bs bs' /\ bs_heap bs' = <[p := set_height (-1) e]> (bs_heap bs) /\ index_ok bs' B' /\
    (s ← remove_blk (header_hash (be_header e));
     _ ← lift (ASSERT s);
     _ ← update p (set_height (-1));
     s ← insert_orphan (header_hash (be_header e)) p;
     _ ← lift (ASSERT s); K) bs = K bs'.
Proof.
  intros (Hok & Hin & Hb & Ho) Hp He HB'.
  assert (Hkp : keyed (bs_heap bs) (header_hash (be_header e)) p) by by exists e.
  destruct (tbl_is_remove _ _ _ _ p Hok Hb Hp Hkp) as (t & Et & Ht).
  destruct (tbl_is_insert _ _ _ _ p Hok Ho (fun H => H Hp) Hkp) as (t' & Et' & Ht').
  exists (with_orphans t' (with_heap (<[p := set_height (-1) e]> (bs_heap bs)) (with_blk t bs))).
  split_and!; [done|done| |].
  - split_and!; cbn.
    + by apply heap_ok_update.
    + intros q Hq. apply HB' in Hq as [Hq Hne]. rewrite lookup_insert_ne by done. by apply Hin.
    + apply tbl_is_update; [done..|]. revert Ht. apply tbl_is_ext. intros k q. by rewrite HB'.
    + apply tbl_is_update; [done..|]. revert Ht'. apply tbl_is_ext. intros k q. rewrite HB'.
      destruct (decide (q = p)); naive_solver.
  - erewrite st_bind_Ok; [|unfold remove_blk; rewrite Et; reflexivity]. erewrite st_bind_Ok; [|reflexivity].
    erewrite st_bind_Ok; [|by apply update_ok]. erewrite st_bind_Ok; [|unfold insert_orphan; cbn; rewrite Et'; reflexivity].
    reflexivity.
Qed.

(** From the orphans to the best chain. *)
Lemma orphan_to_blk {A : Type} bs B p k (K : ST blockstore A) :
  index_ok bs B -> p ∉ B -> keyed (bs_heap bs) k p ->
  exists bs', same_rest bs bs' /\ bs_heap bs' = bs_heap bs /\ index_ok bs' (B ++ [p]) /\
    (s ← remove_orphan k;
     _ ← lift (ASSERT s);
     s ← insert_blk k p;
     _ ← lift (ASSERT s); K) bs = K bs'.
Proof.
  intros (Hok & Hin & Hb & Ho) Hp Hkp.
  destruct (tbl_is_remove _ _ _ _ p Hok Ho Hp Hkp) as (t & Et & Ht).
  destruct (tbl_is_insert _ _ _ _ p Hok Hb Hp Hkp) as (t' & Et' & Ht').
  exists (with_blk t' (with_orphans t bs)). split_and!; [done|done| |].
  - split_and!; cbn; [done| | |].
    + intros q [Hq | Hq%list_elem_of_singleton]%elem_of_app; [by apply Hin|].
      subst q. destruct Hkp as (e & He & _). by rewrite He.
    + revert Ht'. apply tbl_is_ext. intros k' q. by rewrite elem_of_app, list_elem_of_singleton.
    + revert Ht. apply tbl_is_ext. intros k' q. rewrite elem_of_app, list_elem_of_singleton. naive_solver.
  - erewrite st_bind_Ok; [|unfold remove_orphan; rewrite Et; reflexivity]. erewrite st_bind_Ok; [|reflexivity].
    erewrite st_bind_Ok; [|unfold insert_blk; cbn; rewrite Et'; reflexivity]. reflexivity.
Qed.

(** A new entry at [p], found under [k] in neither table. *)
Lemma heap_ok_new heap p k e :
  heap !! p = None -> header_hash (be_header e) = k -> (forall q, ~ keyed heap k q) ->
  Z.of_nat (size heap) < 2 ^ 32 - 2 -> heap_ok heap -> heap_ok (<[p := e]> heap).
Proof.
  intros Hp He Hk Hs [Hinj _]. assert (Hold : forall k' q, q <> p -> keyed (<[p := e]> heap) k' q -> keyed heap k' q).
  { intros k' q Hq. unfold keyed. by rewrite lookup_insert_ne. }
  assert (Hnew : forall k', keyed (<[p := e]> heap) k' p -> k' = k).
  { intros k' (e' & E & <-). rewrite lookup_insert_eq in E. by injection E as <-. }
  split; [|rewrite map_size_insert_None by done; lia]. intros k' q1 q2 H1 H2.
  destruct (decide (q1 = p)) as [->|N1], (decide (q2 = p)) as [->|N2]; [done|..].
  - apply Hnew in H1 as ->. by destruct (Hk q2); apply Hold.
  - apply Hnew in H2 as ->. by destruct (Hk q1); apply Hold.
  - by apply (Hinj k'); apply Hold.
Qed.

Lemma tbl_is_new heap p e t (P : positive -> Prop) :
  heap !! p = None -> tbl_is heap t P -> tbl_is (<[p := e]> heap) t (fun q => P q /\ q <> p).
Proof.
  intros Hp. apply tbl_is_ext. intros k q. unfold keyed. destruct (decide (q = p)) as [->|Hne].
  - rewrite Hp. naive_solver.
  - rewrite lookup_insert_ne by done. naive_solver.
Qed.

(** *** Reorganisations *)

Definition headers heap : gmap positive btc_block_header := be_header <$> heap.

Lemma headers_update heap p e f :
  heap !! p = Some e -> keeps_header f -> headers (<[p := f e]> heap) = headers heap.
Proof.
  intros He Hf. unfold headers. rewrite fmap_insert, Hf. apply insert_id. by rewrite lookup_fmap, He.
Qed.

Lemma keyed_headers heap heap' k p : headers heap = headers heap' -> keyed heap k p -> keyed heap' k p.
Proof.
  unfold headers, keyed. intros E (e & He & <-).
  assert (Hp : (be_header <$> heap') !! p = Some (be_header e)) by (rewrite <- E, lookup_fmap, He; done).
  rewrite lookup_fmap in Hp. destruct (heap' !! p) as [e'|]; [|done]. injection Hp as <-. by exists e'.
Qed.

Lemma size_headers heap heap' : headers heap = headers heap' -> size heap = size heap'.
Proof. unfold headers. intros E. by rewrite <- (map_size_fmap be_header heap), E, map_size_fmap. Qed.

(** [next] leads through [r] and ends. *)
Definition nexts heap (r : list positive) : Prop :=
  forall i p, r !! i = Some p -> exists e, heap !! p = Some e /\ be_next e = r !! S i.

Lemma orphan_loop_ok r : forall c bs fuel,
  tables_ok bs (c ++ r) -> NoDup (c ++ r) -> nexts (bs_heap bs) r -> (length r < fuel)%nat ->
  exists bs', orphan_loop fuel (head r) bs = Ok (tt, bs') /\ same_rest bs bs' /\ tables_ok bs' c /\
    (forall p, p ∉ r -> bs_heap bs' !! p = bs_heap bs !! p) /\ headers (bs_heap bs) = headers (bs_heap bs').
Proof.
  induction r as [|p r IH]; intros c bs [|fuel] [Hix Hh] Hnd Hr Hf; [cbn in Hf; lia| |cbn in Hf; lia|].
  - rewrite app_nil_r in *. by exists bs; destruct bs.
  - cbn [orphan_loop head]. destruct (Hr 0%nat p eq_refl) as (e & He & Hn).
    assert (Hp : p ∉ c ++ r) by (rewrite <- Permutation_middle in Hnd; by apply NoDup_cons in Hnd as [? _]).
    erewrite st_bind_Ok; [|by apply load_ok]. cbv zeta.
    destruct (blk_to_orphan bs (c ++ p :: r) (c ++ r) p e (e ← load p; orphan_loop fuel (be_next e)) Hix)
      as (bs1 & Hr1 & Hp1 & Hix1 & ->); [set_solver|done|set_solver|].
    assert (He1 : bs_heap bs1 !! p = Some (set_height (-1) e)) by by rewrite Hp1, lookup_insert_eq.
    assert (Hne : forall q, q <> p -> bs_heap bs1 !! q = bs_heap bs !! q) by (intros q ?; by rewrite Hp1, lookup_insert_ne).
    erewrite st_bind_Ok; [|by apply load_ok].
    replace (be_next (set_height (-1) e)) with (head r) by (cbn; rewrite Hn; by destruct r).
    destruct (IH c bs1 fuel) as (bs' & E & Hr' & Ht' & Hs' & Hd').
    + split; [done|]. intros q e' Hq Hqc. destruct (decide (q = p)) as [->|Hqp]; [by rewrite He1 in Hq; injection Hq as <-|].
      rewrite Hne in Hq by done. apply (Hh q e' Hq). set_solver.
    + rewrite <- Permutation_middle in Hnd. by apply NoDup_cons in Hnd as [_ ?].
    + intros i q Hq. rewrite Hne by (intros ->; apply Hp, elem_of_app; right; by eapply list_elem_of_lookup_2).
      by apply (Hr (S i) q).
    + cbn in Hf. lia.
    + exists bs'. split_and!; [done|by apply (same_rest_trans bs bs1)|done| |].
      * intros q Hq. rewrite Hs', Hne by set_solver. done.
      * by rewrite <- Hd', Hp1, (headers_update _ p e).
Qed.

(** The parents of [p]: the orphans [l] lead to the block at place [i] of the
    chain [c], [Some i], or end with one whose parent is not known, [None]. *)
Inductive path heap c : positive -> list positive -> option nat -> Prop :=
| path_here p i : c !! i = Some p -> path heap c p [] (Some i)
| path_lost p e : p ∉ c -> heap !! p = Some e -> (forall q, ~ keyed heap (bh_prevBlock (be_header e)) q) ->
    path heap c p [p] None
| path_up p e q l o : p ∉ c -> heap !! p = Some e -> keyed heap (bh_prevBlock (be_header e)) q ->
    path heap c q l o -> path heap c p (p :: l) o.

Lemma path_headers heap heap' c p l o :
  headers heap = headers heap' -> path heap c p l o -> path heap' c p l o.
Proof.
  intros Hd. assert (Hl : forall p e, heap !! p = Some e -> exists e', heap' !! p = Some e' /\ be_header e' = be_header e).
  { intros q e He. destruct (keyed_headers _ _ (header_hash (be_header e)) q Hd) as (e' & He' & _); [by exists e|].
    exists e'. split; [done|]. assert (E : headers heap !! q = headers heap' !! q) by by rewrite Hd.
    unfold headers in E. rewrite !lookup_fmap, He, He' in E. by injection E. }
  induction 1 as [p i Hi|p e Hp He Hq|p e q l o Hp He Hq Hl' IH]; [by constructor|..];
    destruct (Hl p e He) as (e' & He' & Eh).
  - apply (path_lost _ _ p e'); [done..|]. intros q Hk. apply (Hq q). rewrite <- Eh.
    by apply (keyed_headers heap').
  - apply (path_up _ _ p e' q); [done..| |done]. rewrite Eh. by apply (keyed_headers heap).
Qed.

(** A block does not descend from itself: the parents have a lower rank. *)
Definition ranked (rank : uint256 -> nat) (h : btc_block_header) : Prop :=
  (rank (bh_prevBlock h) < rank (header_hash h))%nat.

Definition heap_ranked rank heap : Prop := forall p e, heap !! p = Some e -> ranked rank (be_header e).

#[export] Instance keyed_dec heap k : Decision (exists q, keyed heap k q).
Proof.
  refine (cast_if (decide (map_Exists (fun (_ : positive) e => header_hash (be_header e) = k) heap)));
    by rewrite map_Exists_lookup in *.
Defined.

Lemma ancestors rank heap c p e :
  heap_ranked rank heap -> heap !! p = Some e -> exists l o, path heap c p l o.
Proof.
  intros Hrank. remember (rank (header_hash (be_header e))) as n eqn:Hn. revert p e Hn.
  induction n as [n IH] using lt_wf_ind. intros p e -> He.
  destruct (decide (p ∈ c)) as [[i Hi]%list_elem_of_lookup_1|Hp]; [exists [], (Some i); by constructor|].
  destruct (decide (exists q, keyed heap (bh_prevBlock (be_header e)) q)) as [[q Hq]|Hno].
  - pose proof Hq as (e' & He' & Eq).
    assert (Hlt : (rank (header_hash (be_header e')) < rank (header_hash (be_header e)))%nat)
      by (rewrite Eq; by apply (Hrank p e)).
    destruct (IH _ Hlt q e' eq_refl He') as (l & o & Hl). exists (p :: l), o. by apply (path_up _ _ p e q).
  - exists [p], None. apply (path_lost _ _ p e); [done..|]. intros q Hq. apply Hno. by exists q.
Qed.

Definition entry_rank (rank : uint256 -> nat) heap (p : positive) : nat :=
  match heap !! p with Some e => rank (header_hash (be_header e)) | None => 0%nat end.

(** The path has no cycle and fits in the heap. *)
Lemma path_orphans rank heap c p l o :
  heap_ranked rank heap -> path heap c p l o ->
  NoDup l /\ forall x, x ∈ l -> x ∉ c /\ is_Some (heap !! x) /\ (entry_rank rank heap x <= entry_rank rank heap p)%nat.
Proof.
  intros Hrank. induction 1 as [p i Hi|p e Hp He Hq|p e q l o Hp He Hq Hl [Hnd IH]].
  - split; [constructor|]. set_solver.
  - split; [by apply NoDup_singleton|]. intros x ->%list_elem_of_singleton. by rewrite He.
  - assert (Hlt : (entry_rank rank heap q < entry_rank rank heap p)%nat).
    { destruct Hq as (e' & He' & E). unfold entry_rank. rewrite He, He', E. by apply (Hrank p e). }
    split.
    + constructor; [|done]. intros Hin. apply IH in Hin as (_ & _ & Hle). lia.
    + intros x [-> | Hx]%elem_of_cons; [by rewrite He|]. destruct (IH x Hx) as (? & ? & ?). split_and!; [done..|lia].
Qed.

Lemma path_length rank heap c p l o : heap_ranked rank heap -> path heap c p l o -> (length l <= size heap)%nat.
Proof.
  intros Hrank Hl. destruct (path_orphans _ _ _ _ _ _ Hrank Hl) as [Hnd Hin].
  rewrite <- (size_list_to_set (C := gset positive) l Hnd), <- (size_dom (D := gset positive) heap).
  apply subseteq_size. intros x Hx%elem_of_list_to_set. apply elem_of_dom. by apply Hin.
Qed.

(** *** The height of an alternate chain *)

Lemma find_alternate_ok bs c p l o : forall fuel,
  tables_ok bs c -> chain_ok (bs_heap bs) c -> path (bs_heap bs) c p l o -> (length l < fuel)%nat ->
  blockstore_find_alternate_chain_height fuel bs p =
    match o with
    | None => Ok (Zlen l - 1)
    | Some O => Fault Panic
    | Some i => Ok (Z.of_nat i + Zlen l)
    end.
Proof.
  intros fuel [Hix Hh] [_ Hc] Hl. revert fuel.
  induction Hl as [p i Hi|p e Hp He Hq|p e q l o Hp He Hq Hl IH]; intros [|fuel] Hf; try (cbn in Hf; lia);
    cbn [blockstore_find_alternate_chain_height].
  - destruct (Hc i p Hi) as (e & He & Hhe & _). rewrite (deref_ok _ _ _ He), bind_ok, Hhe.
    destruct i as [|i]; [done|]. rewrite ltb_t by lia. done.
  - rewrite (deref_ok _ _ _ He), bind_ok, (Hh p e He Hp). cbn.
    destruct (blockstore_lookup_ok bs c (bh_prevBlock (be_header e)) Hix) as ([q|] & -> & Hk); [|done].
    by destruct (Hq q), (Hk q) as [? _]; auto.
  - rewrite (deref_ok _ _ _ He), bind_ok, (Hh p e He Hp). cbn -[blockstore_lookup].
    destruct (blockstore_lookup_ok bs c (bh_prevBlock (be_header e)) Hix) as (o' & -> & Hk).
    apply Hk in Hq as ->. rewrite bind_ok, IH by (cbn in Hf; lia).
    destruct o as [[|i]|]; [done|..]; rewrite bind_ok; apply f_equal; zlia.
Qed.

(** *** Linking *)

(** The entries [q] and [p] once [p] follows [q] at height [h]. *)
Definition linked heap (h : Z) (q p : positive) (eq ep : blockentry) : gmap positive blockentry :=
  <[p := set_prev (Some q) (set_height h ep)]> (<[q := set_next (Some p) eq]> heap).

Lemma linked_ok {A : Type} bs h q p eq ep (K : ST blockstore A) :
  p <> q -> bs_heap bs !! q = Some eq -> bs_heap bs !! p = Some ep ->
  (_ ← update p (set_height h); _ ← update q (set_next (Some p)); _ ← update p (set_prev (Some q)); K) bs =
  K (with_heap (linked (bs_heap bs) h q p eq ep) bs).
Proof.
  intros Hne Hq Hp. erewrite st_bind_Ok; [|by apply update_ok].
  erewrite st_bind_Ok; [|apply update_ok; cbn; by rewrite lookup_insert_ne].
  erewrite st_bind_Ok; [|apply update_ok; cbn; rewrite lookup_insert_ne by done; apply lookup_insert_eq].
  cbn. unfold linked, with_heap. cbn.
  by rewrite (insert_insert_ne _ q p), insert_insert_eq by done.
Qed.

Lemma linked_lookup heap h q p eq ep x :
  p <> q -> linked heap h q p eq ep !! x =
    if decide (x = p) then Some (set_prev (Some q) (set_height h ep))
    else if decide (x = q) then Some (set_next (Some p) eq) else heap !! x.
Proof.
  intros Hne. unfold linked. destruct (decide (x = p)) as [->|Hp]; [apply lookup_insert_eq|].
  rewrite lookup_insert_ne by done. destruct (decide (x = q)) as [->|Hq]; [apply lookup_insert_eq|].
  by rewrite lookup_insert_ne.
Qed.

Lemma linked_headers heap h q p eq ep :
  p <> q -> heap !! q = Some eq -> heap !! p = Some ep -> headers (linked heap h q p eq ep) = headers heap.
Proof.
  intros Hne Hq Hp. unfold linked.
  rewrite (headers_update _ p ep (fun e => set_prev (Some q) (set_height h e))); [|by rewrite lookup_insert_ne|done].
  by apply (headers_update _ q eq).
Qed.

Lemma linked_index bs B h q p eq ep :
  p <> q -> bs_heap bs !! q = Some eq -> bs_heap bs !! p = Some ep -> index_ok bs B ->
  index_ok (with_heap (linked (bs_heap bs) h q p eq ep) bs) B.
Proof.
  intros Hne Hq Hp Hix.
  pose proof (index_ok_update bs B q eq (set_next (Some p)) Hq (fun _ => eq_refl) Hix) as H1.
  apply (index_ok_update _ B p ep (fun e => set_prev (Some q) (set_height h e))) in H1;
    [exact H1|cbn; by rewrite lookup_insert_ne|done].
Qed.

Lemma keyed_same heap heap' k p : heap' !! p = heap !! p -> keyed heap k p -> keyed heap' k p.
Proof. unfold keyed. by intros ->. Qed.

Lemma chain_ok_prefix heap heap' c r :
  chain_ok heap (c ++ r) -> (forall p, p ∈ c -> heap' !! p = heap !! p) -> chain_ok heap' c.
Proof.
  intros [Hnd Hc] Hs. apply NoDup_app in Hnd as (Hnd & Hdis & _). split; [done|]. intros i p Hi.
  destruct (Hc i p (lookup_app_l_Some _ _ _ _ Hi)) as (e & He & Hh & Hn & Hp).
  exists e. rewrite Hs by (by eapply list_elem_of_lookup_2). split_and!; [done|done| |].
  - intros q Hq. by apply Hn, lookup_app_l_Some.
  - pose proof (lookup_lt_Some _ _ _ Hi) as Hl. destruct i as [|j]; [done|].
    rewrite lookup_app_l in Hp by lia. destruct Hp as [Hpr (q & Hq & Hk)].
    split; [done|]. exists q. split; [done|]. apply (keyed_same heap); [|done].
    by eapply Hs, list_elem_of_lookup_2.
Qed.

Lemma chain_ok_same heap heap' c :
  chain_ok heap c -> (forall p, p ∈ c -> heap' !! p = heap !! p) -> chain_ok heap' c.
Proof. intros Hc. apply (chain_ok_prefix heap heap' c []). by rewrite app_nil_r. Qed.

(** A block that follows the last one. *)
Lemma chain_ok_snoc heap c q p eq ep :
  chain_ok heap c -> last c = Some q -> p ∉ c -> heap !! q = Some eq -> heap !! p = Some ep ->
  keyed heap (bh_prevBlock (be_header ep)) q ->
  chain_ok (linked heap (Zlen c) q p eq ep) (c ++ [p]).
Proof.
  intros [Hnd Hc] Hlast Hp Heq Hep Hk. apply last_Some in Hlast as [c0 ->].
  assert (Hne : p <> q) by set_solver.
  assert (Hd : headers heap = headers (linked heap (Zlen (c0 ++ [q])) q p eq ep)) by (symmetry; by apply linked_headers).
  split; [apply NoDup_app; split_and!; [done|set_solver|apply NoDup_singleton]|]. intros i x Hx.
  apply lookup_snoc_Some in Hx as [[Hi Hx]|[-> <-]].
  - assert (Hxp : x <> p) by (intros ->; by apply Hp; eapply list_elem_of_lookup_2).
    destruct (Hc i x Hx) as (e & He & Hh & Hn & Hpr).
    assert (Hpr' : match i with O => be_prev e = None | S j => be_prev e = ((c0 ++ [q]) ++ [p]) !! j /\
        exists y, ((c0 ++ [q]) ++ [p]) !! j = Some y /\
          keyed (linked heap (Zlen (c0 ++ [q])) q p eq ep) (bh_prevBlock (be_header e)) y end).
    { destruct i as [|j]; [done|]. rewrite lookup_app_l by lia. destruct Hpr as [? (y & Hy & Hky)].
      split; [done|]. exists y. split; [done|]. by apply (keyed_headers heap). }
    unfold link_ok. setoid_rewrite linked_lookup; [|done]. rewrite decide_False by done.
    destruct (decide (x = q)) as [->|Hxq].
    + assert (e = eq) as -> by congruence. eexists. split_and!; [done|done| |done].
      assert (S i = length (c0 ++ [q])) as ->; [|by intros y; rewrite list_lookup_middle by done; intros [= <-]].
      assert (Hm : (c0 ++ [q]) !! length c0 = Some q) by by apply list_lookup_middle.
      rewrite (NoDup_lookup _ _ _ _ Hnd Hx Hm), length_app. cbn. lia.
    + eexists. split_and!; [done|done| |done]. intros y Hy. apply Hn.
      apply lookup_snoc_Some in Hy as [[_ ?]|[Hl _]]; [done|]. destruct Hxq.
      rewrite length_app in Hl. cbn in Hl. assert (i = length c0) as -> by lia.
      rewrite list_lookup_middle in Hx by done. by injection Hx.
  - unfold link_ok. rewrite linked_lookup by done. rewrite decide_True by done.
    eexists. split_and!; [done|done| |].
    + intros y Hy. apply lookup_lt_Some in Hy. rewrite !length_app in Hy. cbn in Hy. lia.
    + rewrite length_app, Nat.add_1_r. cbn [set_prev set_height be_prev be_header].
      assert (((c0 ++ [q]) ++ [p]) !! length c0 = Some q) as ->.
      { rewrite <- app_assoc. by apply list_lookup_middle. }
      split; [done|]. exists q. split; [done|]. by apply (keyed_headers heap).
Qed.

Lemma chain_nexts heap c i : chain_ok heap c -> tip_ok heap c -> nexts heap (drop i c).
Proof.
  intros [_ Hc] Htip j p Hj. rewrite lookup_drop in Hj. destruct (Hc _ p Hj) as (e & He & _ & Hn & _).
  exists e. split; [done|]. rewrite lookup_drop, Nat.add_succ_r.
  destruct (c !! S (i + j)) as [q|] eqn:Hq; [by apply Hn|]. apply (Htip p); [|done].
  rewrite last_lookup. apply lookup_ge_None in Hq. pose proof (lookup_lt_Some _ _ _ Hj).
  by assert (pred (length c) = i + j)%nat as -> by lia.
Qed.

(** The junction: what follows the block [i] leaves the chain. *)
Lemma junction_ok bs c i p e :
  tables_ok bs c -> chain_ok (bs_heap bs) c -> tip_ok (bs_heap bs) c -> c !! i = Some p ->
  bs_heap bs !! p = Some e ->
  exists bs', orphan_loop (S (size (bs_heap bs))) (be_next e) bs = Ok (tt, bs') /\ same_rest bs bs' /\
    tables_ok bs' (take (S i) c) /\ chain_ok (bs_heap bs') (take (S i) c) /\
    (forall x, x ∉ c -> bs_heap bs' !! x = bs_heap bs !! x) /\ bs_heap bs' !! p = Some e /\
    headers (bs_heap bs) = headers (bs_heap bs').
Proof.
  intros Ht Hch Htip Hi He. pose proof (chain_nexts _ _ i Hch Htip) as Hn.
  rewrite <- (take_drop (S i) c) in Ht, Hch. pose proof (proj1 Hch) as Hnd.
  assert (Hp : p ∉ drop (S i) c).
  { intros Hp. apply NoDup_app in Hnd as (_ & Hdis & _). apply (Hdis p); [|done].
    apply list_elem_of_lookup. exists i. by rewrite lookup_take_lt by lia. }
  destruct (orphan_loop_ok (drop (S i) c) (take (S i) c) bs (S (size (bs_heap bs)))) as (bs' & E & Hr & Ht' & Hs & Hd).
  - done.
  - done.
  - intros j x Hj. rewrite lookup_drop in Hj. destruct (Hn (S j) x) as (e' & He' & En);
      [rewrite lookup_drop; by rewrite Nat.add_succ_r|].
    exists e'. split; [done|]. rewrite En, !lookup_drop. f_equal. lia.
  - apply NoDup_app in Hnd as (_ & _ & Hnd). apply le_n_S. destruct Ht as [(_ & Hin & _) _].
    rewrite <- (size_list_to_set (C := gset positive) _ Hnd), <- (size_dom (D := gset positive)).
    apply subseteq_size. intros x Hx%elem_of_list_to_set. apply elem_of_dom, Hin, elem_of_app. by right.
  - exists bs'. destruct (Hn 0%nat p) as (e' & He' & En); [by rewrite lookup_drop, Nat.add_0_r|].
    assert (e' = e) as -> by congruence.
    assert (be_next e = head (drop (S i) c)) as ->.
    { rewrite En, head_lookup, !lookup_drop. f_equal. lia. }
    split_and!; [done..| | | |done].
    + apply (chain_ok_prefix (bs_heap bs) _ _ (drop (S i) c)); [done|]. intros x Hx. apply Hs.
      apply NoDup_app in Hnd as (_ & Hdis & _). by apply Hdis.
    + intros x Hx. apply Hs. intros Hx'. apply Hx. rewrite <- (take_drop (S i) c). set_solver.
    + by rewrite Hs.
Qed.

Lemma elem_of_rev {A : Type} (x : A) l : x ∈ rev l <-> x ∈ l.
Proof. by rewrite !list_elem_of_In, <- in_rev. Qed.

Lemma path_place heap c p l i : path heap c p l (Some i) -> (i < length c)%nat.
Proof.
  remember (Some i) as o. induction 1 as [p j Hj| |]; simplify_eq; [by apply lookup_lt_Some in Hj|auto].
Qed.

(** The chain through the path [l] from the block [i] of [c]. *)
Lemma path_chain_length heap c p l i :
  path heap c p l (Some i) -> Zlen (take (S i) c ++ rev l) = 1 + (Z.of_nat i + Zlen l).
Proof.
  intros Hi%path_place. unfold Zlen. rewrite length_app, length_rev, length_take. lia.
Qed.

(** The end of [blockstore_set_chain_links]: the orphan [p] follows the last
    block [q]. *)
Lemma link_block {A : Type} bs c q p e (K : ST blockstore A) :
  tables_ok bs c -> chain_ok (bs_heap bs) c -> last c = Some q -> p ∉ c -> bs_heap bs !! p = Some e ->
  keyed (bs_heap bs) (bh_prevBlock (be_header e)) q ->
  exists bs', 
    (_ ← update p (set_height (Zlen c));
     _ ← update q (set_next (Some p));
     _ ← update p (set_prev (Some q));
     s ← remove_orphan (header_hash (be_header e));
     _ ← lift (ASSERT s);
     s ← insert_blk (header_hash (be_header e)) p;
     _ ← lift (ASSERT s); K) bs = K bs' /\ same_rest bs bs' /\
    tables_ok bs' (c ++ [p]) /\ chain_ok (bs_heap bs') (c ++ [p]) /\
    (forall x, x ∉ c ++ [p] -> bs_heap bs' !! x = bs_heap bs !! x) /\
    bs_heap bs' !! p = Some (set_prev (Some q) (set_height (Zlen c) e)) /\
    headers (bs_heap bs) = headers (bs_heap bs').
Proof.
  intros [Hix Hh] Hch Hlast Hp He Hk.
  assert (Hqc : q ∈ c) by (apply last_Some in Hlast as [c0 ->]; set_solver).
  assert (Hne : p <> q) by (by intros ->).
  destruct (proj1 (proj2 Hix) q Hqc) as [eq Heq].
  rewrite (linked_ok bs (Zlen c) q p eq e) by done.
  set (bs1 := with_heap (linked (bs_heap bs) (Zlen c) q p eq e) bs).
  assert (Hd : headers (bs_heap bs) = headers (bs_heap bs1)) by (symmetry; by apply linked_headers).
  destruct (orphan_to_blk bs1 c p (header_hash (be_header e)) K) as (bs' & Hr & Hheap & Hix' & ->);
    [by apply linked_index|done|apply (keyed_headers (bs_heap bs)); [done|by exists e]|].
  exists bs'. rewrite Hheap. split_and!; [done|by apply (same_rest_trans bs bs1)| | | | |done].
  - split; [done|]. rewrite Hheap. intros x ex Hx Hxc. cbn in Hx. rewrite linked_lookup in Hx by done.
    rewrite !decide_False in Hx by set_solver. apply (Hh x ex Hx). set_solver.
  - by apply chain_ok_snoc.
  - intros x Hx. cbn. rewrite linked_lookup by done. by rewrite !decide_False by set_solver.
  - cbn. rewrite linked_lookup by done. by rewrite decide_True by done.
Qed.

Lemma set_chain_links_ok rank bs c p l i : forall fuel,
  heap_ranked rank (bs_heap bs) -> tables_ok bs c -> chain_ok (bs_heap bs) c -> tip_ok (bs_heap bs) c ->
  path (bs_heap bs) c p l (Some i) -> (length l < fuel)%nat ->
  exists bs', blockstore_set_chain_links fuel p bs = Ok (Z.of_nat i + Zlen l, bs') /\ same_rest bs bs' /\
    tables_ok bs' (take (S i) c ++ rev l) /\ chain_ok (bs_heap bs') (take (S i) c ++ rev l) /\
    last (take (S i) c ++ rev l) = Some p /\
    (forall x, x ∉ c -> x ∉ l -> bs_heap bs' !! x = bs_heap bs !! x) /\
    (forall e, p ∉ c -> bs_heap bs !! p = Some e -> exists e', bs_heap bs' !! p = Some e' /\ be_next e' = be_next e) /\
    headers (bs_heap bs) = headers (bs_heap bs').
Proof.
  intros fuel Hrank Ht Hch Htip Hl. revert fuel. remember (Some i) as o eqn:Ho.
  induction Hl as [p i' Hi|p e Hp He Hq|p e q l o Hp He Hq Hl IH]; intros [|fuel] Hf; try (cbn in Hf; lia);
    [injection Ho as ->|done|]; cbn [blockstore_set_chain_links].
  - destruct (proj2 Hch i p Hi) as (e & He & Hhe & _). erewrite st_bind_Ok; [|by apply load_ok].
    cbv zeta. rewrite leb_t by lia. erewrite st_bind_Ok; [|reflexivity].
    destruct (junction_ok bs c i p e Ht Hch Htip Hi He) as (bs' & E & Hr & Ht' & Hc' & Hs & Hp' & Hd).
    erewrite st_bind_Ok; [|exact E]. erewrite st_bind_Ok; [|by apply load_ok].
    exists bs'. rewrite app_nil_r. split_and!; try done.
    + rewrite Hhe. cbn. by rewrite Zlen_nil, Z.add_0_r.
    + rewrite (take_S_r _ _ _ Hi). apply last_snoc.
    + intros x Hx _. by apply Hs.
    + intros e' Hpc. destruct Hpc. by eapply list_elem_of_lookup_2.
  - subst o. destruct (IH eq_refl fuel) as (bs1 & E & Hr & Ht1 & Hc1 & Hlast & Hs & _ & Hd); [cbn in Hf; lia|].
    destruct (path_orphans rank _ c p (p :: l) (Some i) Hrank) as [Hnd Hpl]; [by apply (path_up _ _ p e q)|].
    apply NoDup_cons in Hnd as [Hpn _]. set (c1 := take (S i) c ++ rev l) in *.
    assert (Hsub : forall x, x ∈ c1 -> x ∈ c \/ x ∈ l).
    { intros x [Hx | Hx]%elem_of_app; [left|right; by apply (proj1 (elem_of_rev _ _)) in Hx].
      by apply elem_of_take in Hx as (j & Hj%list_elem_of_lookup_2 & _). }
    assert (Hp1 : p ∉ c1) by (by intros [?|?]%Hsub).
    assert (He1 : bs_heap bs1 !! p = Some e) by (by rewrite Hs).
    erewrite st_bind_Ok; [|by apply load_ok]. cbv zeta. rewrite (proj2 Ht p e He Hp).
    change (0 <=? -1) with false. cbv iota.
    erewrite st_bind_Ok; [|reflexivity]. erewrite st_bind_Ok; [|reflexivity].
    destruct (blockstore_lookup_ok bs c (bh_prevBlock (be_header e)) (proj1 Ht)) as (o' & Eo & Hk).
    pose proof (proj2 (Hk q) Hq) as ->. erewrite st_bind_Ok; [|unfold lift; by rewrite Eo]. cbv iota.
    erewrite st_bind_Ok; [|exact E]. rewrite <- (path_chain_length _ _ _ _ _ Hl). fold c1.
    destruct (link_block bs1 c1 q p e (e ← load p; mret (be_height e)) Ht1 Hc1 Hlast Hp1 He1)
      as (bs2 & -> & Hr2 & Ht2 & Hc2 & Hs2 & Hp2 & Hd2); [by apply (keyed_headers (bs_heap bs))|].
    exists bs2. 
    cbn [rev]. rewrite app_assoc. fold c1. split_and!; try done.
    + erewrite st_bind_Ok; [|by apply load_ok]. cbn [be_height set_prev set_height]. unfold mret, st_ret, c1.
      rewrite (path_chain_length _ _ _ _ _ Hl), Zlen_cons. do 2 f_equal. lia.
    + by apply (same_rest_trans bs bs1).
    + apply last_snoc.
    + intros x Hx Hxl. rewrite Hs2 by (intros [[?|?]%Hsub|?]%elem_of_app; set_solver). apply Hs; set_solver.
    + intros e' _ He'. assert (e' = e) as -> by congruence. by eexists.
    + by rewrite Hd.
Qed.
End wf.
