(* ===== verification/BlockChain.v ===== *)
(** * The best chain of the block store

    What [blockstore_add_header] does to the store: the chain it selects, the
    reorganisations, the orphans, and the inputs on which it stops the
    process. *)
From S2P Require Export BlockStore.

Section chain.
Context `{Sha256} `{T : Table positive}.
Implicit Types bs : blockstore.
Implicit Types heap : gmap positive blockentry.
Implicit Types c l : list positive.

(** ** A new entry *)

(** The entry [p] is in neither table. *)
Definition pending bs c (p : positive) : Prop :=
  heap_ok (bs_heap bs) /\ (forall q, q ∈ c -> is_Some (bs_heap bs !! q)) /\
  tbl_is (bs_heap bs) (bs_hash_blk bs) (fun q => q ∈ c) /\
  tbl_is (bs_heap bs) (bs_hash_orphans bs) (fun q => q ∉ c /\ q <> p) /\ p ∉ c.

Lemma pending_update bs c p e f :
  bs_heap bs !! p = Some e -> keeps_header f -> pending bs c p ->
  pending (with_heap (<[p := f e]> (bs_heap bs)) bs) c p.
Proof.
  intros He Hf (Hok & Hin & Hb & Ho & Hp).
  split_and!; [by apply heap_ok_update| |by apply tbl_is_update|by apply tbl_is_update|done].
  intros q Hq. cbn. rewrite lookup_insert_ne by (by intros ->). by apply Hin.
Qed.

Lemma insert_blk_pending bs c p k :
  pending bs c p -> keyed (bs_heap bs) k p ->
  exists bs', insert_blk k p bs = Ok (true, bs') /\ same_rest bs bs' /\ bs_heap bs' = bs_heap bs /\
    index_ok bs' (c ++ [p]).
Proof.
  intros (Hok & Hin & Hb & Ho & Hp) Hk. unfold insert_blk.
  destruct (tbl_is_insert _ _ _ _ p Hok Hb Hp Hk) as (t & -> & Ht).
  exists (with_blk t bs). split_and!; [done..|]. split_and!; cbn; [done| | |].
  - intros q [Hq | ->%list_elem_of_singleton]%elem_of_app; [by apply Hin|]. by destruct Hk as (e & -> & _).
  - revert Ht. apply tbl_is_ext. intros k' q. by rewrite elem_of_app, list_elem_of_singleton.
  - revert Ho. apply tbl_is_ext. intros k' q. rewrite elem_of_app, list_elem_of_singleton. naive_solver.
Qed.

Lemma insert_orphan_pending bs c p k :
  pending bs c p -> keyed (bs_heap bs) k p ->
  exists bs', insert_orphan k p bs = Ok (true, bs') /\ same_rest bs bs' /\ bs_heap bs' = bs_heap bs /\
    index_ok bs' c.
Proof.
  intros (Hok & Hin & Hb & Ho & Hp) Hk. unfold insert_orphan.
  destruct (tbl_is_insert _ _ _ _ p Hok Ho (fun H => proj2 H eq_refl) Hk) as (t & -> & Ht).
  exists (with_orphans t bs). split_and!; [done..|]. split_and!; cbn; [done|done|done|].
  revert Ht. apply tbl_is_ext. intros k' q. destruct (decide (q = p)); naive_solver.
Qed.

(** ** The chain selected *)

(** The chain once the entry [p] is added to the chain [c], where [path p l o]:
    [None] when an assertion fails, for a fork of the genesis block and for
    orphans that are more than the blocks of the chain. *)
Definition new_chain c (p : positive) l (o : option nat) : option (list positive) :=
  if decide (l = [p] /\ o = Some (pred (length c))) then Some (c ++ [p]) else
  match o with
  | Some O => None
  | Some i => Some (if Z.of_nat i + Zlen l <=? Zlen c - 1 then c else take (S i) c ++ rev l)
  | None => if Zlen l <=? Zlen c then Some c else None
  end.

(** No junction: the assertion of [blockstore_set_chain_links] fails. *)
Lemma set_chain_links_lost bs c p l : forall fuel,
  tables_ok bs c -> path (bs_heap bs) c p l None -> (length l < fuel)%nat ->
  blockstore_set_chain_links fuel p bs = Fault Panic.
Proof.
  intros fuel [Hix Hh] Hl. revert fuel. remember None as o eqn:Ho.
  induction Hl as [p i Hi|p e Hp He Hq|p e q l o Hp He Hq Hl IH]; intros [|fuel] Hf; try (cbn in Hf; lia);
    [done|..]; cbn [blockstore_set_chain_links]; (erewrite st_bind_Ok; [|by apply load_ok]); cbv zeta;
    rewrite (Hh p e He Hp); change (0 <=? -1) with false; cbv iota;
    (erewrite st_bind_Ok; [|reflexivity]); (erewrite st_bind_Ok; [|reflexivity]);
    destruct (blockstore_lookup_ok bs c (bh_prevBlock (be_header e)) Hix) as (o' & Eo & Hk);
    (erewrite st_bind_Ok; [|unfold lift; rewrite Eo; reflexivity]).
  - destruct o' as [q|]; [|done]. by destruct (Hq q), (Hk q) as [? _]; auto.
  - rewrite (proj2 (Hk q) Hq). unfold mbind, st_bind. by rewrite IH by (done || (cbn in Hf; lia)).
Qed.

(** What no header changes. *)
Definition same_env bs bs' : Prop :=
  bs_desc bs' = bs_desc bs /\ bs_filesize bs' = bs_filesize bs /\
  bs_genesis_hash bs' = bs_genesis_hash bs /\ bs_cpt bs' = bs_cpt bs.

Lemma same_rest_env bs bs' : same_rest bs bs' -> same_env bs bs'.
Proof. intros ->. done. Qed.

Lemma chain_height bs c i p :
  chain_ok (bs_heap bs) c -> c !! i = Some p -> exists e, bs_heap bs !! p = Some e /\ be_height e = Z.of_nat i.
Proof. intros [_ Hc] Hi. destruct (Hc i p Hi) as (e & ? & ? & _). by exists e. Qed.

(** The tip of a chain that ends at the new entry. *)
Lemma bs_wf_tip bs c p k e :
  tables_ok bs c -> chain_ok (bs_heap bs) c -> last c = Some p -> bs_heap bs !! p = Some e ->
  be_next e = None -> keyed (bs_heap bs) k p -> bs_genesis bs = head c ->
  (forall q, head c = Some q -> keyed (bs_heap bs) (bs_genesis_hash bs) q) ->
  bs_wf (with_best p (Zlen c - 1) k bs) c.
Proof.
  intros Ht Hc Hl He Hn Hk Hg Hgk. split_and!; try done.
  - intros q e' Hq Hq'. cbn in Hq'. congruence.
  - intros q Hq. cbn. congruence.
Qed.

Lemma set_best_chain_ok rank bs c p l o k e :
  bs_wf bs c -> heap_ranked rank (bs_heap bs) -> path (bs_heap bs) c p l o -> p ∉ c ->
  bs_heap bs !! p = Some e -> be_next e = None -> keyed (bs_heap bs) k p ->
  ~ (l = [p] /\ o = Some (pred (length c))) ->
  match new_chain c p l o with
  | Some c' => exists bs', blockstore_set_best_chain p k bs = Ok (tt, bs') /\ bs_wf bs' c' /\ same_env bs bs' /\
      headers (bs_heap bs') = headers (bs_heap bs) /\ (p ∈ c' <-> c' <> c)
  | None => blockstore_set_best_chain p k bs = Fault Panic
  end.
Proof.
  intros Hwf Hrank Hl Hp He Hn Hk Hnot. pose proof Hwf as (Ht & Hc & Htip & Hb & Hg & Hh & Hlast & Hhead).
  unfold new_chain. rewrite decide_False by done.
  pose proof (path_length rank _ _ _ _ _ Hrank Hl) as Hlen.
  unfold blockstore_set_best_chain. erewrite st_bind_Ok; [|reflexivity]. cbv zeta.
  pose proof (find_alternate_ok bs c p l o (S (size (bs_heap bs))) Ht Hc Hl ltac:(lia)) as Ea.
  destruct o as [[|i]|].
  - unfold mbind, st_bind, lift. by rewrite Ea.
  - erewrite st_bind_Ok; [|unfold lift; rewrite Ea; reflexivity]. rewrite Hh.
    destruct (Z.leb_spec (Z.of_nat (S i) + Zlen l) (Zlen c - 1)); [exists bs; split_and!; try done; naive_solver|].
    destruct (set_chain_links_ok rank bs c p l (S i) (S (size (bs_heap bs))))
      as (bs1 & E & Hr & Ht1 & Hc1 & Hl1 & Hs1 & Hp1 & Hd1); [done..|lia|].
    erewrite st_bind_Ok; [|exact E]. destruct (Hp1 e Hp He) as (e1 & He1 & Hn1).
    pose proof (path_chain_length _ _ _ _ _ Hl) as Hlc.
    eexists. split; [reflexivity|]. set (c' := take (S (S i)) c ++ rev l) in *.
    replace (Z.of_nat (S i) + Zlen l) with (Zlen c' - 1) by lia.
    assert (Hhd : head c' = head c) by (apply path_place in Hl; by destruct c; [cbn in Hl; lia|]).
    split; [|split; [exact (same_rest_env _ _ Hr)|split; [done|]]].
    + apply (bs_wf_tip _ _ _ _ e1); try done; [by rewrite Hn1|by apply (keyed_headers (bs_heap bs))| |].
      * rewrite Hhd, <- Hg. by rewrite Hr.
      * intros q Hq. rewrite Hhd in Hq. apply (keyed_headers (bs_heap bs)); [done|].
        rewrite (proj1 (proj2 (proj2 (same_rest_env _ _ Hr)))). by apply Hhead.
    + split; [by intros ? ->|]. intros _. apply last_Some in Hl1 as [c0 ->]. set_solver.
  - erewrite st_bind_Ok; [|unfold lift; rewrite Ea; reflexivity]. rewrite Hh.
    replace (Zlen l - 1 <=? Zlen c - 1) with (Zlen l <=? Zlen c) by (destruct (Z.leb_spec (Zlen l) (Zlen c)); lia).
    destruct (Zlen l <=? Zlen c); [exists bs; split_and!; try done; naive_solver|].
    unfold mbind, st_bind. by rewrite (set_chain_links_lost bs c p l) by (done || lia).
Qed.

(** ** Adding a header *)

(** The entry of [blockstore_alloc_entry]. *)
Definition new_entry (hdr : btc_block_header) : blockentry := BlockEntry None None hdr 0 false.

Lemma alloc_pending bs c p hdr :
  bs_wf bs c -> bs_heap bs !! p = None -> (forall q, ~ keyed (bs_heap bs) (header_hash hdr) q) ->
  Z.of_nat (size (bs_heap bs)) < 2 ^ 32 - 2 ->
  pending (with_heap (<[p := new_entry hdr]> (bs_heap bs)) bs) c p.
Proof.
  intros [[(Hok & Hin & Hb & Ho) _] _] Hp Hk Hs.
  assert (Hpc : p ∉ c) by (intros Hq; destruct (Hin p Hq) as [e He]; congruence).
  split_and!; cbn; [by apply (heap_ok_new _ _ (header_hash hdr))| | |by apply tbl_is_new|done].
  - intros q Hq. rewrite lookup_insert_ne by (by intros ->). by apply Hin.
  - apply (tbl_is_new _ p (new_entry hdr)) in Hb; [|done]. revert Hb. apply tbl_is_ext. intros k q. naive_solver.
Qed.

(** The first header is that of the genesis block. *)
Lemma add_entry_genesis bs p hdr :
  bs_wf bs [] -> bs_heap bs !! p = None -> (forall q, ~ keyed (bs_heap bs) (header_hash hdr) q) ->
  Z.of_nat (size (bs_heap bs)) < 2 ^ 32 - 2 -> header_hash hdr = bs_genesis_hash bs ->
  exists bs', blockstore_add_entry p (header_hash hdr) (with_heap (<[p := new_entry hdr]> (bs_heap bs)) bs) = Ok (tt, bs') /\
    bs_wf bs' [p] /\ same_env bs bs' /\ headers (bs_heap bs') = <[p := hdr]> (headers (bs_heap bs)).
Proof.
  intros Hwf Hp Hk Hs Hgen. pose proof (alloc_pending bs [] p hdr Hwf Hp Hk Hs) as Hpend.
  set (bs1 := with_heap (<[p := new_entry hdr]> (bs_heap bs)) bs) in *.
  pose proof Hwf as (Ht & Hc & Htip & Hb & Hg & Hh & Hlast & Hhead).
  assert (He : bs_heap bs1 !! p = Some (new_entry hdr)) by apply lookup_insert_eq.
  destruct (insert_blk_pending bs1 [] p (header_hash hdr) Hpend) as (bs2 & E & Hr & Hheap & Hix);
    [by exists (new_entry hdr)|].
  assert (Hgh : bs_genesis_hash bs2 = bs_genesis_hash bs) by (by rewrite Hr).
  assert (Hhh : bs_height bs2 = -1) by (rewrite Hr; exact Hh).
  unfold blockstore_add_entry. erewrite st_bind_Ok; [|reflexivity].
  replace (bs_best_chain bs1) with (@None positive) by (symmetry; exact Hb). cbv iota.
  erewrite st_bind_Ok; [|exact E]. erewrite st_bind_Ok; [|reflexivity].
  change (bs_genesis_hash bs1) with (bs_genesis_hash bs). rewrite Hgen, uint256_issame_refl.
  erewrite st_bind_Ok; [|reflexivity]. erewrite st_bind_Ok; [|apply load_ok; by rewrite Hheap].
  erewrite st_bind_Ok; [|reflexivity]. replace (bs_height bs1) with (-1) by (symmetry; exact Hh).
  erewrite st_bind_Ok; [|reflexivity]. erewrite st_bind_Ok; [|reflexivity]. erewrite st_bind_Ok; [|reflexivity].
  rewrite (update_ok _ _ _ (new_entry hdr)) by (cbn; by rewrite Hheap).
  eexists. split; [reflexivity|]. split; [|split; [exact (same_rest_env _ _ Hr)|]].
  2: { cbn [bs_heap with_heap with_best with_genesis]. rewrite (headers_update _ p (new_entry hdr)); [|by rewrite Hheap|done].
    rewrite Hheap. unfold bs1, headers. cbn. by rewrite fmap_insert. }
  set (bs3 := with_heap _ _).
  assert (Hix3 : index_ok bs3 [p]).
  { apply (index_ok_update bs2 [p] p (new_entry hdr) (set_height 0)); [by rewrite Hheap|done|exact Hix]. }
  assert (He3 : bs_heap bs3 !! p = Some (new_entry hdr)) by apply lookup_insert_eq.
  split_and!; try done.
  - split; [exact Hix3|]. intros q e Hq Hne. apply not_elem_of_cons in Hne as [Hne _]. cbn in Hq.
    rewrite lookup_insert_ne, Hheap in Hq by done. cbn in Hq. rewrite lookup_insert_ne in Hq by done.
    apply (proj2 Ht q e Hq). set_solver.
  - split; [by apply NoDup_singleton|]. intros [|i] q Hq; [|done]. injection Hq as <-.
    exists (new_entry hdr). by split_and!.
  - intros q e [= <-] Hq. rewrite He3 in Hq. by injection Hq as <-.
  - intros q [= <-]. exists (new_entry hdr). split; [exact He3|exact Hgen].
  - intros q [= <-]. exists (new_entry hdr). split; [exact He3|]. etransitivity; [exact Hgen|symmetry; exact Hgh].
Qed.

(** A header whose parent is the last block. *)
Lemma add_entry_tip bs c p q hdr :
  bs_wf bs c -> last c = Some q -> bs_heap bs !! p = None ->
  (forall q, ~ keyed (bs_heap bs) (header_hash hdr) q) ->
  Z.of_nat (size (bs_heap bs)) < 2 ^ 32 - 2 -> bh_prevBlock hdr = bs_best_hash bs ->
  exists bs', blockstore_add_entry p (header_hash hdr) (with_heap (<[p := new_entry hdr]> (bs_heap bs)) bs) = Ok (tt, bs') /\
    bs_wf bs' (c ++ [p]) /\ same_env bs bs' /\ headers (bs_heap bs') = <[p := hdr]> (headers (bs_heap bs)).
Proof.
  intros Hwf Hq Hp Hk Hs Hprev. pose proof (alloc_pending bs c p hdr Hwf Hp Hk Hs) as Hpend.
  set (bs1 := with_heap (<[p := new_entry hdr]> (bs_heap bs)) bs) in *.
  pose proof Hwf as ([Hix Hor] & Hc & Htip & Hb & Hg & Hh & Hlast & Hhead).
  pose proof Hpend as (_ & Hin & _ & _ & Hpc).
  assert (He : bs_heap bs1 !! p = Some (new_entry hdr)) by apply lookup_insert_eq.
  assert (Hkp : keyed (bs_heap bs1) (header_hash hdr) p) by by exists (new_entry hdr).
  assert (Hqc : q ∈ c) by (apply last_Some in Hq as [c0 ->]; set_solver).
  assert (Hne : p <> q) by (by intros ->). destruct (Hin q Hqc) as [eq Heq].
  destruct (insert_blk_pending bs1 c p (header_hash hdr) Hpend Hkp) as (bs2 & E & Hr & Hheap & Hix2).
  unfold blockstore_add_entry. erewrite st_bind_Ok; [|reflexivity].
  replace (bs_best_chain bs1) with (Some q) by (rewrite <- Hq; symmetry; exact Hb). cbv iota.
  erewrite st_bind_Ok; [|by apply load_ok]. replace (bh_prevBlock _) with (bs_best_hash bs1) by done.
  rewrite uint256_issame_refl. erewrite st_bind_Ok; [|exact E]. erewrite st_bind_Ok; [|reflexivity].
  replace (bs_height bs1 + 1) with (Zlen c) by (change (bs_height bs1) with (bs_height bs); lia).
  rewrite (linked_ok bs2 (Zlen c) q p eq (new_entry hdr)) by (done || by rewrite Hheap).
  rewrite Hheap. set (bs3 := with_heap (linked (bs_heap bs1) (Zlen c) q p eq (new_entry hdr)) bs2).
  assert (Hd : headers (bs_heap bs3) = headers (bs_heap bs1)) by by apply linked_headers.
  assert (Hother : forall x, x ∉ c ++ [p] -> bs_heap bs3 !! x = bs_heap bs !! x).
  { intros x Hx. cbn. rewrite linked_lookup, !decide_False, lookup_insert_ne by set_solver. done. }
  eexists. split; [reflexivity|]. replace (Zlen c) with (Zlen (c ++ [p]) - 1) at 1 by zlia.
  split; [|split; [exact (same_rest_env _ _ Hr)|etransitivity; [exact Hd|unfold headers; cbn; by rewrite fmap_insert]]].
  apply (bs_wf_tip _ _ _ _ (set_prev (Some q) (set_height (Zlen c) (new_entry hdr)))).
  - split.
    + pose proof (linked_index bs2 (c ++ [p]) (Zlen c) q p eq (new_entry hdr) Hne) as Hl.
      rewrite Hheap in Hl. by apply Hl.
    + intros x e Hx Hxc. rewrite Hother in Hx by done. apply (Hor x e Hx). set_solver.
  - apply chain_ok_snoc; try done.
    + apply (chain_ok_same (bs_heap bs)); [done|]. intros x Hx. cbn. apply lookup_insert_ne. by intros <-.
    + apply (keyed_same (bs_heap bs)); [apply lookup_insert_ne; congruence|]. cbn. rewrite Hprev. by apply Hlast.
  - apply last_snoc.
  - cbn. rewrite linked_lookup by done. by rewrite decide_True.
  - done.
  - apply (keyed_headers (bs_heap bs1)); [by rewrite Hd|done].
  - rewrite head_app. replace (bs_genesis bs3) with (bs_genesis bs) by (cbn; by rewrite Hr). rewrite Hg. by destruct c.
  - intros x Hx. replace (bs_genesis_hash bs3) with (bs_genesis_hash bs) by (cbn; by rewrite Hr).
    rewrite head_app in Hx. assert (Hhx : head c = Some x) by by destruct c.
    apply (keyed_headers (bs_heap bs1)); [by rewrite Hd|].
    apply (keyed_same (bs_heap bs)); [|by apply Hhead]. apply lookup_insert_ne. intros ->.
    apply Hpc. destruct c as [|y c]; [done|]. injection Hhx as ->. left.
Qed.

(** One more orphan. *)
Lemma bs_wf_orphan bs bs' c p e :
  bs_wf bs c -> same_rest bs bs' -> index_ok bs' c -> (forall x, x <> p -> bs_heap bs' !! x = bs_heap bs !! x) ->
  p ∉ c -> bs_heap bs' !! p = Some e -> be_height e = -1 -> bs_wf bs' c.
Proof.
  intros ([Hix Hor] & Hc & Htip & Hb & Hg & Hh & Hlast & Hhead) Hr Hix' Hsame Hp He Hm.
  assert (Hsame' : forall x, x ∈ c -> bs_heap bs' !! x = bs_heap bs !! x) by (intros x Hx; apply Hsame; by intros ->).
  assert (Hl : forall x, last c = Some x -> x ∈ c) by (intros x [c0 ->]%last_Some; set_solver).
  rewrite Hr. split_and!; try done; cbn [bs_heap with_heap with_blk with_orphans].
  - split; [by rewrite <- Hr|]. cbn. intros x ex Hx Hxc. destruct (decide (x = p)) as [->|Hxp]; [congruence|].
    rewrite Hsame in Hx by done. by apply (Hor x ex).
  - by apply (chain_ok_same (bs_heap bs)).
  - intros x ex Hx Hxe. apply (Htip x ex Hx). rewrite <- Hsame'; [done|by apply Hl].
  - intros x Hx. apply (keyed_same (bs_heap bs)); [by apply Hsame', Hl|by apply Hlast].
  - intros x Hx. apply (keyed_same (bs_heap bs)); [by apply Hsame', head_Some_elem_of|by apply Hhead].
Qed.

(** A header whose parent is not the last block: an orphan, at first. *)
Lemma add_entry_orphan rank bs c p q l o hdr :
  let heap := <[p := new_entry hdr]> (bs_heap bs) in
  bs_wf bs c -> last c = Some q -> bs_heap bs !! p = None ->
  (forall q, ~ keyed (bs_heap bs) (header_hash hdr) q) ->
  Z.of_nat (size (bs_heap bs)) < 2 ^ 32 - 2 -> bh_prevBlock hdr <> bs_best_hash bs ->
  heap_ranked rank heap -> path heap c p l o -> ~ (l = [p] /\ o = Some (pred (length c))) ->
  match new_chain c p l o with
  | Some c' => exists bs', blockstore_add_entry p (header_hash hdr) (with_heap heap bs) = Ok (tt, bs') /\
      bs_wf bs' c' /\ same_env bs bs' /\ headers (bs_heap bs') = <[p := hdr]> (headers (bs_heap bs)) /\ (p ∈ c' <-> c' <> c)
  | None => blockstore_add_entry p (header_hash hdr) (with_heap heap bs) = Fault Panic
  end.
Proof.
  intros heap Hwf Hq Hp Hk Hs Hprev Hrank Hl Hnot. pose proof (alloc_pending bs c p hdr Hwf Hp Hk Hs) as Hpend.
  set (bs1 := with_heap heap bs). pose proof Hwf as ([Hix Hor] & Hc & Htip & Hb & Hg & Hh & Hlast & Hhead).
  assert (He : bs_heap bs1 !! p = Some (new_entry hdr)) by apply lookup_insert_eq.
  apply (pending_update bs1 c p (new_entry hdr) (set_height (-1))) in Hpend; [|done..].
  set (bs2 := with_heap (<[p := set_height (-1) (new_entry hdr)]> (bs_heap bs1)) bs1) in *.
  assert (He2 : bs_heap bs2 !! p = Some (set_height (-1) (new_entry hdr))) by apply lookup_insert_eq.
  assert (Hkp : keyed (bs_heap bs2) (header_hash hdr) p) by by exists (set_height (-1) (new_entry hdr)).
  destruct (insert_orphan_pending bs2 c p (header_hash hdr) Hpend Hkp) as (bs3 & E & Hr & Hheap & Hix3).
  pose proof Hpend as (_ & _ & _ & _ & Hpc).
  assert (Hsame : forall x, x <> p -> bs_heap bs3 !! x = bs_heap bs !! x).
  { intros x Hx. rewrite Hheap. cbn. unfold heap. rewrite !lookup_insert_ne by done. done. }
  assert (Hd : headers heap = headers (bs_heap bs3)) by (rewrite Hheap; symmetry; by apply (headers_update _ p (new_entry hdr))).
  assert (Hwf3 : bs_wf bs3 c).
  { apply (bs_wf_orphan bs bs3 c p (set_height (-1) (new_entry hdr)) Hwf); [exact Hr|done|done|done|by rewrite Hheap|done]. }
  assert (Hadd : blockstore_add_entry p (header_hash hdr) bs1 = blockstore_set_best_chain p (header_hash hdr) bs3).
  { unfold blockstore_add_entry. erewrite st_bind_Ok; [|reflexivity].
    replace (bs_best_chain bs1) with (Some q) by (rewrite <- Hq; symmetry; exact Hb). cbv iota.
    erewrite st_bind_Ok; [|by apply load_ok].
    destruct (uint256_issame _ _) eqn:Hi; [by apply uint256_issame_iff in Hi|].
    erewrite st_bind_Ok; [|by apply update_ok]. erewrite st_bind_Ok; [|exact E]. by erewrite st_bind_Ok; [|reflexivity]. }
  rewrite Hadd. pose proof (set_best_chain_ok rank bs3 c p l o (header_hash hdr) (set_height (-1) (new_entry hdr)) Hwf3) as Hset.
  assert (Hrank3 : heap_ranked rank (bs_heap bs3)).
  { intros x e Hx. destruct (decide (x = p)) as [->|Hxp].
    - rewrite Hheap, He2 in Hx. injection Hx as <-. by apply (Hrank p (new_entry hdr)).
    - rewrite Hsame in Hx by done. apply (Hrank x e). unfold heap. by rewrite lookup_insert_ne. }
  specialize (Hset Hrank3 (path_headers _ _ _ _ _ _ Hd Hl) Hpc).
  rewrite Hheap in Hset. specialize (Hset He2 eq_refl Hkp Hnot). rewrite <- Hheap in Hset.
  destruct (new_chain c p l o) as [c'|]; [|done]. destruct Hset as (bs' & E' & Hw & Henv & Hd' & Hpc').
  exists bs'. split_and!; [done|done| |etransitivity; [exact Hd'|rewrite <- Hd; apply fmap_insert]|apply Hpc'..].
  revert Henv. rewrite Hr. done.
Qed.

(** When the first branch of [blockstore_add_entry] is not taken. *)
Lemma not_tip heap c p q l o hdr k :
  heap !! p = Some (new_entry hdr) -> p ∉ c -> last c = Some q -> keyed heap k q -> NoDup c ->
  path heap c p l o -> heap_ok heap ->
  bh_prevBlock hdr = k <-> l = [p] /\ o = Some (pred (length c)).
Proof.
  intros Hp Hpc Hq Hk Hnd Hl [Hinj _]. assert (Hqc : c !! pred (length c) = Some q) by by rewrite <- last_lookup.
  inversion Hl as [p' i Hi|p' e He1 He2 Hno|p' e q' l' o' He1 He2 Hk' Hl']; subst.
  - by destruct Hpc; eapply list_elem_of_lookup_2.
  - assert (e = new_entry hdr) as -> by congruence. split; [|by intros [_ ?]]. intros E. destruct (Hno q). cbn. by rewrite E.
  - assert (e = new_entry hdr) as -> by congruence. cbn in Hk'. split.
    + intros E. rewrite E in Hk'. assert (q' = q) as -> by by apply (Hinj k).
      inversion Hl' as [p' i Hi|p' e Hn ?|p' e ? ? ? Hn]; subst; [|by destruct Hn; eapply list_elem_of_lookup_2..].
      split; [done|]. f_equal. by eapply NoDup_lookup.
    + intros [[= ->] ->]. inversion Hl' as [p' i Hi| |]; subst. assert (q' = q) as -> by congruence.
      by apply (keyed_fun heap q).
Qed.

Definition next_entry bs : positive := fresh (dom (bs_heap bs) : gset positive).

Lemma next_entry_new bs : bs_heap bs !! next_entry bs = None.
Proof. apply (not_elem_of_dom (D := gset positive)). unfold next_entry. apply is_fresh. Qed.

(** A header that is known changes nothing. *)
Lemma add_header_known bs c hdr :
  index_ok bs c -> (exists q, keyed (bs_heap bs) (header_hash hdr) q) ->
  blockstore_add_header hdr (header_hash hdr) bs = Ok ((false, false), with_count (wrap32 (bs_count bs + 1)) bs).
Proof.
  intros Hix [q Hq]. unfold blockstore_add_header. erewrite st_bind_Ok; [|reflexivity].
  erewrite st_bind_Ok; [|reflexivity]. rewrite uint256_issame_refl, orb_true_r. erewrite st_bind_Ok; [|reflexivity].
  destruct (blockstore_lookup_ok (with_count (wrap32 (bs_count bs + 1)) bs) c (header_hash hdr) Hix) as (o & Eo & Hk).
  erewrite st_bind_Ok; [|unfold lift; rewrite Eo; reflexivity]. by rewrite (proj2 (Hk q) Hq).
Qed.

(** A header that is not known. *)
Lemma add_header_unknown bs c hdr :
  index_ok bs c -> (forall q, ~ keyed (bs_heap bs) (header_hash hdr) q) ->
  blockstore_add_header hdr (header_hash hdr) bs =
    (_ ← lift (ASSERT (blockstore_validate_chkpt (bs_cpt bs) (header_hash hdr) (wrap32 (bs_height bs + 1))));
     _ ← lift (ASSERT (bool_decide (is_Some (bs_best_chain bs)) || uint256_issame (header_hash hdr) (bs_genesis_hash bs)));
     p ← blockstore_alloc_entry hdr false;
     _ ← blockstore_add_entry p (header_hash hdr);
     e ← load p;
     mret (true, be_height e =? -1)) (with_count (wrap32 (bs_count bs + 1)) bs).
Proof.
  intros Hix Hno. unfold blockstore_add_header. erewrite st_bind_Ok; [|reflexivity].
  erewrite st_bind_Ok; [|reflexivity]. rewrite uint256_issame_refl, orb_true_r. erewrite st_bind_Ok; [|reflexivity].
  destruct (blockstore_lookup_ok (with_count (wrap32 (bs_count bs + 1)) bs) c (header_hash hdr) Hix) as (o & Eo & Hk).
  erewrite st_bind_Ok; [|unfold lift; rewrite Eo; reflexivity].
  destruct o as [q|]; [by destruct (Hno q); apply (Hk q)|done].
Qed.

(** It goes to [blockstore_add_entry]. *)
Lemma add_header_new bs c hdr :
  index_ok bs c -> (forall q, ~ keyed (bs_heap bs) (header_hash hdr) q) ->
  blockstore_validate_chkpt (bs_cpt bs) (header_hash hdr) (wrap32 (bs_height bs + 1)) = true ->
  is_Some (bs_best_chain bs) \/ header_hash hdr = bs_genesis_hash bs ->
  let p := next_entry bs in
  let bs1 := with_heap (<[p := new_entry hdr]> (bs_heap bs)) (with_count (wrap32 (bs_count bs + 1)) bs) in
  blockstore_add_header hdr (header_hash hdr) bs =
    ('(_, bs') ← blockstore_add_entry p (header_hash hdr) bs1;
     e ← deref bs' p; Ok ((true, be_height e =? -1), bs')).
Proof.
  intros Hix Hno Hcpt Hgen p bs1. rewrite (add_header_unknown bs c), Hcpt by done.
  erewrite st_bind_Ok; [|reflexivity]. replace (_ || _) with true.
  2: { symmetry. apply orb_true_intro.
    destruct Hgen as [Hb| ->]; [left; by apply bool_decide_eq_true_2|right; apply uint256_issame_refl]. }
  do 2 (erewrite st_bind_Ok; [|reflexivity]). unfold mbind at 1, st_bind at 1.
  change (blockstore_add_entry _ _ _) with (blockstore_add_entry p (header_hash hdr) bs1).
  destruct (blockstore_add_entry p (header_hash hdr) bs1) as [[[] bs']|]; [|done].
  change (fresh _) with p. unfold load, mbind, st_bind, res_bind. destruct (deref bs' p); reflexivity.
Qed.

(** The assertions of [blockstore_add_header] itself. *)
Lemma add_header_chkpt bs c hdr :
  index_ok bs c -> (forall q, ~ keyed (bs_heap bs) (header_hash hdr) q) ->
  blockstore_validate_chkpt (bs_cpt bs) (header_hash hdr) (wrap32 (bs_height bs + 1)) = false ->
  blockstore_add_header hdr (header_hash hdr) bs = Fault Panic.
Proof. intros Hix Hno Hcpt. by rewrite (add_header_unknown bs c), Hcpt. Qed.

Lemma add_header_not_genesis bs hdr :
  bs_wf bs [] -> (forall q, ~ keyed (bs_heap bs) (header_hash hdr) q) ->
  blockstore_validate_chkpt (bs_cpt bs) (header_hash hdr) (wrap32 (bs_height bs + 1)) = true ->
  header_hash hdr <> bs_genesis_hash bs -> blockstore_add_header hdr (header_hash hdr) bs = Fault Panic.
Proof.
  intros ([Hix _] & _ & _ & Hb & _) Hno Hcpt Hg. rewrite (add_header_unknown bs []), Hcpt, Hb by done.
  destruct (uint256_issame _ _) eqn:E; [by apply uint256_issame_iff in E|done].
Qed.

(** The height of an entry says where it is. *)
Lemma entry_place bs c p :
  tables_ok bs c -> chain_ok (bs_heap bs) c -> is_Some (bs_heap bs !! p) ->
  exists e, deref bs p = Ok e /\ (be_height e =? -1) = bool_decide (p ∉ c).
Proof.
  intros [_ Ho] Hc [e He]. exists e. split; [by apply deref_ok|]. destruct (decide (p ∈ c)) as [Hp|Hp].
  - rewrite bool_decide_eq_false_2 by auto. apply list_elem_of_lookup_1 in Hp as [i Hi].
    destruct (chain_height bs c i p Hc Hi) as (e' & He' & Hh). assert (e' = e) as -> by congruence.
    apply Z.eqb_neq. lia.
  - rewrite bool_decide_eq_true_2 by done. by rewrite (Ho p e He Hp).
Qed.

Lemma headers_lookup heap p h : headers heap !! p = Some h -> is_Some (heap !! p).
Proof. unfold headers. rewrite lookup_fmap. by destruct (heap !! p). Qed.

(** What the callers get: the entry [p] is new, the best chain is [c']. *)
Definition added bs hdr c' (r : res ((bool * bool) * blockstore)) : Prop :=
  let p := next_entry bs in
  exists bs', r = Ok ((true, bool_decide (p ∉ c')), bs') /\ bs_wf bs' c' /\ same_env bs bs' /\
    headers (bs_heap bs') = <[p := hdr]> (headers (bs_heap bs)).

Lemma add_header_added bs c hdr c' :
  index_ok bs c -> (forall q, ~ keyed (bs_heap bs) (header_hash hdr) q) ->
  blockstore_validate_chkpt (bs_cpt bs) (header_hash hdr) (wrap32 (bs_height bs + 1)) = true ->
  is_Some (bs_best_chain bs) \/ header_hash hdr = bs_genesis_hash bs ->
  let p := next_entry bs in
  let bs1 := with_heap (<[p := new_entry hdr]> (bs_heap bs)) (with_count (wrap32 (bs_count bs + 1)) bs) in
  (exists bs', blockstore_add_entry p (header_hash hdr) bs1 = Ok (tt, bs') /\ bs_wf bs' c' /\ same_env bs bs' /\
    headers (bs_heap bs') = <[p := hdr]> (headers (bs_heap bs))) ->
  added bs hdr c' (blockstore_add_header hdr (header_hash hdr) bs).
Proof.
  intros Hix Hno Hcpt Hgen p bs1 (bs' & E & Hwf & Henv & Hd). exists bs'.
  rewrite (add_header_new bs c hdr) by done. fold p bs1. rewrite E, bind_ok.
  destruct (entry_place bs' c' p) as (e & -> & Hp); [apply Hwf|apply Hwf| |].
  - apply (headers_lookup _ _ hdr). rewrite Hd. apply lookup_insert_eq.
  - rewrite bind_ok, Hp. split_and!; done.
Qed.

Lemma add_header_ok rank bs c hdr l o :
  let p := next_entry bs in
  let heap := <[p := new_entry hdr]> (bs_heap bs) in
  bs_wf bs c -> c <> [] -> (forall q, ~ keyed (bs_heap bs) (header_hash hdr) q) ->
  Z.of_nat (size (bs_heap bs)) < 2 ^ 32 - 2 -> heap_ranked rank heap ->
  blockstore_validate_chkpt (bs_cpt bs) (header_hash hdr) (wrap32 (Zlen c)) = true ->
  path heap c p l o ->
  match new_chain c p l o with
  | Some c' => added bs hdr c' (blockstore_add_header hdr (header_hash hdr) bs)
  | None => blockstore_add_header hdr (header_hash hdr) bs = Fault Panic
  end.
Proof.
  intros p heap Hwf Hc Hno Hs Hrank Hcpt Hl. pose proof Hwf as ([Hix _] & Hch & _ & Hb & _ & Hh & Hlast & _).
  replace (Zlen c) with (bs_height bs + 1) in Hcpt by lia.
  destruct (last c) as [q|] eqn:Hq; [|by apply last_None in Hq].
  assert (Hbest : is_Some (bs_best_chain bs) \/ header_hash hdr = bs_genesis_hash bs) by (left; by rewrite Hb).
  set (bs0 := with_count (wrap32 (bs_count bs + 1)) bs).
  assert (Hp : bs_heap bs0 !! p = None) by exact (next_entry_new bs).
  pose proof (alloc_pending bs0 c p hdr Hwf Hp Hno Hs) as (Hok & _ & _ & _ & Hpc).
  assert (Hkq : keyed heap (bs_best_hash bs) q).
  { apply (keyed_same (bs_heap bs)); [|by apply Hlast]. apply lookup_insert_ne. intros ->.
    apply Hpc. apply last_Some in Hq as [c0 ->]. set_solver. }
  pose proof (not_tip heap c p q l o hdr _ (lookup_insert_eq _ _ _) Hpc Hq Hkq (proj1 Hch) Hl Hok) as Htip.
  destruct (decide (bh_prevBlock hdr = bs_best_hash bs)) as [E|E].
  - unfold new_chain. rewrite decide_True by by apply Htip.
    apply (add_header_added bs c); [done..|]. by apply (add_entry_tip bs0 c p q hdr).
  - pose proof (add_entry_orphan rank bs0 c p q l o hdr Hwf Hq Hp Hno Hs E Hrank Hl) as Hor.
    rewrite Htip in E. specialize (Hor E). destruct (new_chain c p l o) as [c'|].
    + apply (add_header_added bs c); [done..|]. destruct Hor as (bs' & ? & ? & ? & ? & _). by exists bs'.
    + rewrite (add_header_new bs c hdr) by done. fold p bs0. by rewrite (Hor : blockstore_add_entry p (header_hash hdr) (with_heap (<[p := new_entry hdr]> (bs_heap bs)) bs0) = Fault Panic).
Qed.

Lemma heap_ranked_headers rank heap :
  heap_ranked rank heap <-> forall p h, headers heap !! p = Some h -> ranked rank h.
Proof.
  unfold heap_ranked, headers. split.
  - intros Hr p h E. rewrite lookup_fmap in E. destruct (heap !! p) as [e|] eqn:He; [|done].
    injection E as <-. by apply (Hr p e).
  - intros Hr p e He. apply (Hr p). by rewrite lookup_fmap, He.
Qed.

Lemma heap_ranked_new rank heap p hdr :
  heap_ranked rank heap -> ranked rank hdr -> heap_ranked rank (<[p := new_entry hdr]> heap).
Proof.
  intros Hr Hh q e E. destruct (decide (q = p)) as [->|Hne].
  - rewrite lookup_insert_eq in E. by injection E as <-.
  - rewrite lookup_insert_ne in E by done. by apply (Hr q e).
Qed.

Lemma new_chain_grows c p l o c' : new_chain c p l o = Some c' -> Zlen c <= Zlen c' /\ (c <> [] -> head c' = head c).
Proof.
  unfold new_chain. destruct (decide _) as [_|_].
  { intros [= <-]. split; [zlia|]. by destruct c. }
  destruct o as [[|i]|]; [done|..].
  - intros [= <-]. destruct (Z.leb_spec (Z.of_nat (S i) + Zlen l) (Zlen c - 1)); [done|].
    split; [|by destruct c]. unfold Zlen in *. rewrite length_app, length_rev, length_take. lia.
  - destruct (Zlen l <=? Zlen c); [|done]. by intros [= <-].
Qed.

(** Where a store can go in one call. *)
Definition follows rank bs c (r : res ((bool * bool) * blockstore)) : Prop :=
  r = Fault Panic \/
  exists b bs' c', r = Ok (b, bs') /\ bs_wf bs' c' /\ same_env bs bs' /\ heap_ranked rank (bs_heap bs') /\
    Zlen c <= Zlen c' /\ (c <> [] -> head c' = head c) /\ (size (bs_heap bs') <= S (size (bs_heap bs)))%nat.

Lemma added_follows rank bs c hdr c' r :
  heap_ranked rank (bs_heap bs) -> ranked rank hdr -> added bs hdr c' r ->
  Zlen c <= Zlen c' -> (c <> [] -> head c' = head c) -> follows rank bs c r.
Proof.
  intros Hr Hh (bs' & E & Hwf & Henv & Hd) Hle Hhd. right. exists (true, bool_decide (next_entry bs ∉ c')), bs', c'.
  split_and!; try done; [apply Henv..| |].
  - apply heap_ranked_headers. intros q h. rewrite Hd. intros [[<- <-]|[_ Hq]]%lookup_insert_Some; [done|].
    revert q h Hq. by apply heap_ranked_headers.
  - rewrite <- (map_size_fmap be_header (bs_heap bs')), <- (map_size_fmap be_header (bs_heap bs)).
    fold (headers (bs_heap bs')) (headers (bs_heap bs)). rewrite Hd, map_size_insert_None; [done|].
    unfold headers. by rewrite lookup_fmap, next_entry_new.
Qed.

Lemma add_header_follows rank bs c hdr :
  bs_wf bs c -> heap_ranked rank (bs_heap bs) -> ranked rank hdr -> Z.of_nat (size (bs_heap bs)) < 2 ^ 32 - 2 ->
  follows rank bs c (blockstore_add_header hdr (header_hash hdr) bs).
Proof.
  intros Hwf Hr Hh Hs. pose proof Hwf as ([Hix _] & Hch & _ & Hb & _ & Hht & _).
  destruct (decide (exists q, keyed (bs_heap bs) (header_hash hdr) q)) as [Hk|Hk].
  { rewrite (add_header_known bs c hdr Hix Hk). right. eexists _, _, c. split_and!; try done. cbn. lia. }
  assert (Hno : forall q, ~ keyed (bs_heap bs) (header_hash hdr) q) by (intros q Hq; apply Hk; by exists q).
  pose proof (heap_ranked_new rank (bs_heap bs) (next_entry bs) hdr Hr Hh) as Hr'.
  destruct (blockstore_validate_chkpt (bs_cpt bs) (header_hash hdr) (wrap32 (bs_height bs + 1))) eqn:Hcpt.
  2: { left. by apply (add_header_chkpt bs c). }
  destruct (decide (c = [])) as [->|Hc].
  - destruct (decide (header_hash hdr = bs_genesis_hash bs)) as [Hg|Hg].
    + apply (added_follows rank bs [] hdr [next_entry bs]); [done..| | |done]; [|by unfold Zlen; cbn; lia].
      apply (add_header_added bs []); [done..|by right|].
      apply (add_entry_genesis (with_count (wrap32 (bs_count bs + 1)) bs)); try done. exact (next_entry_new bs).
    + left. by apply (add_header_not_genesis bs).
  - destruct (ancestors rank _ c (next_entry bs) (new_entry hdr) Hr' (lookup_insert_eq _ _ _)) as (l & o & Hl).
    replace (bs_height bs + 1) with (Zlen c) in Hcpt by lia.
    pose proof (add_header_ok rank bs c hdr l o Hwf Hc Hno Hs Hr' Hcpt Hl) as E.
    destruct (new_chain c (next_entry bs) l o) as [c'|] eqn:En; [|by left].
    apply new_chain_grows in En as [? ?]. by apply (added_follows rank bs c hdr c').
Qed.

(** *** Sequences of headers *)

Fixpoint add_headers (hs : list btc_block_header) bs : res blockstore :=
  match hs with
  | [] => Ok bs
  | hdr :: hs => '(_, bs) ← blockstore_add_header hdr (header_hash hdr) bs; add_headers hs bs
  end.

(** C11: the store of headers keeps its invariant. Whatever headers arrive, in
    whatever order, a run of [blockstore_add_header] ends in a well-formed store
    or stops on an assertion: no NULL entry is followed, no loop or recursion
    goes on for ever, no table refuses an entry. The best chain never gets
    shorter and its first block is never replaced. *)
Theorem blockstore_headers_safe rank hs : forall bs c,
  bs_wf bs c -> heap_ranked rank (bs_heap bs) -> Forall (ranked rank) hs ->
  Z.of_nat (size (bs_heap bs)) + Zlen hs < 2 ^ 32 - 2 ->
  add_headers hs bs = Fault Panic \/
  exists bs' c', add_headers hs bs = Ok bs' /\ bs_wf bs' c' /\ Zlen c <= Zlen c' /\ (c <> [] -> head c' = head c).
Proof.
  induction hs as [|hdr hs IH]; intros bs c Hwf Hr Hhs Hs; [right; by exists bs, c|].
  apply Forall_cons in Hhs as [Hh Hhs]. cbn [add_headers]. rewrite Zlen_cons in Hs. pose proof (Zlen_nonneg hs).
  destruct (add_header_follows rank bs c hdr Hwf Hr Hh) as [->|(b & bs' & c' & -> & Hwf' & _ & Hr' & Hle & Hhd & Hsz)];
    [lia|by left|]. rewrite bind_ok.
  destruct (IH bs' c' Hwf' Hr' Hhs) as [E|(bs2 & c2 & E & Hwf2 & Hle2 & Hhd2)]; [lia|by left|].
  right. exists bs2, c2. split_and!; [done|done|lia|]. intros Hc. rewrite Hhd2; [by apply Hhd|].
  intros ->. unfold Zlen in *. destruct c; [done|]. cbn in *. lia.
Qed.

(** *** Membership *)

Lemma has_header_ok bs c q e :
  index_ok bs c -> bs_heap bs !! q = Some e ->
  blockstore_has_header bs (header_hash (be_header e)) = Ok (bool_decide (q ∈ c)) /\
  blockstore_is_orphan bs (header_hash (be_header e)) = Ok (bool_decide (q ∉ c)).
Proof.
  intros ([Hinj _] & _ & Hb & Ho) He. assert (Hk : keyed (bs_heap bs) (header_hash (be_header e)) q) by by exists e.
  unfold blockstore_has_header, blockstore_is_orphan.
  destruct (tbl_is_lookup _ _ _ (header_hash (be_header e)) Hb) as (o & -> & Hko).
  destruct (tbl_is_lookup _ _ _ (header_hash (be_header e)) Ho) as (o' & -> & Hko'). rewrite !bind_ok.
  split; f_equal; apply bool_decide_ext; split.
  - intros [x Hx]. apply Hko in Hx as [Hx Hkx]. by rewrite (Hinj _ _ _ Hk Hkx).
  - intros Hq. exists q. by apply Hko.
  - intros [x Hx]. apply Hko' in Hx as [Hx Hkx]. by rewrite (Hinj _ _ _ Hk Hkx).
  - intros Hq. exists q. by apply Hko'.
Qed.

Lemma path_last heap c p l i : p ∉ c -> path heap c p l (Some i) -> last (take (S i) c ++ rev l) = Some p.
Proof.
  intros Hp Hl. inversion Hl; subst; [by destruct Hp; eapply list_elem_of_lookup_2|].
  cbn [rev]. rewrite app_assoc. apply last_snoc.
Qed.

(** What is above the junction is not in the new chain. *)
Lemma path_abandoned rank heap c p l i q :
  heap_ranked rank heap -> path heap c p l (Some i) -> NoDup c -> q ∈ drop (S i) c ->
  q ∉ take (S i) c ++ rev l.
Proof.
  intros Hr Hl Hnd Hq. rewrite elem_of_app. intros [Ht|Hrev].
  - rewrite <- (take_drop (S i) c) in Hnd. apply NoDup_app in Hnd as (_ & Hdis & _). by apply (Hdis q).
  - apply (proj1 (elem_of_rev _ _)) in Hrev. apply (path_orphans rank heap c p l (Some i) Hr Hl) in Hrev as [Hqc _].
    apply Hqc. rewrite <- (take_drop (S i) c). apply elem_of_app. by right.
Qed.

(** C13: a header that makes an alternate chain longer than the best chain
    reorganises the store. The orphans [l] that lead from the new header to the
    block at height [i] become the chain above that block, and every block that
    was above it becomes an orphan. *)
Theorem blockstore_reorg rank bs c hdr l i :
  let p := next_entry bs in
  let heap := <[p := new_entry hdr]> (bs_heap bs) in
  let c' := take (S i) c ++ rev l in
  bs_wf bs c -> (forall q, ~ keyed (bs_heap bs) (header_hash hdr) q) ->
  Z.of_nat (size (bs_heap bs)) < 2 ^ 32 - 2 -> heap_ranked rank heap ->
  blockstore_validate_chkpt (bs_cpt bs) (header_hash hdr) (wrap32 (Zlen c)) = true ->
  path heap c p l (Some i) -> (0 < i)%nat -> Zlen c - 1 < Z.of_nat i + Zlen l ->
  exists bs', blockstore_add_header hdr (header_hash hdr) bs = Ok ((true, false), bs') /\ bs_wf bs' c' /\
    bs_height bs' = Z.of_nat i + Zlen l /\ bs_best_hash bs' = header_hash hdr /\
    forall q e, q ∈ drop (S i) c -> bs_heap bs !! q = Some e ->
      blockstore_has_header bs' (header_hash (be_header e)) = Ok false /\
      blockstore_is_orphan bs' (header_hash (be_header e)) = Ok true.
Proof.
  intros p heap c' Hwf Hno Hs Hr Hcpt Hl Hi Hlong.
  assert (Hc : c <> []) by (intros ->; apply path_place in Hl; cbn in Hl; lia).
  pose proof (add_header_ok rank bs c hdr l (Some i) Hwf Hc Hno Hs Hr Hcpt Hl) as E.
  pose proof (path_chain_length _ _ _ _ _ Hl) as Hlen. fold c' in Hlen.
  assert (En : new_chain c p l (Some i) = Some c').
  { unfold new_chain. destruct (decide _) as [[-> [= ->]]|_].
    - unfold c'. f_equal. f_equal. rewrite take_ge by lia. done.
    - destruct i; [lia|]. by rewrite leb_f by lia. }
  fold p in E. rewrite En in E. destruct E as (bs' & E & Hwf' & _ & Hd).
  assert (Hpl : last c' = Some p).
  { apply (path_last heap); [|done]. by apply (alloc_pending bs c p hdr Hwf (next_entry_new bs) Hno Hs). }
  assert (Hp : p ∈ c') by (apply last_Some in Hpl as [c0 ->]; set_solver).
  rewrite bool_decide_eq_false_2 in E by auto. exists bs'. split; [done|]. split; [done|].
  pose proof Hwf' as ([Hix' _] & Hch' & _ & _ & _ & Hht' & Hlast' & _). split; [lia|]. split.
  - apply Hlast' in Hpl as (e & He & <-). f_equal.
    assert (Eh : headers (bs_heap bs') !! p = Some hdr) by (rewrite Hd; apply lookup_insert_eq).
    unfold headers in Eh. rewrite lookup_fmap, He in Eh. by injection Eh.
  - intros q e Hq He.
    assert (Hqp : q <> p) by (intros ->; by rewrite (next_entry_new bs : bs_heap bs !! p = None) in He).
    assert (Eh : headers (bs_heap bs') !! q = Some (be_header e)).
    { rewrite Hd, lookup_insert_ne by done. unfold headers. by rewrite lookup_fmap, He. }
    unfold headers in Eh. rewrite lookup_fmap in Eh. destruct (bs_heap bs' !! q) as [e'|] eqn:He'; [|done].
    injection Eh as <-. destruct (has_header_ok bs' c' q e' Hix' He') as [-> ->].
    assert (Hqc : q ∉ c').
    { apply (path_abandoned rank heap c p l i q); [done|done|apply Hwf|done]. }
    by rewrite bool_decide_eq_false_2, bool_decide_eq_true_2.
Qed.

(** An alternate chain that forks at the genesis block stops the process:
    [blockstore_find_alternate_chain_height] takes the height 0 of the genesis
    block for that of an orphan, and its assertion fails. Any header whose parent
    is the genesis block does it, once the chain has two blocks. *)
Theorem blockstore_genesis_fork_panics rank bs c hdr :
  bs_wf bs c -> 2 <= Zlen c -> bh_prevBlock hdr = bs_genesis_hash bs ->
  (forall q, ~ keyed (bs_heap bs) (header_hash hdr) q) -> Z.of_nat (size (bs_heap bs)) < 2 ^ 32 - 2 ->
  heap_ranked rank (bs_heap bs) -> ranked rank hdr ->
  blockstore_add_header hdr (header_hash hdr) bs = Fault Panic.
Proof.
  intros Hwf Hc Hprev Hno Hs Hr Hh. pose proof Hwf as ([Hix _] & _ & _ & _ & _ & Hht & _ & Hhead).
  destruct (blockstore_validate_chkpt (bs_cpt bs) (header_hash hdr) (wrap32 (bs_height bs + 1))) eqn:Hcpt;
    [|by apply (add_header_chkpt bs c)].
  replace (bs_height bs + 1) with (Zlen c) in Hcpt by lia. set (p := next_entry bs).
  destruct c as [|g c]; [done|].
  assert (Hpc : p ∉ g :: c) by by apply (alloc_pending bs (g :: c) p hdr Hwf (next_entry_new bs) Hno Hs).
  assert (Hl : path (<[p := new_entry hdr]> (bs_heap bs)) (g :: c) p [p] (Some 0%nat)).
  { apply (path_up _ _ p (new_entry hdr) g); [done|apply lookup_insert_eq| |by apply path_here].
    cbn. rewrite Hprev. apply (keyed_same (bs_heap bs)); [|by apply Hhead].
    apply lookup_insert_ne. intros ->. apply Hpc. left. }
  pose proof (add_header_ok rank bs (g :: c) hdr [p] (Some 0%nat) Hwf ltac:(done) Hno Hs
    (heap_ranked_new rank (bs_heap bs) p hdr Hr Hh) Hcpt Hl) as E. fold p in E.
  unfold new_chain in E. rewrite decide_False in E; [done|]. intros [_ [= E0]].
  unfold Zlen in Hc. cbn in *. lia.
Qed.

(** So do orphans whose parent is not known, once they are more than the
    blocks of the best chain: the assertion [prev] of
    [blockstore_set_chain_links] fails. *)
Theorem blockstore_detached_chain_panics rank bs c hdr l :
  let p := next_entry bs in
  let heap := <[p := new_entry hdr]> (bs_heap bs) in
  bs_wf bs c -> c <> [] -> (forall q, ~ keyed (bs_heap bs) (header_hash hdr) q) ->
  Z.of_nat (size (bs_heap bs)) < 2 ^ 32 - 2 -> heap_ranked rank heap ->
  path heap c p l None -> Zlen c < Zlen l ->
  blockstore_add_header hdr (header_hash hdr) bs = Fault Panic.
Proof.
  intros p heap Hwf Hc Hno Hs Hr Hl Hlong. pose proof Hwf as ([Hix _] & _ & _ & _ & _ & Hht & _).
  destruct (blockstore_validate_chkpt (bs_cpt bs) (header_hash hdr) (wrap32 (bs_height bs + 1))) eqn:Hcpt;
    [|by apply (add_header_chkpt bs c)].
  replace (bs_height bs + 1) with (Zlen c) in Hcpt by lia.
  pose proof (add_header_ok rank bs c hdr l None Hwf Hc Hno Hs Hr Hcpt Hl) as E. fold p in E.
  unfold new_chain in E. rewrite decide_False in E by (intros [_ ?]; done). by rewrite leb_f in E by lia.
Qed.

(** ** Reading the chain *)

Lemma chain_size bs c : index_ok bs c -> NoDup c -> (length c <= size (bs_heap bs))%nat.
Proof.
  intros (_ & Hin & _) Hnd. rewrite <- (size_list_to_set (C := gset positive) _ Hnd), <- (size_dom (D := gset positive)).
  apply subseteq_size. intros x Hx%elem_of_list_to_set. by apply elem_of_dom, Hin.
Qed.

(** The walk from the block [i] down to the block 1. *)
Lemma walk_back_height bs c h i : forall fuel,
  bs_wf bs c -> (i < length c)%nat -> (i < fuel)%nat -> h <= Z.of_nat i ->
  exists o, walk_back fuel bs (fun e => be_height e =? h) (c !! i) = Ok o /\
    if 0 <? h then exists p, c !! Z.to_nat h = Some p /\ o = bs_heap bs !! p else o = None.
Proof.
  intros fuel Hwf. pose proof Hwf as (_ & [Hnd Hc] & _ & _ & Hg & _). revert fuel.
  induction i as [|i IH]; intros [|fuel] Hi Hf Hh; try lia; cbn [walk_back]; rewrite Hg.
  - rewrite head_lookup, bool_decide_eq_true_2 by done. exists None. by rewrite ltb_f by lia.
  - destruct (lookup_lt_is_Some_2 c (S i) Hi) as [p Hp]. rewrite bool_decide_eq_false_2.
    2: { rewrite head_lookup. intros E. rewrite Hp in E. by pose proof (NoDup_lookup _ _ _ _ Hnd Hp (eq_sym E)). }
    rewrite Hp. destruct (Hc _ p Hp) as (e & He & Hhe & _ & Hpr & _). rewrite (deref_ok _ _ _ He), bind_ok, Hhe.
    destruct (Z.eqb_spec (Z.of_nat (S i)) h) as [<-|Hne].
    + exists (Some e). split; [done|]. rewrite ltb_t by lia. exists p. by rewrite Nat2Z.id.
    + rewrite Hpr. apply IH; lia.
Qed.

(** [blockstore_get_block_at_height] reads the best chain: the header at
    height [h], and its hash; it does not find the genesis block, and a height
    above the best is refused by its assertion. *)
Theorem blockstore_get_block_at_height_ok bs c h :
  bs_wf bs c ->
  (h <= 0 -> c <> [] -> blockstore_get_block_at_height bs h = Ok None) /\
  (forall p e, 0 < h -> c !! Z.to_nat h = Some p -> bs_heap bs !! p = Some e ->
     blockstore_get_block_at_height bs h = Ok (Some (header_hash (be_header e), be_header e))) /\
  (Zlen c <= h -> blockstore_get_block_at_height bs h = Fault Panic).
Proof.
  intros Hwf. pose proof Hwf as ([Hix _] & [Hnd _] & _ & Hb & _ & Hht & _).
  pose proof (chain_size bs c Hix Hnd) as Hsz. unfold blockstore_get_block_at_height, walk.
  rewrite Hb, last_lookup, Hht. split_and!.
  - intros Hh Hc. destruct c as [|g c]; [done|]. rewrite leb_t by (unfold Zlen; cbn; lia). cbn [ASSERT]. rewrite bind_ok.
    destruct (walk_back_height bs (g :: c) h (length c) (S (size (bs_heap bs))) Hwf) as (o & E & Ho); [cbn in *; lia..|].
    rewrite ltb_f in Ho by done. cbn [length pred]. by rewrite E, Ho.
  - intros p e Hh Hp He. pose proof (lookup_lt_Some _ _ _ Hp). rewrite leb_t by (unfold Zlen; lia). cbn [ASSERT]. rewrite bind_ok.
    destruct (walk_back_height bs c h (pred (length c)) (S (size (bs_heap bs))) Hwf) as (o & E & Ho); [lia..|].
    rewrite ltb_t in Ho by done. destruct Ho as (p' & Hp' & ->). simplify_eq. by rewrite E, He.
  - intros Hh. by rewrite leb_f by lia.
Qed.

(** *** The locator *)

(** The heights of a locator: ten in a row, then steps of 2, 4, 8... *)
Fixpoint locator_heights (fuel : nat) (h step n : Z) : list Z :=
  match fuel with
  | O => []
  | S fuel =>
      if h <? 0 then [] else
      let step := if 10 <=? n + 1 then step * 2 else step in
      h :: locator_heights fuel (h - step) step (n + 1)
  end.

Definition hash_at bs c (h : Z) : uint256 :=
  match (p ← c !! Z.to_nat h; bs_heap bs !! p) with
  | Some e => header_hash (be_header e)
  | None => uint256_zero_out
  end.

(** The block at a height, NULL below the genesis block. *)
Definition at_height c (h : Z) : option positive := if h <? 0 then None else c !! Z.to_nat h.

Lemma step_back_ok bs c s : forall fuel h,
  bs_wf bs c -> -1 <= h < Zlen c -> h + 1 < Z.of_nat fuel -> 0 <= s ->
  step_back fuel bs s (at_height c h) = Ok (at_height c (h - s)).
Proof.
  intros fuel h Hwf. pose proof Hwf as (_ & [_ Hc] & _). revert s h.
  induction fuel as [|fuel IH]; intros s h Hh Hf Hs; [lia|]. cbn [step_back]. unfold at_height at 1.
  destruct (Z.ltb_spec h 0) as [Hneg|Hpos].
  { unfold at_height. by rewrite ltb_t by lia. }
  destruct (lookup_lt_is_Some_2 c (Z.to_nat h)) as [p Hp]; [unfold Zlen in Hh; lia|]. rewrite Hp.
  destruct (Z.ltb_spec 0 s) as [H0|H0].
  2: { assert (s = 0) as -> by lia. unfold at_height. rewrite Z.sub_0_r, ltb_f by lia. by rewrite Hp. }
  destruct (Hc _ p Hp) as (e & He & _ & _ & Hpr). rewrite (deref_ok _ _ _ He), bind_ok.
  assert (be_prev e = at_height c (h - 1)) as ->.
  { unfold at_height. destruct (Z.to_nat h) as [|j] eqn:Ej.
    - rewrite ltb_t by lia. done.
    - rewrite ltb_f by lia. rewrite (proj1 Hpr). f_equal. lia. }
  rewrite IH by lia. f_equal. f_equal. lia.
Qed.

(** The height and the step after [n] entries, from the height [top]. *)
Definition locator_inv (top h step n : Z) : Prop :=
  0 <= n /\ (n <= 9 -> step = 1 /\ h = top - n) /\ (9 <= n -> step = 2 ^ (n - 9) /\ h = top - 7 - 2 ^ (n - 8)).

Lemma locator_inv_next top h step n :
  locator_inv top h step n -> 0 <= h -> top < 2 ^ 32 ->
  let step' := if 10 <=? n + 1 then step * 2 else step in
  n < 40 /\ 0 <= step' < 2 ^ 32 /\ locator_inv top (h - step') step' (n + 1).
Proof.
  intros (Hn & Hlow & Hhigh) Hh HH step'. destruct (decide (n <= 8)) as [Hs|Hs].
  - destruct Hlow as [-> ->]; [lia|]. unfold step'. rewrite leb_f by lia. split; [lia|]. split; [lia|].
    split; [lia|]. split; [lia|]. intros ?. assert (n = 8) as -> by lia. split; [done|]. cbn. lia.
  - destruct Hhigh as [-> ->]; [lia|]. unfold step'. rewrite leb_t by lia.
    assert (E1 : 2 ^ (n - 9) * 2 = 2 ^ (n - 8)).
    { replace (n - 8) with (Z.succ (n - 9)) by lia. rewrite Z.pow_succ_r by lia. lia. }
    assert (E2 : 2 ^ (n - 7) = 2 * 2 ^ (n - 8)).
    { replace (n - 7) with (Z.succ (n - 8)) by lia. by rewrite Z.pow_succ_r by lia. }
    assert (2 ^ (n - 8) < 2 ^ 32) by lia. assert (0 < 2 ^ (n - 8)) by (apply Z.pow_pos_nonneg; lia).
    assert (n - 8 < 32) by (apply (Z.pow_lt_mono_r_iff 2); lia).
    rewrite E1. split; [lia|]. split; [lia|]. split; [lia|]. split; [lia|]. intros _.
    replace (n + 1 - 9) with (n - 8) by lia. replace (n + 1 - 8) with (n - 7) by lia. split; [done|lia].
Qed.

Lemma locator_loop_ok bs c : forall fuel h step n,
  bs_wf bs c -> locator_inv (Zlen c - 1) h step n -> n <= 40 -> 65 <= n + Z.of_nat fuel ->
  locator_loop fuel bs (at_height c h) step n = Ok (map (hash_at bs c) (locator_heights fuel h step n)) /\
  n + Zlen (locator_heights fuel h step n) <= 40.
Proof.
  intros fuel h step n Hwf. pose proof Hwf as ([Hix _] & [Hnd Hc] & _).
  pose proof (chain_size bs c Hix Hnd) as Hsz. assert (Hlen : Zlen c < 2 ^ 32 - 1).
  { destruct Hix as ([_ Hs] & _). unfold Zlen. lia. }
  revert h step n. induction fuel as [|fuel IH]; intros h step n Hinv Hn Hf; [lia|].
  cbn [locator_loop locator_heights]. unfold at_height at 1. destruct (Z.ltb_spec h 0) as [Hneg|Hpos].
  { split; [done|]. rewrite Zlen_nil. lia. }
  destruct (locator_inv_next _ _ _ _ Hinv Hpos ltac:(lia)) as (Hn' & Hst & Hinv').
  assert (Hhc : h < Zlen c).
  { destruct Hinv as (? & Hl & Hg). destruct (decide (n <= 9)); [lia|].
    assert (0 < 2 ^ (n - 8)) by (apply Z.pow_pos_nonneg; lia). lia. }
  destruct (lookup_lt_is_Some_2 c (Z.to_nat h)) as [p Hp]; [unfold Zlen in Hhc; lia|].
  destruct (Hc _ p Hp) as (e & He & _). rewrite Hp, ltb_t by lia. cbn [ASSERT].
  rewrite bind_ok, (deref_ok _ _ _ He), bind_ok. cbv zeta in Hst, Hinv' |- *.
  replace (if 10 <=? n + 1 then wrap32 (step * 2) else step) with (if 10 <=? n + 1 then step * 2 else step).
  2: { destruct (10 <=? n + 1); [|done]. by rewrite wrap32_small. }
  set (step' := if 10 <=? n + 1 then step * 2 else step) in *.
  replace (Some p) with (at_height c h) by (unfold at_height; by rewrite ltb_f by lia).
  rewrite (step_back_ok bs c) by (done || (unfold Zlen in *; lia)). rewrite bind_ok.
  destruct (IH (h - step') step' (n + 1) Hinv' ltac:(lia) ltac:(lia)) as [-> Hlen']. rewrite bind_ok. split.
  - cbn [map]. do 2 f_equal. unfold hash_at. rewrite Hp. unfold mbind, option_bind. by rewrite He.
  - rewrite Zlen_cons. lia.
Qed.

Lemma locator_hashes_ok bs c :
  bs_wf bs c ->
  blockstore_get_locator_hashes bs = Ok (map (hash_at bs c) (locator_heights 65 (Zlen c - 1) 1 0)) /\
  Zlen (locator_heights 65 (Zlen c - 1) 1 0) <= 40.
Proof.
  intros Hwf. pose proof Hwf as (_ & _ & _ & Hb & _). unfold blockstore_get_locator_hashes.
  destruct (locator_loop_ok bs c 65 (Zlen c - 1) 1 0 Hwf) as [E Hl]; [|lia|lia|].
  - split; [lia|]. split; lia.
  - rewrite <- E. split; [|lia]. clear E Hl. f_equal. rewrite Hb, last_lookup. unfold at_height, Zlen.
    destruct c as [|g c]; [done|]. rewrite ltb_f by (cbn [length]; lia). f_equal. cbn [length]. lia.
Qed.

(** The locator lists the hashes of the best chain at the heights
    [locator_heights], from the last block down; they are 40 at most, so that
    the array of 64 entries is never full. The genesis block is listed only when
    a step falls on it. *)
Theorem blockstore_get_locator_hashes_ok bs c :
  bs_wf bs c ->
  blockstore_get_locator_hashes bs = Ok (map (hash_at bs c) (locator_heights 65 (Zlen c - 1) 1 0)) /\
  Zlen (locator_heights 65 (Zlen c - 1) 1 0) <= 40.
Proof. apply locator_hashes_ok. Qed.
End chain.

(** ** Concrete stores *)

Section stores.
Context `{Sha256} `{T : Table positive}.

(** [blockstore_init] with an empty file, before its first header. *)
Lemma empty_store_wf bs :
  bs_heap bs = ∅ -> tbl_ok (bs_hash_blk bs) ∅ -> tbl_ok (bs_hash_orphans bs) ∅ ->
  bs_best_chain bs = None -> bs_genesis bs = None -> bs_height bs = -1 -> bs_wf bs [].
Proof.
  intros Hh Hb Ho Hbest Hgen Hht. unfold bs_wf, tables_ok, index_ok, heap_ok. rewrite Hh.
  assert (Hk : forall k p, ~ keyed ∅ k p) by (intros k p (e & He & _); by rewrite lookup_empty in He).
  split_and!; try done.
  - intros k p q Hp. by apply Hk in Hp.
  - intros p Hp. by apply not_elem_of_nil in Hp.
  - exists ∅. split; [done|]. intros k p. rewrite lookup_empty. split; [done|]. intros [_ Hp]. by apply Hk in Hp.
  - exists ∅. split; [done|]. intros k p. rewrite lookup_empty. split; [done|]. intros [_ Hp]. by apply Hk in Hp.
  - split; [constructor|done].
Qed.

(** The conditions of a call, from the headers of the store alone. *)
Definition fits rank (m : gmap positive btc_block_header) (hdr : btc_block_header) : Prop :=
  map_Forall (fun _ h => header_hash h <> header_hash hdr) m /\ Z.of_nat (size m) < 2 ^ 32 - 2 /\
  map_Forall (fun _ h => ranked rank h) m /\ ranked rank hdr.

Lemma fits_unknown rank bs hdr :
  fits rank (headers (bs_heap bs)) hdr -> forall q, ~ keyed (bs_heap bs) (header_hash hdr) q.
Proof.
  intros (Hk & _) q (e & He & E). apply (Hk q (be_header e)); [|done]. unfold headers. by rewrite lookup_fmap, He.
Qed.

Lemma fits_size rank bs hdr : fits rank (headers (bs_heap bs)) hdr -> Z.of_nat (size (bs_heap bs)) < 2 ^ 32 - 2.
Proof. intros (_ & Hs & _). unfold headers in Hs. by rewrite map_size_fmap in Hs. Qed.

Lemma fits_ranked rank bs hdr :
  fits rank (headers (bs_heap bs)) hdr -> heap_ranked rank (bs_heap bs) /\ ranked rank hdr.
Proof. intros (_ & _ & Hr & Hh). split; [|done]. apply heap_ranked_headers. intros p h. apply Hr. Qed.

Definition next_of (m : gmap positive btc_block_header) : positive := fresh (dom m : gset positive).

Lemma next_of_headers bs : next_of (headers (bs_heap bs)) = next_entry bs.
Proof. unfold next_of, next_entry, headers. by rewrite (dom_fmap_L (D := gset positive)). Qed.

(** The new entry among entries with the same headers. *)
Definition entries_of m hdr : gmap positive blockentry := new_entry <$> <[next_of m := hdr]> m.

Lemma path_of_headers bs hdr c l o :
  let m := headers (bs_heap bs) in
  path (entries_of m hdr) c (next_of m) l o ->
  path (<[next_entry bs := new_entry hdr]> (bs_heap bs)) c (next_entry bs) l o.
Proof.
  intros m. unfold m at 2. rewrite next_of_headers. apply path_headers. unfold entries_of, headers.
  rewrite <- map_fmap_compose, fmap_insert. unfold m, headers. rewrite <- (next_of_headers bs).
  unfold headers. rewrite fmap_insert. f_equal. rewrite <- map_fmap_compose. done.
Qed.

Lemma add_header_at rank bs c hdr l o c' :
  let m := headers (bs_heap bs) in
  bs_wf bs c -> c <> [] -> bs_cpt bs = [] -> fits rank m hdr ->
  path (entries_of m hdr) c (next_of m) l o -> new_chain c (next_of m) l o = Some c' ->
  exists bs', bs_wf bs' c' /\ headers (bs_heap bs') = <[next_of m := hdr]> m /\ same_env bs bs'.
Proof.
  intros m Hwf Hc Hcpt Hfit Hl Hn. destruct (fits_ranked rank bs hdr Hfit) as [Hr Hh].
  pose proof (add_header_ok rank bs c hdr l o Hwf Hc (fits_unknown rank bs hdr Hfit) (fits_size rank bs hdr Hfit)
    (heap_ranked_new rank _ _ hdr Hr Hh)) as E. rewrite Hcpt in E. specialize (E eq_refl (path_of_headers _ _ _ _ _ Hl)).
  unfold m in *. rewrite next_of_headers in *. rewrite Hn in E. destruct E as (bs' & _ & Hwf' & Henv & Hd). by exists bs'.
Qed.
End stores.

Section witnesses.
#[local] Existing Instance toy_sha256.

Definition w_hdr (version : Z) (prev : uint256) : btc_block_header :=
  BlockHeader version prev (replicate 32 x00) 0 0 0.
Definition w_g : btc_block_header := w_hdr 1 (replicate 32 x00).
Definition w_b1 : btc_block_header := w_hdr 2 (header_hash w_g).
Definition w_b2 : btc_block_header := w_hdr 3 (header_hash w_b1).
Definition w_f2 : btc_block_header := w_hdr 4 (header_hash w_b1).
Definition w_f3 : btc_block_header := w_hdr 5 (header_hash w_f2).
Definition w_o1 : btc_block_header := w_hdr 6 (replicate 32 x03).
Definition w_o2 : btc_block_header := w_hdr 7 (header_hash w_o1).

(** The hash of the example begins with the version. *)
Definition w_rank (u : uint256) : nat := Z.to_nat (le_Z (take 1 u)).

#[local] Instance ranked_dec h : Decision (ranked w_rank h).
Proof. unfold ranked. apply _. Defined.
#[local] Instance fits_dec m hdr : Decision (fits w_rank m hdr).
Proof. unfold fits. apply _. Defined.

Ltac w_decide := apply (bool_decide_unpack _); vm_compute; exact I.
Ltac w_up q := eapply (path_up _ _ _ _ q);
  [w_decide|vm_compute; reflexivity|eexists; split; [vm_compute; reflexivity|vm_compute; reflexivity]|].

(** The store of the genesis block alone. *)
Lemma w_store_genesis :
  exists bs : blockstore, bs_wf bs [1%positive] /\ headers (bs_heap bs) = {[1%positive := w_g]} /\ bs_cpt bs = [] /\
    bs_genesis_hash bs = header_hash w_g.
Proof.
  destruct (t_create_ok (V := positive)) as (t & _ & Ht).
  set (bs := BlockStore ∅ (File [] 0 []) 0 (header_hash w_g) uint256_zero_out None None (-1) t t [] 0).
  assert (Hwf : bs_wf bs []) by by apply empty_store_wf.
  destruct (add_entry_genesis bs 1 w_g Hwf) as (bs' & _ & Hwf' & Henv & Hd); [done| |by vm_compute|done|].
  - intros q (e & He & _). by cbn in He; rewrite lookup_empty in He.
  - exists bs'. split; [done|]. split; [by rewrite Hd|]. destruct Henv as (_ & _ & -> & ->). done.
Qed.

(** Three blocks: the genesis block and [w_b1], [w_b2]. *)
Lemma w_store_3 :
  exists bs : blockstore, bs_wf bs [1; 2; 3]%positive /\ bs_cpt bs = [] /\
    headers (bs_heap bs) = <[3%positive := w_b2]> (<[2%positive := w_b1]> {[1%positive := w_g]}) /\
    bs_genesis_hash bs = header_hash w_g.
Proof.
  destruct w_store_genesis as (bs & Hwf & Hd & Hcpt & Hg).
  destruct (add_header_at w_rank bs [1]%positive w_b1 [2]%positive (Some 0%nat) [1; 2]%positive Hwf)
    as (bs1 & Hwf1 & Hd1 & (_ & _ & Hg1 & Hcpt1));
    [done|exact Hcpt|rewrite Hd; w_decide|rewrite Hd; w_up 1%positive; by constructor|rewrite Hd; vm_compute; reflexivity|].
  rewrite Hd in Hd1. rewrite Hcpt in Hcpt1. rewrite Hg in Hg1.
  change (next_of _) with 2%positive in Hd1.
  destruct (add_header_at w_rank bs1 [1; 2]%positive w_b2 [3]%positive (Some 1%nat) [1; 2; 3]%positive Hwf1)
    as (bs2 & Hwf2 & Hd2 & (_ & _ & Hg2 & Hcpt2));
    [done|exact Hcpt1|rewrite Hd1; w_decide|rewrite Hd1; w_up 2%positive; by constructor|rewrite Hd1; vm_compute; reflexivity|].
  exists bs2. rewrite Hd2, Hd1, Hcpt2, Hg2. by split_and!.
Qed.

(** And the orphan [w_f2], whose parent is [w_b1]. *)
Lemma w_store_4 :
  exists bs : blockstore, bs_wf bs [1; 2; 3]%positive /\ bs_cpt bs = [] /\
    headers (bs_heap bs) =
      <[4%positive := w_f2]> (<[3%positive := w_b2]> (<[2%positive := w_b1]> {[1%positive := w_g]})).
Proof.
  destruct w_store_3 as (bs & Hwf & Hcpt & Hd & _).
  destruct (add_header_at w_rank bs [1; 2; 3]%positive w_f2 [4]%positive (Some 1%nat) [1; 2; 3]%positive Hwf)
    as (bs1 & Hwf1 & Hd1 & (_ & _ & _ & Hcpt1));
    [done|exact Hcpt|rewrite Hd; w_decide|rewrite Hd; w_up 2%positive; by constructor|rewrite Hd; vm_compute; reflexivity|].
  exists bs1. rewrite Hd1, Hd, Hcpt1. by split_and!.
Qed.

Lemma blockstore_headers_safe_witness :
  exists bs : blockstore, bs_wf bs [1; 2; 3]%positive /\
    (add_headers [w_f2; w_f3] bs = Fault Panic \/
     exists bs' c', add_headers [w_f2; w_f3] bs = Ok bs' /\ bs_wf bs' c' /\ Zlen [1; 2; 3]%positive <= Zlen c' /\
       ([1; 2; 3]%positive <> [] -> head c' = head [1; 2; 3]%positive)).
Proof.
  destruct w_store_3 as (bs & Hwf & _ & Hd & _). exists bs. split; [done|].
  apply (blockstore_headers_safe w_rank [w_f2; w_f3] bs [1; 2; 3]%positive Hwf).
  - apply heap_ranked_headers. rewrite Hd. w_decide.
  - w_decide.
  - rewrite <- (map_size_fmap be_header (bs_heap bs)). fold (headers (bs_heap bs)). rewrite Hd. by vm_compute.
Defined.

(** [w_f3] makes the branch of [w_f2] longer than that of [w_b2]. *)
Lemma blockstore_reorg_witness :
  exists bs bs' : blockstore, bs_wf bs [1; 2; 3]%positive /\
    blockstore_add_header w_f3 (header_hash w_f3) bs = Ok ((true, false), bs') /\
    bs_wf bs' [1; 2; 4; 5]%positive /\ bs_height bs' = 3.
Proof.
  destruct w_store_4 as (bs & Hwf & Hcpt & Hd).
  assert (Hfit : fits w_rank (headers (bs_heap bs)) w_f3) by (rewrite Hd; w_decide).
  assert (Hl : path (entries_of (headers (bs_heap bs)) w_f3) [1; 2; 3]%positive (next_of (headers (bs_heap bs)))
    [5; 4]%positive (Some 1%nat)).
  { rewrite Hd. w_up 4%positive. w_up 2%positive. by constructor. }
  apply path_of_headers in Hl. destruct (fits_ranked w_rank bs w_f3 Hfit) as [Hr Hh].
  destruct (blockstore_reorg w_rank bs [1; 2; 3]%positive w_f3 [5; 4]%positive 1 Hwf (fits_unknown w_rank bs w_f3 Hfit)
    (fits_size w_rank bs w_f3 Hfit) (heap_ranked_new w_rank _ _ w_f3 Hr Hh)) as (bs' & E & Hwf' & Hht & _);
    [by rewrite Hcpt|exact Hl|lia|done|]. by exists bs, bs'.
Defined.

(** A block that forks at the genesis block. *)
Definition w_fork : btc_block_header := w_hdr 9 (header_hash w_g).

Lemma blockstore_genesis_fork_panics_witness :
  exists bs : blockstore, bs_wf bs [1; 2; 3]%positive /\
    blockstore_add_header w_fork (header_hash w_fork) bs = Fault Panic.
Proof.
  destruct w_store_3 as (bs & Hwf & Hcpt & Hd & Hg). exists bs. split; [done|].
  assert (Hfit : fits w_rank (headers (bs_heap bs)) w_fork) by (rewrite Hd; w_decide).
  destruct (fits_ranked w_rank bs w_fork Hfit) as [Hr Hh].
  apply (blockstore_genesis_fork_panics w_rank bs [1; 2; 3]%positive); [done|done|by rewrite Hg| | |done|done].
  - by apply (fits_unknown w_rank).
  - by apply (fits_size w_rank bs w_fork).
Defined.

(** Two headers out of nowhere, when the store has the genesis block alone. *)
Lemma blockstore_detached_chain_panics_witness :
  exists bs : blockstore, bs_wf bs [1]%positive /\
    blockstore_add_header w_o2 (header_hash w_o2) bs = Fault Panic.
Proof.
  destruct w_store_genesis as (bs0 & Hwf0 & Hd0 & Hcpt0 & _).
  assert (Hlost : forall q, ~ keyed (entries_of {[1%positive := w_g]} w_o1) (replicate 32 x03) q).
  { intros q Hq. assert (Hno : ~ exists q, keyed (entries_of {[1%positive := w_g]} w_o1) (replicate 32 x03) q) by w_decide.
    apply Hno. by exists q. }
  destruct (add_header_at w_rank bs0 [1]%positive w_o1 [2]%positive None [1]%positive Hwf0) as (bs & Hwf & Hd & _);
    [done|exact Hcpt0|rewrite Hd0; w_decide|rewrite Hd0; eapply path_lost; [w_decide|by vm_compute|exact Hlost]|
     rewrite Hd0; vm_compute; reflexivity|].
  rewrite Hd0 in Hd. change (next_of _) with 2%positive in Hd. exists bs. split; [done|].
  assert (Hfit : fits w_rank (headers (bs_heap bs)) w_o2) by (rewrite Hd; w_decide).
  destruct (fits_ranked w_rank bs w_o2 Hfit) as [Hr Hh].
  assert (Hl : path (entries_of (headers (bs_heap bs)) w_o2) [1]%positive (next_of (headers (bs_heap bs))) [3; 2]%positive None).
  { rewrite Hd. w_up 2%positive. eapply path_lost; [w_decide|by vm_compute|]. intros q Hq.
    assert (Hno : ~ exists q, keyed (entries_of (<[2%positive := w_o1]> {[1%positive := w_g]}) w_o2) (replicate 32 x03) q) by w_decide.
    apply Hno. by exists q. }
  apply path_of_headers in Hl.
  by apply (blockstore_detached_chain_panics w_rank bs [1]%positive w_o2 [3; 2]%positive Hwf ltac:(done)
    (fits_unknown w_rank bs w_o2 Hfit) (fits_size w_rank bs w_o2 Hfit) (heap_ranked_new w_rank _ _ w_o2 Hr Hh) Hl).
Defined.

Lemma blockstore_get_block_at_height_ok_witness :
  exists bs : blockstore, bs_wf bs [1; 2; 3]%positive /\
    blockstore_get_block_at_height bs 1 = Ok (Some (header_hash w_b1, w_b1)) /\
    blockstore_get_block_at_height bs 0 = Ok None /\ blockstore_get_block_at_height bs 3 = Fault Panic.
Proof.
  destruct w_store_3 as (bs & Hwf & _ & Hd & _). exists bs. split; [done|].
  destruct (blockstore_get_block_at_height_ok bs [1; 2; 3]%positive 1 Hwf) as (_ & H1 & _).
  destruct (blockstore_get_block_at_height_ok bs [1; 2; 3]%positive 0 Hwf) as (H0 & _).
  destruct (blockstore_get_block_at_height_ok bs [1; 2; 3]%positive 3 Hwf) as (_ & _ & H3).
  split_and!; [|by apply H0|by apply H3].
  assert (E : headers (bs_heap bs) !! 2%positive = Some w_b1) by by rewrite Hd.
  unfold headers in E. rewrite lookup_fmap in E. destruct (bs_heap bs !! 2%positive) as [e|] eqn:He; [|done].
  injection E as <-. by apply (H1 2%positive e).
Defined.

Lemma blockstore_get_locator_hashes_ok_witness :
  exists bs : blockstore, bs_wf bs [1; 2; 3]%positive /\
    blockstore_get_locator_hashes bs = Ok (map (hash_at bs [1; 2; 3]%positive) [2; 1; 0]).
Proof.
  destruct w_store_3 as (bs & Hwf & _). exists bs. split; [done|].
  by destruct (blockstore_get_locator_hashes_ok bs [1; 2; 3]%positive Hwf) as [-> _].
Defined.
End witnesses.
