(* ===== verification/Txdb.v ===== *)
(** * The transaction database (core/txdb.c)

    The transactions seen, the coins (outputs paying the wallet), the LevelDB
    store behind them, the choice of coins and the making of transactions.
    Entries are objects behind two hash tables, changed in place. The wallet is
    reached through the class [WalletApi], LevelDB through the class [LevelDb],
    the block store is that of BlockStore.v. *)
From Stdlib Require Import Strings.String Sorting.Sorted.
From S2P Require Export Script BlockStore Objects Files.

(** The order of byte strings: that of the keys of LevelDB. *)
Fixpoint bytes_le (a b : list byte) : bool :=
  match a, b with
  | [], _ => true
  | _ :: _, [] => false
  | x :: a, y :: b => if byte_Z x =? byte_Z y then bytes_le a b else byte_Z x <? byte_Z y
  end.


Lemma bytes_le_total a : forall b, bytes_le a b = false -> bytes_le b a = true.
Proof.
  induction a as [|x a IH]; intros [|y b]; cbn; [done..|]. destruct (Z.eqb_spec (byte_Z x) (byte_Z y)) as [E|E].
  - rewrite E, Z.eqb_refl. apply IH.
  - rewrite eqb_f by congruence. intros Hf. zbool. lia.
Qed.

Lemma bytes_le_trans a : forall b c, bytes_le a b = true -> bytes_le b c = true -> bytes_le a c = true.
Proof.
  induction a as [|x a IH]; intros [|y b] [|z c]; cbn; try done. intros H1 H2.
  destruct (Z.eqb_spec (byte_Z x) (byte_Z y)), (Z.eqb_spec (byte_Z y) (byte_Z z)), (Z.eqb_spec (byte_Z x) (byte_Z z));
    zbool; try lia; eauto.
Qed.

Lemma bytes_le_antisym a : forall b, bytes_le a b = true -> bytes_le b a = true -> a = b.
Proof.
  induction a as [|x a IH]; intros [|y b]; cbn; try done. rewrite (Z.eqb_sym (byte_Z y)).
  destruct (Z.eqb_spec (byte_Z x) (byte_Z y)) as [E|E]; intros H1 H2; [|zbool; lia].
  apply byte_Z_inj in E as ->. f_equal. by apply IH.
Qed.

(** ** What the database calls *)

(** LevelDB: a map from keys to values in the order of the keys; a put that
    reports an error may or may not have been done. *)
Class LevelDb : Type := {
  leveldb : Type;
  leveldb_put : leveldb -> list byte -> list byte -> bool * leveldb;
  leveldb_iter : leveldb -> list (list byte * list byte);
  leveldb_map : leveldb -> gmap (list byte) (list byte);
  leveldb_iter_ok : forall d, leveldb_iter d ≡ₚ map_to_list (leveldb_map d);
  leveldb_iter_sorted : forall d, StronglySorted (fun a b => bytes_le a.1 b.1 = true) (leveldb_iter d);
  leveldb_put_ok : forall d k v, let '(err, d') := leveldb_put d k v in
    leveldb_map d' = <[k := v]> (leveldb_map d) \/ (err = true /\ leveldb_map d' = leveldb_map d)
}.

(** The wallet (core/wallet.c): the hashes of its public keys. *)
Class WalletApi : Type := {
  wallet_is_pubkey_hash160_mine : uint160 -> res bool;
  wallet_is_pubkey_spendable : uint160 -> res bool;
  wallet_get_change_addr : res (list byte);
  is_mine : uint160 -> bool;
  wallet_mine_ok : forall h, wallet_is_pubkey_hash160_mine h = Ok (is_mine h);
  wallet_spendable_ok : forall h, is_mine h = true -> exists b, wallet_is_pubkey_spendable h = Ok b
}.

(** ** The records *)

Record tx_ser_data : Type := TxSerData { sd_blkHash : uint256; sd_timestamp : Z; sd_buf : list byte; sd_len : Z }.
Record tx_ser_key : Type := TxSerKey { sk_seq : Z; sk_txHash : uint256 }.
Record tx_entry : Type := TxEntry {
  te_tx : btc_msg_tx; te_blkHash : uint256; te_timestamp : Z; te_relevant : bool }.
Record txo_entry : Type := TxoEntry {
  xo_txHash : uint256; xo_blkHash : uint256; xo_btc_addr : option (list byte); xo_outIdx : Z; xo_value : Z;
  xo_spent : bool; xo_spendable : bool }.

(** core/bitc.h; [label] is left out. *)
Record btc_tx_dst : Type := TxDst { td_addr : list byte; td_value : Z }.
Record btc_tx_desc : Type := TxDesc {
  td_num_addr : Z; td_total_value : Z; td_fee : Z; td_dst : list btc_tx_dst }.

(** core/bitc_ui.h, the fields that are not text. *)
Record bitcui_tx : Type := BitcuiTx { ui_txHash : uint256; ui_value : Z; ui_blockHeight : Z; ui_timestamp : Z }.

(** The calls into the peer group. *)
Inductive relay : Type :=
| RelayNew (buf : list byte) (expiry : Z) (hash : uint256)
| RelayStop (hash : uint256).

Definition set_blkHash (h : uint256) (e : tx_entry) : tx_entry := TxEntry (te_tx e) h (te_timestamp e) (te_relevant e).
Definition set_relevant (e : tx_entry) : tx_entry := TxEntry (te_tx e) (te_blkHash e) (te_timestamp e) true.
Definition set_spent (e : txo_entry) : txo_entry :=
  TxoEntry (xo_txHash e) (xo_blkHash e) (xo_btc_addr e) (xo_outIdx e) (xo_value e) true (xo_spendable e).

(** The first [n] entries of an array. *)
Definition first_n {A : Type} (n : Z) (l : list A) : res (list A) :=
  if n <=? Zlen l then Ok (take (Z.to_nat n) l) else Fault UB.

(** [memcmp(a, b, n) <= 0] *)
Fixpoint memcmp_le (a b : list byte) : bool :=
  match a, b with
  | x :: a, y :: b => if byte_Z x =? byte_Z y then memcmp_le a b else byte_Z x <? byte_Z y
  | _, _ => true
  end.

(** ** The keys and values of the store *)

(** [%010] of a 64-bit integer *)
Definition print_010 (n : Z) : list byte :=
  let s := dec_str 20 n in replicate (10 - length s) x30 ++ s.

(** [%10llu] of sscanf: a sign counts in the width, a negative value wraps. *)
Definition scan_u64 (s : list byte) : option (Z * list byte) :=
  let s := skip_blank s in
  let '(neg, w, s) :=
    match s with
    | c :: t => if bool_decide (c = x2d) then (true, 9%nat, t) else if bool_decide (c = x2b) then (false, 9%nat, t)
                else (false, 10%nat, s)
    | [] => (false, 10%nat, s)
    end in
  let '(v, n, s) := scan_digits w s 0 0 in
  if bool_decide (n = 0%nat) then None else Some (wrap64 (if neg : bool then - v else v), s).

(** [sscanf(key, "/tx/%010llu/%s", ...)]: [None] unless both are found. *)
Definition scan_tx_key (s : list byte) : option (Z * list byte) :=
  if bool_decide (take 4 s = str "/tx/") then
    '(seq, s) ← scan_u64 (drop 4 s);
    match s with
    | c :: s => if bool_decide (c = x2f) then
                  let w := take_word (skip_blank s) in
                  if bool_decide (w = []) then None else Some (seq, w)
                else None
    | [] => None
    end
  else None.

Section store.
Context `{Malloc}.

Definition txdb_serialize_tx_key (tx_seq : Z) (hashStr : list byte) : res buff :=
  let s := str "/tx/" ++ print_010 tx_seq ++ str "/" ++ hashStr in
  let s := take 255 s ++ [x00] in
  '(_, buf) ← serialize_bytes (Some s) (Zlen s) buff_alloc;
  Ok buf.

Definition txdb_deserialize_tx_key (key : list byte) : res tx_ser_key :=
  s ← match c_string key with Some s => Ok s | None => Fault UB end;
  match scan_tx_key s with
  | None => Fault Panic
  | Some (seq, w) =>
      if 80 <=? Zlen w then Fault UB else
      let '(s, txHash) := uint256_from_str w uint256_zero_out in
      _ ← ASSERT s;
      Ok (TxSerKey seq txHash)
  end.

(** The first three fields are used even when they could not be read. *)
Definition txdb_deserialize_tx_data (val : list byte) : res tx_ser_data :=
  let buf := buff_init val (Zlen val) in
  '((r0, blkHash), buf) ← deserialize_uint256 uint256_zero_out buf;
  '((r1, timestamp), buf) ← deserialize_uint64 0 buf;
  '((r2, len), buf) ← deserialize_varint 0 buf;
  if r0 || r1 || r2 then Fault UB else
  '((_, bytes), buf) ← deserialize_bytes len buf;
  '(rest, _) ← buff_space_left buf;
  _ ← ASSERT (rest =? 0);
  Ok (TxSerData blkHash timestamp (default (replicate (Z.to_nat len) x00) bytes) len).

Definition txdb_serialize_tx_data (tx : tx_ser_data) : res buff :=
  '(_, buf) ←
    (_ ← serialize_uint256 (sd_blkHash tx);
     _ ← serialize_uint64 (sd_timestamp tx);
     _ ← serialize_varint (sd_len tx);
     serialize_bytes (Some (sd_buf tx)) (sd_len tx)) buff_alloc;
  Ok buf.
End store.

(** ** The database *)

Section txdb.
Context `{Malloc} `{Sha256} `{BigNum} `{KR : !KeyRing} `{WalletApi} `{T : Table positive} `{DB : LevelDb}.

(** [txes] and [txos] are the memory of the entries; [relays] the calls made
    into the peer group, the last one first. *)
Record txdb : Type := Txdb {
  txes : gmap positive tx_entry; txos : gmap positive txo_entry;
  hash_tx : table; hash_txo : table;
  tx_seq : Z; db : leveldb; relays : list relay }.

(** The rest of the application: the clock, [btcui->inuse],
    [bitc_state_ready()], [bitc_testing], the result of
    [peergroup_new_tx_broadcast] and the block store. *)
Record bitc_env : Type := BitcEnv {
  env_time : Z; env_ui : bool; env_ready : bool; env_testing : bool; env_broadcast : bool;
  env_blockStore : blockstore }.

Definition with_txes (x : gmap positive tx_entry) (d : txdb) : txdb :=
  Txdb x (txos d) (hash_tx d) (hash_txo d) (tx_seq d) (db d) (relays d).
Definition with_txos (x : gmap positive txo_entry) (d : txdb) : txdb :=
  Txdb (txes d) x (hash_tx d) (hash_txo d) (tx_seq d) (db d) (relays d).
Definition with_hash_tx (t : table) (d : txdb) : txdb :=
  Txdb (txes d) (txos d) t (hash_txo d) (tx_seq d) (db d) (relays d).
Definition with_hash_txo (t : table) (d : txdb) : txdb :=
  Txdb (txes d) (txos d) (hash_tx d) t (tx_seq d) (db d) (relays d).
Definition with_tx_seq (n : Z) (d : txdb) : txdb :=
  Txdb (txes d) (txos d) (hash_tx d) (hash_txo d) n (db d) (relays d).
Definition with_db (x : leveldb) (d : txdb) : txdb :=
  Txdb (txes d) (txos d) (hash_tx d) (hash_txo d) (tx_seq d) x (relays d).
Definition with_relay (r : relay) (d : txdb) : txdb :=
  Txdb (txes d) (txos d) (hash_tx d) (hash_txo d) (tx_seq d) (db d) (r :: relays d).

(** The key of a coin. *)
Definition txo_key (txHash : uint256) (outIdx : Z) : list byte := txHash ++ le_bytes 4 outIdx.

(** The hash of the public key an output pays, when it is the wallet's. *)
Definition txo_mine (txo : btc_msg_tx_out) : res (option uint160) :=
  '(err, addr) ← script_parse_pubkey_hash (to_scriptPubKey txo) (to_scriptLength txo);
  if (err : bool) then Ok None else
  mine ← wallet_is_pubkey_hash160_mine addr;
  Ok (if (mine : bool) then Some addr else None).

Fixpoint credit_loop (outs : list btc_msg_tx_out) (credit : Z) : res Z :=
  match outs with
  | [] => Ok credit
  | txo :: outs =>
      m ← txo_mine txo;
      credit_loop outs (match m with Some _ => wrap64 (credit + to_value txo) | None => credit end)
  end.
Definition txdb_get_tx_credit (tx : btc_msg_tx) : res Z :=
  outs ← first_n (tx_out_count tx) (tx_out tx); credit_loop outs 0.

Definition txdb_lookup_txo (d : txdb) (txHash : uint256) (outIdx : Z) : res (option positive) :=
  t_lookup (hash_txo d) (txo_key txHash outIdx).

Fixpoint debit_loop (d : txdb) (ins : list btc_msg_tx_in) (debit : Z) : res Z :=
  match ins with
  | [] => Ok debit
  | txi :: ins =>
      o ← txdb_lookup_txo d (ti_prevTxHash txi) (ti_prevTxOutIdx txi);
      match o with
      | None => debit_loop d ins debit
      | Some p => e ← obj_load (txos d) p; debit_loop d ins (wrap64 (debit + xo_value e))
      end
  end.
Definition txdb_get_tx_debit (d : txdb) (tx : btc_msg_tx) : res Z :=
  ins ← first_n (tx_in_count tx) (tx_in tx); debit_loop d ins 0.

Definition txdb_get_tx_entry (d : txdb) (hash : uint256) : res (option positive) := t_lookup (hash_tx d) hash.

Definition txdb_has_tx (d : txdb) (hash : uint256) : res bool :=
  txe ← txdb_get_tx_entry d hash; Ok (bool_decide (is_Some txe)).

(** *** Processing a transaction *)

(** The first loop of [txdb_process_tx_entry]. *)
Fixpoint spend_inputs (ins : list btc_msg_tx_in) (relevant : bool) (d : txdb) : res (bool * txdb) :=
  match ins with
  | [] => Ok (relevant, d)
  | txi :: ins =>
      o ← txdb_lookup_txo d (ti_prevTxHash txi) (ti_prevTxOutIdx txi);
      match o with
      | None => spend_inputs ins relevant d
      | Some p =>
          e ← obj_load (txos d) p;
          _ ← ASSERT (negb (xo_spent e));
          spend_inputs ins true (with_txos (<[p := set_spent e]> (txos d)) d)
      end
  end.

(** The second loop, from the output [i]. *)
Fixpoint add_outputs (txHash : uint256) (blkHash : option uint256) (i : Z) (outs : list btc_msg_tx_out)
    (relevant : bool) (d : txdb) : res (bool * txdb) :=
  match outs with
  | [] => Ok (relevant, d)
  | txo :: outs =>
      m ← txo_mine txo;
      match m with
      | None => add_outputs txHash blkHash (i + 1) outs relevant d
      | Some pub_key =>
          addr ← b58_pubkey_from_uint160 pub_key;
          spendable ← wallet_is_pubkey_spendable pub_key;
          let e := TxoEntry txHash (default uint256_zero_out blkHash) addr i (to_value txo) false spendable in
          let p := obj_new (txos d) in
          '(s, t) ← t_insert (hash_txo d) (txo_key txHash i) p;
          _ ← ASSERT s;
          add_outputs txHash blkHash (i + 1) outs true (with_hash_txo t (with_txos (<[p := e]> (txos d)) d))
      end
  end.

Definition txdb_process_tx_entry (txHash : uint256) (blkHash : option uint256) (tx : btc_msg_tx)
    (relevant : bool) (d : txdb) : res (bool * txdb) :=
  _ ← ASSERT (negb relevant);
  ins ← first_n (tx_in_count tx) (tx_in tx);
  '(relevant, d) ← spend_inputs ins relevant d;
  outs ← first_n (tx_out_count tx) (tx_out tx);
  add_outputs txHash blkHash 0 outs relevant d.

(** *** The balance *)

Definition txdb_get_balance_cb (d : txdb) (_ : list byte) (p : positive) (balance : Z) : res Z :=
  e ← obj_load (txos d) p;
  Ok (if xo_spent e then balance else wrap64 (balance + xo_value e)).

Definition txdb_get_balance (d : txdb) : res Z :=
  t_for_each (hash_txo d) (txdb_get_balance_cb d) 0.

(** *** Exporting to the user interface *)

Definition int64_diff (a b : Z) : Z := sint64 (wrap64 (a - b)).

Definition txdb_export_tx_cb (env : bitc_env) (d : txdb) (key : list byte) (p : positive) (l : list bitcui_tx) :
    res (list bitcui_tx) :=
  txe ← obj_load (txes d) p;
  if negb (te_relevant txe) then Ok l else
  _ ← ASSERT (Zlen key =? 32);
  credit ← txdb_get_tx_credit (te_tx txe);
  debit ← txdb_get_tx_debit d (te_tx txe);
  blockHeight ←
    (if negb (uint256_iszero (Some (te_blkHash txe)))
     then blockstore_get_block_height (env_blockStore env) (te_blkHash txe)
     else Ok (2 ^ 32 - 1));
  Ok (l ++ [BitcuiTx key (int64_diff credit debit) (wrap32 blockHeight) (te_timestamp txe)]).

(** [txdb_bitcui_tx_entry_compare_cb <= 0]: by height, then by hash. *)
Definition txdb_bitcui_tx_entry_compare (a b : bitcui_tx) : bool :=
  if ui_blockHeight a =? ui_blockHeight b then memcmp_le (ui_txHash a) (ui_txHash b)
  else ui_blockHeight a <=? ui_blockHeight b.

(** What the interface is given, if any. *)
Definition txdb_export_tx_info (env : bitc_env) (d : txdb) : res (list bitcui_tx) :=
  if negb (env_ui env) then Ok [] else
  l ← t_for_each (hash_tx d) (txdb_export_tx_cb env d) [];
  Ok (qsort txdb_bitcui_tx_entry_compare l).

(** *** The table of transactions and the store *)

Definition txdb_remove_from_hashtable (txHash : uint256) (d : txdb) : res txdb :=
  o ← txdb_get_tx_entry d txHash;
  match o with
  | None => Ok d
  | Some p =>
      txe ← obj_load (txes d) p;
      if te_relevant txe then Ok d else
      '(_, t) ← t_remove (hash_tx d) txHash;
      Ok (with_hash_tx t d)
  end.

(** The new entry. *)
Definition txdb_add_to_hashtable (buf : list byte) (txHash : uint256) (blkHash : option uint256) (timestamp : Z)
    (d : txdb) : res (positive * txdb) :=
  '((r, tx), _) ← deserialize_tx (buff_init buf (Zlen buf));
  _ ← ASSERT (negb r);
  let p := obj_new (txes d) in
  '(s, t) ← t_insert (hash_tx d) txHash p;
  _ ← ASSERT s;
  let txe := TxEntry tx (default uint256_zero_out blkHash) timestamp false in
  Ok (p, with_hash_tx t (with_txes (<[p := txe]> (txes d)) d)).

Definition txdb_save_tx (blkHash : option uint256) (txHash : uint256) (timestamp : Z) (buf : list byte) (d : txdb) :
    res (bool * txdb) :=
  let txdata := TxSerData (default uint256_zero_out blkHash) timestamp buf (Zlen buf) in
  hashStr ← uint256_to_str txHash;
  bufk ← txdb_serialize_tx_key (tx_seq d) hashStr;
  bufd ← txdb_serialize_tx_data txdata;
  let '(err, x) := leveldb_put (db d) (contents bufk) (contents bufd) in
  Ok (err, with_db x d).

(** The loop over the store of [txdb_confirm_one_tx]. *)
Fixpoint confirm_loop (env : bitc_env) (blkHash txHash : uint256) (l : list (list byte * list byte)) (d : txdb) :
    res txdb :=
  match l with
  | [] => Ok d
  | (key, val) :: l =>
      txkey ← txdb_deserialize_tx_key key;
      if negb (uint256_issame txHash (sk_txHash txkey)) then confirm_loop env blkHash txHash l d else
      txdata ← txdb_deserialize_tx_data val;
      _ ← ASSERT (uint256_iszero (Some (sd_blkHash txdata)));
      _ ← ASSERT (negb (sd_timestamp txdata =? 0));
      buf ← txdb_serialize_tx_data (TxSerData blkHash (sd_timestamp txdata) (sd_buf txdata) (sd_len txdata));
      let '(_, x) := leveldb_put (db d) key (contents buf) in
      let d := with_db x d in
      _ ← txdb_export_tx_info env d;
      Ok d
  end.

Definition txdb_confirm_one_tx (env : bitc_env) (blkHash txHash : uint256) (d : txdb) : res txdb :=
  _ ← ASSERT (negb (uint256_iszero (Some blkHash)));
  _ ← ASSERT (negb (uint256_iszero (Some txHash)));
  o ← txdb_get_tx_entry d txHash;
  match o with
  | None => Ok d
  | Some p =>
      txe ← obj_load (txes d) p;
      if negb (te_relevant txe) then txdb_remove_from_hashtable txHash d else
      if negb (uint256_iszero (Some (te_blkHash txe)))
      then _ ← ASSERT (uint256_issame (te_blkHash txe) blkHash); Ok d
      else
        let d := with_relay (RelayStop txHash) d in
        let d := with_txes (<[p := set_blkHash blkHash txe]> (txes d)) d in
        confirm_loop env blkHash txHash (leveldb_iter (db d)) d
  end.

(** The result, [*relevant] and the database. *)
Definition txdb_remember_tx (env : bitc_env) (alreadySaved : bool) (ts : Z) (buf : list byte) (txHash : uint256)
    (blkHash : option uint256) (d : txdb) : res (bool * bool * txdb) :=
  '(p, d) ← txdb_add_to_hashtable buf txHash blkHash ts d;
  txe ← obj_load (txes d) p;
  '(rel, d) ← txdb_process_tx_entry txHash blkHash (te_tx txe) (te_relevant txe) d;
  if negb (rel : bool) then Ok (false, false, d) else
  let d := with_txes (<[p := set_relevant txe]> (txes d)) d in
  if alreadySaved then Ok (false, false, d) else
  '(res, d) ← txdb_save_tx blkHash txHash ts buf d;
  let d := if res : bool then d else with_tx_seq (wrap64 (tx_seq d + 1)) d in
  _ ← txdb_export_tx_info env d;
  _ ← (if env_ready env
       then credit ← txdb_get_tx_credit (te_tx txe); debit ← txdb_get_tx_debit d (te_tx txe); Ok (int64_diff credit debit)
       else Ok 0);
  Ok (res, true, d).

Definition txdb_handle_tx (env : bitc_env) (blkHash : uint256) (buf : list byte) (d : txdb) :
    res (bool * bool * txdb) :=
  let txHash := hash256_calc buf in
  txKnown ← txdb_has_tx d txHash;
  d ← (if negb (uint256_iszero (Some blkHash)) then txdb_confirm_one_tx env blkHash txHash d else Ok d);
  if txKnown : bool then Ok (false, false, d) else
  ts ← (if uint256_iszero (Some blkHash) then Ok (env_time env)
        else blockstore_get_block_timestamp (env_blockStore env) blkHash);
  txdb_remember_tx env false ts buf txHash (Some blkHash) d.

(** *** Opening *)

Definition txdb_load_tx (env : bitc_env) (key val : list byte) (d : txdb) : res (bool * txdb) :=
  _ ← ASSERT (bool_decide (take 4 key = str "/tx/"));
  txk ← txdb_deserialize_tx_key key;
  txd ← txdb_deserialize_tx_data val;
  _ ← ASSERT (tx_seq d =? sk_seq txk);
  let d := with_tx_seq (wrap64 (tx_seq d + 1)) d in
  let confirmed := negb (uint256_iszero (Some (sd_blkHash txd))) in
  bytes ← ptr_load (Some (sd_buf txd)) (sd_len txd);
  let txHash := hash256_calc bytes in
  _ ← ASSERT (uint256_issame txHash (sk_txHash txk));
  '(res, _, d) ← txdb_remember_tx env true (sd_timestamp txd) bytes (sk_txHash txk) (Some (sd_blkHash txd)) d;
  let d := if confirmed then d else with_relay (RelayNew bytes (wrap64 (sd_timestamp txd + 2 * 60 * 60)) txHash) d in
  Ok (res, d).

(** The loop of [txdb_open] over the entries of the store. *)
Fixpoint txdb_load (env : bitc_env) (l : list (list byte * list byte)) (d : txdb) : res txdb :=
  match l with
  | [] => Ok d
  | (key, val) :: l =>
      if (4 <? Zlen key) && bool_decide (take 4 key = str "/tx/") then
        '(res, d) ← txdb_load_tx env key val d;
        _ ← ASSERT (negb res);
        txdb_load env l d
      else txdb_load env l d
  end.

(** [x] is the store, when it could be opened; [limit] entries are visited
    before [btc->stop] is set. The path is that of the directory of the store. *)
Definition txdb_open (env : bitc_env) (x : option leveldb) (limit : nat) (dk : disk) : res (option txdb * disk) :=
  txo ← t_create;
  tx ← t_create;
  match x with
  | None => Ok (None, dk)
  | Some x =>
      '(res, dk) ← going_on (chmod_path true dk);
      if res : bool then Ok (None, dk) else
      d ← txdb_load env (take limit (leveldb_iter x)) (Txdb ∅ ∅ tx txo 0 x []);
      _ ← txdb_export_tx_info env d;
      Ok (Some d, dk)
  end.

(** *** Making a transaction *)

(** [type0] is what an uninitialised byte holds. *)
Definition txdb_set_txo (type0 : Z) (out_count : Z) (idx : Z) (btc_addr : list byte) (value : Z)
    (outs : list btc_msg_tx_out) : res (list btc_msg_tx_out) :=
  o ← b58_pubkey_to_uint160 type0 btc_addr;
  let pubkey := default (malloc_fill 20) o in
  _ ← log_bytes (Some (str "TXDB: hash-addr:")) pubkey;
  _ ← ASSERT (idx <? out_count);
  '(script, len) ← script_txo_generate pubkey;
  if idx <? Zlen outs then Ok (<[Z.to_nat idx := TxOut value len script]> outs) else Fault UB.

Fixpoint prepare_loop (type0 : Z) (out_count : Z) (i : Z) (dst : list btc_tx_dst) (outs : list btc_msg_tx_out) :
    res (list btc_msg_tx_out) :=
  match dst with
  | [] => Ok outs
  | x :: dst =>
      outs ← txdb_set_txo type0 out_count i (td_addr x) (td_value x) outs;
      prepare_loop type0 out_count (i + 1) dst outs
  end.

(** The array has one more entry, for the change: it is added with the change. *)
Definition txdb_prepare_txout (type0 : Z) (tx_desc : btc_tx_desc) (tx : btc_msg_tx) : res btc_msg_tx :=
  _ ← ASSERT (bool_decide (tx_out tx = []));
  dst ← first_n (td_num_addr tx_desc) (td_dst tx_desc);
  outs ← prepare_loop type0 (td_num_addr tx_desc) 0 dst (replicate (Z.to_nat (td_num_addr tx_desc)) zero_tx_out);
  Ok (Tx (tx_in_count tx) (tx_in tx) (td_num_addr tx_desc) outs (tx_version tx) (tx_lock_time tx)).

Definition with_inputs (ins : list btc_msg_tx_in) (tx : btc_msg_tx) : btc_msg_tx :=
  Tx (Zlen ins) ins (tx_out_count tx) (tx_out tx) (tx_version tx) (tx_lock_time tx).

(** The coins, copied, in the order of the iteration. *)
Fixpoint load_coins (d : txdb) (l : list (list byte * positive)) : res (list txo_entry) :=
  match l with
  | [] => Ok []
  | (_, p) :: l => e ← obj_load (txos d) p; t ← load_coins d l; Ok (e :: t)
  end.

(** The time of the block of each coin. *)
Fixpoint coin_times (env : bitc_env) (l : list txo_entry) : res (list (Z * txo_entry)) :=
  match l with
  | [] => Ok []
  | e :: l =>
      t0 ← blockstore_get_block_timestamp (env_blockStore env) (xo_blkHash e);
      t ← coin_times env l;
      Ok ((t0, e) :: t)
  end.

(** [txdb_txo_entry_compare_cb <= 0]. *)
Definition txdb_txo_entry_compare (a b : Z * txo_entry) : bool :=
  if a.1 =? b.1 then xo_outIdx a.2 <=? xo_outIdx b.2 else a.1 <=? b.1.

(** Two coins at least are compared: each has its time looked up. *)
Definition txdb_get_coins_sorted (env : bitc_env) (d : txdb) : res (list txo_entry) :=
  let n := t_getnumentries (hash_txo d) in
  _ ← ASSERT (negb (n =? 0));
  coins ← load_coins d (t_entries (hash_txo d));
  if Zlen coins <=? 1 then Ok coins else
  l ← coin_times env coins;
  Ok (map snd (qsort txdb_txo_entry_compare l)).

(** The loop of [txdb_select_coins]: [numCoins] entries are allocated. *)
Fixpoint select_loop (target numCoins : Z) (coins : list txo_entry) (value : Z) (ins : list btc_msg_tx_in) :
    res (Z * list btc_msg_tx_in) :=
  if negb (value <? target) then Ok (value, ins) else
  match coins with
  | [] => Ok (value, ins)
  | e :: coins =>
      if xo_spent e || negb (xo_spendable e) then select_loop target numCoins coins value ins else
      if uint256_iszero (Some (xo_blkHash e)) then select_loop target numCoins coins value ins else
      if numCoins <=? Zlen ins then Fault UB else
      select_loop target numCoins coins (wrap64 (value + xo_value e))
        (ins ++ [TxIn (xo_txHash e) (xo_outIdx e) 0 None (2 ^ 32 - 1)])
  end.

(** The inputs and the change. *)
Definition txdb_select_coins (env : bitc_env) (d : txdb) (desc : btc_tx_desc) (tx : btc_msg_tx) :
    res (btc_msg_tx * Z) :=
  txo_array ← txdb_get_coins_sorted env d;
  '(value, ins) ← select_loop (wrap64 (td_total_value desc + td_fee desc)) (t_getnumentries (hash_txo d)) txo_array 0 [];
  _ ← ASSERT (td_total_value desc <=? value);
  Ok (with_inputs ins tx, wrap64 (value - td_total_value desc - td_fee desc)).

(** From the input [i], [n] inputs. *)
Fixpoint sign_loop (d : txdb) (n : nat) (i : Z) (tx : btc_msg_tx) : res btc_msg_tx :=
  match n with
  | O => Ok tx
  | S n =>
      txi ← match tx_in tx !! Z.to_nat i with Some txi => Ok txi | None => Fault UB end;
      o ← t_lookup (hash_tx d) (ti_prevTxHash txi);
      p ← match o with Some p => Ok p | None => Fault Panic end;
      txe ← obj_load (txes d) p;
      _ ← ASSERT (ti_prevTxOutIdx txi <? tx_out_count (te_tx txe));
      txoFrom ← match tx_out (te_tx txe) !! Z.to_nat (ti_prevTxOutIdx txi) with Some o => Ok o | None => Fault UB end;
      '(res, tx) ← script_sign txoFrom tx i SIGHASH_ALL;
      _ ← ASSERT (negb (res : bool));
      sign_loop d n (i + 1) tx
  end.
Definition txdb_sign_tx_inputs (d : txdb) (tx : btc_msg_tx) : res btc_msg_tx :=
  sign_loop d (Z.to_nat (tx_in_count tx)) 0 tx.

(** The change goes to a further output. *)
Definition txdb_add_change (type0 : Z) (change : Z) (tx : btc_msg_tx) : res btc_msg_tx :=
  if 0 <? change then
    btc_change ← wallet_get_change_addr;
    let out_count := tx_out_count tx + 1 in
    outs ← txdb_set_txo type0 out_count (out_count - 1) btc_change change (tx_out tx ++ [zero_tx_out]);
    Ok (Tx (tx_in_count tx) (tx_in tx) out_count outs (tx_version tx) (tx_lock_time tx))
  else Ok tx.

(** The result, the transaction and the database. The labels are left out. *)
Definition txdb_craft_tx (env : bitc_env) (type0 : Z) (tx_desc : btc_tx_desc) (tx : btc_msg_tx) (d : txdb) :
    res (bool * btc_msg_tx * txdb) :=
  let tx := Tx (tx_in_count tx) (tx_in tx) (tx_out_count tx) (tx_out tx) 1 (tx_lock_time tx) in
  tx ← txdb_prepare_txout type0 tx_desc tx;
  '(tx, change) ← txdb_select_coins env d tx_desc tx;
  tx ← txdb_add_change type0 change tx;
  tx ← txdb_sign_tx_inputs d tx;
  _ ← btcmsg_print_tx tx;
  '(_, buf) ← serialize_tx tx buff_alloc;
  let bytes := contents buf in
  if BTC_TX_MAX_SIZE <? buff_curlen (Some buf) then Ok (true, tx, d) else
  let txHash := hash256_calc bytes in
  _ ← log_bytes (Some (str "TXDB: TX: ")) bytes;
  if env_testing env then Ok (false, tx, d) else
  let ts := env_time env in
  '(_, _, d) ← txdb_remember_tx env false ts bytes txHash None d;
  _ ← txdb_export_tx_info env d;
  Ok (env_broadcast env, tx, with_relay (RelayNew bytes (wrap64 (ts + 2 * 60 * 60)) txHash) d).
End txdb.
