(* ===== verification/Coins.v ===== *)
(** * The coins of the transaction database

    The tables of txdb.c stand for two maps: the transactions by hash, the coins
    by output. The functions on these maps are the specification of the
    handlers; the theorems follow the balance, the coins spent and received, and
    the choice of coins. *)
From Stdlib Require Import Strings.String.
From S2P Require Export Txdb BlockChain.

Section coins.
Context `{Malloc} `{Sha256} `{BigNum} `{KR : !KeyRing} `{WalletApi} `{T : Table positive} `{DB : LevelDb}.
Implicit Types d : txdb.
Implicit Types mt : gmap (list byte) tx_entry.
Implicit Types mo : gmap (list byte) txo_entry.

(** The tables stand for the maps. *)
Definition txdb_rep d mt mo : Prop := rep (hash_tx d) (txes d) mt /\ rep (hash_txo d) (txos d) mo.

(** ** The specification *)

Definition txi_key (txi : btc_msg_tx_in) : list byte := txo_key (ti_prevTxHash txi) (ti_prevTxOutIdx txi).

Fixpoint spend_map (ins : list btc_msg_tx_in) (rel : bool) mo : res (bool * gmap (list byte) txo_entry) :=
  match ins with
  | [] => Ok (rel, mo)
  | txi :: ins =>
      match mo !! txi_key txi with
      | None => spend_map ins rel mo
      | Some e => if xo_spent e then Fault Panic else spend_map ins true (<[txi_key txi := set_spent e]> mo)
      end
  end.

(** The coin of an output. *)
Definition new_coin (txHash : uint256) (blkHash : option uint256) (i : Z) (txo : btc_msg_tx_out) (h : uint160) :
    res txo_entry :=
  addr ← b58_pubkey_from_uint160 h;
  spendable ← wallet_is_pubkey_spendable h;
  Ok (TxoEntry txHash (default uint256_zero_out blkHash) addr i (to_value txo) false spendable).

Fixpoint receive_map (txHash : uint256) (blkHash : option uint256) (i : Z) (outs : list btc_msg_tx_out) (rel : bool) mo :
    res (bool * gmap (list byte) txo_entry) :=
  match outs with
  | [] => Ok (rel, mo)
  | txo :: outs =>
      m ← txo_mine txo;
      match m with
      | None => receive_map txHash blkHash (i + 1) outs rel mo
      | Some h =>
          e ← new_coin txHash blkHash i txo h;
          _ ← ASSERT (bool_decide (mo !! txo_key txHash i = None));
          receive_map txHash blkHash (i + 1) outs true (<[txo_key txHash i := e]> mo)
      end
  end.

Definition process_map (txHash : uint256) (blkHash : option uint256) (tx : btc_msg_tx) mo :
    res (bool * gmap (list byte) txo_entry) :=
  ins ← first_n (tx_in_count tx) (tx_in tx);
  '(rel, mo) ← spend_map ins false mo;
  outs ← first_n (tx_out_count tx) (tx_out tx);
  receive_map txHash blkHash 0 outs rel mo.

(** What is not spent, and the values of the coins a transaction spends. *)
Definition unspent (e : txo_entry) : Z := if xo_spent e then 0 else xo_value e.
Definition balance mo : Z := map_fold (fun _ e b => unspent e + b) 0 mo.
Definition debit mo (ins : list btc_msg_tx_in) : Z :=
  foldr (fun txi b => match mo !! txi_key txi with Some e => xo_value e + b | None => b end) 0 ins.

(** ** The handlers follow it *)

Definition same_txes d d' : Prop :=
  txes d' = txes d /\ hash_tx d' = hash_tx d /\ tx_seq d' = tx_seq d /\ db d' = db d /\ relays d' = relays d.

Definition refines {A : Type} (r : res (A * txdb)) (s : res (A * gmap (list byte) txo_entry)) d : Prop :=
  match s with
  | Ok (a, mo) => exists d', r = Ok (a, d') /\ rep (hash_txo d') (txos d') mo /\ same_txes d d'
  | Fault f => r = Fault f
  end.

Lemma refines_trans {A : Type} (r : res (A * txdb)) s d d' : same_txes d d' -> refines r s d' -> refines r s d.
Proof.
  intros (? & ? & ? & ? & ?) Hr. destruct s as [[a mo]|f]; [|done]. destruct Hr as (d2 & E & Hrep & (? & ? & ? & ? & ?)).
  exists d2. split_and!; [done|done|]. unfold same_txes. by split_and!; etransitivity.
Qed.

Lemma spend_map_size ins : forall rel mo rel' mo', spend_map ins rel mo = Ok (rel', mo') -> size mo' = size mo.
Proof.
  induction ins as [|txi ins IH]; cbn [spend_map]; intros rel mo rel' mo'; [by intros [= _ <-]|].
  destruct (mo !! txi_key txi) as [e|] eqn:Ek; [|apply IH]. destruct (xo_spent e); [done|].
  intros E%IH. rewrite E. apply map_size_insert_Some. by exists e.
Qed.

Lemma first_n_length {A : Type} n (l l' : list A) : first_n n l = Ok l' -> Zlen l' <= Zlen l.
Proof. unfold first_n. destruct (n <=? Zlen l); [|done]. intros [= <-]. unfold Zlen. rewrite length_take. lia. Qed.

Lemma spend_inputs_refines ins : forall rel d mo,
  rep (hash_txo d) (txos d) mo -> refines (spend_inputs ins rel d) (spend_map ins rel mo) d.
Proof.
  induction ins as [|txi ins IH]; intros rel d mo Hrep; [by exists d|]. cbn [spend_inputs spend_map].
  unfold txdb_lookup_txo. fold (txi_key txi). destruct (rep_lookup _ _ _ (txi_key txi) Hrep) as ([p|] & Eo & Hp).
  2: { rewrite Eo, Hp, bind_ok. by apply IH. }
  destruct Hp as [Ep [e Ee]]. rewrite Eo, Ee, bind_ok. rewrite Ee in Ep. rewrite (obj_load_ok _ _ _ Ep), bind_ok.
  destruct (xo_spent e); [done|]. cbn [negb ASSERT]. rewrite bind_ok.
  apply (refines_trans _ _ d (with_txos (<[p := set_spent e]> (txos d)) d)); [done|].
  apply IH. by apply rep_update.
Qed.

Lemma add_outputs_refines txHash blkHash outs : forall i rel d mo,
  rep (hash_txo d) (txos d) mo -> Z.of_nat (size mo) + Zlen outs < 2 ^ 32 - 1 ->
  refines (add_outputs txHash blkHash i outs rel d) (receive_map txHash blkHash i outs rel mo) d.
Proof.
  induction outs as [|txo outs IH]; intros i rel d mo Hrep Hs; [by exists d|]. cbn [add_outputs receive_map].
  rewrite Zlen_cons in Hs. pose proof (Zlen_nonneg outs).
  destruct (txo_mine txo) as [[h|]|f]; [|rewrite !bind_ok; apply IH; [done|lia]|done]. rewrite !bind_ok.
  unfold new_coin. destruct (b58_pubkey_from_uint160 h) as [addr|f]; [|done]. rewrite !bind_ok.
  destruct (wallet_is_pubkey_spendable h) as [spendable|f]; [|done]. rewrite !bind_ok.
  set (e := TxoEntry _ _ _ _ _ _ _).
  destruct (rep_insert _ _ _ (txo_key txHash i) (obj_new (txos d)) e Hrep (obj_new_fresh _)) as (t & -> & Ht); [lia|].
  rewrite bind_ok. case_bool_decide as Hk; [|done]. cbn [ASSERT]. rewrite !bind_ok.
  apply (refines_trans _ _ d (with_hash_txo t (with_txos (<[obj_new (txos d) := e]> (txos d)) d))); [done|].
  apply IH; [by apply (Ht Hk)|]. rewrite map_size_insert_None by done. lia.
Qed.

Lemma process_refines txHash blkHash tx d mo :
  rep (hash_txo d) (txos d) mo -> Z.of_nat (size mo) + Zlen (tx_out tx) < 2 ^ 32 - 1 ->
  refines (txdb_process_tx_entry txHash blkHash tx false d) (process_map txHash blkHash tx mo) d.
Proof.
  intros Hrep Hs. unfold txdb_process_tx_entry, process_map. cbn [negb ASSERT]. rewrite bind_ok.
  destruct (first_n _ (tx_in tx)) as [ins|f]; [|done]. rewrite !bind_ok.
  pose proof (spend_inputs_refines ins false d mo Hrep) as Hsp.
  destruct (spend_map ins false mo) as [[rel mo1]|f] eqn:Es; [|by rewrite Hsp].
  destruct Hsp as (d1 & -> & Hrep1 & Hsame). rewrite !bind_ok.
  destruct (first_n (tx_out_count tx) (tx_out tx)) as [outs|f] eqn:Eo; [|done]. rewrite !bind_ok.
  apply (refines_trans _ _ d d1 Hsame), add_outputs_refines; [done|].
  rewrite (spend_map_size _ _ _ _ _ Es). pose proof (first_n_length _ _ _ Eo). lia.
Qed.

(** ** The balance *)

Lemma balance_empty : balance ∅ = 0.
Proof. apply map_fold_empty. Qed.

Lemma balance_insert mo k e : mo !! k = None -> balance (<[k := e]> mo) = unspent e + balance mo.
Proof. intros Hk. apply (map_fold_insert_L (fun _ e b => unspent e + b)); [lia|done]. Qed.

Lemma balance_update mo k e0 e :
  mo !! k = Some e0 -> balance (<[k := e]> mo) + unspent e0 = balance mo + unspent e.
Proof.
  intros Hk. rewrite <- (insert_delete_id mo k e0 Hk) at 2. rewrite <- (insert_delete_eq mo).
  rewrite !balance_insert by apply lookup_delete_eq. lia.
Qed.

Lemma debit_update mo k e0 e ins : mo !! k = Some e0 -> xo_value e = xo_value e0 -> debit (<[k := e]> mo) ins = debit mo ins.
Proof.
  intros Hk Hv. induction ins as [|txi ins IH]; [done|]. cbn [debit foldr]. fold (debit (<[k := e]> mo) ins) (debit mo ins).
  destruct (decide (k = txi_key txi)) as [->|Hne]; [|by rewrite lookup_insert_ne, IH].
  by rewrite lookup_insert_eq, Hk, IH, Hv.
Qed.

Lemma spend_map_balance ins : forall rel mo rel' mo',
  spend_map ins rel mo = Ok (rel', mo') -> balance mo' = balance mo - debit mo ins.
Proof.
  induction ins as [|txi ins IH]; cbn [spend_map]; intros rel mo rel' mo'.
  { intros [= <- <-]. cbn. lia. }
  cbn [debit foldr]. fold (debit mo ins). destruct (mo !! txi_key txi) as [e|] eqn:Ek; [|apply IH].
  destruct (xo_spent e) eqn:Es; [done|]. intros E%IH.
  rewrite (debit_update _ _ e) in E by done. pose proof (balance_update mo (txi_key txi) e (set_spent e) Ek) as Hb.
  unfold unspent in Hb. rewrite Es in Hb. cbn in Hb. lia.
Qed.

(** The values of the outputs that pay the wallet. *)
Fixpoint credit (outs : list btc_msg_tx_out) : res Z :=
  match outs with
  | [] => Ok 0
  | txo :: outs => m ← txo_mine txo; c ← credit outs; Ok (match m with Some _ => to_value txo + c | None => c end)
  end.

Lemma receive_map_balance txHash blkHash outs : forall i rel mo rel' mo',
  receive_map txHash blkHash i outs rel mo = Ok (rel', mo') ->
  exists c, credit outs = Ok c /\ balance mo' = balance mo + c.
Proof.
  induction outs as [|txo outs IH]; cbn [receive_map credit]; intros i rel mo rel' mo'.
  { intros [= <- <-]. exists 0. split; [done|lia]. }
  destruct (txo_mine txo) as [[h|]|f]; [| |done]; rewrite !bind_ok.
  2: { intros (c & -> & E)%IH. by exists c. }
  destruct (new_coin txHash blkHash i txo h) as [e|f] eqn:Ec; [|done]. rewrite bind_ok.
  case_bool_decide as Hk; [|done]. cbn [ASSERT]. rewrite bind_ok. intros (c & -> & E)%IH.
  exists (to_value txo + c). split; [done|]. rewrite E, balance_insert by done.
  unfold new_coin in Ec. apply res_bind_Ok in Ec as (addr & _ & Ec). apply res_bind_Ok in Ec as (b & _ & [= <-]).
  cbn. lia.
Qed.

Lemma process_map_balance txHash blkHash tx mo rel mo' :
  process_map txHash blkHash tx mo = Ok (rel, mo') ->
  exists ins outs c, first_n (tx_in_count tx) (tx_in tx) = Ok ins /\ first_n (tx_out_count tx) (tx_out tx) = Ok outs /\
    credit outs = Ok c /\ balance mo' = balance mo + c - debit mo ins.
Proof.
  unfold process_map. intros (ins & Ei & E)%res_bind_Ok. apply res_bind_Ok in E as ([rel1 mo1] & Es & E).
  apply res_bind_Ok in E as (outs & Eo & E). apply receive_map_balance in E as (c & Ec & E).
  apply spend_map_balance in Es. exists ins, outs, c. split_and!; [done..|]. lia.
Qed.

Lemma wrap64_balance a c e : wrap64 (wrap64 a + wrap64 c - wrap64 e) = wrap64 (a + c - e).
Proof. unfold wrap64. by rewrite Zminus_mod_idemp_r, <- Zminus_mod_idemp_l, <- Zplus_mod, Zminus_mod_idemp_l. Qed.

Definition total (l : list (list byte * txo_entry)) : Z := foldr (fun x b => unspent x.2 + b) 0 l.

#[local] Instance total_proper : Proper ((≡ₚ) ==> eq) total.
Proof.
  intros l l' Hl. unfold total. induction Hl as [|x l l' _ IH|x y l|l l' l2 _ IH1 _ IH2]; [done|..]; cbn [foldr]; lia.
Qed.

Lemma balance_total mo : balance mo = total (map_to_list mo).
Proof.
  unfold balance, total. rewrite map_fold_foldr. induction (map_to_list mo) as [|[k e] l IH]; [done|]. cbn. by rewrite IH.
Qed.

(** [txdb_get_balance] is the balance, to 64 bits. *)
Lemma get_balance_ok d mo : rep (hash_txo d) (txos d) mo -> txdb_get_balance d = Ok (wrap64 (balance mo)).
Proof.
  intros Hrep. destruct (rep_entries _ _ _ Hrep) as (l & Hl & HF).
  rewrite balance_total. erewrite <- total_proper by exact Hl. unfold txdb_get_balance, t_for_each.
  assert (E : forall a b, b = wrap64 a ->
    fold_entries (txdb_get_balance_cb d) (t_entries (hash_txo d)) b = Ok (wrap64 (a + total l))).
  { clear Hl. induction HF as [|[k p] [k' e] es l [_ Ee] _ IH]; intros a b ->.
    - cbn. by rewrite Z.add_0_r.
    - cbn [fold_entries]. unfold txdb_get_balance_cb at 2. cbn [snd] in Ee. rewrite (obj_load_ok _ _ _ Ee), !bind_ok.
      cbn [total foldr snd]. fold (total l). rewrite Z.add_assoc. apply IH. unfold unspent.
      destruct (xo_spent e); [by rewrite Z.add_0_r|]. unfold wrap64. by rewrite Zplus_mod_idemp_l. }
  by apply (E 0).
Qed.

Lemma get_tx_debit_ok d mo tx ins :
  rep (hash_txo d) (txos d) mo -> first_n (tx_in_count tx) (tx_in tx) = Ok ins ->
  txdb_get_tx_debit d tx = Ok (wrap64 (debit mo ins)).
Proof.
  intros Hrep Ei. unfold txdb_get_tx_debit. rewrite Ei, bind_ok. clear Ei.
  assert (E : forall a b, b = wrap64 a -> debit_loop d ins b = Ok (wrap64 (a + debit mo ins))).
  { induction ins as [|txi ins IH]; intros a b ->; [by cbn; rewrite Z.add_0_r|].
    cbn [debit_loop debit foldr]. fold (debit mo ins). unfold txdb_lookup_txo. fold (txi_key txi).
    destruct (rep_lookup _ _ _ (txi_key txi) Hrep) as ([p|] & Eo & Hp); rewrite Eo, bind_ok.
    2: { rewrite Hp. by apply IH. }
    destruct Hp as [Ep [e Ee]]. rewrite Ee in *. rewrite (obj_load_ok _ _ _ Ep), bind_ok.
    rewrite Z.add_assoc. apply IH. unfold wrap64. by rewrite Zplus_mod_idemp_l. }
  by apply (E 0).
Qed.

Lemma get_tx_credit_ok tx outs c :
  first_n (tx_out_count tx) (tx_out tx) = Ok outs -> credit outs = Ok c -> txdb_get_tx_credit tx = Ok (wrap64 c).
Proof.
  intros Eo Ec. unfold txdb_get_tx_credit. rewrite Eo, bind_ok. clear Eo.
  assert (E : forall a b, b = wrap64 a -> credit_loop outs b = Ok (wrap64 (a + c))).
  { revert c Ec. induction outs as [|txo outs IH]; cbn [credit credit_loop]; intros c Ec a b ->.
    { injection Ec as <-. by rewrite Z.add_0_r. }
    apply res_bind_Ok in Ec as (m & -> & Ec). apply res_bind_Ok in Ec as (c' & E' & [= <-]). rewrite bind_ok.
    destruct m as [h|]; [|by apply IH]. rewrite Z.add_assoc. apply IH; [done|]. unfold wrap64. by rewrite Zplus_mod_idemp_l. }
  by apply (E 0).
Qed.
End coins.

(** ** A wallet of one key, for the examples *)

(** A map, iterated in the order of the keys. *)
Definition map_leveldb : LevelDb.
Proof.
  refine {| leveldb := gmap (list byte) (list byte); leveldb_put := fun d k v => (false, <[k := v]> d);
    leveldb_iter := fun d => isort (fun a b => bytes_le a.1 b.1) (map_to_list d); leveldb_map := fun d => d |}.
  - intros d. apply isort_perm.
  - intros d. apply (isort_sorted (fun a b => bytes_le a.1 b.1)).
    + intros a b. apply bytes_le_total.
    + intros a b e. apply bytes_le_trans.
  - intros d k v. by left.
Defined.

Definition toy_address : list byte := Eval vm_compute in
  match @b58_pubkey_from_uint160 Z_bignum toy_sha256 toy_pubkey_hash with Ok (Some s) => s | _ => [] end.

Definition toy_wallet : WalletApi.
Proof.
  refine {| wallet_is_pubkey_hash160_mine := fun h => Ok (bool_decide (h = toy_pubkey_hash));
    wallet_is_pubkey_spendable := fun h => Ok true; wallet_get_change_addr := Ok toy_address;
    is_mine := fun h => bool_decide (h = toy_pubkey_hash) |}; [done|].
  intros h _. by exists true.
Defined.

#[local] Existing Instance zero_malloc.
#[local] Existing Instance toy_sha256.
#[local] Existing Instance Z_bignum.
#[local] Existing Instance toy_keyring.
#[local] Existing Instance toy_wallet.
#[local] Existing Instance map_leveldb.

Definition w_pay (value : Z) : btc_msg_tx_out :=
  let spk := p2pkh_bytes [x14] toy_pubkey_hash in TxOut value (Zlen spk) (Some spk).
(** A payment of 5000 and 700 to the wallet, and one of 4000 out of its first coin. *)
Definition w_tx1 : btc_msg_tx := Tx 0 [] 2 [w_pay 5000; w_pay 700] 1 0.
Definition w_tx2 (h : uint256) : btc_msg_tx := Tx 1 [TxIn h 0 0 (Some []) 0] 1 [w_pay 4000] 2 0.
Definition w_h1 : uint256 := replicate 32 x01.
Definition w_h2 : uint256 := replicate 32 x02.

Lemma w_txdb_empty : exists d, rep (hash_tx d) (txes d) ∅ /\ rep (hash_txo d) (txos d) ∅ /\ db d = ∅ /\ relays d = [].
Proof.
  destruct (t_create_ok (V := positive)) as (t & _ & Ht). exists (Txdb ∅ ∅ t t 0 ∅ []). split_and!; [| |done|done]; by apply rep_empty.
Qed.

(** The coins after the two transactions. *)
Definition w_coin (h : uint256) (i value : Z) (spent : bool) : txo_entry :=
  TxoEntry h uint256_zero_out (Some toy_address) i value spent true.
Definition w_coins1 : gmap (list byte) txo_entry :=
  <[txo_key w_h1 1 := w_coin w_h1 1 700 false]> (<[txo_key w_h1 0 := w_coin w_h1 0 5000 false]> ∅).
Definition w_coins2 : gmap (list byte) txo_entry :=
  <[txo_key w_h2 0 := w_coin w_h2 0 4000 false]> (<[txo_key w_h1 0 := w_coin w_h1 0 5000 true]> w_coins1).

Lemma w_txdb_1 : exists d, rep (hash_txo d) (txos d) w_coins1.
Proof.
  destruct w_txdb_empty as (d0 & _ & Hrep & _). pose proof (process_refines w_h1 None w_tx1 d0 ∅ Hrep eq_refl) as Hp.
  assert (E : process_map w_h1 None w_tx1 ∅ = Ok (true, w_coins1)) by (vm_cast_no_check (eq_refl (Ok (true, w_coins1)))).
  rewrite E in Hp. destruct Hp as (d1 & _ & Hrep1 & _). by exists d1.
Qed.

(** C14: txdb_process_tx_entry marks the coins a transaction spends and adds the
    coins it pays to the wallet as the specification on maps says, stopping
    where it stops, and the balance the database reports moves by exactly the
    credit and the debit it computes for the transaction, modulo 2^64. *)
Theorem txdb_process_refines `{Malloc} `{Sha256} `{BigNum} `{!KeyRing} `{WalletApi} `{Table positive} `{LevelDb}
    (h : uint256) (blk : option uint256) (tx : btc_msg_tx) (d : txdb) (mo : gmap (list byte) txo_entry) :
  rep (hash_txo d) (txos d) mo -> Z.of_nat (size mo) + Zlen (tx_out tx) < 2 ^ 32 - 1 ->
  match process_map h blk tx mo with
  | Ok (rel, mo') => exists d' b c e,
      txdb_process_tx_entry h blk tx false d = Ok (rel, d') /\ rep (hash_txo d') (txos d') mo' /\ same_txes d d' /\
      txdb_get_balance d = Ok b /\ txdb_get_tx_credit tx = Ok c /\ txdb_get_tx_debit d tx = Ok e /\
      txdb_get_balance d' = Ok (wrap64 (b + c - e))
  | Fault f => txdb_process_tx_entry h blk tx false d = Fault f
  end.
Proof.
  intros Hrep Hs. pose proof (process_refines h blk tx d mo Hrep Hs) as Hp.
  destruct (process_map h blk tx mo) as [[rel mo']|f] eqn:Em; [|done].
  destruct Hp as (d' & E & Hrep' & Hsame). destruct (process_map_balance _ _ _ _ _ _ Em) as (ins & outs & c & Ei & Eo & Ec & Hb).
  exists d', (wrap64 (balance mo)), (wrap64 c), (wrap64 (debit mo ins)). split_and!; try done.
  - by apply get_balance_ok.
  - by apply (get_tx_credit_ok _ outs).
  - by apply (get_tx_debit_ok _ mo).
  - rewrite (get_balance_ok _ mo') by done. by rewrite Hb, wrap64_balance.
Qed.

(** 5700 in the wallet, 5000 spent to send 4000 back. *)
Lemma txdb_process_refines_witness :
  exists d d', txdb_get_balance d = Ok 5700 /\ txdb_process_tx_entry w_h2 None (w_tx2 w_h1) false d = Ok (true, d') /\
    rep (hash_txo d') (txos d') w_coins2 /\ txdb_get_balance d' = Ok 4700.
Proof.
  destruct w_txdb_1 as (d & Hrep). pose proof (txdb_process_refines w_h2 None (w_tx2 w_h1) d _ Hrep) as Hp.
  assert (E : process_map w_h2 None (w_tx2 w_h1) w_coins1 = Ok (true, w_coins2)) by (vm_cast_no_check (eq_refl (Ok (true, w_coins2)))).
  rewrite E in Hp. destruct Hp as (d' & b & c & e & Ep & Hrep' & _ & Eb & _ & _ & _); [vm_compute; reflexivity|].
  exists d, d'. split; [rewrite (get_balance_ok _ _ Hrep); vm_compute; reflexivity|]. split; [exact Ep|]. split; [exact Hrep'|].
  rewrite (get_balance_ok _ _ Hrep'). vm_compute. reflexivity.
Defined.
