(* ===== verification/Ledger.v ===== *)
(** * What the transaction database keeps true

    The books: every coin is an output, to the wallet, of a known relevant
    transaction and every such output is a coin; a coin is marked spent only by a
    known relevant transaction. The handlers of txdb.c keep the books, which is
    why their lookups succeed when a transaction is signed. *)
From Stdlib Require Import Strings.String.
From S2P Require Export Coins.

Section ledger.
Context `{Malloc} `{Sha256} `{BigNum} `{KR : !KeyRing} `{WalletApi} `{T : Table positive} `{DB : LevelDb}.
Implicit Types d : txdb.
Implicit Types mt : gmap (list byte) tx_entry.
Implicit Types mo : gmap (list byte) txo_entry.

(** The output [i] of the transaction [te] pays the wallet. *)
Definition pays (te : tx_entry) (i : Z) (o : btc_msg_tx_out) : Prop :=
  0 <= i /\ tx_out (te_tx te) !! Z.to_nat i = Some o /\ exists a, txo_mine o = Ok (Some a).

Definition coin_of mt (k : list byte) (e : txo_entry) : Prop :=
  exists te o, mt !! xo_txHash e = Some te /\ te_relevant te = true /\ k = txo_key (xo_txHash e) (xo_outIdx e) /\
    pays te (xo_outIdx e) o /\ to_value o = xo_value e.

Definition spent_by mt (k : list byte) : Prop :=
  exists h te txi, mt !! h = Some te /\ te_relevant te = true /\ txi ∈ tx_in (te_tx te) /\ txi_key txi = k.

Record books mt mo : Prop := Books {
  bk_tx : forall h te, mt !! h = Some te -> is_uint256 h /\ tx_loaded (te_tx te);
  bk_coin : forall k e, mo !! k = Some e -> coin_of mt k e;
  bk_all : forall h te i o, mt !! h = Some te -> pays te i o -> is_Some (mo !! txo_key h i);
  bk_spent : forall k e, mo !! k = Some e -> xo_spent e = true -> spent_by mt k
}.

Definition ledger d mt mo : Prop := txdb_rep d mt mo /\ books mt mo.

(** ** Processing a transaction keeps the books *)

Lemma txo_key_hash h1 h2 i1 i2 : is_uint256 h1 -> is_uint256 h2 -> txo_key h1 i1 = txo_key h2 i2 -> h1 = h2.
Proof. intros E1 E2 E. unfold txo_key in E. apply app_inj_1 in E as [? _]; [done|]. unfold is_uint256 in *. lia. Qed.

Lemma spend_map_spec ins : forall rel mo rel' mo',
  spend_map ins rel mo = Ok (rel', mo') ->
  (rel = true -> rel' = true) /\ (forall k, is_Some (mo !! k) -> is_Some (mo' !! k)) /\
  (forall k e', mo' !! k = Some e' -> exists e, mo !! k = Some e /\
    (e' = e \/ e' = set_spent e /\ rel' = true /\ exists txi, txi ∈ ins /\ txi_key txi = k)).
Proof.
  induction ins as [|txi ins IH]; cbn [spend_map]; intros rel mo rel' mo'.
  { intros [= <- <-]. split_and!; [done|done|]. eauto. }
  assert (Hin : forall (txi' : btc_msg_tx_in) (k : list byte), txi' ∈ ins /\ txi_key txi' = k ->
    txi' ∈ txi :: ins /\ txi_key txi' = k) by (intros ? ? []; split; [by constructor|done]).
  destruct (mo !! txi_key txi) as [e|] eqn:Ek.
  - destruct (xo_spent e); [done|]. intros E. destruct (IH _ _ _ _ E) as (Hr & Hdom & Hval). clear IH.
    specialize (Hr eq_refl) as ->. split_and!; [done| |].
    + intros k Hk. apply Hdom. destruct (decide (txi_key txi = k)) as [<-|Hne]; [|by rewrite lookup_insert_ne].
      rewrite lookup_insert_eq. eauto.
    + intros k e' Hk. destruct (Hval k e' Hk) as (e1 & E1 & Hc).
      apply lookup_insert_Some in E1 as [[<- <-]|[Hne E1]].
      * exists e. split; [done|]. right. split; [by destruct Hc as [->|[-> _]]|]. split; [done|]. exists txi. by split; [constructor|].
      * exists e1. split; [done|]. destruct Hc as [?|(? & ? & txi' & Hx)]; [by left|]. right. split_and!; [done|done|]. eauto.
  - intros E. destruct (IH _ _ _ _ E) as (Hr & Hdom & Hval). split_and!; [done|done|]. intros k e' Hk.
    destruct (Hval k e' Hk) as (e & Ee & Hc). exists e. split; [done|].
    destruct Hc as [?|(? & ? & txi' & Hx)]; [by left|]. right. split_and!; [done|done|]. eauto.
Qed.

Lemma receive_map_spec h blk outs : forall i rel mo rel' mo',
  receive_map h blk i outs rel mo = Ok (rel', mo') ->
  (rel = true -> rel' = true) /\ (forall k e, mo !! k = Some e -> mo' !! k = Some e) /\
  (forall k e, mo' !! k = Some e -> mo !! k = Some e \/ exists j o a, outs !! j = Some o /\ txo_mine o = Ok (Some a) /\
    k = txo_key h (i + Z.of_nat j) /\ new_coin h blk (i + Z.of_nat j) o a = Ok e /\ rel' = true) /\
  (forall j o a, outs !! j = Some o -> txo_mine o = Ok (Some a) -> is_Some (mo' !! txo_key h (i + Z.of_nat j))).
Proof.
  induction outs as [|txo outs IH]; cbn [receive_map]; intros i rel mo rel' mo'.
  { intros [= <- <-]. split_and!; [done|done|by left|by intros []]. }
  intros (m & Em & E)%res_bind_Ok. destruct m as [a|].
  - apply res_bind_Ok in E as (e0 & Ec & E). case_bool_decide as Hk; [|done]. cbn [ASSERT] in E. rewrite bind_ok in E.
    destruct (IH _ _ _ _ _ E) as (Hr & Hold & Hnew & Hall). clear IH. specialize (Hr eq_refl) as ->. split_and!; [done|..].
    + intros k e Hke. apply Hold. rewrite lookup_insert_ne; [done|congruence].
    + intros k e Hke. destruct (Hnew k e Hke) as [E1|(j & o & a' & Ho & Hm & -> & Hc & _)].
      * apply lookup_insert_Some in E1 as [[<- <-]|[_ ?]]; [|by left]. right. exists 0%nat, txo, a.
        rewrite Z.add_0_r. by split_and!.
      * right. exists (S j), o, a'. replace (i + Z.of_nat (S j)) with (i + 1 + Z.of_nat j) by lia. by split_and!.
    + intros [|j] o a' Ho Hm.
      * injection Ho as ->. rewrite Z.add_0_r. rewrite (Hold _ e0) by apply lookup_insert_eq. eauto.
      * replace (i + Z.of_nat (S j)) with (i + 1 + Z.of_nat j) by lia. by apply (Hall j o a').
  - destruct (IH _ _ _ _ _ E) as (Hr & Hold & Hnew & Hall). split_and!; [done|done|..].
    + intros k e Hke. destruct (Hnew k e Hke) as [E1|(j & o & a' & Ho & Hm & -> & Hc & Hrel)]; [by left|].
      right. exists (S j), o, a'. replace (i + Z.of_nat (S j)) with (i + 1 + Z.of_nat j) by lia. by split_and!.
    + intros [|j] o a' Ho Hm; [injection Ho as ->; congruence|].
      replace (i + Z.of_nat (S j)) with (i + 1 + Z.of_nat j) by lia. by apply (Hall j o a').
Qed.

Lemma new_coin_fields h blk i o a e :
  new_coin h blk i o a = Ok e -> xo_txHash e = h /\ xo_outIdx e = i /\ xo_value e = to_value o /\ xo_spent e = false.
Proof. unfold new_coin. intros (? & _ & E)%res_bind_Ok. by apply res_bind_Ok in E as (? & _ & [= <-]). Qed.

Lemma first_n_all {A : Type} n (l : list A) : n = Zlen l -> first_n n l = Ok l.
Proof. intros ->. unfold first_n. rewrite Z.leb_refl. rewrite to_nat_Zlen. by rewrite firstn_all. Qed.

Lemma process_map_eq h blk tx mo : tx_loaded tx ->
  process_map h blk tx mo = ('(rel, mo) ← spend_map (tx_in tx) false mo; receive_map h blk 0 (tx_out tx) rel mo).
Proof.
  intros ([Hi Ho] & _). unfold process_map. rewrite !first_n_all by done. rewrite bind_ok.
  destruct (spend_map _ _ _) as [[rel mo1]|f]; [|done]. by rewrite !bind_ok.
Qed.

Lemma books_process mt mo h blk tx b ts rel mo' :
  books mt mo -> mt !! h = None -> is_uint256 h -> tx_loaded tx ->
  process_map h blk tx mo = Ok (rel, mo') -> books (<[h := TxEntry tx b ts rel]> mt) mo'.
Proof.
  intros [Htx Hcoin Hall Hspent] Hh Hu Hl E. rewrite process_map_eq in E by done.
  apply res_bind_Ok in E as ([rel1 mo1] & Es & E).
  destruct (spend_map_spec _ _ _ _ _ Es) as (_ & Sdom & Sval).
  destruct (receive_map_spec _ _ _ _ _ _ _ _ E) as (Rr & Rold & Rnew & Rall).
  set (te := TxEntry tx b ts rel).
  assert (Hne : forall h' te', mt !! h' = Some te' -> h <> h') by (intros h' te' E' <-; congruence).
  assert (Hlift : forall k e, coin_of mt k e -> coin_of (<[h := te]> mt) k e).
  { intros k e (te' & o & E1 & ?). exists te', o. by rewrite lookup_insert_ne by eauto. }
  split.
  - intros h' te' [[<- <-]|[_ E']]%lookup_insert_Some; [done|by apply Htx].
  - intros k e Hk. destruct (Rnew k e Hk) as [E1|(j & o & a & Ho & Hm & -> & Hc & ->)].
    + destruct (Sval k e E1) as (e0 & E0 & Hc). apply Hlift. apply Hcoin in E0. by destruct Hc as [->|[-> _]].
    + apply new_coin_fields in Hc as (Eh & Ei & Ev & _). exists te, o. rewrite Eh, Ei, lookup_insert_eq.
      split_and!; [done|done|done| |done]. split; [lia|]. rewrite Z.add_0_l, Nat2Z.id. split; [done|by exists a].
  - intros h' te' i o [[<- <-]|[Hn E']]%lookup_insert_Some Hp.
    + destruct Hp as (Hi & Ho & a & Hm). specialize (Rall _ _ _ Ho Hm). by rewrite Z.add_0_l, Z2Nat.id in Rall.
    + destruct (Sdom _ (Hall _ _ _ _ E' Hp)) as [e Ee]. exists e. by apply Rold.
  - intros k e Hk Hsp. destruct (Rnew k e Hk) as [E1|(j & o & a & _ & _ & _ & Hc & _)].
    2: { apply new_coin_fields in Hc as (_ & _ & _ & ?). congruence. }
    destruct (Sval k e E1) as (e0 & E0 & [->|(-> & -> & txi & Hin & Hkey)]).
    + destruct (Hspent k e0 E0 Hsp) as (h' & te' & txi & E' & ?). exists h', te', txi. by rewrite lookup_insert_ne by eauto.
    + exists h, te, txi. rewrite lookup_insert_eq. split_and!; [done|by apply Rr|done|done].
Qed.

(** ** The handlers *)

(** The transaction a buffer holds. *)
Definition received (buf : list byte) (tx : btc_msg_tx) : Prop :=
  exists b, deserialize_tx (buff_init buf (Zlen buf)) = Ok ((false, tx), b).

(** Room for the coins of one more transaction. *)
Definition room mt mo (buf : list byte) : Prop :=
  Z.of_nat (size mt) < 2 ^ 32 - 1 /\ Z.of_nat (size mo) + Zlen buf < 2 ^ 32 - 1.

Lemma received_loaded buf tx : Zlen buf < 2 ^ 62 -> received buf tx -> tx_loaded tx /\ Zlen (tx_out tx) <= Zlen buf.
Proof.
  intros Hs (b & E). destruct (run_safe _ _ _ (safe_tx buf) Hs) as ([err tx'] & b' & E' & us & [Hi Ho] & _ & Hn & HQ).
  rewrite E in E'. injection E' as <- <- <-. destruct (HQ eq_refl) as [Hl _]. split; [done|].
  cbn in *. pose proof (Zlen_nonneg (tx_out tx)). lia.
Qed.

Lemma ledger_same d d' mt mo :
  txes d' = txes d -> txos d' = txos d -> hash_tx d' = hash_tx d -> hash_txo d' = hash_txo d ->
  ledger d mt mo -> ledger d' mt mo.
Proof. intros E1 E2 E3 E4 [[? ?] ?]. unfold ledger, txdb_rep. by rewrite E1, E2, E3, E4. Qed.

(** Adding the transaction: the new object [p], not relevant yet. *)
Definition added_tx d (p : positive) d' mt mo h (te : tx_entry) : Prop :=
  txdb_rep d' (<[h := te]> mt) mo /\ t_lookup (hash_tx d') h = Ok (Some p) /\ txes d' !! p = Some te /\
  hash_txo d' = hash_txo d /\ txos d' = txos d /\ tx_seq d' = tx_seq d /\ db d' = db d /\ relays d' = relays d.

Lemma add_ok buf tx h blk ts d mt mo :
  txdb_rep d mt mo -> mt !! h = None -> Z.of_nat (size mt) < 2 ^ 32 - 1 -> received buf tx ->
  exists p d', txdb_add_to_hashtable buf h blk ts d = Ok (p, d') /\
    added_tx d p d' mt mo h (TxEntry tx (default uint256_zero_out blk) ts false).
Proof.
  intros [Ht Ho] Hh Hs [b Eb]. unfold txdb_add_to_hashtable. rewrite Eb, bind_ok. cbn [negb ASSERT]. rewrite bind_ok.
  set (te := TxEntry _ _ _ _).
  destruct (rep_insert _ _ _ h (obj_new (txes d)) te Ht (obj_new_fresh _) Hs) as (t & E & Hrep). destruct (Hrep Hh) as [Hrep' El].
  rewrite E, bool_decide_eq_true_2, bind_ok by done. cbn [ASSERT]. rewrite bind_ok. eexists _, _. split; [done|].
  unfold added_tx. cbn. split_and!; [by split|done|by rewrite lookup_insert_eq|done..].
Qed.

(** Only a transaction that can be read is added. *)
Lemma add_received buf h blk ts d p d' : txdb_add_to_hashtable buf h blk ts d = Ok (p, d') -> exists tx, received buf tx.
Proof.
  unfold txdb_add_to_hashtable, received. destruct (deserialize_tx _) as [[[[] tx] b]|f]; [done| |done]. intros _. by exists tx, b.
Qed.

Lemma save_tx_same blk h ts buf d err d' :
  txdb_save_tx blk h ts buf d = Ok (err, d') -> exists x, d' = with_db x d.
Proof.
  unfold txdb_save_tx. intros (s & _ & E)%res_bind_Ok. apply res_bind_Ok in E as (bk & _ & E).
  apply res_bind_Ok in E as (bd & _ & E). destruct (leveldb_put _ _ _) as [e x]. injection E as _ <-. by exists x.
Qed.

(** Remembering a transaction that is not known. *)
Lemma remember_ledger env saved ts buf h blk d mt mo :
  ledger d mt mo -> mt !! h = None -> is_uint256 h -> room mt mo buf ->
  match txdb_remember_tx env saved ts buf h blk d with
  | Ok (err, rel, d') => exists tx r mo', received buf tx /\ process_map h blk tx mo = Ok (r, mo') /\
      ledger d' (<[h := TxEntry tx (default uint256_zero_out blk) ts r]> mt) mo' /\ rel = r && negb saved
  | Fault _ => True
  end.
Proof.
  intros [Hrep Hbk] Hh Hu [Hst Hso]. unfold txdb_remember_tx.
  destruct (txdb_add_to_hashtable buf h blk ts d) as [[p d1]|f] eqn:Ea; [|done]. rewrite bind_ok.
  destruct (add_received _ _ _ _ _ _ _ Ea) as [tx Hrcv]. destruct (add_ok buf tx h blk ts d mt mo Hrep Hh Hst Hrcv) as (p' & d1' & Ea' & Had).
  rewrite Ea in Ea'. injection Ea' as <- <-. destruct Had as ([Ht1 Ho1] & El & Ep & Eh & Eo & _). destruct (received_loaded buf tx) as [Hl Hn]; [lia|done|].
  rewrite (obj_load_ok _ _ _ Ep), bind_ok. cbn [te_tx te_relevant].
  pose proof (process_refines h blk tx d1 mo Ho1 ltac:(lia)) as Hp.
  destruct (process_map h blk tx mo) as [[r mo']|f] eqn:Em; [|by rewrite Hp]. destruct Hp as (d2 & E2 & Ho2 & Hsame).
  rewrite E2, bind_ok. destruct Hsame as (S1 & S2 & _).
  pose proof (books_process _ _ _ _ _ (default uint256_zero_out blk) ts _ _ Hbk Hh Hu Hl Em) as Hbk'.
  destruct r; cbn [negb].
  2: { exists tx, false, mo'. split_and!; [done|done| |done]. split; [|done]. split; [by rewrite S1, S2|done]. }
  set (te := TxEntry tx (default uint256_zero_out blk) ts true) in *.
  assert (Hled : ledger (with_txes (<[p := te]> (txes d2)) d2) (<[h := te]> mt) mo').
  { split; [|done]. split; [|done]. cbn. rewrite S1, S2. rewrite <- (insert_insert_eq mt h te (TxEntry tx (default uint256_zero_out blk) ts false)).
    by apply rep_update. }
  destruct saved.
  { exists tx, true, mo'. by split_and!. }
  destruct (txdb_save_tx _ _ _ _ _) as [[err d3]|f] eqn:E3; [|done]. rewrite bind_ok.
  apply save_tx_same in E3 as [x ->]. 
  match goal with |- context [txdb_export_tx_info env ?d] => set (d4 := d) end.
  assert (Hled4 : ledger d4 (<[h := te]> mt) mo') by (destruct err; revert Hled; by apply ledger_same).
  destruct (txdb_export_tx_info env d4) as [l|f]; [|done]. rewrite bind_ok.
  match goal with |- context [?m ≫= _] => destruct m as [v|f]; [|done] end. rewrite bind_ok.
  exists tx, true, mo'. by split_and!.
Qed.

(** What confirming does to the transactions: one that is not relevant is
    forgotten, the first block of a relevant one is noted. *)
Definition confirm_map (blk h : uint256) mt : gmap (list byte) tx_entry :=
  match mt !! h with
  | None => mt
  | Some te =>
      if negb (te_relevant te) then delete h mt
      else if uint256_iszero (Some (te_blkHash te)) then <[h := set_blkHash blk te]> mt else mt
  end.

Lemma books_set_blkHash mt mo h te blk :
  books mt mo -> mt !! h = Some te -> books (<[h := set_blkHash blk te]> mt) mo.
Proof.
  intros [Htx Hcoin Hall Hspent] Hh.
  assert (Hlift : forall h' te', mt !! h' = Some te' -> exists te2, <[h := set_blkHash blk te]> mt !! h' = Some te2 /\
    te_tx te2 = te_tx te' /\ te_relevant te2 = te_relevant te').
  { intros h' te' E. destruct (decide (h = h')) as [<-|Hne]; [|exists te'; by rewrite lookup_insert_ne].
    exists (set_blkHash blk te). rewrite lookup_insert_eq. assert (te' = te) as -> by congruence. done. }
  split.
  - intros h' te' [[<- <-]|[_ E]]%lookup_insert_Some; [by apply (Htx h te)|by apply Htx].
  - intros k e Hk. destruct (Hcoin k e Hk) as (te' & o & E & Hr & Hkey & Hp & Hv).
    destruct (Hlift _ _ E) as (te2 & E2 & Et & Er). exists te2, o. unfold pays. rewrite Et, Er. done.
  - intros h' te' i o [[<- <-]|[_ E]]%lookup_insert_Some; [by apply (Hall h te)|by apply Hall].
  - intros k e Hk Hs. destruct (Hspent k e Hk Hs) as (h' & te' & txi & E & Hr & Hin & Hkey).
    destruct (Hlift _ _ E) as (te2 & E2 & Et & Er). exists h', te2, txi. by rewrite Et, Er.
Qed.

Lemma books_delete mt mo h te : books mt mo -> mt !! h = Some te -> te_relevant te = false -> books (delete h mt) mo.
Proof.
  intros [Htx Hcoin Hall Hspent] Hh Hr0.
  assert (Hlift : forall h' te', mt !! h' = Some te' -> te_relevant te' = true -> delete h mt !! h' = Some te').
  { intros h' te' E Hr. rewrite lookup_delete_ne; [done|]. intros <-. congruence. }
  split.
  - intros h' te' [_ E]%lookup_delete_Some. by apply Htx.
  - intros k e Hk. destruct (Hcoin k e Hk) as (te' & o & E & Hr & ?). exists te', o. by rewrite (Hlift _ te').
  - intros h' te' i o [_ E]%lookup_delete_Some. by apply Hall.
  - intros k e Hk Hs. destruct (Hspent k e Hk Hs) as (h' & te' & txi & E & Hr & ?). exists h', te', txi. by rewrite (Hlift _ te').
Qed.

Lemma confirm_loop_same env blk h l d d' : confirm_loop env blk h l d = Ok d' -> exists x, d' = with_db x d.
Proof.
  induction l as [|[key val] l IH]; cbn [confirm_loop]; [intros [= <-]; exists (db d); by destruct d|].
  intros (txkey & _ & E)%res_bind_Ok. destruct (negb _); [by apply IH|].
  apply res_bind_Ok in E as (txdata & _ & E). apply res_bind_Ok in E as (_ & _ & E).
  apply res_bind_Ok in E as (_ & _ & E). apply res_bind_Ok in E as (buf & _ & E).
  destruct (leveldb_put _ _ _) as [e x]. apply res_bind_Ok in E as (_ & _ & [= <-]). by exists x.
Qed.

Lemma confirm_ledger env blk h d mt mo d' :
  ledger d mt mo -> txdb_confirm_one_tx env blk h d = Ok d' -> ledger d' (confirm_map blk h mt) mo.
Proof.
  intros [[Ht Ho] Hbk] E. unfold txdb_confirm_one_tx, confirm_map in *.
  apply res_bind_Ok in E as (_ & _ & E). apply res_bind_Ok in E as (_ & _ & E).
  unfold txdb_get_tx_entry in E. destruct (rep_lookup _ _ _ h Ht) as ([p|] & El & Hp); rewrite El, bind_ok in E.
  2: { injection E as <-. rewrite Hp. by split. }
  destruct Hp as [Ep [te Ete]]. rewrite Ete in *. rewrite (obj_load_ok _ _ _ Ep), bind_ok in E.
  destruct (te_relevant te) eqn:Er; cbn [negb] in *.
  2: { unfold txdb_remove_from_hashtable, txdb_get_tx_entry in E. rewrite El, bind_ok, (obj_load_ok _ _ _ Ep), bind_ok, Er in E.
       destruct (rep_remove _ _ _ h Ht) as (t & Er' & Hrep). rewrite Er', bind_ok in E. injection E as <-.
       split; [by split|]. by apply (books_delete _ _ _ te). }
  destruct (uint256_iszero (Some (te_blkHash te))) eqn:Ez; cbn [negb] in *.
  2: { apply res_bind_Ok in E as (_ & _ & [= <-]). by split. }
  apply confirm_loop_same in E as [x ->]. split; [|by apply books_set_blkHash]. split; [|done]. by apply rep_update.
Qed.

(** What a received transaction does to the books. *)
Definition handled (blk h : uint256) (buf : list byte) mt mo (rel : bool) mt' mo' : Prop :=
  match mt !! h with
  | Some _ => rel = false /\ mo' = mo /\ mt' = (if uint256_iszero (Some blk) then mt else confirm_map blk h mt)
  | None => exists tx ts, received buf tx /\ process_map h (Some blk) tx mo = Ok (rel, mo') /\
      mt' = <[h := TxEntry tx blk ts rel]> mt
  end.

Lemma has_tx_ok d mt mo h : ledger d mt mo -> txdb_has_tx d h = Ok (bool_decide (is_Some (mt !! h))).
Proof.
  intros [[Ht _] _]. unfold txdb_has_tx, txdb_get_tx_entry. destruct (rep_lookup _ _ _ h Ht) as (o & -> & Hp).
  rewrite bind_ok. f_equal. apply bool_decide_ext. destruct o as [p|]; [by destruct Hp as [_ [te ->]]|by rewrite Hp].
Qed.

Lemma confirm_opt_ledger env blk h d mt mo d' :
  ledger d mt mo ->
  (if negb (uint256_iszero (Some blk)) then txdb_confirm_one_tx env blk h d else Ok d) = Ok d' ->
  ledger d' (if uint256_iszero (Some blk) then mt else confirm_map blk h mt) mo.
Proof.
  intros Hl E. destruct (uint256_iszero (Some blk)); cbn [negb] in E; [by injection E as <-|]. by eapply confirm_ledger.
Qed.

Lemma handle_ledger env blk buf d mt mo err rel d' :
  ledger d mt mo -> room mt mo buf -> txdb_handle_tx env blk buf d = Ok (err, rel, d') ->
  exists mt' mo', ledger d' mt' mo' /\ handled blk (hash256_calc buf) buf mt mo rel mt' mo'.
Proof.
  intros Hl Hroom E. unfold txdb_handle_tx, handled in *. set (h := hash256_calc buf) in *.
  rewrite (has_tx_ok _ _ _ _ Hl), bind_ok in E. apply res_bind_Ok in E as (d1 & E1 & E).
  apply (confirm_opt_ledger _ _ _ _ _ _ _ Hl) in E1. destruct (mt !! h) as [te|] eqn:Eh.
  { rewrite bool_decide_eq_true_2 in E by eauto. injection E as <- <- <-. eexists _, mo. split; [exact E1|done]. }
  rewrite bool_decide_eq_false_2 in E by (by intros [? ?]). apply res_bind_Ok in E as (ts & _ & E).
  assert (El : ledger d1 mt mo).
  { unfold confirm_map in E1. rewrite Eh in E1. by destruct (uint256_iszero _). }
  pose proof (remember_ledger env false ts buf h (Some blk) d1 mt mo El Eh (hash256_calc_length buf) Hroom) as Hr.
  rewrite E in Hr. destruct Hr as (tx & r & mo' & Hrcv & Em & Hled & ->). exists (<[h := TxEntry tx blk ts r]> mt), mo'.
  split; [done|]. exists tx, ts. rewrite andb_true_r. by split_and!.
Qed.

(** A transaction that spends a coin that is spent. *)
Definition double_spends (tx : btc_msg_tx) mo : Prop :=
  exists txi e, txi ∈ tx_in tx /\ mo !! txi_key txi = Some e /\ xo_spent e = true.

Lemma double_spend_map (ins : list btc_msg_tx_in) txi : txi ∈ ins -> forall rel mo,
  (exists e, mo !! txi_key txi = Some e /\ xo_spent e = true) -> spend_map ins rel mo = Fault Panic.
Proof.
  induction ins as [|txi' ins IH]; [by intros ?%elem_of_nil|]. intros Hin rel mo (e & Ee & Hs). cbn [spend_map].
  apply elem_of_cons in Hin as [<-|Hin]; [by rewrite Ee, Hs|].
  destruct (mo !! txi_key txi') as [e'|] eqn:Ee'; [|by apply IH; eauto]. destruct (xo_spent e') eqn:Es; [done|].
  apply IH; [done|]. exists e. split; [|done]. rewrite lookup_insert_ne; [done|]. congruence.
Qed.

Lemma double_spend_remember env saved ts buf h blk d mt mo tx :
  ledger d mt mo -> mt !! h = None -> room mt mo buf -> received buf tx -> double_spends tx mo ->
  txdb_remember_tx env saved ts buf h blk d = Fault Panic.
Proof.
  intros [[Ht Ho] Hbk] Hh [Hst Hso] Hrcv (txi & e & Hin & Ee & Hs). destruct (received_loaded buf tx) as [Hl Hn]; [lia|done|].
  assert (Em : process_map h blk tx mo = Fault Panic).
  { rewrite process_map_eq by done. by rewrite (double_spend_map _ _ Hin) by eauto. }
  unfold txdb_remember_tx. destruct (add_ok buf tx h blk ts d mt mo (conj Ht Ho) Hh Hst Hrcv) as (p & d1 & -> & [_ Ho1] & _ & Ep & _).
  rewrite bind_ok, (obj_load_ok _ _ _ Ep), bind_ok. cbn [te_tx te_relevant].
  pose proof (process_refines h blk tx d1 mo Ho1 ltac:(lia)) as Hp. rewrite Em in Hp. by rewrite Hp.
Qed.

(** ** Sequences of received transactions *)

(** [txdb_handle_tx] on each: the time, the block and the bytes. *)
Fixpoint txdb_receive (l : list (bitc_env * uint256 * list byte)) d : res txdb :=
  match l with
  | [] => Ok d
  | (env, blk, buf) :: l => '(_, _, d) ← txdb_handle_tx env blk buf d; txdb_receive l d
  end.

Inductive trace : list (bitc_env * uint256 * list byte) -> gmap (list byte) tx_entry -> gmap (list byte) txo_entry ->
    gmap (list byte) tx_entry -> gmap (list byte) txo_entry -> Prop :=
| trace_nil mt mo : trace [] mt mo mt mo
| trace_cons env blk buf l mt mo rel mt1 mo1 mt' mo' :
    handled blk (hash256_calc buf) buf mt mo rel mt1 mo1 -> trace l mt1 mo1 mt' mo' ->
    trace ((env, blk, buf) :: l) mt mo mt' mo'.

Definition bytes_of (l : list (bitc_env * uint256 * list byte)) : Z := foldr (fun x n => 1 + Zlen x.2 + n) 0 l.

Lemma receive_map_size h blk outs : forall i rel mo rel' mo',
  receive_map h blk i outs rel mo = Ok (rel', mo') -> Z.of_nat (size mo') <= Z.of_nat (size mo) + Zlen outs.
Proof.
  induction outs as [|txo outs IH]; cbn [receive_map]; intros i rel mo rel' mo'; rewrite ?Zlen_cons.
  { intros [= _ <-]. pose proof (Zlen_nonneg (@nil btc_msg_tx_out)). lia. }
  intros (m & Em & E)%res_bind_Ok. destruct m as [a|]; [|apply IH in E; lia].
  apply res_bind_Ok in E as (e0 & _ & E). apply res_bind_Ok in E as (u & Ea & E). apply IH in E.
  case_bool_decide; [|done]. rewrite map_size_insert_None in E by done. lia.
Qed.

Lemma handled_size blk h buf mt mo rel mt' mo' :
  Zlen buf < 2 ^ 62 -> handled blk h buf mt mo rel mt' mo' ->
  Z.of_nat (size mt') <= Z.of_nat (size mt) + 1 /\ Z.of_nat (size mo') <= Z.of_nat (size mo) + Zlen buf.
Proof.
  intros Hs Hh. pose proof (Zlen_nonneg buf). unfold handled in Hh. destruct (mt !! h) as [te|] eqn:Eh.
  - destruct Hh as (_ & -> & ->). split; [|lia]. unfold confirm_map. rewrite Eh.
    destruct (uint256_iszero _); [lia|]. destruct (negb _).
    { rewrite map_size_delete_Some by eauto. lia. }
    destruct (uint256_iszero _); [|lia]. rewrite map_size_insert_Some by eauto. lia.
  - destruct Hh as (tx & ts & Hrcv & Em & ->). destruct (received_loaded buf tx Hs Hrcv) as [Hl Hn].
    split; [rewrite map_size_insert_None by done; lia|]. rewrite process_map_eq in Em by done.
    apply res_bind_Ok in Em as ([r1 mo1] & Es & Em). apply receive_map_size in Em. rewrite (spend_map_size _ _ _ _ _ Es) in Em. lia.
Qed.

Lemma receive_ledger l : forall d mt mo d',
  ledger d mt mo -> Z.of_nat (size mt) + Z.of_nat (size mo) + bytes_of l < 2 ^ 32 - 1 -> txdb_receive l d = Ok d' ->
  exists mt' mo', ledger d' mt' mo' /\ trace l mt mo mt' mo'.
Proof.
  induction l as [|[[env blk] buf] l IH]; cbn [txdb_receive bytes_of foldr snd]; intros d mt mo d' Hl Hs E.
  { injection E as <-. exists mt, mo. split; [done|constructor]. }
  fold (bytes_of l) in Hs. assert (0 <= bytes_of l).
  { clear. induction l as [|x l IH]; cbn; [done|]. pose proof (Zlen_nonneg x.2). unfold bytes_of in IH. lia. }
  pose proof (Zlen_nonneg buf). apply res_bind_Ok in E as ([[err rel] d1] & E1 & E).
  assert (Hroom : room mt mo buf) by (split; lia).
  destruct (handle_ledger _ _ _ _ _ _ _ _ _ Hl Hroom E1) as (mt1 & mo1 & Hl1 & Hh).
  assert (Hbuf : Zlen buf < 2 ^ 62) by lia. destruct (handled_size _ _ _ _ _ _ _ _ Hbuf Hh).
  destruct (IH d1 mt1 mo1 d' Hl1) as (mt' & mo' & Hl' & Ht); [lia|done|].
  exists mt', mo'. split; [done|]. by econstructor.
Qed.

Lemma books_empty : books ∅ ∅.
Proof. split; intros *; by rewrite lookup_empty. Qed.

(** The coin of an output of a transaction that was not known is new. *)
Lemma books_fresh mt mo h i : books mt mo -> is_uint256 h -> mt !! h = None -> mo !! txo_key h i = None.
Proof.
  intros [Htx Hcoin _ _] Hu Hh. destruct (mo !! txo_key h i) as [e|] eqn:E; [|done].
  destruct (Hcoin _ _ E) as (te & o & Et & _ & Hk & _). apply txo_key_hash in Hk; [|done|by apply (Htx _ te)]. congruence.
Qed.
(** A new transaction. *)
Lemma handled_new blk h buf mt mo rel mt' mo' tx r mo1 :
  handled blk h buf mt mo rel mt' mo' -> mt !! h = None -> received buf tx -> process_map h (Some blk) tx mo = Ok (r, mo1) ->
  exists ts, mt' = <[h := TxEntry tx blk ts r]> mt /\ mo' = mo1.
Proof.
  unfold handled. intros Hh Hn [b Eb] Em. rewrite Hn in Hh. destruct Hh as (tx' & ts & [b' Eb'] & Em' & ->).
  rewrite Eb in Eb'. injection Eb' as <- <-. rewrite Em in Em'. injection Em' as <- <-. by exists ts.
Qed.
End ledger.

(** ** Properties *)

Section properties.
Context `{Malloc} `{Sha256} `{BigNum} `{KR : !KeyRing} `{WalletApi} `{T : Table positive} `{DB : LevelDb}.

(** C12: whatever transactions are received, in whatever order, relayed or in
    blocks, as long as the process survives the books stay right: every coin is
    an output of a known relevant transaction that pays the wallet, every such
    output is a coin, a spent coin is spent by a known relevant transaction; each
    known transaction changes at most the block it is noted in, and each new one
    spends and creates the coins the specification says. *)
Theorem txdb_keeps_books (l : list (bitc_env * uint256 * list byte)) (d d' : txdb)
    (mt : gmap (list byte) tx_entry) (mo : gmap (list byte) txo_entry) :
  ledger d mt mo -> Z.of_nat (size mt) + Z.of_nat (size mo) + bytes_of l < 2 ^ 32 - 1 -> txdb_receive l d = Ok d' ->
  exists mt' mo', ledger d' mt' mo' /\ trace l mt mo mt' mo'.
Proof. apply receive_ledger. Qed.

(** C31: a relayed transaction that spends a coin already spent stops the
    process: [ASSERT(txo_entry->spent == 0)] is reached with bytes a peer sent. *)
Theorem txdb_double_spend_panics (env : bitc_env) (blk : uint256) (buf : list byte) (tx : btc_msg_tx) (d : txdb)
    (mt : gmap (list byte) tx_entry) (mo : gmap (list byte) txo_entry) :
  ledger d mt mo -> room mt mo buf -> mt !! hash256_calc buf = None -> received buf tx -> double_spends tx mo ->
  uint256_iszero (Some blk) = true -> txdb_handle_tx env blk buf d = Fault Panic.
Proof.
  intros Hl Hroom Hh Hrcv Hds Hb. unfold txdb_handle_tx. rewrite (has_tx_ok _ _ _ _ Hl), Hb, bind_ok.
  rewrite bool_decide_eq_false_2 by (rewrite Hh; by intros [? ?]). cbn [negb]. rewrite !bind_ok.
  by eapply double_spend_remember.
Qed.

(** A transaction that arrives after one that spends its output leaves
    that output unspent: the spending transaction was looked at when the coin was
    not known, and is not looked at again. *)
Theorem txdb_late_parent (env : bitc_env) (blk : uint256) (buf : list byte) (tx : btc_msg_tx) (d d' : txdb)
    (mt : gmap (list byte) tx_entry) (mo : gmap (list byte) txo_entry) err rel h2 te2 txi o :
  ledger d mt mo -> room mt mo buf -> mt !! hash256_calc buf = None -> received buf tx ->
  mt !! h2 = Some te2 -> txi ∈ tx_in (te_tx te2) -> ti_prevTxHash txi = hash256_calc buf ->
  pays (TxEntry tx blk 0 true) (ti_prevTxOutIdx txi) o ->
  txdb_handle_tx env blk buf d = Ok (err, rel, d') ->
  exists mt' mo' e, ledger d' mt' mo' /\ mt' !! h2 = Some te2 /\
    mo' !! txi_key txi = Some e /\ xo_spent e = false /\ xo_value e = to_value o.
Proof.
  intros Hl Hroom Hh Hrcv Hh2 Hin Hprev (Hi & Ho & a & Ha) E.
  destruct (handle_ledger _ _ _ _ _ _ _ _ _ Hl Hroom E) as (mt' & mo' & Hl' & Hd). unfold handled in Hd. rewrite Hh in Hd.
  destruct Hd as (tx' & ts & [b' E'] & Em & ->). destruct Hrcv as [b Eb]. rewrite Eb in E'. injection E' as <- <-.
  destruct Hroom as [_ Hroom]. destruct (received_loaded buf tx) as [Hld Hn]; [lia|by exists b|].
  rewrite process_map_eq in Em by done. apply res_bind_Ok in Em as ([rel1 mo1] & Es & Em).
  destruct (receive_map_spec _ _ _ _ _ _ _ _ Em) as (_ & _ & Rnew & Rall).
  specialize (Rall _ _ _ Ho Ha). rewrite Z.add_0_l, Z2Nat.id in Rall by done. destruct Rall as [e Ee].
  unfold txi_key. rewrite Hprev. exists (<[hash256_calc buf := TxEntry tx blk ts rel]> mt), mo', e. split; [done|].
  split; [rewrite lookup_insert_ne; [done|congruence]|]. split; [done|].
  destruct (Rnew _ _ Ee) as [E1|(j & o' & a' & Ho' & _ & Hk & Hc & _)].
  - destruct (spend_map_spec _ _ _ _ _ Es) as (_ & _ & Sval). destruct (Sval _ _ E1) as (e0 & E0 & _).
    rewrite (books_fresh mt) in E0; [done|apply Hl|apply hash256_calc_length|done].
  - apply new_coin_fields in Hc as (_ & _ & -> & ->). split; [done|]. apply app_inj_2 in Hk as [_ Hk]; [|by rewrite !length_le_bytes].
    pose proof (lookup_lt_Some _ _ _ Ho). pose proof (lookup_lt_Some _ _ _ Ho'). cbn in *. unfold Zlen in *.
    apply le_bytes_inj in Hk; [|lia..]. rewrite Hk, Z.add_0_l, Nat2Z.id in Ho. congruence.
Qed.
End properties.

(** ** Examples *)

#[local] Existing Instance zero_malloc.
#[local] Existing Instance toy_sha256.
#[local] Existing Instance Z_bignum.
#[local] Existing Instance toy_keyring.
#[local] Existing Instance toy_wallet.
#[local] Existing Instance map_leveldb.

Definition w_table : table (V := positive) :=
  match t_create with Ok t => t | Fault _ => Ht 0 0 0 [] end.
Definition w_txdb : txdb := Txdb ∅ ∅ w_table w_table 0 ∅ [].
Definition w_env : bitc_env :=
  BitcEnv 1500000000 false true false false
    (BlockStore ∅ (File [] 0 []) 0 uint256_zero_out uint256_zero_out None None 0 w_table w_table [] 0).

Lemma w_ledger_empty : ledger w_txdb ∅ ∅.
Proof.
  assert (E : exists t, (t_create (V := positive)) = Ok t /\ tbl_ok t ∅) by apply t_create_ok.
  destruct E as (t & E & Ht). assert (w_table = t) as Ew by (unfold w_table; by rewrite E).
  split; [|apply books_empty]. split; cbn; rewrite Ew; by apply rep_empty.
Qed.

(** A payment of 5000 and 700, a transaction that spends the 5000, another one. *)
Definition w_buf1 : list byte := tx_bytes w_tx1.
Definition w_id1 : uint256 := Eval vm_compute in hash256_calc w_buf1.
Definition w_buf2 : list byte := tx_bytes (w_tx2 w_id1).
Definition w_id2 : uint256 := Eval vm_compute in hash256_calc w_buf2.
Definition w_tx3 : btc_msg_tx := Tx 1 [TxIn w_id1 0 0 (Some []) 0] 1 [w_pay 4900] 3 0.
Definition w_buf3 : list byte := tx_bytes w_tx3.

Definition w_relayed (bufs : list (list byte)) : list (bitc_env * uint256 * list byte) :=
  map (fun buf => (w_env, uint256_zero_out, buf)) bufs.

Lemma w_received1 : received w_buf1 w_tx1.
Proof. eexists. vm_compute. reflexivity. Qed.
Lemma w_received2 : received w_buf2 (w_tx2 w_id1).
Proof. eexists. vm_compute. reflexivity. Qed.
Lemma w_received3 : received w_buf3 w_tx3.
Proof. eexists. vm_compute. reflexivity. Qed.

(** Its coins: 700 and 4000 left. *)
Definition w_ledger_coins1 : gmap (list byte) txo_entry :=
  <[txo_key w_id1 1 := w_coin w_id1 1 700 false]> (<[txo_key w_id1 0 := w_coin w_id1 0 5000 false]> ∅).
Definition w_ledger_coins2 : gmap (list byte) txo_entry :=
  <[txo_key w_id2 0 := w_coin w_id2 0 4000 false]> (<[txo_key w_id1 0 := w_coin w_id1 0 5000 true]> w_ledger_coins1).

(** The books after the two transactions. *)
Lemma w_ledger_2 : exists d ts1 ts2,
  ledger d (<[w_id2 := TxEntry (w_tx2 w_id1) uint256_zero_out ts2 true]> (<[w_id1 := TxEntry w_tx1 uint256_zero_out ts1 true]> ∅))
    w_ledger_coins2.
Proof.
  assert (E : is_ok (txdb_receive (w_relayed [w_buf1; w_buf2]) w_txdb) = true) by (vm_compute; reflexivity).
  apply is_ok_inv in E as [d' E].
  assert (Hs : Z.of_nat (size (∅ : gmap (list byte) tx_entry)) + Z.of_nat (size (∅ : gmap (list byte) txo_entry)) +
    bytes_of (w_relayed [w_buf1; w_buf2]) < 2 ^ 32 - 1) by (vm_compute; reflexivity).
  destruct (receive_ledger _ _ _ _ _ w_ledger_empty Hs E) as (mt & mo & Hl & Ht).
  assert (E1 : process_map w_id1 (Some uint256_zero_out) w_tx1 ∅ = Ok (true, w_ledger_coins1))
    by (vm_cast_no_check (eq_refl (Ok (true, w_ledger_coins1)))).
  assert (E2 : process_map w_id2 (Some uint256_zero_out) (w_tx2 w_id1) w_ledger_coins1 = Ok (true, w_ledger_coins2))
    by (vm_cast_no_check (eq_refl (Ok (true, w_ledger_coins2)))).
  inversion Ht as [|? ? ? ? ? ? ? ? ? ? ? H1 Ht1]; subst. change (hash256_calc w_buf1) with w_id1 in H1.
  destruct (handled_new _ _ _ _ _ _ _ _ _ _ _ H1 (lookup_empty _) w_received1 E1) as (ts1 & -> & ->).
  inversion Ht1 as [|? ? ? ? ? ? ? ? ? ? ? H2 Ht2]; subst. change (hash256_calc w_buf2) with w_id2 in H2.
  assert (Hne : (<[w_id1 := TxEntry w_tx1 uint256_zero_out ts1 true]> ∅ : gmap (list byte) tx_entry) !! w_id2 = None)
    by (rewrite lookup_insert_ne by discriminate; apply lookup_empty).
  destruct (handled_new _ _ _ _ _ _ _ _ _ _ _ H2 Hne w_received2 E2) as (ts2 & -> & ->).
  inversion Ht2; subst. exists d', ts1, ts2. exact Hl.
Qed.

Lemma txdb_keeps_books_witness :
  exists d' mt mo, txdb_receive (w_relayed [w_buf1; w_buf2]) w_txdb = Ok d' /\ ledger d' mt mo.
Proof.
  assert (E : is_ok (txdb_receive (w_relayed [w_buf1; w_buf2]) w_txdb) = true) by (vm_compute; reflexivity).
  apply is_ok_inv in E as [d' E].
  destruct (txdb_keeps_books (w_relayed [w_buf1; w_buf2]) w_txdb d' ∅ ∅ w_ledger_empty) as (mt & mo & Hl & _);
    [vm_compute; reflexivity|exact E|].
  exists d', mt, mo. exact (conj E Hl).
Defined.

(** The third transaction spends again the coin the second one spent. *)
Lemma txdb_double_spend_panics_witness : exists d, txdb_handle_tx w_env uint256_zero_out w_buf3 d = Fault Panic.
Proof.
  destruct w_ledger_2 as (d & ts1 & ts2 & Hl). exists d.
  apply (txdb_double_spend_panics w_env uint256_zero_out w_buf3 w_tx3 d _ _ Hl).
  - split; vm_compute; reflexivity.
  - rewrite !lookup_insert_ne by (vm_compute; discriminate). apply lookup_empty.
  - exact w_received3.
  - exists (TxIn w_id1 0 0 (Some []) 0), (w_coin w_id1 0 5000 true). split; [by constructor|]. split; [vm_compute; reflexivity|reflexivity].
  - reflexivity.
Defined.

(** The books after one transaction. *)
Definition w_after (l : list (bitc_env * uint256 * list byte)) : txdb :=
  match txdb_receive l w_txdb with Ok d => d | Fault _ => w_txdb end.

Lemma w_ledger_first env blk buf h tx mo1 :
  is_ok (txdb_receive [(env, blk, buf)] w_txdb) = true -> Zlen buf < 2 ^ 31 -> hash256_calc buf = h -> received buf tx ->
  process_map h (Some blk) tx ∅ = Ok (true, mo1) ->
  exists ts, ledger (w_after [(env, blk, buf)]) (<[h := TxEntry tx blk ts true]> ∅) mo1.
Proof.
  intros Eok Hb <- Hrcv Em. apply is_ok_inv in Eok as [d E]. unfold w_after. rewrite E.
  destruct (receive_ledger [(env, blk, buf)] _ ∅ ∅ d w_ledger_empty) as (mt & mo & Hl & Ht); [|exact E|].
  { rewrite !map_size_empty. cbn [bytes_of foldr snd]. lia. }
  inversion Ht as [|? ? ? ? ? ? ? ? ? ? ? Hh1 Ht1]; subst.
  destruct (handled_new _ _ _ _ _ _ _ _ _ _ _ Hh1 (lookup_empty _) Hrcv Em) as (ts & -> & ->).
  inversion Ht1; subst. by exists ts.
Qed.

(** The second transaction alone, then the first: its 5000 stay unspent. *)
Definition w_late : txdb := w_after (w_relayed [w_buf2]).

Lemma w_ledger_late : exists ts,
  ledger w_late (<[w_id2 := TxEntry (w_tx2 w_id1) uint256_zero_out ts true]> ∅) (<[txo_key w_id2 0 := w_coin w_id2 0 4000 false]> ∅).
Proof.
  apply (w_ledger_first w_env uint256_zero_out w_buf2); [vm_compute; reflexivity|vm_compute; reflexivity|reflexivity|exact w_received2|].
  vm_cast_no_check (eq_refl (Ok (true, <[txo_key w_id2 0 := w_coin w_id2 0 4000 false]> (∅ : gmap (list byte) txo_entry)))).
Qed.

Lemma txdb_late_parent_witness :
  exists d' mt mo e, ledger d' mt mo /\ mo !! txo_key w_id1 0 = Some e /\ xo_spent e = false /\ xo_value e = 5000.
Proof.
  assert (E : is_ok (txdb_handle_tx w_env uint256_zero_out w_buf1 w_late) = true) by (vm_compute; reflexivity).
  apply is_ok_inv in E as [[[err rel] d'] E]. destruct w_ledger_late as [ts Hl].
  destruct (txdb_late_parent w_env uint256_zero_out w_buf1 w_tx1 w_late d' _ _ err rel w_id2
    (TxEntry (w_tx2 w_id1) uint256_zero_out ts true) (TxIn w_id1 0 0 (Some []) 0) (w_pay 5000) Hl)
    as (mt & mo & e & Hl' & _ & Ee & Hs & Hv).
  - split; vm_compute; reflexivity.
  - rewrite lookup_insert_ne by (vm_compute; discriminate). apply lookup_empty.
  - exact w_received1.
  - apply lookup_insert_eq.
  - by constructor.
  - reflexivity.
  - split; [done|]. split; [reflexivity|]. exists toy_pubkey_hash. vm_compute. reflexivity.
  - exact E.
  - exists d', mt, mo, e. exact (conj Hl' (conj Ee (conj Hs Hv))).
Defined.
