(* ===== verification/Spending.v ===== *)
(** * Choosing and signing the coins of a payment

    [txdb_select_coins] takes the oldest usable coins until the payment and the
    fee are covered; [txdb_sign_tx_inputs] signs them. *)
From Stdlib Require Import Strings.String Sorting.Sorted.
From S2P Require Export Ledger.

Section spending.
Context `{Malloc} `{Sha256} `{BigNum} `{KR : !KeyRing} `{WalletApi} `{T : Table positive} `{DB : LevelDb}.
Implicit Types d : txdb.
Implicit Types mt : gmap (list byte) tx_entry.
Implicit Types mo : gmap (list byte) txo_entry.

(** ** The choice *)

Definition usable (e : txo_entry) : bool := negb (xo_spent e) && xo_spendable e && negb (uint256_iszero (Some (xo_blkHash e))).
Definition coin_input (e : txo_entry) : btc_msg_tx_in := TxIn (xo_txHash e) (xo_outIdx e) 0 None (2 ^ 32 - 1).
Definition worth (l : list txo_entry) : Z := foldr (fun e n => xo_value e + n) 0 l.

(** The shortest prefix that brings the value to the target, or all of them. *)
Definition covers (target value : Z) (chosen rest : list txo_entry) : Prop :=
  (target <= value + worth chosen \/ rest = []) /\
  (forall pre e, chosen = pre ++ [e] -> value + worth pre < target).

Lemma worth_app l k : worth (l ++ k) = worth l + worth k.
Proof. unfold worth. induction l as [|e l IH]; cbn [app foldr]; lia. Qed.

Lemma worth_nonneg l : Forall (fun e => 0 <= xo_value e) l -> 0 <= worth l.
Proof. induction 1 as [|e l He _ IH]; cbn; [lia|]. unfold worth in IH. lia. Qed.

Lemma worth_filter l : Forall (fun e => 0 <= xo_value e) l -> worth (filter usable l) <= worth l.
Proof.
  induction 1 as [|e l He _ IH]; [done|]. rewrite filter_cons. unfold worth in *. destruct (decide (usable e)); cbn [foldr]; lia.
Qed.

Lemma select_loop_ok target n coins : forall value ins,
  Forall (fun e => 0 <= xo_value e) coins -> 0 <= value -> value + worth coins < 2 ^ 64 ->
  Zlen ins + Zlen coins <= n ->
  exists chosen rest, filter usable coins = chosen ++ rest /\ covers target value chosen rest /\
    select_loop target n coins value ins = Ok (value + worth chosen, ins ++ map coin_input chosen).
Proof.
  induction coins as [|e coins IH]; intros value ins Hf Hv Hw Hn; cbn [select_loop].
  { exists [], []. rewrite app_nil_r, Z.add_0_r. split_and!; [done| |].
    2: { cbn [map]. rewrite app_nil_r. by destruct (negb _). }
    split; [by right|]. by intros [] ?. }
  inversion_clear Hf as [|? ? He Hf']. cbn [worth foldr] in Hw. fold (worth coins) in Hw. rewrite Zlen_cons in Hn.
  pose proof (worth_nonneg _ Hf'). pose proof (Zlen_nonneg coins).
  destruct (Z.ltb_spec value target) as [Hlt|Hge]; cbn [negb].
  2: { exists [], (filter usable (e :: coins)). split; [done|]. split; [|cbn [map]; by rewrite app_nil_r, Z.add_0_r].
       split; [left; cbn; lia|]. by intros [] ?. }
  destruct (usable e) eqn:Eu.
  2: { rewrite filter_cons_False by (cbn; rewrite Eu; intros []). destruct (IH value ins Hf' Hv) as (chosen & rest & Ef & Hc & E); [lia..|].
       exists chosen, rest. split_and!; [done|done|]. rewrite E. unfold usable in Eu.
       destruct (xo_spent e), (xo_spendable e); try done. by destruct (uint256_iszero _). }
  rewrite filter_cons_True by (cbn; rewrite Eu; exact I). unfold usable in Eu.
  destruct (xo_spent e); [done|]. destruct (xo_spendable e); [|done]. destruct (uint256_iszero _); [done|]. cbn [orb negb].
  change (TxIn (xo_txHash e) (xo_outIdx e) 0 None (2 ^ 32 - 1)) with (coin_input e). rewrite leb_f by lia. rewrite (wrap64_small (value + xo_value e)) by lia.
  destruct (IH (value + xo_value e) (ins ++ [coin_input e]) Hf') as (chosen & rest & Ef & [Hc Hm] & ->);
    [lia|lia|rewrite Zlen_app, Zlen_cons; pose proof (Zlen_nil (A := btc_msg_tx_in)); lia|].
  exists (e :: chosen), rest. rewrite Ef. split; [done|]. cbn [worth foldr map]. fold (worth chosen).
  split; [|rewrite <- app_assoc; f_equal; f_equal; lia]. split; [destruct Hc; [left|right]; [cbn; fold (worth chosen); lia|done]|].
  intros [|e' pre] e2 Ep; [cbn; lia|]. injection Ep as <- ->. specialize (Hm pre e2 eq_refl). cbn [worth foldr]. fold (worth pre). lia.
Qed.

(** ** The order of the coins *)

Definition coin_time (env : bitc_env) (e : txo_entry) : res Z := blockstore_get_block_timestamp (env_blockStore env) (xo_blkHash e).
Definition older (env : bitc_env) (e1 e2 : txo_entry) : Prop :=
  exists t1 t2, coin_time env e1 = Ok t1 /\ coin_time env e2 = Ok t2 /\ (t1 < t2 \/ t1 = t2 /\ xo_outIdx e1 <= xo_outIdx e2).

Definition coins_of mo : list txo_entry := (map_to_list mo).*2.

Lemma elem_of_coins mo e : e ∈ coins_of mo <-> exists k, mo !! k = Some e.
Proof.
  unfold coins_of. rewrite list_elem_of_fmap. split.
  - intros ([k e'] & -> & Hx%elem_of_map_to_list). by exists k.
  - intros [k Hk]. exists (k, e). split; [done|]. by apply elem_of_map_to_list.
Qed.

(** The blocks of the coins are known. *)
Definition dated (env : bitc_env) mo : Prop := forall e, e ∈ coins_of mo -> exists t, coin_time env e = Ok t.

Lemma load_coins_ok d mo :
  rep (hash_txo d) (txos d) mo -> exists coins, load_coins d (t_entries (hash_txo d)) = Ok coins /\ coins ≡ₚ coins_of mo.
Proof.
  intros Hrep. destruct (rep_entries _ _ _ Hrep) as (l & Hl & HF). exists l.*2. split; [|unfold coins_of; by rewrite Hl].
  clear Hl. induction HF as [|[k p] [k' e] es l [_ Ee] _ IH]; [done|]. cbn in Ee. cbn [load_coins fmap list_fmap snd].
  by rewrite (obj_load_ok _ _ _ Ee), bind_ok, IH, bind_ok.
Qed.

Lemma coin_times_ok env coins :
  (forall e, e ∈ coins -> exists t, coin_time env e = Ok t) ->
  exists l, coin_times env coins = Ok l /\ l.*2 = coins /\ Forall (fun x => coin_time env x.2 = Ok x.1) l.
Proof.
  induction coins as [|e coins IH]; intros Ht; [by exists []|]. cbn [coin_times].
  destruct (Ht e ltac:(constructor)) as [t Et]. destruct IH as (l & -> & <- & HF); [intros e' He'; apply Ht; by constructor|].
  fold (coin_time env e). rewrite Et, !bind_ok. exists ((t, e) :: l). split_and!; [done|done|by constructor].
Qed.

Lemma compare_total a b : txdb_txo_entry_compare a b = false -> txdb_txo_entry_compare b a = true.
Proof. unfold txdb_txo_entry_compare. repeat case_match; zbool; lia. Qed.
Lemma compare_trans a b c :
  txdb_txo_entry_compare a b = true -> txdb_txo_entry_compare b c = true -> txdb_txo_entry_compare a c = true.
Proof. unfold txdb_txo_entry_compare. repeat case_match; zbool; lia. Qed.

Lemma get_coins_sorted_ok env d mo :
  rep (hash_txo d) (txos d) mo -> mo <> ∅ -> dated env mo ->
  exists coins, txdb_get_coins_sorted env d = Ok coins /\ coins ≡ₚ coins_of mo /\ StronglySorted (older env) coins.
Proof.
  intros Hrep Hne Hd. unfold txdb_get_coins_sorted. rewrite (rep_size _ _ _ Hrep).
  destruct (load_coins_ok d mo Hrep) as (coins & -> & Hp).
  rewrite eqb_f by (rewrite <- map_size_empty_iff in Hne; lia). cbn [negb ASSERT]. rewrite !bind_ok.
  destruct (Z.leb_spec (Zlen coins) 1) as [Hs|Hs].
  { exists coins. split_and!; [done|done|]. destruct coins as [|e [|e' coins]]; [constructor|by repeat constructor|].
    rewrite !Zlen_cons in Hs. pose proof (Zlen_nonneg coins). lia. }
  destruct (coin_times_ok env coins) as (l & -> & El & HF); [intros e; rewrite Hp; apply Hd|]. rewrite bind_ok.
  exists (qsort txdb_txo_entry_compare l).*2. split; [done|]. split; [by rewrite (proj1 (qsort_ok _ compare_total compare_trans l)), El|].
  pose proof (proj2 (qsort_ok _ compare_total compare_trans l)) as Hsort.
  assert (HF' : Forall (fun x => coin_time env x.2 = Ok x.1) (qsort txdb_txo_entry_compare l)) by by rewrite (proj1 (qsort_ok _ compare_total compare_trans l)).
  clear HF El. induction Hsort as [|[t e] l' Hl' IH Hle]; [constructor|]. inversion_clear HF' as [|? ? Ht HF2]. cbn in *.
  constructor; [by apply IH|]. apply Forall_fmap. rewrite Forall_forall in *. intros [t' e'] Hin. cbn.
  specialize (Hle _ Hin). specialize (HF2 _ Hin). cbn in *. unfold txdb_txo_entry_compare in Hle. cbn in Hle.
  exists t, t'. split_and!; [done|done|]. case_match; zbool; lia.
Qed.

#[local] Instance worth_proper : Proper ((≡ₚ) ==> eq) worth.
Proof.
  intros l l' Hl. unfold worth. induction Hl as [|x l l' _ IH|x y l|l l' l2 _ IH1 _ IH2]; [done|..]; cbn [foldr]; lia.
Qed.

(** What a payment is made of: the coins in order, those taken, the others. *)
Definition chosen_of (env : bitc_env) mo (target : Z) (coins chosen rest : list txo_entry) : Prop :=
  coins ≡ₚ coins_of mo /\ StronglySorted (older env) coins /\ filter usable coins = chosen ++ rest /\
  covers target 0 chosen rest.

(** The wallet holds less than 2^64, and the blocks of its coins are known. *)
Record spendable_books (env : bitc_env) d mo : Prop := SpendableBooks {
  sb_rep : rep (hash_txo d) (txos d) mo;
  sb_some : mo <> ∅;
  sb_dated : dated env mo;
  sb_values : forall e, e ∈ coins_of mo -> 0 <= xo_value e;
  sb_worth : worth (coins_of mo) < 2 ^ 64
}.

Lemma select_coins_ok env d mo desc tx :
  spendable_books env d mo ->
  exists coins chosen rest,
    chosen_of env mo (wrap64 (td_total_value desc + td_fee desc)) coins chosen rest /\ worth chosen < 2 ^ 64 /\
    txdb_select_coins env d desc tx =
      if td_total_value desc <=? worth chosen
      then Ok (with_inputs (map coin_input chosen) tx, wrap64 (worth chosen - td_total_value desc - td_fee desc))
      else Fault Panic.
Proof.
  intros [Hrep Hne Hd Hv Hw]. destruct (get_coins_sorted_ok env d mo Hrep Hne Hd) as (coins & Ec & Hp & Hs).
  assert (Hf : Forall (fun e => 0 <= xo_value e) coins) by (apply Forall_forall; intros e; rewrite Hp; apply Hv).
  assert (Hwc : worth coins < 2 ^ 64) by by rewrite (worth_proper _ _ Hp).
  assert (Hn : Zlen (@nil btc_msg_tx_in) + Zlen coins <= t_getnumentries (hash_txo d)).
  { rewrite (rep_size _ _ _ Hrep). apply Permutation_length in Hp. unfold coins_of in Hp.
    rewrite length_fmap, length_map_to_list in Hp. unfold Zlen. cbn. lia. }
  destruct (select_loop_ok (wrap64 (td_total_value desc + td_fee desc)) _ coins 0 [] Hf ltac:(lia) Hwc Hn) as (chosen & rest & Ef & Hc & E).
  exists coins, chosen, rest. split; [done|]. split.
  { pose proof (worth_filter _ Hf) as Hle. rewrite Ef in Hle. assert (Hfr : Forall (fun e => 0 <= xo_value e) rest).
    { apply (Forall_app _ chosen). rewrite <- Ef. rewrite Forall_forall in Hf |- *.
      intros e [_ He]%list_elem_of_filter. by apply Hf. }
    apply worth_nonneg in Hfr. rewrite worth_app in Hle. lia. }
  unfold txdb_select_coins. rewrite Ec, bind_ok, E, bind_ok, Z.add_0_l. cbn [app].
  destruct (td_total_value desc <=? worth chosen); done.
Qed.

(** ** Signing *)

(** [script_sign] for each input, with the output it spends. *)
Fixpoint sign_all (os : list btc_msg_tx_out) (i : Z) (tx : btc_msg_tx) : res btc_msg_tx :=
  match os with
  | [] => Ok tx
  | o :: os => '(r, tx) ← script_sign o tx i SIGHASH_ALL; _ ← ASSERT (negb (r : bool)); sign_all os (i + 1) tx
  end.

Definition outpoints (tx : btc_msg_tx) : list (uint256 * Z) := map (fun i => (ti_prevTxHash i, ti_prevTxOutIdx i)) (tx_in tx).

Lemma script_sign_same o tx i ht r tx' :
  script_sign o tx i ht = Ok (r, tx') -> tx_out tx' = tx_out tx /\ outpoints tx' = outpoints tx.
Proof.
  unfold script_sign. intros (? & _ & E)%res_bind_Ok. apply res_bind_Ok in E as (? & _ & E).
  apply res_bind_Ok in E as (? & _ & E). apply res_bind_Ok in E as (hash & _ & E). apply res_bind_Ok in E as ([m ?] & _ & E).
  destruct m as [[[ty data] len]|]; [|by injection E as _ <-]. destruct ty; try done.
  apply res_bind_Ok in E as (? & _ & E). apply res_bind_Ok in E as (kh & _ & E).
  apply res_bind_Ok in E as ([r1 b1] & _ & E). destruct r1; [by injection E as _ <-|].
  apply res_bind_Ok in E as ([r2 b2] & _ & E). destruct r2; [by injection E as _ <-|]. injection E as _ <-.
  split; [done|]. unfold outpoints. cbn [tx_in].
  generalize (Z.to_nat i) as n. induction (tx_in tx) as [|tin l IH]; intros [|n]; [done..|]. cbn. by rewrite IH.
Qed.

(** The output a coin is. *)
Definition output_of mt (e : txo_entry) (o : btc_msg_tx_out) : Prop :=
  exists te, mt !! xo_txHash e = Some te /\ pays te (xo_outIdx e) o /\ to_value o = xo_value e.

Lemma coins_outputs mt mo chosen :
  books mt mo -> (forall e, e ∈ chosen -> e ∈ coins_of mo) -> exists os, Forall2 (output_of mt) chosen os.
Proof.
  intros Hb. induction chosen as [|e l IH]; intros Hin; [by exists []|].
  destruct IH as [os Hos]; [intros; apply Hin; by constructor|]. destruct (proj1 (elem_of_coins mo e) (Hin e ltac:(constructor))) as [k Hk].
  destruct (bk_coin _ _ Hb _ _ Hk) as (te & o & E & _ & _ & Hp & Hv). exists (o :: os). constructor; [|done]. by exists te.
Qed.

Lemma sign_loop_ok d mt mo os : ledger d mt mo -> forall n (i : nat) tx chosen,
  n = length os -> Forall2 (output_of mt) chosen os ->
  drop i (outpoints tx) = map (fun e => (xo_txHash e, xo_outIdx e)) chosen ->
  sign_loop d n (Z.of_nat i) tx = sign_all os (Z.of_nat i) tx.
Proof.
  intros [[Ht _] Hb]. induction os as [|o os IH]; intros n i tx chosen -> HF Hd; [done|].
  inversion HF as [|e ? l ? (te & Ete & (Hi & Ho & _) & _) HF']; subst. cbn [length sign_loop sign_all].
  assert (Hout : outpoints tx !! i = Some (xo_txHash e, xo_outIdx e)).
  { rewrite <- (Nat.add_0_r i), <- lookup_drop, Hd. done. }
  unfold outpoints in Hout. rewrite list_lookup_fmap in Hout. rewrite Nat2Z.id.
  destruct (tx_in tx !! i) as [txi|] eqn:Etxi; [|done]. injection Hout as Eh Ei. rewrite bind_ok.
  destruct (rep_lookup _ _ _ (ti_prevTxHash txi) Ht) as ([p|] & El & Hp); rewrite El, bind_ok; rewrite Eh in Hp; [|congruence].
  destruct Hp as [Ep _]. rewrite Ete in Ep. rewrite bind_ok, (obj_load_ok _ _ _ Ep), bind_ok, Ei.
  destruct (bk_tx _ _ Hb _ _ Ete) as [_ [[_ Hc] _]]. pose proof (lookup_lt_Some _ _ _ Ho).
  rewrite ltb_t by (rewrite Hc; unfold Zlen; lia). cbn [ASSERT]. rewrite bind_ok, Ho, bind_ok.
  destruct (script_sign o tx (Z.of_nat i) SIGHASH_ALL) as [[r tx']|f] eqn:Es; [|done]. rewrite !bind_ok.
  destruct r; [done|]. cbn [negb ASSERT]. rewrite !bind_ok. replace (Z.of_nat i + 1) with (Z.of_nat (S i)) by lia.
  apply (IH _ _ _ l); [done|done|]. destruct (script_sign_same _ _ _ _ _ _ Es) as [_ ->].
  rewrite <- (Nat.add_1_r i), <- drop_drop, Hd. done.
Qed.
End spending.

Section crafting.
Context `{Malloc} `{Sha256} `{BigNum} `{KR : !KeyRing} `{WalletApi} `{T : Table positive} `{DB : LevelDb}.
Implicit Types d : txdb.

(** ** The outputs *)

Definition values (outs : list btc_msg_tx_out) : list Z := map to_value outs.
Definition sum_Z (l : list Z) : Z := foldr Z.add 0 l.

Lemma sum_Z_app l k : sum_Z (l ++ k) = sum_Z l + sum_Z k.
Proof. unfold sum_Z. induction l as [|x l IH]; cbn [app foldr]; lia. Qed.

Lemma set_txo_values type0 n idx addr v outs outs' :
  txdb_set_txo type0 n idx addr v outs = Ok outs' -> values outs' = <[Z.to_nat idx := v]> (values outs).
Proof.
  unfold txdb_set_txo. intros (o & _ & E)%res_bind_Ok. apply res_bind_Ok in E as (? & _ & E).
  apply res_bind_Ok in E as (? & _ & E). apply res_bind_Ok in E as ([script len] & _ & E).
  destruct (idx <? Zlen outs); [|done]. injection E as <-. unfold values. apply list_fmap_insert.
Qed.

Lemma prepare_loop_values type0 n dst : forall i pre rest outs outs',
  values outs = pre ++ rest -> i = Zlen pre -> length rest = length dst ->
  prepare_loop type0 n i dst outs = Ok outs' -> values outs' = pre ++ map td_value dst.
Proof.
  induction dst as [|x dst IH]; cbn [prepare_loop map]; intros i pre rest outs outs' Ev -> Hl E.
  { injection E as <-. by destruct rest. }
  destruct rest as [|r rest]; [done|]. apply res_bind_Ok in E as (outs1 & Es & E). apply set_txo_values in Es.
  rewrite Ev, to_nat_Zlen, insert_app_r_alt, Nat.sub_diag in Es by lia. cbn in Es.
  rewrite (cons_middle (td_value x) pre rest), app_assoc in Es.
  assert (Hi : Zlen pre + 1 = Zlen (pre ++ [td_value x])) by (rewrite Zlen_app, Zlen_cons, Zlen_nil; lia).
  rewrite (IH _ (pre ++ [td_value x]) rest outs1 outs' Es Hi ltac:(cbn in Hl; lia) E). by rewrite <- app_assoc.
Qed.

Lemma prepare_txout_values type0 desc tx tx' :
  0 <= td_num_addr desc -> txdb_prepare_txout type0 desc tx = Ok tx' ->
  exists dst, first_n (td_num_addr desc) (td_dst desc) = Ok dst /\ values (tx_out tx') = map td_value dst /\
    tx_out_count tx' = Zlen (tx_out tx').
Proof.
  intros Hn. unfold txdb_prepare_txout. intros (? & _ & E)%res_bind_Ok. apply res_bind_Ok in E as (dst & Ed & E).
  apply res_bind_Ok in E as (outs & Eo & [= <-]). exists dst. split; [done|]. cbn [tx_out tx_out_count].
  assert (Hl : length dst = Z.to_nat (td_num_addr desc)).
  { unfold first_n in Ed. destruct (Z.leb_spec (td_num_addr desc) (Zlen (td_dst desc))) as [Hd|]; [|done]. injection Ed as <-.
    rewrite length_take. unfold Zlen in Hd. lia. }
  assert (Ev : values outs = map td_value dst).
  { apply (prepare_loop_values _ _ _ _ [] (values (replicate (Z.to_nat (td_num_addr desc)) zero_tx_out)) _ _ eq_refl eq_refl) in Eo; [done|].
    unfold values. by rewrite length_map, length_replicate. }
  split; [done|]. apply (f_equal length) in Ev. unfold values in Ev. rewrite !length_map in Ev. unfold Zlen. lia.
Qed.

Lemma add_change_values type0 change tx tx' :
  tx_out_count tx = Zlen (tx_out tx) -> 0 <= change -> txdb_add_change type0 change tx = Ok tx' ->
  values (tx_out tx') = values (tx_out tx) ++ (if 0 <? change then [change] else []) /\ tx_in tx' = tx_in tx.
Proof.
  intros Hc Hpos. unfold txdb_add_change. destruct (0 <? change); [|intros [= <-]; by rewrite app_nil_r].
  intros (addr & _ & E)%res_bind_Ok. apply res_bind_Ok in E as (outs & Es & [= <-]). cbn [tx_out tx_in]. split; [|done].
  apply set_txo_values in Es. rewrite Es. unfold values. rewrite map_app, Hc.
  replace (Zlen (tx_out tx) + 1 - 1) with (Zlen (tx_out tx)) by lia.
  rewrite to_nat_Zlen, insert_app_r_alt by (by rewrite length_map). by rewrite length_map, Nat.sub_diag.
Qed.

Lemma sign_loop_out d n : forall i tx tx', sign_loop d n i tx = Ok tx' -> tx_out tx' = tx_out tx /\ outpoints tx' = outpoints tx.
Proof.
  induction n as [|n IH]; cbn [sign_loop]; intros i tx tx'; [by intros [= <-]|].
  intros (txi & _ & E)%res_bind_Ok. apply res_bind_Ok in E as (o & _ & E). apply res_bind_Ok in E as (p & _ & E).
  apply res_bind_Ok in E as (txe & _ & E). apply res_bind_Ok in E as (? & _ & E). apply res_bind_Ok in E as (txoFrom & _ & E).
  apply res_bind_Ok in E as ([r tx1] & Es & E). apply res_bind_Ok in E as (? & _ & E).
  destruct (IH _ _ _ E) as [-> ->]. by eapply script_sign_same.
Qed.

(** The transaction made by [txdb_craft_tx], whatever happens to it then. *)
Lemma craft_tx_made env type0 desc tx d r tx' d' :
  0 <= td_num_addr desc -> txdb_craft_tx env type0 desc tx d = Ok (r, tx', d') ->
  exists dst tx1 tx2 tx3 change, first_n (td_num_addr desc) (td_dst desc) = Ok dst /\
    values (tx_out tx1) = map td_value dst /\ tx_out_count tx1 = Zlen (tx_out tx1) /\
    txdb_select_coins env d desc tx1 = Ok (tx2, change) /\ txdb_add_change type0 change tx2 = Ok tx3 /\
    tx_out tx' = tx_out tx3 /\ outpoints tx' = outpoints tx3.
Proof.
  intros Hn. unfold txdb_craft_tx. intros (tx1 & E1 & E)%res_bind_Ok. apply res_bind_Ok in E as ([tx2 change] & E2 & E).
  apply res_bind_Ok in E as (tx3 & E3 & E). apply res_bind_Ok in E as (tx4 & E4 & E).
  destruct (prepare_txout_values _ _ _ _ Hn E1) as (dst & Ed & Ev & Ec).
  assert (tx' = tx4) as ->.
  { apply res_bind_Ok in E as (? & _ & E). apply res_bind_Ok in E as ([? buf] & _ & E).
    destruct (BTC_TX_MAX_SIZE <? _); [by injection E as _ <- _|]. apply res_bind_Ok in E as (? & _ & E).
    destruct (env_testing env); [by injection E as _ <- _|]. apply res_bind_Ok in E as ([[? ?] ?] & _ & E).
    apply res_bind_Ok in E as (? & _ & E). by injection E as _ <- _. }
  destruct (sign_loop_out _ _ _ _ _ E4) as [Eo Ep]. exists dst, tx1, tx2, tx3, change. by split_and!.
Qed.
End crafting.

(** ** Properties *)

Section properties.
Context `{Malloc} `{Sha256} `{BigNum} `{KR : !KeyRing} `{WalletApi} `{T : Table positive} `{DB : LevelDb}.
Implicit Types d : txdb.
Implicit Types mt : gmap (list byte) tx_entry.
Implicit Types mo : gmap (list byte) txo_entry.

Lemma chosen_in env mo target coins chosen rest e :
  chosen_of env mo target coins chosen rest -> e ∈ chosen -> e ∈ coins_of mo /\ usable e = true.
Proof.
  intros (Hp & _ & Ef & _) He. assert (Hin : e ∈ filter usable coins) by (rewrite Ef; apply elem_of_app; by left).
  apply list_elem_of_filter in Hin as [Hu Hin]. rewrite Hp in Hin. split; [done|by apply Is_true_true].
Qed.

(** All the usable coins are taken when they do not reach the target. *)
Lemma chosen_all env mo target coins chosen rest :
  chosen_of env mo target coins chosen rest -> worth (filter usable (coins_of mo)) < target ->
  (forall e, e ∈ coins_of mo -> 0 <= xo_value e) -> worth chosen = worth (filter usable (coins_of mo)).
Proof.
  intros (Hp & _ & Ef & Hc & _) Hlt Hv. assert (E : worth (filter usable (coins_of mo)) = worth chosen + worth rest).
  { rewrite <- worth_app, <- Ef. apply worth_proper. by rewrite Hp. }
  destruct Hc as [Hc| ->]; [|rewrite E; cbn; lia]. enough (0 <= worth rest) by lia. apply worth_nonneg, Forall_forall.
  intros e He. apply Hv. rewrite <- Hp. eapply list_elem_of_filter. rewrite Ef. apply elem_of_app. by right.
Qed.

(** C25: txdb_select_coins sorts the coins by the time of their block, then by
    output, and takes the usable ones (not spent, spendable, in a block) in that
    order, as few as it takes to reach the payment and the fee; the inputs are
    those coins and the change what is left modulo 2^64; the array of inputs is
    never overrun; it stops the process if the coins do not cover the payment. *)
Theorem txdb_select_coins_spec (env : bitc_env) d mo (desc : btc_tx_desc) (tx : btc_msg_tx) :
  spendable_books env d mo ->
  exists coins chosen rest,
    chosen_of env mo (wrap64 (td_total_value desc + td_fee desc)) coins chosen rest /\ worth chosen < 2 ^ 64 /\
    txdb_select_coins env d desc tx =
      if td_total_value desc <=? worth chosen
      then Ok (with_inputs (map coin_input chosen) tx, wrap64 (worth chosen - td_total_value desc - td_fee desc))
      else Fault Panic.
Proof. apply select_coins_ok. Qed.

(** The coins txdb_select_coins takes can be signed: each input is looked up
    in the table of transactions and the output it spends is in range, so that
    txdb_sign_tx_inputs is script_sign with the output each coin is, of the
    coin's value and paying the wallet. None of its assertions on the database
    fails. *)
Theorem txdb_signs_selected (env : bitc_env) d mt mo (desc : btc_tx_desc) (tx tx' tx2 : btc_msg_tx) change :
  ledger d mt mo -> spendable_books env d mo -> txdb_select_coins env d desc tx = Ok (tx', change) ->
  tx_in tx2 = tx_in tx' -> tx_in_count tx2 = tx_in_count tx' ->
  exists chosen os, tx_in tx' = map coin_input chosen /\ Forall2 (output_of mt) chosen os /\
    txdb_sign_tx_inputs d tx2 = sign_all os 0 tx2.
Proof.
  intros Hl Hsb E Ei Ec. destruct (select_coins_ok env d mo desc tx Hsb) as (coins & chosen & rest & Hch & _ & Es).
  rewrite E in Es. destruct (td_total_value desc <=? worth chosen); [|done]. injection Es as -> _.
  destruct (coins_outputs mt mo chosen (proj2 Hl)) as [os Hos]; [intros e He; by eapply chosen_in|].
  exists chosen, os. split; [done|]. split; [done|]. unfold txdb_sign_tx_inputs. cbn [with_inputs tx_in_count tx_in] in *.
  apply (sign_loop_ok d mt mo os Hl _ 0 _ chosen); [|done|].
  - rewrite Ec, to_nat_Zlen, length_map. by eapply Forall2_length.
  - unfold outpoints. rewrite drop_0, Ei, map_map. done.
Qed.

(** C24: the transaction txdb_craft_tx makes spends usable coins of the
    wallet, none twice; its outputs are the requested values, then the change if
    there is any; and when the coins cover the payment and the fee the outputs
    and the fee add up to the coins. *)
Theorem txdb_craft_tx_conserves (env : bitc_env) type0 (desc : btc_tx_desc) (tx tx' : btc_msg_tx) d d' mt mo r :
  ledger d mt mo -> spendable_books env d mo -> 0 <= td_num_addr desc -> u64 (td_total_value desc + td_fee desc) ->
  txdb_craft_tx env type0 desc tx d = Ok (r, tx', d') ->
  exists chosen dst change, outpoints tx' = map (fun e => (xo_txHash e, xo_outIdx e)) chosen /\ NoDup chosen /\
    (forall e, e ∈ chosen -> e ∈ coins_of mo /\ usable e = true) /\
    first_n (td_num_addr desc) (td_dst desc) = Ok dst /\
    values (tx_out tx') = map td_value dst ++ (if 0 <? change then [change] else []) /\
    (0 <= td_fee desc -> td_total_value desc + td_fee desc <= worth chosen -> sum_Z (map td_value dst) = td_total_value desc ->
     sum_Z (values (tx_out tx')) + td_fee desc = worth chosen).
Proof.
  intros Hl Hsb Hn Hu E. destruct (craft_tx_made _ _ _ _ _ _ _ _ Hn E) as (dst & tx1 & tx2 & tx3 & change & Ed & Ev & Ec & Es & Ea & -> & ->).
  destruct (select_coins_ok env d mo desc tx1 Hsb) as (coins & chosen & rest & Hch & Hw & E2). rewrite Es in E2.
  destruct (td_total_value desc <=? worth chosen); [|done]. injection E2 as -> ->.
  set (change := wrap64 _) in *. pose proof (wrap64_bound (worth chosen - td_total_value desc - td_fee desc)) as Hb. fold change in Hb.
  destruct (add_change_values _ _ (with_inputs (map coin_input chosen) tx1) _ Ec (proj1 Hb) Ea) as [Eo Ei].
  exists chosen, dst, change. cbn [with_inputs tx_out tx_in] in Eo, Ei. rewrite Ev in Eo.
  split; [unfold outpoints; by rewrite Ei, map_map|]. split.
  { destruct Hch as (Hp & _ & Ef & _). apply (proj1 (NoDup_app chosen rest)). rewrite <- Ef. apply list.NoDup_filter.
    rewrite Hp. apply NoDup_fmap_2_strong; [|apply NoDup_map_to_list].
    intros [k1 e1] [k2 e2] Hk1%elem_of_map_to_list Hk2%elem_of_map_to_list Heq. cbn in Heq. subst e2.
    destruct (bk_coin _ _ (proj2 Hl) _ _ Hk1) as (? & ? & _ & _ & -> & _).
    by destruct (bk_coin _ _ (proj2 Hl) _ _ Hk2) as (? & ? & _ & _ & -> & _). }
  split; [intros e; by eapply chosen_in|]. split; [done|]. split; [done|]. intros Hfee Hcov Hsum.
  unfold change in *. rewrite wrap64_small in * by lia. rewrite Eo, sum_Z_app, Hsum.
  destruct (Z.ltb_spec 0 (worth chosen - td_total_value desc - td_fee desc)); cbn; lia.
Qed.

Lemma change_wraps_ok (env : bitc_env) type0 (desc : btc_tx_desc) (tx tx' : btc_msg_tx) d d' mo r :
  spendable_books env d mo -> 0 <= td_num_addr desc -> u64 (td_total_value desc + td_fee desc) -> 0 <= td_total_value desc ->
  let have := worth (filter usable (coins_of mo)) in
  have < td_total_value desc + td_fee desc ->
  txdb_craft_tx env type0 desc tx d = Ok (r, tx', d') ->
  exists dst, first_n (td_num_addr desc) (td_dst desc) = Ok dst /\
    values (tx_out tx') = map td_value dst ++ [2 ^ 64 + have - td_total_value desc - td_fee desc].
Proof.
  intros Hsb Hn Hu Htot have Hlt E.
  destruct (craft_tx_made _ _ _ _ _ _ _ _ Hn E) as (dst & tx1 & tx2 & tx3 & change & Ed & Ev & Ec & Es & Ea & -> & _).
  destruct (select_coins_ok env d mo desc tx1 Hsb) as (coins & chosen & rest & Hch & Hw & E2). rewrite Es in E2.
  rewrite wrap64_small in Hch by lia. rewrite (chosen_all _ _ _ _ _ _ Hch Hlt (sb_values _ _ _ Hsb)) in E2, Hw. fold have in E2, Hw.
  destruct (Z.leb_spec (td_total_value desc) have) as [Hle|]; [|done]. injection E2 as -> ->. exists dst. split; [done|].
  assert (Ew : wrap64 (have - td_total_value desc - td_fee desc) = 2 ^ 64 + have - td_total_value desc - td_fee desc).
  { unfold wrap64. rewrite <- (Z_mod_plus_full _ 1), Z.mod_small by lia. lia. }
  rewrite Ew in Ea. assert (Hpos : 0 <= 2 ^ 64 + have - td_total_value desc - td_fee desc) by lia.
  destruct (add_change_values _ _ (with_inputs (map coin_input chosen) tx1) _ Ec Hpos Ea) as [-> _].
  cbn [with_inputs tx_out]. by rewrite Ev, ltb_t by lia.
Qed.

(** When the usable coins cover the payment but not the fee, the change
    wraps around: the transaction has a last output of almost 2^64 satoshis, more
    than all its inputs. *)
Theorem txdb_change_wraps (env : bitc_env) type0 (desc : btc_tx_desc) (tx tx' : btc_msg_tx) d d' mo r :
  spendable_books env d mo -> 0 <= td_num_addr desc -> u64 (td_total_value desc + td_fee desc) -> 0 <= td_total_value desc ->
  let have := worth (filter usable (coins_of mo)) in
  have < td_total_value desc + td_fee desc ->
  txdb_craft_tx env type0 desc tx d = Ok (r, tx', d') ->
  exists dst, first_n (td_num_addr desc) (td_dst desc) = Ok dst /\
    values (tx_out tx') = map td_value dst ++ [2 ^ 64 + have - td_total_value desc - td_fee desc].
Proof. exact (change_wraps_ok env type0 desc tx tx' d d' mo r). Qed.
End properties.

(** ** Examples *)

#[local] Existing Instance zero_malloc.
#[local] Existing Instance toy_sha256.
#[local] Existing Instance Z_bignum.
#[local] Existing Instance toy_keyring.
#[local] Existing Instance toy_wallet.
#[local] Existing Instance map_leveldb.

(** A store with one block, and the first transaction in it. *)
Definition w_block : uint256 := replicate 32 x07.
Definition w_block_table : table (V := positive) :=
  match t_insert w_table w_block 1%positive with Ok (_, t) => t | Fault _ => w_table end.
Definition w_env_block : bitc_env :=
  BitcEnv 1500000000 false true false false
    (BlockStore {[1%positive := BlockEntry None None (BlockHeader 1 uint256_zero_out uint256_zero_out 1400000000 0 0) 7 true]}
       (File [] 0 []) 0 uint256_zero_out uint256_zero_out None None 0 w_block_table w_table [] 0).
Definition w_funded : txdb := w_after [(w_env_block, w_block, w_buf1)].
Definition w_pay_desc (value fee : Z) : btc_tx_desc := TxDesc 1 value fee [TxDst toy_address value].
Definition w_tx0 : btc_msg_tx := Tx 0 [] 0 [] 0 0.

Definition w_funded_coin (i value : Z) : txo_entry := TxoEntry w_id1 w_block (Some toy_address) i value false true.
Definition w_funded_coins : gmap (list byte) txo_entry :=
  <[txo_key w_id1 1 := w_funded_coin 1 700]> (<[txo_key w_id1 0 := w_funded_coin 0 5000]> ∅).

Lemma w_ledger_funded : exists ts, ledger w_funded (<[w_id1 := TxEntry w_tx1 w_block ts true]> ∅) w_funded_coins.
Proof.
  apply (w_ledger_first w_env_block w_block w_buf1); [vm_compute; reflexivity|vm_compute; reflexivity|reflexivity|exact w_received1|].
  vm_cast_no_check (eq_refl (Ok (true, w_funded_coins))).
Qed.

Lemma w_funded_cases e : e ∈ coins_of w_funded_coins -> e = w_funded_coin 0 5000 \/ e = w_funded_coin 1 700.
Proof.
  intros [k Hk]%elem_of_coins. unfold w_funded_coins in Hk. apply lookup_insert_Some in Hk as [[_ <-]|[_ Hk]]; [by right|].
  apply lookup_insert_Some in Hk as [[_ <-]|[_ Hk]]; [by left|]. by rewrite lookup_empty in Hk.
Qed.

Lemma w_spendable : spendable_books w_env_block w_funded w_funded_coins.
Proof.
  split.
  - destruct w_ledger_funded as [ts [[_ Hrep] _]]. exact Hrep.
  - apply insert_non_empty.
  - intros e He. exists 1400000000. destruct (w_funded_cases e He) as [->| ->]; vm_compute; reflexivity.
  - intros e [->| ->]%w_funded_cases; cbn; lia.
  - vm_compute. reflexivity.
Qed.

(** 5000 and 700 in the wallet: 200 need one coin. *)
Lemma txdb_select_coins_spec_witness :
  exists coins chosen rest, chosen_of w_env_block w_funded_coins 300 coins chosen rest /\
    txdb_select_coins w_env_block w_funded (w_pay_desc 200 100) w_tx0 =
      (if 200 <=? worth chosen then Ok (with_inputs (map coin_input chosen) w_tx0, wrap64 (worth chosen - 200 - 100))
       else Fault Panic).
Proof.
  destruct (txdb_select_coins_spec w_env_block w_funded w_funded_coins (w_pay_desc 200 100) w_tx0 w_spendable)
    as (coins & chosen & rest & Hc & _ & E). exists coins, chosen, rest. exact (conj Hc E).
Defined.

Lemma txdb_signs_selected_witness :
  exists tx' change chosen os, txdb_select_coins w_env_block w_funded (w_pay_desc 200 100) w_tx0 = Ok (tx', change) /\
    tx_in tx' = map coin_input chosen /\ txdb_sign_tx_inputs w_funded tx' = sign_all os 0 tx'.
Proof.
  assert (E : is_ok (txdb_select_coins w_env_block w_funded (w_pay_desc 200 100) w_tx0) = true) by (vm_compute; reflexivity).
  apply is_ok_inv in E as [[tx' change] E]. destruct w_ledger_funded as [ts Hl].
  destruct (txdb_signs_selected w_env_block w_funded _ _ (w_pay_desc 200 100) w_tx0 tx' tx' change Hl w_spendable E eq_refl eq_refl)
    as (chosen & os & Ei & _ & Es). exists tx', change, chosen, os. exact (conj E (conj Ei Es)).
Defined.

(** 5200 and a fee of 100: both coins, 400 back. *)
Lemma txdb_craft_tx_conserves_witness :
  exists r tx' d', txdb_craft_tx w_env_block 0 (w_pay_desc 5200 100) w_tx0 w_funded = Ok (r, tx', d') /\
    exists chosen, outpoints tx' = map (fun e => (xo_txHash e, xo_outIdx e)) chosen /\ NoDup chosen.
Proof.
  assert (E : is_ok (txdb_craft_tx w_env_block 0 (w_pay_desc 5200 100) w_tx0 w_funded) = true) by (vm_compute; reflexivity).
  apply is_ok_inv in E as [[[r tx'] d'] E]. destruct w_ledger_funded as [ts Hl].
  destruct (txdb_craft_tx_conserves w_env_block 0 (w_pay_desc 5200 100) w_tx0 tx' w_funded d' _ _ r Hl w_spendable)
    as (chosen & dst & change & Ho & Hnd & _); [cbn; lia|vm_compute; split; congruence|exact E|].
  exists r, tx', d'. split; [exact E|]. exists chosen. exact (conj Ho Hnd).
Defined.

(** 5650 and a fee of 100 out of 5700: an output of 2^64 - 50. *)
Lemma txdb_change_wraps_witness :
  exists r tx' d', txdb_craft_tx w_env_block 0 (w_pay_desc 5650 100) w_tx0 w_funded = Ok (r, tx', d') /\
    values (tx_out tx') = [5650; 2 ^ 64 - 50].
Proof.
  assert (E : is_ok (txdb_craft_tx w_env_block 0 (w_pay_desc 5650 100) w_tx0 w_funded) = true) by (vm_compute; reflexivity).
  apply is_ok_inv in E as [[[r tx'] d'] E]. exists r, tx', d'. split; [exact E|].
  destruct (txdb_change_wraps w_env_block 0 (w_pay_desc 5650 100) w_tx0 tx' w_funded d' w_funded_coins r w_spendable)
    as (dst & Ed & Ev); [cbn; lia|vm_compute; split; congruence|cbn; lia|vm_compute; reflexivity|exact E|].
  injection Ed as <-. rewrite Ev. vm_compute. reflexivity.
Defined.
