(* ===== verification/TxStore.v ===== *)
(** * What the transaction database stores

    The records of txdb.c in LevelDB: the keys, whose order is that of the
    sequence numbers, and the values; and what a restart reads back. *)
From Stdlib Require Import Strings.String Sorting.Sorted.
From stdpp Require Import sorting.
From S2P Require Export Spending.

Lemma digits_val_zeros k : digits_val 0 (replicate k x30) = 0.
Proof. induction k as [|k IH]; [done|]. cbn. exact IH. Qed.

(** The ten digits of a sequence number. *)
Lemma print_010_spec n : 0 <= n < 10 ^ 10 ->
  Forall (fun c => is_digit c = true) (print_010 n) /\ length (print_010 n) = 10%nat /\ digits_val 0 (print_010 n) = n.
Proof.
  intros Hn. destruct (dec_str_spec 20 n 10 Hn ltac:(lia)) as (HF & Hl & Ev). unfold print_010.
  rewrite length_app, length_replicate, digits_val_app, digits_val_zeros, Ev.
  split_and!; [|lia|done]. apply Forall_app. split; [|done]. by apply Forall_replicate.
Qed.

(** ** The keys and values *)

Definition hash_text (h : uint256) : list byte := concat (map hex2 (rev h)).
Definition rec_key (seq : Z) (h : uint256) : list byte := str "/tx/" ++ print_010 seq ++ str "/" ++ hash_text h ++ [x00].
Definition rec_val (x : tx_ser_data) : list byte :=
  sd_blkHash x ++ le_bytes 8 (sd_timestamp x) ++ varint_bytes (sd_len x) ++ sd_buf x.

(** What is stored for a transaction of the application. *)
Record rec_ok (x : tx_ser_data) : Prop := RecOk {
  ro_blk : is_uint256 (sd_blkHash x); ro_ts : u64 (sd_timestamp x); ro_len : sd_len x = Zlen (sd_buf x);
  ro_buf : Zlen (sd_buf x) < 2 ^ 31
}.

Lemma hash_text_plain h : Forall (fun c => isspace c = false /\ c <> x00) (hash_text h).
Proof.
  unfold hash_text. induction (rev h) as [|b l IH]; cbn [map concat]; [done|]. apply Forall_app. split; [|done].
  pose proof (byte_Z_bound b). assert (0 <= byte_Z b / 16 < 16) by (split; [apply Z.div_pos; lia|apply Z.div_lt_upper_bound; lia]).
  assert (0 <= byte_Z b mod 16 < 16) by (apply Z.mod_pos_bound; lia).
  destruct (hex_char_plain (byte_Z b / 16)) as (? & _ & _ & ?); [done|].
  destruct (hex_char_plain (byte_Z b mod 16)) as (? & _ & _ & ?); [done|]. by repeat constructor.
Qed.

Lemma length_hash_text h : is_uint256 h -> length (hash_text h) = 64%nat.
Proof. intros Hh. unfold hash_text. by rewrite length_hex_concat, length_rev, Hh. Qed.

Lemma c_string_app s t : Forall (fun c => c <> x00) s -> c_string (s ++ x00 :: t) = Some s.
Proof.
  induction 1 as [|c s Hc _ IH]; cbn; [done|]. rewrite bool_decide_eq_false_2 by done. by rewrite IH.
Qed.

Lemma take_word_all s : Forall (fun c => isspace c = false) s -> take_word s = s /\ skip_blank s = s.
Proof. induction 1 as [|c s Hc _ [IH _]]; [done|]. cbn. rewrite Hc, IH. done. Qed.

Lemma print_010_plain seq : 0 <= seq < 10 ^ 10 -> Forall (fun c => c <> x00) (print_010 seq).
Proof.
  intros Hs. eapply Forall_impl; [apply (print_010_spec _ Hs)|]. intros c Hc. by apply is_digit_plain in Hc as (_ & _ & _ & ?).
Qed.

Lemma scan_u64_print seq rest : 0 <= seq < 10 ^ 10 -> scan_u64 (print_010 seq ++ rest) = Some (seq, rest).
Proof.
  intros Hs. destruct (print_010_spec _ Hs) as (HF & Hl & Hv). unfold scan_u64.
  destruct (print_010 seq) as [|c s] eqn:Ep; [done|]. pose proof (Forall_inv HF) as Hc. cbn beta in Hc.
  destruct (is_digit_plain c Hc) as (H1 & H2 & H3 & _). cbn [app skip_blank]. rewrite H1.
  rewrite !bool_decide_eq_false_2 by done. rewrite <- Hl.
  pose proof (scan_digits_spec (c :: s) rest 0 0 HF) as E. cbn [app] in E. rewrite E, Hv, Hl. cbn [Nat.add].
  rewrite bool_decide_eq_false_2 by done. by rewrite wrap64_small by lia.
Qed.

Lemma scan_rec_key seq h : 0 <= seq < 10 ^ 10 -> is_uint256 h ->
  scan_tx_key (str "/tx/" ++ print_010 seq ++ str "/" ++ hash_text h) = Some (seq, hash_text h).
Proof.
  intros Hs Hh. unfold scan_tx_key. change (str "/tx/") with [x2f; x74; x78; x2f]. cbn [app firstn skipn].
  rewrite bool_decide_eq_true_2 by done. rewrite drop_0, scan_u64_print by done. cbn [mbind option_bind].
  change (str "/") with [x2f]. cbn [app]. rewrite bool_decide_eq_true_2 by done.
  destruct (take_word_all (hash_text h)) as [Ew Eb].
  { eapply Forall_impl; [apply hash_text_plain|]. by intros c []. }
  rewrite Eb, Ew. rewrite bool_decide_eq_false_2; [done|]. intros E. pose proof (length_hash_text h Hh) as Hl. by rewrite E in Hl.
Qed.

Section records.
Context `{Malloc}.

Lemma deserialize_rec_key seq h : 0 <= seq < 10 ^ 10 -> is_uint256 h ->
  txdb_deserialize_tx_key (rec_key seq h) = Ok (TxSerKey seq h).
Proof.
  intros Hs Hh. unfold txdb_deserialize_tx_key, rec_key.
  assert (Hc : c_string (str "/tx/" ++ print_010 seq ++ str "/" ++ hash_text h ++ [x00]) =
    Some (str "/tx/" ++ print_010 seq ++ str "/" ++ hash_text h)).
  { replace (str "/tx/" ++ print_010 seq ++ str "/" ++ hash_text h ++ [x00])
      with ((str "/tx/" ++ print_010 seq ++ str "/" ++ hash_text h) ++ x00 :: []) by by rewrite <- !app_assoc.
    apply c_string_app. rewrite !Forall_app. split_and!.
    - by repeat constructor.
    - by apply print_010_plain.
    - by repeat constructor.
    - eapply Forall_impl; [apply hash_text_plain|]. by intros c []. }
  rewrite Hc, bind_ok, scan_rec_key by done. pose proof (length_hash_text h Hh) as Hl.
  rewrite leb_f by (unfold Zlen; lia).
  destruct (uint256_str_roundtrip 80 h uint256_zero_out Hh eq_refl ltac:(lia)) as (s & Es & _ & E).
  rewrite uint256_snprintf_reverse_spec in Es by (done || lia). injection Es as <-. fold (hash_text h) in E. by rewrite E.
Qed.

Lemma serialize_rec_key seq h : 0 <= seq < 10 ^ 10 -> is_uint256 h ->
  exists s b, uint256_to_str h = Ok s /\ txdb_serialize_tx_key seq s = Ok b /\ contents b = rec_key seq h.
Proof.
  intros Hs Hh. exists (hash_text h). unfold txdb_serialize_tx_key.
  assert (Et : take 255 (str "/tx/" ++ print_010 seq ++ str "/" ++ hash_text h) = str "/tx/" ++ print_010 seq ++ str "/" ++ hash_text h).
  { apply take_ge. rewrite !length_app, length_hash_text by done. destruct (print_010_spec _ Hs) as (_ & -> & _). cbn. lia. }
  rewrite Et. set (s := str "/tx/" ++ _). destruct (writes_bytes (s ++ [x00]) _ eq_refl buff_alloc) as (b & E & Hb & Hc).
  { apply gwf_alloc. }
  { subst s. rewrite !Zlen_app. unfold Zlen. rewrite length_hash_text by done. destruct (print_010_spec _ Hs) as (_ & -> & _).
    vm_compute. congruence. }
  rewrite contents_alloc in Hc. exists b. split; [by apply uint256_snprintf_reverse_spec|]. rewrite E, bind_ok. split; [done|].
  rewrite Hc. unfold rec_key, s. cbn [app]. by rewrite <- !app_assoc.
Qed.

Lemma writes_rec_val x : rec_ok x -> writes
  (_ ← serialize_uint256 (sd_blkHash x); _ ← serialize_uint64 (sd_timestamp x); _ ← serialize_varint (sd_len x);
   serialize_bytes (Some (sd_buf x)) (sd_len x)) (rec_val x).
Proof.
  intros [Hb Ht Hl _]. apply writes_bind; [by apply writes_uint256|]. apply writes_bind; [apply writes_int|].
  apply writes_bind; [apply writes_varint|]. by apply writes_bytes.
Qed.

Lemma Zlen_rec_val x : rec_ok x -> Zlen (rec_val x) <= 45 + Zlen (sd_buf x).
Proof.
  intros [Hb Ht Hl _]. unfold rec_val. zlen. pose proof (Zlen_varint_bytes (sd_len x)). rewrite (Zlen_32 _ Hb). lia.
Qed.

Lemma serialize_rec_val x : rec_ok x -> exists b, txdb_serialize_tx_data x = Ok b /\ contents b = rec_val x.
Proof.
  intros Hx. pose proof (Zlen_rec_val x Hx). destruct Hx as [? ? ? Hs] eqn:Ex. clear Ex.
  destruct (writes_rec_val x Hx buff_alloc) as (b & E & Hw & Hc); [apply gwf_alloc|unfold size_max; cbn; lia|].
  rewrite contents_alloc in Hc. exists b. unfold txdb_serialize_tx_data. by rewrite E, bind_ok.
Qed.

Lemma deserialize_rec_val x : rec_ok x -> txdb_deserialize_tx_data (rec_val x) = Ok x.
Proof.
  intros Hx. pose proof (Zlen_rec_val x Hx) as Hz. destruct Hx as [Hb Ht Hl Hs]. unfold txdb_deserialize_tx_data.
  rewrite buff_init_rd. unfold rec_val in *. set (post := le_bytes 8 _ ++ _).
  assert (Hsm : forall pre post', Zlen (pre ++ post') <= 45 + Zlen (sd_buf x) -> small pre post').
  { intros pre post' Hp. unfold small. rewrite Zlen_app in Hp. lia. }
  rewrite (parses_uint256 _ _ Hb) by (apply Hsm; exact Hz). rewrite bind_ok. cbn [app]. subst post.
  rewrite (parses_uint64 0 _ Ht) by (apply Hsm; exact Hz). rewrite bind_ok.
  rewrite (parses_varint32 0 (sd_len x)); [|rewrite Hl; pose proof (Zlen_nonneg (sd_buf x)); lia|apply Hsm; rewrite <- app_assoc; exact Hz].
  rewrite bind_ok. cbn [orb].
  assert (Hp : forall pre, small pre (sd_buf x) ->
    deserialize_bytes (sd_len x) (rd pre (sd_buf x)) = Ok ((false, Some (sd_buf x)), rd (pre ++ sd_buf x) [])).
  { intros pre Hpre. rewrite Hl. pose proof (parses_bytes (sd_buf x) pre []) as E. rewrite app_nil_r in E. by apply E. }
  rewrite Hp by (apply Hsm; rewrite <- !app_assoc; exact Hz). rewrite bind_ok.
  rewrite buff_space_left_rd by (apply Hsm; rewrite app_nil_r, <- !app_assoc; exact Hz). rewrite bind_ok. rewrite Zlen_nil.
  cbn [Z.eqb ASSERT]. rewrite bind_ok.
  by destruct x.
Qed.
End records.

(** ** The log: the records in the order of their keys *)

Record saved : Type := Saved { sv_hash : uint256; sv_data : tx_ser_data }.

Fixpoint entries_from (i : Z) (log : list saved) : list (list byte * list byte) :=
  match log with
  | [] => []
  | x :: log => (rec_key i (sv_hash x), rec_val (sv_data x)) :: entries_from (i + 1) log
  end.

Lemma digits_val_lt s : forall t u v, length s = length t -> Forall (fun c => is_digit c = true) s -> Forall (fun c => is_digit c = true) t ->
  digits_val 0 s < digits_val 0 t -> bytes_le (s ++ u) (t ++ v) = true.
Proof.
  assert (Hb : forall c l, Forall (fun c => is_digit c = true) (c :: l) -> 0 <= digits_val 0 l < 10 ^ Zlen l).
  { intros c l [_ Hl]%Forall_cons. clear c. induction Hl as [|c l Hc _ IH]; [done|].
    unfold is_digit in Hc. apply andb_true_iff in Hc as [H1%Z.leb_le H2%Z.leb_le].
    change (digits_val 0 (c :: l)) with (digits_val (0 * 10 + (byte_Z c - 48)) l). rewrite digits_val_acc, Zlen_cons.
    pose proof (Zlen_nonneg l). rewrite Z.pow_add_r by lia. change (10 ^ 1) with 10. nia. }
  induction s as [|x s IH]; intros [|y t] u v Hl Hs Ht Hlt; try done.
  change (digits_val 0 (x :: s)) with (digits_val (0 * 10 + (byte_Z x - 48)) s) in Hlt.
  change (digits_val 0 (y :: t)) with (digits_val (0 * 10 + (byte_Z y - 48)) t) in Hlt.
  rewrite (digits_val_acc s), (digits_val_acc t) in Hlt. pose proof (Hb _ _ Hs). pose proof (Hb _ _ Ht).
  cbn [length] in Hl. assert (E : Zlen s = Zlen t) by (unfold Zlen; lia). rewrite E in *.
  cbn [app bytes_le]. destruct (Z.eqb_spec (byte_Z x) (byte_Z y)) as [Exy|Exy].
  - apply IH; [lia|by inversion Hs|by inversion Ht|]. rewrite Exy in Hlt. lia.
  - apply Z.ltb_lt. nia.
Qed.

Lemma bytes_le_app p : forall s t, bytes_le (p ++ s) (p ++ t) = bytes_le s t.
Proof. induction p as [|c p IH]; intros s t; [done|]. cbn. by rewrite Z.eqb_refl. Qed.

Lemma rec_key_le i j h1 h2 : 0 <= i < j -> j < 10 ^ 10 -> bytes_le (rec_key i h1) (rec_key j h2) = true.
Proof.
  intros Hi Hj. unfold rec_key. rewrite bytes_le_app. destruct (print_010_spec i ltac:(lia)) as (Hf1 & Hl1 & Hv1).
  destruct (print_010_spec j ltac:(lia)) as (Hf2 & Hl2 & Hv2). apply digits_val_lt; [congruence|done|done|lia].
Qed.

Section log.
Context `{Malloc} `{Sha256} `{BigNum} `{KR : !KeyRing} `{WalletApi} `{T : Table positive} `{DB : LevelDb}.
Implicit Types d : txdb.
Implicit Types log : list saved.
Implicit Types mt : gmap (list byte) tx_entry.
Implicit Types mo : gmap (list byte) txo_entry.

Definition saved_ok (x : saved) : Prop := sv_hash x = hash256_calc (sd_buf (sv_data x)) /\ rec_ok (sv_data x).

Record logged d log : Prop := Logged {
  lo_map : leveldb_map (db d) = list_to_map (entries_from 0 log);
  lo_seq : tx_seq d = Zlen log;
  lo_len : Zlen log <= 10 ^ 10;
  lo_ok : Forall saved_ok log
}.

Lemma saved_hash x : saved_ok x -> is_uint256 (sv_hash x).
Proof. intros [-> _]. apply hash256_calc_length. Qed.

Lemma entries_from_in log : forall i k v, (k, v) ∈ entries_from i log ->
  exists j x, log !! j = Some x /\ k = rec_key (i + Z.of_nat j) (sv_hash x) /\ v = rec_val (sv_data x).
Proof.
  induction log as [|x log IH]; intros i k v Hin; [by apply elem_of_nil in Hin|]. cbn in Hin. apply elem_of_cons in Hin as [[-> ->]%pair_equal_spec|Hin].
  - exists 0%nat, x. by rewrite Z.add_0_r.
  - destruct (IH _ _ _ Hin) as (j & y & Hj & -> & ->). exists (S j), y. split; [done|]. split; [|done]. f_equal. lia.
Qed.

Lemma rec_key_inj i j h1 h2 : 0 <= i < 10 ^ 10 -> 0 <= j < 10 ^ 10 -> is_uint256 h1 -> is_uint256 h2 ->
  rec_key i h1 = rec_key j h2 -> i = j /\ h1 = h2.
Proof.
  intros Hi Hj Hh1 Hh2 E. pose proof (deserialize_rec_key i h1 Hi Hh1) as E1. rewrite E, deserialize_rec_key in E1 by done. by injection E1.
Qed.

Lemma entries_sorted log : forall i, 0 <= i -> i + Zlen log <= 10 ^ 10 -> Forall saved_ok log ->
  StronglySorted (fun a b => bytes_le a.1 b.1 = true) (entries_from i log) /\ NoDup (entries_from i log).*1.
Proof.
  induction log as [|x log IH]; intros i Hi Hn HF; [split; constructor|]. rewrite Zlen_cons in Hn. pose proof (Zlen_nonneg log).
  inversion_clear HF as [|? ? Hx HF']. destruct (IH (i + 1) ltac:(lia) ltac:(lia) HF') as [Hs Hd]. cbn [entries_from].
  assert (Hk : forall k v, (k, v) ∈ entries_from (i + 1) log -> bytes_le (rec_key i (sv_hash x)) k = true /\ k <> rec_key i (sv_hash x)).
  { intros k v (j & y & Hy & -> & _)%entries_from_in. pose proof (lookup_lt_Some _ _ _ Hy) as Hlt. unfold Zlen in Hn.
    split; [apply rec_key_le; lia|]. intros E. apply rec_key_inj in E as [E _]; [lia|lia|lia| |by apply saved_hash].
    apply saved_hash. by apply (proj1 (Forall_lookup _ _) HF' j). }
  split.
  - constructor; [done|]. apply Forall_forall. intros [k v] Hin. cbn. by apply (Hk k v).
  - cbn. constructor; [|done]. intros ([k v] & Ek & Hin)%list_elem_of_fmap. cbn in Ek. subst k. by apply (Hk _ v Hin).
Qed.

Lemma iter_logged d log : logged d log -> leveldb_iter (db d) = entries_from 0 log.
Proof.
  intros [Hm _ Hl HF]. pose proof (leveldb_iter_ok (db d)) as Hp. rewrite Hm in Hp.
  destruct (entries_sorted log 0 ltac:(lia) ltac:(lia) HF) as [Hs Hd]. rewrite map_to_list_to_map in Hp by done.
  eapply StronglySorted_unique_strong; [|apply leveldb_iter_sorted|exact Hs|exact Hp].
  intros [k1 v1] [k2 v2] Hin1 Hin2 L1 L2. cbn in L1, L2. rewrite Hp in Hin1. pose proof (bytes_le_antisym _ _ L1 L2) as ->.
  apply (elem_of_list_to_map_1 (M := gmap (list byte))) in Hin1, Hin2; [|done..]. congruence.
Qed.
(** ** Reading the log back *)

(** The records processed in order. *)
Inductive replays : gmap (list byte) tx_entry -> gmap (list byte) txo_entry -> list saved ->
    gmap (list byte) tx_entry -> gmap (list byte) txo_entry -> Prop :=
| replays_nil mt mo : replays mt mo [] mt mo
| replays_cons mt mo x log tx rel mo1 mt' mo' :
    received (sd_buf (sv_data x)) tx -> mt !! sv_hash x = None ->
    process_map (sv_hash x) (Some (sd_blkHash (sv_data x))) tx mo = Ok (rel, mo1) ->
    replays (<[sv_hash x := TxEntry tx (sd_blkHash (sv_data x)) (sd_timestamp (sv_data x)) rel]> mt) mo1 log mt' mo' ->
    replays mt mo (x :: log) mt' mo'.

Definition log_bytes_of log : Z := foldr (fun x n => 1 + Zlen (sd_buf (sv_data x)) + n) 0 log.

(** The calls into the peer group for the records that are in no block. *)
Definition rebroadcast (x : saved) (l : list relay) : list relay :=
  if uint256_iszero (Some (sd_blkHash (sv_data x)))
  then RelayNew (sd_buf (sv_data x)) (wrap64 (sd_timestamp (sv_data x) + 2 * 60 * 60)) (sv_hash x) :: l else l.

Definition loaded d log d' : Prop :=
  tx_seq d' = tx_seq d + Zlen log /\ db d' = db d /\ relays d' = foldl (fun l x => rebroadcast x l) (relays d) log.

Lemma remember_saved env ts buf h blk d mt mo tx rel mo' :
  ledger d mt mo -> mt !! h = None -> is_uint256 h -> room mt mo buf -> received buf tx ->
  process_map h (Some blk) tx mo = Ok (rel, mo') ->
  exists d', txdb_remember_tx env true ts buf h (Some blk) d = Ok (false, false, d') /\
    ledger d' (<[h := TxEntry tx blk ts rel]> mt) mo' /\ tx_seq d' = tx_seq d /\ db d' = db d /\ relays d' = relays d.
Proof.
  intros [Hrep Hbk] Hh Hu [Hst Hso] Hrcv Em. destruct (received_loaded buf tx) as [Hl Hn]; [lia|done|].
  destruct (add_ok buf tx h (Some blk) ts d mt mo Hrep Hh Hst Hrcv) as (p & d1 & Ea & [Ht1 Ho1] & El & Ep & Eh & Eo & Es & Ed & Er).
  unfold txdb_remember_tx. rewrite Ea, bind_ok, (obj_load_ok _ _ _ Ep), bind_ok. cbn [te_tx te_relevant].
  pose proof (process_refines h (Some blk) tx d1 mo Ho1 ltac:(lia)) as Hp. rewrite Em in Hp.
  destruct Hp as (d2 & E2 & Ho2 & S1 & S2 & S3 & S4 & S5). rewrite E2, bind_ok.
  pose proof (books_process _ _ _ _ _ blk ts _ _ Hbk Hh Hu Hl Em) as Hbk'. cbn [default from_option id] in *.
  destruct rel; cbn [negb].
  - eexists. split; [done|]. cbn. split; [|by rewrite S3, S4, S5, Es, Ed, Er]. split; [|done]. split; [|done]. cbn. rewrite S1, S2.
    rewrite <- (insert_insert_eq mt h _ (TxEntry tx blk ts false)). by apply rep_update.
  - exists d2. split; [done|]. split; [|by rewrite S3, S4, S5, Es, Ed, Er]. split; [|done]. split; [|done]. by rewrite S1, S2.
Qed.

Lemma load_tx_ok env x d mt mo tx rel mo' :
  ledger d mt mo -> saved_ok x -> 0 <= tx_seq d < 10 ^ 10 -> mt !! sv_hash x = None -> room mt mo (sd_buf (sv_data x)) ->
  received (sd_buf (sv_data x)) tx -> process_map (sv_hash x) (Some (sd_blkHash (sv_data x))) tx mo = Ok (rel, mo') ->
  exists d', txdb_load_tx env (rec_key (tx_seq d) (sv_hash x)) (rec_val (sv_data x)) d = Ok (false, d') /\
    ledger d' (<[sv_hash x := TxEntry tx (sd_blkHash (sv_data x)) (sd_timestamp (sv_data x)) rel]> mt) mo' /\ loaded d [x] d'.
Proof.
  intros Hl Hx Hs Hh Hroom Hrcv Em. pose proof (saved_hash x Hx) as Hu. destruct Hx as [Eh Hok].
  unfold txdb_load_tx. rewrite bool_decide_eq_true_2 by reflexivity. cbn [ASSERT]. rewrite bind_ok.
  rewrite deserialize_rec_key, bind_ok, deserialize_rec_val, bind_ok by done. cbn [sk_seq sk_txHash].
  rewrite Z.eqb_refl. cbn [ASSERT]. rewrite bind_ok, (ro_len _ Hok), ptr_load_all, bind_ok, <- Eh.
  assert (Es : uint256_issame (sv_hash x) (sv_hash x) = true) by (unfold uint256_issame; by rewrite bool_decide_eq_true_2).
  rewrite Es. cbn [ASSERT]. rewrite bind_ok.
  destruct (remember_saved env (sd_timestamp (sv_data x)) _ _ _ (with_tx_seq (wrap64 (tx_seq d + 1)) d) mt mo tx rel mo' Hl Hh Hu Hroom Hrcv Em)
    as (d' & E & Hl' & S1 & S2 & S3). rewrite E, bind_ok.
  eexists. split; [done|]. cbn in S1, S2, S3. rewrite wrap64_small in S1 by lia. unfold loaded, rebroadcast. cbn [foldl].
  destruct (uint256_iszero _); cbn; (split; [exact Hl'|]); rewrite S1, S2, S3, Zlen_cons, Zlen_nil; by split_and!.
Qed.
Lemma process_map_size h blk tx mo rel mo' :
  tx_loaded tx -> process_map h blk tx mo = Ok (rel, mo') -> Z.of_nat (size mo') <= Z.of_nat (size mo) + Zlen (tx_out tx).
Proof.
  intros Hl E. rewrite process_map_eq in E by done. apply res_bind_Ok in E as ([r1 mo1] & Es & E).
  apply receive_map_size in E. by rewrite (spend_map_size _ _ _ _ _ Es) in E.
Qed.

Lemma log_bytes_nonneg log : 0 <= log_bytes_of log.
Proof. unfold log_bytes_of. induction log as [|x log IH]; cbn [foldr]; [done|]. pose proof (Zlen_nonneg (sd_buf (sv_data x))). lia. Qed.

Lemma txdb_load_ok env log : forall d mt mo mt' mo',
  ledger d mt mo -> replays mt mo log mt' mo' -> Forall saved_ok log -> 0 <= tx_seq d -> tx_seq d + Zlen log <= 10 ^ 10 ->
  Z.of_nat (size mt) + Z.of_nat (size mo) + log_bytes_of log < 2 ^ 32 - 1 ->
  exists d', txdb_load env (entries_from (tx_seq d) log) d = Ok d' /\ ledger d' mt' mo' /\ loaded d log d'.
Proof.
  induction log as [|x log IH]; intros d mt mo mt' mo' Hl Hr Hok Hs0 Hs Hb.
  { inversion Hr; subst. exists d. split; [done|]. split; [done|]. unfold loaded. rewrite Zlen_nil, Z.add_0_r. done. }
  inversion Hr as [|? ? ? ? tx rel mo1 ? ? Hrcv Hh Em Hr']; subst. inversion_clear Hok as [|? ? Hx Hok'].
  rewrite Zlen_cons in Hs. pose proof (Zlen_nonneg log). cbn [log_bytes_of foldr] in Hb. fold (log_bytes_of log) in Hb.
  pose proof (log_bytes_nonneg log). pose proof (Zlen_nonneg (sd_buf (sv_data x))).
  destruct (load_tx_ok env x d mt mo tx rel mo1) as (d1 & E1 & Hl1 & S1 & S2 & S3); try done; [lia|split; lia|].
  destruct (received_loaded (sd_buf (sv_data x)) tx) as [Hld Hn]; [lia|done|]. apply (process_map_size _ _ _ _ _ _ Hld) in Em.
  rewrite Zlen_cons, Zlen_nil in S1. change (1 + 0) with 1 in S1.
  destruct (IH d1 _ _ mt' mo' Hl1 Hr' Hok') as (d' & E & Hl' & T1 & T2 & T3); [lia|lia| |].
  { rewrite map_size_insert_None by done. lia. }
  exists d'. cbn [entries_from txdb_load]. split.
  - assert (Hk : (4 <? Zlen (rec_key (tx_seq d) (sv_hash x))) = true /\ bool_decide (take 4 (rec_key (tx_seq d) (sv_hash x)) = str "/tx/") = true).
    { split; [|by apply bool_decide_eq_true_2]. unfold rec_key. rewrite Zlen_app, Zlen_app.
      pose proof (Zlen_nonneg (str "/" ++ hash_text (sv_hash x) ++ [x00])). unfold Zlen at 2.
      destruct (print_010_spec (tx_seq d) ltac:(lia)) as (_ & -> & _). apply Z.ltb_lt. vm_compute (Zlen (str "/tx/")). lia. }
    destruct Hk as [-> ->]. cbn [andb]. rewrite E1, bind_ok. cbn [negb ASSERT]. rewrite bind_ok, <- S1. exact E.
  - split; [done|]. unfold loaded. rewrite T1, T2, T3, S1, S2, S3, Zlen_cons. split_and!; [lia|done|done].
Qed.

(** [txdb_open] on a store that holds a log, without an interface. *)
Lemma open_ok env x log limit mt mo :
  (forall d, db d = x -> tx_seq d = Zlen log -> logged d log) -> Zlen log <= 10 ^ 10 -> Forall saved_ok log ->
  replays ∅ ∅ log mt mo -> log_bytes_of log < 2 ^ 32 - 1 -> env_ui env = false -> (length log <= limit)%nat ->
  exists d, (forall F, txdb_open env (Some x) limit (Disk F []) = Ok (Some d, Disk F [])) /\ ledger d mt mo /\ tx_seq d = Zlen log /\ db d = x /\
    relays d = foldl (fun l x => rebroadcast x l) [] log.
Proof.
  intros Hlog Hn Hok Hr Hb Hui Hlim.
  destruct (t_create_ok (V := positive)) as (t & E & Ht).
  set (d0 := Txdb ∅ ∅ t t 0 x []).
  assert (Hl0 : ledger d0 ∅ ∅) by (split; [split; by apply rep_empty|apply books_empty]).
  assert (Ei : leveldb_iter x = entries_from 0 log).
  { exact (iter_logged (Txdb ∅ ∅ t t (Zlen log) x []) log (Hlog (Txdb ∅ ∅ t t (Zlen log) x []) eq_refl eq_refl)). }
  assert (El : length (entries_from 0 log) = length log).
  { clear. generalize 0. induction log as [|y log IH]; intros i; cbn; [done|]. by rewrite IH. }
  destruct (txdb_load_ok env log d0 ∅ ∅ mt mo Hl0 Hr Hok) as (d & Ed & Hl & S1 & S2 & S3); [done|cbn; lia|by rewrite !map_size_empty|].
  cbn [tx_seq d0] in Ed. exists d. split_and!; [|done|by rewrite S1|done|done]. intros F. unfold txdb_open.
  rewrite E, !bind_ok. change (going_on (chmod_path true (Disk F []))) with (Ok (false, Disk F [])). rewrite bind_ok. cbv iota. fold d0. rewrite Ei, take_ge, Ed, bind_ok by lia.
  unfold txdb_export_tx_info. rewrite Hui. cbn [negb]. by rewrite bind_ok.
Qed.
End log.
