(* ===== verification/Restart.v ===== *)
(** * Restarting the transaction database

    The records txdb.c puts into LevelDB are enough to find the coins again: a
    database opened on the store of another one has its transactions, its coins
    and its balance. The block noted in a coin is the one of its record, which
    [txdb_confirm_one_tx] changes on disk only. *)
From Stdlib Require Import Strings.String Sorting.Sorted.
From S2P Require Export TxStore.

Section blind.
Context `{Malloc} `{Sha256} `{BigNum} `{KR : !KeyRing} `{WalletApi} `{T : Table positive} `{DB : LevelDb}.
Implicit Types d : txdb.
Implicit Types log : list saved.
Implicit Types mt : gmap (list byte) tx_entry.
Implicit Types mo : gmap (list byte) txo_entry.

(** ** Coins up to the block they are noted in *)

Definition strip (e : txo_entry) : txo_entry :=
  TxoEntry (xo_txHash e) uint256_zero_out (xo_btc_addr e) (xo_outIdx e) (xo_value e) (xo_spent e) (xo_spendable e).
Definition blind mo : gmap (list byte) txo_entry := strip <$> mo.

Lemma blind_lookup mo mo2 k e : blind mo = blind mo2 -> mo !! k = Some e -> exists e2, mo2 !! k = Some e2 /\ strip e2 = strip e.
Proof.
  intros Hb Hk. apply (f_equal (lookup k)) in Hb. unfold blind in Hb. rewrite !lookup_fmap, Hk in Hb.
  destruct (mo2 !! k) as [e2|]; [|done]. exists e2. split; [done|]. apply Some_inj in Hb. done.
Qed.

Lemma blind_None mo mo2 k : blind mo = blind mo2 -> mo !! k = None -> mo2 !! k = None.
Proof.
  intros Hb Hk. destruct (mo2 !! k) as [e2|] eqn:E; [|done]. symmetry in Hb.
  destruct (blind_lookup _ _ _ _ Hb E) as (e & E' & _). congruence.
Qed.

Lemma blind_insert mo mo2 k e e2 : blind mo = blind mo2 -> strip e = strip e2 -> blind (<[k := e]> mo) = blind (<[k := e2]> mo2).
Proof. unfold blind. intros Hb He. by rewrite !fmap_insert, Hb, He. Qed.

Lemma spend_map_blind ins : forall rel mo mo2 rel' mo',
  blind mo = blind mo2 -> spend_map ins rel mo = Ok (rel', mo') ->
  exists mo2', spend_map ins rel mo2 = Ok (rel', mo2') /\ blind mo' = blind mo2'.
Proof.
  induction ins as [|txi ins IH]; cbn [spend_map]; intros rel mo mo2 rel' mo' Hb; [intros [= <- <-]; by exists mo2|].
  destruct (mo !! txi_key txi) as [e|] eqn:Ek.
  - destruct (blind_lookup _ _ _ _ Hb Ek) as (e2 & -> & He).
    assert (Hsp : xo_spent e2 = xo_spent e) by (by injection He). rewrite Hsp. destruct (xo_spent e); [done|].
    apply IH, blind_insert; [done|]. unfold strip, set_spent. cbn. by injection He as -> -> -> -> _ ->.
  - rewrite (blind_None _ _ _ Hb Ek). by apply IH.
Qed.

Lemma receive_map_blind h blk blk2 outs : forall i rel mo mo2 rel' mo',
  blind mo = blind mo2 -> receive_map h blk i outs rel mo = Ok (rel', mo') ->
  exists mo2', receive_map h blk2 i outs rel mo2 = Ok (rel', mo2') /\ blind mo' = blind mo2'.
Proof.
  induction outs as [|txo outs IH]; cbn [receive_map]; intros i rel mo mo2 rel' mo' Hb; [intros [= <- <-]; by exists mo2|].
  intros (m & -> & E)%res_bind_Ok. rewrite bind_ok. destruct m as [a|]; [|by eapply IH].
  apply res_bind_Ok in E as (e & Ec & E). unfold new_coin in *. apply res_bind_Ok in Ec as (addr & Ea & Ec).
  apply res_bind_Ok in Ec as (b & Eb & [= <-]). rewrite Ea, !bind_ok, Eb, !bind_ok.
  case_bool_decide as Hk; [|done]. cbn [ASSERT] in E. rewrite bind_ok in E. rewrite (bool_decide_eq_true_2 (mo2 !! _ = None)) by by eapply blind_None.
  cbn [ASSERT]. rewrite bind_ok. eapply IH; [|exact E]. by apply blind_insert.
Qed.

Lemma process_map_blind h blk blk2 tx mo mo2 rel mo' :
  blind mo = blind mo2 -> process_map h blk tx mo = Ok (rel, mo') ->
  exists mo2', process_map h blk2 tx mo2 = Ok (rel, mo2') /\ blind mo' = blind mo2'.
Proof.
  intros Hb. unfold process_map. intros (ins & -> & E)%res_bind_Ok. apply res_bind_Ok in E as ([r1 mo1] & Es & E).
  apply res_bind_Ok in E as (outs & Eo & E). destruct (spend_map_blind _ _ _ _ _ _ Hb Es) as (mo3 & E3 & Hb3).
  rewrite bind_ok, E3, bind_ok, Eo, bind_ok. by eapply receive_map_blind.
Qed.

(** The balance does not look at the blocks. *)
Lemma balance_blind mo : balance mo = balance (blind mo).
Proof.
  induction mo as [|k e mo Hk IH] using map_ind; [by unfold blind; rewrite fmap_empty|].
  unfold blind in *. rewrite fmap_insert, !balance_insert; [by rewrite IH|by rewrite lookup_fmap, Hk|done].
Qed.

(** ** Noting a block in the log *)

Definition retag (h blk : uint256) (x : saved) : saved :=
  if decide (sv_hash x = h)
  then Saved (sv_hash x) (TxSerData blk (sd_timestamp (sv_data x)) (sd_buf (sv_data x)) (sd_len (sv_data x))) else x.

Lemma retag_same h blk x : sv_hash (retag h blk x) = sv_hash x /\ sd_buf (sv_data (retag h blk x)) = sd_buf (sv_data x) /\
  sd_timestamp (sv_data (retag h blk x)) = sd_timestamp (sv_data x).
Proof. unfold retag. by destruct (decide _). Qed.

Lemma replays_retag h blk mt mo log mt' mo' : replays mt mo log mt' mo' -> forall mo2, blind mo = blind mo2 ->
  exists mo2', replays (alter (set_blkHash blk) h mt) mo2 (map (retag h blk) log) (alter (set_blkHash blk) h mt') mo2' /\ blind mo' = blind mo2'.
Proof.
  induction 1 as [mt mo|mt mo x log tx rel mo1 mt' mo' Hrcv Hh Em Hr IH]; intros mo2 Hb.
  { exists mo2. split; [constructor|done]. }
  destruct (retag_same h blk x) as (Eh & Eb & Et).
  destruct (process_map_blind _ _ (Some (sd_blkHash (sv_data (retag h blk x)))) _ _ _ _ _ Hb Em) as (mo3 & E3 & Hb3).
  destruct (IH mo3 Hb3) as (mo2' & Hr' & Hb'). exists mo2'. split; [|done]. cbn [map].
  econstructor; rewrite ?Eh, ?Eb, ?Et; [exact Hrcv|by rewrite lookup_alter_None|exact E3|].
  assert (E : <[sv_hash x := TxEntry tx (sd_blkHash (sv_data (retag h blk x))) (sd_timestamp (sv_data x)) rel]> (alter (set_blkHash blk) h mt) =
    alter (set_blkHash blk) h (<[sv_hash x := TxEntry tx (sd_blkHash (sv_data x)) (sd_timestamp (sv_data x)) rel]> mt)); [|by rewrite E].
  unfold retag. destruct (decide (sv_hash x = h)) as [->|Hne].
  - apply map_eq. intros k. destruct (decide (h = k)) as [->|Hk].
    + by rewrite lookup_insert_eq, lookup_alter_eq, lookup_insert_eq.
    + by rewrite lookup_insert_ne, !lookup_alter_ne, lookup_insert_ne.
  - by rewrite alter_insert_ne.
Qed.
(** ** The log and the store *)

Lemma entries_from_app l1 : forall l2 i, entries_from i (l1 ++ l2) = entries_from i l1 ++ entries_from (i + Zlen l1) l2.
Proof.
  induction l1 as [|x l1 IH]; intros l2 i; cbn; [by rewrite Zlen_nil, Z.add_0_r|].
  rewrite IH, Zlen_cons. do 3 f_equal. lia.
Qed.

(** A binding of the middle of a list. *)
Lemma list_to_map_middle (l1 l2 : list (list byte * list byte)) k v v' :
  k ∉ l1.*1 -> (list_to_map (l1 ++ (k, v') :: l2) : gmap (list byte) (list byte)) = <[k := v']> (list_to_map (l1 ++ (k, v) :: l2)).
Proof.
  intros Hk. rewrite !list_to_map_app. cbn [list_to_map foldr uncurry]. rewrite insert_union_r by by apply not_elem_of_list_to_map_1.
  f_equal. by rewrite insert_insert_eq.
Qed.

Lemma replays_hashes mt mo log mt' mo' : replays mt mo log mt' mo' ->
  NoDup (sv_hash <$> log) /\ (forall x, x ∈ log -> mt !! sv_hash x = None) /\
  (forall h te, mt' !! h = Some te -> mt !! h = Some te \/ exists x, x ∈ log /\ sv_hash x = h).
Proof.
  induction 1 as [mt mo|mt mo x log tx rel mo1 mt' mo' Hrcv Hh Em Hr (Hnd & Hn & Hin)].
  { split_and!; [constructor|intros x ?%elem_of_nil; done|by left]. }
  split_and!.
  - cbn. constructor; [|done]. intros (y & Ey & Hy)%list_elem_of_fmap. specialize (Hn y Hy). rewrite <- Ey, lookup_insert_eq in Hn. done.
  - intros y [->|Hy]%elem_of_cons; [done|]. specialize (Hn y Hy). by apply lookup_insert_None in Hn as [? _].
  - intros h te Hte. destruct (Hin h te Hte) as [Hl|(y & Hy & Ey)].
    + apply lookup_insert_Some in Hl as [[<- _]|[_ ?]]; [|by left]. right. exists x. split; [constructor|done].
    + right. exists y. split; [by constructor|done].
Qed.

Definition puts_succeed : Prop := forall (x : leveldb) k v, (leveldb_put x k v).1 = false.

Lemma put_map (x : leveldb) k v : puts_succeed -> leveldb_map (leveldb_put x k v).2 = <[k := v]> (leveldb_map x).
Proof.
  intros Hp. specialize (Hp x k v). pose proof (leveldb_put_ok x k v) as Hok. destruct (leveldb_put x k v) as [err x'].
  destruct Hok as [Hok|[Herr _]]; [done|]. cbn in Hp. congruence.
Qed.

Lemma retag_ok h blk x : is_uint256 blk -> saved_ok x -> saved_ok (retag h blk x).
Proof. intros Hb [Eh [? ? ? ?]]. unfold retag. destruct (decide _); by split. Qed.

(** The record of the transaction is rewritten where it is. *)
Lemma confirm_loop_log env blk h x l1 l2 : puts_succeed -> is_uint256 blk -> sv_hash x = h -> h ∉ (sv_hash <$> l1) ->
  forall i d d', 0 <= i -> i + Zlen (l1 ++ x :: l2) <= 10 ^ 10 -> Forall saved_ok (l1 ++ x :: l2) ->
  confirm_loop env blk h (entries_from i (l1 ++ x :: l2)) d = Ok d' ->
  exists y, d' = with_db y d /\
    leveldb_map y = <[rec_key (i + Zlen l1) h := rec_val (sv_data (retag h blk x))]> (leveldb_map (db d)).
Proof.
  intros Hp Hb Hx. induction l1 as [|z l1 IH]; intros Hn i d d' Hi Hlen Hok E; cbn [app entries_from confirm_loop] in E.
  - rewrite Zlen_nil, Z.add_0_r. inversion_clear Hok as [|? ? Hsx _]. pose proof (saved_hash x Hsx) as Hu. cbn [app] in Hlen.
    rewrite Zlen_cons in Hlen. pose proof (Zlen_nonneg l2).
    rewrite deserialize_rec_key, bind_ok in E by (done || lia). cbn [sk_txHash] in E.
    assert (Es : uint256_issame h (sv_hash x) = true) by (unfold uint256_issame; by rewrite bool_decide_eq_true_2).
    rewrite Es in E. cbn [negb] in E. destruct Hsx as [Eh Hro]. rewrite deserialize_rec_val, bind_ok in E by done.
    apply res_bind_Ok in E as (? & _ & E). apply res_bind_Ok in E as (? & _ & E).
    assert (Hro' : rec_ok (TxSerData blk (sd_timestamp (sv_data x)) (sd_buf (sv_data x)) (sd_len (sv_data x)))) by (destruct Hro; by split).
    destruct (serialize_rec_val _ Hro') as (b & Eb & Hc). rewrite Eb, bind_ok, Hc, Hx in E.
    pose proof (put_map (db d) (rec_key i h) (rec_val (TxSerData blk (sd_timestamp (sv_data x)) (sd_buf (sv_data x)) (sd_len (sv_data x)))) Hp) as Hm.
    destruct (leveldb_put _ _ _) as [err y]. apply res_bind_Ok in E as (? & _ & [= <-]). exists y. split; [done|].
    unfold retag. rewrite decide_True by done. exact Hm.
  - inversion_clear Hok as [|? ? Hsz Hok']. pose proof (saved_hash z Hsz) as Hu. cbn [app] in Hlen. rewrite Zlen_cons in Hlen.
    pose proof (Zlen_nonneg (l1 ++ x :: l2)). rewrite fmap_cons, not_elem_of_cons in Hn. destruct Hn as [Hne Hn].
    rewrite deserialize_rec_key, bind_ok in E by (done || lia). cbn [sk_txHash] in E.
    assert (Es : uint256_issame h (sv_hash z) = false) by (unfold uint256_issame; by rewrite bool_decide_eq_false_2).
    rewrite Es in E. cbn [negb] in E. destruct (IH Hn (i + 1) d d' ltac:(lia) ltac:(lia) Hok' E) as (y & -> & Hm).
    exists y. split; [done|]. rewrite Hm, Zlen_cons. do 2 f_equal. lia.
Qed.
(** ** The store follows the books *)

Definition relevant_txs mt : gmap (list byte) tx_entry := omap (fun te => if te_relevant te then Some te else None) mt.

Record stored d mt mo log : Prop := Stored {
  st_ledger : ledger d mt mo;
  st_logged : logged d log;
  st_replay : exists mo_r, replays ∅ ∅ log (relevant_txs mt) mo_r /\ blind mo = blind mo_r
}.

Lemma relevant_lookup mt h te : mt !! h = Some te -> relevant_txs mt !! h = if te_relevant te then Some te else None.
Proof. intros E. unfold relevant_txs. by rewrite lookup_omap, E. Qed.

Lemma relevant_None mt h : mt !! h = None -> relevant_txs mt !! h = None.
Proof. intros E. unfold relevant_txs. by rewrite lookup_omap, E. Qed.

Lemma relevant_insert mt h te : relevant_txs (<[h := te]> mt) = if te_relevant te then <[h := te]> (relevant_txs mt) else delete h (relevant_txs mt).
Proof.
  unfold relevant_txs. destruct (te_relevant te) eqn:Er; [by rewrite (omap_insert_Some _ _ _ _ te) by by rewrite Er|].
  by rewrite omap_insert_None by by rewrite Er.
Qed.

Lemma relevant_delete mt h te : mt !! h = Some te -> te_relevant te = false -> relevant_txs (delete h mt) = relevant_txs mt.
Proof.
  intros Hh Hr. unfold relevant_txs. rewrite omap_delete. apply delete_id. by rewrite lookup_omap, Hh; cbn; rewrite Hr.
Qed.

Lemma relevant_set_blkHash mt h te blk : mt !! h = Some te -> te_relevant te = true ->
  relevant_txs (<[h := set_blkHash blk te]> mt) = alter (set_blkHash blk) h (relevant_txs mt).
Proof.
  intros Hh Hr. rewrite relevant_insert. cbn. rewrite Hr. apply map_eq. intros k. destruct (decide (h = k)) as [<-|Hne].
  - rewrite lookup_insert_eq, lookup_alter_eq, (relevant_lookup _ _ _ Hh), Hr. done.
  - by rewrite lookup_insert_ne, lookup_alter_ne.
Qed.

Lemma logged_same d d' log : db d' = db d -> tx_seq d' = tx_seq d -> logged d log -> logged d' log.
Proof. intros E1 E2 [? ? ? ?]. split; congruence. Qed.

Lemma confirm_stored env blk h d mt mo log d' :
  puts_succeed -> is_uint256 blk -> stored d mt mo log -> txdb_confirm_one_tx env blk h d = Ok d' ->
  exists log', stored d' (confirm_map blk h mt) mo log' /\ log_bytes_of log' = log_bytes_of log /\ Zlen log' = Zlen log.
Proof.
  intros Hput Hb [Hl Hlog (mo_r & Hr & Hbl)] E. pose proof (confirm_ledger _ _ _ _ _ _ _ Hl E) as Hl'.
  unfold txdb_confirm_one_tx in E. apply res_bind_Ok in E as (_ & _ & E). apply res_bind_Ok in E as (_ & _ & E).
  destruct Hl as [[Ht Ho] Hbk]. unfold txdb_get_tx_entry in E. unfold confirm_map in *.
  destruct (rep_lookup _ _ _ h Ht) as ([p|] & El & Hp); rewrite El, bind_ok in E.
  2: { injection E as <-. rewrite Hp in *. exists log. split; [|done]. by split; [|done|exists mo_r]. }
  destruct Hp as [Ep [te Ete]]. rewrite Ete in *. rewrite (obj_load_ok _ _ _ Ep), bind_ok in E.
  destruct (te_relevant te) eqn:Er; cbn [negb] in *.
  2: { unfold txdb_remove_from_hashtable, txdb_get_tx_entry in E. rewrite El, bind_ok, (obj_load_ok _ _ _ Ep), bind_ok, Er in E.
       destruct (t_remove (hash_tx d) h) as [[? t]|]; [|done]. rewrite bind_ok in E. injection E as <-. exists log. split; [|done].
       split; [done|by apply (logged_same d)|]. exists mo_r. by rewrite (relevant_delete _ _ te). }
  destruct (uint256_iszero (Some (te_blkHash te))); cbn [negb] in *.
  2: { apply res_bind_Ok in E as (_ & _ & [= <-]). exists log. split; [|done]. by split; [|done|exists mo_r]. }
  pose proof Hlog as [Hm Hseq Hlen Hok]. change (leveldb_iter _) with (leveldb_iter (db d)) in E. rewrite (iter_logged _ _ Hlog) in E.
  destruct (replays_hashes _ _ _ _ _ Hr) as (Hnd & _ & Hin). destruct (Hin h te) as [?|(x & Hx & Ex)]; [by rewrite (relevant_lookup _ _ _ Ete), Er|by simplify_map_eq|].
  apply list_elem_of_split in Hx as (l1 & l2 & ->). rewrite fmap_app in Hnd.
  assert (Hn1 : h ∉ (sv_hash <$> l1)).
  { apply NoDup_app in Hnd as (_ & Hd & _). intros Hc. apply (Hd h Hc). cbn. rewrite Ex. constructor. }
  destruct (confirm_loop_log env blk h x l1 l2 Hput Hb Ex Hn1 0 _ _ ltac:(lia) Hlen Hok E) as (y & -> & Hy).
  assert (Hothers : map (retag h blk) (l1 ++ x :: l2) = l1 ++ retag h blk x :: l2).
  { apply NoDup_app in Hnd as (_ & _ & Hnd2). cbn in Hnd2. rewrite Ex in Hnd2. apply NoDup_cons in Hnd2 as [Hn2 _].
    assert (Hid : forall l, h ∉ (sv_hash <$> l) -> map (retag h blk) l = l).
    { clear. induction l as [|z l IH]; intros Hn; [done|]. rewrite fmap_cons, not_elem_of_cons in Hn. destruct Hn as [Hne Hn].
      cbn. rewrite (IH Hn). unfold retag. by rewrite decide_False. }
    rewrite map_app. cbn [map]. by rewrite !Hid. }
  exists (l1 ++ retag h blk x :: l2). destruct (retag_same h blk x) as (Rh & Rb & _). split_and!.
  - split; [exact Hl'| |].
    + split; [| | |].
      * cbn [db with_db]. rewrite Hy. cbn [db with_db with_txes with_relay]. rewrite Hm, !entries_from_app. cbn [entries_from]. rewrite Rh, Ex.
        symmetry. apply list_to_map_middle.
        intros ([k v] & Ek & (j & z & Hz & -> & _)%entries_from_in)%list_elem_of_fmap. cbn in Ek.
        assert (Hsz : is_uint256 (sv_hash z)) by (apply saved_hash, (proj1 (Forall_forall _ _) Hok), elem_of_app; left; by eapply list_elem_of_lookup_2).
        assert (Hsx : is_uint256 h) by (rewrite <- Ex; apply saved_hash, (proj1 (Forall_forall _ _) Hok), elem_of_app; right; constructor).
        pose proof (lookup_lt_Some _ _ _ Hz). rewrite Zlen_app, Zlen_cons in Hlen. pose proof (Zlen_nonneg l2). unfold Zlen in *.
        apply rec_key_inj in Ek as [Ek _]; [lia|lia|lia|done|done].
      * cbn. rewrite Hseq, !Zlen_app, !Zlen_cons. done.
      * rewrite Zlen_app, Zlen_cons in Hlen |- *. done.
      * rewrite <- Hothers. apply Forall_map. eapply Forall_impl; [exact Hok|]. intros z. by apply retag_ok.
    + destruct (replays_retag h blk _ _ _ _ _ Hr ∅ eq_refl) as (mo2 & Hr2 & Hb2). exists mo2. split; [|congruence].
      rewrite relevant_set_blkHash, <- Hothers by done.
      assert (Ea : alter (set_blkHash blk) h (∅ : gmap (list byte) tx_entry) = ∅) by (apply map_eq; intros k; by rewrite lookup_alter, lookup_empty; destruct (decide _)).
      by rewrite Ea in Hr2.
  - unfold log_bytes_of. rewrite !foldr_app. cbn [foldr]. by rewrite Rb.
  - by rewrite !Zlen_app, !Zlen_cons.
Qed.
Lemma spend_map_idle ins : forall rel mo mo', spend_map ins rel mo = Ok (false, mo') -> mo' = mo.
Proof.
  induction ins as [|txi ins IH]; cbn [spend_map]; intros rel mo mo'; [by intros [= _ ->]|].
  destruct (mo !! txi_key txi) as [e|]; [|apply IH]. destruct (xo_spent e); [done|]. intros E.
  destruct (spend_map_spec _ _ _ _ _ E) as (Hr & _). by specialize (Hr eq_refl).
Qed.

Lemma receive_map_idle h blk outs : forall i rel mo mo', receive_map h blk i outs rel mo = Ok (false, mo') -> mo' = mo /\ rel = false.
Proof.
  induction outs as [|txo outs IH]; cbn [receive_map]; intros i rel mo mo'; [by intros [= -> ->]|].
  intros (m & _ & E)%res_bind_Ok. destruct m as [a|]; [|by eapply IH]. apply res_bind_Ok in E as (e & _ & E).
  apply res_bind_Ok in E as (u & _ & E). by apply IH in E as [_ ?].
Qed.

Lemma process_map_idle h blk tx mo mo' : process_map h blk tx mo = Ok (false, mo') -> mo' = mo.
Proof.
  unfold process_map. intros (ins & _ & E)%res_bind_Ok. apply res_bind_Ok in E as ([r1 mo1] & Es & E).
  apply res_bind_Ok in E as (outs & _ & E). apply receive_map_idle in E as [-> ->]. by apply spend_map_idle in Es.
Qed.

Lemma replays_snoc mt mo log mt1 mo1 x tx rel mo2 :
  replays mt mo log mt1 mo1 -> received (sd_buf (sv_data x)) tx -> mt1 !! sv_hash x = None ->
  process_map (sv_hash x) (Some (sd_blkHash (sv_data x))) tx mo1 = Ok (rel, mo2) ->
  replays mt mo (log ++ [x]) (<[sv_hash x := TxEntry tx (sd_blkHash (sv_data x)) (sd_timestamp (sv_data x)) rel]> mt1) mo2.
Proof.
  induction 1 as [mt mo|mt mo y log tx' rel' mo3 mt1 mo1 Hrcv Hh Em Hr IH]; intros Hx Hn E; cbn.
  - econstructor; [done|done|done|constructor].
  - econstructor; [done|done|done|by apply IH].
Qed.

Lemma save_tx_log h blk ts buf d : puts_succeed -> is_uint256 h -> 0 <= tx_seq d < 10 ^ 10 ->
  let x := TxSerData blk ts buf (Zlen buf) in rec_ok x ->
  exists y, txdb_save_tx (Some blk) h ts buf d = Ok (false, with_db y d) /\
    leveldb_map y = <[rec_key (tx_seq d) h := rec_val x]> (leveldb_map (db d)).
Proof.
  intros Hp Hu Hs x Hx. unfold txdb_save_tx. destruct (serialize_rec_key _ _ Hs Hu) as (s & b & Es & Eb & Hc).
  rewrite Es, bind_ok, Eb, bind_ok. cbn [default from_option id]. fold x. destruct (serialize_rec_val x Hx) as (b' & Eb' & Hc').
  rewrite Eb', bind_ok, Hc, Hc'. pose proof (put_map (db d) (rec_key (tx_seq d) h) (rec_val x) Hp) as Hm.
  pose proof (Hp (db d) (rec_key (tx_seq d) h) (rec_val x)) as He. destruct (leveldb_put _ _ _) as [err y]. cbn in Hm, He.
  subst err. exists y. exact (conj eq_refl Hm).
Qed.

Lemma logged_snoc d d' log x : logged d log -> saved_ok x -> Zlen log < 10 ^ 10 ->
  leveldb_map (db d') = <[rec_key (tx_seq d) (sv_hash x) := rec_val (sv_data x)]> (leveldb_map (db d)) ->
  tx_seq d' = tx_seq d + 1 -> logged d' (log ++ [x]).
Proof.
  intros [Hm Hs Hl Hok] Hx Hn Hm' Hs'. pose proof (Zlen_nonneg log). assert (Hok' : Forall saved_ok (log ++ [x])) by (apply Forall_app; by split; [|constructor]).
  assert (Hl' : Zlen (log ++ [x]) = Zlen log + 1) by (rewrite Zlen_app, Zlen_cons, Zlen_nil; lia).
  split; [|by rewrite Hl', Hs', Hs|lia|done].
  rewrite Hm', Hm, Hs, entries_from_app. cbn [entries_from]. rewrite Z.add_0_l. symmetry. apply list_to_map_snoc.
  destruct (entries_sorted (log ++ [x]) 0 ltac:(lia) ltac:(lia) Hok') as [_ Hnd]. rewrite entries_from_app, fmap_app in Hnd.
  apply NoDup_app in Hnd as (_ & Hd & _). intros Hin. apply (Hd _ Hin). cbn. rewrite Z.add_0_l. constructor.
Qed.

(** What remembering a transaction leaves in the store. *)
Lemma remember_db env ts buf h blk d mt mo :
  is_uint256 h -> puts_succeed -> txdb_rep d mt mo -> mt !! h = None -> room mt mo buf -> 0 <= tx_seq d < 10 ^ 10 ->
  let x := TxSerData blk ts buf (Zlen buf) in rec_ok x ->
  match txdb_remember_tx env false ts buf h (Some blk) d with
  | Ok (err, rel, d') => exists tx r mo', received buf tx /\ process_map h (Some blk) tx mo = Ok (r, mo') /\
      if r then leveldb_map (db d') = <[rec_key (tx_seq d) h := rec_val x]> (leveldb_map (db d)) /\ tx_seq d' = tx_seq d + 1
      else db d' = db d /\ tx_seq d' = tx_seq d
  | Fault _ => True
  end.
Proof.
  intros Hu Hput Hrep Hh [Hst Hso] Hs x Hx. pose proof (Zlen_nonneg buf). unfold txdb_remember_tx.
  destruct (txdb_add_to_hashtable buf h (Some blk) ts d) as [[p d1]|f] eqn:Ea; [|done]. rewrite bind_ok.
  destruct (add_received _ _ _ _ _ _ _ Ea) as [tx Hrcv]. destruct (received_loaded buf tx) as [Hld Hnn]; [lia|done|].
  destruct (add_ok buf tx h (Some blk) ts d mt mo Hrep Hh Hst Hrcv) as (p' & d1' & Ea' & Had).
  rewrite Ea in Ea'. injection Ea' as <- <-. destruct Had as ([_ Ho1] & _ & Ep & _ & _ & Es & Ed & _).
  rewrite (obj_load_ok _ _ _ Ep), bind_ok. cbn [te_tx te_relevant].
  pose proof (process_refines h (Some blk) tx d1 mo Ho1 ltac:(lia)) as Hp.
  destruct (process_map h (Some blk) tx mo) as [[r mo1]|f] eqn:Em; [|by rewrite Hp].
  destruct Hp as (d2 & E2 & _ & _ & _ & S3 & S4 & _). rewrite E2, bind_ok.
  destruct r; cbn [negb]; [|exists tx, false, mo1; split_and!; [done|done|by rewrite S4, Ed|by rewrite S3, Es]].
  match goal with |- context [txdb_save_tx _ _ _ _ ?d3] => destruct (save_tx_log h blk ts buf d3 Hput Hu) as (y & Ey & Hy);
    [cbn; rewrite S3, Es; lia|exact Hx|] end.
  rewrite Ey, bind_ok. cbv iota. match goal with |- context [txdb_export_tx_info env ?d] => set (d4 := d) end.
  destruct (txdb_export_tx_info env d4) as [l|f]; [|done]. rewrite bind_ok.
  match goal with |- context [?m ≫= _] => destruct m as [v|f]; [|done] end. rewrite bind_ok.
  exists tx, true, mo1. split; [done|]. split; [done|]. split.
  - cbn [db with_db with_tx_seq d4]. rewrite Hy. cbn [tx_seq db with_txes]. by rewrite S3, S4, Es, Ed.
  - cbn [tx_seq with_db with_tx_seq with_txes d4]. rewrite S3, Es, wrap64_small by lia. done.
Qed.

Lemma log_bytes_snoc log x : log_bytes_of (log ++ [x]) = log_bytes_of log + 1 + Zlen (sd_buf (sv_data x)).
Proof. unfold log_bytes_of. induction log as [|z log IH]; cbn [app foldr]; lia. Qed.

Lemma remember_stored env ts buf h blk d mt mo log err rel d' :
  h = hash256_calc buf -> is_uint256 h -> puts_succeed -> stored d mt mo log -> mt !! h = None -> is_uint256 blk -> u64 ts ->
  Zlen buf < 2 ^ 31 -> Zlen log < 10 ^ 10 -> room mt mo buf -> txdb_remember_tx env false ts buf h (Some blk) d = Ok (err, rel, d') ->
  exists tx r mo' log', received buf tx /\ process_map h (Some blk) tx mo = Ok (r, mo') /\
    stored d' (<[h := TxEntry tx blk ts r]> mt) mo' log' /\ Zlen log' <= Zlen log + 1 /\
    log_bytes_of log' <= log_bytes_of log + 1 + Zlen buf.
Proof.
  intros Eqh Hu Hput [Hl Hlog (mo_r & Hr & Hbl)] Hh Hb Hts Hbuf Hn Hroom E. pose proof (Zlen_nonneg buf). pose proof (Zlen_nonneg log).
  pose proof Hlog as [_ Hseq _ _]. assert (Hx : rec_ok (TxSerData blk ts buf (Zlen buf))) by by split.
  pose proof (remember_ledger env false ts buf h (Some blk) d mt mo Hl Hh Hu Hroom) as Hrem. rewrite E in Hrem.
  pose proof (remember_db env ts buf h blk d mt mo Hu Hput (proj1 Hl) Hh Hroom ltac:(lia) Hx) as Hdb. rewrite E in Hdb.
  destruct Hrem as (tx & r & mo' & Hrcv & Em & Hl' & _). destruct Hdb as (tx' & r' & mo1 & [b' Eb'] & Em' & Hdb).
  pose proof Hrcv as [b Eb]. rewrite Eb in Eb'. injection Eb' as <- <-. rewrite Em in Em'. injection Em' as <- <-.
  exists tx, r, mo'. destruct r; destruct Hdb as [D1 D2].
  - set (x := Saved h (TxSerData blk ts buf (Zlen buf))). assert (Hxs : saved_ok x) by by split.
    exists (log ++ [x]). rewrite log_bytes_snoc, Zlen_app, Zlen_cons, Zlen_nil. split_and!; [done|done| |lia|cbn; lia].
    split; [exact Hl'|exact (logged_snoc d d' log x Hlog Hxs Hn D1 D2)|].
    destruct (process_map_blind _ _ (Some blk) _ _ _ _ _ Hbl Em) as (mo2 & E3 & Hb3). exists mo2. split; [|done].
    rewrite relevant_insert. cbn [te_relevant]. exact (replays_snoc _ _ _ _ _ x tx true mo2 Hr Hrcv (relevant_None _ _ Hh) E3).
  - exists log. split_and!; [done|done| |lia|lia]. apply process_map_idle in Em as ->.
    split; [exact Hl'|by apply (logged_same d)|]. exists mo_r. split; [|done]. rewrite relevant_insert. cbn.
    by rewrite delete_id by by apply relevant_None.
Qed.
(** Times fit in 64 bits. *)
Definition clock_ok (env : bitc_env) : Prop :=
  u64 (env_time env) /\ forall h t, blockstore_get_block_timestamp (env_blockStore env) h = Ok t -> u64 t.

Lemma handle_stored env blk buf d mt mo log err rel d' :
  puts_succeed -> clock_ok env -> is_uint256 blk -> stored d mt mo log -> Zlen buf < 2 ^ 31 -> Zlen log < 10 ^ 10 ->
  room mt mo buf -> txdb_handle_tx env blk buf d = Ok (err, rel, d') ->
  exists mt' mo' log', stored d' mt' mo' log' /\ Z.of_nat (size mt') <= Z.of_nat (size mt) + 1 /\
    Z.of_nat (size mo') <= Z.of_nat (size mo) + Zlen buf /\ Zlen log' <= Zlen log + 1 /\
    log_bytes_of log' <= log_bytes_of log + 1 + Zlen buf.
Proof.
  intros Hput [Hc1 Hc2] Hb Hst Hbuf Hn Hroom E. unfold txdb_handle_tx in E. pose proof (Zlen_nonneg buf).
  pose proof (hash256_calc_length buf) as Hu. remember (hash256_calc buf) as h eqn:Eqh.
  rewrite (has_tx_ok _ mt mo) in E by apply Hst. rewrite bind_ok in E. apply res_bind_Ok in E as (d1 & E1 & E).
  assert (Hst1 : exists log1, stored d1 (if uint256_iszero (Some blk) then mt else confirm_map blk h mt) mo log1 /\
    log_bytes_of log1 = log_bytes_of log /\ Zlen log1 = Zlen log).
  { destruct (uint256_iszero (Some blk)); cbn [negb] in E1; [injection E1 as <-; by exists log|by eapply confirm_stored]. }
  destruct Hst1 as (log1 & Hst1 & Eb & El). destruct (mt !! h) as [te|] eqn:Eh.
  - rewrite bool_decide_eq_true_2 in E by eauto. injection E as <- <- <-. eexists _, mo, log1. split; [exact Hst1|].
    assert (Hh : handled blk h buf mt mo false (if uint256_iszero (Some blk) then mt else confirm_map blk h mt) mo) by (unfold handled; by rewrite Eh).
    apply handled_size in Hh as [? ?]; [|lia]. split_and!; lia.
  - rewrite bool_decide_eq_false_2 in E by (by intros [? ?]). apply res_bind_Ok in E as (ts & Ets & E).
    assert (Hst0 : stored d1 mt mo log1).
    { unfold confirm_map in Hst1. rewrite Eh in Hst1. by destruct (uint256_iszero _). }
    assert (Hts : u64 ts) by (destruct (uint256_iszero (Some blk)); [by injection Ets as <-|by eapply Hc2]).
    destruct (remember_stored env ts buf h blk d1 mt mo log1 err rel d' Eqh Hu Hput Hst0 Eh Hb Hts Hbuf ltac:(lia) Hroom E)
      as (tx & r & mo' & log' & Hrcv & Em & Hst' & Hl1 & Hl2).
    exists (<[h := TxEntry tx blk ts r]> mt), mo', log'. split; [done|].
    assert (Hh : handled blk h buf mt mo r (<[h := TxEntry tx blk ts r]> mt) mo').
    { unfold handled. rewrite Eh. by exists tx, ts. }
    apply handled_size in Hh as [? ?]; [|lia]. split_and!; lia.
Qed.

(** What is received: the time, the block and the bytes are in range. *)
Definition receivable (x : bitc_env * uint256 * list byte) : Prop := clock_ok x.1.1 /\ is_uint256 x.1.2.

Lemma bytes_of_nonneg (l : list (bitc_env * uint256 * list byte)) : 0 <= bytes_of l.
Proof. unfold bytes_of. induction l as [|x l IH]; cbn [foldr]; [done|]. pose proof (Zlen_nonneg x.2). lia. Qed.

Definition weight mt mo log : Z := Z.of_nat (size mt) + Z.of_nat (size mo) + Zlen log + log_bytes_of log.

Lemma receive_stored l : forall d mt mo log d',
  puts_succeed -> Forall receivable l -> stored d mt mo log -> weight mt mo log + 3 * bytes_of l < 2 ^ 31 -> txdb_receive l d = Ok d' ->
  exists mt' mo' log', stored d' mt' mo' log' /\ weight mt' mo' log' < 2 ^ 31.
Proof.
  unfold weight. induction l as [|[[env blk] buf] l IH]; intros d mt mo log d' Hput HF Hst Hs E.
  { injection E as <-. exists mt, mo, log. split; [done|]. cbn in Hs. lia. }
  inversion_clear HF as [|? ? [Hc Hb] HF']. cbn [fst snd] in Hc, Hb. cbn [bytes_of foldr snd] in Hs. fold (bytes_of l) in Hs.
  pose proof (bytes_of_nonneg l). pose proof (Zlen_nonneg buf). pose proof (Zlen_nonneg log). pose proof (log_bytes_nonneg log).
  cbn [txdb_receive] in E. apply res_bind_Ok in E as ([[err rel] d1] & E1 & E).
  assert (Hroom : room mt mo buf) by (split; lia).
  destruct (handle_stored env blk buf d mt mo log err rel d1 Hput Hc Hb Hst ltac:(lia) ltac:(lia) Hroom E1)
    as (mt1 & mo1 & log1 & Hst1 & ? & ? & ? & ?).
  apply (IH d1 mt1 mo1 log1 d' Hput HF' Hst1); [lia|done].
Qed.

Lemma stored_empty d : ledger d ∅ ∅ -> leveldb_map (db d) = ∅ -> tx_seq d = 0 -> stored d ∅ ∅ [].
Proof.
  intros Hl Hm Hs. split; [done|by split|]. exists ∅. split; [|done]. unfold relevant_txs. rewrite omap_empty. constructor.
Qed.

(** The block noted in the coins is that of their transaction. *)
Lemma replays_blocks mt mo log mt' mo' : replays mt mo log mt' mo' -> Forall saved_ok log -> books mt mo ->
  (forall k e, mo !! k = Some e -> exists te, mt !! xo_txHash e = Some te /\ xo_blkHash e = te_blkHash te) ->
  forall k e, mo' !! k = Some e -> exists te, mt' !! xo_txHash e = Some te /\ xo_blkHash e = te_blkHash te.
Proof.
  induction 1 as [mt mo|mt mo x log tx rel mo1 mt' mo' Hrcv Hh Em Hr IH]; intros Hok Hbk Hblk; [exact Hblk|].
  inversion_clear Hok as [|? ? Hx Hok']. pose proof (saved_hash x Hx) as Hu.
  assert (Hld : tx_loaded tx).
  { destruct Hx as [_ [_ _ _ Hbuf]]. destruct (received_loaded (sd_buf (sv_data x)) tx) as [Hld _]; [lia|done|done]. }
  set (te := TxEntry tx (sd_blkHash (sv_data x)) (sd_timestamp (sv_data x)) rel) in *.
  apply IH; [done|by eapply books_process|]. intros k e Hk. rewrite process_map_eq in Em by done.
  apply res_bind_Ok in Em as ([r1 mo2] & Es & Em). destruct (spend_map_spec _ _ _ _ _ Es) as (_ & _ & Sval).
  destruct (receive_map_spec _ _ _ _ _ _ _ _ Em) as (_ & _ & Rnew & _).
  destruct (Rnew k e Hk) as [E1|(j & o & a & Ho & Hm & -> & Hc & _)].
  - destruct (Sval k e E1) as (e0 & E0 & Hc). destruct (Hblk k e0 E0) as (te0 & Ht0 & Eb0). exists te0.
    assert (Hsame : xo_txHash e = xo_txHash e0 /\ xo_blkHash e = xo_blkHash e0) by (by destruct Hc as [->|[-> _]]). destruct Hsame as [-> ->].
    rewrite lookup_insert_ne; [done|]. intros Eq. rewrite <- Eq in Ht0. congruence.
  - unfold new_coin in Hc. apply res_bind_Ok in Hc as (? & _ & Hc). apply res_bind_Ok in Hc as (? & _ & [= <-]). cbn.
    exists te. by rewrite lookup_insert_eq.
Qed.

Lemma restart_ok (env : bitc_env) (l : list (bitc_env * uint256 * list byte)) (d0 d : txdb) (limit : nat) :
  puts_succeed -> ledger d0 ∅ ∅ -> leveldb_map (db d0) = ∅ -> tx_seq d0 = 0 ->
  Forall receivable l -> 3 * bytes_of l < 2 ^ 31 -> txdb_receive l d0 = Ok d ->
  env_ui env = false -> tx_seq d <= Z.of_nat limit ->
  exists d2 mt mo mo2, (forall F, txdb_open env (Some (db d)) limit (Disk F []) = Ok (Some d2, Disk F [])) /\ ledger d mt mo /\
    ledger d2 (relevant_txs mt) mo2 /\ blind mo2 = blind mo /\ txdb_get_balance d2 = txdb_get_balance d /\ tx_seq d2 = tx_seq d /\
    (forall k e, mo2 !! k = Some e -> exists te, mt !! xo_txHash e = Some te /\ xo_blkHash e = te_blkHash te).
Proof.
  intros Hput Hl0 Hm0 Hs0 HF Hb E Hui Hlim. pose proof (stored_empty d0 Hl0 Hm0 Hs0) as Hst0.
  destruct (receive_stored l d0 ∅ ∅ [] d Hput HF Hst0) as (mt & mo & log & [Hl Hlog (mo2 & Hr & Hbl)] & Hw); [|done|].
  { unfold weight. rewrite !map_size_empty. change (log_bytes_of []) with 0. change (Zlen (@nil saved)) with 0. lia. }
  pose proof Hlog as [Hm Hs Hn Hok]. unfold weight in Hw. pose proof (Zlen_nonneg log). pose proof (log_bytes_nonneg log).
  destruct (open_ok env (db d) log limit (relevant_txs mt) mo2) as (d2 & Eo & Hl2 & S1 & _); try done.
  { intros d' E1 E2. split; [by rewrite E1|done..]. }
  { lia. }
  { unfold Zlen in *. lia. }
  exists d2, mt, mo, mo2. split_and!; [done|done|done|done| |congruence|].
  - rewrite (get_balance_ok d2 mo2), (get_balance_ok d mo) by (apply Hl2 || apply Hl). by rewrite (balance_blind mo), Hbl, <- balance_blind.
  - intros k e Hk. destruct (replays_blocks _ _ _ _ _ Hr Hok books_empty ltac:(intros ? ?; by rewrite lookup_empty) k e Hk) as (te & Ht & Eb).
    exists te. split; [|done]. unfold relevant_txs in Ht. rewrite lookup_omap in Ht. destruct (mt !! xo_txHash e) as [te'|]; [|done].
    cbn in Ht. by destruct (te_relevant te').
Qed.

(** C19: a restart loses nothing, as long as the store takes what is put in it
    ([puts_succeed]). Whatever transactions a database that started empty has
    received, relayed or in blocks, opening a new one on its LevelDB store
    succeeds and gives the relevant transactions with the blocks they are
    in, the same coins up to the block noted in them, which is now the block of
    their transaction, the same balance and the same sequence number. *)
Theorem txdb_restart (env : bitc_env) (l : list (bitc_env * uint256 * list byte)) (d0 d : txdb) (limit : nat) :
  puts_succeed -> ledger d0 ∅ ∅ -> leveldb_map (db d0) = ∅ -> tx_seq d0 = 0 ->
  Forall receivable l -> 3 * bytes_of l < 2 ^ 31 -> txdb_receive l d0 = Ok d ->
  env_ui env = false -> tx_seq d <= Z.of_nat limit ->
  exists d2 mt mo mo2, (forall F, txdb_open env (Some (db d)) limit (Disk F []) = Ok (Some d2, Disk F [])) /\ ledger d mt mo /\
    ledger d2 (relevant_txs mt) mo2 /\ blind mo2 = blind mo /\ txdb_get_balance d2 = txdb_get_balance d /\ tx_seq d2 = tx_seq d /\
    (forall k e, mo2 !! k = Some e -> exists te, mt !! xo_txHash e = Some te /\ xo_blkHash e = te_blkHash te).
Proof. exact (restart_ok env l d0 d limit). Qed.
(** A coin received before its transaction was in a block stays unusable
    when the block comes: the block is noted in the transaction and in the store,
    not in the coin, which txdb_select_coins goes on to refuse. *)
Theorem txdb_confirmed_coin_unusable (env : bitc_env) (blk : uint256) (buf : list byte) (d d' : txdb)
    (mt : gmap (list byte) tx_entry) (mo : gmap (list byte) txo_entry) te k e err rel :
  ledger d mt mo -> room mt mo buf -> mt !! hash256_calc buf = Some te -> te_relevant te = true ->
  uint256_iszero (Some (te_blkHash te)) = true -> uint256_iszero (Some blk) = false ->
  mo !! k = Some e -> xo_txHash e = hash256_calc buf -> uint256_iszero (Some (xo_blkHash e)) = true ->
  txdb_handle_tx env blk buf d = Ok (err, rel, d') ->
  exists mt' te', ledger d' mt' mo /\ mt' !! hash256_calc buf = Some te' /\ te_blkHash te' = blk /\ usable e = false.
Proof.
  intros Hl Hroom Hh Hr Hz Hb Hk Hx He E. destruct (handle_ledger _ _ _ _ _ _ _ _ _ Hl Hroom E) as (mt' & mo' & Hl' & Hd).
  unfold handled in Hd. rewrite Hh in Hd. destruct Hd as (_ & -> & ->). rewrite Hb in Hl'. eexists _, (set_blkHash blk te).
  split; [exact Hl'|]. unfold confirm_map. rewrite Hh, Hr, Hz. cbn [negb]. rewrite lookup_insert_eq. split; [done|]. split; [done|].
  unfold usable. rewrite He. by rewrite andb_false_r.
Qed.
End blind.

(** ** Examples *)

#[local] Existing Instance zero_malloc.
#[local] Existing Instance toy_sha256.
#[local] Existing Instance Z_bignum.
#[local] Existing Instance toy_keyring.
#[local] Existing Instance toy_wallet.
#[local] Existing Instance map_leveldb.

(** The first transaction is relayed, then it is in a block. *)
Definition w_then_block : list (bitc_env * uint256 * list byte) :=
  [(w_env, uint256_zero_out, w_buf1); (w_env_block, w_block, w_buf1)].

Lemma w_receivable : Forall receivable w_then_block.
Proof.
  assert (Hd : forall env h t, (forall p e, bs_heap (env_blockStore env) !! p = Some e -> u64 (bh_timestamp (be_header e))) ->
    blockstore_get_block_timestamp (env_blockStore env) h = Ok t -> u64 t).
  { intros env h t He. unfold blockstore_get_block_timestamp. destruct (uint256_iszero (Some h)); [by intros [= <-]|].
    intros (o & _ & E)%res_bind_Ok. destruct o as [p|]; [|done]. apply res_bind_Ok in E as (e & Ed & [= <-]).
    unfold deref in Ed. destruct (bs_heap (env_blockStore env) !! p) as [e'|] eqn:Ep; [|done]. injection Ed as <-. by eapply He. }
  assert (Hc : forall env, u64 (env_time env) ->
    (forall p e, bs_heap (env_blockStore env) !! p = Some e -> u64 (bh_timestamp (be_header e))) -> clock_ok env).
  { intros env Ht He. split; [done|]. intros h t. by apply Hd. }
  constructor; [|constructor; [|constructor]]; (split; [apply Hc|reflexivity]); cbn; [lia| |lia|].
  - intros p e. by rewrite lookup_empty.
  - intros p e [_ <-]%lookup_singleton_Some. cbn. lia.
Qed.

Definition w_confirmed : txdb := w_after w_then_block.

(** Its two coins are found again, with their block. *)
Lemma txdb_restart_witness :
  exists d2, txdb_open w_env (Some (db w_confirmed)) 10 (Disk ∅ []) = Ok (Some d2, Disk ∅ []) /\ txdb_get_balance d2 = txdb_get_balance w_confirmed.
Proof.
  assert (E : is_ok (txdb_receive w_then_block w_txdb) = true) by (vm_compute; reflexivity).
  apply is_ok_inv in E as [d E].
  assert (Hs : tx_seq w_confirmed = 1) by (vm_compute; reflexivity).
  assert (Ed : w_confirmed = d) by (unfold w_confirmed, w_after; by rewrite E). rewrite Ed in Hs.
  destruct (txdb_restart w_env w_then_block w_txdb d 10 (fun _ _ _ => eq_refl) w_ledger_empty eq_refl eq_refl w_receivable)
    as (d2 & mt & mo & mo2 & Eo & _ & _ & _ & Eb & _); [vm_compute; reflexivity|exact E|reflexivity|rewrite Hs; lia|].
  rewrite Ed. exists d2. exact (conj (Eo ∅) Eb).
Defined.

(** The relayed transaction alone. *)
Definition w_relayed1 : txdb := w_after (w_relayed [w_buf1]).

Lemma w_ledger_1 : exists ts, ledger w_relayed1 (<[w_id1 := TxEntry w_tx1 uint256_zero_out ts true]> ∅) w_ledger_coins1.
Proof.
  apply (w_ledger_first w_env uint256_zero_out w_buf1); [vm_compute; reflexivity|vm_compute; reflexivity|reflexivity|exact w_received1|].
  vm_cast_no_check (eq_refl (Ok (true, w_ledger_coins1))).
Qed.

Lemma txdb_confirmed_coin_unusable_witness :
  exists d' mt te, ledger d' mt w_ledger_coins1 /\ mt !! w_id1 = Some te /\ te_blkHash te = w_block /\
    usable (w_coin w_id1 0 5000 false) = false.
Proof.
  assert (E : is_ok (txdb_handle_tx w_env_block w_block w_buf1 w_relayed1) = true) by (vm_compute; reflexivity).
  apply is_ok_inv in E as [[[err rel] d'] E]. destruct w_ledger_1 as [ts Hl].
  destruct (txdb_confirmed_coin_unusable w_env_block w_block w_buf1 w_relayed1 d' _ _ (TxEntry w_tx1 uint256_zero_out ts true)
    (txo_key w_id1 0) (w_coin w_id1 0 5000 false) err rel Hl) as (mt & te & Hl' & Ht & Eb & Hu).
  - split; vm_compute; reflexivity.
  - apply lookup_insert_eq.
  - reflexivity.
  - vm_compute. reflexivity.
  - vm_compute. reflexivity.
  - vm_compute. reflexivity.
  - reflexivity.
  - vm_compute. reflexivity.
  - exact E.
  - exists d', mt, te. exact (conj Hl' (conj Ht (conj Eb Hu))).
Defined.
