(* ===== verification/Wallet.v ===== *)
(** * The wallet (core/wallet.c)

    The wallet on top of its keys (WalletKeys.v) and of the transaction database
    (Txdb.v): opening, receiving transactions, the balance, paying. The wallet of
    WalletKeys.v implements the interfaces the database and the scripts are
    written against. *)
From Stdlib Require Import Strings.String Logic.FunctionalExtensionality Logic.ProofIrrelevance.
From S2P Require Import WalletReload Restart.

Abbreviation wallet_lookup_key := WalletKeys.wallet_lookup_pubkey.

(** ** What the wallet is to the others *)

Section interfaces.
Context `{Malloc} `{C : Secp256k1} `{S256 : Sha256} `{EvpCipher} `{BN : BigNum} `{TK : Table wallet_key} {DB : Type}.
Implicit Types w : wallet (DB := DB).
Implicit Types m : gmap (list byte) wallet_key.

Definition mine_of w (h : uint160) : bool :=
  match WalletKeys.wallet_is_pubkey_hash160_mine w h with Ok b => b | Fault _ => false end.
Definition spendable_of w (h : uint160) : res bool :=
  if mine_of w h then Ok (match WalletKeys.wallet_is_pubkey_spendable w h with Ok b => b | Fault _ => false end) else Fault Panic.

Lemma spendable_of_ok w (h : uint160) : mine_of w h = true -> exists b, spendable_of w h = Ok b.
Proof. unfold spendable_of. intros ->. by eexists. Qed.

Definition change_of w : res (list byte) :=
  a ← WalletKeys.wallet_get_change_addr w; match a with Some a => Ok a | None => Fault UB end.

(** The wallet of the transaction database. *)
Definition make_api (mine : uint160 -> bool) (spendable : uint160 -> res bool)
    (ok : forall h, mine h = true -> exists b, spendable h = Ok b) (change : res (list byte)) : WalletApi := {|
  Txdb.wallet_is_pubkey_hash160_mine := fun h => Ok (mine h); Txdb.wallet_is_pubkey_spendable := spendable;
  Txdb.wallet_get_change_addr := change; is_mine := mine; wallet_mine_ok := fun h => eq_refl; wallet_spendable_ok := ok |}.
Definition wallet_api w : WalletApi := make_api (mine_of w) (spendable_of w) (spendable_of_ok w) (change_of w).

(** A key whose public key is that of a hash, for the scripts. *)
Definition ring_key : Type := { k : Key.key | Zlen (Key.key_get_pubkey k) < 2 ^ 20 }.
Definition is_of_hash (k : Key.key) (h : uint160) : bool :=
  match hash160_calc (Key.key_get_pubkey k) with Ok h' => bool_decide (h' = h) | Fault _ => false end.
Definition ring_lookup w (h : uint160) : option ring_key :=
  match wallet_lookup_key w h with
  | Ok (Some k) =>
      if is_of_hash k h then match decide (Zlen (Key.key_get_pubkey k) < 2 ^ 20) with left p => Some (k ↾ p) | right _ => None end
      else None
  | _ => None
  end.

Lemma ring_lookup_hash w (h : uint160) (k : ring_key) : ring_lookup w h = Some k -> hash160_calc (Key.key_get_pubkey (`k)) = Ok h.
Proof.
  unfold ring_lookup, is_of_hash. destruct (wallet_lookup_key w h) as [[k'|]|]; [|done..].
  destruct (hash160_calc (Key.key_get_pubkey k')) as [h'|] eqn:E; [|done]. case_bool_decide; [|done]. subst h'.
  case_decide; [|done]. by intros [= <-].
Qed.
Lemma key_sign_bound (k : ring_key) data sig : Key.key_sign (`k) data = Some sig -> Zlen sig < 2 ^ 20.
Proof. unfold Key.key_sign. destruct (k_pkey (`k)); [|done]. apply EVP_PKEY_sign_length. Qed.

(** The wallet of script_sign. *)
Definition wallet_keyring w : KeyRing := {|
  Script.key := ring_key; Script.wallet_lookup_pubkey := ring_lookup w;
  Script.key_sign := fun k => Key.key_sign (`k); Script.key_verify := fun k => Key.key_verify (`k);
  Script.key_get_pubkey := fun k => Key.key_get_pubkey (`k);
  lookup_pubkey_hash := ring_lookup_hash w; key_sign_verify := fun k => key_sign_verifies (`k);
  key_sign_length := key_sign_bound; key_pubkey_length := fun k => proj2_sig k |}.

(** *** They are what the code calls *)

Lemma mine_of_ok w m h : keys_ok (wl_hash_keys w) m ->
  WalletKeys.wallet_is_pubkey_hash160_mine w h = Ok (mine_of w h) /\ mine_of w h = bool_decide (is_Some (m !! h)).
Proof. intros Hk. unfold mine_of. by rewrite (mine_ok w m h Hk). Qed.

Lemma spendable_ok w m h : keys_ok (wl_hash_keys w) m -> WalletKeys.wallet_is_pubkey_spendable w h = spendable_of w h /\
  spendable_of w h = match m !! h with Some wkey => Ok (wk_spendable wkey) | None => Fault Panic end.
Proof.
  intros Hk. unfold spendable_of. rewrite (proj2 (mine_of_ok w m h Hk)). unfold WalletKeys.wallet_is_pubkey_spendable.
  rewrite (keys_lookup w m h Hk), bind_ok. destruct (m !! h); [by rewrite bool_decide_eq_true_2 by by eexists|].
  rewrite bool_decide_eq_false_2 by by intros [? ?]. done.
Qed.

(** The keys are all there: the wallet is not locked. *)
Definition unlocked m : Prop := forall h wkey, m !! h = Some wkey -> is_Some (wk_key wkey).

Lemma ring_ok w m h : keys_ok (wl_hash_keys w) m -> unlocked m ->
  wallet_lookup_key w h = Ok (proj1_sig <$> ring_lookup w h) /\ (proj1_sig <$> ring_lookup w h) = m !! h ≫= wk_key.
Proof.
  intros Hk Hu. assert (E : wallet_lookup_key w h = Ok (m !! h ≫= wk_key)).
  { unfold wallet_lookup_key. rewrite (keys_lookup w m h Hk), bind_ok. destruct (m !! h) as [wkey|] eqn:Em; [|done].
    destruct (Hu _ _ Em) as [k Ek]. cbn. by rewrite Ek. }
  enough (Er : proj1_sig <$> ring_lookup w h = m !! h ≫= wk_key) by by rewrite E, Er.
  unfold ring_lookup. rewrite E. destruct (m !! h) as [wkey|] eqn:Em; [|done]. cbn. destruct (wk_key wkey) as [k|] eqn:Ek; [|done].
  destruct Hk as (_ & He & _). destruct (He _ _ Em) as [(_ & _ & _ & _ & Hkey) _]. destruct (Hkey k Ek) as (d & Hd & Eh).
  unfold is_of_hash. rewrite Eh, bool_decide_eq_true_2 by done. destruct (key_pub_of d k Hd) as (pub & _ & Ep & Hl & _).
  assert (Hlt : Zlen (Key.key_get_pubkey k) < 2 ^ 20) by (by rewrite Ep, Hl). case_decide; [done|lia].
Qed.

Lemma change_ok w m h wkey : keys_ok (wl_hash_keys w) m -> m !! h = Some wkey -> wk_cfg_idx wkey = 0 ->
  exists a, wk_btc_addr wkey = Some a /\ WalletKeys.wallet_get_change_addr w = Ok (Some a) /\ change_of w = Ok a.
Proof.
  intros Hk Em E0. pose proof (find_idx_ok w m h wkey Hk Em) as Ef. rewrite E0 in Ef.
  destruct Hk as (_ & He & _). destruct (He _ _ Em) as [(_ & Hl & Hz & Ea & _) _]. destruct (address_of h Hl Hz) as [a Ea'].
  assert (Ew : wk_btc_addr wkey = Some a) by congruence. exists a. unfold change_of, WalletKeys.wallet_get_change_addr.
  by rewrite Ef, bind_ok, Ew.
Qed.

(** A wallet with the same keys is the same wallet to the database. *)
Lemma make_api_eq mine mine' sp sp' ok ok' ch ch' : mine = mine' -> sp = sp' -> ch = ch' -> make_api mine sp ok ch = make_api mine' sp' ok' ch'.
Proof. intros -> -> ->. f_equal. apply proof_irrelevance. Qed.

Lemma wallet_api_keys w w' : wl_hash_keys w' = wl_hash_keys w -> wallet_api w' = wallet_api w.
Proof.
  intros E. apply make_api_eq; [extensionality h|extensionality h|].
  - unfold mine_of, WalletKeys.wallet_is_pubkey_hash160_mine. by rewrite E.
  - unfold spendable_of, mine_of, WalletKeys.wallet_is_pubkey_hash160_mine, WalletKeys.wallet_is_pubkey_spendable. by rewrite E.
  - unfold change_of, WalletKeys.wallet_get_change_addr, wallet_find_key_by_idx. by rewrite E.
Qed.

Lemma wallet_api_same w w' m m' : keys_ok (wl_hash_keys w) m -> keys_ok (wl_hash_keys w') m' -> same_keys m m' -> m <> ∅ ->
  wallet_api w' = wallet_api w.
Proof.
  intros Hk Hk' [Hdom Hsame] Hne. apply make_api_eq.
  - extensionality h. rewrite (proj2 (mine_of_ok w m h Hk)), (proj2 (mine_of_ok w' m' h Hk')). apply bool_decide_ext, Hdom.
  - extensionality h. rewrite (proj2 (spendable_ok w m h Hk)), (proj2 (spendable_ok w' m' h Hk')). pose proof (Hdom h) as Hd.
    destruct (m !! h) as [k|] eqn:E, (m' !! h) as [k'|] eqn:E'; [|by destruct (proj2 Hd ltac:(by eexists)) as [? [=]]|by destruct (proj1 Hd ltac:(by eexists)) as [? [=]]|done].
    destruct (Hsame _ _ _ E E') as (_ & _ & _ & _ & _ & -> & _). done.
  - assert (Hs : 0 < Z.of_nat (size m)) by (pose proof (map_size_ne_0_lookup_2 m); destruct (size m) eqn:E; [by apply map_size_empty_inv in E|lia]).
    destruct (keys_idx_onto _ _ 0 Hk) as (h & k & E & E0); [lia|]. destruct (proj2 (Hdom h)) as [k' E']; [by eexists|].
    destruct (Hsame _ _ _ E E') as (_ & _ & Ea & _ & Ei & _). rewrite E0 in Ei.
    destruct (change_ok w m h k Hk E E0) as (a & Ew & _ & ->), (change_ok w' m' h k' Hk' E' Ei) as (a' & Ew' & _ & ->). congruence.
Qed.
End interfaces.

(** ** The operations *)

Section wallet.
Context `{Malloc} `{C : Secp256k1} `{S256 : Sha256} `{EvpCipher} `{BN : BigNum} `{TK : Table wallet_key} `{T : Table positive} `{DB : LevelDb}.
Implicit Types w : wallet (DB := txdb).

Definition wallet_has_tx (w : wallet (DB := txdb)) (txHash : uint256) : res bool :=
  match wl_txdb w with Some d => txdb_has_tx d txHash | None => Fault UB end.

(** The result and the wallet; the database asks [btc->wallet], which is [w]. *)
Definition wallet_handle_tx (env : bitc_env) (blkHash : uint256) (buf : list byte) (w : wallet (DB := txdb)) :
    res (bool * wallet (DB := txdb)) :=
  match wl_txdb w with
  | None => Fault UB
  | Some d =>
      '(res, relevant, d) ← txdb_handle_tx (H2 := wallet_api w) env blkHash buf d;
      let w := with_txdb (Some d) w in
      if negb res && relevant then
        balance ← txdb_get_balance d;
        Ok (res, with_balance balance w)
      else Ok (res, w)
  end.

(** The sum of the payments, as an [uint64]. *)
Definition sum_values (n : Z) (dst : list btc_tx_dst) : res Z :=
  l ← first_n n dst; Ok (fold_left (fun value x => wrap64 (value + td_value x)) l 0).

(** The result, the transaction and the wallet. *)
Definition wallet_craft_tx (env : bitc_env) (type0 : Z) (w : wallet (DB := txdb)) (desc : btc_tx_desc) :
    res (bool * btc_msg_tx * wallet (DB := txdb)) :=
  let tx := btc_msg_tx_init in
  value ← sum_values (td_num_addr desc) (td_dst desc);
  _ ← ASSERT (value =? td_total_value desc);
  if wl_balance w <? wrap64 (value + td_fee desc) then Ok (true, tx, w) else
  match wl_txdb w with
  | None => Fault UB
  | Some d =>
      '(res, tx, d) ← txdb_craft_tx (KR := wallet_keyring w) (H2 := wallet_api w) env type0 desc tx d;
      Ok (res, tx, with_txdb (Some d) w)
  end.

Definition wallet_print_key_cb (_ : list byte) (wkey : wallet_key) (_ : unit) : res unit :=
  ASSERT (bool_decide (is_Some (wk_btc_addr wkey))).
Definition wallet_print (w : wallet (DB := txdb)) : res unit := t_for_each (wl_hash_keys w) wallet_print_key_cb tt.

(** Without an interface ([btcui->inuse]): the addresses are not exported. [x] is
    the store of the database, [limit] as in txdb_open. *)
Definition wallet_open (env : bitc_env) (type0 determined : Z) (filename : list byte) (pass : option (list byte)) (fails : bool)
    (x : option leveldb) (limit : nat) (dk : disk) : res (option (wallet (DB := txdb)) * wallet_state * disk) :=
  '(o, state, dk) ← wallet_open_file type0 determined filename pass fails dk;
  match o with
  | None => Ok (None, state, dk)
  | Some w =>
      '(d, dk) ← txdb_open (H2 := wallet_api w) env x limit dk;
      match d with
      | None => Ok (None, state, dk)
      | Some d =>
          balance ← txdb_get_balance d;
          let w := with_balance balance (with_txdb (Some d) w) in
          _ ← wallet_print w;
          Ok (Some w, state, dk)
      end
  end.

(** wallet_handle_tx on each transaction; the results are not looked at. *)
Fixpoint wallet_receive (l : list (bitc_env * uint256 * list byte)) (w : wallet (DB := txdb)) : res (wallet (DB := txdb)) :=
  match l with
  | [] => Ok w
  | (env, blk, buf) :: l => '(_, w) ← wallet_handle_tx env blk buf w; wallet_receive l w
  end.
End wallet.

(** ** The balance *)

Section balance.
Context `{Malloc} `{C : Secp256k1} `{S256 : Sha256} `{EvpCipher} `{BN : BigNum} `{TK : Table wallet_key} `{T : Table positive} `{DB : LevelDb}.
Implicit Types w : wallet (DB := txdb).

(** The wallet has the database [d], whose books are [mt] and [mo]. *)
Definition wallet_books w (d : txdb) (mt : gmap (list byte) tx_entry) (mo : gmap (list byte) txo_entry) : Prop :=
  wl_txdb w = Some d /\ ledger (H2 := wallet_api w) d mt mo.

(** A transaction that is not relevant changes no coin. *)
Lemma receive_map_same `{WalletApi} h blk outs : forall i rel mo mo', receive_map h blk i outs rel mo = Ok (false, mo') -> mo' = mo /\ rel = false.
Proof.
  induction outs as [|o outs IH]; cbn [receive_map]; intros i rel mo mo' E; [by injection E as -> ->|].
  apply res_bind_Ok in E as ([a|] & _ & E); [|by apply IH in E]. apply res_bind_Ok in E as (e & _ & E). apply res_bind_Ok in E as (_ & _ & E).
  by apply IH in E as [_ ?].
Qed.
Lemma spend_map_same ins : forall rel mo mo', spend_map ins rel mo = Ok (false, mo') -> mo' = mo /\ rel = false.
Proof.
  induction ins as [|i ins IH]; cbn [spend_map]; intros rel mo mo' E; [by injection E as -> ->|].
  destruct (mo !! txi_key i) as [e|]; [|by apply IH in E]. destruct (xo_spent e); [done|]. by apply IH in E as [_ ?].
Qed.
Lemma process_map_same `{WalletApi} h blk tx mo mo' : process_map h blk tx mo = Ok (false, mo') -> mo' = mo.
Proof.
  unfold process_map. intros (ins & _ & E)%res_bind_Ok. apply res_bind_Ok in E as ([r m1] & E1 & E). apply res_bind_Ok in E as (outs & _ & E).
  apply receive_map_same in E as [-> ->]. by apply spend_map_same in E1 as [-> _].
Qed.
Lemma handled_same `{WalletApi} blk h buf mt mo mt' mo' : handled blk h buf mt mo false mt' mo' -> mo' = mo.
Proof. unfold handled. destruct (mt !! h); [by intros (_ & -> & _)|]. intros (tx & ts & _ & E & _). by apply process_map_same in E. Qed.

(** The only error is that of the store, and comes with a relevant transaction. *)
Lemma save_no_error blk h ts buf d e d' : puts_succeed -> txdb_save_tx blk h ts buf d = Ok (e, d') -> e = false.
Proof.
  unfold txdb_save_tx. intros Hp E. apply res_bind_Ok in E as (s1 & _ & E). apply res_bind_Ok in E as (b1 & _ & E).
  apply res_bind_Ok in E as (b2 & _ & E). pose proof (Hp (db d) (contents b1) (contents b2)) as Ep.
  destruct (leveldb_put (db d) (contents b1) (contents b2)) as [e1 x1]. by injection E as <- _.
Qed.
Lemma remember_error `{WalletApi} env ts buf h blk d :
  match txdb_remember_tx env false ts buf h blk d with
  | Ok (err, rel, _) => (puts_succeed -> err = false) /\ (err = true -> rel = true)
  | Fault _ => True
  end.
Proof.
  unfold txdb_remember_tx. destruct (txdb_add_to_hashtable buf h blk ts d) as [[p d1]|f]; [|done]. rewrite bind_ok.
  destruct (obj_load (txes d1) p) as [te|f]; [|done]. rewrite bind_ok.
  destruct (txdb_process_tx_entry _ _ _ _ _) as [[r d2]|f]; [|done]. rewrite bind_ok. destruct r; cbn [negb]; [|by split].
  destruct (txdb_save_tx _ _ _ _ _) as [[err d3]|f] eqn:Es; [|done]. rewrite bind_ok.
  destruct (txdb_export_tx_info env _) as [l|f]; [|done]. rewrite bind_ok.
  match goal with |- context [?m ≫= _] => destruct m as [v|f]; [|done] end. rewrite bind_ok.
  split; [|done]. intros Hp. by apply (save_no_error _ _ _ _ _ _ _ Hp Es).
Qed.
Lemma handle_error `{WalletApi} env blk buf d err rel d' : txdb_handle_tx env blk buf d = Ok (err, rel, d') ->
  (puts_succeed -> err = false) /\ (err = true -> rel = true).
Proof.
  unfold txdb_handle_tx. cbv zeta. intros E. apply res_bind_Ok in E as (k & _ & E). apply res_bind_Ok in E as (d1 & _ & E).
  destruct k; [injection E as <- _ _; by split|]. apply res_bind_Ok in E as (ts & _ & E).
  pose proof (remember_error env ts buf (hash256_calc buf) (Some blk) d1) as Hr. by rewrite E in Hr.
Qed.

(** One transaction. *)
Lemma wallet_handle_ok env blk buf w d mt mo err w' : wallet_books w d mt mo -> room mt mo buf ->
  wallet_handle_tx env blk buf w = Ok (err, w') ->
  exists rel d' mt' mo', txdb_handle_tx (H2 := wallet_api w) env blk buf d = Ok (err, rel, d') /\
    w' = with_balance (if negb err && rel then wrap64 (balance mo') else wl_balance w) (with_txdb (Some d') w) /\
    wallet_books w' d' mt' mo' /\ handled (H2 := wallet_api w) blk (hash256_calc buf) buf mt mo rel mt' mo'.
Proof.
  intros [Ed Hl] Hroom E. unfold wallet_handle_tx in E. rewrite Ed in E. apply res_bind_Ok in E as ([[e rel] d'] & Eh & E).
  destruct (handle_ledger _ _ _ _ _ _ _ _ _ Hl Hroom Eh) as (mt' & mo' & Hl' & Hh). cbv zeta in E.
  assert (Hw : w' = with_balance (if negb e && rel then wrap64 (balance mo') else wl_balance w) (with_txdb (Some d') w) /\ e = err).
  { destruct (negb e && rel) eqn:Er; [|by injection E as <- <-; destruct w]. rewrite (get_balance_ok d' mo') in E by apply Hl'.
    rewrite bind_ok in E. by injection E as <- <-. }
  destruct Hw as [-> <-]. exists rel, d', mt', mo'. split_and!; [done|done|split; [done|]|done].
  by rewrite (wallet_api_keys w).
Qed.

(** A sequence of transactions. *)
Lemma wallet_receive_ok l : forall w d mt mo w', puts_succeed -> wallet_books w d mt mo -> wl_balance w = wrap64 (balance mo) ->
  Z.of_nat (size mt) + Z.of_nat (size mo) + bytes_of l < 2 ^ 32 - 1 -> wallet_receive l w = Ok w' ->
  exists d' mt' mo', txdb_receive (H2 := wallet_api w) l d = Ok d' /\ wallet_books w' d' mt' mo' /\
    trace (H2 := wallet_api w) l mt mo mt' mo' /\ w' = with_balance (wrap64 (balance mo')) (with_txdb (Some d') w).
Proof.
  induction l as [|[[env blk] buf] l IH]; cbn [wallet_receive txdb_receive bytes_of foldr snd]; intros w d mt mo w' Hp Hw Hb Hs E.
  { injection E as <-. exists d, mt, mo. split_and!; [done|done|constructor|]. rewrite <- Hb. destruct Hw as [Ed _]. destruct w. cbn in *. by rewrite Ed. }
  fold (bytes_of l) in Hs. assert (Hl0 : 0 <= bytes_of l).
  { clear. induction l as [|x l IH]; cbn; [done|]. pose proof (Zlen_nonneg x.2). unfold bytes_of in IH. lia. }
  pose proof (Zlen_nonneg buf). apply res_bind_Ok in E as ([err w1] & E1 & E). assert (Hroom : room mt mo buf) by (split; lia).
  destruct (wallet_handle_ok env blk buf w d mt mo err w1 Hw Hroom E1) as (rel & d1 & mt1 & mo1 & Eh & Ew & Hw1 & Hh).
  pose proof (proj1 (handle_error _ _ _ _ _ _ _ Eh) Hp) as ->. cbn [negb andb] in Ew.
  assert (Hb1 : wl_balance w1 = wrap64 (balance mo1)).
  { rewrite Ew. destruct rel; [done|]. by rewrite (handled_same _ _ _ _ _ _ _ Hh). }
  assert (Hbuf : Zlen buf < 2 ^ 62) by lia. destruct (handled_size _ _ _ _ _ _ _ _ Hbuf Hh).
  destruct (IH w1 d1 mt1 mo1 w' Hp Hw1 Hb1) as (d' & mt' & mo' & Er & Hw' & Ht & Ew'); [lia|done|].
  assert (Ea : wallet_api w1 = wallet_api w) by (apply wallet_api_keys; by rewrite Ew). rewrite Ea in Er, Ht.
  exists d', mt', mo'. split_and!; [by rewrite Eh, bind_ok|done|by econstructor|]. rewrite Ew', Ew. by destruct w.
Qed.

(** *** Properties *)

(** C21: as long as the store takes the transactions, the balance of the wallet is
    what its coins are worth after every transaction, in whatever order they are
    relayed and put in blocks. ([wallet_failed_save_stale] is what happens when it
    does not.) *)
Theorem wallet_balance_tracks l w d mt mo w' : puts_succeed -> wallet_books w d mt mo -> wl_balance w = wrap64 (balance mo) ->
  Z.of_nat (size mt) + Z.of_nat (size mo) + bytes_of l < 2 ^ 32 - 1 -> wallet_receive l w = Ok w' ->
  exists d' mt' mo', wl_txdb w' = Some d' /\ ledger (H2 := wallet_api w') d' mt' mo' /\ wl_hash_keys w' = wl_hash_keys w /\
    trace (H2 := wallet_api w) l mt mo mt' mo' /\ wl_balance w' = wrap64 (balance mo').
Proof.
  intros Hp Hw Hb Hs E. destruct (wallet_receive_ok l w d mt mo w' Hp Hw Hb Hs E) as (d' & mt' & mo' & _ & [Ed Hl] & Ht & Ew).
  exists d', mt', mo'. split_and!; [done..| |done|]; by rewrite Ew.
Qed.

(** A transaction that the store does not take changes the coins and not the
    balance: the wallet goes on with a balance that is not that of its coins. *)
Theorem wallet_failed_save_stale env blk buf w d mt mo w' : wallet_books w d mt mo -> room mt mo buf ->
  wallet_handle_tx env blk buf w = Ok (true, w') ->
  exists d' mt' mo' tx, received buf tx /\ process_map (H2 := wallet_api w) (hash256_calc buf) (Some blk) tx mo = Ok (true, mo') /\
    wl_txdb w' = Some d' /\ ledger (H2 := wallet_api w') d' mt' mo' /\ wl_balance w' = wl_balance w.
Proof.
  intros Hw Hroom E. destruct (wallet_handle_ok env blk buf w d mt mo true w' Hw Hroom E) as (rel & d' & mt' & mo' & Eh & Ew & [Ed Hl] & Hh).
  pose proof (proj2 (handle_error _ _ _ _ _ _ _ Eh) eq_refl) as ->. unfold handled in Hh.
  destruct (mt !! hash256_calc buf) as [te|]; [by destruct Hh as [? _]|]. destruct Hh as (tx & ts & Hr & Em & _).
  exists d', mt', mo', tx. split_and!; [done..|]. by rewrite Ew.
Qed.

(** ** Paying *)

Lemma sum_values_ok n dst l : first_n n dst = Ok l -> sum_values n dst = Ok (fold_left (fun value x => wrap64 (value + td_value x)) l 0).
Proof. unfold sum_values. by intros ->. Qed.

(** A payment above the balance is refused, and changes nothing. *)
Theorem wallet_craft_refuses env type0 w desc : sum_values (td_num_addr desc) (td_dst desc) = Ok (td_total_value desc) ->
  wl_balance w < td_total_value desc + td_fee desc < 2 ^ 64 -> 0 <= wl_balance w ->
  wallet_craft_tx env type0 w desc = Ok (true, btc_msg_tx_init, w).
Proof.
  intros E Hb H0'. unfold wallet_craft_tx. cbv zeta. rewrite E, bind_ok, Z.eqb_refl. cbn [ASSERT].
  by rewrite bind_ok, wrap64_small, ltb_t by lia.
Qed.

(** C23: the balance counts coins that cannot be spent yet - not in a block, or
    watched only. A payment it covers and that the usable coins do not: it stops
    the process when they do not cover the amounts, and when they do not cover
    the fee makes a transaction whose last output is almost 2^64. *)
Theorem wallet_craft_unconfirmed env type0 w d desc mo : wl_txdb w = Some d ->
  spendable_books env d mo -> sum_values (td_num_addr desc) (td_dst desc) = Ok (td_total_value desc) ->
  0 <= td_num_addr desc -> 0 <= td_total_value desc -> 0 <= td_total_value desc + td_fee desc < 2 ^ 64 ->
  td_total_value desc + td_fee desc <= wl_balance w ->
  let have := worth (filter usable (coins_of mo)) in have < td_total_value desc + td_fee desc ->
  match wallet_craft_tx env type0 w desc with
  | Ok (_, tx', _) => td_total_value desc <= have /\ exists dst, first_n (td_num_addr desc) (td_dst desc) = Ok dst /\
      values (tx_out tx') = map td_value dst ++ [2 ^ 64 + have - td_total_value desc - td_fee desc]
  | Fault _ => True
  end.
Proof.
  intros Ed Hsb Es Hn Htot Hu Hb have Hlt. unfold wallet_craft_tx. cbv zeta. rewrite Es, bind_ok, Z.eqb_refl. cbn [ASSERT].
  rewrite bind_ok, wrap64_small, ltb_f, Ed by lia.
  destruct (txdb_craft_tx env type0 desc btc_msg_tx_init d) as [[[r tx'] d']|f] eqn:E; [|done]. rewrite bind_ok.
  destruct (craft_tx_made _ _ _ _ _ _ _ _ Hn E) as (dst & tx1 & tx2 & tx3 & change & Efst & Ev & Ec & Esel & _).
  split.
  - destruct (select_coins_ok env d mo desc tx1 Hsb) as (coins & chosen & rest & Hch & Hw & E2). rewrite Esel in E2.
    rewrite wrap64_small in Hch by lia. rewrite (chosen_all _ _ _ _ _ _ Hch Hlt (sb_values _ _ _ Hsb)) in E2. fold have in E2.
    by destruct (Z.leb_spec (td_total_value desc) have).
  - destruct (change_wraps_ok env type0 desc btc_msg_tx_init tx' d d' mo r Hsb Hn Hu Htot Hlt E) as (dst' & E1 & Evs). by exists dst'.
Qed.
End balance.

(** ** Opening again *)

Section restart.
Context `{Malloc} `{C : Secp256k1} `{S256 : Sha256} `{EvpCipher} `{BN : BigNum} `{TK : Table wallet_key} `{T : Table positive} `{DB : LevelDb}.
Implicit Types w : wallet (DB := txdb).

Lemma print_ok w m : keys_ok (wl_hash_keys w) m -> wallet_print w = Ok tt.
Proof.
  intros (Ht & He & _). unfold wallet_print, t_for_each. pose proof (t_entries_ok _ _ Ht) as Hp.
  assert (HF : Forall (fun e : list byte * wallet_key => is_Some (wk_btc_addr e.2)) (t_entries (wl_hash_keys w))).
  { rewrite Hp. apply Forall_forall. intros [h wkey] Hin%elem_of_map_to_list. destruct (He _ _ Hin) as [(_ & Hl & Hz & Ea & _) _].
    destruct (address_of h Hl Hz) as [a Ea']. exists a. cbn. congruence. }
  clear Hp. induction HF as [|[h wkey] l Ha _ IH]; [done|]. cbn [fold_entries]. cbn in Ha.
  assert (Ec : wallet_print_key_cb h wkey tt = Ok tt) by (unfold wallet_print_key_cb; by rewrite bool_decide_eq_true_2).
  by rewrite Ec, bind_ok.
Qed.

(** C20: a wallet saves its keys, receives transactions, and is opened again - in
    clear or with its passphrase: it has the same keys and the same balance, and
    its database the same relevant transactions. The calls on files succeed, and
    the store takes what is put in it. *)
Theorem wallet_restart env type0 l w m d0 w1 d1 salt determined F limit : crypt_works -> keys_ok (wl_hash_keys w) m -> m <> ∅ ->
  storable_keys m -> Z.of_nat (size m) < 2 ^ 31 -> salt_ok salt determined w -> (length (wl_filename w) < 4095)%nat ->
  puts_succeed -> wallet_books w d0 ∅ ∅ -> leveldb_map (db d0) = ∅ -> tx_seq d0 = 0 -> wl_balance w = 0 ->
  Forall receivable l -> 3 * bytes_of l < 2 ^ 31 -> env_ui env = false ->
  wallet_receive l w = Ok w1 -> wl_txdb w1 = Some d1 -> tx_seq d1 <= Z.of_nat limit ->
  exists ws F', wallet_save_keys salt determined w (Disk F []) = Ok (false, ws, Disk F' []) /\
    forall determined' fails, exists w2 m2 d2 mt mo mo2,
      wallet_open env type0 determined' (wl_filename w) (wl_pass w) fails (Some (db d1)) limit (Disk F' []) =
        Ok (Some w2, opened_state w, Disk F' []) /\
      keys_ok (wl_hash_keys w2) m2 /\ same_keys m m2 /\ wl_balance w2 = wl_balance w1 /\ wl_txdb w2 = Some d2 /\
      ledger (H2 := wallet_api w1) d1 mt mo /\ ledger (H2 := wallet_api w2) d2 (relevant_txs mt) mo2.
Proof.
  intros Hc Hk Hm Hst Hsz Hsalt Hl Hput Hbooks Hdb Hseq Hbal HF Hbytes Hui Er Ed1 Hlim.
  destruct (save_keys_ok salt determined w m F Hc Hk Hst Hsz Hsalt Hl) as (ckey & text & F' & Es & Hx & Hf & _).
  exists (with_ckey ckey w), F'. split; [done|]. intros determined' fails.
  destruct (file_of_opens type0 w m ckey text determined' fails F' Hc Hk Hst Hsz Hf Hx) as (w3 & m3 & Eo & [Hk3 _] & Hsame).
  assert (Hb0 : wl_balance w = wrap64 (balance ∅)) by by rewrite Hbal.
  destruct (wallet_receive_ok l w d0 ∅ ∅ w1 Hput Hbooks Hb0) as (d1' & mt1 & mo1 & Erec & [Ed1' Hl1] & _ & Ew1);
    [rewrite !map_size_empty; lia|exact Er|].
  assert (d1' = d1) as -> by congruence.
  destruct (restart_ok (H2 := wallet_api w) env l d0 d1 limit Hput (proj2 Hbooks) Hdb Hseq HF Hbytes Erec Hui Hlim)
    as (d2 & mt & mo & mo2 & Eopen & Hled & Hled2 & _ & Ebal & _).
  pose proof (wallet_api_same w w3 m m3 Hk Hk3 Hsame Hm) as Ea.
  assert (Ea1 : wallet_api w1 = wallet_api w) by (apply wallet_api_keys; by rewrite Ew1).
  set (w2 := with_balance (wrap64 (balance mo1)) (with_txdb (Some d2) w3)).
  assert (Ea2 : wallet_api w2 = wallet_api w3) by by apply wallet_api_keys.
  assert (Hbal1 : txdb_get_balance d1 = Ok (wrap64 (balance mo1))) by (apply get_balance_ok, Hl1).
  exists w2, m3, d2, mt, mo, mo2. split_and!; [|done|done|by rewrite Ew1|done|by rewrite Ea1|by rewrite Ea2, Ea].
  unfold wallet_open. rewrite Eo, bind_ok, Ea, Eopen, bind_ok, Ebal, Hbal1, bind_ok. cbv zeta. fold w2.
  by rewrite (print_ok w2 m3 Hk3), bind_ok.
Qed.
End restart.

(** ** What the filter scan looks for *)

Section scan.
Context `{Malloc} `{C : Secp256k1} `{S256 : Sha256} `{EvpCipher} `{BN : BigNum} `{TK : Table wallet_key} {D : Type}.
Implicit Types w : wallet (DB := D).

(** An output that pays a key of the wallet directly (pay-to-pubkey) is the
    wallet's when its block is looked at, and is not looked for: the block is
    found only if it has another transaction of the wallet. *)
Theorem wallet_filter_scripts_miss_p2pk w m h wkey k d : wallet_ok w m -> m !! h = Some wkey -> wk_key wkey = Some k ->
  key_of d k -> let spk := p2pk_bytes [x21] (Key.key_get_pubkey k) in
  (forall v, txo_mine (H2 := wallet_api w) (TxOut v (Zlen spk) (Some spk)) = Ok (Some h)) /\
  exists l w', wallet_get_filter_scripts w = Ok (l, w') /\ spk ∉ l.
Proof.
  intros Hw Em Ek Hd spk. pose proof Hw as [Hk _]. destruct (key_pub_of d k Hd) as (pub & _ & Ep & Hl & _).
  pose proof Hk as (_ & He & _). destruct (He _ _ Em) as [(_ & _ & _ & _ & Hkey) _]. destruct (Hkey k Ek) as (d' & _ & Eh).
  split.
  - intros v. unfold txo_mine. cbn [to_scriptPubKey to_scriptLength]. unfold spk.
    rewrite (script_parse_p2pk_hash [x21] (Key.key_get_pubkey k) h), bind_ok;
      [|rewrite Ep, Hl; exact (push_direct 33 ltac:(done))|rewrite Ep, Hl; lia|exact Eh].
    cbn [Txdb.wallet_is_pubkey_hash160_mine wallet_api make_api]. by rewrite bind_ok, (proj2 (mine_of_ok w m h Hk)), Em.
  - destruct (filter_scripts_ok w m Hw) as (l & w' & E & Hperm & _). exists l, w'. split; [done|]. rewrite Hperm. unfold scripts_of.
    intros Hin. apply list_elem_of_fmap in Hin as (h' & E' & Hin). apply list_elem_of_fmap in Hin as ([h2 k2] & -> & Hin%elem_of_map_to_list).
    destruct (He _ _ Hin) as [(_ & Hh & _) _]. apply (f_equal length) in E'. unfold spk, p2pk_bytes, p2pkh_script in E'.
    rewrite !length_app in E'. cbn [fst] in E'. rewrite Hh, Ep in E'. unfold Zlen in Hl. cbn in E'. lia.
Qed.
End scan.

(** ** Examples: a wallet of one key with a database *)

Section witness.
#[local] Existing Instance toy_curve.
#[local] Existing Instance toy_sha256.
#[local] Existing Instance toy_cipher.
#[local] Existing Instance Z_bignum.
#[local] Existing Instance zero_malloc.
#[local] Existing Instance map_leveldb.

Definition one_addr : option (list byte) :=
  Eval vm_compute in match b58_pubkey_from_uint160 toy_hash with Ok a => a | Fault _ => None end.
Definition no_table : table (V := wallet_key) := match t_create with Ok t => t | Fault _ => Ht 0 0 0 [] end.
Definition one_table : table (V := wallet_key) :=
  match t_insert no_table toy_hash (toy_wkey one_addr) with Ok (_, t) => t | Fault _ => no_table end.
Definition one_map : gmap (list byte) wallet_key := <[toy_hash := toy_wkey one_addr]> ∅.

Lemma one_keys : keys_ok one_table one_map.
Proof.
  destruct (t_create_ok (V := wallet_key)) as (t0 & E0 & Ht0). destruct toy_hash_nonzero as [Hz Hl].
  destruct (keys_ok_insert t0 ∅ toy_hash (toy_wkey one_addr)) as (t & E & Hk); [by apply keys_ok_empty|apply lookup_empty|by rewrite map_size_empty| |done|].
  - split; [done|]. split; [done|]. split; [exact Hz|]. split; [vm_cast_no_check (eq_refl (b58_pubkey_from_uint160 toy_hash))|].
    intros k Ek. change (Some toy_key = Some k) in Ek. injection Ek as <-. exists toy_scalar. split; [apply toy_scalar_key|apply toy_hash_ok].
  - assert (one_table = t) as -> by (unfold one_table, no_table; by rewrite E0, E). exact Hk.
Qed.
Lemma one_storable : storable_keys one_map.
Proof.
  intros h wkey E. unfold one_map in E. apply lookup_insert_Some in E as [[<- <-]|[_ E]]; [|by rewrite lookup_empty in E].
  apply (toy_storable one_addr toy_hash). apply lookup_singleton_eq.
Qed.
Lemma one_size : Z.of_nat (size one_map) < 2 ^ 31.
Proof. unfold one_map. rewrite map_size_insert_None, map_size_empty by apply lookup_empty. reflexivity. Qed.
Lemma one_map_ne : one_map <> ∅.
Proof. apply insert_non_empty. Qed.

(** [pass] is the passphrase, the database is empty. *)
Definition new_wallet_db (pass : option (list byte)) : wallet (DB := txdb) :=
  with_txdb (Some w_txdb) (with_keys one_table (new_wallet (str "wallet.cfg") pass one_table)).
Lemma new_books pass : wallet_books (new_wallet_db pass) w_txdb ∅ ∅.
Proof. split; [done|]. split; [apply w_ledger_empty|apply books_empty]. Qed.

(** A payment to the key of the wallet. *)
Definition k_pay (value : Z) : btc_msg_tx_out := TxOut value 25 (Some (p2pkh_script toy_hash)).
Definition k_tx (value : Z) : btc_msg_tx := Tx 0 [] 1 [k_pay value] 1 0.
Definition k_buf (value : Z) : list byte := tx_bytes (k_tx value).

Lemma k_receivable value : receivable (w_env, uint256_zero_out, k_buf value).
Proof. destruct (Forall_cons_1 _ _ _ w_receivable) as [[Hc _] _]. split; [exact Hc|reflexivity]. Qed.

Lemma wallet_balance_tracks_witness : exists w' d' mt' mo', wallet_receive (w_relayed [k_buf 5000; k_buf 700]) (new_wallet_db None) = Ok w' /\
  wl_txdb w' = Some d' /\ ledger (H2 := wallet_api w') d' mt' mo' /\ wl_balance w' = wrap64 (balance mo').
Proof.
  assert (E : is_ok (wallet_receive (w_relayed [k_buf 5000; k_buf 700]) (new_wallet_db None)) = true) by (vm_cast_no_check (eq_refl true)).
  apply is_ok_inv in E as [w' E].
  destruct (wallet_balance_tracks (w_relayed [k_buf 5000; k_buf 700]) (new_wallet_db None) w_txdb ∅ ∅ w' (fun _ _ _ => eq_refl) (new_books None) eq_refl)
    as (d' & mt' & mo' & Ed & Hl & _ & _ & Hb); [vm_cast_no_check (eq_refl Lt)|exact E|].
  exists w', d', mt', mo'. split; [exact E|]. split; [exact Ed|]. split; [exact Hl|exact Hb].
Defined.

Lemma wallet_craft_refuses_witness :
  wallet_craft_tx w_env 0 (new_wallet_db None) (w_pay_desc 200 100) = Ok (true, btc_msg_tx_init, new_wallet_db None).
Proof. apply (wallet_craft_refuses w_env 0 (new_wallet_db None) (w_pay_desc 200 100)); [reflexivity|split; reflexivity|by apply Z.leb_le]. Defined.

(** Encrypted, with a payment received. *)
Definition k_received : wallet (DB := txdb) :=
  match wallet_receive (w_relayed [k_buf 5000]) (new_wallet_db (Some (str "secret"))) with Ok w => w | Fault _ => new_wallet_db None end.
Definition k_txdb : txdb := match wl_txdb k_received with Some d => d | None => w_txdb end.

Lemma ok_get {A} (r : res A) a : is_ok r = true -> r = Ok (match r with Ok x => x | Fault _ => a end).
Proof. by destruct r. Qed.
Lemma k_received_ok : wallet_receive (w_relayed [k_buf 5000]) (new_wallet_db (Some (str "secret"))) = Ok k_received.
Proof.
  unfold k_received. apply ok_get. vm_cast_no_check (eq_refl true).
Qed.
Lemma k_bytes : 3 * bytes_of (w_relayed [k_buf 5000]) < 2 ^ 31.
Proof. vm_cast_no_check (eq_refl Lt). Qed.
Lemma k_txdb_ok : wl_txdb k_received = Some k_txdb.
Proof.
  destruct (wallet_receive_ok (w_relayed [k_buf 5000]) (new_wallet_db (Some (str "secret"))) w_txdb ∅ ∅ k_received (fun _ _ _ => eq_refl)
    (new_books (Some (str "secret"))) eq_refl) as (d' & mt' & mo' & _ & [Ed _] & _); [|exact k_received_ok|].
  - pose proof k_bytes. rewrite !map_size_empty. lia.
  - unfold k_txdb. by rewrite Ed.
Qed.
Lemma k_txdb_seq : tx_seq k_txdb <= Z.of_nat 10.
Proof. apply Z.leb_le. vm_cast_no_check (eq_refl true). Qed.
Lemma k_salt_ok : salt_ok (Some (replicate 8 x07)) 2000 (new_wallet_db (Some (str "secret"))).
Proof. intros _. exists (replicate 8 x07). split; [reflexivity|split; [reflexivity|by apply Z.leb_le]]. Qed.
Lemma k_name_ok : (length (str "wallet.cfg") < 4095)%nat.
Proof. by apply Nat.ltb_lt. Qed.

Lemma wallet_restart_witness : exists ws F', wallet_save_keys (Some (replicate 8 x07)) 2000 (new_wallet_db (Some (str "secret"))) (Disk ∅ []) =
    Ok (false, ws, Disk F' []) /\
  exists w2, wallet_open w_env 0 0 (str "wallet.cfg") (Some (str "secret")) false (Some (db k_txdb)) 10 (Disk F' []) =
    Ok (Some w2, WALLET_ENCRYPTED_UNLOCKED, Disk F' []) /\ wl_balance w2 = wl_balance k_received.
Proof.
  destruct (wallet_restart w_env 0 (w_relayed [k_buf 5000]) (new_wallet_db (Some (str "secret"))) one_map w_txdb k_received k_txdb
    (Some (replicate 8 x07)) 2000 ∅ 10 toy_works one_keys one_map_ne one_storable one_size k_salt_ok k_name_ok (fun _ _ _ => eq_refl)
    (new_books (Some (str "secret"))) eq_refl eq_refl eq_refl (Forall_cons_2 _ _ _ (k_receivable 5000) (Forall_nil_2 _)) k_bytes eq_refl
    k_received_ok k_txdb_ok k_txdb_seq) as (ws & F' & Es & Ho).
  exists ws, F'. split; [exact Es|]. destruct (Ho 0 false) as (w2 & m2 & d2 & mt & mo & mo2 & E2 & _ & _ & Eb & _).
  exists w2. split; [exact E2|exact Eb].
Defined.

Lemma one_wallet_ok : wallet_ok (new_wallet_db None) one_map.
Proof. split; [apply one_keys|done]. Qed.

Lemma wallet_filter_scripts_miss_p2pk_witness : let spk := p2pk_bytes [x21] (Key.key_get_pubkey toy_key) in
  (forall v, txo_mine (H2 := wallet_api (new_wallet_db None)) (TxOut v (Zlen spk) (Some spk)) = Ok (Some toy_hash)) /\
  exists l w', wallet_get_filter_scripts (new_wallet_db None) = Ok (l, w') /\ spk ∉ l.
Proof.
  apply (wallet_filter_scripts_miss_p2pk (new_wallet_db None) one_map toy_hash (toy_wkey one_addr) toy_key toy_scalar);
    [apply one_wallet_ok|apply lookup_insert_eq|reflexivity|apply toy_scalar_key].
Defined.

(** 5000 in a block, 700 that are not. *)
Definition k_later : list (bitc_env * uint256 * list byte) := [(w_env_block, w_block, k_buf 5000); (w_env, uint256_zero_out, k_buf 700)].
Definition k_wallet : wallet (DB := txdb) := match wallet_receive k_later (new_wallet_db None) with Ok w => w | Fault _ => new_wallet_db None end.
Definition k_id (value : Z) : uint256 := hash256_calc (k_buf value).
Definition k_coin (blk : uint256) (value : Z) : txo_entry := TxoEntry (k_id value) blk one_addr 0 value false true.
Definition k_coins : gmap (list byte) txo_entry :=
  <[txo_key (k_id 700) 0 := k_coin uint256_zero_out 700]> (<[txo_key (k_id 5000) 0 := k_coin w_block 5000]> ∅).

Lemma k_wallet_books : exists d mt, wallet_books k_wallet d mt k_coins /\ k_wallet = with_balance 5700 (with_txdb (Some d) (new_wallet_db None)).
Proof.
  assert (E : wallet_receive k_later (new_wallet_db None) = Ok k_wallet).
  { unfold k_wallet. apply ok_get. vm_cast_no_check (eq_refl true). }
  destruct (wallet_receive_ok k_later (new_wallet_db None) w_txdb ∅ ∅ k_wallet (fun _ _ _ => eq_refl) (new_books None) eq_refl)
    as (d & mt & mo & _ & Hb & Ht & Ew); [rewrite !map_size_empty; vm_cast_no_check (eq_refl Lt)|exact E|].
  assert (R1 : received (k_buf 5000) (k_tx 5000)) by (eexists; vm_compute; reflexivity).
  assert (R2 : received (k_buf 700) (k_tx 700)) by (eexists; vm_compute; reflexivity).
  inversion Ht as [|? ? ? ? ? ? rel1 mt1 mo1 ? ? H1 Ht1]; subst. inversion Ht1 as [|? ? ? ? ? ? rel2 mt2 mo2 ? ? H2 Ht2]; subst.
  inversion Ht2; subst.
  destruct (handled_new _ _ _ _ _ _ _ _ (k_tx 5000) true (<[txo_key (k_id 5000) 0 := k_coin w_block 5000]> ∅) H1) as (ts1 & -> & ->);
    [apply lookup_empty|exact R1| |].
  { vm_cast_no_check (eq_refl (Ok (true, <[txo_key (k_id 5000) 0 := k_coin w_block 5000]> (∅ : gmap (list byte) txo_entry)))). }
  destruct (handled_new _ _ _ _ _ _ _ _ (k_tx 700) true k_coins H2) as (ts2 & -> & ->); [|exact R2| |].
  { rewrite lookup_insert_ne; [apply lookup_empty|]. apply (bool_decide_unpack _). vm_cast_no_check I. }
  { vm_cast_no_check (eq_refl (Ok (true, k_coins))). }
  eexists d, _. split; [exact Hb|]. rewrite Ew.
  assert (Eb : wrap64 (balance k_coins) = 5700) by (vm_cast_no_check (eq_refl 5700)). by rewrite Eb.
Qed.

Lemma k_cases e : e ∈ coins_of k_coins -> e = k_coin w_block 5000 \/ e = k_coin uint256_zero_out 700.
Proof.
  intros [k Hk]%elem_of_coins. unfold k_coins in Hk. apply lookup_insert_Some in Hk as [[_ <-]|[_ Hk]]; [by right|].
  apply lookup_insert_Some in Hk as [[_ <-]|[_ Hk]]; [by left|]. by rewrite lookup_empty in Hk.
Qed.
Definition k_db : txdb := match wl_txdb k_wallet with Some d => d | None => w_txdb end.
Lemma k_db_ok : wl_txdb k_wallet = Some k_db.
Proof. destruct k_wallet_books as (d & mt & [Ed _] & _). unfold k_db. by rewrite Ed. Qed.
Lemma k_balance : wl_balance k_wallet = 5700.
Proof. destruct k_wallet_books as (d & mt & _ & Ew). by rewrite Ew. Qed.
Lemma k_spendable : spendable_books w_env_block k_db k_coins.
Proof.
  split.
  - destruct k_wallet_books as (d & mt & [Ed [[_ Hrep] _]] & _). unfold k_db. by rewrite Ed.
  - apply insert_non_empty.
  - intros e [->| ->]%k_cases; [exists 1400000000|exists 0]; vm_compute; reflexivity.
  - intros e [->| ->]%k_cases; cbn; lia.
  - vm_cast_no_check (eq_refl Lt).
Qed.

(** 4950 and a fee of 100 are less than the balance, 5700, and more than the 5000
    that can be spent: the last output is 2^64 - 50. *)
Lemma wallet_craft_unconfirmed_witness : exists r tx' w', wallet_craft_tx w_env_block 0 k_wallet (w_pay_desc 4950 100) = Ok (r, tx', w') /\
  values (tx_out tx') = [4950; 2 ^ 64 - 50].
Proof.
  assert (E : is_ok (wallet_craft_tx w_env_block 0 k_wallet (w_pay_desc 4950 100)) = true) by (vm_cast_no_check (eq_refl true)).
  apply is_ok_inv in E as [[[r tx'] w'] E]. exists r, tx', w'. split; [exact E|].
  pose proof (wallet_craft_unconfirmed w_env_block 0 k_wallet k_db (w_pay_desc 4950 100) k_coins k_db_ok k_spendable eq_refl) as Ht.
  cbv zeta in Ht. rewrite E in Ht. destruct Ht as (_ & dst & E1 & Ev);
    [by apply Z.leb_le|by apply Z.leb_le|split; [by apply Z.leb_le|reflexivity]|rewrite k_balance; by apply Z.leb_le|vm_cast_no_check (eq_refl Lt)|].
  rewrite Ev. injection E1 as <-. vm_cast_no_check (eq_refl [4950; 2 ^ 64 - 50]).
Defined.

(** A store that takes nothing. *)
Definition full_leveldb : LevelDb.
Proof.
  refine {| leveldb := gmap (list byte) (list byte); leveldb_put := fun d k v => (true, d);
    leveldb_iter := @leveldb_iter map_leveldb; leveldb_map := @leveldb_map map_leveldb |}.
  - apply (@leveldb_iter_ok map_leveldb).
  - apply (@leveldb_iter_sorted map_leveldb).
  - intros d k v. by right.
Defined.
Definition full_txdb : txdb (DB := full_leveldb) := Txdb (DB := full_leveldb) ∅ ∅ w_table w_table 0 ∅ [].
Definition full_wallet : wallet (DB := txdb (DB := full_leveldb)) :=
  with_txdb (Some full_txdb) (with_keys one_table (new_wallet (str "wallet.cfg") None one_table)).
Lemma full_books : wallet_books (DB := full_leveldb) full_wallet full_txdb ∅ ∅.
Proof. split; [done|]. split; [apply w_ledger_empty|apply books_empty]. Qed.

Lemma wallet_failed_save_stale_witness : exists w', wallet_handle_tx (DB := full_leveldb) w_env uint256_zero_out (k_buf 5000) full_wallet = Ok (true, w') /\
  wl_balance w' = 0.
Proof.
  assert (E : (r ← wallet_handle_tx (DB := full_leveldb) w_env uint256_zero_out (k_buf 5000) full_wallet; Ok r.1) = Ok true) by (vm_cast_no_check (eq_refl (@Ok bool true))).
  apply res_bind_Ok in E as ([r w'] & E & Er). cbn in Er. injection Er as ->. exists w'. split; [exact E|].
  destruct (wallet_failed_save_stale w_env uint256_zero_out (k_buf 5000) full_wallet full_txdb ∅ ∅ w' full_books) as (d' & mt' & mo' & tx & _ & _ & _ & _ & Eb);
    [split; vm_cast_no_check (eq_refl Lt)|exact E|]. exact Eb.
Defined.
End witness.
