(* ===== verification/WalletScripts.v ===== *)
(** * The scripts the filter scan looks for (core/wallet.c)

    The list of scripts is cached in the wallet, and made again after a key is
    added. Whatever is done to the wallet in between, the list that is given is
    that of the keys it has then. *)
From Stdlib Require Import Strings.String.
From S2P Require Import WalletReload WalletAdd Restart Wallet.

Section scripts.
Context `{Malloc} `{C : Secp256k1} `{S256 : Sha256} `{EvpCipher} `{BN : BigNum} `{TK : Table wallet_key} `{T : Table positive} `{DB : LevelDb}.
Variable type0 : Z.
Implicit Types w : wallet (DB := txdb).
Implicit Types m : gmap (list byte) wallet_key.

(** ** What is done to a wallet *)

(** The scripts are asked for, a key is read from the file or added, the keys are
    saved, a transaction comes. *)
Inductive wallet_op : Type :=
| WoScripts
| WoAlloc (state : wallet_state) (priv pub desc : option (list byte)) (birth : Z) (spendable : bool)
| WoAdd (generated : option EVP_PKEY) (now : Z) (state : wallet_state) (salt : option (list byte)) (determined : Z)
    (desc : option (list byte)) (d : disk)
| WoSave (salt : option (list byte)) (determined : Z) (d : disk)
| WoEncrypt (salt : option (list byte)) (determined : Z) (pass : option (list byte)) (d : disk)
| WoTx (env : bitc_env) (blk : uint256) (buf : list byte).

Definition wallet_do (op : wallet_op) w : res (wallet (DB := txdb)) :=
  match op with
  | WoScripts => '(_, w) ← wallet_get_filter_scripts w; Ok w
  | WoAlloc state priv pub desc birth spendable => '(_, w) ← wallet_alloc_key type0 state w priv pub desc birth spendable; Ok w
  | WoAdd generated now state salt determined desc d =>
      '(_, _, w, _) ← wallet_add_key type0 generated now state salt determined w desc d; Ok w
  | WoSave salt determined d => '(_, w, _) ← wallet_save_keys salt determined w d; Ok w
  | WoEncrypt salt determined pass d => '(_, w, _) ← wallet_encrypt salt determined w pass d; Ok w
  | WoTx env blk buf => '(_, w) ← wallet_handle_tx env blk buf w; Ok w
  end.
Fixpoint wallet_does (ops : list wallet_op) w : res (wallet (DB := txdb)) :=
  match ops with [] => Ok w | op :: ops => w ← wallet_do op w; wallet_does ops w end.

(** ** The cache is that of the keys *)

(** The keys are under their hashes; the cache, when valid, is up to date. *)
Definition hashes_ok (t : table (V := wallet_key)) m : Prop := tbl_ok t m /\ forall h wkey, m !! h = Some wkey -> wk_pub_key wkey = h /\ length h = 20%nat.
Definition cache_ok w m : Prop := hashes_ok (wl_hash_keys w) m /\ (wl_filterScriptsValid w = true -> wl_filterScripts w ≡ₚ scripts_of m).

Lemma cache_same w w' m : wl_hash_keys w' = wl_hash_keys w -> wl_filterScripts w' = wl_filterScripts w ->
  wl_filterScriptsValid w' = wl_filterScriptsValid w -> cache_ok w m -> cache_ok w' m.
Proof. unfold cache_ok. by intros -> -> ->. Qed.

Lemma scripts_given w m : cache_ok w m -> exists l w', wallet_get_filter_scripts w = Ok (l, w') /\ l ≡ₚ scripts_of m /\ cache_ok w' m /\
  wl_hash_keys w' = wl_hash_keys w.
Proof.
  intros [[Ht He] Hc]. unfold wallet_get_filter_scripts. destruct (wl_filterScriptsValid w) eqn:Ev.
  { rewrite bind_ok. exists (wl_filterScripts w), w. split; [done|]. split; [by apply Hc|]. split; [split; [done|intros _; by apply Hc]|done]. }
  pose proof (t_entries_ok _ _ Ht) as Hp. unfold t_for_each. rewrite filter_scripts_fold, !bind_ok.
  2: { rewrite Hp. apply Forall_forall. intros [h wkey] Hin%elem_of_map_to_list. by apply He. }
  cbn [app]. eexists _, _. split; [done|]. assert (Hl : (p2pkh_script <$> (t_entries (wl_hash_keys w)).*1) ≡ₚ scripts_of m) by (unfold scripts_of; by rewrite Hp).
  split; [exact Hl|]. split; [|done]. by split.
Qed.

(** A key that is added takes the cache away. *)
Lemma alloc_cache state w m priv pub desc birth spendable s w' : cache_ok w m -> Z.of_nat (size m) < 2 ^ 32 - 1 ->
  wallet_alloc_key type0 state w priv pub desc birth spendable = Ok (s, w') ->
  exists m', cache_ok w' m' /\ Z.of_nat (size m') <= Z.of_nat (size m) + 1.
Proof.
  intros Hw Hs E. unfold wallet_alloc_key in E. apply res_bind_Ok in E as (p & _ & E). apply res_bind_Ok in E as ([[buf pk]|] & Es & E).
  2: { injection E as _ <-. exists m. split; [done|lia]. }
  apply res_bind_Ok in E as ([k h] & Ek & E). apply res_bind_Ok in E as (u & Ez & E). apply res_bind_Ok in E as (addr & _ & E). cbv zeta in E.
  apply res_bind_Ok in E as ([s1 t] & Et & E). apply res_bind_Ok in E as (u1 & Ea & E). injection E as _ <-.
  destruct s1; [|done]. destruct Hw as [[Ht He] _]. match type of Et with t_insert _ _ ?x = _ => set (wkey := x) in * end.
  destruct (t_insert_ok _ _ h wkey Ht Hs) as (t' & E' & Ht'). rewrite E' in Et. case_bool_decide as Hn; [|by injection Et].
  injection Et as ->. exists (<[h := wkey]> m). split; [|rewrite map_size_insert_None by done; lia]. split; [|done].
  split; [exact Ht'|]. intros h' wk' [[<- <-]|[_ Hm]]%lookup_insert_Some; [|by apply He]. split; [done|].
  assert (Hb : length pk = 20%nat).
  { unfold alloc_source in Es. assert (Hps : forall s b, plain_source type0 s = Ok (Some (b, pk)) -> length pk = 20%nat).
    { intros s0 b Hp. unfold plain_source in Hp. apply res_bind_Ok in Hp as ([[[m0|] len]|] & _ & Hp); [..|done]; by injection Hp as _ <-. }
    destruct (bool_decide _); [|by eapply Hps]. destruct (wl_pass w).
    - apply res_bind_Ok in Es as ([enc|] & _ & Es); [|done]. apply res_bind_Ok in Es as ([sec|] & _ & Es); [|done]. by eapply Hps.
    - apply res_bind_Ok in Es as ([pkey plen] & _ & Es). apply res_bind_Ok in Es as (bytes & _ & Es). apply res_bind_Ok in Es as (h0 & E0 & Es).
      injection Es as _ <-. destruct (hash160_calc_length bytes) as (d & E1 & Hd). rewrite E0 in E1. injection E1 as <-. exact Hd. }
  destruct buf as [[buf len]|]; [|by injection Ek as _ <-].
  apply res_bind_Ok in Ek as ([r k1] & _ & Ek). apply res_bind_Ok in Ek as (h1 & Eh & Ek). injection Ek as _ <-.
  unfold key_get_pubkey_hash160 in Eh. destruct (k_pub_key k1) as [pubk|]; [|done].
  apply res_bind_Ok in Eh as (? & _ & Eh). apply res_bind_Ok in Eh as (? & _ & Eh).
  destruct (hash160_calc_length pubk) as (d & E1 & Hd). rewrite Eh in E1. injection E1 as <-. exact Hd.
Qed.

(** Saving changes the key of the encryption only. *)
Lemma save_cache salt determined w m d res w' d' : cache_ok w m -> wallet_save_keys salt determined w d = Ok (res, w', d') -> cache_ok w' m.
Proof.
  intros Hw E. assert (Ew : w' = w \/ exists k, w' = with_ckey k w).
  { unfold wallet_save_keys, going_on in E. apply res_bind_Ok in E as ([r w1] & E & E2). injection E2 as _ <- _. unfold save_keys in E.
    destruct (config_setint64 _ _ _); cbn [or_stop] in E; [|done]. destruct (save_crypt _ _ _ _) as [o|] eqn:Es; cbn [or_stop] in E; [|done].
    assert (Hs : forall w2 c2, o = Some (w2, c2) -> w2 = w \/ exists k, w2 = with_ckey k w).
    { intros w2 c2 ->. unfold save_crypt in Es. destruct (wl_pass w); [|injection Es as <- _; by left]. destruct salt; [|done].
      apply res_bind_Ok in Es as (? & _ & Es). apply res_bind_Ok in Es as (? & _ & Es). destruct (crypt_set_key_from_passphrase _ _ _ _) as [[? ?] ?].
      apply res_bind_Ok in Es as (? & _ & Es). apply res_bind_Ok in Es as (? & _ & Es). apply res_bind_Ok in Es as (? & _ & Es).
      injection Es as <- _. right. by eexists. }
    destruct o as [[w2 c2]|]; [|injection E as _ <-; by left]. destruct (t_for_each _ _ _); cbn [or_stop] in E; [|done].
    destruct (save_file _ _ _) as [r4 d4]. cbn in E. apply res_bind_Ok in E as (? & _ & E). injection E as _ <-. by eapply Hs. }
  destruct Ew as [->|[k ->]]; [done|]. by apply (cache_same w).
Qed.

Lemma do_cache op w m w' : cache_ok w m -> Z.of_nat (size m) < 2 ^ 32 - 1 -> wallet_do op w = Ok w' ->
  exists m', cache_ok w' m' /\ Z.of_nat (size m') <= Z.of_nat (size m) + 1.
Proof.
  intros Hw Hs E. destruct op as [|state priv pub desc birth spendable|generated now state salt determined desc d|salt determined d|salt determined pass d|env blk buf]; cbn [wallet_do] in E.
  - destruct (scripts_given w m Hw) as (l & w2 & E2 & _ & Hw2 & _). rewrite E2 in E. injection E as <-. exists m. split; [done|lia].
  - apply res_bind_Ok in E as ([s w2] & E & E2). injection E2 as <-. by eapply alloc_cache.
  - apply res_bind_Ok in E as ([[[r a] w2] d2] & E & E2). injection E2 as <-. unfold wallet_add_key in E.
    destruct (key_generate_new generated); [|injection E as _ _ <- _; exists m; split; [done|lia]].
    cbv zeta in E. apply res_bind_Ok in E as (? & _ & E). apply res_bind_Ok in E as (? & _ & E). apply res_bind_Ok in E as (? & _ & E).
    apply res_bind_Ok in E as ([s1 w1] & Ea & E). apply res_bind_Ok in E as ([[r2 w3] d3] & Es & E). injection E as _ _ <- _.
    destruct (alloc_cache _ _ _ _ _ _ _ _ _ _ Hw Hs Ea) as (m' & Hw1 & Hsz). exists m'. split; [by eapply save_cache|done].
  - apply res_bind_Ok in E as ([[r w2] d2] & E & E2). injection E2 as <-. exists m. split; [by eapply save_cache|lia].
  - apply res_bind_Ok in E as ([[r w2] d2] & E & E2). injection E2 as <-. exists m. split; [|lia]. unfold wallet_encrypt in E. destruct pass; [|done].
    eapply (save_cache _ _ (with_pass _ w)); [|exact E]. by apply (cache_same w).
  - apply res_bind_Ok in E as ([r w2] & E & E2). injection E2 as <-. exists m. split; [|lia]. unfold wallet_handle_tx in E.
    destruct (wl_txdb w); [|done]. apply res_bind_Ok in E as ([[e rel] d'] & _ & E). cbv zeta in E.
    destruct (negb e && rel); [|injection E as _ <-; by apply (cache_same w)].
    apply res_bind_Ok in E as (b & _ & E). injection E as _ <-. by apply (cache_same w).
Qed.

Lemma does_cache ops : forall w m w', cache_ok w m -> Z.of_nat (size m) + Zlen ops < 2 ^ 32 - 1 -> wallet_does ops w = Ok w' ->
  exists m', cache_ok w' m'.
Proof.
  induction ops as [|op ops IH]; cbn [wallet_does]; intros w m w' Hw Hs E; [injection E as <-; by exists m|].
  rewrite Zlen_cons in Hs. pose proof (Zlen_nonneg ops). apply res_bind_Ok in E as (w1 & E1 & E).
  destruct (do_cache op w m w1 Hw ltac:(lia) E1) as (m1 & Hw1 & Hs1). apply (IH w1 m1 w'); [done|lia|done].
Qed.

Lemma scripts_of_in m spk : spk ∈ scripts_of m <-> exists h, is_Some (m !! h) /\ spk = p2pkh_script h.
Proof.
  unfold scripts_of. rewrite list_elem_of_fmap. split.
  - intros (h & -> & Hin). apply list_elem_of_fmap in Hin as ([h' k] & -> & Hin%elem_of_map_to_list). exists h'. split; [by exists k|done].
  - intros (h & [k E'] & ->). exists h. split; [done|]. apply list_elem_of_fmap. exists (h, k). split; [done|]. by apply elem_of_map_to_list.
Qed.
Lemma p2pkh_script_inj h h' : p2pkh_script h = p2pkh_script h' -> h = h'.
Proof. unfold p2pkh_script. intros E. injection E as E. by apply app_inv_tail in E. Qed.
Lemma scripts_of_nodup m : NoDup (scripts_of m).
Proof. unfold scripts_of. apply NoDup_fmap_2_strong; [|apply NoDup_fst_map_to_list]. intros h h' _ _. apply p2pkh_script_inj. Qed.
Lemma p2pkh_script_parses h : length h = 20%nat -> script_parse_pubkey_hash (Some (p2pkh_script h)) 25 = Ok (false, h).
Proof.
  intros Hh. change (p2pkh_script h) with (p2pkh_bytes [x14] h). pose proof (script_parse_p2pkh_hash [x14] h (push_direct 20 ltac:(done)) Hh) as Ep.
  rewrite Zlen_p2pkh in Ep. unfold Zlen in Ep. by rewrite Hh in Ep.
Qed.

(** C15: the scripts given to the filter scan are, at any time, those of the keys
    the wallet has then. Start from a wallet with no cached scripts, as it is when
    it is opened, and do anything to it, in any order: ask for the scripts, read or
    add keys, save or encrypt them, receive transactions ([wallet_op]). The scripts
    asked for then are the pay-to-pubkey-hash scripts of the hashes of the wallet's keys, each
    once; so a pay-to-pubkey-hash output is credited to the wallet
    ([txdb_process_tx_entry]) if and only if the scan looks for its script. *)
Theorem wallet_filter_scripts_exact ops w0 m0 w : keys_ok (wl_hash_keys w0) m0 -> wl_filterScriptsValid w0 = false ->
  Z.of_nat (size m0) + Zlen ops < 2 ^ 32 - 1 -> wallet_does ops w0 = Ok w ->
  exists l w', wallet_get_filter_scripts w = Ok (l, w') /\ NoDup l /\
    (forall spk, spk ∈ l <-> exists h, WalletKeys.wallet_is_pubkey_hash160_mine w h = Ok true /\ spk = p2pkh_script h) /\
    (forall v h, length h = 20%nat ->
      txo_mine (H2 := wallet_api w) (TxOut v 25 (Some (p2pkh_script h))) = Ok (if bool_decide (p2pkh_script h ∈ l) then Some h else None)).
Proof.
  intros (Ht & He & _) Hv Hs E. destruct (does_cache ops w0 m0 w) as (m & Hw); [|done|done|].
  { split; [|congruence]. split; [done|]. intros h wkey Hm. by destruct (He _ _ Hm) as [(? & ? & _) _]. }
  destruct (scripts_given w m Hw) as (l & w' & El & Hl & _ & _). destruct Hw as [[Ht' _] _].
  assert (Em : forall h, WalletKeys.wallet_is_pubkey_hash160_mine w h = Ok (bool_decide (is_Some (m !! h)))).
  { intros h. unfold WalletKeys.wallet_is_pubkey_hash160_mine. by rewrite (t_lookup_ok _ _ _ Ht'). }
  assert (Hin : forall spk, spk ∈ l <-> exists h, is_Some (m !! h) /\ spk = p2pkh_script h) by (intros spk; rewrite Hl; apply scripts_of_in).
  exists l, w'. split; [done|]. split; [rewrite Hl; apply scripts_of_nodup|]. split.
  - intros spk. rewrite Hin. split; intros (h & Hh & ->); exists h; (split; [|done]).
    + rewrite Em. by rewrite bool_decide_eq_true_2.
    + rewrite Em in Hh. injection Hh as Hh. by apply bool_decide_eq_true in Hh.
  - intros v h Hh. unfold txo_mine. cbn [to_scriptPubKey to_scriptLength]. rewrite p2pkh_script_parses, bind_ok by done.
    cbn [Txdb.wallet_is_pubkey_hash160_mine wallet_api make_api]. unfold mine_of. rewrite Em, bind_ok. f_equal.
    assert (Hiff : p2pkh_script h ∈ l <-> is_Some (m !! h)).
    { rewrite Hin. split; [intros (h' & Hm & Eq); by rewrite (p2pkh_script_inj _ _ Eq)|intros Hm; by exists h]. }
    rewrite (bool_decide_ext _ _ Hiff). by destruct (bool_decide _).
Qed.
End scripts.

(** ** An example: the scripts, a key more, the scripts again *)

Section witness.
#[local] Existing Instance toy_curve.
#[local] Existing Instance toy_sha256.
#[local] Existing Instance toy_cipher.
#[local] Existing Instance Z_bignum.
#[local] Existing Instance zero_malloc.
#[local] Existing Instance map_leveldb.

Definition s_scalar : Z := 2 ^ 251 + 9.
Definition s_ops : list wallet_op :=
  [WoScripts; WoAdd (Some s_scalar : option EVP_PKEY) 1800000000 WALLET_PLAIN None 0 (Some (str "second")) (Disk ∅ []);
   WoTx w_env uint256_zero_out (k_buf 5000)].
Definition s_wallet : wallet (DB := txdb) := match wallet_does 0 s_ops (new_wallet_db None) with Ok w => w | Fault _ => new_wallet_db None end.

Lemma wallet_filter_scripts_exact_witness :
  wallet_does 0 s_ops (new_wallet_db None) = Ok s_wallet /\
  exists l w', wallet_get_filter_scripts s_wallet = Ok (l, w') /\ NoDup l /\
    p2pkh_script toy_hash ∈ l /\ p2pkh_script (toy_digest s_scalar) ∈ l.
Proof.
  assert (E : wallet_does 0 s_ops (new_wallet_db None) = Ok s_wallet) by (unfold s_wallet; apply ok_get; vm_cast_no_check (eq_refl true)).
  split; [exact E|].
  destruct (wallet_filter_scripts_exact 0 s_ops (new_wallet_db None) one_map s_wallet one_keys eq_refl) as (l & w' & El & Hnd & Hin & _);
    [vm_cast_no_check (eq_refl Lt)|exact E|].
  exists l, w'. split; [exact El|]. split; [exact Hnd|]. split; apply Hin.
  - exists toy_hash. split; [vm_cast_no_check (eq_refl (@Ok bool true))|reflexivity].
  - exists (toy_digest s_scalar). split; [vm_cast_no_check (eq_refl (@Ok bool true))|reflexivity].
Defined.
End witness.
