(* ===== verification/WalletTakes.v ===== *)
(** * Transactions the wallet takes (core/wallet.c, core/txdb.c)

    The handlers of a transaction stop the process on bytes that cannot be read, on
    a coin that is spent twice, on a transaction of another block (Ledger.v). Here
    is the other side: the transactions they take, whatever the clock, the
    interface and the store do. *)
From Stdlib Require Import Strings.String.
From S2P Require Import WalletReload WalletAdd Restart Wallet.

(** ** What the wallet is asked to take *)

(** The script can be looked at, as every script can that does not end in a push
    with nothing after it (Script.v). *)
Definition script_reads `{Malloc} `{Sha256} (o : btc_msg_tx_out) : Prop :=
  exists r, script_parse_pubkey_hash (to_scriptPubKey o) (to_scriptLength o) = Ok r.

(** No input is there twice, none spends a coin that is spent. *)
Record spends_well (mo : gmap (list byte) txo_entry) (tx : btc_msg_tx) : Prop := {
  sp_once : NoDup (txi_key <$> tx_in tx);
  sp_unspent : forall txi e, txi ∈ tx_in tx -> mo !! txi_key txi = Some e -> xo_spent e = false }.

(** The block is one of the store's. *)
Record in_store `{T : Table positive} (bs : blockstore) (blk : uint256) : Prop := {
  is_hash : is_uint256 blk /\ uint256_iszero (Some blk) = false;
  is_time : exists t, blockstore_get_block_timestamp bs blk = Ok t;
  is_height : exists h, blockstore_get_block_height bs blk = Ok h }.

Section takes.
Context `{Malloc} `{Sha256} `{BigNum} `{WA : WalletApi} `{T : Table positive}.
Implicit Types mt : gmap (list byte) tx_entry.
Implicit Types mo : gmap (list byte) txo_entry.

(** A transaction of a block: a new one, that can be read and spends well, or one
    that was taken with this block, or that is not of the wallet. *)
Definition takes_tx (blk : uint256) (buf : list byte) mt mo : Prop :=
  uint256_iszero (Some (hash256_calc buf)) = false /\
  match mt !! hash256_calc buf with
  | Some te => te_relevant te = true -> te_blkHash te = blk
  | None => exists tx, received buf tx /\ Forall script_reads (tx_out tx) /\ spends_well mo tx
  end.
(** Each as the books are when it comes. *)
Fixpoint takes (l : list (uint256 * list byte)) mt mo : Prop :=
  match l with
  | [] => True
  | (blk, buf) :: l => takes_tx blk buf mt mo /\
      forall rel mt' mo', handled blk (hash256_calc buf) buf mt mo rel mt' mo' -> takes l mt' mo'
  end.
Definition feed_size (l : list (uint256 * list byte)) : Z := foldr (fun x n => 1 + Zlen x.2 + n) 0 l.
Lemma feed_size_nonneg l : 0 <= feed_size l.
Proof. induction l as [|x l IH]; cbn; [done|]. pose proof (Zlen_nonneg x.2). unfold feed_size in IH. lia. Qed.

(** What the wallet has can be shown: its transactions are in blocks of the store,
    or in none. *)
Definition can_show (bs : blockstore) mt : Prop :=
  forall h te, mt !! h = Some te -> te_relevant te = true ->
    (exists z, blockstore_get_block_height bs (te_blkHash te) = Ok z) /\ Forall script_reads (tx_out (te_tx te)).
End takes.

(** ** The database takes them *)

Section db_takes.
Context `{Malloc} `{Sha256} `{BigNum} `{KR : !KeyRing} `{WalletApi} `{T : Table positive} `{DB : LevelDb}.
Implicit Types d : txdb.
Implicit Types mt : gmap (list byte) tx_entry.
Implicit Types mo : gmap (list byte) txo_entry.
Hypothesis Haddr : forall h, is_mine h = true -> exists a, b58_pubkey_from_uint160 h = Ok a.

Lemma spend_takes ins : forall rel mo, NoDup (txi_key <$> ins) ->
  (forall txi e, txi ∈ ins -> mo !! txi_key txi = Some e -> xo_spent e = false) -> exists rel' mo', spend_map ins rel mo = Ok (rel', mo').
Proof.
  induction ins as [|txi ins IH]; intros rel mo Hnd Hun; cbn [spend_map]; [by eexists _, _|]. cbn [fmap list_fmap] in Hnd. apply NoDup_cons in Hnd as [Hni Hnd].
  destruct (mo !! txi_key txi) as [e|] eqn:Ee.
  - rewrite (Hun txi e (list_elem_of_here _ _) Ee). apply IH; [done|]. intros txi' e' Hin Hl. apply (Hun txi' e'); [by right|].
    rewrite lookup_insert_ne in Hl; [done|]. intros Eq. apply Hni. rewrite Eq. by apply list_elem_of_fmap_2.
  - apply IH; [done|]. intros txi' e' Hin. apply Hun. by right.
Qed.

Lemma mine_total (o : btc_msg_tx_out) : script_reads o -> exists r, txo_mine o = Ok r.
Proof.
  intros [[err h] E]. unfold txo_mine. rewrite E, bind_ok. destruct err; [by eexists|]. rewrite wallet_mine_ok, bind_ok. by eexists.
Qed.
Lemma all_mine outs : Forall script_reads outs -> Forall (fun o => exists r, txo_mine o = Ok r) outs.
Proof. intros Hs. eapply Forall_impl; [exact Hs|]. intros o. apply mine_total. Qed.
Lemma credit_total outs : Forall (fun o => exists r, txo_mine o = Ok r) outs -> exists c, credit outs = Ok c.
Proof.
  induction 1 as [|o outs [r Er] _ [c Ec]]; cbn [credit]; [by eexists|]. rewrite Er, bind_ok, Ec, bind_ok. by eexists.
Qed.
Lemma mine_is (o : btc_msg_tx_out) h : txo_mine o = Ok (Some h) -> is_mine h = true.
Proof.
  unfold txo_mine. intros E. apply res_bind_Ok in E as ([err a] & _ & E). destruct err; [done|]. rewrite wallet_mine_ok, bind_ok in E.
  destruct (is_mine a) eqn:Em; [|done]. by injection E as <-.
Qed.

Lemma receive_takes h blk outs : forall i rel mo, 0 <= i -> i + Zlen outs <= 2 ^ 32 ->
  Forall (fun o => exists r, txo_mine o = Ok r) outs -> (forall j, i <= j < i + Zlen outs -> mo !! txo_key h j = None) ->
  exists rel' mo', receive_map h blk i outs rel mo = Ok (rel', mo').
Proof.
  induction outs as [|o outs IH]; intros i rel mo Hi Hb HF Hno; cbn [receive_map]; [by eexists _, _|].
  rewrite Zlen_cons in Hb, Hno. pose proof (Zlen_nonneg outs). inversion_clear HF as [|? ? [[a|] Em] HF']; rewrite Em, bind_ok.
  2: { apply IH; [lia|lia|done|]. intros j Hj. apply Hno. lia. }
  pose proof (mine_is _ _ Em) as Ha. destruct (Haddr a Ha) as [s Es], (wallet_spendable_ok a Ha) as [b Eb].
  unfold new_coin. rewrite Es, bind_ok, Eb, !bind_ok, bool_decide_eq_true_2 by (apply Hno; lia). cbn [ASSERT]. rewrite bind_ok.
  apply IH; [lia|lia|done|]. intros j Hj. rewrite lookup_insert_ne; [apply Hno; lia|]. intros Eq. apply app_inv_head in Eq.
  apply le_bytes_inj in Eq; cbn in *; lia.
Qed.

Lemma process_takes mt mo h blk tx : books mt mo -> mt !! h = None -> is_uint256 h -> tx_loaded tx -> Zlen (tx_out tx) <= 2 ^ 32 ->
  Forall (fun o => exists r, txo_mine o = Ok r) (tx_out tx) -> spends_well mo tx -> exists rel mo', process_map h blk tx mo = Ok (rel, mo').
Proof.
  intros Hbk Hh Hu Hl Hn Hm [Hnd Hun]. rewrite process_map_eq by done. destruct (spend_takes (tx_in tx) false mo Hnd Hun) as (r1 & mo1 & E1).
  rewrite E1, bind_ok. destruct (spend_map_spec _ _ _ _ _ E1) as (_ & _ & Hval).
  apply receive_takes; [lia|lia|done|]. intros j _. destruct (mo1 !! txo_key h j) as [e|] eqn:Ee; [|done].
  destruct (Hval _ _ Ee) as (e0 & E0 & _). by rewrite (books_fresh mt mo) in E0.
Qed.

Lemma export_takes env d mt mo : ledger d mt mo -> can_show (env_blockStore env) mt -> exists l, txdb_export_tx_info env d = Ok l.
Proof.
  intros [[Ht Ho] Hbk] Hkn. unfold txdb_export_tx_info. destruct (env_ui env); cbn [negb]; [|by eexists].
  destruct (rep_entries _ _ _ Ht) as (l & Hl & HF). unfold t_for_each.
  assert (E : forall acc, exists r, fold_entries (txdb_export_tx_cb env d) (t_entries (hash_tx d)) acc = Ok r); [|destruct (E []) as [r ->]; by eexists].
  assert (Hin : forall x, x ∈ l -> mt !! x.1 = Some x.2) by (intros [k te] Hx; rewrite Hl in Hx; by apply elem_of_map_to_list in Hx).
  clear Hl. induction HF as [|[k p] [k' te] es l [Ek Ee] _ IH]; intros acc; cbn [fold_entries]; [by eexists|]. cbn [fst snd] in *. subst k'.
  pose proof (Hin (k, te) (list_elem_of_here _ _)) as Hmt. cbn [fst snd] in Hmt.
  assert (Ec : exists r, txdb_export_tx_cb env d k p acc = Ok r).
  { unfold txdb_export_tx_cb. rewrite (obj_load_ok _ _ _ Ee), bind_ok. destruct (te_relevant te) eqn:Er; cbn [negb]; [|by eexists].
    destruct (Hkn _ _ Hmt Er) as [[z Ez] Hs]. destruct (bk_tx _ _ Hbk _ _ Hmt) as [Hu Hld]. rewrite (Zlen_32 _ Hu). cbn [ASSERT Z.eqb Pos.eqb]. rewrite bind_ok.
    pose proof Hld as ([Hi Hoc] & _). destruct (credit_total _ (all_mine _ Hs)) as [c Hc].
    rewrite (get_tx_credit_ok _ _ _ (first_n_all _ _ Hoc) Hc), bind_ok, (get_tx_debit_ok d mo _ _ Ho (first_n_all _ _ Hi)), bind_ok.
    destruct (negb (uint256_iszero (Some (te_blkHash te)))); [rewrite Ez|]; rewrite bind_ok; by eexists. }
  destruct Ec as [r ->]. rewrite bind_ok. apply IH. intros x Hx. apply Hin. by right.
Qed.
(** The key of a record fits, whatever the number. *)
Lemma save_takes blk h ts buf d : is_uint256 h -> is_uint256 (default uint256_zero_out blk) -> Zlen buf < 2 ^ 32 ->
  exists e x, txdb_save_tx blk h ts buf d = Ok (e, with_db x d).
Proof.
  intros Hu Hb Hl. pose proof (Zlen_nonneg buf). unfold txdb_save_tx. cbv zeta. unfold uint256_to_str.
  rewrite uint256_snprintf_reverse_spec, bind_ok by (done || lia). unfold txdb_serialize_tx_key. cbv zeta. set (s := take 255 _ ++ [x00]).
  assert (Hs : Zlen s <= 256) by (unfold s, Zlen; rewrite length_app, length_take; cbn [length]; lia).
  destruct (writes_bytes s (Zlen s) eq_refl buff_alloc) as (b1 & E1 & _); [apply gwf_alloc|change (b_idx buff_alloc) with 0; unfold size_max; lia|].
  rewrite E1, !bind_ok. unfold txdb_serialize_tx_data. cbn [sd_blkHash sd_timestamp sd_len sd_buf].
  assert (Hw : writes (_ ← serialize_uint256 (default uint256_zero_out blk); _ ← serialize_uint64 ts; _ ← serialize_varint (Zlen buf);
    serialize_bytes (Some buf) (Zlen buf)) (default uint256_zero_out blk ++ le_bytes 8 ts ++ varint_bytes (Zlen buf) ++ buf)).
  { apply writes_bind; [by apply writes_uint256|]. apply writes_bind; [apply writes_int|]. apply writes_bind; [apply writes_varint|by apply writes_bytes]. }
  destruct (Hw buff_alloc) as (b2 & E2 & _); [apply gwf_alloc| |].
  { zlen. pose proof (Zlen_varint_bytes (Zlen buf)). rewrite (Zlen_32 _ Hb). change (b_idx buff_alloc) with 0. unfold size_max. lia. }
  rewrite E2, !bind_ok. destruct (leveldb_put _ _ _) as [e x]. by eexists _, _.
Qed.

Lemma remember_takes env ts buf h blk d mt mo tx : ledger d mt mo -> mt !! h = None -> is_uint256 h -> is_uint256 blk -> room mt mo buf ->
  received buf tx -> Forall script_reads (tx_out tx) -> spends_well mo tx -> can_show (env_blockStore env) mt ->
  (exists z, blockstore_get_block_height (env_blockStore env) blk = Ok z) -> exists r, txdb_remember_tx env false ts buf h (Some blk) d = Ok r.
Proof.
  intros [Hrep Hbk] Hh Hu Hb [Hst Hso] Hrcv Hse Hsp Hshow Hht. pose proof (Zlen_nonneg buf). destruct (received_loaded buf tx) as [Hl Hn]; [lia|done|].
  destruct (add_ok buf tx h (Some blk) ts d mt mo Hrep Hh Hst Hrcv) as (p & d1 & Ea & [Ht1 Ho1] & El & Ep & _). pose proof (all_mine _ Hse) as Hm.
  unfold txdb_remember_tx. rewrite Ea, bind_ok, (obj_load_ok _ _ _ Ep), bind_ok. cbn [te_tx te_relevant].
  destruct (process_takes mt mo h (Some blk) tx Hbk Hh Hu Hl ltac:(lia) Hm Hsp) as (rel & mo' & Em).
  pose proof (process_refines h (Some blk) tx d1 mo Ho1 ltac:(lia)) as Hp. rewrite Em in Hp. destruct Hp as (d2 & E2 & Ho2 & S1 & S2 & _).
  rewrite E2, bind_ok. pose proof (books_process _ _ _ _ _ blk ts _ _ Hbk Hh Hu Hl Em) as Hbk'. destruct rel; cbn [negb]; [|by eexists].
  set (te := TxEntry tx blk ts true) in *. change (set_relevant _) with te. set (d3 := with_txes (<[p := te]> (txes d2)) d2).
  destruct (save_takes (Some blk) h ts buf d3 Hu Hb ltac:(lia)) as (e & x & Es). rewrite Es, bind_ok.
  assert (Hled : ledger d3 (<[h := te]> mt) mo').
  { split; [|done]. split; [|done]. cbn. rewrite S1, S2. rewrite <- (insert_insert_eq mt h te (TxEntry tx blk ts false)). by apply rep_update. }
  set (d4 := if e then with_db x d3 else with_tx_seq (wrap64 (tx_seq (with_db x d3) + 1)) (with_db x d3)).
  assert (Hled4 : ledger d4 (<[h := te]> mt) mo') by (unfold d4; destruct e; revert Hled; by apply ledger_same).
  destruct (export_takes env d4 _ _ Hled4) as [l Ex]; [|rewrite Ex, bind_ok].
  { intros h' te' [[<- <-]|[_ Hm']]%lookup_insert_Some Hr; [by split|by eapply Hshow]. }
  pose proof Hl as ([Hi Hoc] & _). destruct (credit_total _ Hm) as [c Hc]. destruct (env_ready env); [|rewrite bind_ok; by eexists].
  rewrite (get_tx_credit_ok _ _ _ (first_n_all _ _ Hoc) Hc), bind_ok. destruct Hled4 as [[_ Ho4] _].
  rewrite (get_tx_debit_ok d4 mo' _ _ Ho4 (first_n_all _ _ Hi)), !bind_ok. by eexists.
Qed.

Lemma handle_takes env blk buf d mt mo : ledger d mt mo -> room mt mo buf -> in_store (env_blockStore env) blk -> takes_tx blk buf mt mo ->
  can_show (env_blockStore env) mt -> exists r, txdb_handle_tx env blk buf d = Ok r.
Proof.
  intros Hl Hroom [[Hb Hz] [t Et] Hht] [Hhz Htk] Hshow. unfold txdb_handle_tx. pose proof (hash256_calc_length buf) as Hu. cbv zeta.
  set (h := hash256_calc buf) in *. rewrite (has_tx_ok _ _ _ _ Hl), bind_ok, Hz. cbn [negb]. unfold txdb_confirm_one_tx. rewrite Hz, Hhz.
  cbn [negb ASSERT]. rewrite !bind_ok. pose proof Hl as [[Ht _] Hbk]. unfold txdb_get_tx_entry.
  destruct (rep_lookup _ _ _ h Ht) as ([p|] & El & Hp); rewrite El, bind_ok.
  - destruct Hp as [Ep [te Ete]]. rewrite Ete in *. rewrite (obj_load_ok _ _ _ Ep), bind_ok. rewrite bool_decide_eq_true_2 by by eexists.
    destruct (te_relevant te) eqn:Er; cbn [negb].
    + rewrite (Htk eq_refl), Hz. cbn [negb]. unfold uint256_issame. rewrite bool_decide_eq_true_2 by done. cbn [ASSERT]. rewrite !bind_ok. by eexists.
    + unfold txdb_remove_from_hashtable, txdb_get_tx_entry. rewrite El, bind_ok, (obj_load_ok _ _ _ Ep), bind_ok, Er.
      destruct (rep_remove _ _ _ h Ht) as (t' & Er' & _). rewrite Er', !bind_ok. by eexists.
  - rewrite Hp in *. rewrite bind_ok, bool_decide_eq_false_2 by by intros [? ?]. rewrite Et, bind_ok. destruct Htk as (tx & Hrcv & Hse & Hsp).
    by apply (remember_takes env t buf h blk d mt mo tx).
Qed.

(** What is left of it after a transaction. *)
Lemma can_show_handled bs blk buf mt mo rel mt' mo' : in_store bs blk -> takes_tx blk buf mt mo -> can_show bs mt ->
  handled blk (hash256_calc buf) buf mt mo rel mt' mo' -> can_show bs mt'.
Proof.
  intros [[_ Hz] _ Hht] [_ Htk] Hshow Hh. unfold handled in Hh. destruct (mt !! hash256_calc buf) as [te|] eqn:E.
  - destruct Hh as (_ & _ & ->). rewrite Hz. unfold confirm_map. rewrite E. destruct (te_relevant te) eqn:Er; cbn [negb].
    + rewrite (Htk eq_refl), Hz. done.
    + intros h' te' [_ Hm]%lookup_delete_Some. by apply (Hshow h' te').
  - destruct Hh as (tx & ts & Hrcv & _ & ->). destruct Htk as (tx' & [b' Hrcv'] & Hse & _). destruct Hrcv as [b Hrcv].
    rewrite Hrcv in Hrcv'. injection Hrcv' as <- <-. intros h' te' [[<- <-]|[_ Hm]]%lookup_insert_Some Hr; [by split|by apply (Hshow h' te')].
Qed.
End db_takes.

(** The scripts that can be looked at. *)
Lemma script_reads_unless `{Malloc} `{Sha256} (o : btc_msg_tx_out) : tx_out_loaded o -> to_scriptLength o < 2 ^ 62 ->
  (forall pre hdr n, to_scriptPubKey o = Some (pre ++ hdr) -> ~ push_header hdr n) -> script_reads o.
Proof.
  intros [_ (s & Es & El)] Hl Hn. unfold script_reads. rewrite Es, <- El in *. pose proof (script_parse_pubkey_hash_cases s Hl) as Hp.
  destruct (script_parse_pubkey_hash (Some s) (Zlen s)) as [[e h]|[]]; [by eexists| |done].
  destruct Hp as (pre & hdr & n & -> & Hp). by destruct (Hn pre hdr n).
Qed.

(** ** The wallet takes them *)

Section wallet_takes.
Context `{Malloc} `{C : Secp256k1} `{S256 : Sha256} `{EvpCipher} `{BN : BigNum} `{TK : Table wallet_key} `{T : Table positive} `{DB : LevelDb}.
Implicit Types w : wallet (DB := txdb).
Implicit Types m : gmap (list byte) wallet_key.
Implicit Types mt : gmap (list byte) tx_entry.
Implicit Types mo : gmap (list byte) txo_entry.

(** The keys of the wallet have addresses. *)
Lemma api_address w m : keys_ok (wl_hash_keys w) m -> forall h, is_mine (WalletApi := wallet_api w) h = true ->
  exists a, b58_pubkey_from_uint160 h = Ok a.
Proof.
  intros Hk h Hm. cbn in Hm. rewrite (proj2 (mine_of_ok w m h Hk)) in Hm. apply bool_decide_eq_true in Hm as [wkey Em].
  destruct Hk as (_ & He & _). destruct (He _ _ Em) as [(_ & _ & _ & Ea & _) _]. by eexists.
Qed.

Lemma wallet_handle_takes env blk buf w m d mt mo : wallet_ok w m -> wallet_books w d mt mo -> room mt mo buf ->
  in_store (env_blockStore env) blk -> takes_tx blk buf mt mo -> can_show (env_blockStore env) mt ->
  exists err w' rel d' mt' mo', wallet_handle_tx env blk buf w = Ok (err, w') /\ wallet_ok w' m /\ wallet_api w' = wallet_api w /\
    wallet_books w' d' mt' mo' /\ handled (H2 := wallet_api w) blk (hash256_calc buf) buf mt mo rel mt' mo'.
Proof.
  intros Hw Hb Hroom Hin Htk Hshow. pose proof Hb as [Ed Hl]. pose proof Hw as [Hk Hc].
  destruct (handle_takes (H2 := wallet_api w) (api_address w m Hk) env blk buf d mt mo Hl Hroom Hin Htk Hshow) as ([[err rel] d1] & E1).
  assert (E : exists r, wallet_handle_tx env blk buf w = Ok r).
  { unfold wallet_handle_tx. rewrite Ed, E1, bind_ok. cbv zeta. destruct (negb err && rel); [|by eexists].
    destruct (handle_ledger _ _ _ _ _ _ _ _ _ Hl Hroom E1) as (mt' & mo' & [[_ Ho] _] & _). rewrite (get_balance_ok d1 mo' Ho), bind_ok. by eexists. }
  destruct E as [[e w'] E]. destruct (wallet_handle_ok env blk buf w d mt mo e w' Hb Hroom E) as (rel' & d' & mt' & mo' & _ & Ew & Hb' & Hh).
  exists e, w', rel', d', mt', mo'. split; [exact E|]. split; [rewrite Ew; exact Hw|]. split; [apply wallet_api_keys; by rewrite Ew|]. by split.
Qed.
End wallet_takes.
