(* ===== verification/Peers.v ===== *)
(** * The application and its peers (core/bitc.h, core/peergroup.h, core/peer.c)

    The state of the program around the group of peers, in one record, and what
    is sent to a peer: every message is crafted (BtcMessage.v), put in [sendBuf]
    and queued on the socket of the peer. *)
From Stdlib Require Import Strings.String.
From S2P Require Export Records Errno AddrBook PeerStats CfHeaderStore BlockChain BtcMessage Gcs Txdb.

(** ** Constants *)

Definition BTC_SERVICE_NODE_NETWORK : Z := Z.shiftl 1 0.
Definition BTC_SERVICE_NODE_COMPACT_FILTERS : Z := Z.shiftl 1 6.
Definition BTC_SERVICE_NODE_NETWORK_LIMITED : Z := Z.shiftl 1 10.
Definition BTC_CFILTER_TYPE_BASIC : Z := 0x00.

Inductive bitc_state : Set :=
| BITC_STATE_STARTING | BITC_STATE_UPDATE_HEADERS | BITC_STATE_UPDATE_TXDB | BITC_STATE_READY | BITC_STATE_EXITING.
#[export] Instance bitc_state_eq_dec : EqDecision bitc_state.
Proof. solve_decision. Defined.

(** ** The application *)

(** [stopAfterHeight] is 0 without the option. [clock] is what the successive
    readings of the clock give ([time_get()], in microseconds), [ticks] their
    number; [seconds] is [time(NULL)]. [inuse], [testing] and [broadcast] are what
    the database asks (Txdb.v). *)
Record app : Type := App {
  state : bitc_state; stop : bool; updateAndExit : bool; syncAndExit : bool; testnet : bool; stopAfterHeight : Z;
  clock : nat -> Z; ticks : nat; seconds : Z; inuse : bool; testing : bool; broadcast : bool }.
#[export] Instance app_eta : Eta app := fun r =>
  App (state r) (stop r) (updateAndExit r) (syncAndExit r) (testnet r) (stopAfterHeight r)
    (clock r) (ticks r) (seconds r) (inuse r) (testing r) (broadcast r).

(** ** The group of peers *)

(** A peer is known by the address of its struct. *)
Record cf_pending_block : Type := CfPending {
  cp_hash : uint256; cp_height : Z; cp_requestedFrom : positive; cp_requestTS : Z }.

Record cf_segment : Type := CfSegment {
  startHeight : Z; endHeight : Z; remaining : Z; assignedPeer : option positive; avoidPeer : option positive;
  progressTS : Z; assignedTS : Z; done : bool }.
#[export] Instance cf_segment_eta : Eta cf_segment := fun r =>
  CfSegment (startHeight r) (endHeight r) (remaining r) (assignedPeer r) (avoidPeer r) (progressTS r) (assignedTS r) (done r).

(** The scan of the filters. [cfSegCount] is the length of [cfSeg],
    [cfBlocksPending] that of [cfPending]. *)
Record cfscan : Type := CfScan {
  cfScanFloor : Z; cfTipHeight : Z; cfVerified : Z; cfStopRequested : bool; cfSeg : option (list cf_segment);
  cfDoneContig : Z; cfPending : list cf_pending_block; cfPendingCap : Z }.
#[export] Instance cfscan_eta : Eta cfscan := fun r =>
  CfScan (cfScanFloor r) (cfTipHeight r) (cfVerified r) (cfStopRequested r) (cfSeg r) (cfDoneContig r) (cfPending r) (cfPendingCap r).

Definition cfSegCount (r : cfscan) : Z := Zlen (default [] (cfSeg r)).
Definition cfBlocksPending (r : cfscan) : Z := Zlen (cfPending r).

(** The checkpoints and the filter headers. *)
Record cfsync : Type := CfSync {
  cfhdrStartHeight : Z; cfhdrTipHeight : Z; cfhdrPrevHeader : uint256; cfcheckptExpected : option (list uint256);
  cfcheckptCount : Z; cfcheckptPeers : Z; cfcheckptAgreed : Z; cfcheckptVerified : bool; cfhdrSyncStarted : bool }.
#[export] Instance cfsync_eta : Eta cfsync := fun r =>
  CfSync (cfhdrStartHeight r) (cfhdrTipHeight r) (cfhdrPrevHeader r) (cfcheckptExpected r)
    (cfcheckptCount r) (cfcheckptPeers r) (cfcheckptAgreed r) (cfcheckptVerified r) (cfhdrSyncStarted r).

(** The counters of the download. *)
Record download : Type := Download {
  numFetched : Z; numToFetch : Z; numHdrFetched : Z; numHdrToFetch : Z; heightTarget : Z; firstConnectTS : Z; lastProgressTS : Z }.
#[export] Instance download_eta : Eta download := fun r =>
  Download (numFetched r) (numToFetch r) (numHdrFetched r) (numHdrToFetch r) (heightTarget r) (firstConnectTS r) (lastProgressTS r).

(** A transaction to send until it expires. *)
Record tx_broadcast : Type := TxBroadcast { txb_buf : buff; txb_expiry : Z }.

(** ** A peer *)

(** What a peer sees of its socket, which is that of Netasync.v: whether it is
    connecting, its error, if any, what it was given to send, and how many bytes
    it is to receive, with those it has received of them. NetConnect.v shows that
    connecting comes to one of the outcomes of [link_connect], and NetSend.v that
    what is sent is a queue. *)
Record peer_link : Type := Link {
  connect_async : bool; sock_err : Z; sk_sent : list (list byte); sk_recv : option (Z * list byte) }.
#[export] Instance peer_link_eta : Eta peer_link := fun r =>
  Link (connect_async r) (sock_err r) (sk_sent r) (sk_recv r).

(** The names of the peer, which are printed only, are left out; its place in
    the list of peers is in [peer_list]. *)
Record peer : Type := Peer {
  connected : bool; got_version : bool; got_verack : bool; startingHeight : Z; protversion : Z; services : Z;
  pingNonce : Z; last_ts : Z; connectStartTS : Z; sendBuf : option buff; sock : peer_link; paddr : positive;
  recvMsgHdr : bool; msgHdr : btc_msg_header; recvBuf : buff }.
#[export] Instance peer_eta : Eta peer := fun r =>
  Peer (connected r) (got_version r) (got_verack r) (startingHeight r) (protversion r) (services r)
    (pingNonce r) (last_ts r) (connectStartTS r) (sendBuf r) (sock r) (paddr r) (recvMsgHdr r) (msgHdr r) (recvBuf r).

(** ** What the machine answers *)

(** [rnd] is what the successive calls of random() give, [draws] their number;
    [dial] is what becomes of the connections, [dials] their number.
    [connectHost] is whether there is the option. *)
Record network : Type := Network {
  connectHost : bool; rnd : nat -> Z; draws : nat; dial : nat -> connect_outcome; dials : nat }.
#[export] Instance network_eta : Eta network := fun r => Network (connectHost r) (rnd r) (draws r) (dial r) (dials r).

(** ** The wallet, to the peers *)

(** What the group asks the wallet: the scripts to look for, the transactions of a
    block, whether it has a transaction, the birth. [scripts_are] is its promise. The
    wallet of Wallet.v keeps it ([CfWallet.program_wallet]). *)
Class PgWallet `{Sha256} `{Table positive} : Type := {
  pgw : Type;
  wallet_get_filter_scripts : pgw -> res (list (list byte) * pgw);
  wallet_handle_tx : bitc_env -> uint256 -> list byte -> pgw -> res (bool * pgw);
  wallet_has_tx : pgw -> uint256 -> res bool;
  wallet_get_birth : Z -> pgw -> res Z;
  scripts_are : pgw -> list (list byte) -> Prop;
  scripts_law : forall w l, scripts_are w l ->
    exists l' w', wallet_get_filter_scripts w = Ok (l', w') /\ l' ≡ₚ l /\ scripts_are w' l }.

Section peers.
Context `{Malloc} `{Sha256} `{T : Table positive} `{W : !PgWallet}.

(** [hash_broadcast] holds the transactions to send, by their hash; [cmdStats]
    counts the messages sent and received of each type. *)
Record peergroup : Type := PeerGroup {
  peer_list : list positive; downloadPeer : option positive; lastFilteredBlockReq : uint256;
  configNeedWrite : bool; lastBlk : uint256; hash_broadcast : table; txbs : gmap positive tx_broadcast;
  dl : download; active : Z; maxActive : Z; minActiveInit : Z; cfStore : option cfheaderstore; peerStats : option peerstats;
  scan : cfscan; sync : cfsync; cmdStats : btc_msg_type -> Z * Z }.
#[export] Instance peergroup_eta : Eta peergroup := fun r =>
  PeerGroup (peer_list r) (downloadPeer r) (lastFilteredBlockReq r) (configNeedWrite r) (lastBlk r) (hash_broadcast r) (txbs r)
    (dl r) (active r) (maxActive r) (minActiveInit r) (cfStore r) (peerStats r) (scan r) (sync r) (cmdStats r).

Record world : Type := World {
  btc : app; pg : peergroup; peers : gmap positive peer; book : addrbook; blockStore : blockstore; wallet : pgw;
  net : network }.
#[export] Instance world_eta : Eta world := fun r =>
  World (btc r) (pg r) (peers r) (book r) (blockStore r) (wallet r) (net r).

(** ** Access *)

Definition get : ST world world := fun w => Ok (w, w).
Definition on_btc (f : app -> app) : ST world unit := fun w => Ok (tt, w <| btc ::= f |>).
Definition on_pg (f : peergroup -> peergroup) : ST world unit := fun w => Ok (tt, w <| pg ::= f |>).
Definition on_scan (f : cfscan -> cfscan) : ST world unit := on_pg (fun g => g <| scan ::= f |>).
Definition on_sync (f : cfsync -> cfsync) : ST world unit := on_pg (fun g => g <| sync ::= f |>).
Definition on_dl (f : download -> download) : ST world unit := on_pg (fun g => g <| dl ::= f |>).
(** Code of another component on its part of the state. *)
Definition in_bs {A} (m : ST blockstore A) : ST world A := fun w =>
  '(a, bs) ← m (blockStore w); Ok (a, w <| blockStore := bs |>).
Definition ask_bs {A} (m : blockstore -> res A) : ST world A := fun w => a ← m (blockStore w); Ok (a, w).
Definition in_stats (m : option peerstats -> res (option peerstats)) : ST world unit := fun w =>
  s ← m (peerStats (pg w)); Ok (tt, w <| pg ::= fun g => g <| peerStats := s |> |>).

(** [p->field], and an assignment to a peer. *)
Definition peer_load (p : positive) : ST world peer := fun w => pe ← obj_load (peers w) p; Ok (pe, w).
Definition on_peer (p : positive) (f : peer -> peer) : ST world unit := fun w =>
  pe ← obj_load (peers w) p; Ok (tt, w <| peers := <[p := f pe]> (peers w) |>).

Definition when (c : bool) (m : ST world unit) : ST world unit := if c then m else mret tt.

(** ** The program *)

Definition time_get : ST world Z := fun w =>
  Ok (clock (btc w) (ticks (btc w)), w <| btc ::= fun b => b <| ticks ::= S |> |>).
Definition bitc_req_stop : ST world unit := on_btc (fun b => b <| stop := true |>).
Definition bitc_state_ready (b : app) : bool := bool_decide (state b = BITC_STATE_READY).
Definition bitc_state_updating_txdb (b : app) : bool := bool_decide (state b = BITC_STATE_UPDATE_TXDB).
Definition bitc_exiting (b : app) : bool := bool_decide (state b = BITC_STATE_EXITING).

(** What the transaction database is given. *)
Definition env_of (w : world) : bitc_env :=
  let b := btc w in BitcEnv (seconds b) (inuse b) (bitc_state_ready b) (testing b) (broadcast b) (blockStore w).

(** ** What a peer is *)

Definition peer_is_connected (p : positive) : ST world bool := pe ← peer_load p; mret (connected pe && got_verack pe).
Definition peer_get_services (p : positive) : ST world Z := pe ← peer_load p; mret (services pe).
Definition peer_get_ip (p : positive) : ST world (list byte) := fun w =>
  pe ← obj_load (peers w) p; a ← obj_load (ab_heap (book w)) (paddr pe); Ok (a_ip (pa_addr a), w).
(** With [pinfo] NULL: 0 or 1. *)
Definition peer_getinfo (p : positive) : ST world bool := pe ← peer_load p; mret (negb (got_verack pe) || negb (connected pe)).

(** ** Sending *)

Definition peergroup_send_stats_inc (type : btc_msg_type) : ST world unit :=
  on_pg (fun g => g <| cmdStats ::= fun c t => if bool_decide (t = type) then (wrap32 ((c t).1 + 1), (c t).2) else c t |>).
Definition peergroup_recv_stats_inc (type : btc_msg_type) : ST world unit :=
  on_pg (fun g => g <| cmdStats ::= fun c t => if bool_decide (t = type) then ((c t).1, wrap32 ((c t).2 + 1)) else c t |>).

(** The buffer is queued; the result is the error of the socket, which is 0. *)
Definition link_send (buf : list byte) (s : peer_link) : res (Z * peer_link) :=
  _ ← ASSERT (negb (connect_async s));
  _ ← ASSERT (sock_err s =? 0);
  Ok (sock_err s, s <| sk_sent ::= fun l => l ++ [buf] |>).

(** Below, the result is whether there is an error. *)
Definition peer_send_msg (p : positive) (type : btc_msg_type) : ST world bool :=
  _ ← peergroup_send_stats_inc type;
  pe ← peer_load p;
  match sendBuf pe with
  | None => lift (Fault Panic)
  | Some b =>
      '(res, s) ← lift (link_send (contents b) (sock pe));
      _ ← on_peer p (fun pe => pe <| sendBuf := None |> <| sock := s |>);
      mret (negb (res =? 0))
  end.

(** A message crafted into [sendBuf], then sent. *)
Definition send_crafted (p : positive) (type : btc_msg_type) (craft : bool -> res buff) : ST world bool :=
  w ← get;
  b ← lift (craft (testnet (btc w)));
  _ ← on_peer p (fun pe => pe <| sendBuf := Some b |>);
  peer_send_msg p type.

Definition peer_send_getblocks (p : positive) : ST world bool :=
  hashes ← ask_bs blockstore_get_locator_hashes;
  send_crafted p BTC_MSG_GETBLOCKS (fun testnet =>
    btcmsg_craft_getblocks testnet (if decide (hashes = []) then None else Some hashes) (Zlen hashes)).

Definition peer_send_getheaders (p : positive) : ST world bool :=
  w ← get;
  hashes ← ask_bs blockstore_get_locator_hashes;
  send_crafted p BTC_MSG_GETHEADERS (fun testnet =>
    btcmsg_craft_getheaders testnet hashes (Zlen hashes) (Some (blockstore_get_genesis (blockStore w)))).

Definition peer_send_getdata (p : positive) (type : Z) (hash : list uint256) : ST world bool :=
  _ ← lift (ASSERT (negb (Zlen hash =? 0)));
  _ ← lift (ASSERT (Zlen hash <=? BTC_MSG_GETDATA_MAX_ENTRIES));
  send_crafted p BTC_MSG_GETDATA (fun testnet => btcmsg_craft_getdata testnet type hash (Zlen hash)).

Definition peer_send_getcfilters (p : positive) (filterType startHeight : Z) (stopHash : uint256) : ST world bool :=
  send_crafted p BTC_MSG_GETCFILTERS (fun testnet =>
    btcmsg_craft_getcfilters testnet (GetCFilters filterType (wrap32 startHeight) stopHash)).
Definition peer_send_getcfheaders (p : positive) (filterType startHeight : Z) (stopHash : uint256) : ST world bool :=
  send_crafted p BTC_MSG_GETCFHEADERS (fun testnet =>
    btcmsg_craft_getcfheaders testnet (GetCFHeaders filterType (wrap32 startHeight) stopHash)).
Definition peer_send_getcfcheckpt (p : positive) (filterType : Z) (stopHash : uint256) : ST world bool :=
  send_crafted p BTC_MSG_GETCFCHECKPT (fun testnet => btcmsg_craft_getcfcheckpt testnet (GetCFCheckpt filterType stopHash)).

Definition peer_send_mempool (p : positive) : ST world bool := send_crafted p BTC_MSG_MEMPOOL btcmsg_craft_mempool.
Definition peer_send_getaddr (p : positive) : ST world bool := send_crafted p BTC_MSG_GETADDR btcmsg_craft_getaddr.

Definition peer_send_ping (p : positive) : ST world bool :=
  pe ← peer_load p;
  w ← get;
  b ← lift (btcmsg_craft_ping (testnet (btc w)) (protversion pe) (pingNonce pe));
  _ ← on_peer p (fun pe => pe <| sendBuf := Some b |> <| pingNonce := wrap64 (pingNonce pe + 1) |>);
  peer_send_msg p BTC_MSG_PING.

(** The inv of a buffer: there must be nothing in [sendBuf]. *)
Definition peer_send_inv (p : positive) (buf : buff) : ST world bool :=
  pe ← peer_load p;
  _ ← lift (ASSERT (bool_decide (sendBuf pe = None)));
  if negb (got_verack pe) then mret false else
  '(_, b) ← lift (buff_dup (Some buf));
  _ ← on_peer p (fun pe => pe <| sendBuf := Some b |>);
  peer_send_msg p BTC_MSG_INV.

(** ** When the program is ready *)

Definition peer_tx_broadcast (p : positive) (hash : uint256) : ST world bool :=
  w ← get;
  bufInv ← lift (btcmsg_craft_inv (testnet (btc w)) INV_TYPE_MSG_TX [hash] 1);
  peer_send_inv p bufInv.

Fixpoint peer_broadcast_loop (p : positive) (l : list (list byte * positive)) : ST world unit :=
  match l with
  | [] => mret tt
  | (hash, _) :: l =>
      _ ← lift (ASSERT (Zlen hash =? 32));
      _ ← peer_tx_broadcast p hash;
      peer_broadcast_loop p l
  end.
Definition peer_broadcast_all_tx (p : positive) : ST world unit :=
  w ← get; peer_broadcast_loop p (t_entries (hash_broadcast (pg w))).

Definition peer_on_ready (p : positive) : ST world bool :=
  res ← peer_send_mempool p;
  if res : bool then mret res else
  _ ← peer_broadcast_all_tx p;
  peer_send_getblocks p.
Definition peer_on_ready_li (p : positive) : ST world bool :=
  pe ← peer_load p;
  if negb (got_verack pe) then mret false else peer_on_ready p.

(** [now] is a reading of the clock. *)
Definition peer_check_liveness (p : positive) (now : Z) : ST world bool :=
  pe ← peer_load p;
  _ ← lift (ASSERT (last_ts pe <? now));
  if negb (connected pe) || (last_ts pe =? 0) || (now <? last_ts pe + 60 * 1000 * 1000) then mret false else peer_send_ping p.
End peers.
