(* ===== verification/PeerGroup.v ===== *)
(** * The group of peers (core/peergroup.c)

    The synchronisation: headers from one peer, checkpoints and filter headers,
    then the scan of the compact filters by all the peers, in chunks of 1000
    heights, and the blocks whose filters match. *)
From S2P Require Export Peers.

Definition SYNC_STALL_USEC : Z := 10 * 1000 * 1000.
Definition CFILTER_BATCH : Z := 1000.
Definition CFHEADER_BATCH : Z := 2000.
Definition BIP157_CHECKPOINT_INTERVAL : Z := 1000.
Definition MAX_INFLIGHT_CHUNKS : Z := 64.
Definition INT_MAX : Z := 2 ^ 31 - 1.

(** The chunk of a height: the division of C goes towards zero. *)
Definition CF_CHUNK_INDEX (s : cfscan) (height : Z) : Z := Z.quot (height - cfScanFloor s) CFILTER_BATCH.

Section peergroup.
Context `{Malloc} `{Sha256} `{T : Table positive} `{W : !PgWallet}.

(** ** Transactions to send *)

Definition peergroup_stop_broadcast_tx (hash : uint256) : ST world unit := fun w =>
  let g := pg w in
  o ← t_lookup (hash_broadcast g) hash;
  match o with
  | None => Ok (tt, w)
  | Some p =>
      '(_, t) ← t_remove (hash_broadcast g) hash;
      Ok (tt, w <| pg := g <| hash_broadcast := t |> <| txbs ::= delete p |> |>)
  end.

Definition peergroup_lookup_broadcast_tx (hash : uint256) : ST world (option buff) := fun w =>
  o ← t_lookup (hash_broadcast (pg w)) hash;
  match o with
  | None => Ok (None, w)
  | Some p => txb ← obj_load (txbs (pg w)) p; '(_, b) ← buff_dup (Some (txb_buf txb)); Ok (Some b, w)
  end.

Definition peergroup_add_tx_broadcast_hash (buf : buff) (expiry : Z) (hash : uint256) : ST world unit := fun w =>
  let g := pg w in
  '(_, b) ← buff_dup (Some buf);
  let p := obj_new (txbs g) in
  '(s, t) ← t_insert (hash_broadcast g) hash p;
  Ok (tt, w <| pg := g <| hash_broadcast := t |> <| txbs ::= if s : bool then <[p := TxBroadcast b expiry]> else id |> |>).

(** The result of the last send. *)
Fixpoint broadcast_loop (l : list positive) (bufInv : buff) (res : bool) : ST world bool :=
  match l with [] => mret res | p :: l => res ← peer_send_inv p bufInv; broadcast_loop l bufInv res end.
Definition peergroup_broadcast_inv (bufInv : buff) : ST world bool :=
  w ← get; broadcast_loop (peer_list (pg w)) bufInv false.

Definition peergroup_tx_broadcast (hash : uint256) : ST world bool :=
  w ← get;
  bufInv ← lift (btcmsg_craft_inv (testnet (btc w)) INV_TYPE_MSG_TX [hash] 1);
  peergroup_broadcast_inv bufInv.

Definition peergroup_new_tx_broadcast (buf : buff) (expiry : Z) (hash : uint256) : ST world bool :=
  _ ← peergroup_add_tx_broadcast_hash buf expiry hash;
  peergroup_tx_broadcast hash.

(** ** The resume pointer and the state *)

Definition peergroup_set_lastblk (hash : uint256) : ST world unit :=
  _ ← lift (ASSERT (negb (uint256_iszero (Some hash))));
  w ← get;
  if uint256_issame hash (lastBlk (pg w)) then mret tt else
  on_pg (fun g => g <| configNeedWrite := true |> <| lastBlk := hash |>).

Definition peergroup_get_lastblk (w : world) : uint256 := lastBlk (pg w).

Fixpoint count_connected (l : list positive) (n : Z) : ST world Z :=
  match l with
  | [] => mret n
  | p :: l => res ← peer_getinfo p; count_connected l (if res : bool then n else n + 1)
  end.
Definition peergroup_count_connected : ST world Z := w ← get; count_connected (peer_list (pg w)) 0.

(** The peers as they are shown: each has its place in an array of [active]. *)
Fixpoint update_info_loop (l : list positive) (n : Z) : ST world Z :=
  match l with
  | [] => mret n
  | p :: l =>
      w ← get;
      _ ← lift (ASSERT (n <? active (pg w)));
      r ← peer_getinfo p;
      if r : bool then update_info_loop l n else
      _ ← lift (ASSERT (n + 1 <=? active (pg w)));
      update_info_loop l (n + 1)
  end.
Definition peergroup_update_info : ST world unit :=
  w ← get;
  if negb (inuse (btc w)) then mret tt else _ ← update_info_loop (peer_list (pg w)) 0; mret tt.

(** What the interface is shown is left out. *)
Definition peergroup_download_progress : ST world unit :=
  now ← time_get; on_dl (fun d => d <| lastProgressTS := now |>).

Fixpoint on_ready_loop (l : list positive) : ST world unit :=
  match l with [] => mret tt | p :: l => _ ← peer_on_ready_li p; on_ready_loop l end.
Definition peergroup_on_ready : ST world unit := w ← get; on_ready_loop (peer_list (pg w)).

Definition peergroup_download_complete : ST world unit :=
  w ← get;
  if negb (bitc_state_updating_txdb (btc w)) then mret tt else
  _ ← peergroup_download_progress;
  if updateAndExit (btc w) then bitc_req_stop else
  _ ← on_btc (fun b => b <| state := BITC_STATE_READY |>);
  peergroup_on_ready.

(** What the interface is told of the last block is looked up, and left out. *)
Definition peergroup_add_block_finalize (headerOnly : bool) : ST world unit :=
  _ ← in_bs blockstore_write_headers;
  w ← get;
  _ ← (if headerOnly then mret tt else peergroup_set_lastblk (blockstore_get_best_hash (blockStore w)));
  shown ← (if bitc_state_ready (btc w) || bitc_state_updating_txdb (btc w) then mret true else
           height ← ask_bs (fun bs => blockstore_get_height (Some bs)); mret (Z.rem height 2000 =? 0));
  when shown (_ ← ask_bs (fun bs => blockstore_get_height (Some bs)); _ ← ask_bs blockstore_get_timestamp; mret tt).

(** ** The chunks *)

(** The chunk of a height, if it is one of [cfSeg]. *)
Definition seg_at (s : cfscan) (height : Z) : option (nat * cf_segment) :=
  let idx := CF_CHUNK_INDEX s height in
  if (0 <=? idx) && (idx <? cfSegCount s) then
    match default [] (cfSeg s) !! Z.to_nat idx with Some seg => Some (Z.to_nat idx, seg) | None => None end
  else None.
Definition update_seg (i : nat) (f : cf_segment -> cf_segment) (s : cfscan) : cfscan :=
  s <| cfSeg ::= fun o => alter f i <$> o |>.

Definition grow_pending (s : cfscan) : cfscan :=
  if cfPendingCap s <=? cfBlocksPending s then s <| cfPendingCap := if cfPendingCap s =? 0 then 8 else cfPendingCap s * 2 |> else s.
Definition peergroup_add_pending_block (hash : uint256) (from : positive) : ST world unit :=
  _ ← on_scan grow_pending;
  height ← ask_bs (fun bs => blockstore_get_block_height bs hash);
  now ← time_get;
  on_scan (fun s => s <| cfPending ::= fun l => l ++ [CfPending hash height from now] |>).

(** The first entry of the hash is overwritten by the last one. *)
Fixpoint remove_pending (hash : uint256) (l : list cf_pending_block) : list cf_pending_block :=
  match l with
  | [] => []
  | p :: l =>
      if uint256_issame (cp_hash p) hash then
        match last l with Some q => q :: removelast l | None => [] end
      else p :: remove_pending hash l
  end.
Definition peergroup_remove_pending_block (hash : uint256) : ST world unit :=
  on_scan (fun s => s <| cfPending ::= remove_pending hash |>).

Definition peergroup_maybe_complete : ST world unit :=
  w ← get;
  let s := scan (pg w) in
  if negb (bitc_state_updating_txdb (btc w)) then mret tt else
  if (cfDoneContig s <? cfSegCount s) || negb (cfBlocksPending s =? 0) then mret tt else
  if uint256_issame (peergroup_get_lastblk w) (blockstore_get_best_hash (blockStore w)) then peergroup_download_complete
  else mret tt.

Definition min_pending (l : list cf_pending_block) : Z :=
  foldl (fun m p => if cp_height p <? m then cp_height p else m) INT_MAX l.

Definition peergroup_advance_lastblk : ST world unit :=
  w ← get;
  let s := scan (pg w) in
  if cfDoneContig s =? 0 then mret tt else
  match default [] (cfSeg s) !! Z.to_nat (cfDoneContig s - 1) with
  | None => lift (Fault UB)
  | Some seg =>
      let safeHeight := minimum (endHeight seg) (min_pending (cfPending s) - 1) in
      if safeHeight <? cfScanFloor s then mret tt else
      curHeight ← ask_bs (fun bs => blockstore_get_block_height bs (peergroup_get_lastblk w));
      if safeHeight <=? curHeight then mret tt else
      o ← ask_bs (fun bs => blockstore_get_block_at_height bs safeHeight);
      match o with
      | None => mret tt
      | Some (hash, _) => _ ← peergroup_set_lastblk hash; peergroup_maybe_complete
      end
  end.

Definition assigned (p : positive) (now : Z) (seg : cf_segment) : cf_segment :=
  seg <| assignedPeer := Some p |> <| avoidPeer := None |> <| remaining := endHeight seg - startHeight seg + 1 |>
    <| progressTS := now |> <| assignedTS := now |>.
(** The chunk [i] of the array. *)
Definition peergroup_assign_chunk (p : positive) (i : nat) : ST world unit :=
  w ← get;
  match default [] (cfSeg (scan (pg w))) !! i with
  | None => lift (Fault UB)
  | Some seg =>
      o ← ask_bs (fun bs => blockstore_get_block_at_height bs (endHeight seg));
      match o with
      | None => mret tt
      | Some (stopHash, _) =>
          res ← peer_send_getcfilters p BTC_CFILTER_TYPE_BASIC (startHeight seg) stopHash;
          if res : bool then mret tt else
          now ← time_get;
          on_scan (update_seg i (assigned p now))
      end
  end.

(** A chunk nobody has, for a peer that did not just fail it. *)
Definition claimable (p : positive) (seg : cf_segment) : bool :=
  bool_decide (assignedPeer seg = None) && negb (done seg) && negb (bool_decide (avoidPeer seg = Some p)).
(** A chunk somebody is at. *)
Definition in_flight (seg : cf_segment) : bool := negb (bool_decide (assignedPeer seg = None)) && negb (done seg).
Definition owned_by (p : positive) (seg : cf_segment) : bool := bool_decide (assignedPeer seg = Some p) && negb (done seg).

(** The index of the first chunk with [f]. *)
Fixpoint find_seg (f : cf_segment -> bool) (l : list cf_segment) : option nat :=
  match l with [] => None | seg :: l => if f seg then Some O else S <$> find_seg f l end.

Definition peergroup_assign_next_chunk_to (p : positive) : ST world unit :=
  w ← get;
  match find_seg (claimable p) (default [] (cfSeg (scan (pg w)))) with
  | Some i => peergroup_assign_chunk p i
  | None => mret tt
  end.

(** The loop over the peers, with the number of chunks in flight. *)
Fixpoint schedule_loop (l : list positive) (inflight : Z) : ST world unit :=
  match l with
  | [] => mret tt
  | p :: l =>
      if MAX_INFLIGHT_CHUNKS <=? inflight then mret tt else
      c ← peer_is_connected p;
      svc ← peer_get_services p;
      if negb c || (Z.land svc BTC_SERVICE_NODE_COMPACT_FILTERS =? 0) then schedule_loop l inflight else
      w ← get;
      let segs := default [] (cfSeg (scan (pg w))) in
      if existsb (owned_by p) segs then schedule_loop l inflight else
      match find_seg (claimable p) segs with
      | Some i => _ ← peergroup_assign_chunk p i; schedule_loop l (inflight + 1)
      | None => schedule_loop l inflight
      end
  end.
Definition count_inflight (segs : list cf_segment) : Z := Zlen (List.filter in_flight segs).
Definition peergroup_schedule_cfilters : ST world unit :=
  w ← get;
  match cfSeg (scan (pg w)) with
  | None => mret tt
  | Some segs => schedule_loop (peer_list (pg w)) (count_inflight segs)
  end.

(** The chunk is nobody's again, and not for [p] at once. *)
Definition requeue (p : option positive) (seg : cf_segment) : cf_segment :=
  seg <| avoidPeer := p |> <| assignedPeer := None |> <| remaining := endHeight seg - startHeight seg + 1 |>.

Definition stalled (now : Z) (seg : cf_segment) : bool :=
  in_flight seg && negb ((now <? progressTS seg) || (now - progressTS seg <? SYNC_STALL_USEC)).
(** The chunks from the index [i] on; whether one was requeued. *)
Fixpoint check_chunks_loop (now : Z) (n i : nat) (anyRequeued : bool) : ST world bool :=
  match n with
  | O => mret anyRequeued
  | S n =>
      w ← get;
      match default [] (cfSeg (scan (pg w))) !! i with
      | None => lift (Fault UB)
      | Some seg =>
          if negb (stalled now seg) then check_chunks_loop now n (S i) anyRequeued else
          match assignedPeer seg with
          | None => lift (Fault UB)
          | Some p =>
              ip ← peer_get_ip p;
              _ ← in_stats (fun o => peerstats_record_cfilter_fail o ip);
              _ ← on_scan (update_seg i (requeue (Some p)));
              check_chunks_loop now n (S i) true
          end
      end
  end.
Definition peergroup_check_pending_chunks : ST world unit :=
  now ← time_get;
  w ← get;
  match cfSeg (scan (pg w)) with
  | None => mret tt
  | Some segs => any ← check_chunks_loop now (length segs) 0 false; when any peergroup_schedule_cfilters
  end.

Definition peergroup_requeue_peer_chunks (p : positive) : ST world unit :=
  w ← get;
  match cfSeg (scan (pg w)) with
  | None => mret tt
  | Some segs =>
      _ ← on_scan (fun s => s <| cfSeg := Some (map (fun seg => if owned_by p seg then requeue (Some p) seg else seg) segs) |>);
      when (existsb (owned_by p) segs) peergroup_schedule_cfilters
  end.

(** ** The blocks that match *)

(** The peer to ask instead of [failedPeer], and whether it keeps only the last
    blocks. *)
Fixpoint best_peer (l : list positive) (failedPeer : positive) (best : option positive) (bestIsLimited : bool) :
    ST world (option positive) :=
  match l with
  | [] => mret best
  | cand :: l =>
      c ← peer_is_connected cand;
      if bool_decide (cand = failedPeer) || negb c then best_peer l failedPeer best bestIsLimited else
      svc ← peer_get_services cand;
      if Z.land svc BTC_SERVICE_NODE_NETWORK =? 0 then best_peer l failedPeer best bestIsLimited else
      let limited := negb (Z.land svc BTC_SERVICE_NODE_NETWORK_LIMITED =? 0) in
      match best with
      | None => best_peer l failedPeer (Some cand) limited
      | Some _ =>
          if bestIsLimited && negb limited then best_peer l failedPeer (Some cand) false
          else best_peer l failedPeer best bestIsLimited
      end
  end.

Fixpoint retry_loop (best : positive) (hashes : list uint256) : ST world unit :=
  match hashes with
  | [] => mret tt
  | hash :: hashes =>
      res ← peer_send_getdata best INV_TYPE_MSG_BLOCK [hash];
      _ ← when (negb res) (peergroup_add_pending_block hash best);
      retry_loop best hashes
  end.
Definition peergroup_retry_block_fetch (failedPeer : positive) (hashes : list uint256) : ST world unit :=
  w ← get;
  best ← best_peer (peer_list (pg w)) failedPeer None true;
  match best with None => mret tt | Some best => retry_loop best hashes end.

Definition expired (now : Z) (p : cf_pending_block) : bool :=
  negb ((now <? cp_requestTS p) || (now - cp_requestTS p <? SYNC_STALL_USEC)).
Fixpoint retry_expired (l : list cf_pending_block) : ST world unit :=
  match l with
  | [] => mret tt
  | p :: l =>
      _ ← peergroup_remove_pending_block (cp_hash p);
      _ ← peergroup_retry_block_fetch (cp_requestedFrom p) [cp_hash p];
      retry_expired l
  end.
(** The first 64 that expired, in two passes. *)
Definition peergroup_check_pending_blocks : ST world unit :=
  now ← time_get;
  w ← get;
  retry_expired (take 64 (List.filter (expired now) (cfPending (scan (pg w))))).

Definition peergroup_pending_blocks_cb : ST world unit :=
  w ← get;
  if bitc_exiting (btc w) then mret tt else
  _ ← peergroup_check_pending_blocks;
  peergroup_check_pending_chunks.
End peergroup.
