(* ===== verification/Sync.v ===== *)
(** * The synchronisation (core/peergroup.c)

    The phases that lead to the scan, each from the message of a peer: headers,
    the checkpoints of the filter headers, the filter headers, then the filters
    and the blocks they match. The result of a handler is whether there is an
    error; the peer is then dropped. *)
From Stdlib Require Import Strings.String.
From S2P Require Export PeerGroup ConfigMap.

Section sync.
Context `{Malloc} `{Sha256} `{T : Table positive} `{W : !PgWallet}.

Definition btc_state_is (l : list bitc_state) (w : world) : bool := bool_decide (state (btc w) ∈ l).
(** [ASSERT(btc->state == ..)]. *)
Definition assert_state (l : list bitc_state) : ST world unit := w ← get; lift (ASSERT (btc_state_is l w)).

(** ** Headers *)

Definition peergroup_download_headers (p : positive) (peerStartingHeight : Z) : ST world bool :=
  _ ← assert_state [BITC_STATE_STARTING; BITC_STATE_UPDATE_HEADERS];
  w ← get;
  let dp := downloadPeer (pg w) in
  if negb (bool_decide (dp = None)) && negb (bool_decide (dp = Some p)) then mret false else
  _ ← on_pg (fun g => g <| downloadPeer := Some p |>);
  _ ← (if heightTarget (dl (pg w)) <? peerStartingHeight then
         height ← ask_bs (fun bs => blockstore_get_height (Some bs));
         n ← lift (if numHdrToFetch (dl (pg w)) =? 0 then i32 (peerStartingHeight - height)
                   else d ← i32 (peerStartingHeight - heightTarget (dl (pg w))); i32 (numHdrToFetch (dl (pg w)) + d));
         on_dl (fun d => d <| numHdrToFetch := n |> <| heightTarget := peerStartingHeight |>)
       else mret tt);
  _ ← peergroup_download_progress;
  _ ← when (btc_state_is [BITC_STATE_STARTING] w)
        (_ ← on_btc (fun b => b <| state := BITC_STATE_UPDATE_HEADERS |>);
         w ← get;
         when (0 <? numHdrToFetch (dl (pg w))) (_ ← ask_bs blockstore_get_timestamp; mret tt));
  peer_send_getheaders p.

(** ** Filter headers *)

Definition peergroup_request_cfheaders (p : positive) : ST world bool :=
  _ ← assert_state [BITC_STATE_UPDATE_TXDB];
  w ← get;
  let s := sync (pg w) in
  if cfhdrSyncStarted s then mret false else
  _ ← on_sync (fun s => s <| cfhdrSyncStarted := true |>);
  if cfhdrTipHeight s <? cfhdrStartHeight s then _ ← peergroup_schedule_cfilters; mret false else
  limit ← lift (i32 (cfhdrStartHeight s + CFHEADER_BATCH - 1));
  let batchEnd := minimum limit (cfhdrTipHeight s) in
  o ← ask_bs (fun bs => blockstore_get_block_at_height bs batchEnd);
  match o with
  | None => mret true
  | Some (stopHash, _) =>
      res ← peer_send_getcfheaders p BTC_CFILTER_TYPE_BASIC (cfhdrStartHeight s) stopHash;
      if res : bool then mret res else
      _ ← on_pg (fun g => g <| lastFilteredBlockReq := stopHash |>);
      mret false
  end.

(** The headers of the batch, each from its hash and the header before it. The
    store is [None] for NULL, which [cfheaderstore_append] dereferences. *)
Fixpoint append_loop (height : Z) (hashes : list uint256) (prevHeader : uint256) : ST (option cfheaderstore) (bool * uint256) :=
  match hashes with
  | [] => mret (false, prevHeader)
  | filterHash :: hashes => fun o =>
      match o with
      | None => Fault UB
      | Some cfs =>
          let filterHeader := cfheader_calc filterHash prevHeader in
          '(res, cfs) ← cfheaderstore_append cfs height filterHeader filterHash;
          if res : bool then Ok (true, prevHeader, Some cfs) else
          append_loop (height + 1) hashes filterHeader (Some cfs)
      end
  end.
Definition in_cfStore {A} (m : ST (option cfheaderstore) A) : ST world A := fun w =>
  '(a, o) ← m (cfStore (pg w)); Ok (a, w <| pg ::= fun g => g <| cfStore := o |> |>).

Definition peergroup_handle_cfheaders (p : positive) (cfh : btc_msg_cfheaders) : ST world bool :=
  _ ← assert_state [BITC_STATE_UPDATE_TXDB];
  w ← get;
  let expectedPrev := cfhdrPrevHeader (sync (pg w)) in
  if negb (uint256_iszero (Some expectedPrev)) && negb (uint256_issame (cfh_prevFilterHeader cfh) expectedPrev) then mret true else
  startHeight ← lift (match cfStore (pg w) with
                      | Some cfs => i32 (cfheaderstore_get_tip_height (Some cfs) + 1)
                      | None => Ok 0
                      end);
  hashes ← lift (first_n (cfh_numHeaders cfh) (default [] (cfh_filterHashes cfh)));
  '(res, prevHeader) ← in_cfStore (append_loop startHeight hashes (cfh_prevFilterHeader cfh));
  if res : bool then mret true else
  next ← lift (i32 (startHeight + cfh_numHeaders cfh));
  _ ← on_sync (fun s => s <| cfhdrPrevHeader := prevHeader |> <| cfhdrStartHeight := next |> <| cfhdrSyncStarted := false |>);
  if next <=? cfhdrTipHeight (sync (pg w)) then peergroup_request_cfheaders p else
  _ ← peergroup_schedule_cfilters; mret false.

(** ** Checkpoints *)

(** The peers that answer are counted by the number of messages sent. *)
Fixpoint checkpt_loop (l : list positive) (tipHash : uint256) (nSent : Z) : ST world Z :=
  match l with
  | [] => mret nSent
  | p :: l =>
      c ← peer_is_connected p;
      svc ← peer_get_services p;
      if negb c || (Z.land svc BTC_SERVICE_NODE_COMPACT_FILTERS =? 0) then checkpt_loop l tipHash nSent else
      res ← peer_send_getcfcheckpt p BTC_CFILTER_TYPE_BASIC tipHash;
      checkpt_loop l tipHash (if res : bool then nSent else nSent + 1)
  end.
Definition peergroup_verify_cfcheckpts (p : positive) : ST world bool :=
  _ ← assert_state [BITC_STATE_UPDATE_TXDB];
  w ← get;
  nSent ← checkpt_loop (peer_list (pg w)) (blockstore_get_best_hash (blockStore w)) 0;
  _ ← on_sync (fun s => s <| cfcheckptPeers := nSent |> <| cfcheckptAgreed := 0 |> <| cfcheckptVerified := false |>
        <| cfhdrSyncStarted := false |> <| cfcheckptExpected := None |> <| cfcheckptCount := 0 |>);
  if nSent =? 0 then
    _ ← on_sync (fun s => s <| cfcheckptVerified := true |>);
    peergroup_request_cfheaders p
  else mret false.

(** With an empty store, the filter headers start at the checkpoint before the
    scan instead of the genesis block. *)
Definition birthday_bound (o : option cfheaderstore) (scanFloor : Z) (s : cfsync) : res cfsync :=
  if 0 <=? cfheaderstore_get_tip_height o then Ok s else
  match cfcheckptExpected s with
  | None => Ok s
  | Some expected =>
      if cfcheckptCount s =? 0 then Ok s else
      let anchorHeight := Z.quot scanFloor BIP157_CHECKPOINT_INTERVAL * BIP157_CHECKPOINT_INTERVAL in
      if anchorHeight <=? 0 then Ok s else
      let idx := Z.quot anchorHeight BIP157_CHECKPOINT_INTERVAL - 1 in
      if (idx <? 0) || (cfcheckptCount s <=? idx) then Ok s else
      match expected !! Z.to_nat idx with
      | None => Fault UB
      | Some header => Ok (s <| cfhdrStartHeight := anchorHeight |> <| cfhdrPrevHeader := header |>)
      end
  end.
Definition peergroup_maybe_birthday_bound_cfheaders : ST world unit := fun w =>
  let g := pg w in
  s ← birthday_bound (cfStore g) (cfScanFloor (scan g)) (sync g);
  Ok (tt, w <| pg := g <| sync := s |> |>).

Definition peergroup_cfcheckpt_maybe_complete (driver : positive) : ST world bool :=
  w ← get;
  let s := sync (pg w) in
  if cfcheckptVerified s then mret false else
  if (1 <=? cfcheckptAgreed s) && (cfcheckptPeers s <=? cfcheckptAgreed s) then
    _ ← on_sync (fun s => s <| cfcheckptVerified := true |>);
    _ ← peergroup_maybe_birthday_bound_cfheaders;
    peergroup_request_cfheaders driver
  else mret false.

(** The first other peer that is connected, if any. *)
Fixpoint find_driver (l : list positive) (gone : positive) : ST world (option positive) :=
  match l with
  | [] => mret None
  | cand :: l =>
      if bool_decide (cand = gone) then find_driver l gone else
      c ← peer_is_connected cand;
      if c : bool then mret (Some cand) else find_driver l gone
  end.
Definition peergroup_notify_peer_gone (p : positive) : ST world unit :=
  w ← get;
  let s := sync (pg w) in
  if negb (cfcheckptVerified s) && (0 <? cfcheckptPeers s) && (cfcheckptAgreed s <? cfcheckptPeers s) then
    _ ← on_sync (fun s => s <| cfcheckptPeers := cfcheckptPeers s - 1 |>);
    if 1 <=? cfcheckptAgreed s then
      driver ← find_driver (peer_list (pg w)) p;
      match driver with
      | Some cand => _ ← peergroup_cfcheckpt_maybe_complete cand; mret tt
      | None => mret tt
      end
    else mret tt
  else mret tt.

(** Whether the checkpoints of an answer are those expected. *)
Definition checkpts_agree (cfc : btc_msg_cfcheckpt) (expected : list uint256) (count : Z) : res bool :=
  if negb (cfc_numHeaders cfc =? count) then Ok false else
  a ← first_n count (default [] (cfc_filterHeaders cfc));
  b ← first_n count expected;
  Ok (bool_decide (a = b)).

Definition peergroup_handle_cfcheckpt (p : positive) (cfc : btc_msg_cfcheckpt) : ST world bool :=
  _ ← assert_state [BITC_STATE_UPDATE_TXDB];
  w ← get;
  let s := sync (pg w) in
  match cfcheckptExpected s with
  | None =>
      agreed ← lift (i32 (cfcheckptAgreed s + 1));
      headers ← lift (first_n (cfc_numHeaders cfc) (default [] (cfc_filterHeaders cfc)));
      _ ← on_sync (fun s => s <| cfcheckptCount := cfc_numHeaders cfc |> <| cfcheckptExpected := Some headers |>
            <| cfcheckptAgreed := agreed |>);
      peergroup_cfcheckpt_maybe_complete p
  | Some expected =>
      agree ← lift (checkpts_agree cfc expected (cfcheckptCount s));
      if negb agree then mret true else
      agreed ← lift (i32 (cfcheckptAgreed s + 1));
      _ ← on_sync (fun s => s <| cfcheckptAgreed := agreed |>);
      peergroup_cfcheckpt_maybe_complete p
  end.

(** ** The start of the scan *)

(** The [n] chunks from the height [start] on. *)
Fixpoint carve (n : nat) (start tip : Z) : res (list cf_segment) :=
  match n with
  | O => Ok []
  | S n =>
      next ← i32 (start + CFILTER_BATCH);
      let chunkEnd := minimum (next - 1) tip in
      l ← carve n next tip;
      Ok (CfSegment start chunkEnd (chunkEnd - start + 1) None None 0 0 false :: l)
  end.
Definition start_scan (floor tip : Z) (s : cfscan) : res cfscan :=
  segs ← (if floor <=? tip then l ← carve (Z.to_nat ((tip - floor) / CFILTER_BATCH + 1)) floor tip; Ok (Some l) else Ok None);
  Ok (s <| cfScanFloor := floor |> <| cfTipHeight := tip |> <| cfVerified := floor |> <| cfDoneContig := 0 |> <| cfSeg := segs |>).
(** The filter headers go on from those of the store. *)
Definition start_cfheaders (o : option cfheaderstore) (tip : Z) (s : cfsync) : res cfsync :=
  let cfTip := match o with Some cfs => cfheaderstore_get_tip_height (Some cfs) | None => -1 end in
  first ← i32 (cfTip + 1);
  prev ← (match o with
          | Some cfs => if 0 <=? cfTip then r ← cfheaderstore_get_header cfs cfTip; Ok (default (cfhdrPrevHeader s) r) else Ok uint256_zero_out
          | None => Ok uint256_zero_out
          end);
  Ok (s <| cfhdrStartHeight := first |> <| cfhdrTipHeight := tip |> <| cfhdrPrevHeader := prev |>).

(** The scan of the blocks from [startHash] to the best one. *)
Definition first_pass (startHash : uint256) : ST world unit :=
  _ ← peergroup_set_lastblk startHash;
  tipHeight ← ask_bs (fun bs => blockstore_get_height (Some bs));
  startHeight ← ask_bs (fun bs => blockstore_get_block_height bs startHash);
  n ← lift (i32 (tipHeight - startHeight));
  _ ← on_dl (fun d => d <| numToFetch := n |>);
  w ← get;
  sc ← lift (start_scan startHeight tipHeight (scan (pg w)));
  _ ← on_scan (fun _ => sc);
  s ← lift (start_cfheaders (cfStore (pg w)) tipHeight (sync (pg w)));
  on_sync (fun _ => s).

Definition peergroup_download_filtered_blocks (p : positive) : ST world bool :=
  w ← get;
  if negb (btc_state_is [BITC_STATE_UPDATE_HEADERS; BITC_STATE_UPDATE_TXDB] w) then mret false else
  let dp := downloadPeer (pg w) in
  if negb (bool_decide (dp = None)) && negb (bool_decide (dp = Some p)) then
    _ ← when (btc_state_is [BITC_STATE_UPDATE_TXDB] w && cfcheckptVerified (sync (pg w))
              && (cfhdrTipHeight (sync (pg w)) <? cfhdrStartHeight (sync (pg w)))) peergroup_schedule_cfilters;
    mret false
  else
  _ ← on_pg (fun g => g <| downloadPeer := Some p |>);
  let first := btc_state_is [BITC_STATE_UPDATE_HEADERS] w in
  _ ← when (first && (0 <? numHdrToFetch (dl (pg w)))) (_ ← time_get; mret tt);
  if first && syncAndExit (btc w) then _ ← bitc_req_stop; mret false else
  _ ← on_btc (fun b => b <| state := BITC_STATE_UPDATE_TXDB |>);
  birth ← (fun w => b ← wallet_get_birth (seconds (btc w)) (wallet w); Ok (b, w));
  walletHash ← ask_bs (fun bs => blockstore_get_hash_from_birth bs birth);
  let lastHashStore := if 0 <? stopAfterHeight (btc w) then walletHash else peergroup_get_lastblk w in
  startHash ← ask_bs (fun bs => blockstore_get_highest bs walletHash lastHashStore);
  _ ← when first (first_pass startHash);
  _ ← peergroup_download_progress;
  w ← get;
  let s := sync (pg w) in
  if negb (cfcheckptVerified s) then peergroup_verify_cfcheckpts p else
  if cfhdrStartHeight s <=? cfhdrTipHeight s then peergroup_request_cfheaders p else
  _ ← peergroup_schedule_cfilters; mret false.

Fixpoint add_headers_loop (hdrs : list btc_block_header) (numAdded : Z) : ST world Z :=
  match hdrs with
  | [] => mret numAdded
  | hdr :: hdrs =>
      '(s, _) ← in_bs (blockstore_add_header hdr (header_hash hdr));
      _ ← when s (w ← get; n ← lift (i32 (numHdrFetched (dl (pg w)) + 1)); on_dl (fun d => d <| numHdrFetched := n |>));
      add_headers_loop hdrs (if s : bool then numAdded + 1 else numAdded)
  end.
Definition peergroup_handle_headers (p : positive) (hdrs : list btc_block_header) : ST world bool :=
  w ← get;
  let dp := downloadPeer (pg w) in
  if negb (bool_decide (dp = None)) && negb (bool_decide (dp = Some p)) then mret false else
  numAdded ← add_headers_loop hdrs 0;
  _ ← when (0 <? numAdded) (peergroup_add_block_finalize true);
  _ ← peergroup_download_progress;
  height ← ask_bs (fun bs => blockstore_get_height (Some bs));
  _ ← on_dl (fun d => if heightTarget d <? height then d <| heightTarget := height |> else d);
  w ← get;
  if (0 <? numAdded) && btc_state_is [BITC_STATE_UPDATE_HEADERS] w then peer_send_getheaders p
  else peergroup_download_filtered_blocks p.

(** A peer is new: what comes next. *)
Definition peergroup_handle_handshake_ok (p : positive) (peerStartingHeight : Z) : ST world bool :=
  n ← peergroup_count_connected;
  w ← get;
  if maxActive (pg w) <? n then mret true else
  _ ← peergroup_update_info;
  _ ← when (firstConnectTS (dl (pg w)) =? 0) (now ← time_get; on_dl (fun d => d <| firstConnectTS := now |>));
  match state (btc w) with
  | BITC_STATE_STARTING | BITC_STATE_UPDATE_HEADERS => peergroup_download_headers p peerStartingHeight
  | BITC_STATE_UPDATE_TXDB => peergroup_download_filtered_blocks p
  | BITC_STATE_READY => peer_on_ready p
  | BITC_STATE_EXITING => mret false
  end.

(** ** Filters *)

(** What is said of the filter of a block of a known height by the filter
    headers: it is not there, it is not this one, or it is. *)
Inductive cf_check : Set := CF_NO_HASH | CF_MISMATCH | CF_VERIFIED.
Definition check_filter (o : option cfheaderstore) (height : Z) (cf : btc_msg_cfilter) : res cf_check :=
  match o with
  | None => Ok CF_VERIFIED
  | Some cfs =>
      storedHash ← cfheaderstore_get_hash cfs height;
      match storedHash with
      | None => Ok CF_NO_HASH
      | Some storedHash =>
          let computedHash := hash256_calc (take (Z.to_nat (cf_numBytes cf)) (default [] (cf_filterData cf))) in
          Ok (if uint256_issame computedHash storedHash then CF_VERIFIED else CF_MISMATCH)
      end
  end.

(** The chunks that are done from [n] on, one after the other. *)
Fixpoint contig (l : list cf_segment) (n : Z) : Z :=
  match l with [] => n | seg :: l => if done seg then contig l (n + 1) else n end.
Definition advance_contig (s : cfscan) : cfscan :=
  s <| cfDoneContig := contig (drop (Z.to_nat (cfDoneContig s)) (default [] (cfSeg s))) (cfDoneContig s) |>.

(** The chunk [i] has all its filters. *)
Definition chunk_complete (p : positive) (i : nat) (seg : cf_segment) : ST world unit :=
  _ ← on_scan (update_seg i (fun seg => seg <| done := true |>));
  ip ← peer_get_ip p;
  _ ← in_stats (fun o => peerstats_record_cfilter_ok o ip (wrap32 (progressTS seg - assignedTS seg)));
  _ ← on_scan advance_contig;
  _ ← peergroup_advance_lastblk;
  peergroup_assign_next_chunk_to p.
(** One more filter of the chunk [i], which is at [p]. *)
Definition chunk_received (p : positive) (i : nat) (seg : cf_segment) : ST world unit :=
  n ← lift (i32 (remaining seg - 1));
  now ← time_get;
  let seg := seg <| remaining := n |> <| progressTS := now |> in
  _ ← on_scan (update_seg i (fun _ => seg));
  when (n <=? 0) (chunk_complete p i seg).

(** A filter of the chunk [o]: it counts if the chunk is at [p]. *)
Definition count_filter (p : positive) (o : option (nat * cf_segment)) : ST world unit :=
  match o with
  | Some (i, seg) => when (owned_by p seg) (chunk_received p i seg)
  | None => mret tt
  end.

(** The filter is put to the scripts of the wallet. *)
Definition match_filter (cf : btc_msg_cfilter) : ST world bool := fun w =>
  '(scripts, wlt) ← wallet_get_filter_scripts (wallet w);
  m ← (if Zlen scripts =? 0 then Ok false
       else gcs_filter_match_any (cf_filterData cf) (cf_numBytes cf) (Some (cf_blockHash cf)) (Some scripts));
  Ok (m, w <| wallet := wlt |>).

(** The block is asked for if the filter matches. *)
Definition match_and_fetch (p : positive) (cf : btc_msg_cfilter) : ST world bool :=
  m ← match_filter cf;
  if negb m then mret false else
  w ← get;
  n ← lift (i32 (numFetched (dl (pg w)) + 1));
  _ ← on_dl (fun d => d <| numFetched := n |>);
  _ ← peergroup_add_pending_block (cf_blockHash cf) p;
  peer_send_getdata p INV_TYPE_MSG_BLOCK [cf_blockHash cf].

(** [--stop-after-height]: the blocks that match are waited for. *)
Definition past_stop (b : Peers.app) (blockHeight : Z) : bool := (0 <? stopAfterHeight b) && (stopAfterHeight b <=? blockHeight).
Definition stop_scan : ST world unit :=
  _ ← on_scan (fun s => s <| cfStopRequested := true |>);
  w ← get;
  when (cfBlocksPending (scan (pg w)) =? 0) (_ ← peergroup_download_complete; bitc_req_stop).

Definition peergroup_handle_cfilter (p : positive) (cf : btc_msg_cfilter) : ST world bool :=
  _ ← assert_state [BITC_STATE_UPDATE_TXDB; BITC_STATE_READY];
  let blockHash := cf_blockHash cf in
  blockHeight ← ask_bs (fun bs => blockstore_get_block_height bs blockHash);
  if blockHeight <? 0 then mret false else
  w ← get;
  c ← lift (check_filter (cfStore (pg w)) blockHeight cf);
  match c with
  | CF_NO_HASH => mret false
  | CF_MISMATCH => mret true
  | CF_VERIFIED =>
      n ← lift (i32 (cfVerified (scan (pg w)) + 1));
      _ ← on_scan (fun s => s <| cfVerified := n |>);
      _ ← peergroup_download_progress;
      _ ← count_filter p (seg_at (scan (pg w)) blockHeight);
      if past_stop (btc w) blockHeight then _ ← stop_scan; mret false else
      match_and_fetch p cf
  end.

(** ** Blocks *)

(** The transactions go to the wallet one by one, whatever it says of them. *)
Fixpoint feed_txs (blockHash : uint256) (txs : list btc_msg_tx) : ST world unit :=
  match txs with
  | [] => mret tt
  | tx :: txs =>
      '(res, b) ← lift (serialize_tx tx buff_alloc);
      _ ← when (negb res) (fun w => '(_, wlt) ← wallet_handle_tx (env_of w) blockHash (contents b) (wallet w);
                             Ok (tt, w <| wallet := wlt |>));
      feed_txs blockHash txs
  end.

Definition peergroup_handle_block (p : positive) (blk : btc_msg_block) : ST world bool :=
  _ ← assert_state [BITC_STATE_UPDATE_TXDB; BITC_STATE_READY];
  let blockHash := header_hash (blk_header blk) in
  _ ← ask_bs (fun bs => blockstore_get_block_height bs blockHash);
  txs ← lift (first_n (blk_txCount blk) (blk_tx blk));
  _ ← feed_txs blockHash txs;
  _ ← peergroup_remove_pending_block blockHash;
  _ ← peergroup_advance_lastblk;
  w ← get;
  if cfStopRequested (scan (pg w)) && (cfBlocksPending (scan (pg w)) =? 0) then
    _ ← peergroup_download_complete;
    _ ← bitc_req_stop;
    mret false
  else _ ← peergroup_maybe_complete; mret false.

(** ** Addresses *)

(** The addresses are added one by one; whether one of them is new. *)
Fixpoint add_addr_loop (addrs : list btc_msg_address) (update : bool) : ST world bool :=
  match addrs with
  | [] => mret update
  | a :: addrs =>
      s ← (fun w =>
             let '(pa, b) := new_addr (PeerAddr a [x00; x00] false false) (book w) in
             '(s, b) ← addrbook_add_entry pa b;
             let b := if s : bool then b else with_objects (delete pa (ab_heap b)) b in
             Ok (s, w <| book := b |>));
      add_addr_loop addrs (s || update)
  end.
Definition peergroup_handle_addr (addrs : list btc_msg_address) : ST world unit :=
  update ← add_addr_loop addrs false;
  when update peergroup_update_info.
End sync.

(** ** The resume pointer in the configuration *)

(** The error of the save, the configuration and its file. *)
Definition peergroup_save_lastblk (conf : config) (fd : option file) (hash : uint256) : res (config * option file) :=
  s ← uint256_to_str hash;
  conf ← config_setstring conf (Some s) (str "peergroup.lastblk");
  '(_, conf, fd) ← config_save conf fd;
  Ok (conf, fd).
Definition peergroup_zap (conf : config) (fd : option file) : res (config * option file) :=
  peergroup_save_lastblk conf fd uint256_zero_out.
(** The pointer as [peergroup_init] reads it. *)
Definition load_lastblk (conf : config) : res (uint256 * config) :=
  '(hashStr, conf) ← config_getstring conf None (str "peergroup.lastblk");
  match hashStr with
  | None => Ok (uint256_zero_out, conf)
  | Some s => Ok ((uint256_from_str s uint256_zero_out).2, conf)
  end.
