(* ===== verification/PeerFrame.v ===== *)
(** * What the code of the peers leaves alone

    [Goes R m]: when [m] returns, the state it leaves is related to the one it
    found. [R] is a preorder, so the relation goes through sequences and loops;
    [goes] finds it for code made of parts that have it. Sending to a peer is
    [quiet]: the scan, the wallet and what peers are to the scan stay the same. *)
From S2P Require Export Sync.

Class Goes {S A} (R : S -> S -> Prop) (m : ST S A) : Prop :=
  goes_to : forall s a s', m s = Ok (a, s') -> R s s'.

Create HintDb goes.

Section goes.
Context {S : Type} (R : S -> S -> Prop) `{!PreOrder R}.

Lemma goes_ret {A} (a : A) : Goes R (mret a).
Proof. by intros s b s' [= _ <-]. Qed.
Lemma goes_bind {A B} (m : ST S A) (k : A -> ST S B) : Goes R m -> (forall a, Goes R (k a)) -> Goes R (m ≫= k).
Proof.
  intros Hm Hk s b s'. unfold mbind, st_bind. destruct (m s) as [[a s1]|] eqn:E; [|done]. intros E'.
  transitivity s1; [by apply (Hm s a)|by apply (Hk a s1 b)].
Qed.
Lemma goes_lift {A} (m : res A) : Goes R (lift m).
Proof. intros s a s'. unfold lift. destruct m; [|done]. by intros [= _ <-]. Qed.
Lemma goes_lift_eq {A B} (m : res A) (k : A -> ST S B) : (forall a, m = Ok a -> Goes R (k a)) -> Goes R (lift m ≫= k).
Proof. intros Hk s b s'. unfold mbind, st_bind, lift. destruct m as [a|]; [|done]. by apply (Hk a). Qed.
(** Code that returns the state it was given. *)
Lemma goes_read {A} (f : S -> res A) : Goes R (fun s => a ← f s; Ok (a, s)).
Proof. intros s a s'. destruct (f s); [|done]. by intros [= _ <-]. Qed.
Lemma goes_put (f : S -> S) : (forall s, R s (f s)) -> Goes R (fun s => Ok (tt, f s)).
Proof. intros Hf s a s' [= _ <-]. apply Hf. Qed.
End goes.
Lemma goes_weaken {S A} (R1 R2 : S -> S -> Prop) (m : ST S A) : Goes R1 m -> (forall s s', R1 s s' -> R2 s s') -> Goes R2 m.
Proof. intros Hm H s a s' E. eapply H, Hm, E. Qed.

#[export] Hint Resolve goes_ret goes_lift goes_read : goes.

(** One step: a lemma of the data base, a sequence, or a case. *)
Ltac goes_case :=
  match goal with
  | |- Goes _ (when ?c _) => unfold when; destruct c
  | |- Goes _ (match ?x with _ => _ end) => destruct x
  | |- Goes _ (if ?x then _ else _) => destruct x
  | |- Goes _ (let '_ := ?x in _) => destruct x
  end.
Ltac goes := repeat (intros; cbv zeta; first [solve [eauto with goes typeclass_instances]|apply (goes_bind _)|goes_case]).

Section frame.
Context `{Malloc} `{Sha256} `{T : Table positive} `{W : !PgWallet}.

(** What a peer is to the synchronisation. *)
Definition essence (pe : peer) : (bool * bool * Z * positive) * (bool * Z) :=
  (connected pe, got_verack pe, services pe, paddr pe, (connect_async (sock pe), sock_err (sock pe))).

Definition settings (b : Peers.app) : Peers.app := b <| ticks := O |>.

(** All but the messages, the clock and the counters of messages. *)
Record quiet (w w' : world) : Prop := {
  q_btc : settings (btc w') = settings (btc w);
  q_list : peer_list (pg w') = peer_list (pg w);
  q_driver : downloadPeer (pg w') = downloadPeer (pg w);
  q_lastBlk : lastBlk (pg w') = lastBlk (pg w);
  q_broadcast : hash_broadcast (pg w') = hash_broadcast (pg w);
  q_txbs : txbs (pg w') = txbs (pg w);
  q_dl : dl (pg w') = dl (pg w);
  q_cfStore : cfStore (pg w') = cfStore (pg w);
  q_stats : peerStats (pg w') = peerStats (pg w);
  q_scan : scan (pg w') = scan (pg w);
  q_sync : sync (pg w') = sync (pg w);
  q_peers : essence <$> peers w' = essence <$> peers w;
  q_book : book w' = book w;
  q_bs : blockStore w' = blockStore w;
  q_wallet : wallet w' = wallet w }.

#[export] Instance quiet_preorder : PreOrder quiet.
Proof.
  split; [by split|]. intros x y z [] []. split; congruence.
Qed.

(** *** The steps *)

Lemma goes_get R `{!PreOrder R} : Goes R get.
Proof. by intros w a w' [= _ <-]. Qed.
Lemma goes_ask_bs R `{!PreOrder R} {A} (m : blockstore -> res A) : Goes R (ask_bs m).
Proof. apply (goes_read R). Qed.
Lemma goes_peer_load R `{!PreOrder R} p : Goes R (peer_load p).
Proof. apply (goes_read R). Qed.
Lemma goes_peer_get_ip R `{!PreOrder R} p : Goes R (peer_get_ip p).
Proof.
  intros w a w'. unfold peer_get_ip. destruct (obj_load _ _); [|done]. cbn [mbind res_bind].
  destruct (obj_load _ _); [|done]. by intros [= _ <-].
Qed.
Lemma goes_when R `{!PreOrder R} c m : Goes R m -> Goes R (when c m).
Proof. intros Hm. destruct c; cbn [when]; [done|apply (goes_ret R)]. Qed.
#[local] Hint Resolve goes_get goes_ask_bs goes_peer_load goes_peer_get_ip goes_when : goes.

Lemma quiet_time : Goes quiet time_get.
Proof. intros w a w' [= _ <-]. split; reflexivity. Qed.

Lemma quiet_on_peer p f : (forall pe, essence (f pe) = essence pe) -> Goes quiet (on_peer p f).
Proof.
  intros Hf w a w'. unfold on_peer, obj_load. destruct (peers w !! p) as [pe|] eqn:Ep; [|done]. intros [= _ <-].
  split; try reflexivity. cbn. rewrite fmap_insert, Hf. apply insert_id. by rewrite lookup_fmap, Ep.
Qed.

Lemma quiet_stats type : Goes quiet (peergroup_send_stats_inc type).
Proof. intros w a w' [= _ <-]. split; reflexivity. Qed.

Lemma link_send_keeps buf s r s' : link_send buf s = Ok (r, s') ->
  connect_async s' = connect_async s /\ sock_err s' = sock_err s /\ r = 0.
Proof.
  unfold link_send, ASSERT. destruct (connect_async s) eqn:Ec; [done|]. destruct (Z.eqb_spec (sock_err s) 0); [|done].
  cbn. by intros [= <- <-].
Qed.

Lemma quiet_send_msg p type : Goes quiet (peer_send_msg p type).
Proof.
  apply (goes_bind _); [apply quiet_stats|intros _]. intros w a w'. unfold mbind, st_bind, peer_load, obj_load.
  destruct (peers w !! p) as [pe|] eqn:Ep; [|done]. cbn [mbind res_bind]. destruct (sendBuf pe) as [b|]; [|done]. unfold lift.
  destruct (link_send _ _) as [[r s]|] eqn:En; [|done]. unfold on_peer, obj_load. rewrite Ep. cbn. intros [= _ <-].
  destruct (link_send_keeps _ _ _ _ En) as (Hc & He & _). split; try reflexivity. cbn. rewrite fmap_insert. apply insert_id.
  rewrite lookup_fmap, Ep. cbn. unfold essence. cbn. by rewrite Hc, He.
Qed.
#[local] Hint Resolve quiet_time quiet_send_msg : goes.
#[local] Hint Extern 1 (Goes quiet (on_peer _ _)) => (apply quiet_on_peer; reflexivity) : goes.

Lemma quiet_send_crafted p type craft : Goes quiet (send_crafted p type craft).
Proof. unfold send_crafted. goes. Qed.
#[local] Hint Resolve quiet_send_crafted : goes.

Lemma quiet_getblocks p : Goes quiet (peer_send_getblocks p).
Proof. unfold peer_send_getblocks. goes. Qed.
Lemma quiet_getheaders p : Goes quiet (peer_send_getheaders p).
Proof. unfold peer_send_getheaders. goes. Qed.
Lemma quiet_getdata p type hash : Goes quiet (peer_send_getdata p type hash).
Proof. unfold peer_send_getdata. goes. Qed.
Lemma quiet_getcfilters p t h s : Goes quiet (peer_send_getcfilters p t h s).
Proof. apply quiet_send_crafted. Qed.
Lemma quiet_getcfheaders p t h s : Goes quiet (peer_send_getcfheaders p t h s).
Proof. apply quiet_send_crafted. Qed.
Lemma quiet_getcfcheckpt p t s : Goes quiet (peer_send_getcfcheckpt p t s).
Proof. apply quiet_send_crafted. Qed.
Lemma quiet_mempool p : Goes quiet (peer_send_mempool p).
Proof. apply quiet_send_crafted. Qed.
Lemma quiet_is_connected p : Goes quiet (peer_is_connected p).
Proof. unfold peer_is_connected. goes. Qed.
Lemma quiet_get_services p : Goes quiet (peer_get_services p).
Proof. unfold peer_get_services. goes. Qed.
Lemma quiet_send_inv p buf : Goes quiet (peer_send_inv p buf).
Proof. unfold peer_send_inv. goes. Qed.
#[local] Hint Resolve quiet_getblocks quiet_getheaders quiet_getdata quiet_getcfilters quiet_getcfheaders quiet_getcfcheckpt
  quiet_mempool quiet_is_connected quiet_get_services quiet_send_inv : goes.

Lemma quiet_broadcast_loop p l : Goes quiet (peer_broadcast_loop p l).
Proof. induction l as [|[hash q] l IH]; cbn [peer_broadcast_loop]; unfold peer_tx_broadcast; goes. Qed.
#[local] Hint Resolve quiet_broadcast_loop : goes.

Lemma quiet_on_ready p : Goes quiet (peer_on_ready p).
Proof. unfold peer_on_ready, peer_broadcast_all_tx. goes. Qed.
#[local] Hint Resolve quiet_on_ready : goes.

Lemma quiet_on_ready_loop l : Goes quiet (on_ready_loop l).
Proof. induction l as [|p l IH]; cbn [on_ready_loop]; unfold peer_on_ready_li; goes. Qed.
Lemma quiet_update_loop l n : Goes quiet (update_info_loop l n).
Proof. revert n. induction l as [|p l IH]; intros n; cbn [update_info_loop]; unfold peer_getinfo; goes. Qed.
#[local] Hint Resolve quiet_update_loop : goes.
Lemma quiet_update_info : Goes quiet peergroup_update_info.
Proof. unfold peergroup_update_info. goes. Qed.
Lemma quiet_ready : Goes quiet peergroup_on_ready.
Proof. unfold peergroup_on_ready. apply (goes_bind _); [apply (goes_get _)|intros w; apply quiet_on_ready_loop]. Qed.
End frame.

#[export] Hint Resolve goes_get goes_ask_bs goes_peer_load goes_peer_get_ip goes_when quiet_time quiet_send_msg quiet_send_crafted
  quiet_getblocks quiet_getheaders quiet_getdata quiet_getcfilters quiet_getcfheaders quiet_getcfcheckpt quiet_mempool
  quiet_is_connected quiet_get_services quiet_send_inv quiet_on_ready quiet_update_info quiet_ready : goes.
