(* ===== verification/PeerSend.v ===== *)
(** * Sending does not fail

    Messages of the right sizes are crafted and queued: what is sent to a peer
    that is there, with no error on its socket, returns, and is [quiet]. *)
From Stdlib Require Import Strings.String.
From S2P Require Export PeerFrame.

Section send.
Context `{Malloc} `{Sha256} `{T : Table positive} `{W : !PgWallet}.
Implicit Types w : world.

Lemma craft_nothing testnet message :
  exists b, btcmsg_craft_msgheader testnet message None = Ok b.
Proof.
  unfold btcmsg_craft_msgheader. cbn [buff_base buff_curlen fmap option_fmap option_map]. rewrite ptr_load_zero, bind_ok.
  destruct (writes_msgheader (header_for testnet message [])) with (b := buff_alloc) as (b1 & E1 & _ & _).
  { apply length_strncpy. } { apply hash4_calc_length. } { apply gwf_alloc. }
  { rewrite Zlen_header_for. cbn. unfold size_max. lia. }
  change (MsgHeader _ _ _ _) with (header_for testnet message []). rewrite E1, bind_ok. cbn. by eexists.
Qed.

(** *** A peer that can be sent to *)

Definition sound (pe : peer) : Prop := connect_async (sock pe) = false /\ sock_err (sock pe) = 0.
Definition can_send w (p : positive) : Prop := exists pe, peers w !! p = Some pe /\ sound pe.

Lemma quiet_peer w w' p : quiet w w' -> (peers w' !! p) ≫= (fun pe => Some (essence pe)) = (peers w !! p) ≫= (fun pe => Some (essence pe)).
Proof.
  intros Hq. pose proof (f_equal (fun m : gmap positive _ => m !! p) (q_peers _ _ Hq)) as E. cbn in E. rewrite !lookup_fmap in E.
  destruct (peers w' !! p), (peers w !! p); cbn in *; congruence.
Qed.
Lemma quiet_peer_some w w' p pe : quiet w w' -> peers w !! p = Some pe ->
  exists pe', peers w' !! p = Some pe' /\ essence pe' = essence pe.
Proof.
  intros Hq Ep. apply (quiet_peer _ _ p) in Hq. rewrite Ep in Hq. cbn in Hq. destruct (peers w' !! p) as [pe'|]; [|done].
  cbn in Hq. exists pe'. split; [done|]. congruence.
Qed.
Lemma quiet_can_send w w' p : quiet w w' -> can_send w p -> can_send w' p.
Proof.
  intros Hq (pe & Ep & H1 & H2). destruct (quiet_peer_some w w' p pe Hq Ep) as (pe' & Ep' & E). exists pe'. split; [done|].
  unfold essence in E. unfold sound. split; congruence.
Qed.

(** The code returns, and is quiet. *)
Definition sends {A} (m : ST world A) w (a : A) : Prop := exists w', m w = Ok (a, w') /\ quiet w w'.
Lemma sends_quiet {A} (m : ST world A) w a w' : Goes quiet m -> m w = Ok (a, w') -> sends m w a.
Proof. intros Hm E. exists w'. split; [done|by apply Hm in E]. Qed.
Lemma sends_bind {A B} (m : ST world A) (k : A -> ST world B) w a b :
  sends m w a -> (forall w', quiet w w' -> sends (k a) w' b) -> sends (m ≫= k) w b.
Proof.
  intros (w1 & E1 & Q1) Hk. destruct (Hk w1 Q1) as (w2 & E2 & Q2). exists w2. split; [by rewrite (st_bind_Ok _ _ _ _ _ E1)|].
  by transitivity w1.
Qed.

(** Nothing is left to send. *)
Definition idle w (p : positive) : Prop := exists pe, peers w !! p = Some pe /\ sendBuf pe = None.
Lemma send_msg_ok p type w pe b : peers w !! p = Some pe -> sendBuf pe = Some b -> sound pe ->
  exists w', peer_send_msg p type w = Ok (false, w') /\ idle w' p.
Proof.
  intros Ep Eb [Hc He]. unfold peer_send_msg. unfold mbind at 1, st_bind at 1. cbn [peergroup_send_stats_inc on_pg].
  set (w1 := w <| pg ::= _ |>). assert (Ep1 : peers w1 !! p = Some pe) by done. clearbody w1.
  unfold mbind at 1, st_bind at 1, peer_load. cbv beta. rewrite (obj_load_ok _ _ _ Ep1), bind_ok, Eb.
  unfold mbind at 1, st_bind at 1, lift, link_send. rewrite Hc, He. cbn [negb ASSERT mbind res_bind Z.eqb].
  unfold mbind at 1, st_bind at 1, on_peer. cbv beta. rewrite (obj_load_ok _ _ _ Ep1), bind_ok.
  eexists. split; [done|]. eexists. split; [apply lookup_insert_eq|done].
Qed.
Lemma send_crafted_idle p type craft w : can_send w p -> (exists b, craft (testnet (btc w)) = Ok b) ->
  exists w', send_crafted p type craft w = Ok (false, w') /\ idle w' p.
Proof.
  intros (pe & Ep & Hs) (b & Eb).
  unfold send_crafted. unfold mbind at 1, st_bind at 1. cbn [get]. unfold mbind at 1, st_bind at 1, lift. rewrite Eb.
  unfold mbind at 1, st_bind at 1, on_peer. cbv beta. rewrite (obj_load_ok _ _ _ Ep), bind_ok.
  by apply (send_msg_ok p type _ (pe <| sendBuf := Some b |>) b); [apply lookup_insert_eq|done|].
Qed.

Lemma send_crafted_ok p type craft w : can_send w p -> (exists b, craft (testnet (btc w)) = Ok b) -> sends (send_crafted p type craft) w false.
Proof.
  intros Hp Hb. destruct (send_crafted_idle p type craft w Hp Hb) as (w' & E & _).
  by apply (sends_quiet _ _ _ _ (quiet_send_crafted p type craft) E).
Qed.

Lemma getcfilters_ok p t h stop w : can_send w p -> is_uint256 stop -> sends (peer_send_getcfilters p t h stop) w false.
Proof.
  intros Hp Hs. apply send_crafted_ok; [done|]. unfold btcmsg_craft_getcfilters. cbn [gcf_filterType gcf_startHeight gcf_stopHash].
  destruct (craft_spec (testnet (btc w)) (str "getcfilters")
    (_ ← serialize_uint8 t; _ ← serialize_uint32 (wrap32 h); serialize_uint256 stop) (le_bytes 1 t ++ le_bytes 4 (wrap32 h) ++ stop))
    as (b & E & _); [|zlen; unfold Zlen; rewrite Hs; lia|by eexists].
  apply writes_bind; [apply writes_int|]. apply writes_bind; [apply writes_int|]. by apply writes_uint256.
Qed.

Lemma getdata_ok p type hash w : can_send w p -> Forall is_uint256 hash -> 0 < Zlen hash <= BTC_MSG_GETDATA_MAX_ENTRIES ->
  sends (peer_send_getdata p type hash) w false.
Proof.
  intros Hp Hf Hl. pose proof Hl as Hl'. unfold BTC_MSG_GETDATA_MAX_ENTRIES in Hl'.
  assert (E : exists w', send_crafted p BTC_MSG_GETDATA (fun testnet => btcmsg_craft_getdata testnet type hash (Zlen hash)) w = Ok (false, w')).
  { destruct (send_crafted_ok p BTC_MSG_GETDATA (fun testnet => btcmsg_craft_getdata testnet type hash (Zlen hash)) w Hp) as (w' & E & _); [|by exists w'].
    unfold btcmsg_craft_getdata. rewrite leb_t by lia. cbn [ASSERT]. rewrite bind_ok.
    destruct (craft_spec (testnet (btc w)) (str "getdata") (serialize_invs type hash (Zlen hash)) (invs_bytes type hash))
      as (b & E & _); [by apply writes_invs; [|lia]| |by eexists].
    rewrite Zlen_invs_bytes by done. lia. }
  destruct E as (w' & E). apply (sends_quiet _ _ _ w' (quiet_getdata p type hash)). unfold peer_send_getdata.
  rewrite eqb_f by lia. rewrite leb_t by lia. exact E.
Qed.

(** *** When the program is ready *)

Lemma dup_ok b : gwf b -> Zlen (contents b) < 2 ^ 59 -> exists r b', buff_dup (Some b) = Ok (r, b').
Proof.
  intros Hb Hl. destruct (writes_append b Hb buff_alloc) as (b' & E & _); [apply gwf_alloc| |by exists false, b'].
  cbn [buff_alloc b_idx]. unfold size_max. lia.
Qed.

Lemma send_inv_ok p buf w : idle w p -> can_send w p -> gwf buf -> Zlen (contents buf) < 2 ^ 59 ->
  exists w', peer_send_inv p buf w = Ok (false, w') /\ idle w' p.
Proof.
  intros (pe & Ep & Ei) (pe' & Ep' & Hs) Hb Hl. simplify_eq. destruct (dup_ok buf Hb Hl) as (r & b' & Ed). unfold peer_send_inv.
  unfold mbind at 1, st_bind at 1, peer_load. cbv beta. rewrite (obj_load_ok _ _ _ Ep), bind_ok.
  unfold mbind at 1, st_bind at 1, lift at 1. rewrite Ei. cbn [ASSERT bool_decide]. rewrite bool_decide_eq_true_2 by done. cbn [ASSERT].
  destruct (got_verack pe) eqn:Ev; cbn [negb]; [|exists w; split; [done|by exists pe]].
  unfold mbind at 1, st_bind at 1, lift. rewrite Ed. unfold mbind at 1, st_bind at 1, on_peer. cbv beta. rewrite (obj_load_ok _ _ _ Ep), bind_ok.
  apply (send_msg_ok p BTC_MSG_INV _ (pe <| sendBuf := Some b' |>) b'); [apply lookup_insert_eq|done..].
Qed.

(** The transactions to send are kept under their hashes. *)
Definition hashes_only (l : list (list byte * positive)) : Prop := Forall (fun e => is_uint256 e.1) l.
Lemma broadcast_ok p l : forall w, hashes_only l -> idle w p -> can_send w p ->
  exists w', peer_broadcast_loop p l w = Ok (tt, w') /\ idle w' p.
Proof.
  induction l as [|[hash q] l IH]; intros w Hl Hi Hp; cbn [peer_broadcast_loop]; [by exists w|]. apply Forall_cons in Hl as [Hh Hl].
  cbn [fst] in Hh. unfold mbind at 1, st_bind at 1, lift. rewrite (Zlen_32 hash Hh). cbn [Z.eqb Pos.eqb ASSERT].
  unfold mbind at 1, st_bind at 1, peer_tx_broadcast. unfold mbind at 1, st_bind at 1. cbn [get]. unfold mbind at 1, st_bind at 1, lift.
  assert (Hf : Forall is_uint256 [hash]) by (by constructor). pose proof (Zlen_invs_bytes INV_TYPE_MSG_TX [hash] Hf) as Hz.
  change (Zlen [hash]) with 1 in Hz.
  destruct (craft_spec (testnet (btc w)) (str "inv") (serialize_invs INV_TYPE_MSG_TX [hash] 1) (invs_bytes INV_TYPE_MSG_TX [hash]))
    as (b & E & Hb & Hc); [by apply (writes_invs INV_TYPE_MSG_TX [hash])|lia|].
  assert (E' : btcmsg_craft_inv (testnet (btc w)) INV_TYPE_MSG_TX [hash] 1 = Ok b) by exact E. rewrite E'.
  destruct (send_inv_ok p b w Hi Hp Hb) as (w1 & E1 & Hi1).
  { rewrite Hc. unfold msg_bytes. rewrite Zlen_app, Zlen_header_for. lia. }
  rewrite E1. apply IH; [done|done|]. apply (quiet_can_send w); [by apply quiet_send_inv in E1|done].
Qed.

Lemma hash_at_length bs c h : is_uint256 (hash_at bs c h).
Proof. unfold hash_at. destruct (c !! Z.to_nat h ≫= _) as [e|]; [apply hash256_calc_length|done]. Qed.

Lemma locator_some fuel h step n : 0 <= h -> locator_heights (S fuel) h step n <> [].
Proof. intros Hh. cbn [locator_heights]. by rewrite ltb_f. Qed.
Lemma getblocks_ok p w c : bs_wf (blockStore w) c -> c <> [] -> can_send w p -> exists w', peer_send_getblocks p w = Ok (false, w').
Proof.
  intros Hwf Hc Hp. unfold peer_send_getblocks. unfold mbind at 1, st_bind at 1, ask_bs. cbv beta.
  destruct (locator_hashes_ok _ _ Hwf) as [-> Hl]. cbn [mbind res_bind]. set (hs := locator_heights 65 _ 1 0) in *.
  set (hashes := map _ hs). assert (Hn : hashes <> []).
  { unfold hashes. intros Hm%map_eq_nil. revert Hm. apply (locator_some 64). destruct c; [done|]. zlia. }
  clearbody hs.
  assert (Hf : Forall is_uint256 hashes) by (apply Forall_map, List.Forall_forall; intros; apply hash_at_length).
  assert (Hz : Zlen hashes = Zlen hs) by (unfold hashes, Zlen; by rewrite length_map).
  destruct (send_crafted_idle p BTC_MSG_GETBLOCKS (fun testnet =>
    btcmsg_craft_getblocks testnet (if decide (hashes = []) then None else Some hashes) (Zlen hashes)) w Hp) as (w' & E & _); [|by exists w'].
  rewrite decide_False by done. unfold btcmsg_craft_getblocks. rewrite bool_decide_eq_true_2 by done. cbn [ASSERT]. rewrite bind_ok.
  assert (Hpos : 0 < Zlen hashes) by (destruct hashes; [done|]; zlen; pose_Zlen; lia).
  unfold btcmsg_prepare_blocklocator. cbn [default from_option id]. rewrite ltb_t by done. rewrite (ltb_f (Zlen hashes)) by lia. cbn [andb]. rewrite !bind_ok.
  rewrite to_nat_Zlen, firstn_all. unfold serialize_blocklocator. cbn [bl_protversion bl_numHashes bl_hashArray bl_hashStop]. rewrite wrap64_small by lia.
  destruct (craft_spec (testnet (btc w)) (str "getblocks")
    (serialize_uint32 BTC_PROTO_VERSION |=| serialize_varint (Zlen hashes) |=|
     serialize_array serialize_uint256 (Z.to_nat (Zlen hashes)) hashes |=| serialize_uint256 uint256_zero_out)
    (le_bytes 4 BTC_PROTO_VERSION ++ varint_bytes (Zlen hashes) ++ concat (map (fun h => h) hashes) ++ uint256_zero_out)) as (b & E & _).
  { apply writes_or; [apply writes_int|]. apply writes_or; [apply writes_varint|]. apply writes_or; [|by apply writes_uint256].
    apply (writes_array_n _ (fun h => h)); [done|]. eapply Forall_impl; [apply Hf|]. apply writes_uint256. }
  { assert (Zlen (concat (map (fun h : uint256 => h) hashes)) = 32 * Zlen hashes) as Hcc.
    { clear -Hf. induction Hf as [|h t Hh Ht IH]; [done|]. cbn. zlen. rewrite (Zlen_32 h Hh). lia. }
    zlen. rewrite Hcc, (Zlen_32 uint256_zero_out) by done.
    assert (Zlen (varint_bytes (Zlen hashes)) <= 9) by (unfold varint_bytes; repeat case_match; zlen; lia). lia. }
  by exists b.
Qed.

(** The program can go on with the peers it has. *)
Record peers_fit w : Prop := {
  pf_list : forall p, p ∈ peer_list (pg w) -> exists pe, peers w !! p = Some pe /\ (got_verack pe = true -> sound pe);
  pf_txs : hashes_only (t_entries (hash_broadcast (pg w)));
  pf_chain : exists c, bs_wf (blockStore w) c /\ c <> [] }.
Lemma quiet_fit w w' : quiet w w' -> peers_fit w -> peers_fit w'.
Proof.
  intros Hq [Hl Ht Hc]. split; [|by rewrite (q_broadcast _ _ Hq)|by rewrite (q_bs _ _ Hq)].
  intros p. rewrite (q_list _ _ Hq). intros (pe & Ep & Hs)%Hl. destruct (quiet_peer_some w w' p pe Hq Ep) as (pe' & Ep' & E).
  exists pe'. split; [done|]. unfold essence in E. unfold sound in *. intros Hv. destruct Hs as [H1 H2]; [congruence|]. split; congruence.
Qed.

Lemma on_ready_ok p w : peers_fit w -> can_send w p -> sends (peer_on_ready p) w false.
Proof.
  intros Hf Hp. assert (E : exists w', peer_on_ready p w = Ok (false, w')).
  2: { destruct E as (w' & E). by apply (sends_quiet _ _ _ w' (quiet_on_ready p)). }
  unfold peer_on_ready. destruct (send_crafted_idle p BTC_MSG_MEMPOOL btcmsg_craft_mempool w Hp) as (w1 & E1 & Hi); [apply craft_nothing|].
  unfold mbind at 1, st_bind at 1, peer_send_mempool. rewrite E1. apply quiet_send_crafted in E1. rename E1 into Q1.
  unfold mbind at 1, st_bind at 1, peer_broadcast_all_tx. unfold mbind at 1, st_bind at 1. cbn [get].
  destruct (quiet_fit _ _ Q1 Hf) as [_ Ht1 (c & Hwf & Hc)].
  destruct (broadcast_ok p _ w1 Ht1 Hi (quiet_can_send _ _ _ Q1 Hp)) as (w2 & E2 & _). rewrite E2. apply quiet_broadcast_loop in E2.
  apply (getblocks_ok p w2 c); [by rewrite (q_bs _ _ E2)|done|]. by apply (quiet_can_send w1), (quiet_can_send w).
Qed.

Lemma ready_loop_ok l : forall w, peers_fit w -> l ⊆ peer_list (pg w) -> sends (on_ready_loop l) w tt.
Proof.
  induction l as [|p l IH]; intros w Hf Hl; cbn [on_ready_loop]; [by exists w|].
  destruct (pf_list w Hf p) as (pe & Ep & Hs); [apply Hl; left|].
  assert (E : exists b, sends (peer_on_ready_li p) w b).
  { unfold peer_on_ready_li. destruct (got_verack pe) eqn:Ev.
    - exists false. eapply (sends_bind _ _ _ pe); [exists w; split; [|done]|].
      + unfold peer_load. by rewrite (obj_load_ok _ _ _ Ep).
      + intros w' Hq. rewrite Ev. cbn [negb]. apply on_ready_ok; [by apply (quiet_fit w)|].
        apply (quiet_can_send w); [done|]. exists pe. split; [done|by apply Hs].
    - exists false, w. split; [|done]. unfold mbind, st_bind, peer_load. cbv beta. rewrite (obj_load_ok _ _ _ Ep), bind_ok, Ev. done. }
  destruct E as (b & E). eapply sends_bind; [exact E|]. intros w' Hq. apply IH; [by apply (quiet_fit w)|].
  rewrite (q_list _ _ Hq). intros x Hx. apply Hl. by right.
Qed.
Lemma ready_ok w : peers_fit w -> sends peergroup_on_ready w tt.
Proof.
  intros Hf. unfold peergroup_on_ready. destruct (ready_loop_ok (peer_list (pg w)) w Hf) as (w' & E & Hq); [done|]. exists w'. by split.
Qed.
End send.
