(* ===== verification/ScanInv.v ===== *)
(** * The scan is well formed

    The chunks cover the heights of the scan, in order; a chunk somebody has is
    at one peer, a peer has one chunk, 64 chunks are in flight at most; the
    watermark is the number of chunks that are done from the first one on. Every
    step of the synchronisation keeps it. *)
From S2P Require Export PeerFrame.

(** ** The chunks *)

Section chunks.
Implicit Types seg : cf_segment.
Implicit Types segs : list cf_segment.

Definition full_size seg : Z := endHeight seg - startHeight seg + 1.

(** The chunk [i] of the scan from [floor] to [tip]. *)
Record chunk_ok (floor tip : Z) (i : nat) seg : Prop := {
  ck_start : startHeight seg = floor + CFILTER_BATCH * Z.of_nat i;
  ck_end : endHeight seg = minimum (startHeight seg + CFILTER_BATCH - 1) tip;
  ck_some : startHeight seg <= tip;
  ck_live : done seg = false -> 1 <= remaining seg <= full_size seg;
  ck_free : assignedPeer seg = None -> done seg = false /\ remaining seg = full_size seg }.

Definition one_each segs : Prop :=
  forall i j si sj p, segs !! i = Some si -> segs !! j = Some sj -> owned_by p si = true -> owned_by p sj = true -> i = j.

Record segs_ok (floor tip : Z) segs : Prop := {
  sg_range : floor <= tip /\ floor + CFILTER_BATCH * Zlen segs < 2 ^ 31;
  sg_count : Zlen segs = (tip - floor) / CFILTER_BATCH + 1;
  sg_chunk : forall i seg, segs !! i = Some seg -> chunk_ok floor tip i seg;
  sg_one : one_each segs;
  sg_flight : count_inflight segs <= MAX_INFLIGHT_CHUNKS }.

Definition scan_ok (s : cfscan) : Prop :=
  match cfSeg s with
  | None => cfDoneContig s = 0
  | Some segs => segs_ok (cfScanFloor s) (cfTipHeight s) segs /\ cfDoneContig s = contig segs 0
  end.

(** *** Counting *)

Lemma count_alter f i segs : forall seg, segs !! i = Some seg ->
  count_inflight (alter f i segs) = count_inflight segs - Z.b2z (in_flight seg) + Z.b2z (in_flight (f seg)).
Proof.
  unfold count_inflight. revert i. induction segs as [|x segs IH]; intros [|i] seg; cbn [lookup list_lookup]; try done.
  - intros [= ->]. cbn [alter list_alter List.filter]. destruct (in_flight seg), (in_flight (f seg)); cbn [Z.b2z]; zlen; lia.
  - intros Hi. specialize (IH i seg Hi). change (alter f (S i) (x :: segs)) with (x :: alter f i segs). cbn [List.filter].
    destruct (in_flight x); zlen; lia.
Qed.

Lemma contig_from segs : forall n, contig segs n = n + contig segs 0.
Proof.
  induction segs as [|x segs IH]; intros n; cbn; [lia|]. destruct (done x); [|lia]. rewrite (IH (n + 1)), (IH (0 + 1)). lia.
Qed.
Lemma contig_bound segs : 0 <= contig segs 0 <= Zlen segs.
Proof.
  induction segs as [|x segs IH]; cbn; zlen; [lia|]. destruct (done x); [|pose_Zlen; lia]. rewrite contig_from. lia.
Qed.
Lemma contig_same (segs segs' : list cf_segment) : map done segs' = map done segs -> forall n, contig segs' n = contig segs n.
Proof.
  revert segs'. induction segs as [|x segs IH]; intros [|y segs'] E n; try done. cbn in *. injection E as -> E.
  destruct (done x); [by apply IH|done].
Qed.
Lemma contig_done segs i seg : Z.of_nat i < contig segs 0 -> segs !! i = Some seg -> done seg = true.
Proof.
  revert i. induction segs as [|x segs IH]; intros i Hi; [done|]. cbn in Hi. destruct (done x) eqn:E; [|lia].
  destruct i as [|i]; cbn; [by intros [= ->]|]. rewrite contig_from in Hi. apply IH. lia.
Qed.
Lemma contig_stops segs seg : segs !! Z.to_nat (contig segs 0) = Some seg -> done seg = false.
Proof.
  induction segs as [|x segs IH]; [done|]. cbn. destruct (done x) eqn:E.
  - rewrite contig_from, Z2Nat.inj_add by (pose proof (contig_bound segs); lia). apply IH.
  - change (Z.to_nat 0) with 0%nat. cbn. by intros [= ->].
Qed.
(** Counting on from what is known to be done. *)
Lemma contig_drop segs : forall (k : nat), (forall i seg, (i < k)%nat -> segs !! i = Some seg -> done seg = true) -> (k <= length segs)%nat ->
  contig (drop k segs) (Z.of_nat k) = contig segs 0.
Proof.
  induction segs as [|x segs IH]; intros [|k] Hk Hl; try done; cbn [length] in Hl; [lia|]. cbn [drop contig].
  rewrite (Hk O x) by (done || lia). rewrite contig_from, (contig_from _ (0 + 1)). rewrite <- (IH k), (contig_from _ (Z.of_nat k)); [lia| |lia].
  intros i seg Hi. apply (Hk (S i)). lia.
Qed.

(** *** Changes of one chunk *)

Lemma alter_lookup_inv f i j segs seg : alter f i segs !! j = Some seg ->
  exists seg0, segs !! j = Some seg0 /\ seg = if decide (j = i) then f seg0 else seg0.
Proof.
  destruct (decide (j = i)) as [->|Hne].
  - rewrite list_lookup_alter_eq. destruct (segs !! i) as [s0|]; cbn; [intros [= <-]; by exists s0|done].
  - rewrite list_lookup_alter_ne by done. intros E. by exists seg.
Qed.

Lemma chunk_alter floor tip f i segs seg : segs_ok floor tip segs -> segs !! i = Some seg ->
  chunk_ok floor tip i (f seg) ->
  (forall p, owned_by p (f seg) = true -> owned_by p seg = true \/ existsb (owned_by p) segs = false) ->
  count_inflight segs - Z.b2z (in_flight seg) + Z.b2z (in_flight (f seg)) <= MAX_INFLIGHT_CHUNKS ->
  segs_ok floor tip (alter f i segs).
Proof.
  intros [Hr Hc Hk Ho Hf] Hi Hck Hown Hfl.
  assert (Hl : Zlen (alter f i segs) = Zlen segs) by (unfold Zlen; by rewrite length_alter).
  assert (Hnot : forall p j sj, existsb (owned_by p) segs = false -> segs !! j = Some sj -> owned_by p sj = true -> False).
  { intros p j sj E Hj Hp. apply not_true_iff_false in E. apply E, existsb_exists. exists sj. split; [|done].
    apply list_elem_of_In. by eapply list_elem_of_lookup_2. }
  split; [by rewrite Hl|by rewrite Hl| | |by rewrite (count_alter f i segs seg)].
  - intros j sj Hj. destruct (alter_lookup_inv _ _ _ _ _ Hj) as (s0 & Hj0 & ->). destruct (decide (j = i)) as [->|]; [|by apply Hk].
    by simplify_eq.
  - intros j1 j2 s1 s2 p Hj1 Hj2 H1 H2.
    destruct (alter_lookup_inv _ _ _ _ _ Hj1) as (s01 & Hs1 & ->), (alter_lookup_inv _ _ _ _ _ Hj2) as (s02 & Hs2 & ->).
    destruct (decide (j1 = i)) as [->|], (decide (j2 = i)) as [->|]; simplify_eq; [done| | |by eapply Ho].
    + destruct (Hown p H1) as [H1'|E]; [by eapply Ho|destruct (Hnot p j2 s02 E Hs2 H2)].
    + destruct (Hown p H2) as [H2'|E]; [by eapply Ho|destruct (Hnot p j1 s01 E Hs1 H1)].
Qed.
End chunks.

Section steps.
Context `{Malloc} `{Sha256} `{T : Table positive} `{W : !PgWallet}.
Implicit Types seg : cf_segment.
Implicit Types segs : list cf_segment.
Implicit Types w : world.

(** The scan is the same; it is well formed if it was. *)
Definition same_scan w w' : Prop := scan (pg w') = scan (pg w).
Definition keeps_scan w w' : Prop := scan_ok (scan (pg w)) -> scan_ok (scan (pg w')).
#[export] Instance same_scan_preorder : PreOrder same_scan.
Proof. split; [done|]. intros x y z. unfold same_scan. congruence. Qed.
#[export] Instance keeps_scan_preorder : PreOrder keeps_scan.
Proof. split; [by intros w Hw|]. intros x y z H1 H2 H3. by apply H2, H1. Qed.

Lemma same_keeps w w' : same_scan w w' -> keeps_scan w w'.
Proof. unfold same_scan, keeps_scan. by intros ->. Qed.
Lemma quiet_same {A} (m : ST world A) : Goes quiet m -> Goes same_scan m.
Proof. intros Hm. eapply goes_weaken; [done|]. intros w w' Hq. apply (q_scan _ _ Hq). Qed.
Lemma goes_same {A} (m : ST world A) : Goes same_scan m -> Goes keeps_scan m.
Proof. intros Hm. eapply goes_weaken; [done|apply same_keeps]. Qed.
Lemma goes_on_dl f : Goes same_scan (on_dl f).
Proof. by intros w a w' [= _ <-]. Qed.
Lemma goes_on_btc f : Goes same_scan (on_btc f).
Proof. by intros w a w' [= _ <-]. Qed.
Lemma goes_on_pg f : (forall g, scan (f g) = scan g) -> Goes same_scan (on_pg f).
Proof. intros Hf w a w' [= _ <-]. apply Hf. Qed.
Lemma goes_on_sync f : Goes same_scan (on_sync f).
Proof. by intros w a w' [= _ <-]. Qed.
Lemma goes_in_bs {A} (m : ST blockstore A) : Goes same_scan (in_bs m).
Proof. intros w a w'. unfold in_bs. destruct (m _) as [[b bs]|]; [|done]. by intros [= _ <-]. Qed.
Lemma goes_in_stats m : Goes same_scan (in_stats m).
Proof. intros w a w'. unfold in_stats. destruct (m _); [|done]. by intros [= _ <-]. Qed.
#[local] Hint Resolve goes_on_dl goes_on_btc goes_on_sync goes_in_bs goes_in_stats : goes.
#[local] Hint Extern 2 (Goes same_scan (on_pg _)) => (apply goes_on_pg; reflexivity) : goes.
#[local] Hint Extern 5 (Goes same_scan _) => (apply quiet_same; solve [eauto with goes typeclass_instances]) : goes.

(** *** The resume pointer *)

Lemma same_progress : Goes same_scan peergroup_download_progress.
Proof. unfold peergroup_download_progress. goes. Qed.
#[local] Hint Resolve same_progress : goes.
Lemma same_set_lastblk hash : Goes same_scan (peergroup_set_lastblk hash).
Proof. unfold peergroup_set_lastblk. goes. Qed.
Lemma same_req_stop : Goes same_scan bitc_req_stop.
Proof. apply goes_on_btc. Qed.
#[local] Hint Resolve same_set_lastblk same_req_stop : goes.
Lemma same_download_complete : Goes same_scan peergroup_download_complete.
Proof. unfold peergroup_download_complete. goes. Qed.
#[local] Hint Resolve same_download_complete : goes.
Lemma same_maybe_complete : Goes same_scan peergroup_maybe_complete.
Proof. unfold peergroup_maybe_complete. goes. Qed.
#[local] Hint Resolve same_maybe_complete : goes.
Lemma same_advance_lastblk : Goes same_scan peergroup_advance_lastblk.
Proof. unfold peergroup_advance_lastblk. goes. Qed.
#[local] Hint Resolve same_advance_lastblk : goes.
Lemma same_finalize b : Goes same_scan (peergroup_add_block_finalize b).
Proof. unfold peergroup_add_block_finalize. goes. Qed.

(** *** Chunks are given out and taken back *)

Lemma in_seg segs f seg : existsb f segs = false -> seg ∈ segs -> f seg = false.
Proof.
  intros E Hin. apply not_true_iff_false. intros Hf. apply not_true_iff_false in E. apply E, existsb_exists. exists seg.
  split; [by apply list_elem_of_In|done].
Qed.
Lemma find_seg_some f segs : forall i, find_seg f segs = Some i -> exists seg, segs !! i = Some seg /\ f seg = true.
Proof.
  induction segs as [|x segs IH]; intros i; cbn; [done|]. destruct (f x) eqn:E; [intros [= <-]; by exists x|].
  destruct (find_seg f segs) as [j|]; cbn; [intros [= <-]; by apply IH|done].
Qed.
Lemma find_seg_none f segs seg : find_seg f segs = None -> seg ∈ segs -> f seg = false.
Proof.
  induction segs as [|x segs IH]; cbn; [intros _ Hin; by apply not_elem_of_nil in Hin|].
  destruct (f x) eqn:E; [done|]. destruct (find_seg f segs); [done|]. intros _ [->|Hin]%elem_of_cons; [done|by apply IH].
Qed.

Lemma owned_true p seg : owned_by p seg = true <-> assignedPeer seg = Some p /\ done seg = false.
Proof. unfold owned_by. rewrite andb_true_iff, bool_decide_eq_true, negb_true_iff. done. Qed.
Lemma in_flight_true seg : in_flight seg = true <-> assignedPeer seg <> None /\ done seg = false.
Proof. unfold in_flight. rewrite andb_true_iff, !negb_true_iff, bool_decide_eq_false. done. Qed.
Lemma claimable_true p seg : claimable p seg = true <-> assignedPeer seg = None /\ done seg = false /\ avoidPeer seg <> Some p.
Proof. unfold claimable. rewrite !andb_true_iff, !negb_true_iff, bool_decide_eq_true, bool_decide_eq_false. tauto. Qed.

Lemma assigned_ok floor tip p now i segs seg : segs_ok floor tip segs -> segs !! i = Some seg -> claimable p seg = true ->
  existsb (owned_by p) segs = false -> count_inflight segs < MAX_INFLIGHT_CHUNKS ->
  segs_ok floor tip (alter (assigned p now) i segs).
Proof.
  intros Hok Hi (Ha & Hd & _)%claimable_true Hno Hfl. pose proof (sg_chunk _ _ _ Hok i seg Hi) as [].
  eapply chunk_alter; [done..| | |].
  - split; cbn; [done..| |done]. intros _. unfold full_size. cbn. assert (startHeight seg <= endHeight seg); [|lia].
    rewrite ck_end0. unfold minimum, CFILTER_BATCH. destruct (Z.ltb_spec (startHeight seg + 1000 - 1) tip); lia.
  - intros q (Hq & _)%owned_true. cbn in Hq. injection Hq as <-. by right.
  - destruct (in_flight seg) eqn:E; [apply in_flight_true in E; tauto|]. destruct (in_flight (assigned p now seg)); cbn; lia.
Qed.

Lemma requeued_chunk floor tip i q seg : chunk_ok floor tip i seg -> done seg = false -> chunk_ok floor tip i (requeue q seg).
Proof.
  intros [] Hd. split; cbn; [done..| |done]. intros _. unfold full_size. cbn. specialize (ck_live0 Hd). unfold full_size in *. lia.
Qed.
Lemma requeued_ok floor tip q i segs seg : segs_ok floor tip segs -> segs !! i = Some seg -> in_flight seg = true ->
  segs_ok floor tip (alter (requeue q) i segs).
Proof.
  intros Hok Hi Hf. pose proof Hf as (_ & Hd)%in_flight_true. eapply chunk_alter; [done..| | |].
  - eapply requeued_chunk; [by eapply sg_chunk|done].
  - intros p (Hp & _)%owned_true. done.
  - pose proof (sg_flight _ _ _ Hok). rewrite Hf. destruct (in_flight (requeue q seg)) eqn:E; [by apply in_flight_true in E as [[] _]|].
    cbn. lia.
Qed.

(** A change that keeps [done] keeps the watermark. *)
Lemma contig_alter f i segs : (forall seg, done (f seg) = done seg) -> contig (alter f i segs) 0 = contig segs 0.
Proof.
  intros Hf. apply contig_same. apply list_eq. intros j. rewrite !list_lookup_fmap.
  destruct (decide (j = i)) as [->|Hne]; [|by rewrite list_lookup_alter_ne].
  rewrite list_lookup_alter_eq. destruct (segs !! i); cbn; [by rewrite Hf|done].
Qed.
Lemma update_seg_ok i f s segs : cfSeg s = Some segs -> (forall seg, done (f seg) = done seg) -> scan_ok s ->
  segs_ok (cfScanFloor s) (cfTipHeight s) (alter f i segs) -> scan_ok (update_seg i f s).
Proof.
  intros Es Hf Hs Hok. unfold scan_ok in *. cbn. rewrite Es in *. cbn. destruct Hs as [_ ->]. split; [done|]. by rewrite contig_alter.
Qed.

(** The scan after a chunk was offered to a peer. *)
Definition offered p (i : nat) (s s' : cfscan) : Prop := s' = s \/ exists now, s' = update_seg i (assigned p now) s.
Lemma assign_chunk_offers p i w a w' : peergroup_assign_chunk p i w = Ok (a, w') -> offered p i (scan (pg w)) (scan (pg w')).
Proof.
  unfold peergroup_assign_chunk. unfold mbind at 1, st_bind at 1. cbn.
  destruct (default [] (cfSeg (scan (pg w))) !! i) as [seg|]; [|done]. unfold mbind at 1, st_bind at 1, ask_bs.
  destruct (blockstore_get_block_at_height _ _) as [[[stopHash hdr]|]|]; cbn [mbind res_bind]; [| |done].
  2: { intros [= _ <-]. by left. }
  unfold mbind at 1, st_bind at 1. destruct (peer_send_getcfilters p _ _ _ w) as [[r w1]|] eqn:Eg; [|done].
  apply quiet_getcfilters, q_scan in Eg. destruct r; cbn; intros [= _ <-]; [by left|]. right. eexists. cbn. by rewrite Eg.
Qed.

Definition has_segs w segs : Prop := cfSeg (scan (pg w)) = Some segs.
Lemma offered_ok p i s s' segs seg : scan_ok s -> cfSeg s = Some segs -> segs !! i = Some seg -> claimable p seg = true ->
  existsb (owned_by p) segs = false -> count_inflight segs < MAX_INFLIGHT_CHUNKS -> offered p i s s' ->
  scan_ok s' /\ exists segs', cfSeg s' = Some segs' /\ count_inflight segs' <= count_inflight segs + 1.
Proof.
  intros Hs Es Hi Hc Hno Hfl [->|[now ->]]; [split; [done|]; exists segs; split; [done|lia]|].
  pose proof Hs as Hs'. unfold scan_ok in Hs'. rewrite Es in Hs'. destruct Hs' as [Hok _]. split.
  - eapply update_seg_ok; [done|done|done|]. by eapply assigned_ok.
  - cbn. rewrite Es. eexists. split; [done|]. rewrite (count_alter _ _ _ _ Hi).
    destruct (in_flight seg), (in_flight (assigned p now seg)); cbn; lia.
Qed.

Lemma keeps_assign_next p w a w' segs : scan_ok (scan (pg w)) -> cfSeg (scan (pg w)) = Some segs ->
  existsb (owned_by p) segs = false -> count_inflight segs < MAX_INFLIGHT_CHUNKS ->
  peergroup_assign_next_chunk_to p w = Ok (a, w') -> scan_ok (scan (pg w')).
Proof.
  intros Hs Es Hno Hfl. unfold peergroup_assign_next_chunk_to. unfold mbind at 1, st_bind at 1. cbn. rewrite Es. cbn.
  destruct (find_seg (claimable p) segs) as [i|] eqn:Ef; [|by intros [= _ <-]].
  apply find_seg_some in Ef as (seg & Hi & Hc). intros E%assign_chunk_offers. by eapply offered_ok.
Qed.

Lemma keeps_schedule_loop l : forall inflight w a w' segs, scan_ok (scan (pg w)) -> cfSeg (scan (pg w)) = Some segs ->
  count_inflight segs <= inflight -> schedule_loop l inflight w = Ok (a, w') -> scan_ok (scan (pg w')).
Proof.
  induction l as [|p l IH]; intros inflight w a w' segs Hs Es Hn; cbn [schedule_loop]; [by intros [= _ <-]|].
  destruct (Z.leb_spec MAX_INFLIGHT_CHUNKS inflight) as [|Hlt]; [by intros [= _ <-]|].
  unfold mbind at 1, st_bind at 1. destruct (peer_is_connected p w) as [[c w1]|] eqn:E1; [|done].
  unfold mbind at 1, st_bind at 1. destruct (peer_get_services p w1) as [[svc w2]|] eqn:E2; [|done].
  apply quiet_is_connected, q_scan in E1. apply quiet_get_services, q_scan in E2. rewrite E1 in E2. rewrite <- E2 in Hs, Es.
  clear w w1 E1 E2. destruct (_ || _); [eauto|]. unfold mbind at 1, st_bind at 1. cbn [get]. rewrite Es. cbn [default from_option id].
  destruct (existsb (owned_by p) segs) eqn:Eo; [eauto|]. destruct (find_seg (claimable p) segs) as [i|] eqn:Ef; [|eauto].
  apply find_seg_some in Ef as (seg & Hi & Hc). unfold mbind at 1, st_bind at 1.
  destruct (peergroup_assign_chunk p i w2) as [[u w3]|] eqn:Ea; [|done]. apply assign_chunk_offers in Ea.
  destruct (offered_ok p i _ _ segs seg Hs Es Hi Hc Eo ltac:(lia) Ea) as (Hs3 & segs3 & Es3 & Hc3).
  eapply IH; [done|done|lia].
Qed.

Lemma keeps_schedule : Goes keeps_scan peergroup_schedule_cfilters.
Proof.
  intros w a w' E Hs. revert E. unfold peergroup_schedule_cfilters. unfold mbind at 1, st_bind at 1. cbn [get].
  destruct (cfSeg (scan (pg w))) as [segs|] eqn:Es; [|by intros [= _ <-]]. by eapply keeps_schedule_loop.
Qed.
#[local] Hint Resolve keeps_schedule : goes.
#[local] Hint Extern 6 (Goes keeps_scan _) => (apply goes_same; solve [eauto with goes typeclass_instances]) : goes.

(** *** Peers that stall or go *)

Lemma keeps_check_loop now n : forall i any, Goes keeps_scan (check_chunks_loop now n i any).
Proof.
  induction n as [|n IH]; intros i any; cbn [check_chunks_loop]; [goes|]. intros w a w'. unfold mbind at 1, st_bind at 1. cbn [get].
  destruct (default [] (cfSeg (scan (pg w))) !! i) as [seg|] eqn:Ei; [|done].
  destruct (stalled now seg) eqn:Est; cbn [negb]; [|by intros E%IH]. destruct (assignedPeer seg) as [p|] eqn:Ep; [|done].
  unfold mbind at 1, st_bind at 1. destruct (peer_get_ip p w) as [[ip w1]|] eqn:E1; [|done].
  apply (goes_peer_get_ip same_scan) in E1. unfold mbind at 1, st_bind at 1.
  destruct (in_stats _ w1) as [[u w2]|] eqn:E2; [|done]. apply goes_in_stats in E2. unfold same_scan in *.
  intros E Hs. revert E. unfold mbind at 1, st_bind at 1. cbn [on_scan on_pg]. intros E. apply IH in E. apply E. cbn.
  rewrite E2, E1. destruct (cfSeg (scan (pg w))) as [segs|] eqn:Es; [|done]. cbn [default from_option id] in Ei.
  assert (Hf : in_flight seg = true) by (unfold stalled in Est; by apply andb_prop in Est as [? _]).
  apply (update_seg_ok i _ _ segs Es); [done|done|]. unfold scan_ok in Hs. rewrite Es in Hs. destruct Hs as [Hok _]. by eapply requeued_ok.
Qed.
Lemma keeps_check_chunks : Goes keeps_scan peergroup_check_pending_chunks.
Proof.
  unfold peergroup_check_pending_chunks. apply (goes_bind _); [goes|intros now]. apply (goes_bind _); [goes|intros w].
  destruct (cfSeg (scan (pg w))); [|goes]. apply (goes_bind _); [apply keeps_check_loop|]. goes.
Qed.

Lemma count_map f segs : (forall seg, in_flight (f seg) = true -> in_flight seg = true) -> count_inflight (map f segs) <= count_inflight segs.
Proof.
  intros Hf. unfold count_inflight. induction segs as [|x segs IH]; [done|]. cbn [map List.filter]. specialize (Hf x).
  destruct (in_flight (f x)); [rewrite Hf by done|destruct (in_flight x)]; zlen; lia.
Qed.
Lemma requeue_all_ok p s segs : cfSeg s = Some segs -> scan_ok s ->
  scan_ok (s <| cfSeg := Some (map (fun seg => if owned_by p seg then requeue (Some p) seg else seg) segs) |>).
Proof.
  intros Es Hs. unfold scan_ok in *. rewrite Es in Hs. cbn. destruct Hs as [[Hr Hc Hk Ho Hf] Ec].
  set (f seg := if owned_by p seg then requeue (Some p) seg else seg).
  assert (Hlk : forall i seg, map f segs !! i = Some seg -> exists s0, segs !! i = Some s0 /\ seg = f s0).
  { intros i seg. rewrite list_lookup_fmap. destruct (segs !! i) as [s0|]; [|done]. intros [= <-]. by exists s0. }
  assert (Hl : Zlen (map f segs) = Zlen segs) by (unfold Zlen; by rewrite length_map).
  assert (Hlive : forall q s0, owned_by q (f s0) = true -> owned_by q s0 = true).
  { intros q s0. unfold f. destruct (owned_by p s0); [by intros (? & _)%owned_true|done]. }
  split; [split; [by rewrite Hl|by rewrite Hl|..]|].
  - intros i seg (s0 & Hi & ->)%Hlk. unfold f. destruct (owned_by p s0) eqn:Eo; [|by apply Hk].
    apply requeued_chunk; [by apply Hk|]. by apply owned_true in Eo as [_ ?].
  - intros i j si sj q (s1 & Hi & ->)%Hlk (s2 & Hj & ->)%Hlk ?%Hlive ?%Hlive. by eapply Ho.
  - etransitivity; [apply (count_map f)|done]. intros seg. unfold f. destruct (owned_by p seg) eqn:Eo; [|done].
    apply owned_true in Eo as [E1 E2]. intros _. apply in_flight_true. split; [congruence|done].
  - rewrite Ec. symmetry. apply contig_same. rewrite map_map. apply map_ext. intros seg. unfold f. by destruct (owned_by p seg).
Qed.
Lemma keeps_requeue p : Goes keeps_scan (peergroup_requeue_peer_chunks p).
Proof.
  intros w a w' E Hs. revert E. unfold peergroup_requeue_peer_chunks. unfold mbind at 1, st_bind at 1. cbn [get].
  destruct (cfSeg (scan (pg w))) as [segs|] eqn:Es; [|by intros [= _ <-]]. unfold mbind at 1, st_bind at 1. cbn [on_scan on_pg].
  intros E. apply (goes_when keeps_scan _ _ keeps_schedule) in E. apply E. cbn. by apply requeue_all_ok.
Qed.

(** *** A filter *)

Lemma received_ok p floor tip n now i segs seg : segs_ok floor tip segs -> segs !! i = Some seg -> owned_by p seg = true ->
  0 < n <= full_size seg -> segs_ok floor tip (alter (fun _ => seg <| remaining := n |> <| progressTS := now |>) i segs).
Proof.
  intros Hok Hi Hown Hn. pose proof Hown as (Ha & Hd)%owned_true. eapply chunk_alter; [done..| | |].
  - destruct (sg_chunk _ _ _ Hok i seg Hi). split; cbn; [done..| |by rewrite Ha]. intros _. unfold full_size in *. cbn. lia.
  - intros q. unfold owned_by. cbn. by left.
  - unfold in_flight. cbn. pose proof (sg_flight _ _ _ Hok). unfold in_flight. lia.
Qed.

(** A chunk that is done, then the watermark. *)
Definition completed (n now : Z) seg : cf_segment := (seg <| remaining := n |> <| progressTS := now |>) <| done := true |>.
Lemma completed_ok p floor tip n now i segs seg : segs_ok floor tip segs -> segs !! i = Some seg -> owned_by p seg = true ->
  let segs' := alter (fun _ => completed n now seg) i segs in
  segs_ok floor tip segs' /\ existsb (owned_by p) segs' = false /\ count_inflight segs' < MAX_INFLIGHT_CHUNKS.
Proof.
  intros Hok Hi Hown segs'. pose proof Hown as (Ha & Hd)%owned_true.
  assert (Hfl : in_flight seg = true) by (apply in_flight_true; rewrite Ha; by split).
  assert (Hfl' : in_flight (completed n now seg) = false) by (unfold in_flight; cbn; by rewrite andb_false_r).
  pose proof (sg_flight _ _ _ Hok) as Hf. split; [|split].
  - eapply chunk_alter; [done..| | |].
    + destruct (sg_chunk _ _ _ Hok i seg Hi). split; cbn; [done..| |]; [done|by rewrite Ha].
    + intros q (_ & Hq)%owned_true. done.
    + rewrite Hfl, Hfl'. cbn. lia.
  - apply not_true_iff_false. intros (x & (j & Hj)%list_elem_of_In%list_elem_of_lookup & Hx)%existsb_exists.
    destruct (alter_lookup_inv _ _ _ _ _ Hj) as (s0 & Hj0 & ->). destruct (decide (j = i)) as [->|Hne].
    + apply owned_true in Hx as [_ Hx]. done.
    + apply Hne. by eapply (sg_one _ _ _ Hok).
  - unfold segs'. rewrite (count_alter _ _ _ _ Hi), Hfl, Hfl'. cbn. lia.
Qed.
Lemma watermark_ok s segs : cfSeg s = Some segs -> cfDoneContig s <= contig segs 0 -> 0 <= cfDoneContig s ->
  cfDoneContig (advance_contig s) = contig segs 0.
Proof.
  intros Es Hle H0'. unfold advance_contig. cbn. rewrite Es. cbn. pose proof (contig_bound segs) as Hb.
  rewrite <- (Z2Nat.id (cfDoneContig s)) at 2 by done. apply contig_drop; [|unfold Zlen in Hb; lia].
  intros i seg Hi. apply contig_done. lia.
Qed.
Lemma contig_completed n now i segs seg : segs !! i = Some seg -> contig segs 0 <= contig (alter (fun _ => completed n now seg) i segs) 0.
Proof.
  revert i. induction segs as [|x segs IH]; intros i; [done|]. destruct i as [|i]; cbn [lookup list_lookup].
  - intros [= ->]. change (contig (seg :: segs) 0 <= contig (completed n now seg :: segs) 0). cbn [contig].
    change (done (completed n now seg)) with true. pose proof (contig_bound segs). rewrite (contig_from segs (0 + 1)). destruct (done seg); lia.
  - intros Hi. change (contig (x :: segs) 0 <= contig (x :: alter (fun _ => completed n now seg) i segs) 0). cbn [contig].
    destruct (done x); [|lia]. rewrite contig_from, (contig_from (alter _ _ _)). specialize (IH i Hi). lia.
Qed.

(** The scan after the last filter of a chunk. *)
Definition after_complete (i : nat) (n now : Z) seg (s : cfscan) : cfscan :=
  advance_contig (update_seg i (fun _ => completed n now seg) s).
Lemma after_complete_segs i n now seg s segs : cfSeg s = Some segs -> scan_ok s -> segs !! i = Some seg ->
  cfSeg (after_complete i n now seg s) = Some (alter (fun _ => completed n now seg) i segs) /\
  cfDoneContig (after_complete i n now seg s) = contig (alter (fun _ => completed n now seg) i segs) 0.
Proof.
  intros Es Hs Hi. unfold scan_ok in Hs. rewrite Es in Hs. destruct Hs as [_ Ec].
  assert (E : cfSeg (update_seg i (fun _ => completed n now seg) s) = Some (alter (fun _ => completed n now seg) i segs)) by (cbn; by rewrite Es).
  split; [done|]. apply watermark_ok; [done|cbn; rewrite Ec; by apply contig_completed|cbn; rewrite Ec; apply contig_bound].
Qed.
Lemma after_complete_ok p i n now seg s segs : cfSeg s = Some segs -> scan_ok s -> segs !! i = Some seg -> owned_by p seg = true ->
  scan_ok (after_complete i n now seg s).
Proof.
  intros Es Hs Hi Hown. destruct (after_complete_segs i n now seg s segs Es Hs Hi) as [E1 E2].
  unfold scan_ok in *. rewrite Es in Hs. rewrite E1, E2. destruct Hs as [Hok _]. split; [|done].
  by apply (completed_ok p (cfScanFloor s) (cfTipHeight s) n now i segs seg).
Qed.

Lemma update_twice i f seg' s : update_seg i f (update_seg i (fun _ => seg') s) = update_seg i (fun _ => f seg') s.
Proof.
  destruct s as [fl tip v st [l|] d pe cap]; unfold update_seg; cbn [set cfSeg fmap option_fmap option_map]; [|done].
  by rewrite list_alter_alter_eq.
Qed.

Lemma chunk_complete_scan p i n now seg0 s w a w' :
  scan (pg w) = update_seg i (fun _ => seg0 <| remaining := n |> <| progressTS := now |>) s ->
  chunk_complete p i (seg0 <| remaining := n |> <| progressTS := now |>) w = Ok (a, w') ->
  exists w1, scan (pg w1) = after_complete i n now seg0 s /\ peergroup_assign_next_chunk_to p w1 = Ok (a, w').
Proof.
  intros Hs. unfold chunk_complete. unfold mbind at 1, st_bind at 1. cbn [on_scan on_pg].
  set (w1 := w <| pg ::= _ |>). assert (E1 : scan (pg w1) = update_seg i (fun _ => completed n now seg0) s).
  { change (scan (pg w1)) with (update_seg i (fun seg => seg <| done := true |>) (scan (pg w))). rewrite Hs.
    exact (update_twice i (fun seg => seg <| done := true |>) (seg0 <| remaining := n |> <| progressTS := now |>) s). }
  clearbody w1. unfold mbind at 1, st_bind at 1. destruct (peer_get_ip p w1) as [[ip w2]|] eqn:E2; [|done].
  apply (goes_peer_get_ip same_scan) in E2. unfold mbind at 1, st_bind at 1. destruct (in_stats _ w2) as [[u w3]|] eqn:E3; [|done].
  apply goes_in_stats in E3. unfold mbind at 1, st_bind at 1. cbn [on_scan on_pg].
  set (w4 := w3 <| pg ::= _ |>). assert (E4 : scan (pg w4) = advance_contig (scan (pg w3))) by done. clearbody w4.
  unfold mbind at 1, st_bind at 1. destruct (peergroup_advance_lastblk w4) as [[v w5]|] eqn:E5; [|done].
  apply same_advance_lastblk in E5. intros E. exists w5. split; [|done]. unfold same_scan in *. unfold after_complete. congruence.
Qed.

Lemma update_seg_alter_ok p i now segs seg s : scan_ok s -> cfSeg s = Some segs -> segs !! i = Some seg -> owned_by p seg = true ->
  0 < remaining seg - 1 -> scan_ok (update_seg i (fun _ => seg <| remaining := remaining seg - 1 |> <| progressTS := now |>) s).
Proof.
  intros Hs Es Hi Hown Hr. unfold scan_ok in *. cbn. rewrite Es in *. cbn. destruct Hs as [Hok Ec]. split.
  - apply (received_ok p); [done..|]. pose proof Hown as [_ Hd]%owned_true. pose proof (ck_live _ _ _ _ (sg_chunk _ _ _ Hok i seg Hi) Hd). lia.
  - rewrite Ec. symmetry. apply contig_same. apply list_eq. intros j. rewrite !list_lookup_fmap.
    destruct (decide (j = i)) as [->|Hne]; [|by rewrite list_lookup_alter_ne]. by rewrite list_lookup_alter_eq, Hi.
Qed.

(** Whoever sends it, and whatever its height. *)
Lemma keeps_received p i segs seg w a w' : scan_ok (scan (pg w)) -> cfSeg (scan (pg w)) = Some segs -> segs !! i = Some seg ->
  owned_by p seg = true -> chunk_received p i seg w = Ok (a, w') -> scan_ok (scan (pg w')).
Proof.
  intros Hs Es Hi Hown. unfold chunk_received. unfold mbind at 1, st_bind at 1, lift. destruct (i32 _) as [n|] eqn:En; [|done].
  assert (n = remaining seg - 1) as -> by (unfold i32 in En; destruct (_ && _); by simplify_eq).
  unfold mbind at 1, st_bind at 1. destruct (time_get w) as [[now w1]|] eqn:E1; [|done]. apply quiet_time, q_scan in E1.
  unfold mbind at 1, st_bind at 1. cbn [on_scan on_pg]. set (w2 := w1 <| pg ::= _ |>).
  assert (E2 : scan (pg w2) = update_seg i (fun _ => seg <| remaining := remaining seg - 1 |> <| progressTS := now |>) (scan (pg w)))
    by (by rewrite <- E1). clearbody w2. pose proof Hown as (Ha & Hd)%owned_true.
  pose proof Hs as Hs'. unfold scan_ok in Hs'. rewrite Es in Hs'. destruct Hs' as [Hok _].
  pose proof (ck_live _ _ _ _ (sg_chunk _ _ _ Hok i seg Hi) Hd) as Hr. destruct (Z.leb_spec (remaining seg - 1) 0) as [Hz|Hz]; cbn [when].
  - intros (w3 & E3 & En3)%(chunk_complete_scan p i _ _ seg (scan (pg w))); [|done].
    pose proof (after_complete_ok p i (remaining seg - 1) now seg _ segs Es Hs Hi Hown) as Hok3. rewrite <- E3 in Hok3.
    destruct (after_complete_segs i (remaining seg - 1) now seg _ segs Es Hs Hi) as [Es3 _]. rewrite <- E3 in Es3.
    destruct (completed_ok p _ _ (remaining seg - 1) now i segs seg Hok Hi Hown) as (_ & Hno & Hfl).
    by apply (keeps_assign_next p w3 a w' _ Hok3 Es3 Hno Hfl).
  - intros [= _ <-]. rewrite E2. by apply (update_seg_alter_ok p _ now segs seg).
Qed.

(** A change of the scan that is not one of its chunks. *)
Lemma keeps_on_scan f : (forall s, cfSeg (f s) = cfSeg s) -> (forall s, cfDoneContig (f s) = cfDoneContig s) ->
  (forall s, cfScanFloor (f s) = cfScanFloor s) -> (forall s, cfTipHeight (f s) = cfTipHeight s) -> Goes keeps_scan (on_scan f).
Proof. intros H1 H2 H3 H4 w a w' [= _ <-]. unfold keeps_scan, scan_ok. cbn. by rewrite H1, H2, H3, H4. Qed.
#[local] Hint Extern 1 (Goes keeps_scan (on_scan _)) => (apply keeps_on_scan; intros; repeat case_match; reflexivity) : goes.

Lemma keeps_add_pending hash p : Goes keeps_scan (peergroup_add_pending_block hash p).
Proof. unfold peergroup_add_pending_block. apply (goes_bind _); [unfold grow_pending; goes|goes]. Qed.
Lemma keeps_remove_pending hash : Goes keeps_scan (peergroup_remove_pending_block hash).
Proof. unfold peergroup_remove_pending_block. goes. Qed.
#[local] Hint Resolve keeps_add_pending keeps_remove_pending : goes.
Lemma keeps_stop_scan : Goes keeps_scan stop_scan.
Proof. unfold stop_scan. goes. Qed.
Lemma same_match_filter cf : Goes same_scan (match_filter cf).
Proof.
  intros w a w'. unfold match_filter. destruct (wallet_get_filter_scripts _) as [[scripts wlt]|]; [|done]. cbn [mbind res_bind].
  destruct (Zlen scripts =? 0); [|destruct (gcs_filter_match_any _ _ _ _); [|done]]; by intros [= _ <-].
Qed.
#[local] Hint Resolve keeps_stop_scan same_match_filter : goes.

Lemma seg_at_lookup s h i seg : seg_at s h = Some (i, seg) -> exists segs, cfSeg s = Some segs /\ segs !! i = Some seg.
Proof.
  unfold seg_at. destruct (_ && _); [|done]. destruct (cfSeg s) as [segs|]; cbn; [|done].
  destruct (segs !! Z.to_nat _) eqn:E; [|done]. intros [= <- <-]. by exists segs.
Qed.
Lemma keeps_count p h w v w' : scan_ok (scan (pg w)) -> count_filter p (seg_at (scan (pg w)) h) w = Ok (v, w') -> scan_ok (scan (pg w')).
Proof.
  intros Hs. unfold count_filter. destruct (seg_at (scan (pg w)) h) as [[i seg]|] eqn:Eg; [|by intros [= _ <-]].
  apply seg_at_lookup in Eg as (segs & Es & Hi). destruct (owned_by p seg) eqn:Eo; cbn [when]; [|by intros [= _ <-]].
  by apply (keeps_received p i segs seg).
Qed.
Lemma keeps_fetch p cf : Goes keeps_scan (match_and_fetch p cf).
Proof. unfold match_and_fetch. goes. Qed.
#[local] Hint Resolve keeps_fetch : goes.

Lemma keeps_cfilter p cf : Goes keeps_scan (peergroup_handle_cfilter p cf).
Proof.
  unfold peergroup_handle_cfilter, assert_state. apply (goes_bind _); [goes|intros _]. apply (goes_bind _); [goes|intros h].
  destruct (h <? 0); [goes|]. intros w a w'. unfold mbind at 1, st_bind at 1. cbn [get]. unfold mbind at 1, st_bind at 1, lift.
  destruct (check_filter _ h cf) as [[| |]|]; [by intros [= _ <-]|by intros [= _ <-]| |done].
  unfold mbind at 1, st_bind at 1. destruct (i32 _) as [n|]; [|done].
  unfold mbind at 1, st_bind at 1. cbn [on_scan on_pg]. set (w1 := w <| pg ::= _ |>).
  assert (E1 : scan (pg w1) = (scan (pg w)) <| cfVerified := n |>) by done. clearbody w1.
  unfold mbind at 1, st_bind at 1. destruct (peergroup_download_progress w1) as [[u w2]|] eqn:E2; [|done]. apply same_progress in E2.
  unfold same_scan in E2. rewrite E1 in E2. change (seg_at (scan (pg w)) h) with (seg_at ((scan (pg w)) <| cfVerified := n |>) h).
  rewrite <- E2. intros E Hs. assert (Hs2 : scan_ok (scan (pg w2))) by (rewrite E2; exact Hs). revert E.
  unfold mbind at 1, st_bind at 1. destruct (count_filter _ _ w2) as [[v w3]|] eqn:E3; [|done]. apply keeps_count in E3; [|done].
  destruct (past_stop (btc w) h); intros E; revert E3.
  - revert E. unfold mbind at 1, st_bind at 1. destruct (stop_scan w3) as [[u4 w4]|] eqn:E4; [|done]. apply keeps_stop_scan in E4.
    intros [= _ <-]. apply E4.
  - by apply keeps_fetch in E.
Qed.
#[local] Hint Resolve keeps_cfilter keeps_requeue keeps_check_chunks same_finalize : goes.

(** *** The start of a scan *)

Lemma carve_ok n : forall start tip l, carve n start tip = Ok l ->
  length l = n /\ (0 < Z.of_nat n -> start + CFILTER_BATCH * Z.of_nat n < 2 ^ 31) /\
  forall i seg, l !! i = Some seg -> seg =
    let b := start + CFILTER_BATCH * Z.of_nat i in let e := minimum (b + CFILTER_BATCH - 1) tip in
    CfSegment b e (e - b + 1) None None 0 0 false.
Proof.
  induction n as [|n IH]; intros start tip l; cbn [carve]; [intros [= <-]; split; [done|]; split; [lia|done]|].
  unfold i32. destruct (_ && _) eqn:Eb; [|done]. zbool. cbn [mbind res_bind]. destruct (carve n _ tip) as [l'|] eqn:El; [|done].
  intros [= <-]. destruct (IH _ _ _ El) as (Hl & Hb & Hs). cbn [length]. split; [lia|]. split.
  - intros _. destruct n; [lia|]. specialize (Hb ltac:(lia)). lia.
  - intros [|i] seg; cbn [lookup list_lookup].
    + intros [= <-]. rewrite Z.mul_0_r, Z.add_0_r. done.
    + intros E%Hs. rewrite E. rewrite Nat2Z.inj_succ. replace (start + CFILTER_BATCH + CFILTER_BATCH * Z.of_nat i)
        with (start + CFILTER_BATCH * Z.succ (Z.of_nat i)) by lia. done.
Qed.
Lemma no_flight segs : (forall i seg, segs !! i = Some seg -> assignedPeer seg = None) -> count_inflight segs = 0.
Proof.
  intros Hn. unfold count_inflight. induction segs as [|x segs IH]; [done|]. cbn [List.filter].
  destruct (in_flight x) eqn:E; [apply in_flight_true in E as [[] _]; by apply (Hn O x)|]. apply IH. intros i. by apply (Hn (S i)).
Qed.
Lemma start_scan_ok floor tip s sc : start_scan floor tip s = Ok sc -> scan_ok sc.
Proof.
  unfold start_scan. destruct (Z.leb_spec floor tip) as [Hle|]; cbn [mbind res_bind]; [|by intros [= <-]].
  destruct (carve _ floor tip) as [l|] eqn:El; [|done]. cbn [mbind res_bind]. intros [= <-]. apply carve_ok in El as (Hl & Hb & Hs).
  assert (Hpos : 0 <= (tip - floor) / CFILTER_BATCH) by (apply Z.div_pos; unfold CFILTER_BATCH; lia).
  assert (Hlen : Zlen l = (tip - floor) / CFILTER_BATCH + 1) by (unfold Zlen; lia).
  unfold scan_ok. cbn. split; [split|].
  - split; [done|]. unfold Zlen. rewrite Hl. apply Hb. lia.
  - done.
  - intros i seg Hi. pose proof (lookup_lt_Some _ _ _ Hi) as Hlt. rewrite (Hs i seg Hi). clear Hs. set (b := floor + _). cbv zeta.
    assert (b <= tip). { pose proof (Z.mul_div_le (tip - floor) CFILTER_BATCH ltac:(done)). unfold b, CFILTER_BATCH in *. lia. }
    split; cbn; [done|done|done| |done]. intros _. unfold full_size, minimum, CFILTER_BATCH. cbn. destruct (Z.ltb_spec (b + 1000 - 1) tip); lia.
  - intros i j si sj p Hi _ (Ha & _)%owned_true. by rewrite (Hs i si Hi) in Ha.
  - rewrite no_flight; [done|]. intros i seg Hi. by rewrite (Hs i seg Hi).
  - destruct l as [|x l]; [done|]. cbn. by rewrite (Hs O x eq_refl).
Qed.

Lemma keeps_first_pass hash : Goes keeps_scan (first_pass hash).
Proof.
  unfold first_pass. do 6 (apply (goes_bind _); [goes|intros ?]). apply (goes_lift_eq _). intros sc Hsc%start_scan_ok.
  apply (goes_bind _); [|goes]. by intros w b w' [= _ <-] _.
Qed.
#[local] Hint Resolve keeps_first_pass : goes.

(** *** The handlers *)

Lemma same_verify_loop l tipHash n : Goes quiet (checkpt_loop l tipHash n).
Proof. revert n. induction l as [|p l IH]; intros n; cbn [checkpt_loop]; goes. Qed.
Lemma quiet_find_driver l p : Goes quiet (find_driver l p).
Proof. induction l as [|q l IH]; cbn [find_driver]; goes. Qed.
Lemma quiet_count_connected l n : Goes quiet (count_connected l n).
Proof. revert n. induction l as [|p l IH]; intros n; cbn [count_connected]; unfold peer_getinfo; goes. Qed.
Lemma quiet_best_peer l p o b : Goes quiet (best_peer l p o b).
Proof. revert o b. induction l as [|q l IH]; intros o b; cbn [best_peer]; goes. Qed.
#[local] Hint Resolve same_verify_loop quiet_find_driver quiet_count_connected quiet_best_peer : goes.

Lemma keeps_request p : Goes keeps_scan (peergroup_request_cfheaders p).
Proof. unfold peergroup_request_cfheaders, assert_state. goes. Qed.
#[local] Hint Resolve keeps_request : goes.
Lemma same_in_cfStore {A} (m : ST (option cfheaderstore) A) : Goes same_scan (in_cfStore m).
Proof. intros w a w'. unfold in_cfStore. destruct (m _) as [[b o]|]; [|done]. by intros [= _ <-]. Qed.
#[local] Hint Resolve same_in_cfStore : goes.
Lemma keeps_cfheaders p cfh : Goes keeps_scan (peergroup_handle_cfheaders p cfh).
Proof. unfold peergroup_handle_cfheaders, assert_state. goes. Qed.
Lemma same_birthday : Goes same_scan peergroup_maybe_birthday_bound_cfheaders.
Proof.
  intros w a w'. unfold peergroup_maybe_birthday_bound_cfheaders. destruct (birthday_bound _ _ _); [|done]. by intros [= _ <-].
Qed.
#[local] Hint Resolve same_birthday : goes.
Lemma keeps_maybe_complete p : Goes keeps_scan (peergroup_cfcheckpt_maybe_complete p).
Proof. unfold peergroup_cfcheckpt_maybe_complete. goes. Qed.
#[local] Hint Resolve keeps_maybe_complete : goes.
Lemma keeps_cfcheckpt p cfc : Goes keeps_scan (peergroup_handle_cfcheckpt p cfc).
Proof. unfold peergroup_handle_cfcheckpt, assert_state. goes. Qed.
Lemma keeps_peer_gone p : Goes keeps_scan (peergroup_notify_peer_gone p).
Proof. unfold peergroup_notify_peer_gone. goes. Qed.
Lemma keeps_verify p : Goes keeps_scan (peergroup_verify_cfcheckpts p).
Proof. unfold peergroup_verify_cfcheckpts, assert_state. goes. Qed.
Lemma goes_birth f : Goes same_scan (fun w => b ← f w; Ok (b, w) : res (Z * world)).
Proof. apply (goes_read same_scan). Qed.
#[local] Hint Resolve keeps_verify goes_birth : goes.
Lemma keeps_filtered p : Goes keeps_scan (peergroup_download_filtered_blocks p).
Proof. unfold peergroup_download_filtered_blocks. goes. Qed.
#[local] Hint Resolve keeps_filtered : goes.
Lemma keeps_download_headers p h : Goes keeps_scan (peergroup_download_headers p h).
Proof. unfold peergroup_download_headers, assert_state. goes. Qed.
#[local] Hint Resolve keeps_download_headers : goes.
Lemma same_headers_loop hdrs n : Goes same_scan (add_headers_loop hdrs n).
Proof. revert n. induction hdrs as [|h hdrs IH]; intros n; cbn [add_headers_loop]; goes. Qed.
#[local] Hint Resolve same_headers_loop : goes.
Lemma keeps_headers p hdrs : Goes keeps_scan (peergroup_handle_headers p hdrs).
Proof. unfold peergroup_handle_headers. goes. Qed.
Lemma keeps_handshake p h : Goes keeps_scan (peergroup_handle_handshake_ok p h).
Proof. unfold peergroup_handle_handshake_ok, peergroup_count_connected. goes. Qed.
Lemma same_feed hash txs : Goes same_scan (feed_txs hash txs).
Proof.
  induction txs as [|tx txs IH]; cbn [feed_txs]; [goes|]. apply (goes_bind _); [goes|intros [r b]].
  apply (goes_bind _); [|goes]. destruct r; cbn [negb when]; [goes|]. intros w a w'.
  destruct (wallet_handle_tx _ _ _ _) as [[x wlt]|]; [|done]. by intros [= _ <-].
Qed.
#[local] Hint Resolve same_feed : goes.
Lemma keeps_block p blk : Goes keeps_scan (peergroup_handle_block p blk).
Proof. unfold peergroup_handle_block, assert_state. goes. Qed.
Lemma keeps_retry_loop p hashes : Goes keeps_scan (retry_loop p hashes).
Proof. induction hashes as [|h hashes IH]; cbn [retry_loop]; goes. Qed.
#[local] Hint Resolve keeps_retry_loop : goes.
Lemma keeps_retry p hashes : Goes keeps_scan (peergroup_retry_block_fetch p hashes).
Proof. unfold peergroup_retry_block_fetch. goes. Qed.
#[local] Hint Resolve keeps_retry : goes.
Lemma keeps_expired l : Goes keeps_scan (retry_expired l).
Proof. induction l as [|x l IH]; cbn [retry_expired]; goes. Qed.
#[local] Hint Resolve keeps_expired : goes.
Lemma keeps_timer : Goes keeps_scan peergroup_pending_blocks_cb.
Proof. unfold peergroup_pending_blocks_cb, peergroup_check_pending_blocks. goes. Qed.
End steps.
