(* ===== verification/ScanRun.v ===== *)
(** * The scan, step by step

    What the code of the scan does to the state when nothing is wrong with the
    peers: it returns, and changes what is said here and no more. *)
From S2P Require Export PeerSend ScanInv.

(** What the scan changes. *)
Record vars {W' : Type} `{Table positive} : Type := Vars {
  v_scan : cfscan; v_lastBlk : uint256; v_state : bitc_state; v_stop : bool; v_wallet : W'; v_stats : option peerstats; v_fetched : Z }.
Arguments vars W' {_}.
#[export] Instance vars_eta {W' : Type} `{Table positive} : Eta (vars W') := fun r =>
  Vars W' _ (v_scan r) (v_lastBlk r) (v_state r) (v_stop r) (v_wallet r) (v_stats r) (v_fetched r).

Section run.
Context `{Malloc} `{Sha256} `{T : Table positive} `{W : !PgWallet}.
Implicit Types w : world.
Implicit Types c : list positive.

Definition vars_of w : vars pgw :=
  Vars pgw _ (scan (pg w)) (lastBlk (pg w)) (state (btc w)) (stop (btc w)) (wallet w) (peerStats (pg w)) (numFetched (dl (pg w))).

(** The rest, but for the messages, the clock and the counters. *)
Definition options (b : Peers.app) : Peers.app := b <| ticks := O |> <| state := BITC_STATE_READY |> <| stop := false |>.
Record mild w w' : Prop := {
  m_btc : options (btc w') = options (btc w);
  m_list : peer_list (pg w') = peer_list (pg w);
  m_broadcast : hash_broadcast (pg w') = hash_broadcast (pg w);
  m_cfStore : cfStore (pg w') = cfStore (pg w);
  m_peers : essence <$> peers w' = essence <$> peers w;
  m_book : book w' = book w;
  m_bs : blockStore w' = blockStore w }.
#[export] Instance mild_preorder : PreOrder mild.
Proof. split; [by split|]. intros x y z [] []. split; congruence. Qed.

Lemma same_settings (b b' : Peers.app) : settings b' = settings b -> options b' = options b /\ state b' = state b /\ stop b' = stop b.
Proof. destruct b, b'. unfold settings, options. cbn. intros [= -> -> -> -> -> -> -> -> -> -> ->]. done. Qed.
Lemma mild_exits w w' : mild w w' -> updateAndExit (btc w') = updateAndExit (btc w).
Proof. intros Hm. exact (f_equal updateAndExit (m_btc _ _ Hm)). Qed.
Lemma mild_stopAfter w w' : mild w w' -> stopAfterHeight (btc w') = stopAfterHeight (btc w).
Proof. intros Hm. exact (f_equal stopAfterHeight (m_btc _ _ Hm)). Qed.
Lemma quiet_mild w w' : quiet w w' -> mild w w' /\ vars_of w' = vars_of w.
Proof.
  intros [(Hb & Hs & Hp)%same_settings ? ? ? ? ? Hd ? ? ? ? ? ? ? ?]. split; [by split|].
  unfold vars_of. f_equal; try done. by rewrite Hd.
Qed.

(** The code returns [a]; the state it leaves has [v]. *)
Definition runs {A} (m : ST world A) w (a : A) (v : vars pgw) : Prop :=
  exists w', m w = Ok (a, w') /\ mild w w' /\ vars_of w' = v.

Lemma runs_ret {A} (a : A) w : runs (mret a) w a (vars_of w).
Proof. by exists w. Qed.
Lemma runs_bind {A B} (m : ST world A) (k : A -> ST world B) w a v b v' :
  runs m w a v -> (forall w', mild w w' -> vars_of w' = v -> runs (k a) w' b v') -> runs (m ≫= k) w b v'.
Proof.
  intros (w1 & E1 & M1 & V1) Hk. destruct (Hk w1 M1 V1) as (w2 & E2 & M2 & V2). exists w2.
  split; [by rewrite (st_bind_Ok _ _ _ _ _ E1)|]. split; [by transitivity w1|done].
Qed.
Lemma runs_get {B} (k : world -> ST world B) w b v : runs (k w) w b v -> runs (get ≫= k) w b v.
Proof. done. Qed.
Lemma runs_lift {A B} (m : res A) (k : A -> ST world B) w a b v : m = Ok a -> runs (k a) w b v -> runs (lift m ≫= k) w b v.
Proof. intros -> Hk. exact Hk. Qed.
Lemma runs_ask {A B} (m : blockstore -> res A) (k : A -> ST world B) w a b v :
  m (blockStore w) = Ok a -> runs (k a) w b v -> runs (ask_bs m ≫= k) w b v.
Proof. intros E Hk. unfold mbind, st_bind, ask_bs, runs. rewrite E. exact Hk. Qed.
Lemma runs_sends {A} (m : ST world A) w a : sends m w a -> runs m w a (vars_of w).
Proof. intros (w' & E & (M & V)%quiet_mild). by exists w'. Qed.

Lemma runs_on_scan f w : runs (on_scan f) w tt (vars_of w <| v_scan ::= f |>).
Proof. eexists. split; [done|]. split; [by split|done]. Qed.
Lemma runs_time w : exists now, runs time_get w now (vars_of w).
Proof. eexists. eexists. split; [done|]. split; [by split|done]. Qed.
Lemma runs_progress w : runs peergroup_download_progress w tt (vars_of w).
Proof. eexists. split; [done|]. split; [by split|done]. Qed.
Lemma runs_set_lastblk hash w : uint256_iszero (Some hash) = false -> runs (peergroup_set_lastblk hash) w tt (vars_of w <| v_lastBlk := hash |>).
Proof.
  intros Hz. unfold peergroup_set_lastblk. eapply runs_lift; [by rewrite Hz|]. apply runs_get.
  destruct (uint256_issame hash (lastBlk (pg w))) eqn:Eh.
  - apply bool_decide_eq_true in Eh. exists w. split; [done|]. split; [done|]. by rewrite Eh.
  - eexists. split; [done|]. split; [by split|done].
Qed.

(** *** The end of the scan *)

(** Every chunk is done, every block is there, the pointer is the best block. *)
Definition all_done (best : uint256) (v : vars pgw) : bool :=
  (cfSegCount (v_scan v) <=? cfDoneContig (v_scan v)) && (cfBlocksPending (v_scan v) =? 0) && uint256_issame (v_lastBlk v) best.
Definition finish (exits : bool) (v : vars pgw) : vars pgw := if exits then v <| v_stop := true |> else v <| v_state := BITC_STATE_READY |>.
Definition maybe_finish (exits : bool) (best : uint256) (v : vars pgw) : vars pgw :=
  if bool_decide (v_state v = BITC_STATE_UPDATE_TXDB) && all_done best v then finish exits v else v.

Lemma mild_can_send w w' p : mild w w' -> can_send w p -> can_send w' p.
Proof.
  intros Hm (pe & Ep & Hca & Hse). pose proof (f_equal (fun m : gmap positive _ => m !! p) (m_peers _ _ Hm)) as E. cbn in E.
  rewrite !lookup_fmap, Ep in E. destruct (peers w' !! p) as [pe'|] eqn:Ep'; [|done]. exists pe'. split; [done|].
  cbn in E. injection E as E. unfold sound. split; congruence.
Qed.
Lemma mild_fit w w' : mild w w' -> peers_fit w -> peers_fit w'.
Proof.
  intros Hm [Hl Ht Hc]. split; [|by rewrite (m_broadcast _ _ Hm)|by rewrite (m_bs _ _ Hm)].
  intros p. rewrite (m_list _ _ Hm). intros (pe & Ep & Hs)%Hl.
  pose proof (f_equal (fun m : gmap positive _ => m !! p) (m_peers _ _ Hm)) as E. cbn in E. rewrite !lookup_fmap, Ep in E.
  destruct (peers w' !! p) as [pe'|]; [|done]. exists pe'. split; [done|]. cbn in E. injection E as E.
  unfold sound in *. intros Hv. destruct Hs as [Hca Hse]; [congruence|]. split; congruence.
Qed.

Lemma runs_complete w : peers_fit w -> v_state (vars_of w) = BITC_STATE_UPDATE_TXDB ->
  runs peergroup_download_complete w tt (finish (updateAndExit (btc w)) (vars_of w)).
Proof.
  intros Hf Hs. unfold peergroup_download_complete. apply runs_get. unfold bitc_state_updating_txdb.
  cbn in Hs. rewrite bool_decide_eq_true_2 by done. cbn [negb]. eapply runs_bind; [apply runs_progress|]. intros w1 M1 V1.
  unfold finish. destruct (updateAndExit (btc w)).
  - eexists. split; [done|]. split; [by split|]. rewrite <- V1. done.
  - set (w2 := w1 <| btc ::= fun b => b <| state := BITC_STATE_READY |> |>).
    assert (M2 : mild w1 w2) by by split. destruct (ready_ok w2) as (w3 & E3 & Hq).
    { apply (mild_fit w1); [done|]. by apply (mild_fit w). }
    destruct (quiet_mild _ _ Hq) as [M3 V3]. exists w3. split; [exact E3|]. split; [by transitivity w2|]. rewrite V3. unfold w2. rewrite <- V1. done.
Qed.

Lemma runs_maybe_complete w : peers_fit w ->
  runs peergroup_maybe_complete w tt (maybe_finish (updateAndExit (btc w)) (blockstore_get_best_hash (blockStore w)) (vars_of w)).
Proof.
  intros Hf. unfold peergroup_maybe_complete. apply runs_get. unfold bitc_state_updating_txdb, maybe_finish, all_done. cbn [v_state v_scan v_lastBlk vars_of].
  case_bool_decide as Hs; cbn [negb andb]; [|apply runs_ret]. rewrite Z.ltb_antisym.
  destruct (cfSegCount (scan (pg w)) <=? cfDoneContig (scan (pg w))); cbn [negb orb andb]; [|apply runs_ret].
  destruct (cfBlocksPending (scan (pg w)) =? 0); cbn [negb andb]; [|apply runs_ret]. unfold peergroup_get_lastblk.
  destruct (uint256_issame _ _); [|apply runs_ret]. by apply runs_complete.
Qed.

(** *** The chain and the peer *)

(** The peer [p] answers, the best chain is [c]; no hash is that of no block. *)
Record ground (p : positive) (ip : list byte) c w : Prop := {
  g_fit : peers_fit w;
  g_bs : bs_wf (blockStore w) c;
  g_hash : forall h, 0 < h < Zlen c -> uint256_iszero (Some (hash_at (blockStore w) c h)) = false;
  g_send : can_send w p;
  g_len : length ip = 16%nat;
  g_ip : exists pe a, peers w !! p = Some pe /\ ab_heap (book w) !! paddr pe = Some a /\ a_ip (pa_addr a) = ip }.
Lemma mild_ground p ip c w w' : mild w w' -> ground p ip c w -> ground p ip c w'.
Proof.
  intros Hm [Hf Hb Hh Hs Hn Hi]. split; [by apply (mild_fit w)|by rewrite (m_bs _ _ Hm)|by rewrite (m_bs _ _ Hm)|by apply (mild_can_send w)|done|].
  destruct Hi as (pe & a & Ep & Ea & Hl). pose proof (f_equal (fun m : gmap positive _ => m !! p) (m_peers _ _ Hm)) as E. cbn in E.
  rewrite !lookup_fmap, Ep in E. destruct (peers w' !! p) as [pe'|]; [|done]. cbn in E. injection E as E.
  exists pe', a. rewrite (m_book _ _ Hm). split; [done|]. split; [|done]. congruence.
Qed.

Lemma chain_at bs c h : bs_wf bs c -> 0 <= h < Zlen c -> exists q e, c !! Z.to_nat h = Some q /\ bs_heap bs !! q = Some e /\
  be_height e = h /\ hash_at bs c h = header_hash (be_header e).
Proof.
  intros (_ & [_ Hc] & _) Hh. destruct (lookup_lt_is_Some_2 c (Z.to_nat h)) as [q Hq]; [unfold Zlen in Hh; lia|].
  destruct (Hc _ q Hq) as (e & He & Hhe & _). exists q, e. unfold hash_at. rewrite Hq. cbn. rewrite He. split_and!; try done. lia.
Qed.
Lemma at_height_ok bs c h : bs_wf bs c -> 0 < h < Zlen c ->
  exists hdr, blockstore_get_block_at_height bs h = Ok (Some (hash_at bs c h, hdr)).
Proof.
  intros Hwf Hh. destruct (chain_at bs c h Hwf ltac:(lia)) as (q & e & Hq & He & _ & ->).
  destruct (blockstore_get_block_at_height_ok bs c h Hwf) as (_ & Hat & _). exists (be_header e). by apply (Hat q e); [lia| |].
Qed.
Lemma block_height_ok bs c h : bs_wf bs c -> 0 <= h < Zlen c -> uint256_iszero (Some (hash_at bs c h)) = false ->
  blockstore_get_block_height bs (hash_at bs c h) = Ok h.
Proof.
  intros Hwf Hh Hz. unfold blockstore_get_block_height. rewrite Hz. destruct (chain_at bs c h Hwf Hh) as (q & e & Hq & He & Hhe & Eh).
  pose proof Hwf as ([(_ & _ & (m & Ht & Hm) & _) _] & _). rewrite (t_lookup_ok _ _ _ Ht), bind_ok.
  assert (E : m !! hash_at bs c h = Some q).
  { apply Hm. split; [by eapply list_elem_of_lookup_2|]. exists e. by rewrite Eh. }
  rewrite E, (deref_ok _ _ _ He), bind_ok. by rewrite Hhe.
Qed.
Lemma best_hash_at bs c : bs_wf bs c -> c <> [] -> blockstore_get_best_hash bs = hash_at bs c (Zlen c - 1).
Proof.
  intros Hwf Hc. pose proof Hwf as (_ & _ & _ & Hb & _ & _ & Hk & _). assert (Hpos : 0 < Zlen c) by (destruct c; [done|]; zlen; zlia).
  destruct (chain_at bs c (Zlen c - 1) Hwf ltac:(lia)) as (q & e & Hq & He & _ & Eh).
  assert (El : last c = Some q). { rewrite last_lookup. rewrite <- Hq. f_equal. unfold Zlen. lia. }
  unfold blockstore_get_best_hash. rewrite Hb, El. destruct (Hk q El) as (e' & He' & Eh'). rewrite Eh, <- Eh'. by simplify_eq.
Qed.
Lemma hash_at_inj bs c h1 h2 : bs_wf bs c -> 0 <= h1 < Zlen c -> 0 <= h2 < Zlen c -> hash_at bs c h1 = hash_at bs c h2 -> h1 = h2.
Proof.
  intros Hwf Hh1 Hh2 E. pose proof Hwf as ([([Hu _] & _) _] & [Hnd _] & _).
  destruct (chain_at bs c h1 Hwf Hh1) as (q1 & e1 & Hq1 & He1 & Hb1 & E1), (chain_at bs c h2 Hwf Hh2) as (q2 & e2 & Hq2 & He2 & Hb2 & E2).
  assert (q1 = q2) as <-. { apply (Hu (hash_at bs c h1)); [by exists e1; rewrite E1|exists e2; by rewrite E, E2]. }
  pose proof (NoDup_lookup _ _ _ _ Hnd Hq1 Hq2). lia.
Qed.

(** *** The resume pointer *)

(** The last height everything is known of up to. *)
Definition safe_height (s : cfscan) : Z :=
  minimum (minimum (cfScanFloor s + CFILTER_BATCH * cfDoneContig s - 1) (cfTipHeight s)) (min_pending (cfPending s) - 1).
Definition advances (L : Z) (s : cfscan) : bool :=
  (0 <? cfDoneContig s) && (cfScanFloor s <=? safe_height s) && (L <? safe_height s).

Definition advance_vars bs c (exits : bool) (L : Z) (v : vars pgw) : vars pgw :=
  if advances L (v_scan v)
  then maybe_finish exits (blockstore_get_best_hash bs) (v <| v_lastBlk := hash_at bs c (safe_height (v_scan v)) |>) else v.

(** The scan of [v] is of the heights of the chain from 1 on. *)
Definition scan_on c (s : cfscan) : Prop := scan_ok s /\ 0 < cfScanFloor s /\ cfTipHeight s < Zlen c.

Lemma runs_advance p ip c w L : ground p ip c w -> scan_on c (scan (pg w)) -> blockstore_get_block_height (blockStore w) (lastBlk (pg w)) = Ok L ->
  runs peergroup_advance_lastblk w tt (advance_vars (blockStore w) c (updateAndExit (btc w)) L (vars_of w)).
Proof.
  intros Hg (Hok & Hfl & Htip) HL. set (bs := blockStore w). unfold advance_vars. cbn [v_scan vars_of]. unfold peergroup_advance_lastblk. apply runs_get. unfold advances, scan_ok in *.
  destruct (cfSeg (scan (pg w))) as [segs|] eqn:Es.
  2: { rewrite Hok. cbn. apply runs_ret. }
  destruct Hok as [Hok Ec]. pose proof (contig_bound segs) as Hcb. set (s := scan (pg w)) in *.
  destruct (Z.eqb_spec (cfDoneContig s) 0) as [E0|E0]; [rewrite E0; cbn; apply runs_ret|]. rewrite ltb_t by lia. cbn [default from_option id andb].
  destruct (lookup_lt_is_Some_2 segs (Z.to_nat (cfDoneContig s - 1))) as [seg Hseg]; [unfold Zlen in Hcb; lia|]. rewrite Hseg.
  destruct (sg_chunk _ _ _ Hok _ _ Hseg) as [Hst Hen Hle _ _]. assert (Esafe : minimum (endHeight seg) (min_pending (cfPending s) - 1) = safe_height s).
  { unfold safe_height. f_equal. rewrite Hen, Hst. f_equal. unfold CFILTER_BATCH. lia. }
  rewrite Esafe. rewrite Z.ltb_antisym. destruct (Z.leb_spec (cfScanFloor s) (safe_height s)) as [Hlo|]; cbn [negb andb]; [|apply runs_ret].
  eapply runs_ask; [exact HL|]. rewrite Z.ltb_antisym. destruct (Z.leb_spec (safe_height s) L) as [|Hlt]; cbn [negb]; [apply runs_ret|].
  assert (Hup : safe_height s <= cfTipHeight s).
  { unfold safe_height, minimum. repeat case_match; zbool; lia. }
  destruct (at_height_ok bs c (safe_height s) (g_bs _ _ _ _ Hg) ltac:(lia)) as [hdr Eat]. eapply runs_ask; [exact Eat|].
  eapply runs_bind; [apply runs_set_lastblk, (g_hash _ _ _ _ Hg); lia|]. intros w1 M1 V1.
  destruct (runs_maybe_complete w1) as (w2 & E2 & M2 & V2); [apply (mild_fit w); [done|apply (g_fit _ _ _ _ Hg)]|].
  exists w2. split; [exact E2|]. split; [done|]. rewrite V2, V1, (m_bs _ _ M1). by rewrite (mild_exits w w1 M1).
Qed.

(** *** The statistics of the peer *)

(** There is room for what is said of the address. *)
Definition stats_fit (ip : list byte) (o : option peerstats) : Prop :=
  match o with
  | None => True
  | Some ps => exists m, stats_ok ps m /\ Z.of_nat (size (<[ip := PeerStats.new_entry ip]> m)) < 2 ^ 32 - 2
  end.
Lemma size_same (ip : list byte) (a b : peerstats_entry) (m : gmap (list byte) peerstats_entry) : size (<[ip := a]> m) = size (<[ip := b]> m).
Proof. by rewrite !map_size_insert. Qed.
Lemma record_fit f o ip : stats_fit ip o -> length ip = 16%nat -> keeps_wf f -> exists o', record_entry f o ip = Ok o' /\ stats_fit ip o'.
Proof.
  intros Ho Hl Hf. destruct o as [ps|]; [|by exists None]. destruct Ho as (m & Hok & Hs).
  assert (Hm : Z.of_nat (size m) < 2 ^ 32 - 2).
  { rewrite map_size_insert in Hs. destruct (m !! ip); cbn [id] in Hs; lia. }
  destruct (record_entry_ok f ps m ip Hok Hl Hm Hf) as (ps' & E & Hok' & _). exists (Some ps'). split; [exact E|].
  eexists. split; [exact Hok'|]. rewrite insert_insert_eq. exact Hs.
Qed.
Lemma runs_stats_done p ip c w n : ground p ip c w -> stats_fit ip (peerStats (pg w)) ->
  exists o, stats_fit ip o /\ runs (in_stats (fun o => peerstats_record_cfilter_ok o ip (wrap32 n))) w tt (vars_of w <| v_stats := o |>).
Proof.
  intros Hg Hs. destruct (record_fit (add_ok (wrap32 n)) (peerStats (pg w)) ip Hs (g_len _ _ _ _ Hg)) as (o & E & Ho).
  { apply add_ok_wf, wrap32_bound. }
  exists o. split; [done|]. eexists. unfold in_stats, peerstats_record_cfilter_ok. rewrite E. split; [done|]. split; [by split|done].
Qed.
Lemma runs_ip p ip c w : ground p ip c w -> runs (peer_get_ip p) w ip (vars_of w).
Proof.
  intros Hg. destruct (g_ip _ _ _ _ Hg) as (pe & a & Ep & Ea & <-). exists w. unfold peer_get_ip.
  rewrite (obj_load_ok _ _ _ Ep), bind_ok, (obj_load_ok _ _ _ Ea), bind_ok. by split.
Qed.

(** *** The next chunk *)

(** The code returns; its result and the state it leaves have [Q]. *)
Definition ends {A} (m : ST world A) w (Q : A -> vars pgw -> Prop) : Prop :=
  exists a w', m w = Ok (a, w') /\ mild w w' /\ Q a (vars_of w').
Lemma ends_runs {A} (m : ST world A) w a v (Q : A -> vars pgw -> Prop) : runs m w a v -> Q a v -> ends m w Q.
Proof. intros (w' & E & M & <-) HQ. by exists a, w'. Qed.
Lemma ends_then {A B} (m : ST world A) (k : A -> ST world B) w P Q :
  ends m w P -> (forall a w', mild w w' -> P a (vars_of w') -> ends (k a) w' Q) -> ends (m ≫= k) w Q.
Proof.
  intros (a & w1 & E1 & M1 & V1) Hk. destruct (Hk a w1 M1 V1) as (b & w2 & E2 & M2 & V2). exists b, w2.
  split; [by rewrite (st_bind_Ok _ _ _ _ _ E1)|]. split; [by transitivity w1|done].
Qed.
(** Step by step: a part that is known, then the rest. *)
Lemma ends_step {A B} (m : ST world A) (k : A -> ST world B) w a v Q :
  runs m w a v -> (forall w', mild w w' -> vars_of w' = v -> ends (k a) w' Q) -> ends (m ≫= k) w Q.
Proof.
  intros Hm Hk. eapply ends_then; [apply (ends_runs _ _ _ _ (fun x y => x = a /\ y = v) Hm); done|]. intros x w' M [-> V]. by apply Hk.
Qed.
Lemma ends_get {B} (k : world -> ST world B) w Q : ends (k w) w Q -> ends (get ≫= k) w Q.
Proof. done. Qed.
Lemma ends_lift {A B} (m : res A) (k : A -> ST world B) w a Q : m = Ok a -> ends (k a) w Q -> ends (lift m ≫= k) w Q.
Proof. intros -> Hk. exact Hk. Qed.
Lemma ends_ask {A B} (m : blockstore -> res A) (k : A -> ST world B) w a Q :
  m (blockStore w) = Ok a -> ends (k a) w Q -> ends (ask_bs m ≫= k) w Q.
Proof. intros E Hk. unfold mbind, st_bind, ask_bs, ends. rewrite E. exact Hk. Qed.
Lemma ends_assert {B} l (k : unit -> ST world B) w Q : state (btc w) ∈ l -> ends (k tt) w Q -> ends (assert_state l ≫= k) w Q.
Proof.
  intros Hs Hk. unfold ends, assert_state, mbind, st_bind, btc_state_is, lift, get. rewrite bool_decide_eq_true_2 by done. exact Hk.
Qed.
Lemma ends_conseq {A} (m : ST world A) w (P Q : A -> vars pgw -> Prop) : ends m w P -> (forall a v, P a v -> Q a v) -> ends m w Q.
Proof. intros (a & w' & E & M & V) HPQ. exists a, w'. split_and!; auto. Qed.
Lemma vars_scan w v : vars_of w = v -> scan (pg w) = v_scan v.
Proof. by intros <-. Qed.

(** The chunk goes to [p]. *)
Lemma ends_assign p ip c w i seg : ground p ip c w -> default [] (cfSeg (scan (pg w))) !! i = Some seg -> 0 < endHeight seg < Zlen c ->
  ends (peergroup_assign_chunk p i) w (fun _ v => exists now, v = vars_of w <| v_scan ::= update_seg i (assigned p now) |>).
Proof.
  intros Hg Hi He. destruct (at_height_ok _ c (endHeight seg) (g_bs _ _ _ _ Hg) He) as [hdr Eat].
  unfold peergroup_assign_chunk. apply ends_get. rewrite Hi. eapply ends_ask; [exact Eat|]. cbn.
  eapply ends_step; [apply runs_sends, getcfilters_ok; [apply (g_send _ _ _ _ Hg)|apply hash_at_length]|]. intros w1 M1 V1. cbn.
  destruct (runs_time w1) as [now Ht]. eapply ends_step; [exact Ht|]. intros w2 M2 V2.
  eapply ends_runs; [apply runs_on_scan|]. exists now. by rewrite V2, V1.
Qed.

Definition next_chunk (p : positive) (s s' : cfscan) : Prop :=
  match find_seg (claimable p) (default [] (cfSeg s)) with
  | Some i => exists now, s' = update_seg i (assigned p now) s
  | None => s' = s
  end.
Lemma ends_assign_next p ip c w : ground p ip c w -> scan_on c (scan (pg w)) ->
  ends (peergroup_assign_next_chunk_to p) w (fun _ v => exists s, next_chunk p (scan (pg w)) s /\ v = vars_of w <| v_scan := s |>).
Proof.
  intros Hg (Hok & Hfl & Htip). unfold peergroup_assign_next_chunk_to, next_chunk. apply ends_get.
  destruct (find_seg _ _) as [i|] eqn:Ef.
  2: { eapply ends_runs; [apply runs_ret|]. by exists (scan (pg w)). }
  apply find_seg_some in Ef as (seg & Hi & _). unfold scan_ok in Hok. destruct (cfSeg (scan (pg w))) as [segs|] eqn:Es; [|done].
  destruct Hok as [Hok _]. cbn in Hi. destruct (sg_chunk _ _ _ Hok _ _ Hi) as [Hst Hen Hle _ _].
  eapply ends_conseq; [eapply (ends_assign p ip c w i seg Hg); [by rewrite Es|]|].
  - rewrite Hen. unfold minimum, CFILTER_BATCH in *. destruct (Z.ltb_spec (startHeight seg + 1000 - 1) (cfTipHeight (scan (pg w)))); lia.
  - intros _ v (now & ->). eexists. split; [by exists now|done].
Qed.

(** *** A filter of a chunk *)

Lemma advance_scan bs c exits L v : v_scan (advance_vars bs c exits L v) = v_scan v.
Proof. unfold advance_vars, maybe_finish, finish. repeat case_match; done. Qed.

(** The chunk [seg] of the scan [s] gets a filter from the peer that has it. *)
Definition got_filter (p : positive) (ip : list byte) bs c (exits : bool) (L : Z) (i : nat) (seg : cf_segment) (v v' : vars pgw) : Prop :=
  exists now, let r := remaining seg - 1 in
    if r <=? 0 then exists o s', let v1 := v <| v_scan := after_complete i r now seg (v_scan v) |> <| v_stats := o |> in
      stats_fit ip o /\ next_chunk p (v_scan v1) s' /\ v' = advance_vars bs c exits L v1 <| v_scan := s' |>
    else v' = v <| v_scan ::= update_seg i (fun _ => seg <| remaining := r |> <| progressTS := now |>) |>.

Lemma ends_received p ip c w L i segs seg : ground p ip c w -> scan_on c (scan (pg w)) -> stats_fit ip (peerStats (pg w)) ->
  blockstore_get_block_height (blockStore w) (lastBlk (pg w)) = Ok L ->
  cfSeg (scan (pg w)) = Some segs -> segs !! i = Some seg -> owned_by p seg = true ->
  ends (chunk_received p i seg) w (fun _ v => got_filter p ip (blockStore w) c (updateAndExit (btc w)) L i seg (vars_of w) v).
Proof.
  intros Hg (Hok & Hfl & Htip) Hst HL Es Hi Hown. pose proof Hown as (Ha & Hd)%owned_true. unfold chunk_received.
  pose proof Hok as Hok'. unfold scan_ok in Hok'. rewrite Es in Hok'. destruct Hok' as [Hsg _].
  destruct (sg_chunk _ _ _ Hsg _ _ Hi) as [Hcs Hce Hle Hcl _]. specialize (Hcl Hd). unfold full_size in Hcl.
  assert (Hsz : endHeight seg - startHeight seg + 1 <= 1000).
  { rewrite Hce. unfold minimum, CFILTER_BATCH. destruct (Z.ltb_spec (startHeight seg + 1000 - 1) (cfTipHeight (scan (pg w)))); lia. }
  eapply ends_lift; [apply i32_ok; lia|]. destruct (runs_time w) as [now Ht]. eapply ends_step; [exact Ht|]. intros w1 M1 V1.
  cbv zeta. eapply ends_step; [apply runs_on_scan|]. intros w2 M2 V2. rewrite V1 in V2. unfold got_filter. cbv zeta.
  destruct (remaining seg - 1 <=? 0); cbn [when].
  2: { eapply ends_runs; [apply runs_ret|]. exists now. by rewrite V2. }
  set (r := remaining seg - 1) in *. set (seg1 := seg <| remaining := r |> <| progressTS := now |>) in *.
  unfold chunk_complete. eapply ends_step; [apply runs_on_scan|]. intros w3 M3 V3. rewrite V2 in V3.
  assert (Mw3 : mild w w3) by (by transitivity w1; [|transitivity w2]).
  eapply ends_step; [apply (runs_ip p ip c), (mild_ground _ _ _ w); done|]. intros w4 M4 V4.
  assert (Hg4 : ground p ip c w4) by (apply (mild_ground _ _ _ w3); [done|by apply (mild_ground _ _ _ w)]).
  destruct (runs_stats_done p ip c w4 (progressTS seg1 - assignedTS seg1) Hg4) as (o & Ho & Hrec).
  { change (peerStats (pg w4)) with (v_stats (vars_of w4)). by rewrite V4, V3. }
  eapply ends_step; [exact Hrec|]. intros w5 M5 V5. eapply ends_step; [apply runs_on_scan|]. intros w6 M6 V6.
  rewrite V5, V4, V3 in V6.
  assert (V6' : vars_of w6 = vars_of w <| v_scan := after_complete i r now seg (scan (pg w)) |> <| v_stats := o |>).
  { rewrite V6. unfold after_complete.
    rewrite <- (update_twice i (fun seg => seg <| done := true |>) seg1 (scan (pg w)) : _ = update_seg i (fun _ => completed r now seg) _). done. }
  clear V6. assert (Mw6 : mild w w6) by (by transitivity w3; [|transitivity w4; [|transitivity w5]]).
  assert (Hg6 : ground p ip c w6) by (by apply (mild_ground _ _ _ w)). pose proof (vars_scan _ _ V6') as S6. cbn in S6.
  assert (Hs6 : scan_on c (scan (pg w6))).
  { rewrite S6. split; [by apply (after_complete_ok p i r now seg _ segs)|done]. }
  assert (HL6 : blockstore_get_block_height (blockStore w6) (lastBlk (pg w6)) = Ok L).
  { rewrite (m_bs _ _ Mw6). change (lastBlk (pg w6)) with (v_lastBlk (vars_of w6)). by rewrite V6'. }
  eapply ends_step; [apply (runs_advance p ip c w6 L Hg6 Hs6 HL6)|]. intros w7 M7 V7.
  rewrite (m_bs _ _ Mw6), (mild_exits w w6 Mw6), V6' in V7. pose proof (vars_scan _ _ V7) as S7. rewrite advance_scan in S7. cbn [v_scan set] in S7.
  eapply ends_conseq; [apply (ends_assign_next p ip c w7)|].
  - by apply (mild_ground _ _ _ w6).
  - rewrite S7. by rewrite S6 in Hs6.
  - intros _ v (s' & Hn & ->). exists now, o, s'. split; [done|]. rewrite S7 in Hn. split; [done|]. by rewrite V7.
Qed.

(** *** A filter *)

(** The filter of the block at the height [h], with the data [data]. *)
Record genuine bs c (o : option cfheaderstore) (h : Z) (cf : btc_msg_cfilter) (data : list byte) : Prop := {
  gn_hash : cf_blockHash cf = hash_at bs c h;
  gn_check : check_filter o h cf = Ok CF_VERIFIED;
  gn_data : cf_filterData cf = Some data /\ cf_numBytes cf = Zlen data /\ Zlen data < 2 ^ 40 }.

Lemma filter_has_perm data hash (l l' : list (list byte)) : l ≡ₚ l' -> filter_has data hash l -> filter_has data hash l'.
Proof. intros Hp (N & pos & it & Er & HN & Hin & Hs). exists N, pos, it. split; [done|]. split; [done|]. split; [by apply (Permutation_in _ Hp)|done]. Qed.

(** The wallet was asked for its scripts. *)
Definition asked (wlt wlt' : pgw) : Prop := exists l, wallet_get_filter_scripts wlt = Ok (l, wlt').

Lemma ends_match c w cf o h data scripts : genuine (blockStore w) c o h cf data -> scripts_are (wallet w) scripts ->
  ends (match_filter cf) w (fun b v => (b = true <-> filter_has data (cf_blockHash cf) scripts) /\
    exists wlt, scripts_are wlt scripts /\ asked (wallet w) wlt /\ v = vars_of w <| v_wallet := wlt |>).
Proof.
  intros [_ _ (Ed & En & Hl)] Hw. destruct (scripts_law _ _ Hw) as (l' & wlt & E & Hp & Hw').
  assert (Hb : exists b, (if Zlen l' =? 0 then Ok false
       else gcs_filter_match_any (cf_filterData cf) (cf_numBytes cf) (Some (cf_blockHash cf)) (Some l')) = Ok b /\
       (b = true <-> filter_has data (cf_blockHash cf) scripts)).
  { destruct (Z.eqb_spec (Zlen l') 0) as [E0|E0].
    - exists false. split; [done|]. split; [done|]. intros (N & pos & it & _ & _ & Hin & _). apply (Permutation_in _ (symmetry Hp)) in Hin.
      destruct l'; [done|]. zlen. zlia.
    - rewrite Ed, En. destruct (match_any_spec data (cf_blockHash cf) l' Hl) as (b & Eb & Hb). exists b. split; [done|]. rewrite Hb.
      split; by apply filter_has_perm. }
  destruct Hb as (b & Eb & Hb). exists b. eexists. unfold match_filter. rewrite E, bind_ok, Eb. split; [done|]. split; [by split|].
  split; [done|]. exists wlt. split; [done|]. split; [by exists l'|done].
Qed.

(** The block is asked for if the filter matches. *)
Definition add_pending (hash : uint256) (h : Z) (p : positive) (now : Z) (s : cfscan) : cfscan :=
  grow_pending s <| cfPending ::= fun l => l ++ [CfPending hash h p now] |>.
Definition fetched (p : positive) (hash : uint256) (h : Z) (data : list byte) scripts (v v' : vars pgw) : Prop :=
  exists wlt, scripts_are wlt scripts /\ asked (v_wallet v) wlt /\
    ((~ filter_has data hash scripts /\ v' = v <| v_wallet := wlt |>) \/
     (filter_has data hash scripts /\ exists now, v' = v <| v_wallet := wlt |> <| v_fetched ::= fun n => n + 1 |> <| v_scan ::= add_pending hash h p now |>)).

Lemma ends_fetch p ip c w cf o h data scripts : ground p ip c w -> genuine (blockStore w) c o h cf data -> scripts_are (wallet w) scripts ->
  0 < h < Zlen c -> - 2 ^ 31 <= numFetched (dl (pg w)) < 2 ^ 31 - 1 ->
  ends (match_and_fetch p cf) w (fun r v => r = false /\ fetched p (hash_at (blockStore w) c h) h data scripts (vars_of w) v).
Proof.
  intros Hg Hgn Hw Hh Hn. pose proof (gn_hash _ _ _ _ _ _ Hgn) as Eh. unfold match_and_fetch.
  eapply ends_then; [by eapply ends_match|]. intros m w1 M1 (Hm & wlt & Hw1 & Ha1 & V1). rewrite Eh in *.
  destruct m; cbn [negb].
  2: { eapply ends_runs; [apply runs_ret|]. split; [done|]. exists wlt. split; [done|]. split; [done|]. left. split; [|done].
       intros Hhas. by apply Hm in Hhas. }
  apply ends_get. eapply ends_lift.
  { change (numFetched (dl (pg w1))) with (v_fetched (vars_of w1)). rewrite V1. apply i32_ok. cbn. lia. }
  change (v_fetched _) with (numFetched (dl (pg w))).
  eapply (ends_step _ _ _ tt (vars_of w1 <| v_fetched := numFetched (dl (pg w)) + 1 |>)); [eexists; split; [done|]; split; [by split|done]|].
  intros w2 M2 V2. assert (Mw2 : mild w w2) by by transitivity w1. unfold peergroup_add_pending_block.
  pose proof (mild_ground _ _ _ _ _ Mw2 Hg) as Hg2.
  assert (Hbh : blockstore_get_block_height (blockStore w2) (hash_at (blockStore w) c h) = Ok h).
  { rewrite (m_bs _ _ Mw2). apply block_height_ok; [apply (g_bs _ _ _ _ Hg)|lia|by apply (g_hash _ _ _ _ Hg)]. }
  eapply (ends_then _ _ _ (fun _ v => exists now, v = vars_of w2 <| v_scan ::= add_pending (hash_at (blockStore w) c h) h p now |>)).
  - eapply ends_step; [apply runs_on_scan|]. intros w3 M3 V3. eapply ends_ask; [by rewrite (m_bs _ _ M3)|].
    destruct (runs_time w3) as [now Ht]. eapply ends_step; [exact Ht|]. intros w4 M4 V4. eapply ends_runs; [apply runs_on_scan|].
    exists now. by rewrite V4, V3.
  - intros _ w3 M3 (now & V3). eapply ends_runs.
    + apply runs_sends, getdata_ok; [apply (mild_can_send w2); [done|apply (g_send _ _ _ _ Hg2)]|constructor; [apply hash_at_length|done]|by unfold Zlen; cbn].
    + split; [done|]. exists wlt. split; [done|]. split; [done|]. right. split; [by apply Hm|]. exists now. by rewrite V3, V2, V1.
Qed.

(** The chunk of the height gets it. *)
Definition counted (p : positive) (ip : list byte) bs c (exits : bool) (L h : Z) (v v' : vars pgw) : Prop :=
  match seg_at (v_scan v) h with
  | Some (i, seg) => if owned_by p seg then got_filter p ip bs c exits L i seg v v' else v' = v
  | None => v' = v
  end.

Lemma fits_ground p ip c w : ground p ip c w -> forall h, 0 < h < Zlen c ->
  blockstore_get_block_height (blockStore w) (hash_at (blockStore w) c h) = Ok h.
Proof. intros Hg h Hh. apply block_height_ok; [apply (g_bs _ _ _ _ Hg)|lia|by apply (g_hash _ _ _ _ Hg)]. Qed.

Lemma ends_cfilter p ip c w L cf h data scripts : ground p ip c w -> scan_on c (scan (pg w)) -> stats_fit ip (peerStats (pg w)) ->
  state (btc w) ∈ [BITC_STATE_UPDATE_TXDB; BITC_STATE_READY] -> stopAfterHeight (btc w) = 0 ->
  blockstore_get_block_height (blockStore w) (lastBlk (pg w)) = Ok L ->
  genuine (blockStore w) c (cfStore (pg w)) h cf data -> scripts_are (wallet w) scripts -> 0 < h < Zlen c ->
  - 2 ^ 31 <= numFetched (dl (pg w)) < 2 ^ 31 - 1 -> - 2 ^ 31 <= cfVerified (scan (pg w)) < 2 ^ 31 - 1 ->
  ends (peergroup_handle_cfilter p cf) w (fun r v => r = false /\ exists v1,
    counted p ip (blockStore w) c (updateAndExit (btc w)) L h (vars_of w <| v_scan ::= fun s => s <| cfVerified := cfVerified (scan (pg w)) + 1 |> |>) v1 /\
    fetched p (hash_at (blockStore w) c h) h data scripts v1 v).
Proof.
  intros Hg Hsc Hst Hstate Hstop HL Hgn Hw Hh Hnf Hnv. unfold peergroup_handle_cfilter. apply ends_assert; [done|].
  eapply ends_ask; [by rewrite (gn_hash _ _ _ _ _ _ Hgn); apply (fits_ground p ip)|]. rewrite ltb_f by lia. apply ends_get.
  eapply ends_lift; [apply (gn_check _ _ _ _ _ _ Hgn)|]. cbv iota. eapply ends_lift; [apply i32_ok; lia|].
  eapply ends_step; [apply runs_on_scan|]. intros w1 M1 V1. eapply ends_step; [apply runs_progress|]. intros w2 M2 V2. rewrite V1 in V2.
  assert (Mw2 : mild w w2) by by transitivity w1. pose proof (mild_ground _ _ _ _ _ Mw2 Hg) as Hg2. pose proof (vars_scan _ _ V2) as S2. cbn in S2.
  change (seg_at (scan (pg w)) h) with (seg_at (scan (pg w) <| cfVerified := cfVerified (scan (pg w)) + 1 |>) h). rewrite <- S2.
  assert (Hsc2 : scan_on c (scan (pg w2))) by (rewrite S2; exact Hsc).
  eapply (ends_then _ _ _ (fun _ v => counted p ip (blockStore w) c (updateAndExit (btc w)) L h (vars_of w2) v /\ v_wallet v = wallet w /\ v_fetched v = numFetched (dl (pg w)))).
  { unfold count_filter, counted. cbn [v_scan vars_of]. destruct (seg_at (scan (pg w2)) h) as [[i seg]|] eqn:Eg.
    2: { eapply ends_runs; [apply runs_ret|]. split; [done|]. by rewrite V2. }
    destruct (owned_by p seg) eqn:Eo; cbn [when]; [|eapply ends_runs; [apply runs_ret|]; split; [done|]; by rewrite V2].
    apply seg_at_lookup in Eg as (segs & Es & Hi). eapply ends_conseq; [eapply (ends_received p ip c w2 L i segs seg); try done|].
    - change (peerStats (pg w2)) with (v_stats (vars_of w2)). by rewrite V2.
    - rewrite (m_bs _ _ Mw2). change (lastBlk (pg w2)) with (v_lastBlk (vars_of w2)). by rewrite V2.
    - intros u v Hv. cbv beta in Hv. rewrite (m_bs _ _ Mw2), (mild_exits _ _ Mw2) in Hv. split; [done|]. unfold got_filter in Hv. rewrite V2 in Hv.
      destruct Hv as (now & Hv). cbv zeta in Hv. destruct (_ <=? 0); [|by rewrite Hv]. destruct Hv as (o & s' & _ & _ & ->).
      unfold advance_vars, maybe_finish, finish. repeat case_match; done. }
  intros _ w3 M3 (Hc3 & Hw3 & Hf3). assert (Mw3 : mild w w3) by by transitivity w2. unfold past_stop. rewrite Hstop. cbn [Z.ltb Z.compare andb].
  eapply ends_conseq; [apply (ends_fetch p ip c w3 cf (cfStore (pg w)) h data scripts)|].
  - by apply (mild_ground _ _ _ w).
  - by rewrite (m_bs _ _ Mw3).
  - cbn in Hw3. by rewrite Hw3.
  - done.
  - cbn in Hf3. by rewrite Hf3.
  - intros r v (Hr & Hv). rewrite (m_bs _ _ Mw3) in Hv. split; [done|]. exists (vars_of w3). rewrite V2 in Hc3. by split.
Qed.

(** *** A block *)

Definition tx_sound (tx : btc_msg_tx) : Prop := tx_loaded tx /\ Zlen (tx_bytes tx) <= size_max.
Definition block_sound (blk : btc_msg_block) : Prop := 0 <= blk_txCount blk <= Zlen (blk_tx blk) /\ Forall tx_sound (blk_tx blk).

(** The transactions of a block that are given to the wallet. *)
Definition block_feed (blk : btc_msg_block) : list (uint256 * list byte) :=
  map (fun tx => (header_hash (blk_header blk), tx_bytes tx)) (take (Z.to_nat (blk_txCount blk)) (blk_tx blk)).

(** What the scan needs of the wallet, as long as it is [able] to take the
    transactions that are to come: its scripts stay, and it takes them, whatever
    else there is in the program. CfWallet.v has it of the program's wallet. *)
Record serves (bs : blockstore) scripts (able : list (uint256 * list byte) -> pgw -> Prop) : Prop := {
  sv_scripts : forall l wlt, able l wlt -> scripts_are wlt scripts;
  sv_asked : forall l wlt wlt', able l wlt -> asked wlt wlt' -> able l wlt';
  sv_tx : forall env hash buf l wlt, env_blockStore env = bs -> able ((hash, buf) :: l) wlt ->
    exists r wlt', wallet_handle_tx env hash buf wlt = Ok (r, wlt') /\ able l wlt' }.

Lemma ends_feed bs scripts able hash txs rest : serves bs scripts able -> Forall tx_sound txs -> forall w,
  blockStore w = bs -> able (map (fun tx => (hash, tx_bytes tx)) txs ++ rest) (wallet w) ->
  ends (feed_txs hash txs) w (fun _ v => exists wlt, able rest wlt /\ v = vars_of w <| v_wallet := wlt |>).
Proof.
  intros Ht Hf. induction Hf as [|tx txs ((Hsh & _ & _ & Fi & Fo) & Hl) _ IH]; intros w Hbs Hw; cbn [feed_txs map app] in *.
  { eapply ends_runs; [apply runs_ret|]. by exists (wallet w). }
  destruct (writes_tx tx Hsh Fi Fo buff_alloc) as (b & E & _ & Hc); [apply gwf_alloc|cbn; lia|]. eapply ends_lift; [exact E|]. cbn [negb when].
  rewrite contents_alloc in Hc. cbn [app] in Hc. destruct (sv_tx _ _ _ Ht (env_of w) hash (tx_bytes tx) _ (wallet w) Hbs Hw) as (r & wlt & Ew & Hw'). rewrite <- Hc in Ew.
  eapply (ends_step _ _ _ tt (vars_of w <| v_wallet := wlt |>)).
  { eexists. rewrite Ew. split; [done|]. split; [by split|done]. }
  intros w1 M1 V1. assert (E1 : wallet w1 = wlt) by (change (wallet w1) with (v_wallet (vars_of w1)); by rewrite V1).
  eapply ends_conseq; [apply IH; [by rewrite (m_bs _ _ M1)|by rewrite E1]|]. intros _ v (wlt2 & Hw2 & ->). exists wlt2. split; [done|]. by rewrite V1.
Qed.

Definition drop_pending (hash : uint256) (s : cfscan) : cfscan := s <| cfPending ::= remove_pending hash |>.
Lemma scan_on_pending c hash s : scan_on c s -> scan_on c (drop_pending hash s).
Proof. done. Qed.

Lemma ends_block p ip c w L blk h scripts able rest : ground p ip c w -> scan_on c (scan (pg w)) ->
  state (btc w) ∈ [BITC_STATE_UPDATE_TXDB; BITC_STATE_READY] -> cfStopRequested (scan (pg w)) = false ->
  blockstore_get_block_height (blockStore w) (lastBlk (pg w)) = Ok L -> serves (blockStore w) scripts able -> able (block_feed blk ++ rest) (wallet w) ->
  header_hash (blk_header blk) = hash_at (blockStore w) c h -> 0 < h < Zlen c -> block_sound blk ->
  ends (peergroup_handle_block p blk) w (fun r v => r = false /\ exists wlt, able rest wlt /\
    v = maybe_finish (updateAndExit (btc w)) (blockstore_get_best_hash (blockStore w))
          (advance_vars (blockStore w) c (updateAndExit (btc w)) L
             (vars_of w <| v_wallet := wlt |> <| v_scan ::= drop_pending (hash_at (blockStore w) c h) |>))).
Proof.
  intros Hg Hsc Hst Hstop HL Ht Hw Eh Hh [Hn Hf]. unfold peergroup_handle_block. apply ends_assert; [done|]. rewrite Eh.
  eapply ends_ask; [by apply (fits_ground p ip)|]. eapply ends_lift; [unfold first_n; by rewrite leb_t by lia|].
  eapply ends_then; [eapply ends_feed; [exact Ht|by apply Forall_take|done|unfold block_feed in Hw; rewrite Eh in Hw; exact Hw]|]. cbv beta. intros _ w1 M1 (wlt & Hw1 & V1).
  eapply ends_step; [apply runs_on_scan|]. intros w2 M2 V2. rewrite V1 in V2. assert (Mw2 : mild w w2) by by transitivity w1.
  pose proof (vars_scan _ _ V2) as S2.
  assert (HL2 : blockstore_get_block_height (blockStore w2) (lastBlk (pg w2)) = Ok L).
  { rewrite (m_bs _ _ Mw2). change (lastBlk (pg w2)) with (v_lastBlk (vars_of w2)). by rewrite V2. }
  eapply ends_step; [apply (runs_advance p ip c w2 L); [by apply (mild_ground _ _ _ w)|by rewrite S2|exact HL2]|]. intros w3 M3 V3.
  rewrite (m_bs _ _ Mw2), (mild_exits _ _ Mw2), V2 in V3. assert (Mw3 : mild w w3) by by transitivity w2. apply ends_get.
  pose proof (vars_scan _ _ V3) as S3. rewrite advance_scan in S3.
  assert (E3 : cfStopRequested (scan (pg w3)) = false) by (rewrite S3; exact Hstop). rewrite E3. cbn [andb].
  eapply ends_step; [apply runs_maybe_complete, (mild_fit w); [done|apply (g_fit _ _ _ _ Hg)]|]. intros w4 M4 V4.
  rewrite (m_bs _ _ Mw3), (mild_exits _ _ Mw3), V3 in V4. eapply ends_runs; [apply runs_ret|]. split; [done|]. exists wlt. split; [done|].
  exact V4.
Qed.
End run.
