(* ===== verification/CfScan.v ===== *)
(** * The scan of the filters comes to its end

    A peer that sends the filters it is asked for, in order, and the blocks it is
    asked for, at any time after: the chunks are done one after the other, the
    blocks that match are asked for and taken, and the program is ready. *)
From S2P Require Export ScanRun.

Section chunks_of_one.
Implicit Types seg : cf_segment.
Implicit Types segs : list cf_segment.
Variable p : positive.

(** The chunks when the next filter to come is that of [h]: one peer has them
    all, one at a time. *)
Definition chunk_no (floor h : Z) : nat := Z.to_nat ((h - floor) / CFILTER_BATCH).
Definition chunks_at (h : Z) (s : cfscan) : Prop :=
  exists segs, cfSeg s = Some segs /\ forall i seg, segs !! i = Some seg ->
    if h <=? cfTipHeight s then
      ((i < chunk_no (cfScanFloor s) h)%nat -> done seg = true) /\
      (i = chunk_no (cfScanFloor s) h -> owned_by p seg = true /\ remaining seg = endHeight seg - h + 1) /\
      ((chunk_no (cfScanFloor s) h < i)%nat -> claimable p seg = true)
    else done seg = true.

Lemma contig_all segs : (forall i seg, segs !! i = Some seg -> done seg = true) -> contig segs 0 = Zlen segs.
Proof.
  induction segs as [|x segs IH]; intros Hd; [done|]. cbn. rewrite (Hd O x eq_refl), contig_from, IH; [zlen; lia|].
  intros i. apply (Hd (S i)).
Qed.
Lemma contig_le segs i seg : segs !! i = Some seg -> done seg = false -> contig segs 0 <= Z.of_nat i.
Proof.
  intros Hi Hd. destruct (Z.le_gt_cases (contig segs 0) (Z.of_nat i)) as [|Hlt]; [done|].
  by rewrite (contig_done segs i seg Hlt Hi) in Hd.
Qed.
Lemma chunk_bounds floor h : floor <= h -> let k := chunk_no floor h in
  floor + CFILTER_BATCH * Z.of_nat k <= h < floor + CFILTER_BATCH * Z.of_nat k + CFILTER_BATCH.
Proof.
  intros Hh k. unfold k, chunk_no. pose proof (Z.div_pos (h - floor) CFILTER_BATCH ltac:(lia) ltac:(done)).
  rewrite Z2Nat.id by done. pose proof (Z.mul_div_le (h - floor) CFILTER_BATCH ltac:(done)).
  pose proof (Z.mul_succ_div_gt (h - floor) CFILTER_BATCH ltac:(done)). lia.
Qed.
Lemma chunk_no_eq floor h (k : nat) : floor + CFILTER_BATCH * Z.of_nat k <= h < floor + CFILTER_BATCH * Z.of_nat k + CFILTER_BATCH -> chunk_no floor h = k.
Proof.
  intros Hk. unfold chunk_no. rewrite <- (Z.div_unique (h - floor) CFILTER_BATCH (Z.of_nat k) (h - floor - CFILTER_BATCH * Z.of_nat k));
    [apply Nat2Z.id|unfold CFILTER_BATCH in *; lia|lia].
Qed.

(** The chunk of the height is the one at the peer. *)
Lemma chunk_here h s : scan_ok s -> chunks_at h s -> cfScanFloor s <= h <= cfTipHeight s ->
  exists segs seg, let k := chunk_no (cfScanFloor s) h in cfSeg s = Some segs /\ segs !! k = Some seg /\
    seg_at s h = Some (k, seg) /\ owned_by p seg = true /\ remaining seg = endHeight seg - h + 1 /\
    endHeight seg = minimum (cfScanFloor s + CFILTER_BATCH * Z.of_nat k + CFILTER_BATCH - 1) (cfTipHeight s).
Proof.
  intros Hok (segs & Es & Hc) Hh. unfold scan_ok in Hok. rewrite Es in Hok. destruct Hok as [Hok _].
  set (k := chunk_no (cfScanFloor s) h). pose proof (chunk_bounds (cfScanFloor s) h ltac:(lia)) as Hb. fold k in Hb. cbv zeta in Hb.
  assert (Hk : (k < length segs)%nat).
  { pose proof (sg_count _ _ _ Hok) as Hn. unfold Zlen in Hn. unfold k, chunk_no.
    pose proof (Z.div_le_mono (h - cfScanFloor s) (cfTipHeight s - cfScanFloor s) CFILTER_BATCH ltac:(done) ltac:(lia)).
    pose proof (Z.div_pos (h - cfScanFloor s) CFILTER_BATCH ltac:(lia) ltac:(done)). lia. }
  destruct (lookup_lt_is_Some_2 segs k Hk) as [seg Hseg]. exists segs, seg. split; [done|]. split; [done|].
  pose proof (Hc k seg Hseg) as Hck. rewrite leb_t in Hck by lia. destruct Hck as (_ & [Hown Hrem] & _); [done|].
  split; [|split; [done|split; [done|]]].
  - unfold seg_at, CF_CHUNK_INDEX, cfSegCount. rewrite Es. cbn [default from_option id].
    rewrite Z.quot_div_nonneg by (done || lia). pose proof (Z.div_pos (h - cfScanFloor s) CFILTER_BATCH ltac:(lia) ltac:(done)) as H0'.
    rewrite leb_t by lia. rewrite ltb_t by (unfold k, chunk_no in Hk; unfold Zlen; lia). cbn [andb].
    change (Z.to_nat ((h - cfScanFloor s) / CFILTER_BATCH)) with k. by rewrite Hseg.
  - destruct (sg_chunk _ _ _ Hok _ _ Hseg) as [-> -> _ _ _]. done.
Qed.

Lemma find_seg_at f segs k : (forall i seg, (i < k)%nat -> segs !! i = Some seg -> f seg = false) ->
  (forall seg, segs !! k = Some seg -> f seg = true) -> find_seg f segs = if decide (k < length segs)%nat then Some k else None.
Proof.
  revert k. induction segs as [|x segs IH]; intros k Hlo Hk; cbn [find_seg length]; [done|].
  destruct k as [|k].
  - rewrite (Hk x eq_refl). done.
  - rewrite (Hlo O x) by (done || lia). rewrite (IH k); [|intros i seg Hi; apply (Hlo (S i)); lia|intros seg; apply (Hk seg)].
    destruct (decide (k < length segs)%nat), (decide (S k < S (length segs))%nat); try lia; done.
Qed.

(** Not the last filter of its chunk. *)
Lemma chunks_more h s segs seg now : let k := chunk_no (cfScanFloor s) h in
  chunks_at h s -> cfSeg s = Some segs -> segs !! k = Some seg -> owned_by p seg = true ->
  remaining seg = endHeight seg - h + 1 -> endHeight seg = minimum (cfScanFloor s + CFILTER_BATCH * Z.of_nat k + CFILTER_BATCH - 1) (cfTipHeight s) ->
  cfScanFloor s <= h -> 0 < remaining seg - 1 ->
  h < cfTipHeight s /\ chunks_at (h + 1) (update_seg k (fun _ => seg <| remaining := remaining seg - 1 |> <| progressTS := now |>) s).
Proof.
  intros k (segs' & Es' & Hc) Es Hk Hown Hrem Hend Hlo Hr. rewrite Es in Es'. injection Es' as <-. pose proof (chunk_bounds _ h Hlo) as Hb. fold k in Hb. cbv zeta in Hb.
  assert (Hle : endHeight seg <= cfTipHeight s /\ endHeight seg <= cfScanFloor s + CFILTER_BATCH * Z.of_nat k + CFILTER_BATCH - 1).
  { rewrite Hend. unfold minimum. destruct (_ <? _) eqn:E; zbool; lia. }
  split; [lia|]. exists (alter (fun _ => seg <| remaining := remaining seg - 1 |> <| progressTS := now |>) k segs).
  split; [unfold update_seg; cbn [set cfSeg]; by rewrite Es|]. intros i x (x0 & Hi & ->)%alter_lookup_inv.
  change (cfTipHeight (update_seg k _ s)) with (cfTipHeight s). change (cfScanFloor (update_seg k _ s)) with (cfScanFloor s).
  rewrite leb_t by lia. rewrite (chunk_no_eq (cfScanFloor s) (h + 1) k) by lia. specialize (Hc i x0 Hi). rewrite leb_t in Hc by lia. fold k in Hc.
  destruct (decide (i = k)) as [->|Hne]; [|destruct Hc as (Hlt & _ & Hgt); split; [done|split; [done|done]]].
  split; [lia|]. split; [|lia]. intros _. split; [exact Hown|]. cbn. lia.
Qed.

(** The last one: the next chunk is asked for. *)
Lemma chunks_next h s s' segs seg now r : let k := chunk_no (cfScanFloor s) h in
  scan_ok s -> chunks_at h s -> cfSeg s = Some segs -> segs !! k = Some seg -> owned_by p seg = true ->
  remaining seg = endHeight seg - h + 1 -> endHeight seg = minimum (cfScanFloor s + CFILTER_BATCH * Z.of_nat k + CFILTER_BATCH - 1) (cfTipHeight s) ->
  cfScanFloor s <= h <= cfTipHeight s -> remaining seg - 1 <= 0 -> next_chunk p (after_complete k r now seg s) s' ->
  chunks_at (h + 1) s' /\ (h = cfTipHeight s -> cfDoneContig (after_complete k r now seg s) = Zlen segs).
Proof.
  intros k Hok (segs' & Es' & Hc) Es Hk Hown Hrem Hend Hh Hr Hnext. rewrite Es in Es'. injection Es' as <-. pose proof (chunk_bounds _ h (proj1 Hh)) as Hb. fold k in Hb. cbv zeta in Hb.
  destruct (after_complete_segs k r now seg s segs Es Hok Hk) as [Es1 Ec1]. set (s1 := after_complete k r now seg s) in *.
  set (segs1 := alter (fun _ => completed r now seg) k segs) in *.
  assert (Hsg : segs_ok (cfScanFloor s) (cfTipHeight s) segs) by (unfold scan_ok in Hok; rewrite Es in Hok; tauto).
  assert (Hlow : forall i x, (i <= k)%nat -> segs1 !! i = Some x -> done x = true).
  { intros i x Hi (x0 & Hi0 & ->)%alter_lookup_inv. destruct (decide (i = k)) as [->|Hne]; [done|].
    specialize (Hc i x0 Hi0). rewrite leb_t in Hc by lia. apply Hc. fold k. lia. }
  assert (Hhigh : forall i x, (k < i)%nat -> segs1 !! i = Some x -> segs !! i = Some x /\ claimable p x = true).
  { intros i x Hi (x0 & Hi0 & ->)%alter_lookup_inv. rewrite decide_False by lia. split; [done|].
    specialize (Hc i x0 Hi0). rewrite leb_t in Hc by lia. apply Hc. fold k. lia. }
  assert (Hf : find_seg (claimable p) segs1 = if decide (S k < length segs1)%nat then Some (S k) else None).
  { apply find_seg_at; [|intros x Hx; apply (Hhigh (S k) x ltac:(lia) Hx)]. intros i x Hi Hx. unfold claimable. rewrite (Hlow i x ltac:(lia) Hx). cbn [negb]. by rewrite andb_false_r. }
  unfold next_chunk in Hnext. rewrite Es1 in Hnext. cbn [default from_option id] in Hnext. rewrite Hf in Hnext.
  assert (Hlen : length segs1 = length segs) by apply length_alter.
  pose proof (sg_count _ _ _ Hsg) as Hn. unfold Zlen in Hn.
  destruct (Z.eq_dec h (cfTipHeight s)) as [Ht|Ht].
  - assert (Hkn : length segs1 = S k).
    { rewrite Hlen. unfold k, chunk_no. rewrite Ht. pose proof (Z.div_pos (cfTipHeight s - cfScanFloor s) CFILTER_BATCH ltac:(lia) ltac:(done)). lia. }
    rewrite decide_False in Hnext by lia. subst s'.
    assert (Hall : forall i x, segs1 !! i = Some x -> done x = true).
    { intros i x Hx. apply (Hlow i x); [|done]. apply lookup_lt_Some in Hx. lia. }
    split; [|intros _; rewrite Ec1, contig_all by done; unfold Zlen; lia].
    exists segs1. split; [done|]. intros i x Hx. change (cfTipHeight s1) with (cfTipHeight s). rewrite leb_f by lia. by apply (Hall i).
  - assert (Eh : h = cfScanFloor s + CFILTER_BATCH * Z.of_nat k + CFILTER_BATCH - 1).
    { revert Hend. unfold minimum. destruct (_ <? _) eqn:E; zbool; lia. }
    assert (Hk1 : (S k < length segs1)%nat).
    { rewrite Hlen. pose proof (Z.div_le_mono (CFILTER_BATCH * (Z.of_nat k + 1)) (cfTipHeight s - cfScanFloor s) CFILTER_BATCH ltac:(done) ltac:(lia)) as Hd.
      rewrite Z.mul_comm, Z.div_mul in Hd by done. lia. }
    rewrite decide_True in Hnext by done. destruct Hnext as [now2 ->]. split; [|lia].
    exists (alter (assigned p now2) (S k) segs1). split; [unfold update_seg; cbn [set cfSeg]; by rewrite Es1|].
    intros i x (x0 & Hi & ->)%alter_lookup_inv.
    change (cfTipHeight (update_seg (S k) _ s1)) with (cfTipHeight s). change (cfScanFloor (update_seg (S k) _ s1)) with (cfScanFloor s).
    rewrite leb_t by lia. rewrite (chunk_no_eq (cfScanFloor s) (h + 1) (S k)) by lia.
    destruct (decide (i = S k)) as [->|Hne].
    + split; [lia|]. split; [|lia]. intros _. destruct (Hhigh (S k) x0 ltac:(lia) Hi) as (Hi' & Hcl). apply claimable_true in Hcl as (_ & Hd & _).
      split; [by apply owned_true|]. cbn. rewrite (ck_start _ _ _ _ (sg_chunk _ _ _ Hsg _ _ Hi')). lia.
    + split; [intros Hlt; apply (Hlow i x0); [lia|done]|]. split; [done|]. intros Hgt. by apply (Hhigh i x0); [lia|].
Qed.

(** The scan as it is set up: every chunk is to be had. *)
Lemma start_scan_at floor tip s sc : floor <= tip -> start_scan floor tip s = Ok sc -> cfScanFloor sc = floor /\ cfTipHeight sc = tip /\ cfVerified sc = floor /\
  cfDoneContig sc = 0 /\ cfPending sc = cfPending s /\ cfStopRequested sc = cfStopRequested s /\
  exists l, cfSeg sc = Some l /\ l <> [] /\ forall i seg, l !! i = Some seg -> seg =
    let b := floor + CFILTER_BATCH * Z.of_nat i in let e := minimum (b + CFILTER_BATCH - 1) tip in
    CfSegment b e (e - b + 1) None None 0 0 false.
Proof.
  intros Hle. unfold start_scan. rewrite leb_t by lia. destruct (carve _ floor tip) as [l|] eqn:El; [|done]. cbn [mbind res_bind]. intros [= <-].
  apply carve_ok in El as (Hl & _ & Hs). repeat (split; [done|]). exists l. split; [done|]. split; [|exact Hs].
  intros ->. pose proof (Z.div_pos (tip - floor) CFILTER_BATCH ltac:(lia) ltac:(done)). cbn in Hl. lia.
Qed.

(** The first chunk is given. *)
Lemma chunks_start floor tip s sc now : 0 < floor <= tip -> start_scan floor tip s = Ok sc ->
  exists l seg, cfSeg sc = Some l /\ l !! O = Some seg /\ existsb (owned_by p) l = false /\ find_seg (claimable p) l = Some O /\
    0 < endHeight seg <= tip /\ count_inflight l = 0 /\
    scan_ok (update_seg O (assigned p now) sc) /\ chunks_at floor (update_seg O (assigned p now) sc).
Proof.
  intros Hle Es. pose proof (start_scan_ok _ _ _ _ Es) as Hok. destruct (start_scan_at floor tip s sc ltac:(lia) Es) as (Ef & Et & _ & Ed & _ & _ & l & El & Hne & Hs).
  destruct l as [|seg l]; [done|]. set (segs := seg :: l) in *. exists segs, seg. split; [done|]. split; [done|].
  assert (Hno : existsb (owned_by p) segs = false).
  { apply not_true_is_false. intros Ex. apply existsb_exists in Ex as (x & Hx & (Ha & _)%owned_true). apply list_elem_of_In, list_elem_of_lookup in Hx as [i Hi].
    by rewrite (Hs i x Hi) in Ha. }
  assert (Hcl : forall i x, segs !! i = Some x -> claimable p x = true) by (by intros i x Hi; rewrite (Hs i x Hi)).
  assert (Hfd : find_seg (claimable p) segs = Some O) by (cbn; by rewrite (Hcl O seg eq_refl)).
  assert (Hfl0 : count_inflight segs = 0) by (apply no_flight; intros i x Hi; by rewrite (Hs i x Hi)).
  pose proof (Hs O seg eq_refl) as E0. rewrite Z.mul_0_r, Z.add_0_r in E0. cbv zeta in E0.
  split; [done|]. split; [done|]. split; [rewrite E0; cbn; unfold minimum, CFILTER_BATCH; destruct (_ <? _) eqn:E; zbool; lia|]. split; [done|].
  pose proof Hok as Hok'. unfold scan_ok in Hok'. rewrite El in Hok'. destruct Hok' as [Hsg _]. split.
  - eapply update_seg_ok; [exact El|done|exact Hok|]. eapply assigned_ok; [exact Hsg|reflexivity|by apply (Hcl O)|exact Hno|by rewrite Hfl0].
  - exists (alter (assigned p now) O segs). split; [unfold update_seg; cbn [set cfSeg]; by rewrite El|]. intros i x (x0 & Hi & ->)%alter_lookup_inv.
    change (cfTipHeight (update_seg _ _ _)) with (cfTipHeight sc). change (cfScanFloor (update_seg _ _ _)) with (cfScanFloor sc).
    rewrite Ef, Et, leb_t by lia. rewrite (chunk_no_eq floor floor O) by (unfold CFILTER_BATCH; lia). split; [lia|]. split.
    + intros ->. rewrite decide_True by done. rewrite (Hs O x0 Hi). split; [by apply owned_true|]. cbn. lia.
    + intros Hi0. rewrite decide_False by lia. by apply (Hcl i).
Qed.

End chunks_of_one.

(** ** The blocks to come *)

Section pending_blocks.
Implicit Types l : list cf_pending_block.

Lemma last_removelast {A} (l : list A) x : last l = Some x -> l = removelast l ++ [x].
Proof. intros (l' & ->)%last_Some. by rewrite removelast_last. Qed.
Lemma remove_pending_perm hash l : (exists e, e ∈ l /\ cp_hash e = hash) ->
  exists e, cp_hash e = hash /\ l ≡ₚ e :: remove_pending hash l.
Proof.
  induction l as [|x l IH]; intros (e & He & Eh); [by apply not_elem_of_nil in He|]. cbn [remove_pending].
  unfold uint256_issame. case_bool_decide as Hx.
  - exists x. split; [done|]. constructor. destruct (last l) as [q|] eqn:El; [|apply last_None in El; by subst].
    rewrite (last_removelast l q El) at 1. by rewrite Permutation_app_comm.
  - apply elem_of_cons in He as [->|He]; [done|]. destruct IH as (e' & Eh' & Hp); [by exists e|]. exists e'. split; [done|].
    rewrite Hp at 1. constructor.
Qed.

Lemma min_loop l : forall m, let r := foldl (fun m p => if cp_height p <? m then cp_height p else m) m l in
  r <= m /\ (forall e, e ∈ l -> r <= cp_height e) /\ (forall b, b <= m -> (forall e, e ∈ l -> b <= cp_height e) -> b <= r).
Proof.
  induction l as [|x l IH]; intros m; cbn [foldl]; [split; [done|]; split; [intros e He; by apply not_elem_of_nil in He|auto]|].
  destruct (IH (if cp_height x <? m then cp_height x else m)) as (Hle & Hin & Hb). cbv zeta.
  assert (Hx : (if cp_height x <? m then cp_height x else m) <= m /\ (if cp_height x <? m then cp_height x else m) <= cp_height x)
    by (destruct (cp_height x <? m) eqn:E; zbool; lia).
  split; [lia|]. split.
  - intros e [->|He]%elem_of_cons; [lia|by apply Hin].
  - intros b Hbm Hbl. apply Hb; [|intros e He; apply Hbl; by right]. specialize (Hbl x (list_elem_of_here _ _)). destruct (cp_height x <? m); lia.
Qed.
End pending_blocks.

(** ** The honest peer *)

Inductive event : Type := EvFilter (cf : btc_msg_cfilter) | EvBlock (blk : btc_msg_block).

Section completes.
Context `{Malloc} `{Sha256} `{T : Table positive} `{W : !PgWallet}.
Implicit Types w : world.

Definition deliver (p : positive) (e : event) : ST world bool :=
  match e with EvFilter cf => peergroup_handle_cfilter p cf | EvBlock blk => peergroup_handle_block p blk end.
(** The transactions that are given to the wallet. *)
Fixpoint fed (evs : list event) : list (uint256 * list byte) :=
  match evs with [] => [] | EvFilter _ :: evs => fed evs | EvBlock blk :: evs => block_feed blk ++ fed evs end.
Fixpoint deliver_all (p : positive) (evs : list event) : ST world unit :=
  match evs with [] => mret tt | e :: evs => _ ← deliver p e; deliver_all p evs end.

Variables (p : positive) (ip : list byte) (c : list positive) (bs : blockstore) (o : option cfheaderstore).
Variables (exits : bool) (scripts : list (list byte)) (floor tip : Z).

(** What an honest peer sends from the filter of [h] on, the blocks of the heights
    [pend] being asked for: the filters in order, the blocks at any time. *)
Inductive honest : Z -> list Z -> list event -> Prop :=
| honest_end : honest (tip + 1) [] []
| honest_miss h pend cf data evs : h <= tip -> genuine bs c o h cf data -> ~ filter_has data (hash_at bs c h) scripts ->
    honest (h + 1) pend evs -> honest h pend (EvFilter cf :: evs)
| honest_hit h pend cf data evs : h <= tip -> genuine bs c o h cf data -> filter_has data (hash_at bs c h) scripts ->
    honest (h + 1) (pend ++ [h]) evs -> honest h pend (EvFilter cf :: evs)
| honest_block h pend x pend' blk evs : pend ≡ₚ x :: pend' -> header_hash (blk_header blk) = hash_at bs c x -> block_sound blk ->
    honest h pend' evs -> honest h pend (EvBlock blk :: evs).

Hypothesis (Hfl : 0 < floor < tip) (Htip : tip = Zlen c - 1) (Hwf : bs_wf bs c).
Variable able : list (uint256 * list byte) -> pgw -> Prop.
Hypothesis (Hserves : serves bs scripts able).

Definition best : uint256 := blockstore_get_best_hash bs.
Definition complete (v : vars pgw) : Prop :=
  v_lastBlk v = best /\ if exits then v_stop v = true /\ v_state v = BITC_STATE_UPDATE_TXDB else v_state v = BITC_STATE_READY.

(** The pointer is at the height [L]. *)
Definition pointer (L : Z) (v : vars pgw) : Prop :=
  v_lastBlk v = hash_at bs c L /\ floor <= L <= tip /\ (v_state v = BITC_STATE_UPDATE_TXDB \/ complete v) /\ (L = tip -> complete v).

Lemma best_is_tip : best = hash_at bs c tip.
Proof using Hfl Htip Hwf. unfold best. rewrite Htip. apply best_hash_at; [done|]. intros ->. zlen. lia. Qed.
Lemma complete_at_tip L v : pointer L v -> complete v -> L = tip.
Proof using Hfl Htip Hwf.
  intros (E & HL & _) (E' & _). rewrite best_is_tip, E in E'. apply (hash_at_inj bs c); [done|lia..|done].
Qed.

(** A change that is not of the pointer nor of the state. *)
Lemma pointer_same L v v' : v_lastBlk v' = v_lastBlk v -> v_state v' = v_state v -> v_stop v' = v_stop v -> pointer L v -> pointer L v'.
Proof. unfold pointer, complete. intros -> -> ->. done. Qed.

Lemma finish_pointer L v : pointer L v -> pointer L (maybe_finish exits best v).
Proof.
  intros Hp. unfold maybe_finish. destruct (bool_decide _ && all_done best v) eqn:E; [|done]. apply andb_prop in E as [Es E].
  apply bool_decide_eq_true in Es. unfold all_done in E. apply andb_prop in E as [_ E]. apply bool_decide_eq_true in E. destruct Hp as (El & HL & _ & _).
  assert (Hc : complete (finish exits v)) by (unfold complete, finish; destruct exits; by split).
  split; [by unfold finish; destruct exits|]. split; [done|]. split; [by right|done].
Qed.
Lemma finish_all v : v_state v = BITC_STATE_UPDATE_TXDB -> all_done best v = true -> complete (maybe_finish exits best v).
Proof.
  intros Es Ea. unfold maybe_finish. rewrite Es, bool_decide_eq_true_2 by done. rewrite Ea. cbn [andb].
  unfold all_done in Ea. apply andb_prop in Ea as [_ Ea]. apply bool_decide_eq_true in Ea. unfold complete, finish. by destruct exits.
Qed.

(** The scan, and the blocks it waits for. *)
Record waits (pend : list Z) (s : cfscan) : Prop := {
  wt_floor : cfScanFloor s = floor;
  wt_tip : cfTipHeight s = tip;
  wt_ok : scan_ok s;
  wt_stop : cfStopRequested s = false;
  wt_hash : forall e, e ∈ cfPending s -> cp_hash e = hash_at bs c (cp_height e);
  wt_heights : map cp_height (cfPending s) ≡ₚ pend;
  wt_range : forall x, x ∈ pend -> floor <= x <= tip }.

Lemma no_pending s : waits [] s -> cfPending s = [].
Proof. intros Hw. pose proof (wt_heights _ _ Hw) as E. apply Permutation_nil_r in E. by apply map_eq_nil in E. Qed.

(** Every chunk is done: nothing is above the safe height but a block to come. *)
Definition scanned (s : cfscan) : Prop := cfDoneContig s = cfSegCount s /\ cfSegCount s = (tip - floor) / CFILTER_BATCH + 1.
Lemma scanned_end : tip < floor + CFILTER_BATCH * ((tip - floor) / CFILTER_BATCH + 1) /\ 0 < (tip - floor) / CFILTER_BATCH + 1.
Proof using Hfl.
  pose proof (Z.mul_succ_div_gt (tip - floor) CFILTER_BATCH ltac:(done)). pose proof (Z.div_pos (tip - floor) CFILTER_BATCH ltac:(lia) ltac:(done)). lia.
Qed.
Lemma safe_at_tip s pend : waits pend s -> safe_height s = tip -> pend = [] /\ cfSegCount s <= cfDoneContig s.
Proof using Hfl.
  intros Hw E. unfold safe_height in E. rewrite (wt_floor _ _ Hw), (wt_tip _ _ Hw) in E.
  assert (Hm : tip <= min_pending (cfPending s) - 1 /\ tip <= floor + CFILTER_BATCH * cfDoneContig s - 1).
  { revert E. unfold minimum. repeat case_match; zbool; lia. }
  destruct Hm as [Hm Hd]. split.
  - destruct pend as [|x pend]; [done|]. exfalso. pose proof (wt_range _ _ Hw x (list_elem_of_here _ _)).
    assert (Hx : x ∈ map cp_height (cfPending s)) by (rewrite (wt_heights _ _ Hw); left).
    apply list_elem_of_In, in_map_iff in Hx as (e & <- & He%list_elem_of_In).
    pose proof (proj1 (proj2 (min_loop (cfPending s) INT_MAX)) e He). unfold min_pending in Hm. lia.
  - pose proof (wt_ok _ _ Hw) as Hok. unfold scan_ok, cfSegCount in *. destruct (cfSeg s) as [segs|]; cbn; [|rewrite Hok; done].
    destruct Hok as [Hok _]. rewrite (sg_count _ _ _ Hok), (wt_floor _ _ Hw), (wt_tip _ _ Hw).
    assert ((tip - floor) / CFILTER_BATCH < cfDoneContig s) by (apply Z.div_lt_upper_bound; [done|lia]). lia.
Qed.
Lemma safe_when_scanned s : waits [] s -> scanned s -> tip < INT_MAX -> safe_height s = tip.
Proof using Hfl.
  intros Hw [Hd Hn] Hmax. pose proof scanned_end. unfold safe_height. rewrite (wt_floor _ _ Hw), (wt_tip _ _ Hw), Hd, Hn, (no_pending s Hw).
  unfold minimum. cbn [min_pending foldl]. change (min_pending []) with INT_MAX. repeat case_match; zbool; lia.
Qed.

(** The pointer moves on: at the tip when all is done. *)
Lemma pointer_advances L v pend : pointer L v -> waits pend (v_scan v) ->
  exists L', pointer L' (advance_vars bs c exits L v) /\ L <= L' /\ (L' = L \/ L' = safe_height (v_scan v)) /\
    (advances L (v_scan v) = true -> L' = safe_height (v_scan v)).
Proof using Hfl Htip Hwf.
  intros Hp Hw. unfold advance_vars. destruct (advances L (v_scan v)) eqn:Ea.
  2: { exists L. split; [done|]. split; [lia|]. split; [by left|done]. }
  set (S := safe_height (v_scan v)). unfold advances in Ea. apply andb_prop in Ea as [[_ Hlo]%andb_prop Hlt]. zbool. fold S in Hlo, Hlt.
  exists S. split; [|split; [lia|]; split; [by right|done]]. rewrite (wt_floor _ _ Hw) in Hlo.
  assert (Hup : S <= tip). { unfold S, safe_height. rewrite (wt_tip _ _ Hw). unfold minimum. repeat case_match; zbool; lia. }
  destruct Hp as (El & HL & Hst & Hat).
  assert (Hup' : v_state v = BITC_STATE_UPDATE_TXDB).
  { destruct Hst as [|Hc]; [done|]. assert (L = tip); [|lia]. apply (complete_at_tip L v); [|done]. split; [done|]. split; [done|]. split; [by right|done]. }
  set (v1 := v <| v_lastBlk := hash_at bs c S |>). destruct (Z.eq_dec S tip) as [Et|Hne].
  - destruct (safe_at_tip (v_scan v) pend Hw Et) as [-> Hcnt].
    assert (Hc : complete (maybe_finish exits best v1)).
    { apply finish_all; [done|]. unfold all_done. cbn. rewrite leb_t by done. unfold cfBlocksPending. rewrite (no_pending _ Hw). cbn.
      apply bool_decide_eq_true. by rewrite best_is_tip, Et. }
    pose proof Hc as [Hb _]. split; [fold best; rewrite Hb, best_is_tip; by rewrite Et|]. split; [lia|]. split; [by right|done].
  - apply finish_pointer. split; [done|]. split; [lia|]. split; [by left|done].
Qed.

(** *** The invariant of the run *)

(** The next filter to come is that of [h], the blocks of [pend] are to come. *)
Record progress (h : Z) (pend : list Z) (v : vars pgw) : Prop := {
  pr_range : floor <= h <= tip + 1;
  pr_waits : waits pend (v_scan v);
  pr_below : forall x, x ∈ pend -> x < h;
  pr_chunks : chunks_at p h (v_scan v);
  pr_scanned : h = tip + 1 -> scanned (v_scan v);
  pr_pointer : exists L, pointer L v /\ (L < h \/ L = floor) /\ (h = tip + 1 -> pend = [] -> L = tip);
  pr_wallet : scripts_are (v_wallet v) scripts;
  pr_stats : stats_fit ip (v_stats v);
  pr_fetched : - 2 ^ 31 <= v_fetched v /\ v_fetched v + (tip + 1 - h) < 2 ^ 31;
  pr_verified : - 2 ^ 31 <= cfVerified (v_scan v) /\ cfVerified (v_scan v) + (tip + 1 - h) < 2 ^ 31 }.

Lemma waits_update pend s i f : waits pend s -> scan_ok (update_seg i f s) -> waits pend (update_seg i f s).
Proof. intros [] Hok. by split. Qed.
Lemma scanned_segs s segs : waits [] s \/ (exists pend, waits pend s) -> cfSeg s = Some segs -> Zlen segs = (tip - floor) / CFILTER_BATCH + 1.
Proof.
  intros Hw Es. assert (Hw' : exists pend, waits pend s) by (destruct Hw; [by exists []|done]). destruct Hw' as [pend Hw'].
  pose proof (wt_ok _ _ Hw') as Hok. unfold scan_ok in Hok. rewrite Es in Hok. destruct Hok as [Hok _].
  by rewrite (sg_count _ _ _ Hok), (wt_floor _ _ Hw'), (wt_tip _ _ Hw').
Qed.

(** The watermark is below the chunk that is being read. *)
Lemma contig_here h s : scan_ok s -> chunks_at p h s -> cfScanFloor s <= h <= cfTipHeight s -> safe_height s < h.
Proof.
  intros Hok Hc Hh. destruct (chunk_here p h s Hok Hc Hh) as (segs & seg & Es & Hk & _ & (_ & Hd)%owned_true & _ & _).
  unfold scan_ok in Hok. rewrite Es in Hok. destruct Hok as [_ Ec]. pose proof (contig_le _ _ _ Hk Hd) as Hle.
  pose proof (chunk_bounds (cfScanFloor s) h (proj1 Hh)) as [Hb _]. unfold safe_height, minimum, CFILTER_BATCH in *. repeat case_match; zbool; lia.
Qed.

(** What a filter of [h] leaves: the scan, the pointer, the rest. *)
Definition counts_to (h : Z) (pend : list Z) (v v1 : vars pgw) : Prop :=
  waits pend (v_scan v1) /\ chunks_at p (h + 1) (v_scan v1) /\ (h = tip -> scanned (v_scan v1)) /\
  (exists L', pointer L' v1 /\ (L' < h + 1 \/ L' = floor) /\ (h = tip -> pend = [] -> L' = tip)) /\
  v_wallet v1 = v_wallet v /\ stats_fit ip (v_stats v1) /\ v_fetched v1 = v_fetched v /\ cfVerified (v_scan v1) = cfVerified (v_scan v).

(** The pointer after the last filter of a chunk. *)
Lemma last_pointer h pend v L s' : tip < INT_MAX -> pointer L v -> (L < h \/ L = floor) -> floor <= h <= tip -> waits pend (v_scan v) ->
  chunks_at p (h + 1) s' -> waits pend s' -> safe_height s' = safe_height (v_scan v) -> (h = tip -> scanned (v_scan v)) ->
  exists L', pointer L' (advance_vars bs c exits L v) /\ (L' < h + 1 \/ L' = floor) /\ (h = tip -> pend = [] -> L' = tip).
Proof using Hfl Htip Hwf.
  intros Hmax Hp HL Hh Hw Hc' Hws' Es Hsc. destruct (pointer_advances L v pend Hp Hw) as (L' & Hp' & HLL & Hor & Hadv).
  assert (Hsafe : safe_height (v_scan v) < h + 1).
  { rewrite <- Es. destruct (Z.eq_dec h tip) as [->|].
    - unfold safe_height, minimum. rewrite (wt_tip _ _ Hws'). repeat case_match; zbool; lia.
    - apply contig_here; [apply (wt_ok _ _ Hws')|done|]. rewrite (wt_floor _ _ Hws'), (wt_tip _ _ Hws'). lia. }
  exists L'. split; [exact Hp'|]. split; [destruct Hor as [->| ->]; lia|].
  intros E ->. assert (Es3 := safe_when_scanned _ Hw (Hsc E) Hmax). destruct (Z.eq_dec L tip) as [->|Hne].
  - destruct Hor as [->| ->]; [done|exact Es3].
  - rewrite <- Es3. apply Hadv. unfold advances. rewrite Es3, (wt_floor _ _ Hw). destruct (Hsc E) as [-> ->]. pose proof scanned_end.
    rewrite ltb_t by lia. rewrite leb_t by lia. rewrite ltb_t by (destruct Hp as (_ & HLt & _); lia). done.
Qed.

(** The next chunk changes nothing else. *)
Lemma next_waits pend s s' : waits pend s -> (forall segs, cfSeg s = Some segs -> existsb (owned_by p) segs = false /\ count_inflight segs < MAX_INFLIGHT_CHUNKS) ->
  next_chunk p s s' -> waits pend s' /\ safe_height s' = safe_height s /\ cfDoneContig s' = cfDoneContig s /\
    cfSegCount s' = cfSegCount s /\ cfVerified s' = cfVerified s.
Proof.
  intros Hw Hfree. unfold next_chunk. destruct (cfSeg s) as [segs|] eqn:Es; [|by intros ->].
  cbn [default from_option id]. destruct (find_seg _ _) as [j|] eqn:Ef; [|by intros ->]. intros [now ->].
  apply find_seg_some in Ef as (sj & Hj & Hcl). destruct (Hfree segs eq_refl) as [Hno Hfl2]. pose proof (wt_ok _ _ Hw) as Hok.
  pose proof Hok as Hok'. unfold scan_ok in Hok'. rewrite Es in Hok'. destruct Hok' as [Hsg _].
  split; [apply waits_update; [done|]; eapply update_seg_ok; [exact Es|done|exact Hok|]; by eapply assigned_ok|].
  split; [done|]. split; [done|]. split; [|done]. unfold cfSegCount, update_seg. cbn [set cfSeg]. rewrite Es. cbn. unfold Zlen. by rewrite length_alter.
Qed.

(** The last filter of a chunk. *)
Lemma counted_last h pend v v1 L segs seg now : let k := chunk_no (cfScanFloor (v_scan v)) h in
  tip < INT_MAX -> waits pend (v_scan v) -> chunks_at p h (v_scan v) -> floor <= h <= tip -> pointer L v -> (L < h \/ L = floor) ->
  cfSeg (v_scan v) = Some segs -> segs !! k = Some seg -> owned_by p seg = true ->
  remaining seg = endHeight seg - h + 1 ->
  endHeight seg = minimum (cfScanFloor (v_scan v) + CFILTER_BATCH * Z.of_nat k + CFILTER_BATCH - 1) (cfTipHeight (v_scan v)) ->
  remaining seg - 1 <= 0 ->
  (exists o s', let v2 := v <| v_scan := after_complete k (remaining seg - 1) now seg (v_scan v) |> <| v_stats := o |> in
      stats_fit ip o /\ next_chunk p (v_scan v2) s' /\ v1 = advance_vars bs c exits L v2 <| v_scan := s' |>) ->
  counts_to h pend v v1.
Proof using Hfl Htip Hwf.
  intros k Hmax Hw Hc Hh Hp HL Es Hk Hown Hrem Hend Hz (o' & s' & Ho' & Hn & ->). cbn [v_scan set] in Hn.
  pose proof (wt_ok _ _ Hw) as Hok. assert (Hh' : cfScanFloor (v_scan v) <= h <= cfTipHeight (v_scan v)) by (rewrite (wt_floor _ _ Hw), (wt_tip _ _ Hw); lia).
  destruct (chunks_next p h (v_scan v) s' segs seg now (remaining seg - 1) Hok Hc Es Hk Hown Hrem Hend Hh' Hz Hn) as [Hc' Hall]. fold k in Hall.
  destruct (after_complete_segs k (remaining seg - 1) now seg (v_scan v) segs Es Hok Hk) as [Es2 _].
  set (s2 := after_complete k (remaining seg - 1) now seg (v_scan v)) in *.
  assert (Hok2 : scan_ok s2) by by apply (after_complete_ok p _ _ _ _ _ segs).
  assert (Hw2 : waits pend s2) by (destruct Hw; by split).
  assert (Hn2 : cfSegCount s2 = Zlen segs) by (unfold cfSegCount; rewrite Es2; cbn; unfold Zlen; by rewrite length_alter).
  assert (Hsc : h = tip -> scanned s2).
  { intros E. split; [rewrite Hn2; apply Hall; by rewrite (wt_tip _ _ Hw)|]. rewrite Hn2. apply (scanned_segs (v_scan v)); [|done]. right. by exists pend. }
  destruct (next_waits pend s2 s' Hw2) as (Hws' & Esf & Ed & En & Ev); [|done|].
  { intros segs2 E2. rewrite Es2 in E2. injection E2 as <-. unfold scan_ok in Hok. rewrite Es in Hok. destruct Hok as [Hsg _].
    by apply (completed_ok p _ _ (remaining seg - 1) now k segs seg Hsg Hk Hown). }
  set (v2 := v <| v_scan := s2 |> <| v_stats := o' |>). assert (Hp2 : pointer L v2) by by apply (pointer_same L v).
  destruct (last_pointer h pend v2 L s' Hmax Hp2 HL Hh Hw2 Hc' Hws' Esf Hsc) as (L' & Hp' & HL' & Ht').
  assert (Hv3 : v_wallet (advance_vars bs c exits L v2) = v_wallet v /\ v_stats (advance_vars bs c exits L v2) = o' /\
    v_fetched (advance_vars bs c exits L v2) = v_fetched v) by (unfold advance_vars, maybe_finish, finish; repeat case_match; done).
  destruct Hv3 as (E1 & E2 & E3). split; [exact Hws'|]. split; [exact Hc'|].
  split; [intros E; destruct (Hsc E) as [D1 D2]; split; cbn [v_scan set]; congruence|].
  split; [exists L'; by split; [apply (pointer_same L' (advance_vars bs c exits L v2))|]|].
  cbn [v_wallet v_stats v_fetched v_scan set]. rewrite E1, E2, E3, Ev. done.
Qed.

(** The filter of [h] is counted. *)
Lemma counted_progress h pend v v1 L : tip < INT_MAX -> waits pend (v_scan v) -> chunks_at p h (v_scan v) -> stats_fit ip (v_stats v) ->
  floor <= h <= tip -> pointer L v -> (L < h \/ L = floor) -> counted p ip bs c exits L h v v1 -> counts_to h pend v v1.
Proof using Hfl Htip Hwf.
  intros Hmax Hw Hc Hst Hh Hp HL. pose proof (wt_ok _ _ Hw) as Hok.
  assert (Hh' : cfScanFloor (v_scan v) <= h <= cfTipHeight (v_scan v)) by (rewrite (wt_floor _ _ Hw), (wt_tip _ _ Hw); lia).
  destruct (chunk_here p h (v_scan v) Hok Hc Hh') as (segs & seg & Es & Hk & Eat & Hown & Hrem & Hend).
  unfold counted. rewrite Eat, Hown. intros (now & Hg). cbv zeta in Hg.
  destruct (Z.leb_spec (remaining seg - 1) 0) as [Hz|Hz]; [by apply (counted_last h pend v v1 L segs seg now)|].
  set (k := chunk_no (cfScanFloor (v_scan v)) h) in *. pose proof Hok as Hok'. unfold scan_ok in Hok'. rewrite Es in Hok'. destruct Hok' as [Hsg Ec].
  destruct (chunks_more p h (v_scan v) segs seg now Hc Es Hk Hown Hrem Hend (proj1 Hh') Hz) as [Hlt Hc']. fold k in Hc'.
  rewrite (wt_tip _ _ Hw) in Hlt. rewrite Hg. split; [|split; [exact Hc'|]].
  - apply waits_update; [done|]. apply (update_seg_alter_ok p _ _ segs seg); done.
  - split; [lia|]. split; [|done]. exists L. split; [by apply (pointer_same L v)|]. split; lia.
Qed.

Hypothesis (Hmax : tip < INT_MAX) (Hnz : forall h, 0 < h < Zlen c -> uint256_iszero (Some (hash_at bs c h)) = false).

(** The world of the run. *)
Record scanning (h : Z) (pend : list Z) w : Prop := {
  sn_ground : ground p ip c w;
  sn_bs : blockStore w = bs;
  sn_store : cfStore (pg w) = o;
  sn_exits : updateAndExit (btc w) = exits;
  sn_after : stopAfterHeight (btc w) = 0;
  sn_progress : progress h pend (vars_of w) }.
Lemma scanning_goes h pend h' pend' w w' : scanning h pend w -> mild w w' -> progress h' pend' (vars_of w') -> scanning h' pend' w'.
Proof.
  intros [Hg Hb Ho He Ha _] Hm Hp. split; [by apply (mild_ground _ _ _ w)|by rewrite (m_bs _ _ Hm)|by rewrite (m_cfStore _ _ Hm)| | |done].
  - by rewrite (mild_exits _ _ Hm).
  - by rewrite (mild_stopAfter _ _ Hm).
Qed.

Lemma pointer_state L v : pointer L v -> v_state v ∈ [BITC_STATE_UPDATE_TXDB; BITC_STATE_READY].
Proof. intros (_ & _ & [->|[_ Hc]] & _); [left|]. destruct exits; [destruct Hc as [_ ->]; left|rewrite Hc; right; left]. Qed.
Lemma pointer_height L v : pointer L v -> blockstore_get_block_height bs (v_lastBlk v) = Ok L.
Proof using Hfl Htip Hwf Hnz. intros (-> & HL & _). apply block_height_ok; [done|lia|apply Hnz; lia]. Qed.

Lemma fetched_pending hash h now s : cfPending (add_pending hash h p now s) = cfPending s ++ [CfPending hash h p now] /\
  cfSeg (add_pending hash h p now s) = cfSeg s /\ cfScanFloor (add_pending hash h p now s) = cfScanFloor s /\
  cfTipHeight (add_pending hash h p now s) = cfTipHeight s /\ cfDoneContig (add_pending hash h p now s) = cfDoneContig s /\
  cfStopRequested (add_pending hash h p now s) = cfStopRequested s /\ cfVerified (add_pending hash h p now s) = cfVerified s.
Proof. unfold add_pending, grow_pending. destruct (_ <=? _); done. Qed.

(** A block more to come. *)
Lemma waits_more h pend now s : waits pend s -> floor <= h <= tip -> waits (pend ++ [h]) (add_pending (hash_at bs c h) h p now s).
Proof.
  intros [Hf Ht Hok Hs Hh Hp Hr] Hb. destruct (fetched_pending (hash_at bs c h) h now s) as (E1 & E2 & E3 & E4 & E5 & E6 & E7).
  split; [by rewrite E3|by rewrite E4| |by rewrite E6|..].
  - unfold scan_ok. by rewrite E2, E3, E4, E5.
  - rewrite E1. intros e [He|He]%elem_of_app; [by apply Hh|]. by apply list_elem_of_singleton in He as ->.
  - by rewrite E1, map_app, Hp.
  - intros x [Hx|Hx]%elem_of_app; [by apply Hr|]. by apply list_elem_of_singleton in Hx as ->.
Qed.

Lemma chunks_same h s s' : cfSeg s' = cfSeg s -> cfScanFloor s' = cfScanFloor s -> cfTipHeight s' = cfTipHeight s -> chunks_at p h s -> chunks_at p h s'.
Proof. intros E1 E2 E3. unfold chunks_at. by rewrite E1, E2, E3. Qed.

(** What comes after the count, for a filter that misses and for one that matches. *)
Lemma after_miss h pend v v0 v1 wlt : progress h pend v -> h <= tip -> counts_to h pend v0 v1 -> v_fetched v0 = v_fetched v -> scripts_are wlt scripts ->
  cfVerified (v_scan v1) = cfVerified (v_scan v) + 1 -> progress (h + 1) pend (v1 <| v_wallet := wlt |>).
Proof.
  intros [Hr _ Hbe _ _ _ _ _ Hfe Hve] Hh (Hw1 & Hc1 & Hsc1 & (L' & Hp1 & HL1 & Ht1) & _ & Hs1 & E2 & _) E0 Hwlt Ev. rewrite E0 in E2.
  split; cbn [v_scan v_wallet v_stats v_fetched set]; try done; try (rewrite ?E2, ?Ev; lia).
  - intros x Hx. specialize (Hbe x Hx). lia.
  - intros E. apply Hsc1. lia.
  - exists L'. split; [by apply (pointer_same L' v1)|]. split; [done|]. intros E. apply Ht1. lia.
Qed.
Lemma after_hit h pend v v0 v1 wlt now : progress h pend v -> h <= tip -> counts_to h pend v0 v1 -> v_fetched v0 = v_fetched v -> scripts_are wlt scripts ->
  cfVerified (v_scan v1) = cfVerified (v_scan v) + 1 ->
  progress (h + 1) (pend ++ [h]) (v1 <| v_wallet := wlt |> <| v_fetched ::= fun n => n + 1 |> <| v_scan ::= add_pending (hash_at bs c h) h p now |>).
Proof.
  intros [Hr _ Hbe _ _ _ _ _ Hfe Hve] Hh (Hw1 & Hc1 & Hsc1 & (L' & Hp1 & HL1 & Ht1) & _ & Hs1 & E2 & _) E0 Hwlt Ev. rewrite E0 in E2.
  destruct (fetched_pending (hash_at bs c h) h now (v_scan v1)) as (F1 & F2 & F3 & F4 & F5 & F6 & F7).
  split; cbn [v_scan v_wallet v_stats v_fetched set]; try done; try (rewrite ?F7, ?E2, ?Ev; lia).
  - apply waits_more; [done|lia].
  - intros x [Hx|Hx]%elem_of_app; [specialize (Hbe x Hx); lia|]. apply list_elem_of_singleton in Hx as ->. lia.
  - by apply (chunks_same _ (v_scan v1)).
  - intros E. destruct Hsc1 as [D1 D2]; [lia|]. unfold scanned, cfSegCount. rewrite F2, F5. done.
  - exists L'. split; [by apply (pointer_same L' v1)|]. split; [done|]. intros _ Hnil. by apply app_nil in Hnil as [_ ?].
Qed.

(** A filter that comes in order. *)
Lemma filter_step h pend w cf data : scanning h pend w -> h <= tip -> genuine bs c o h cf data ->
  exists w', deliver p (EvFilter cf) w = Ok (false, w') /\ asked (wallet w) (wallet w') /\
    (~ filter_has data (hash_at bs c h) scripts -> scanning (h + 1) pend w') /\
    (filter_has data (hash_at bs c h) scripts -> scanning (h + 1) (pend ++ [h]) w').
Proof using Hfl Hmax Hnz Htip Hwf.
  intros Hsn Hh Hgn. pose proof Hsn as [Hg Hb Ho He Ha [Hr Hw Hbe Hc Hsc (L & Hp & HL & _) Hwl Hst Hfe Hve]].
  destruct (ends_cfilter p ip c w L cf h data scripts Hg) as (r & w' & E & M & -> & v1 & Hcnt & Hfet); try done.
  - pose proof (wt_floor _ _ Hw) as Ef. pose proof (wt_tip _ _ Hw) as Et. cbn in Ef, Et. split; [apply (wt_ok _ _ Hw)|]. rewrite Ef, Et. lia.
  - apply (pointer_state L (vars_of w) Hp).
  - rewrite Hb. apply (pointer_height L (vars_of w) Hp).
  - by rewrite Hb, Ho.
  - lia.
  - cbn in Hfe. lia.
  - cbn in Hve. lia.
  - exists w'. split; [exact E|]. rewrite Hb, He in Hcnt. rewrite Hb in Hfet. set (v := vars_of w <| v_scan ::= _ |>) in Hcnt.
    assert (Hc1 : counts_to h pend v v1).
    { apply (counted_progress h pend v v1 L); [done|by destruct Hw|exact Hc|exact Hst|lia|by apply (pointer_same L (vars_of w))|done|done]. }
    pose proof Hc1 as (_ & _ & _ & _ & _ & _ & _ & Ev). cbn [v_scan cfVerified set v vars_of] in Ev.
    assert (Hpr : progress h pend (vars_of w)) by by apply sn_progress.
    destruct Hfet as (wlt & Hwlt & Hask & Hfet). split.
    { assert (Ewl : v_wallet v1 = wallet w) by by destruct Hc1 as (_ & _ & _ & _ & -> & _). rewrite Ewl in Hask.
      change (wallet w') with (v_wallet (vars_of w')). by destruct Hfet as [[_ ->]|[_ (now & ->)]]. }
    destruct Hfet as [[Hno Efin]|[Hyes (now & Efin)]].
    + split; [|done]. intros _. apply (scanning_goes h pend _ _ w); [done|done|]. rewrite Efin. by apply (after_miss h pend (vars_of w) v v1).
    + split; [done|]. intros _. apply (scanning_goes h pend _ _ w); [done|done|]. rewrite Efin. by apply (after_hit h pend (vars_of w) v v1).
Qed.

(** A block that was asked for. *)
Lemma waits_less h x pend pend' s : waits pend s -> pend ≡ₚ x :: pend' -> (forall y, y ∈ pend -> y < h) -> h <= tip + 1 ->
  waits pend' (drop_pending (hash_at bs c x) s).
Proof using Hfl Htip Hwf.
  intros [Hf Ht Hok Hs Hh Hp Hr] Hpe Hlt Hle. assert (Hx : x ∈ pend) by (rewrite Hpe; left).
  assert (Hin : x ∈ map cp_height (cfPending s)) by by rewrite Hp. apply list_elem_of_In, in_map_iff in Hin as (e & Ex & He%list_elem_of_In).
  destruct (remove_pending_perm (hash_at bs c x) (cfPending s)) as (e' & Eh' & Hperm); [exists e; split; [done|]; rewrite (Hh e He); by f_equal|].
  assert (He' : e' ∈ cfPending s) by (rewrite Hperm; left).
  assert (Ex' : cp_height e' = x).
  { assert (Hr' : cp_height e' ∈ pend) by (rewrite <- Hp; apply list_elem_of_In, in_map; by apply list_elem_of_In).
    pose proof (Hr x Hx). pose proof (Hr _ Hr'). rewrite (Hh e' He') in Eh'. by apply (hash_at_inj bs c) in Eh'; [|done|lia..]. }
  split; [done|done|done|done|..].
  - cbn. intros y Hy. apply Hh. rewrite Hperm. by right.
  - cbn. apply (Permutation_cons_inv (a := x)). rewrite <- Hpe, <- Hp. pose proof (Permutation_map cp_height Hperm) as Hm. cbn [map] in Hm.
    rewrite Ex' in Hm. by symmetry.
  - intros y Hy. apply Hr. rewrite Hpe. by right.
Qed.

Lemma block_step h pend x pend' w blk rest : scanning h pend w -> able (block_feed blk ++ rest) (wallet w) -> pend ≡ₚ x :: pend' -> header_hash (blk_header blk) = hash_at bs c x -> block_sound blk ->
  exists w', deliver p (EvBlock blk) w = Ok (false, w') /\ scanning h pend' w' /\ able rest (wallet w').
Proof using Hfl Hmax Hnz Htip Hwf Hserves.
  intros Hsn Hable Hpe Ehdr Hblk. pose proof Hsn as [Hg Hb Ho He Ha [Hr Hw Hbe Hc Hsc (L & Hp & HL & _) Hwl Hst Hfe Hve]].
  assert (Hx : x ∈ pend) by (rewrite Hpe; left). pose proof (wt_range _ _ Hw x Hx) as Hxr.
  destruct (ends_block p ip c w L blk x scripts able rest Hg) as (r & w' & E & M & -> & wlt & Hable' & Ev); try done.
  - pose proof (wt_floor _ _ Hw) as Ef. pose proof (wt_tip _ _ Hw) as Et. cbn in Ef, Et. split; [apply (wt_ok _ _ Hw)|]. rewrite Ef, Et. lia.
  - apply (pointer_state L (vars_of w) Hp).
  - apply (wt_stop _ _ Hw).
  - rewrite Hb. apply (pointer_height L (vars_of w) Hp).
  - by rewrite Hb.
  - by rewrite Hb.
  - lia.
  - exists w'. split; [exact E|]. pose proof (sv_scripts _ _ _ Hserves _ _ Hable') as Hwlt. split.
    2: { change (wallet w') with (v_wallet (vars_of w')). rewrite Ev. unfold maybe_finish, advance_vars, maybe_finish, finish. by repeat case_match. }
    apply (scanning_goes h pend _ _ w); [done|done|]. rewrite Ev, Hb, He. fold best.
    set (v := vars_of w <| v_wallet := wlt |> <| v_scan ::= drop_pending (hash_at bs c x) |>).
    assert (Hw' : waits pend' (v_scan v)) by (by apply (waits_less h x pend pend'); [..|lia]).
    assert (Hpv : pointer L v) by by apply (pointer_same L (vars_of w)).
    destruct (pointer_advances L v pend' Hpv Hw') as (L' & Hp' & HLL & Hor & Hadv). set (v2 := advance_vars bs c exits L v) in *.
    assert (Esc : v_scan (maybe_finish exits best v2) = drop_pending (hash_at bs c x) (scan (pg w))).
    { unfold maybe_finish, finish. repeat case_match; cbn [v_scan set]; apply advance_scan. }
    assert (Hv2 : v_wallet (maybe_finish exits best v2) = wlt /\ v_stats (maybe_finish exits best v2) = peerStats (pg w) /\
      v_fetched (maybe_finish exits best v2) = numFetched (dl (pg w))) by (unfold v2, advance_vars, maybe_finish, finish; repeat case_match; done).
    destruct Hv2 as (E1 & E2 & E3). split; rewrite ?Esc, ?E1, ?E2, ?E3; try done.
    + intros y Hy. apply Hbe. rewrite Hpe. by right.
    + exists L'. split; [by apply finish_pointer|]. split.
      * destruct Hor as [->| ->]; [done|]. left. destruct (Z.eq_dec h (tip + 1)) as [->|Hne].
        -- unfold safe_height, minimum. rewrite (wt_tip _ _ Hw'). repeat case_match; zbool; lia.
        -- apply (contig_here h (v_scan v)); [apply (wt_ok _ _ Hw')|by apply (chunks_same h (scan (pg w)))|]. rewrite (wt_floor _ _ Hw'), (wt_tip _ _ Hw'). lia.
      * intros Eh ->. assert (Es3 := safe_when_scanned _ Hw' (Hsc Eh) Hmax). destruct (Z.eq_dec L tip) as [->|Hne].
        -- destruct Hor as [->| ->]; [done|exact Es3].
        -- rewrite <- Es3. apply Hadv. unfold advances. rewrite Es3, (wt_floor _ _ Hw'). destruct (Hsc Eh) as [D1 D2].
           change (cfDoneContig (v_scan v)) with (cfDoneContig (scan (pg w))). cbn [v_scan vars_of] in D1, D2. rewrite D1, D2. pose proof scanned_end.
           rewrite ltb_t by lia. rewrite leb_t by lia. rewrite ltb_t by (destruct Hp as (_ & HLt & _); lia). done.
Qed.

(** What an honest peer sends brings the scan to its end. *)
Lemma scan_ends h pend evs : honest h pend evs -> forall w, scanning h pend w -> able (fed evs) (wallet w) ->
  exists w', deliver_all p evs w = Ok (tt, w') /\ scanning (tip + 1) [] w' /\ able [] (wallet w').
Proof using Hfl Hmax Hnz Htip Hwf Hserves.
  induction 1 as [|h pend cf data evs Hle Hg Hno _ IH|h pend cf data evs Hle Hg Hyes _ IH|h pend x pend' blk evs Hpe Eh Hb _ IH]; intros w Hw Hable; cbn [fed] in Hable.
  - by exists w.
  - destruct (filter_step h pend w cf data Hw Hle Hg) as (w1 & E & Hask & Hmiss & _). destruct (IH w1 (Hmiss Hno) (sv_asked _ _ _ Hserves _ _ _ Hable Hask)) as (w' & E' & Hw').
    exists w'. cbn [deliver_all]. by rewrite (st_bind_Ok _ _ _ _ _ E).
  - destruct (filter_step h pend w cf data Hw Hle Hg) as (w1 & E & Hask & _ & Hhit). destruct (IH w1 (Hhit Hyes) (sv_asked _ _ _ Hserves _ _ _ Hable Hask)) as (w' & E' & Hw').
    exists w'. cbn [deliver_all]. by rewrite (st_bind_Ok _ _ _ _ _ E).
  - destruct (block_step h pend x pend' w blk _ Hw Hable Hpe Eh Hb) as (w1 & E & Hw1 & Hable1). destruct (IH w1 Hw1 Hable1) as (w' & E' & Hw').
    exists w'. cbn [deliver_all]. by rewrite (st_bind_Ok _ _ _ _ _ E).
Qed.
Lemma scanning_complete w : scanning (tip + 1) [] w -> complete (vars_of w).
Proof using Hfl Htip Hwf. intros [_ _ _ _ _ Hp]. destruct (pr_pointer _ _ _ Hp) as (L & (_ & _ & _ & Hc) & _ & HL). apply Hc. by apply HL. Qed.

(** *** The start *)

(** The scan is set up, the peer is the only one. *)
Record ready_to_scan w : Prop := {
  rs_ground : ground p ip c w;
  rs_peer : exists pe, peers w !! p = Some pe /\ connected pe && got_verack pe = true /\ Z.land (services pe) BTC_SERVICE_NODE_COMPACT_FILTERS <> 0;
  rs_list : peer_list (pg w) = [p];
  rs_bs : blockStore w = bs;
  rs_store : cfStore (pg w) = o;
  rs_exits : updateAndExit (btc w) = exits;
  rs_after : stopAfterHeight (btc w) = 0;
  rs_state : state (btc w) = BITC_STATE_UPDATE_TXDB;
  rs_lastBlk : lastBlk (pg w) = hash_at bs c floor;
  rs_scan : exists s, start_scan floor tip s = Ok (scan (pg w)) /\ cfPending s = [] /\ cfStopRequested s = false;
  rs_wallet : scripts_are (wallet w) scripts;
  rs_stats : stats_fit ip (peerStats (pg w));
  rs_fetched : - 2 ^ 31 <= numFetched (dl (pg w)) /\ numFetched (dl (pg w)) + (tip + 1 - floor) < 2 ^ 31 }.

Lemma first_chunk w : 0 < floor <= tip -> tip = Zlen c - 1 -> ready_to_scan w -> exists w' now, peergroup_schedule_cfilters w = Ok (tt, w') /\ mild w w' /\
  vars_of w' = vars_of w <| v_scan ::= update_seg O (assigned p now) |>.
Proof using Type.
  intros Hle Htip' [Hg (pe & Ep & Hc & Hsv) El _ _ _ _ _ _ (s0 & Es & _) _ _ _]. clear Hfl.
  destruct (chunks_start p floor tip s0 _ 0 Hle Es) as (l & seg & Esg & Hi & Hno & Hfd & Hend & Hin & _).
  destruct (ends_assign p ip c w O seg Hg) as ([] & w1 & E1 & M1 & now & V1); [by rewrite Esg|lia|].
  exists w1, now. split; [|by split]. unfold peergroup_schedule_cfilters. unfold mbind at 1, st_bind at 1. cbn [get]. cbv beta. rewrite Esg, El, Hin.
  cbn [schedule_loop]. change (MAX_INFLIGHT_CHUNKS <=? 0) with false. cbv iota. unfold peer_is_connected, peer_get_services, peer_load.
  do 2 (unfold mbind at 1, st_bind at 1). rewrite (obj_load_ok _ _ _ Ep), bind_ok. cbn [mret st_ret]. cbv beta.
  do 2 (unfold mbind at 1, st_bind at 1). rewrite (obj_load_ok _ _ _ Ep), bind_ok. cbn [mret st_ret]. cbv beta.
  rewrite Hc. cbn [negb orb]. apply Z.eqb_neq in Hsv. rewrite Hsv. unfold mbind at 1, st_bind at 1. cbn [get]. cbv beta zeta.
  rewrite Esg. cbn [default from_option id]. rewrite Hno, Hfd. by rewrite (st_bind_Ok _ _ _ _ _ E1).
Qed.

Lemma scan_starts w : ready_to_scan w -> exists w', peergroup_schedule_cfilters w = Ok (tt, w') /\ scanning floor [] w' /\ wallet w' = wallet w.
Proof using Hfl Hmax Htip Hwf.
  intros Hr. destruct (first_chunk w ltac:(lia) Htip Hr) as (w1 & now & E1 & M1 & V1). exists w1. split; [exact E1|].
  destruct Hr as [Hg _ El Eb Eo Ee Ea Est ELb (s0 & Es & Ep0 & Er0) Hwl Hst Hfe].
  destruct (start_scan_at floor tip s0 _ ltac:(lia) Es) as (Ef & Et & Ev & Ed & Epd & Ers & _).
  destruct (chunks_start p floor tip s0 _ now ltac:(lia) Es) as (l' & seg' & _ & _ & _ & _ & _ & _ & Hok' & Hch).
  split; [|change (wallet w1) with (v_wallet (vars_of w1)); by rewrite V1].
  apply (Build_scanning floor [] w1); [by apply (mild_ground _ _ _ w)|by rewrite (m_bs _ _ M1)|by rewrite (m_cfStore _ _ M1)|
    by rewrite (mild_exits _ _ M1)|by rewrite (mild_stopAfter _ _ M1)|]. rewrite V1.
  split; cbn [v_scan v_wallet v_stats v_fetched v_lastBlk v_state set vars_of]; try done; try lia.
  - split; [exact Ef|exact Et|exact Hok'|cbn; congruence|cbn; rewrite Epd, Ep0; by intros e ?%not_elem_of_nil|cbn; by rewrite Epd, Ep0|by intros x ?%not_elem_of_nil].
  - by intros x ?%not_elem_of_nil.
  - exists floor. split; [|split; [by right|lia]]. split; [done|]. split; [lia|]. split; [by left|lia].
  - change (cfVerified (update_seg _ _ _)) with (cfVerified (scan (pg w))). rewrite Ev. unfold INT_MAX in Hmax. lia.
Qed.
End completes.

(** ** What the scan comes to *)

Section outcome.
Context `{Malloc} `{Sha256} `{T : Table positive} `{W : !PgWallet}.
Implicit Types w : world.

(** The scan of the compact filters ends. Take a peer that is the only one,
    and that is honest: once the chunks are set up ([peergroup_schedule_cfilters])
    it sends the filter of each block from [floor] to the tip, in order, each as
    the filter headers say it is, and, at any time after, in any order, each
    block it was asked for. Then no handler fails, as long as the wallet takes
    the transactions of these blocks. *)
Lemma scan_completes p ip c floor scripts able evs w :
  let bs := blockStore w in let tip := Zlen c - 1 in
  0 < floor < tip -> tip < INT_MAX -> serves bs scripts able -> able (fed evs) (wallet w) ->
  ready_to_scan p ip c bs (cfStore (pg w)) (updateAndExit (btc w)) scripts floor tip w ->
  honest c bs (cfStore (pg w)) scripts tip floor [] evs ->
  exists w', (_ ← peergroup_schedule_cfilters; deliver_all p evs) w = Ok (tt, w') /\ able [] (wallet w') /\
    cfDoneContig (scan (pg w')) = cfSegCount (scan (pg w')) /\ cfPending (scan (pg w')) = [] /\
    lastBlk (pg w') = blockstore_get_best_hash bs /\
    if updateAndExit (btc w) then stop (btc w') = true else state (btc w') = BITC_STATE_READY.
Proof.
  intros bs tip Hfl Hmax Ht Hable Hr He. pose proof (rs_ground _ _ _ _ _ _ _ _ _ _ Hr) as Hg.
  pose proof (g_bs _ _ _ _ Hg) as Hwf. pose proof (g_hash _ _ _ _ Hg) as Hnz.
  destruct (scan_starts p ip c bs _ _ scripts floor tip Hfl eq_refl Hwf Hmax w Hr) as (w1 & E1 & Hs1 & Ew1).
  destruct (scan_ends p ip c bs _ _ scripts floor tip Hfl eq_refl Hwf able Ht Hmax Hnz _ _ _ He w1 Hs1) as (w' & E' & Hs' & Hable'); [by rewrite Ew1|].
  exists w'. rewrite (st_bind_Ok _ _ _ _ _ E1). split; [exact E'|]. split; [exact Hable'|].
  pose proof (sn_progress _ _ _ _ _ _ _ _ _ _ _ _ Hs') as Hp. destruct (pr_scanned _ _ _ _ _ _ _ _ _ _ _ Hp eq_refl) as [Hd _].
  destruct (scanning_complete p ip c bs _ _ scripts floor tip Hfl eq_refl Hwf w' Hs') as [Eb Ex].
  split; [exact Hd|]. split; [apply (no_pending c bs floor tip); apply (pr_waits _ _ _ _ _ _ _ _ _ _ _ Hp)|]. split; [exact Eb|].
  destruct (updateAndExit (btc w)); [by destruct Ex|exact Ex].
Qed.

Lemma next_chunk_same p s s' : next_chunk p s s' -> cfDoneContig s' = cfDoneContig s /\ cfSegCount s' = cfSegCount s /\ cfPending s' = cfPending s.
Proof.
  unfold next_chunk. destruct (find_seg _ _); [|by intros ->]. intros (now & ->). split; [done|]. split; [|done].
  unfold cfSegCount, update_seg. cbn [set cfSeg]. destruct (cfSeg s); cbn; [|done]. unfold Zlen. by rewrite length_alter.
Qed.

(** The last filter, the pointer being at the tip already. *)
Lemma counted_at_tip p ip c w L s0 now v v1 : let tip := Zlen c - 1 in let bs := blockStore w in
  0 < tip -> start_scan tip tip s0 = Ok (v_scan v) -> L = tip -> cfPending s0 = [] ->
  counted p ip bs c (updateAndExit (btc w)) L tip
    (v <| v_scan ::= fun s => update_seg O (assigned p now) s <| cfVerified := tip + 1 |> |>) v1 ->
  cfDoneContig (v_scan v1) = cfSegCount (v_scan v1) /\ cfPending (v_scan v1) = [] /\
  v_lastBlk v1 = v_lastBlk v /\ v_state v1 = v_state v /\ v_stop v1 = v_stop v.
Proof.
  intros tip bs Hpos Es EL Ep. destruct (start_scan_at tip tip s0 _ ltac:(lia) Es) as (Ef & Et & Ev & Ed & Epd & Ers & _).
  destruct (chunks_start p tip tip s0 _ now ltac:(lia) Es) as (l & seg & _ & _ & _ & _ & _ & _ & Hok & Hch).
  set (s := update_seg O (assigned p now) (v_scan v) <| cfVerified := tip + 1 |>).
  assert (Hok' : scan_ok s) by exact Hok. assert (Hch' : chunks_at p tip s) by exact Hch.
  assert (Hb : cfScanFloor s <= tip <= cfTipHeight s) by (change (cfScanFloor s) with (cfScanFloor (v_scan v)); change (cfTipHeight s) with (cfTipHeight (v_scan v)); lia).
  destruct (chunk_here p tip s Hok' Hch' Hb) as (segs & sg & Esg & Hk & Eat & Hown & Hrem & Hend). set (k := chunk_no _ _) in *.
  assert (Ele : endHeight sg <= tip).
  { rewrite Hend. change (cfTipHeight s) with (cfTipHeight (v_scan v)). rewrite Et. unfold minimum. destruct (_ <? _) eqn:E; zbool; lia. }
  unfold counted. cbn [v_scan set]. fold s. rewrite Eat, Hown. intros (now' & Hg). cbv zeta in Hg. rewrite leb_t in Hg by lia.
  destruct Hg as (o' & s' & _ & Hn & ->). cbn [v_scan set] in *.
  destruct (chunks_next p tip s s' segs sg now' (remaining sg - 1) Hok' Hch' Esg Hk Hown Hrem Hend Hb ltac:(lia) Hn) as [_ Hall].
  destruct (after_complete_segs k (remaining sg - 1) now' sg s segs Esg Hok' Hk) as [Es2 _].
  specialize (Hall (eq_sym Et)). fold k in Hall. set (s2 := after_complete k (remaining sg - 1) now' sg s) in *.
  destruct (next_chunk_same p s2 s' Hn) as (E1 & E2 & E3).
  assert (Hno : advances L s2 = false).
  { unfold advances. rewrite (ltb_f L) by (rewrite EL; unfold safe_height, minimum; change (cfTipHeight s2) with (cfTipHeight (v_scan v)); rewrite Et;
      repeat case_match; zbool; lia). apply andb_false_r. }
  unfold advance_vars. cbn [v_scan set]. rewrite Hno. cbn [v_scan v_lastBlk v_state v_stop set]. rewrite E1, E2, E3, Hall.
  split; [unfold cfSegCount; rewrite Es2; cbn; unfold Zlen; by rewrite length_alter|]. split; [|done].
  change (cfPending s2) with (cfPending (v_scan v)). congruence.
Qed.

(** C4: an error of the code: a scan that starts at the best block, as when the
    program is started again with nothing new, is not ended by its last filter.
    The filter of the one block is asked for, and comes, and does not match: every
    chunk is done,
    no block is awaited, the resume pointer is the best block; but the state is
    still that of the scan, the program neither ready nor asked to stop, since
    [peergroup_advance_lastblk] returns where it sees no progress and the test
    of the end is after. *)
Theorem cf_scan_of_tip_stalls p ip c scripts cf data w :
  let bs := blockStore w in let tip := Zlen c - 1 in
  0 < tip -> tip < INT_MAX -> stop (btc w) = false ->
  ready_to_scan p ip c bs (cfStore (pg w)) (updateAndExit (btc w)) scripts tip tip w ->
  genuine bs c (cfStore (pg w)) tip cf data -> ~ filter_has data (hash_at bs c tip) scripts ->
  exists w', (_ ← peergroup_schedule_cfilters; peergroup_handle_cfilter p cf) w = Ok (false, w') /\
    cfDoneContig (scan (pg w')) = cfSegCount (scan (pg w')) /\ cfPending (scan (pg w')) = [] /\
    lastBlk (pg w') = blockstore_get_best_hash bs /\
    state (btc w') = BITC_STATE_UPDATE_TXDB /\ stop (btc w') = false.
Proof.
  intros bs tip Hpos Hmax Hstop Hr Hgn Hno. destruct (first_chunk p ip c bs _ _ scripts tip tip w ltac:(lia) eq_refl Hr) as (w1 & now & E1 & M1 & V1).
  destruct Hr as [Hg _ El Eb Eo Ee Ea Est ELb (s0 & Es & Ep0 & Er0) Hwl Hst Hfe]. pose proof (g_bs _ _ _ _ Hg) as Hwf.
  destruct (start_scan_at tip tip s0 _ ltac:(lia) Es) as (Ef & Et & Ev & _). pose proof (vars_scan _ _ V1) as S1. cbn in S1.
  destruct (chunks_start p tip tip s0 _ now ltac:(lia) Es) as (_ & _ & _ & _ & _ & _ & _ & _ & Hok & _).
  assert (Hg1 : ground p ip c w1) by by apply (mild_ground _ _ _ w). pose proof (m_bs _ _ M1) as B1.
  destruct (ends_cfilter p ip c w1 tip cf tip data scripts Hg1) as (r & w' & E' & M' & -> & v1 & Hcnt & Hfet).
  - rewrite S1. split; [exact Hok|]. change (cfScanFloor (update_seg _ _ _)) with (cfScanFloor (scan (pg w))).
    change (cfTipHeight (update_seg _ _ _)) with (cfTipHeight (scan (pg w))). lia.
  - change (peerStats (pg w1)) with (v_stats (vars_of w1)). by rewrite V1.
  - change (state (btc w1)) with (v_state (vars_of w1)). rewrite V1. cbn. rewrite Est. left.
  - by rewrite (mild_stopAfter _ _ M1).
  - change (lastBlk (pg w1)) with (v_lastBlk (vars_of w1)). rewrite V1, B1. cbn. rewrite ELb. apply (fits_ground p ip c w Hg). lia.
  - by rewrite B1, (m_cfStore _ _ M1).
  - change (wallet w1) with (v_wallet (vars_of w1)). by rewrite V1.
  - lia.
  - change (numFetched (dl (pg w1))) with (v_fetched (vars_of w1)). rewrite V1. cbn. lia.
  - rewrite S1. cbn. rewrite Ev. unfold INT_MAX in Hmax. lia.
  - exists w'. rewrite (st_bind_Ok _ _ _ _ _ E1). split; [exact E'|]. rewrite B1, V1, S1 in *. cbn [v_scan set] in Hcnt.
    rewrite (mild_exits _ _ M1) in Hcnt. change (cfVerified (update_seg _ _ _)) with (cfVerified (scan (pg w))) in Hcnt. rewrite Ev in Hcnt.
    destruct (counted_at_tip p ip c w tip s0 now (vars_of w) v1 Hpos Es eq_refl Ep0 Hcnt) as (D1 & D2 & D3 & D4 & D5).
    destruct Hfet as (wlt & _ & _ & [[_ Efin]|[Hyes _]]); [|done].
    change (scan (pg w')) with (v_scan (vars_of w')). change (lastBlk (pg w')) with (v_lastBlk (vars_of w')).
    change (state (btc w')) with (v_state (vars_of w')). change (stop (btc w')) with (v_stop (vars_of w')). rewrite Efin. cbn [v_scan v_lastBlk v_state v_stop set].
    rewrite D3, D4, D5. cbn. split; [done|]. split; [done|]. rewrite ELb. split; [|by split].
    symmetry. rewrite (best_hash_at bs c Hwf); [done|]. intros ->. unfold tip in Hpos. by vm_compute in Hpos.
Qed.
End outcome.

(** ** An example: two blocks after the genesis block, the first one matches *)

Section example.
#[local] Existing Instance zero_malloc.
#[local] Existing Instance toy_sha256.

(** A wallet that looks for the scripts it holds. *)
#[local] Instance toy_pgwallet : PgWallet.
Proof.
  refine {| pgw := list (list byte); wallet_get_filter_scripts := fun w => Ok (w, w);
    wallet_handle_tx := fun _ _ _ w => Ok (false, w);
    wallet_has_tx := fun _ _ => Ok false; wallet_get_birth := fun _ _ => Ok 0; scripts_are := eq |}.
  intros w l <-. by exists w, w.
Defined.

Definition x_script : list byte := [x51; x52].
Definition x_hit : list byte := gcs_build (header_hash w_b1) [x_script].
Definition x_miss : list byte := [x00].
Definition x_filter (hash : uint256) (data : list byte) : btc_msg_cfilter := CFilter BTC_CFILTER_TYPE_BASIC hash (Zlen data) (Some data).
Definition x_block : btc_msg_block := Block w_b1 1 [unsigned_tx].
Definition x_events : list event :=
  [EvFilter (x_filter (header_hash w_b1) x_hit); EvFilter (x_filter (header_hash w_b2) x_miss); EvBlock x_block].

Definition x_app : Peers.app :=
  App BITC_STATE_UPDATE_TXDB false false false false 0 Z.of_nat O 0 false false false.
Definition x_peer : peer := Peer true true true 2 70016 BTC_SERVICE_NODE_COMPACT_FILTERS 0 0 0 None (Link false 0 [] None) 1
  true (MsgHeader 0 [] 0 []) (Buff [] 0 0 false).
Definition x_address : peer_addr := PeerAddr (MsgAddress 0 (replicate 16 x00) 0 8333) [] true false.
Definition x_scan (floor : Z) : cfscan := CfScan floor 2 floor false
  (Some [CfSegment floor 2 (2 - floor + 1) None None 0 0 false]) 0 [] 0.
Definition x_state_of `{W : !PgWallet} (wlt : pgw) (bs : blockstore) (t : table) (floor : Z) (sc : cfscan) : world :=
  World x_app
    (PeerGroup [1%positive] None uint256_zero_out false (hash_at bs [1; 2; 3]%positive floor) t ∅ (Download 0 1 0 0 0 0 0) 1 1 0 None None
      sc (CfSync 3 2 uint256_zero_out None 0 0 0 true true) (fun _ => (0, 0)))
    {[1%positive := x_peer]} (AddrBook (File [] 0 []) t {[1%positive := x_address]} [] 0) bs wlt
    (Network false (fun _ => 0) O (fun _ => CoPending) O).
Definition x_state : blockstore -> table -> Z -> cfscan -> world (W := toy_pgwallet) := x_state_of (W := toy_pgwallet) [x_script].
Definition x_world (bs : blockstore) (t : table) (floor : Z) : world := x_state bs t floor (x_scan floor).

Lemma x_hash bs (i : nat) q hdr : headers (bs_heap bs) !! q = Some hdr -> [1; 2; 3]%positive !! i = Some q ->
  hash_at bs [1; 2; 3]%positive (Z.of_nat i) = header_hash hdr.
Proof.
  unfold headers, hash_at. rewrite lookup_fmap, Nat2Z.id. intros E ->. cbn. destruct (bs_heap bs !! q) as [e|]; [|done].
  by injection E as <-.
Qed.

(** The store of the example, with its hashes, and an empty table. *)
Lemma x_ready_of (W : PgWallet) wlt scripts : scripts_are wlt scripts -> exists bs t,
  let h := hash_at bs [1; 2; 3]%positive in bs_wf bs [1; 2; 3]%positive /\ h 1 = header_hash w_b1 /\ h 2 = header_hash w_b2 /\
  (forall floor sc, ground 1 (replicate 16 x00) [1; 2; 3]%positive (x_state_of wlt bs t floor sc)) /\
  forall floor, floor = 1 \/ floor = 2 ->
    ready_to_scan 1 (replicate 16 x00) [1; 2; 3]%positive bs None false scripts floor 2 (x_state_of wlt bs t floor (x_scan floor)).
Proof.
  intros Hwlt.
  destruct w_store_3 as (bs & Hwf & _ & Hd & _). destruct (t_create_ok (V := positive)) as (t & _ & Ht). exists bs, t.
  assert (E1 : hash_at bs [1; 2; 3]%positive 1 = header_hash w_b1) by (apply (x_hash bs 1 2); [by rewrite Hd|done]).
  assert (E2 : hash_at bs [1; 2; 3]%positive 2 = header_hash w_b2) by (apply (x_hash bs 2 3); [by rewrite Hd|done]).
  assert (Hg : forall floor sc, ground 1 (replicate 16 x00) [1; 2; 3]%positive (x_state_of wlt bs t floor sc)).
  { intros floor sc. split; [split|exact Hwf| |by exists x_peer|done|by exists x_peer, x_address].
    - intros p ->%list_elem_of_singleton. by exists x_peer.
    - pose proof (t_entries_ok _ _ Ht) as Hp. rewrite map_to_list_empty in Hp. apply Permutation_nil_r in Hp.
      unfold hashes_only. cbn [x_state_of pg hash_broadcast]. by rewrite Hp.
    - by exists [1; 2; 3]%positive.
    - intros h Hh. assert (h = 1 \/ h = 2) as [-> | ->] by (change (Zlen [1; 2; 3]%positive) with 3 in Hh; lia); cbn [x_state_of blockStore]; rewrite ?E1, ?E2; by vm_compute. }
  split; [done|]. split; [done|]. split; [done|]. split; [exact Hg|]. intros floor Hfl. split; [apply Hg|..]; try done; try (cbn; lia).
  - by exists x_peer.
  - exists (x_scan floor). split; [|done]. by destruct Hfl as [-> | ->].
Qed.
Lemma x_ready : exists bs t,
  let h := hash_at bs [1; 2; 3]%positive in bs_wf bs [1; 2; 3]%positive /\ h 1 = header_hash w_b1 /\ h 2 = header_hash w_b2 /\
  (forall floor sc, ground 1 (replicate 16 x00) [1; 2; 3]%positive (x_state bs t floor sc)) /\
  forall floor, floor = 1 \/ floor = 2 ->
    ready_to_scan 1 (replicate 16 x00) [1; 2; 3]%positive bs None false [x_script] floor 2 (x_world bs t floor).
Proof. exact (x_ready_of toy_pgwallet [x_script] [x_script] eq_refl). Qed.

Lemma x_misses hash : ~ filter_has x_miss hash [x_script].
Proof. intros (N & pos & it & E & HN & _). vm_compute in E. injection E as <- _. lia. Qed.
Lemma x_hits : filter_has x_hit (header_hash w_b1) [x_script].
Proof.
  destruct (match_any_spec x_hit (header_hash w_b1) [x_script]) as (b & E & Hb); [by vm_compute|]. apply Hb.
  assert (E' : gcs_filter_match_any (Some x_hit) (Zlen x_hit) (Some (header_hash w_b1)) (Some [x_script]) = Ok true) by by vm_compute.
  congruence.
Qed.
Lemma x_honest bs : let h := hash_at bs [1; 2; 3]%positive in h 1 = header_hash w_b1 -> h 2 = header_hash w_b2 ->
  honest [1; 2; 3]%positive bs None [x_script] 2 1 [] x_events.
Proof.
  intros h E1 E2. subst h. eapply honest_hit; [lia|split; [by rewrite E1|done|by split]| |].
  { rewrite E1. apply x_hits. }
  change (1 + 1) with 2. eapply honest_miss; [lia|split; [by rewrite E2|done|by split]|apply x_misses|].
  eapply (honest_block _ _ _ _ _ _ _ 1 []); [done|by rewrite E1| |apply honest_end].
  split; [by cbn|]. constructor; [|done]. split; [apply unsigned_tx_loaded|by vm_compute].
Qed.

Lemma cf_scan_of_tip_stalls_witness : exists (bs : blockstore) (t : table), exists w', let w := x_world bs t 2 in
  (_ ← peergroup_schedule_cfilters; peergroup_handle_cfilter 1 (x_filter (header_hash w_b2) x_miss)) w = Ok (false, w') /\
  cfDoneContig (scan (pg w')) = cfSegCount (scan (pg w')) /\ lastBlk (pg w') = blockstore_get_best_hash bs /\
  state (btc w') = BITC_STATE_UPDATE_TXDB.
Proof.
  destruct x_ready as (bs & t & Hwf & E1 & E2 & _ & Hr). exists bs, t.
  destruct (cf_scan_of_tip_stalls 1 (replicate 16 x00) [1; 2; 3]%positive [x_script] (x_filter (header_hash w_b2) x_miss) x_miss (x_world bs t 2))
    as (w' & E & Hd & _ & Hb & Hs & _); [by cbn|by vm_compute|done|apply Hr; by right|split; [symmetry; exact E2|done|by split]|apply x_misses|].
  exists w'. split; [exact E|]. split; [exact Hd|]. split; [exact Hb|exact Hs].
Defined.
End example.
