(* ===== verification/CfWallet.v ===== *)
(** * The filter scan with the program's wallet (core/peergroup.c, core/wallet.c)

    The wallet of Wallet.v is the one the peers are written against. The scan of
    CfScan.v with it: it goes to its end, and the wallet's books are those of the
    blocks it was given. *)
From Stdlib Require Import Strings.String.
From S2P Require Import WalletReload WalletAdd Restart Wallet WalletScripts WalletTakes CfScan.

(** ** The wallet of the peers *)

Section instance.
Context `{Malloc} `{C : Secp256k1} `{S256 : Sha256} `{EvpCipher} `{BN : BigNum} `{TK : Table wallet_key} `{T : Table positive} `{DB : LevelDb}.

Definition wallet_scripts_are (w : WalletKeys.wallet (DB := txdb)) (l : list (list byte)) : Prop := exists m, wallet_ok w m /\ l ≡ₚ scripts_of m.

Lemma wallet_scripts_law w l : wallet_scripts_are w l ->
  exists l' w', WalletKeys.wallet_get_filter_scripts w = Ok (l', w') /\ l' ≡ₚ l /\ wallet_scripts_are w' l.
Proof.
  intros (m & Hw & Hl). destruct (filter_scripts_ok w m Hw) as (l' & w' & E & Hl' & Hw' & _). exists l', w'. split; [exact E|].
  split; [by rewrite Hl', Hl|]. by exists m.
Qed.

(** The calls into the group of peers that confirming a relayed transaction makes
    ([RelayStop]) stay in the database. *)
Definition program_wallet : PgWallet := {|
  pgw := WalletKeys.wallet (DB := txdb);
  Peers.wallet_get_filter_scripts := WalletKeys.wallet_get_filter_scripts;
  Peers.wallet_handle_tx := Wallet.wallet_handle_tx;
  Peers.wallet_has_tx := Wallet.wallet_has_tx;
  Peers.wallet_get_birth := WalletKeys.wallet_get_birth;
  scripts_are := wallet_scripts_are; scripts_law := wallet_scripts_law |}.
End instance.

(** ** The blocks of the chain *)

Section chain.
Context `{Sha256} `{T : Table positive}.

Lemma chain_in_store bs c h : bs_wf bs c -> 0 <= h < Zlen c -> uint256_iszero (Some (hash_at bs c h)) = false -> in_store bs (hash_at bs c h).
Proof.
  intros Hwf Hh Hz. split; [by split; [apply hash_at_length|]| |exists h; by apply block_height_ok].
  destruct (chain_at bs c h Hwf Hh) as (q & e & Hq & He & _ & Eh). pose proof Hwf as ([Hix _] & _).
  unfold blockstore_get_block_timestamp. rewrite Hz. destruct (blockstore_lookup_ok bs c (hash_at bs c h) Hix) as (o & -> & Ho). rewrite bind_ok.
  rewrite (proj2 (Ho q)) by (exists e; by rewrite Eh). rewrite (deref_ok _ _ _ He), bind_ok. by eexists.
Qed.
End chain.

Section fed.
Context `{Malloc} `{Sha256} `{T : Table positive} `{W : !PgWallet}.

(** The blocks an honest peer sends are of the chain. *)
Lemma honest_in_store bs c o scripts floor tip evs h pend : 0 < floor -> tip < Zlen c -> bs_wf bs c ->
  (forall h, 0 < h < Zlen c -> uint256_iszero (Some (hash_at bs c h)) = false) ->
  honest c bs o scripts tip h pend evs -> floor <= h -> (forall x, x ∈ pend -> floor <= x <= tip) ->
  Forall (fun x => in_store bs x.1) (fed evs).
Proof.
  intros Hf Ht Hwf Hnz. induction 1 as [|h pend cf data evs Hle Hg Hno _ IH|h pend cf data evs Hle Hg Hyes _ IH|h pend x pend' blk evs Hpe Eh Hb _ IH];
    intros Hh Hp; cbn [fed]; [done| | |].
  - apply IH; [lia|done].
  - apply IH; [lia|]. intros x [Hx|Hx]%elem_of_app; [by apply Hp|]. apply list_elem_of_singleton in Hx as ->. lia.
  - assert (Hx : floor <= x <= tip) by (apply Hp; rewrite Hpe; left). apply Forall_app. split.
    + unfold block_feed. apply Forall_forall. intros y Hy. apply list_elem_of_In, in_map_iff in Hy as (tx & <- & _). cbn. rewrite Eh.
      apply chain_in_store; [done|lia|]. apply Hnz. lia.
    + apply IH; [done|]. intros y Hy. apply Hp. rewrite Hpe. by right.
Qed.
End fed.

(** ** The scan *)

Section scan.
Context `{Malloc} `{C : Secp256k1} `{S256 : Sha256} `{EvpCipher} `{BN : BigNum} `{TK : Table wallet_key} `{T : Table positive} `{DB : LevelDb}.
#[local] Existing Instance program_wallet.
Implicit Types wlt : WalletKeys.wallet (DB := txdb).

(** The block and the bytes of a transaction that was handled. *)
Definition feed_of (l : list (bitc_env * uint256 * list byte)) : list (uint256 * list byte) := map (fun x => (x.1.2, x.2)) l.

Lemma trace_snoc `{WalletApi} l env blk buf mt mo mt1 mo1 rel mt2 mo2 : trace l mt mo mt1 mo1 ->
  handled blk (hash256_calc buf) buf mt1 mo1 rel mt2 mo2 -> trace (l ++ [(env, blk, buf)]) mt mo mt2 mo2.
Proof.
  induction 1 as [mt mo|env' blk' buf' l mt mo rel' mt3 mo3 mt4 mo4 Hh _ IH]; intros Hl; cbn [app].
  - econstructor; [exact Hl|constructor].
  - econstructor; [exact Hh|by apply IH].
Qed.

(** What is left for the wallet to take of [all], from the books it had. *)
Definition able bs m (w0 : WalletKeys.wallet (DB := txdb)) mt0 mo0 (all l : list (uint256 * list byte)) wlt : Prop :=
  exists l0 d mt mo, feed_of l0 ++ l = all /\ wallet_ok wlt m /\ wallet_api wlt = wallet_api w0 /\ wallet_books wlt d mt mo /\
    trace (H2 := wallet_api w0) l0 mt0 mo0 mt mo /\ Forall (fun x => in_store bs x.1) l /\ takes (WA := wallet_api w0) l mt mo /\
    can_show bs mt /\ Z.of_nat (size mt) + Z.of_nat (size mo) + feed_size l < 2 ^ 32 - 1.

Lemma wallet_serves bs m (w0 : WalletKeys.wallet (DB := txdb)) mt0 mo0 all : serves bs (scripts_of m) (able bs m w0 mt0 mo0 all).
Proof.
  split.
  - intros l wlt (l0 & d & mt & mo & _ & Hw & _). by exists m.
  - intros l wlt wlt' (l0 & d & mt & mo & Eall & Hw & Ea & [Ed Hl] & Htr & Hst & Htk & Hsh & Hsz) [ls E].
    destruct (filter_scripts_ok wlt m Hw) as (l' & w' & E' & _ & Hw' & Ek & _). cbn in E. rewrite E' in E. injection E as <- <-.
    assert (Ea' : wallet_api w' = wallet_api wlt) by by apply wallet_api_keys.
    assert (Ed' : wl_txdb w' = wl_txdb wlt).
    { unfold WalletKeys.wallet_get_filter_scripts in E'. destruct (wl_filterScriptsValid wlt); [by injection E' as _ <-|].
      apply res_bind_Ok in E' as (w1 & E1 & E'). apply res_bind_Ok in E1 as (sc & _ & E1). injection E1 as <-. by injection E' as _ <-. }
    exists l0, d, mt, mo. rewrite Ea', Ea. repeat (split; [done|]). split; [|done]. unfold wallet_books. by rewrite Ed', Ea', Ea, <- Ea.
  - intros env hash buf l wlt Ebs (l0 & d & mt & mo & Eall & Hw & Ea & Hb & Htr & Hst & Htk & Hsh & Hsz).
    inversion_clear Hst as [|? ? Hin Hst']. cbn [takes] in Htk. destruct Htk as [Htk Hnext]. cbn [feed_size foldr snd] in Hsz. fold (feed_size l) in Hsz.
    pose proof (feed_size_nonneg l). pose proof (Zlen_nonneg buf).
    destruct (wallet_handle_takes env hash buf wlt m d mt mo Hw Hb) as (err & w' & rel & d' & mt' & mo' & E & Hw' & Ea' & Hb' & Hh);
      [split; lia|by rewrite Ebs|exact Htk|by rewrite Ebs|].
    exists err, w'. split; [exact E|]. rewrite Ea in Hh. assert (Hbuf : Zlen buf < 2 ^ 62) by lia. destruct (handled_size _ _ _ _ _ _ _ _ Hbuf Hh).
    exists (l0 ++ [(env, hash, buf)]), d', mt', mo'. split; [unfold feed_of; rewrite map_app, <- app_assoc; exact Eall|]. split; [done|].
    split; [by rewrite Ea'|]. split; [done|]. split; [by eapply trace_snoc|]. split; [done|]. split; [by eapply Hnext|].
    split; [by eapply can_show_handled|lia].
Qed.

(** C1: the scan of the compact filters ends, and the wallet has what is in the
    chain. Take a peer that is the only one, and that is honest: once the chunks
    are set up ([peergroup_schedule_cfilters]), from [floor], above 0 and below
    the tip, it sends the filter of each block from [floor] to the tip, in order,
    each as the filter headers say it is, and, at any time after, in any order,
    each block it was asked for. The transactions of these blocks can be read and
    do not spend twice, and one that the database has already is not of the
    wallet, or came from the same block ([takes]). Then no handler fails, and when the last message
    has been handled every chunk is done, no block is awaited, the resume pointer
    is the best block, and the program is ready (or has asked to stop, with
    --update-and-exit): however many chunks there are, whichever filters match.
    The wallet is that of Wallet.v, whose scripts are those the filters are
    matched with, and its books are then its books with every transaction of the
    blocks it was given, in the order they came. *)
Theorem cf_scan_completes p ip c floor m d mt mo evs (w : world) :
  let bs := blockStore w in let tip := Zlen c - 1 in
  0 < floor < tip -> tip < INT_MAX ->
  wallet_ok (wallet w) m -> wallet_books (wallet w) d mt mo -> can_show bs mt -> takes (WA := wallet_api (wallet w)) (fed evs) mt mo ->
  Z.of_nat (size mt) + Z.of_nat (size mo) + feed_size (fed evs) < 2 ^ 32 - 1 ->
  ready_to_scan p ip c bs (cfStore (pg w)) (updateAndExit (btc w)) (scripts_of m) floor tip w ->
  honest c bs (cfStore (pg w)) (scripts_of m) tip floor [] evs ->
  exists w', (_ ← peergroup_schedule_cfilters; deliver_all p evs) w = Ok (tt, w') /\
    cfDoneContig (scan (pg w')) = cfSegCount (scan (pg w')) /\ cfPending (scan (pg w')) = [] /\
    lastBlk (pg w') = blockstore_get_best_hash bs /\
    (if updateAndExit (btc w) then stop (btc w') = true else state (btc w') = BITC_STATE_READY) /\
    exists l d' mt' mo', feed_of l = fed evs /\ trace (H2 := wallet_api (wallet w)) l mt mo mt' mo' /\
      wallet_ok (wallet w') m /\ wallet_books (wallet w') d' mt' mo'.
Proof.
  intros bs tip Hfl Hmax Hw Hb Hsh Htk Hsz Hr He. pose proof (rs_ground _ _ _ _ _ _ _ _ _ _ Hr) as Hg.
  assert (Hst : Forall (fun x => in_store bs x.1) (fed evs)).
  { apply (honest_in_store bs c _ _ floor tip evs floor [] (proj1 Hfl)) in He; [done|unfold tip; lia|apply (g_bs _ _ _ _ Hg)|apply (g_hash _ _ _ _ Hg)|lia|].
    by intros x ?%not_elem_of_nil. }
  destruct (scan_completes (W := program_wallet) p ip c floor (scripts_of m) (able bs m (wallet w) mt mo (fed evs)) evs w Hfl Hmax (wallet_serves _ _ _ _ _ _))
    as (w' & E & (l & d' & mt' & mo' & El & Hw' & Ea & Hb' & Htr & _) & Hd & Hp & Hl & Hx); [|exact Hr|exact He|].
  { exists [], d, mt, mo. split; [done|]. split; [exact Hw|]. split; [done|]. split; [exact Hb|]. split; [constructor|]. by split. }
  exists w'. split; [exact E|]. split; [exact Hd|]. split; [exact Hp|]. split; [exact Hl|]. split; [exact Hx|].
  exists l, d', mt', mo'. rewrite app_nil_r in El. split; [exact El|]. split; [exact Htr|]. split; [exact Hw'|exact Hb'].
Qed.
End scan.

(** ** An example: two blocks after the genesis block, the first one pays the wallet *)

Section example.
#[local] Existing Instance toy_curve.
#[local] Existing Instance toy_sha256.
#[local] Existing Instance toy_cipher.
#[local] Existing Instance Z_bignum.
#[local] Existing Instance zero_malloc.
#[local] Existing Instance map_leveldb.
#[local] Existing Instance program_wallet.

Definition p_hit : list byte := gcs_build (header_hash w_b1) [p2pkh_script toy_hash].
Definition p_block : btc_msg_block := Block w_b1 1 [k_tx 5000].
Definition p_events : list event :=
  [EvFilter (x_filter (header_hash w_b1) p_hit); EvFilter (x_filter (header_hash w_b2) x_miss); EvBlock p_block].
Definition p_world (bs : blockstore) (t : table) : world := x_state_of (W := program_wallet) (new_wallet_db None) bs t 1 (x_scan 1).

Lemma p_scripts : scripts_of one_map = [p2pkh_script toy_hash].
Proof. unfold scripts_of, one_map. by rewrite insert_empty, map_to_list_singleton. Qed.
Lemma p_hits : filter_has p_hit (header_hash w_b1) [p2pkh_script toy_hash].
Proof.
  destruct (match_any_spec p_hit (header_hash w_b1) [p2pkh_script toy_hash]) as (b & E & Hb); [vm_cast_no_check (eq_refl Lt)|]. apply Hb.
  assert (E' : gcs_filter_match_any (Some p_hit) (Zlen p_hit) (Some (header_hash w_b1)) (Some [p2pkh_script toy_hash]) = Ok true)
    by (vm_cast_no_check (eq_refl (@Ok bool true))).
  congruence.
Qed.
Lemma p_misses hash : ~ filter_has x_miss hash [p2pkh_script toy_hash].
Proof. intros (N & pos & it & E & HN & _). vm_compute in E. injection E as <- _. lia. Qed.
Lemma p_tx_sound : tx_sound (k_tx 5000).
Proof.
  split; [|apply Z.leb_le; vm_cast_no_check (eq_refl true)].
  unfold tx_loaded, tx_shape, k_tx; cbn [tx_in_count tx_in tx_out_count tx_out tx_version tx_lock_time].
  split_and!; try (reflexivity || lia); [constructor|]. constructor; [|constructor]. split; [cbn; lia|].
  exists (p2pkh_script toy_hash). split; [done|]. vm_cast_no_check (eq_refl 25).
Qed.
Lemma p_honest bs : let h := hash_at bs [1; 2; 3]%positive in h 1 = header_hash w_b1 -> h 2 = header_hash w_b2 ->
  honest [1; 2; 3]%positive bs None [p2pkh_script toy_hash] 2 1 [] p_events.
Proof.
  intros h E1 E2. subst h. eapply honest_hit; [lia|split; [by rewrite E1|done|split; [done|split; [done|vm_cast_no_check (eq_refl Lt)]]]| |].
  { rewrite E1. apply p_hits. }
  change (1 + 1) with 2. eapply honest_miss; [lia|split; [by rewrite E2|done|by split]|apply p_misses|].
  eapply (honest_block _ _ _ _ _ _ _ 1 []); [done|by rewrite E1| |apply honest_end].
  split; [by cbn|]. constructor; [apply p_tx_sound|done].
Qed.
Lemma p_takes : takes (WA := wallet_api (new_wallet_db None)) (fed p_events) ∅ ∅.
Proof.
  change (fed p_events) with [(header_hash w_b1, tx_bytes (k_tx 5000))]. cbn [takes]. split; [|done]. split; [vm_cast_no_check (eq_refl false)|].
  rewrite lookup_empty. exists (k_tx 5000). split; [eexists; vm_compute; reflexivity|]. split.
  - constructor; [|done]. eexists. vm_compute. reflexivity.
  - split; [constructor|]. intros txi e ?%not_elem_of_nil. done.
Qed.

(** The wallet has the payment. *)
Lemma cf_scan_completes_witness : exists (bs : blockstore) (t : table), exists w' d' mt' mo', let w := p_world bs t in
  (_ ← peergroup_schedule_cfilters; deliver_all 1 p_events) w = Ok (tt, w') /\ cfPending (scan (pg w')) = [] /\
  lastBlk (pg w') = blockstore_get_best_hash bs /\ state (btc w') = BITC_STATE_READY /\
  wallet_books (wallet w') d' mt' mo' /\ balance mo' = 5000.
Proof.
  destruct (x_ready_of program_wallet (new_wallet_db None) (scripts_of one_map)) as (bs & t & Hwf & E1 & E2 & _ & Hr).
  { exists one_map. split; [apply one_wallet_ok|done]. }
  exists bs, t.
  destruct (cf_scan_completes 1 (replicate 16 x00) [1; 2; 3]%positive 1 one_map w_txdb ∅ ∅ p_events (p_world bs t))
    as (w' & E & _ & Hp & Hb & Hs & l & d' & mt' & mo' & El & Htr & _ & Hbooks);
    [by cbn|by vm_compute|apply one_wallet_ok|apply new_books|intros h te; by rewrite lookup_empty|apply p_takes|
     rewrite !map_size_empty; vm_cast_no_check (eq_refl Lt)|apply Hr; by left|rewrite p_scripts; by apply p_honest|].
  exists w', d', mt', mo'. split; [exact E|]. split; [exact Hp|]. split; [exact Hb|]. split; [exact Hs|]. split; [exact Hbooks|].
  destruct l as [|[[env blk] buf] [|]]; try done. cbn in El. injection El as -> ->.
  inversion Htr as [|? ? ? ? ? ? rel mt1 mo1 ? ? Hh Htr1]; subst. inversion Htr1; subst.
  destruct (handled_new _ _ _ _ _ _ _ _ (k_tx 5000) true (<[txo_key (k_id 5000) 0 := k_coin (header_hash w_b1) 5000]> ∅) Hh) as (ts & _ & ->);
    [apply lookup_empty|eexists; vm_compute; reflexivity| |].
  { vm_cast_no_check (eq_refl (Ok (true, <[txo_key (k_id 5000) 0 := k_coin (header_hash w_b1) 5000]> (∅ : gmap (list byte) txo_entry)))). }
  vm_cast_no_check (eq_refl 5000).
Defined.
End example.
