(* ===== verification/ScanSafe.v ===== *)
(** * The scan is sound, whatever the peers do

    The chunks are well formed after any sequence of messages, departures of
    peers, timers and other steps of the program; the resume pointer moves over
    what is known and over nothing else. *)
From S2P Require Export CfScan.

Section safe.
Context `{Malloc} `{Sha256} `{T : Table positive} `{W : !PgWallet}.
Implicit Types w : world.
Implicit Types s : cfscan.

(** ** The steps of the program *)

(** What a peer can have the group do. *)
Inductive message : Type :=
| MsgHandshake (startingHeight : Z)
| MsgHeaders (hdrs : list btc_block_header)
| MsgCfcheckpt (cfc : btc_msg_cfcheckpt)
| MsgCfheaders (cfh : btc_msg_cfheaders)
| MsgCfilter (cf : btc_msg_cfilter)
| MsgBlock (blk : btc_msg_block).
Definition handle (p : positive) (m : message) : ST world bool :=
  match m with
  | MsgHandshake h => peergroup_handle_handshake_ok p h
  | MsgHeaders hdrs => peergroup_handle_headers p hdrs
  | MsgCfcheckpt cfc => peergroup_handle_cfcheckpt p cfc
  | MsgCfheaders cfh => peergroup_handle_cfheaders p cfh
  | MsgCfilter cf => peergroup_handle_cfilter p cf
  | MsgBlock blk => peergroup_handle_block p blk
  end.

(** A step: a message, a peer that goes, a block that is not found, the timer,
    or anything else that leaves the scan alone: a peer that comes, the user. *)
Inductive sync_step : world -> world -> Prop :=
| step_message p m r w w' : handle p m w = Ok (r, w') -> sync_step w w'
| step_gone p w w' : peergroup_notify_peer_gone p w = Ok (tt, w') -> sync_step w w'
| step_requeue p w w' : peergroup_requeue_peer_chunks p w = Ok (tt, w') -> sync_step w w'
| step_retry p hashes w w' : peergroup_retry_block_fetch p hashes w = Ok (tt, w') -> sync_step w w'
| step_timer w w' : peergroup_pending_blocks_cb w = Ok (tt, w') -> sync_step w w'
| step_other w w' : scan (pg w') = scan (pg w) -> sync_step w w'.

Lemma keeps_handle p m : Goes keeps_scan (handle p m).
Proof.
  destruct m; [apply keeps_handshake|apply keeps_headers|apply keeps_cfcheckpt|apply keeps_cfheaders|apply keeps_cfilter|apply keeps_block].
Qed.
Lemma keeps_step w w' : sync_step w w' -> keeps_scan w w'.
Proof.
  destruct 1 as [p m r w w' E|p w w' E|p w w' E|p hs w w' E|w w' E|w w' E]; [by eapply keeps_handle|by eapply keeps_peer_gone|
    by eapply keeps_requeue|by eapply keeps_retry|by eapply keeps_timer|by apply same_keeps].
Qed.
Lemma keeps_steps w w' : rtc sync_step w w' -> keeps_scan w w'.
Proof. induction 1 as [|w1 w2 w3 Hs _ IH]; [done|]. etrans; [by apply keeps_step|done]. Qed.

(** ** The chunks *)

(** A height of the scan is in one chunk, the one [CF_CHUNK_INDEX] gives. *)
Lemma chunk_of_height s segs h : scan_ok s -> cfSeg s = Some segs -> cfScanFloor s <= h <= cfTipHeight s ->
  exists i seg, seg_at s h = Some (i, seg) /\ segs !! i = Some seg /\ startHeight seg <= h <= endHeight seg /\
    forall j seg', segs !! j = Some seg' -> startHeight seg' <= h <= endHeight seg' -> j = i.
Proof.
  intros Hok Es Hh. unfold scan_ok in Hok. rewrite Es in Hok. destruct Hok as [Hsg _]. pose proof (chunk_bounds (cfScanFloor s) h (proj1 Hh)) as Hb.
  set (k := chunk_no (cfScanFloor s) h) in *. cbv zeta in Hb. pose proof (sg_count _ _ _ Hsg) as Hn. unfold Zlen in Hn.
  pose proof (Z.div_pos (h - cfScanFloor s) CFILTER_BATCH ltac:(lia) ltac:(done)) as Hp.
  pose proof (Z.div_le_mono (h - cfScanFloor s) (cfTipHeight s - cfScanFloor s) CFILTER_BATCH ltac:(done) ltac:(lia)) as Hm.
  assert (Hk : (k < length segs)%nat) by (unfold k, chunk_no; lia). destruct (lookup_lt_is_Some_2 segs k Hk) as [seg Hseg].
  exists k, seg. assert (Hbd : forall i x, segs !! i = Some x -> startHeight x = cfScanFloor s + CFILTER_BATCH * Z.of_nat i /\
    endHeight x = minimum (cfScanFloor s + CFILTER_BATCH * Z.of_nat i + CFILTER_BATCH - 1) (cfTipHeight s)).
  { intros i x Hi. destruct (sg_chunk _ _ _ Hsg i x Hi) as [Est Een _ _ _]. by rewrite Een, Est. }
  split; [|split; [done|split]].
  - unfold seg_at, CF_CHUNK_INDEX, cfSegCount. rewrite Es. cbn [default from_option id]. rewrite Z.quot_div_nonneg by (done || lia).
    rewrite leb_t by lia. rewrite ltb_t by (unfold Zlen; lia). cbn [andb].
    change (Z.to_nat ((h - cfScanFloor s) / CFILTER_BATCH)) with k. by rewrite Hseg.
  - destruct (Hbd k seg Hseg) as [-> ->]. unfold minimum. destruct (_ <? _) eqn:E; zbool; lia.
  - intros j x Hj Hx. destruct (Hbd j x Hj) as [E1 E2]. rewrite E1, E2 in Hx. rewrite <- (chunk_no_eq (cfScanFloor s) h j); [done|].
    revert Hx. unfold minimum. destruct (_ <? _) eqn:E; zbool; lia.
Qed.

(** C2: whatever the peers send, whichever of them go, in whatever order the
    messages, the timers and the other steps of the program come: from the start
    on, the scan is well formed. The chunks are those of the range, 1000 heights
    each but for the last one, in order; each height of the range is in one of
    them, which is the one its index is computed to; a chunk that is not done
    has at least one filter to come and at most as many as its heights; no peer
    has two chunks at a time, at most 64 are at peers; and [cfDoneContig] is the
    number of chunks that are done before the first one that is not. *)
Theorem cf_scan_invariant w w' : cfSeg (scan (pg w)) = None -> cfDoneContig (scan (pg w)) = 0 -> rtc sync_step w w' ->
  let s := scan (pg w') in scan_ok s /\
  forall segs h, cfSeg s = Some segs -> cfScanFloor s <= h <= cfTipHeight s ->
    exists i seg, seg_at s h = Some (i, seg) /\ segs !! i = Some seg /\ startHeight seg <= h <= endHeight seg /\
      forall j seg', segs !! j = Some seg' -> startHeight seg' <= h <= endHeight seg' -> j = i.
Proof.
  intros Es Ec Hr s. assert (Hs : scan_ok s) by (apply (keeps_steps w w' Hr); unfold scan_ok; by rewrite Es).
  split; [done|]. intros segs h E Hh. by apply (chunk_of_height s segs h).
Qed.

(** ** The resume pointer *)

(** Everything up to the height [S] is known: the chunks that begin there or
    before are done, the blocks that are awaited are after. *)
Definition known_upto (S : Z) s : Prop :=
  (forall i seg, default [] (cfSeg s) !! i = Some seg -> startHeight seg <= S -> done seg = true) /\
  (forall e, e ∈ cfPending s -> S < cp_height e).

Lemma safe_known s : scan_ok s -> is_Some (cfSeg s) -> known_upto (safe_height s) s.
Proof.
  intros Hok [segs Es]. unfold scan_ok in Hok. unfold known_upto. rewrite Es in *. destruct Hok as [Hsg Ec]. cbn [default from_option id].
  assert (Hle : safe_height s <= cfScanFloor s + CFILTER_BATCH * cfDoneContig s - 1 /\ safe_height s <= min_pending (cfPending s) - 1).
  { unfold safe_height, minimum. repeat case_match; zbool; lia. }
  split.
  - intros i seg Hi Hst. destruct (sg_chunk _ _ _ Hsg i seg Hi) as [Est _ _ _ _]. apply (contig_done segs i seg); [|done].
    rewrite <- Ec. unfold CFILTER_BATCH in *. lia.
  - intros e He. pose proof (proj1 (proj2 (min_loop (cfPending s) INT_MAX)) e He). unfold min_pending in Hle. lia.
Qed.
Lemma contig_reach segs n : (forall i seg, segs !! i = Some seg -> (i < n)%nat -> done seg = true) -> (n <= length segs)%nat -> Z.of_nat n <= contig segs 0.
Proof.
  revert n. induction segs as [|x segs IH]; intros n Hd Hn; cbn in Hn; [cbn; lia|]. destruct n as [|n].
  - cbn [contig]. destruct (done x); [|lia]. rewrite contig_from. pose proof (contig_bound segs). lia.
  - cbn [contig]. rewrite (Hd O x eq_refl ltac:(lia)), contig_from. specialize (IH n (fun i seg Hi Hlt => Hd (S i) seg Hi ltac:(lia)) ltac:(lia)). lia.
Qed.
(** And it is the last height of which that is so. *)
Lemma known_safe s S : scan_ok s -> is_Some (cfSeg s) -> cfScanFloor s <= S <= cfTipHeight s -> S < INT_MAX -> known_upto S s ->
  S <= safe_height s /\ 0 < cfDoneContig s.
Proof.
  intros Hok [segs Es] HS Hmax [Hd Hp]. unfold scan_ok in Hok. rewrite Es in *. destruct Hok as [Hsg Ec]. cbn [default from_option id] in Hd.
  pose proof (chunk_bounds (cfScanFloor s) S (proj1 HS)) as Hb. set (k := chunk_no (cfScanFloor s) S) in *. cbv zeta in Hb.
  assert (Hk : (k < length segs)%nat).
  { pose proof (sg_count _ _ _ Hsg) as Hn. unfold Zlen in Hn. pose proof (Z.div_le_mono (S - cfScanFloor s) (cfTipHeight s - cfScanFloor s) CFILTER_BATCH ltac:(done) ltac:(lia)).
    pose proof (Z.div_pos (S - cfScanFloor s) CFILTER_BATCH ltac:(lia) ltac:(done)). unfold k, chunk_no. lia. }
  assert (Hc : Z.of_nat k + 1 <= cfDoneContig s).
  { rewrite Ec. pose proof (contig_reach segs (k + 1)) as Hr. rewrite Nat2Z.inj_add in Hr. apply Hr; [|lia]. intros i seg Hi Hik. apply (Hd i seg Hi).
    destruct (sg_chunk _ _ _ Hsg i seg Hi) as [-> _ _ _ _]. unfold CFILTER_BATCH in *. lia. }
  assert (Hm : S < min_pending (cfPending s)).
  { assert (S + 1 <= min_pending (cfPending s)); [|lia]. apply (min_loop (cfPending s) INT_MAX); [lia|]. intros e He. specialize (Hp e He). lia. }
  split; [|lia]. unfold safe_height, minimum, CFILTER_BATCH in *. repeat case_match; zbool; lia.
Qed.

(** C3: the resume pointer goes over what is known, and over nothing else. On a
    well-formed scan of a chain, [peergroup_advance_lastblk] returns; the
    pointer was the block of the chain at the height [L], and is that at [L'],
    not lower; if it has moved, every chunk that begins at [L'] or before is
    done and every block that is awaited is after [L']. And it goes as far as it
    can: no height of the scan of which that holds is above [L']. A
    chunk is done by the number of its filters, whichever they are, and a block
    that expires may be given up: of these heights it says nothing. *)
Theorem cf_resume_pointer_exact p ip c L w : let bs := blockStore w in let s := scan (pg w) in
  ground p ip c w -> scan_on c s -> is_Some (cfSeg s) -> 0 < L < Zlen c -> lastBlk (pg w) = hash_at bs c L ->
  exists w' L', peergroup_advance_lastblk w = Ok (tt, w') /\ scan (pg w') = s /\ lastBlk (pg w') = hash_at bs c L' /\ L <= L' < Zlen c /\
    (L' = L \/ known_upto L' s) /\
    (forall S, cfScanFloor s <= S <= cfTipHeight s -> S < INT_MAX -> known_upto S s -> S <= L').
Proof.
  intros bs s Hg Hsc Hsome HL EL. pose proof Hsc as (Hok & Hfl & Htip).
  assert (Hh : blockstore_get_block_height (blockStore w) (lastBlk (pg w)) = Ok L) by (rewrite EL; by apply (fits_ground p ip c w Hg)).
  destruct (runs_advance p ip c w L Hg Hsc Hh) as (w' & E & _ & V). exists w', (if advances L s then safe_height s else L).
  split; [exact E|]. split; [change (scan (pg w')) with (v_scan (vars_of w')); by rewrite V, advance_scan|].
  change (lastBlk (pg w')) with (v_lastBlk (vars_of w')). rewrite V. unfold advance_vars. cbn [v_scan vars_of]. fold s.
  assert (Hup : safe_height s <= cfTipHeight s) by (unfold safe_height, minimum; repeat case_match; zbool; lia).
  destruct (advances L s) eqn:Ea.
  - pose proof Ea as Ea'. unfold advances in Ea'. apply andb_prop in Ea' as [_ Hlt]. zbool. fold s in Htip.
    split; [unfold maybe_finish, finish; repeat case_match; done|]. split; [lia|]. split; [right; by apply safe_known|].
    intros S HS Hmax HU. by apply known_safe.
  - split; [exact EL|]. split; [lia|]. split; [by left|]. intros S HS Hmax HU. destruct (known_safe s S Hok Hsome HS Hmax HU) as [Hle Hpos].
    unfold advances in Ea. rewrite ltb_t in Ea by lia. rewrite leb_t in Ea by lia. cbn [andb] in Ea. zbool. lia.
Qed.
End safe.

(** ** Examples *)

Section witnesses.
#[local] Existing Instance zero_malloc.
#[local] Existing Instance toy_sha256.
#[local] Existing Instance toy_pgwallet.

(** Three blocks, no scan: the headers are those the peer has, no filter header
    is stored. *)
Definition x_idle : cfscan := CfScan 0 0 0 false None 0 [] 0.
Definition x_start : res world :=
  t ← hashtable_create;
  bs ← add_headers [w_g; w_b1; w_b2] (BlockStore ∅ (File [] 0 []) 0 (header_hash w_g) uint256_zero_out None None (-1) t t [] 0);
  Ok (x_state bs t 0 x_idle
       <| btc ::= fun b => b <| state := BITC_STATE_UPDATE_HEADERS |> |>
       <| pg ::= fun g => g <| lastBlk := uint256_zero_out |> <| cfStore := init_fresh (File [] 0 []) |> |>).
(** The peer has no more headers; it sends the filter headers of the three
    blocks, then the filter of the second one. *)
Definition x_heads : btc_msg_cfheaders :=
  CFHeaders BTC_CFILTER_TYPE_BASIC (header_hash w_b2) uint256_zero_out 3 (Some (replicate 3 (hash256_calc x_miss))).
Definition x_headers : message := MsgHeaders [].
Definition x_cfheaders : message := MsgCfheaders x_heads.
Definition x_cfilter : message := MsgCfilter (x_filter (header_hash w_b1) x_miss).
Definition x_chunk (left : Z) (at_ avoid : option positive) (progress assigned : Z) : option (list cf_segment) :=
  Some [CfSegment 0 2 left at_ avoid progress assigned false].
(** The chunks after each step. *)
Definition x_run : res (list (option (list cf_segment))) :=
  w0 ← x_start;
  '(_, w1) ← handle 1 x_headers w0;
  '(_, w2) ← handle 1 x_cfheaders w1;
  '(_, w3) ← handle 1 x_cfilter w2;
  '(_, w4) ← peergroup_requeue_peer_chunks 1 w3;
  Ok (map (fun w => cfSeg (scan (pg w))) [w0; w1; w2; w3; w4]).
Lemma x_run_ok : x_run =
  Ok [None; x_chunk 3 None None 0 0; x_chunk 3 (Some 1%positive) None 2 2; x_chunk 2 (Some 1%positive) None 4 2; x_chunk 3 None (Some 1%positive) 4 2].
Proof. vm_compute. reflexivity. Qed.

(** The chunks are made, the one there is goes to the peer, a filter of it comes,
    and the peer goes: the chunk is whole again. *)
Lemma cf_scan_invariant_witness : exists w0 r1 w1 r2 w2 r3 w3 w4, x_start = Ok w0 /\ cfSeg (scan (pg w0)) = None /\
  handle 1 x_headers w0 = Ok (r1, w1) /\ handle 1 x_cfheaders w1 = Ok (r2, w2) /\ handle 1 x_cfilter w2 = Ok (r3, w3) /\
  peergroup_requeue_peer_chunks 1 w3 = Ok (tt, w4) /\
  cfSeg (scan (pg w3)) = x_chunk 2 (Some 1%positive) None 4 2 /\ cfSeg (scan (pg w4)) = x_chunk 3 None (Some 1%positive) 4 2 /\
  scan_ok (scan (pg w4)).
Proof.
  pose proof x_run_ok as E. unfold x_run in E. apply res_bind_Ok in E as (w0 & E0 & E).
  apply res_bind_Ok in E as ([r1 w1] & E1 & E). apply res_bind_Ok in E as ([r2 w2] & E2 & E). apply res_bind_Ok in E as ([r3 w3] & E3 & E).
  apply res_bind_Ok in E as ([[] w4] & E4 & E). injection E as S0 S1 S2 S3 S4.
  assert (Ec : cfDoneContig (scan (pg w0)) = 0) by (pose proof E0 as E; unfold x_start in E; apply res_bind_Ok in E as (t & _ & E); apply res_bind_Ok in E as (bs & _ & E); by injection E as <-).
  exists w0, r1, w1, r2, w2, r3, w3, w4. split_and!; [done..|]. eapply (cf_scan_invariant w0); [done|done|].
  eapply rtc_l; [by eapply step_message|]. eapply rtc_l; [by eapply step_message|]. eapply rtc_l; [by eapply step_message|].
  eapply rtc_l; [by eapply step_requeue|]. apply rtc_refl.
Defined.

(** Every chunk is done, no block is awaited: the pointer goes to the tip, 2. *)
Definition x_done : cfscan := CfScan 1 2 3 false (Some [CfSegment 1 2 0 (Some 1%positive) None 5 3 true]) 1 [] 0.
Lemma cf_resume_pointer_exact_witness : exists (bs : blockstore) (t : table) w',
  peergroup_advance_lastblk (x_state bs t 1 x_done) = Ok (tt, w') /\ lastBlk (pg w') = hash_at bs [1; 2; 3]%positive 2.
Proof.
  destruct x_ready as (bs & t & _ & E1 & E2 & Hg & _). exists bs, t.
  assert (Hok : scan_ok x_done).
  { split; [|done]. split; [by cbn|done| | |by vm_compute].
    - intros [|i] seg; [|done]. intros [= <-]. by split.
    - intros [|i] [|j] si sj p; done. }
  destruct (cf_resume_pointer_exact 1 (replicate 16 x00) [1; 2; 3]%positive 1 (x_state bs t 1 x_done)) as (w' & L' & E & _ & El & HL & _ & Hmax);
    [apply Hg|by split|by eexists|by vm_compute|done|].
  exists w'. split; [exact E|]. rewrite El. f_equal. change (Zlen [1; 2; 3]%positive) with 3 in HL.
  assert (2 <= L'); [|lia]. apply Hmax; [cbn; lia|by vm_compute|]. split; [|by intros e ?%not_elem_of_nil].
  intros [|i] seg; [|done]. intros [= <-]. done.
Defined.
End witnesses.
