(* ===== verification/PeerLink.v ===== *)
(** * Peers come and go (core/peer.c, core/peergroup.c)

    Connecting to peers, drawn from the address book, and destroying them. The
    end of a peer brings others in ([peergroup_refill]), whose connection can
    fail at once and end them in turn: the recursion of the code is on [fuel],
    and ends because each peer takes an address that was not tried. *)
From S2P Require Export Sync.

(** The header of a message, as it is received. *)
Definition sizeof_msgHdr : Z := 24.

Section link.
Context `{Malloc} `{Sha256} `{T : Table positive} `{W : !PgWallet}.

(** ** Sockets *)

Definition on_link (p : positive) (f : peer_link -> peer_link) : ST world unit := on_peer p (fun pe => pe <| sock ::= f |>).

Definition link_receive (p : positive) (len : Z) : ST world unit :=
  pe ← peer_load p;
  _ ← lift (ASSERT (sock_err (sock pe) =? 0));
  _ ← lift (ASSERT (bool_decide (sk_recv (sock pe) = None)));
  _ ← lift (ASSERT (0 <? len));
  on_link p (fun s => s <| sk_recv := Some (len, []) |>).

(** The connection is made, or is not; [cb] is called. A connection that times out
    is one that is not made, with [ETIMEDOUT]. *)
Definition link_connected (cb : Z -> ST world unit) (p : positive) (err : Z) : ST world unit :=
  _ ← on_link p (fun s => s <| connect_async := false |> <| sock_err := err |>);
  cb err.
(** netasync_connect with a callback and without a proxy, up to what the socket
    does with the network ([NetConnect.netasync_connect_outcomes]). *)
Definition link_connect (cb : Z -> ST world unit) (p : positive) : ST world unit :=
  w ← get;
  let o := dial (net w) (dials (net w)) in
  _ ← (fun w => Ok (tt, w <| net ::= fun n => n <| dials ::= S |> |>));
  match o with
  | CoPending => on_link p (fun s => s <| connect_async := true |>)
  | CoNow err => link_connected cb p err
  | CoNoSocket err =>
      _ ← lift (ASSERT (negb ((err =? EMFILE) || (err =? ENFILE))));
      link_connected cb p err
  end.

(** ** The address of a peer *)

Definition addr_load (pa : positive) : ST world peer_addr := fun w => a ← obj_load (ab_heap (book w)) pa; Ok (a, w).
Definition on_addr (pa : positive) (f : peer_addr -> peer_addr) : ST world unit := fun w =>
  a ← obj_load (ab_heap (book w)) pa; Ok (tt, w <| book ::= fun b => with_objects (<[pa := f a]> (ab_heap b)) b |>).
Definition set_connected (c : bool) (a : peer_addr) : peer_addr := PeerAddr (pa_addr a) (pa_pad a) c (pa_triedalready a).
Definition set_tried (a : peer_addr) : peer_addr := PeerAddr (pa_addr a) (pa_pad a) (pa_connected a) true.

(** The address goes, out of the book and freed. *)
Definition drop_addr (pa : positive) : ST world unit := fun w =>
  '(_, b) ← addrbook_remove_entry pa (book w);
  Ok (tt, w <| book := with_objects (delete pa (ab_heap b)) b |>).

(** [random] is called if there is an address. *)
Definition rand_addr : ST world (option positive) := fun w =>
  if addrbook_get_count (book w) =? 0 then Ok (None, w) else
  o ← addrbook_get_rand_addr (rnd (net w) (draws (net w))) (book w);
  Ok (o, w <| net ::= fun n => n <| draws ::= S |> |>).

(** ** The list of peers *)

Definition peergroup_queue_peerlist (p : positive) : ST world unit := on_pg (fun g => g <| peer_list ::= fun l => l ++ [p] |>).
Definition peergroup_dequeue_peerlist (p : positive) : ST world unit :=
  _ ← on_pg (fun g => g <| peer_list ::= filter (fun q => q <> p) |> <| active := wrap32 (active g - 1) |>);
  w ← get;
  when (negb (bitc_exiting (btc w))) peergroup_update_info.

Definition peer_remove_addr (err : Z) : bool :=
  negb (err =? 0) && negb (err =? EHOSTUNREACH) && negb (err =? ENETDOWN) && negb (err =? ENETUNREACH) && negb (err =? ETIMEDOUT).

(** ** Connecting: [destroy] is [peer_destroy] *)

Section connecting.
Variable destroy : positive -> Z -> ST world unit.

Definition peer_connect_cb (p : positive) (err : Z) : ST world unit :=
  if negb (err =? 0) then destroy p err else
  _ ← on_peer p (fun pe => pe <| connected := true |> <| recvMsgHdr := true |>);
  _ ← link_receive p sizeof_msgHdr;
  w ← get;
  _ ← send_crafted p BTC_MSG_VERSION (fun testnet => btcmsg_craft_version testnet (seconds (btc w)));
  mret tt.

Definition peer_add (pa : positive) : ST world unit :=
  ts ← time_get;
  a ← addr_load pa;
  _ ← lift (ASSERT (negb (pa_connected a)));
  _ ← on_addr pa (fun a => set_tried (set_connected true a));
  w ← get;
  let p := obj_new (peers w) in
  let pe := Peer false false false 0 0 0 0xdead0000 0 ts None (Link false 0 [] None) pa
              false (MsgHeader 0 (replicate 12 x00) 0 (replicate 4 x00)) (Buff [] 0 0 false) in
  _ ← (fun w => Ok (tt, w <| peers ::= <[p := pe]> |>));
  _ ← peergroup_queue_peerlist p;
  link_connect (peer_connect_cb p) p.

(** The number in the name of the peer is left out. *)
Definition peergroup_add_peer (pa : positive) : ST world unit :=
  _ ← on_pg (fun g => g <| active := wrap32 (active g + 1) |>);
  _ ← peer_add pa;
  peergroup_update_info.

(** First the peers that did well, then any. *)
Fixpoint refill_best (max : Z) (best : list peerstats_entry) : ST world unit :=
  match best with
  | [] => mret tt
  | e :: best =>
      w ← get;
      if negb (active (pg w) <? max) then mret tt else
      o ← lift (addrbook_get_by_ip (book w) (pe_ip e));
      match o with
      | None => refill_best max best
      | Some pa =>
          a ← addr_load pa;
          if pa_triedalready a || pa_connected a then refill_best max best else
          _ ← peergroup_add_peer pa; refill_best max best
      end
  end.
(** [false] when there is no address. *)
Fixpoint refill_random (max : Z) (n : nat) : ST world bool :=
  match n with
  | O => mret true
  | S n =>
      w ← get;
      if negb (active (pg w) <? max) then mret true else
      o ← rand_addr;
      match o with
      | None => mret false
      | Some pa =>
          a ← addr_load pa;
          if pa_triedalready a || (Z.land (a_services (pa_addr a)) BTC_SERVICE_NODE_NETWORK =? 0) || pa_connected a then refill_random max n else
          _ ← peergroup_add_peer pa; refill_random max n
      end
  end.
Definition peergroup_refill (init : bool) : ST world unit :=
  w ← get;
  let g := pg w in
  if connectHost (net w) then mret tt else
  if addrbook_get_count (book w) <=? wrap32 (2 * active g) then mret tt else
  let max := if init then Z.max (maxActive g) (minActiveInit g) else maxActive g in
  _ ← match peerStats g with
      | None => mret tt
      | Some _ => best ← lift (peerstats_get_best (peerStats g) 32); refill_best max best
      end;
  r ← refill_random max 2000;
  when r peergroup_update_info.
Definition peergroup_notify_destroy : ST world unit :=
  w ← get;
  if bitc_exiting (btc w) then mret tt else peergroup_refill false.

(** *** The end of a peer *)

Definition destroy_body (p : positive) (err : Z) : ST world unit :=
  pe ← peer_load p;
  a ← addr_load (paddr pe);
  if negb (pa_connected a) then mret tt else
  _ ← on_addr (paddr pe) (set_connected false);
  _ ← on_peer p (fun pe => pe <| connected := false |>);
  _ ← on_pg (fun g => if bool_decide (downloadPeer g = Some p) then g <| downloadPeer := None |> else g);
  _ ← peergroup_requeue_peer_chunks p;
  _ ← peergroup_notify_peer_gone p;
  _ ← when (peer_remove_addr err) (drop_addr (paddr pe));
  _ ← peergroup_dequeue_peerlist p;
  _ ← (fun w => Ok (tt, w <| peers ::= delete p |>));
  peergroup_notify_destroy.
End connecting.

(** [peer_destroy] is its body, where the calls of [peer_destroy] are itself. *)
Fixpoint peer_destroy (fuel : nat) : positive -> Z -> ST world unit :=
  match fuel with
  | O => fun _ _ => lift (Fault UB)
  | S fuel => destroy_body (peer_destroy fuel)
  end.
Definition peer_error_cb (fuel : nat) (p : positive) (err : Z) : ST world unit := peer_destroy fuel p err.

(** ** The periodic timer *)

Fixpoint check_liveness_loop (l : list positive) (now : Z) : ST world unit :=
  match l with [] => mret tt | p :: l => _ ← peer_check_liveness p now; check_liveness_loop l now end.
Definition peergroup_check_liveness : ST world unit :=
  now ← time_get; w ← get; check_liveness_loop (peer_list (pg w)) now.

Definition peergroup_check_download_stall (fuel : nat) : ST world unit :=
  w ← get;
  match downloadPeer (pg w) with
  | None => mret tt
  | Some dp =>
      if negb (bool_decide (state (btc w) = BITC_STATE_UPDATE_HEADERS)) then mret tt else
      if lastProgressTS (dl (pg w)) =? 0 then (now ← time_get; on_dl (fun d => d <| lastProgressTS := now |>)) else
      now ← time_get;
      if wrap64 (now - lastProgressTS (dl (pg w))) <? SYNC_STALL_USEC then mret tt else
      _ ← on_dl (fun d => d <| lastProgressTS := now |>);
      peer_destroy fuel dp ETIMEDOUT
  end.

(** The configuration and its file are the arguments and the result. *)
Definition peergroup_periodic_cb (fuel : nat) (conf : config) (fd : option file) : ST world (config * option file) :=
  w ← get;
  if bitc_exiting (btc w) then mret (conf, fd) else
  _ ← peergroup_refill (peer_destroy fuel) false;
  _ ← peergroup_check_liveness;
  _ ← peergroup_check_download_stall fuel;
  w ← get;
  r ← (if configNeedWrite (pg w) then
         r ← lift (peergroup_save_lastblk conf fd (lastBlk (pg w)));
         _ ← on_pg (fun g => g <| configNeedWrite := false |>); mret r
       else mret (conf, fd));
  _ ← in_stats peerstats_flush;
  mret r.

(** ** The end of the program *)

(** [n] bounds the peers. *)
Fixpoint destroy_peers_loop (fuel n : nat) : ST world unit :=
  w ← get;
  match peer_list (pg w), n with
  | [], _ => mret tt
  | p :: _, O => lift (Fault UB)
  | p :: _, S n => _ ← peer_destroy fuel p 0; destroy_peers_loop fuel n
  end.
Definition peergroup_destroy_peers (fuel : nat) : ST world unit :=
  w ← get;
  _ ← destroy_peers_loop fuel (length (peer_list (pg w)));
  w ← get;
  _ ← lift (ASSERT (active (pg w) =? 0));
  lift (ASSERT (bool_decide (peer_list (pg w) = []))).
End link.
