(* ===== verification/PeerMsg.v ===== *)
(** * The messages of a peer (core/peer.c, lib/netasync/netasync.c)

    The bytes of a socket are put together into a header, then a payload; the
    payload is parsed (BtcMessage.v) and given to the handler of its type, most of
    which are those of the group (Sync.v). A peer whose message is refused is
    destroyed. *)
From Stdlib Require Import Strings.String.
From S2P Require Export PeerLink.

(** What a read of the socket gives: bytes, the end of the stream, an error. *)
Inductive read_outcome : Set := RdData (bs : list byte) | RdEof | RdErr (err : Z).

(** What the loop over the reads comes to: everything asked for is there, the
    socket has no more for now, or it ends, with an error or not. *)
Inductive received : Set := RvAll (bs : list byte) | RvMore (bs : list byte) | RvEnd (err : option Z).

(** The [reads] are those until the socket would block. The read asks for the
    bytes that are missing and does not give more. *)
Fixpoint link_loop (len : Z) (got : list byte) (reads : list read_outcome) : res (received * list read_outcome) :=
  match reads with
  | [] => Ok (RvMore got, [])
  | RdErr err :: reads => Ok (RvEnd (Some err), reads)
  | RdEof :: reads => Ok (RvEnd None, reads)
  | RdData bs :: reads =>
      _ ← (if (0 <? Zlen bs) && (Zlen bs <=? len - Zlen got) then Ok tt else Fault UB);
      if Zlen got + Zlen bs =? len then Ok (RvAll (got ++ bs), reads) else link_loop len (got ++ bs) reads
  end.

(** The struct behind the 24 bytes of a header. *)
Definition msg_header_of (b : list byte) : btc_msg_header :=
  MsgHeader (le_Z (take 4 b)) (take 12 (drop 4 b)) (le_Z (take 4 (drop 16 b))) (take 4 (drop 20 b)).

(** What is before the first entry of another type. *)
Fixpoint run_of (type : Z) (l : list (Z * uint256)) : list uint256 * list (Z * uint256) :=
  match l with
  | [] => ([], [])
  | (t, h) :: l' => if t =? type then let '(hs, rest) := run_of type l' in (h :: hs, rest) else ([], l)
  end.

Section msg.
Context `{Malloc} `{Sha256} `{T : Table positive} `{W : !PgWallet}.

(** ** What the peer asks *)

(** A parser on the payload. *)
Definition in_recv {A} (p : positive) (m : ST buff A) : ST world A := fun w =>
  pe ← obj_load (peers w) p;
  '(a, b) ← m (recvBuf pe);
  Ok (a, w <| peers := <[p := pe <| recvBuf := b |>]> (peers w) |>).

Fixpoint rand_addrs (n : nat) : ST world (list btc_msg_address) :=
  match n with
  | O => mret []
  | S n =>
      o ← rand_addr;
      match o with
      | None => lift (Fault UB)
      | Some pa => a ← addr_load pa; l ← rand_addrs n; mret (pa_addr a :: l)
      end
  end.
(** The message is crafted; it is not sent. *)
Definition peer_handle_getaddr (p : positive) : ST world bool :=
  w ← get;
  let numAddr := minimum 32 (addrbook_get_count (book w)) in
  addrs ← rand_addrs (Z.to_nat numAddr);
  pe ← peer_load p;
  b ← lift (btcmsg_craft_addr (testnet (btc w)) (protversion pe) addrs numAddr);
  _ ← on_peer p (fun pe => pe <| sendBuf := Some b |>);
  mret false.

Definition peer_handle_ping (p : positive) : ST world bool :=
  pe ← peer_load p;
  '(res, nonce) ← in_recv p (btcmsg_parse_pingpong (protversion pe));
  if res : bool then mret res else
  send_crafted p BTC_MSG_PONG (fun testnet => btcmsg_craft_pong testnet (protversion pe) nonce).
(** A nonce that is not the one expected is only noted. *)
Definition peer_handle_pong (p : positive) : ST world bool :=
  pe ← peer_load p;
  '(res, _) ← in_recv p (btcmsg_parse_pingpong (protversion pe));
  mret res.

Definition peer_handle_notfound (p : positive) : ST world bool :=
  '(res, (hashes, n)) ← in_recv p (btcmsg_parse_notfound true);
  if res : bool then mret res else
  _ ← when (0 <? n) (l ← lift (first_n n (default [] hashes)); peergroup_retry_block_fetch p l);
  mret false.

Definition peer_handle_alert (p : positive) : ST world bool := in_recv p btcmsg_parse_alert.

Fixpoint getdata_loop (p : positive) (inv : list btc_msg_inv) : ST world bool :=
  match inv with
  | [] => mret false
  | i :: inv =>
      if inv_type i =? INV_TYPE_MSG_TX then
        o ← peergroup_lookup_broadcast_tx (inv_hash i);
        match o with
        | None => getdata_loop p inv
        | Some buf =>
            res ← send_crafted p BTC_MSG_TX (fun testnet => btcmsg_craft_tx testnet buf);
            if res : bool then mret res else getdata_loop p inv
        end
      else mret true
  end.
Definition peer_handle_getdata (p : positive) : ST world bool :=
  '(res, (inv, n)) ← in_recv p btcmsg_parse_inv;
  if res : bool then mret res else
  l ← lift (first_n n (default [] inv));
  getdata_loop p l.

Definition peer_handle_getblocks (p : positive) : ST world bool := mret true.

(** ** What the peer sends *)

(** The wallet must take the transaction, which is in no block. *)
Definition peer_handle_tx (p : positive) : ST world bool :=
  pe ← peer_load p;
  buf ← lift (ptr_load (buff_base (Some (recvBuf pe))) (buff_maxlen (Some (recvBuf pe))));
  res ← (fun w => '(res, wlt) ← wallet_handle_tx (env_of w) uint256_zero_out buf (wallet w); Ok (res, w <| wallet := wlt |>));
  _ ← lift (ASSERT (negb res));
  mret res.

(** The block on the stack is filled when there is no error; what the group says
    of it is dropped. *)
Definition peer_handle_block (p : positive) : ST world bool :=
  '(res, blk) ← in_recv p (btcmsg_parse_block (Block zero_blockheader 0 []));
  if negb res then _ ← peergroup_handle_block p blk; mret res else mret res.

Definition peer_handle_headers (p : positive) : ST world bool :=
  '(res, (headers, n)) ← in_recv p btcmsg_parse_headers;
  if res : bool then mret res else
  l ← lift (first_n n (default [] headers));
  peergroup_handle_headers p l.

Definition peer_handle_addr (p : positive) : ST world bool :=
  pe ← peer_load p;
  w ← get;
  '(res, (addrs, n)) ← in_recv p (btcmsg_parse_addr (seconds (btc w)) (protversion pe));
  if res : bool then mret res else
  l ← lift (first_n n (default [] addrs));
  _ ← peergroup_handle_addr l;
  mret false.

(** The blocks and transactions that are not there. *)
Fixpoint wanted (inv : list btc_msg_inv) : ST world (list (Z * uint256)) :=
  match inv with
  | [] => mret []
  | i :: inv =>
      l1 ← (if inv_type i =? INV_TYPE_MSG_BLOCK then
              s ← ask_bs (fun bs => blockstore_is_block_known bs (inv_hash i));
              mret (if s : bool then [] else [(INV_TYPE_MSG_BLOCK, inv_hash i)])
            else if inv_type i =? INV_TYPE_MSG_TX then
              s ← (fun w => s ← wallet_has_tx (wallet w) (inv_hash i); Ok (s, w));
              mret (if s : bool then [] else [(INV_TYPE_MSG_TX, inv_hash i)])
            else mret []);
      l2 ← wanted inv;
      mret (l1 ++ l2)
  end.
(** They are asked for by runs of one type; [n] bounds the runs. *)
Fixpoint request_runs (p : positive) (n : nat) (l : list (Z * uint256)) : ST world bool :=
  match n, l with
  | _, [] => mret false
  | O, _ => lift (Fault UB)
  | S n, (type, _) :: _ =>
      let '(hashes, rest) := run_of type l in
      res ← peer_send_getdata p type hashes;
      if res : bool then mret res else request_runs p n rest
  end.
Definition peer_handle_inv (p : positive) : ST world bool :=
  '(res, (inv, n)) ← in_recv p btcmsg_parse_inv;
  if res : bool then mret res else
  l ← lift (first_n n (default [] inv));
  hashes ← wanted l;
  w ← get;
  if bitc_state_ready (btc w) then request_runs p (length hashes) hashes else mret res.

(** ** The handshake *)

Definition peer_handshake_ok (p : positive) : ST world bool :=
  pe ← peer_load p;
  _ ← lift (ASSERT (BTC_PROTO_ADDR_W_TIME <=? protversion pe));
  w ← get;
  _ ← when (negb (bool_decide (peerStats (pg w) = None)))
        (now ← time_get;
         ip ← peer_get_ip p;
         in_stats (fun o => peerstats_record_handshake o ip (wrap32 (now - connectStartTS pe)) (services pe)));
  res ← peer_send_getaddr p;
  if res : bool then mret res else
  peergroup_handle_handshake_ok p (sint32 (startingHeight pe)).

(** The name of the client, which is printed only, is left out. *)
Definition peer_handle_version (p : positive) : ST world bool :=
  '(res, version) ← in_recv p btcmsg_parse_version;
  if res : bool then mret res else
  _ ← on_peer p (fun pe => pe <| protversion := v_version version |> <| startingHeight := v_startingHeight version |>
        <| services := v_services version |>);
  if Z.land (v_services version) BTC_SERVICE_NODE_NETWORK =? 0 then mret true else
  if v_startingHeight version =? 0 then mret true else
  if v_version version <? BTC_PROTO_FILTERING then mret true else
  _ ← on_peer p (fun pe => pe <| got_version := true |>);
  send_crafted p BTC_MSG_VERACK btcmsg_craft_verack.

Definition peer_handle_verack (p : positive) : ST world bool :=
  pe ← peer_load p;
  if negb (got_version pe) then mret true else
  _ ← on_peer p (fun pe => pe <| got_verack := true |>);
  peer_handshake_ok p.

(** ** Filters *)

Definition peer_handle_cfilter (p : positive) : ST world bool :=
  '(res, cf) ← in_recv p btcmsg_parse_cfilter;
  if res : bool then mret res else peergroup_handle_cfilter p cf.
Definition peer_handle_cfheaders (p : positive) : ST world bool :=
  '(res, cfh) ← in_recv p btcmsg_parse_cfheaders;
  if res : bool then mret res else peergroup_handle_cfheaders p cfh.
Definition peer_handle_cfcheckpt (p : positive) : ST world bool :=
  '(res, cfc) ← in_recv p btcmsg_parse_cfcheckpt;
  if res : bool then mret res else peergroup_handle_cfcheckpt p cfc.

(** ** The messages *)

(** What is done of a message once the handshake is over. *)
Definition handle_msg (p : positive) (msg : btc_msg_type) : ST world bool :=
  match msg with
  | BTC_MSG_INV => peer_handle_inv p
  | BTC_MSG_ADDR => peer_handle_addr p
  | BTC_MSG_GETADDR => peer_handle_getaddr p
  | BTC_MSG_PING => peer_handle_ping p
  | BTC_MSG_PONG => peer_handle_pong p
  | BTC_MSG_GETBLOCKS => peer_handle_getblocks p
  | BTC_MSG_GETDATA => peer_handle_getdata p
  | BTC_MSG_BLOCK => peer_handle_block p
  | BTC_MSG_TX => peer_handle_tx p
  | BTC_MSG_ALERT => peer_handle_alert p
  | BTC_MSG_NOTFOUND => peer_handle_notfound p
  | BTC_MSG_HEADERS => peer_handle_headers p
  | BTC_MSG_CFILTER => peer_handle_cfilter p
  | BTC_MSG_CFHEADERS => peer_handle_cfheaders p
  | BTC_MSG_CFCHECKPT => peer_handle_cfcheckpt p
  | _ => mret false
  end.
(** Before, only what is waited for is done. *)
Definition dispatch (p : positive) (msg : btc_msg_type) : ST world bool :=
  pe ← peer_load p;
  if negb (got_version pe) || negb (got_verack pe) then
    if negb (got_version pe) && bool_decide (msg = BTC_MSG_VERSION) then peer_handle_version p
    else if negb (got_verack pe) && bool_decide (msg = BTC_MSG_VERACK) then peer_handle_verack p
    else mret false
  else handle_msg p msg.

(** The memory of the payload, when there is one. *)
Definition peer_handle_msgheader (p : positive) : ST world bool :=
  w ← get;
  pe ← peer_load p;
  if negb (btcmsg_header_valid (testnet (btc w)) (msgHdr pe)) then mret true else
  _ ← lift (ASSERT (bool_decide (b_base (recvBuf pe) = [])));
  let len := h_payloadLength (msgHdr pe) in
  _ ← on_peer p (fun pe => pe <| recvBuf := buff_alloc_base (b_grow (recvBuf pe)) len |> <| recvMsgHdr := false |>);
  _ ← when (0 <? len) (link_receive p len);
  mret false.

Definition peer_update_timestamp (p : positive) : ST world unit :=
  pe ← peer_load p;
  w ← get;
  on_addr (paddr pe) (fun a => let b := pa_addr a in PeerAddr (MsgAddress (a_services b) (a_ip b) (wrap32 (seconds (btc w))) (a_port b)) (pa_pad a) (pa_connected a) (pa_triedalready a)).

(** The payload is there: it is handled, and the next header waited for. *)
Definition receive_payload (fuel : nat) (p : positive) : ST world unit :=
  pe ← peer_load p;
  let msg := btcmsg_str_to_type (h_message (msgHdr pe)) in
  ok ← lift (btcmsg_payload_valid (recvBuf pe) (h_checksum (msgHdr pe)));
  if negb ok then peer_destroy fuel p EINVAL else
  _ ← peergroup_recv_stats_inc msg;
  res ← dispatch p msg;
  if res : bool then peer_destroy fuel p EINVAL else
  _ ← peer_update_timestamp p;
  _ ← on_peer p (fun pe => pe <| recvBuf ::= buff_free_base |> <| recvMsgHdr := true |>);
  link_receive p sizeof_msgHdr.

Definition peer_receive_cb (fuel : nat) (p : positive) : ST world unit :=
  now ← time_get;
  _ ← on_peer p (fun pe => pe <| last_ts := now |>);
  w ← get;
  if bitc_exiting (btc w) then mret tt else
  pe ← peer_load p;
  if recvMsgHdr pe then
    res ← peer_handle_msgheader p;
    if res : bool then peer_destroy fuel p EINVAL else
    pe ← peer_load p;
    if 0 <? buff_maxlen (Some (recvBuf pe)) then mret tt else receive_payload fuel p
  else receive_payload fuel p.

(** ** The socket *)

(** The bytes are those of the header or of the payload, where [link_receive]
    was told to put them; they are stored at once when they are all there. *)
Definition store_received (p : positive) (bs : list byte) : ST world unit :=
  on_peer p (fun pe =>
    if recvMsgHdr pe then pe <| msgHdr := msg_header_of bs |>
    else pe <| recvBuf := Buff bs (b_len (recvBuf pe)) (b_idx (recvBuf pe)) (b_grow (recvBuf pe)) |>).

(** The socket can be read; the result is the reads that are left for later. *)
Definition link_receive_cb (fuel : nat) (p : positive) (reads : list read_outcome) : ST world (list read_outcome) :=
  pe ← peer_load p;
  match sk_recv (sock pe) with
  | None => lift (Fault Panic)
  | Some (len, got) =>
      '(r, rest) ← lift (link_loop len got reads);
      match r with
      | RvAll bs => _ ← on_link p (fun s => s <| sk_recv := None |>); _ ← store_received p bs; _ ← peer_receive_cb fuel p; mret rest
      | RvMore bs => _ ← on_link p (fun s => s <| sk_recv := Some (len, bs) |>); mret rest
      | RvEnd err =>
          _ ← on_link p (fun s => s <| sock_err ::= fun e => default e err |>);
          pe ← peer_load p;
          _ ← peer_error_cb fuel p (sock_err (sock pe));
          mret rest
      end
  end.
End msg.
