(* ===== verification/PeerEnds.v ===== *)
(** * The end of a peer ends (core/peer.c)

    [peer_destroy] calls itself when the peers that replace the one that ends
    cannot be connected to. A peer is added on an address that was not tried yet,
    and that is tried from then on: the calls are no deeper than the number of
    addresses that were not tried. *)
From S2P Require Export PeerLink CfScan.

Section ends.
Context `{Malloc} `{Sha256} `{T : Table positive} `{W : !PgWallet}.

(** ** The addresses that were not tried *)

Definition fresh_addr (kv : positive * peer_addr) : Prop := pa_triedalready kv.2 = false.
Definition untried (b : addrbook) : nat := size (filter fresh_addr (ab_heap b)).

Definition tried_more (w w' : world) : Prop := (untried (book w') <= untried (book w))%nat.
#[export] Instance tried_more_preorder : PreOrder tried_more.
Proof. split; [intros x|intros x y z]; unfold tried_more; lia. Qed.

Definition same_book (w w' : world) : Prop := book w' = book w.
#[export] Instance same_book_preorder : PreOrder same_book.
Proof. split; [done|]. intros x y z. unfold same_book. congruence. Qed.

Lemma quiet_book {A} (m : ST world A) : Goes quiet m -> Goes same_book m.
Proof. intros Hm. eapply goes_weaken; [exact Hm|]. by intros w w' []. Qed.
Lemma book_tried {A} (m : ST world A) : Goes same_book m -> Goes tried_more m.
Proof. intros Hm. eapply goes_weaken; [exact Hm|]. unfold same_book, tried_more. intros w w' ->. lia. Qed.

(** *** The parts that leave the book *)

Lemma book_on_pg f : Goes same_book (on_pg f).
Proof. by intros w a w' [= _ <-]. Qed.
Lemma book_on_btc f : Goes same_book (on_btc f).
Proof. by intros w a w' [= _ <-]. Qed.
Lemma book_on_peer p f : Goes same_book (on_peer p f).
Proof. intros w a w'. unfold on_peer. destruct (obj_load _ _); [|done]. by intros [= _ <-]. Qed.
Lemma book_in_stats m : Goes same_book (in_stats m).
Proof. intros w a w'. unfold in_stats. destruct (m _); [|done]. by intros [= _ <-]. Qed.
Lemma book_addr_load pa : Goes same_book (addr_load pa).
Proof. apply (goes_read same_book). Qed.
#[local] Hint Resolve book_on_pg book_on_btc book_on_peer book_in_stats book_addr_load : goes.
#[local] Hint Extern 5 (Goes same_book _) => (apply quiet_book; solve [eauto with goes typeclass_instances]) : goes.

Lemma book_assign p i : Goes same_book (peergroup_assign_chunk p i).
Proof. unfold peergroup_assign_chunk, on_scan. goes. Qed.
#[local] Hint Resolve book_assign : goes.
Lemma book_schedule_loop l n : Goes same_book (schedule_loop l n).
Proof. revert n. induction l as [|p l IH]; intros n; cbn [schedule_loop]; goes. Qed.
#[local] Hint Resolve book_schedule_loop : goes.
Lemma book_schedule : Goes same_book peergroup_schedule_cfilters.
Proof. unfold peergroup_schedule_cfilters. goes. Qed.
#[local] Hint Resolve book_schedule : goes.
Lemma book_requeue p : Goes same_book (peergroup_requeue_peer_chunks p).
Proof. unfold peergroup_requeue_peer_chunks, on_scan. goes. Qed.
Lemma book_request p : Goes same_book (peergroup_request_cfheaders p).
Proof. unfold peergroup_request_cfheaders, assert_state, on_sync. goes. Qed.
#[local] Hint Resolve book_requeue book_request : goes.
Lemma book_birthday : Goes same_book peergroup_maybe_birthday_bound_cfheaders.
Proof.
  intros w a w'. unfold peergroup_maybe_birthday_bound_cfheaders. destruct (birthday_bound _ _ _); [|done]. by intros [= _ <-].
Qed.
#[local] Hint Resolve book_birthday : goes.
Lemma book_complete p : Goes same_book (peergroup_cfcheckpt_maybe_complete p).
Proof. unfold peergroup_cfcheckpt_maybe_complete, on_sync. goes. Qed.
#[local] Hint Resolve book_complete : goes.
Lemma book_find_driver l p : Goes same_book (find_driver l p).
Proof. induction l as [|q l IH]; cbn [find_driver]; goes. Qed.
#[local] Hint Resolve book_find_driver : goes.
Lemma book_peer_gone p : Goes same_book (peergroup_notify_peer_gone p).
Proof. unfold peergroup_notify_peer_gone, on_sync. goes. Qed.
Lemma book_dequeue p : Goes same_book (peergroup_dequeue_peerlist p).
Proof. unfold peergroup_dequeue_peerlist. goes. Qed.
Lemma book_receive p n : Goes same_book (link_receive p n).
Proof. unfold link_receive, on_link. goes. Qed.
Lemma book_rand_addr : Goes same_book rand_addr.
Proof.
  intros w a w'. unfold rand_addr. destruct (_ =? 0); [by intros [= _ <-]|]. destruct (addrbook_get_rand_addr _ _); [|done].
  by intros [= _ <-].
Qed.
#[local] Hint Resolve book_peer_gone book_dequeue book_receive book_rand_addr : goes.

(** *** The parts that change it *)

Lemma untried_insert b pa a a' : ab_heap b !! pa = Some a -> (pa_triedalready a = true -> pa_triedalready a' = true) ->
  (untried (with_objects (<[pa := a']> (ab_heap b)) b) + (if pa_triedalready a' && negb (pa_triedalready a) then 1 else 0) <= untried b)%nat.
Proof.
  intros Ea Ht. unfold untried. cbn [with_objects ab_heap]. rewrite map_filter_insert. unfold fresh_addr at 1. cbn [snd].
  destruct (decide (pa_triedalready a' = false)) as [Ef|Ef].
  - rewrite Ef. cbn [andb]. assert (Hf : filter fresh_addr (ab_heap b) !! pa = Some a).
    { apply map_lookup_filter_Some. split; [done|]. unfold fresh_addr. cbn. destruct (pa_triedalready a); [|done]. by rewrite Ht in Ef. }
    rewrite map_size_insert, Hf. cbn. lia.
  - apply not_false_is_true in Ef. rewrite Ef, map_filter_delete, map_size_delete. cbn [andb].
    destruct (pa_triedalready a) eqn:Ea'; cbn [negb]; [destruct (filter fresh_addr (ab_heap b) !! pa); cbn; lia|].
    assert (Hf : filter fresh_addr (ab_heap b) !! pa = Some a) by by apply map_lookup_filter_Some.
    rewrite Hf. cbn. assert (size (filter fresh_addr (ab_heap b)) <> 0%nat); [|lia]. intros E%map_size_empty_inv. by rewrite E, lookup_empty in Hf.
Qed.

Lemma tried_on_addr pa f : (forall a, pa_triedalready a = true -> pa_triedalready (f a) = true) -> Goes tried_more (on_addr pa f).
Proof.
  intros Hf w a w'. unfold on_addr, obj_load. destruct (_ !! pa) as [a0|] eqn:E; [|done]. cbn [mbind res_bind]. intros [= _ <-].
  unfold tried_more. cbn. pose proof (untried_insert (book w) pa a0 (f a0) E (Hf a0)). lia.
Qed.
Lemma on_addr_tried pa a w : ab_heap (book w) !! pa = Some a -> pa_triedalready a = false ->
  exists w', on_addr pa (fun a => set_tried (set_connected true a)) w = Ok (tt, w') /\ (untried (book w') < untried (book w))%nat.
Proof.
  intros Ea Ht. unfold on_addr. rewrite (obj_load_ok _ _ _ Ea). eexists. split; [done|]. cbn.
  pose proof (untried_insert (book w) pa a (set_tried (set_connected true a)) Ea) as Hs. rewrite Ht in Hs. cbn in Hs. specialize (Hs ltac:(done)). lia.
Qed.
Lemma tried_drop_addr pa : Goes tried_more (drop_addr pa).
Proof.
  intros w a w'. unfold drop_addr, addrbook_remove_entry. destruct (obj_load _ _); [|done]. cbn [mbind res_bind].
  destruct (t_remove _ _) as [[s t]|]; [|done]. cbn [mbind res_bind]. destruct s; [|done]. cbn. intros [= _ <-].
  unfold tried_more, untried. cbn. rewrite map_filter_delete, map_size_delete. destruct (filter fresh_addr (ab_heap (book w)) !! pa); cbn; lia.
Qed.
#[local] Hint Extern 3 (Goes tried_more (on_addr _ _)) => (apply tried_on_addr; reflexivity || trivial) : goes.
#[local] Hint Resolve tried_drop_addr : goes.
#[local] Hint Extern 6 (Goes tried_more _) => (apply book_tried; solve [eauto with goes typeclass_instances]) : goes.

Lemma book_put (f : world -> world) : (forall w, book (f w) = book w) -> Goes same_book (fun w => Ok (tt, f w)).
Proof. intros Hf. by apply (goes_put same_book). Qed.
#[local] Hint Extern 3 (Goes same_book (fun w => Ok (tt, _))) => (apply book_put; reflexivity) : goes.

(** *** Connecting and destroying *)

Section destroy.
Variable destroy : positive -> Z -> ST world unit.
Hypothesis Hdestroy : forall p err, Goes tried_more (destroy p err).
#[local] Hint Resolve Hdestroy : goes.

Lemma tried_connect_cb p err : Goes tried_more (peer_connect_cb destroy p err).
Proof. unfold peer_connect_cb. goes. Qed.
#[local] Hint Resolve tried_connect_cb : goes.
Lemma tried_connect p : Goes tried_more (link_connect (peer_connect_cb destroy p) p).
Proof. unfold link_connect, link_connected, on_link. goes. Qed.
#[local] Hint Resolve tried_connect : goes.
Lemma tried_add_peer pa : Goes tried_more (peergroup_add_peer destroy pa).
Proof. unfold peergroup_add_peer, peer_add, peergroup_queue_peerlist. goes. Qed.
#[local] Hint Resolve tried_add_peer : goes.
Lemma tried_best max l : Goes tried_more (refill_best destroy max l).
Proof. induction l as [|e l IH]; cbn [refill_best]; goes. Qed.
Lemma tried_random max n : Goes tried_more (refill_random destroy max n).
Proof. induction n as [|n IH]; cbn [refill_random]; goes. Qed.
#[local] Hint Resolve tried_best tried_random : goes.
Lemma tried_refill init : Goes tried_more (peergroup_refill destroy init).
Proof. unfold peergroup_refill. goes. Qed.
#[local] Hint Resolve tried_refill : goes.
Lemma tried_destroy_body p err : Goes tried_more (destroy_body destroy p err).
Proof. unfold destroy_body, peergroup_notify_destroy. goes. Qed.
End destroy.

Lemma tried_destroy n : forall p err, Goes tried_more (peer_destroy n p err).
Proof. induction n as [|n IH]; intros p err; cbn [peer_destroy]; [by intros w a w'|]. by apply tried_destroy_body. Qed.

(** ** The depth of the calls *)

(** The same, when fewer than [k] addresses were not tried. *)
Definition agrees (k : nat) {A} (m1 m2 : ST world A) : Prop := forall w, (untried (book w) < k)%nat -> m1 w = m2 w.

Lemma agrees_refl k {A} (m : ST world A) : agrees k m m.
Proof. done. Qed.
Lemma agrees_bind k {A B} (m1 m2 : ST world A) (k1 k2 : A -> ST world B) :
  agrees k m1 m2 -> Goes tried_more m2 -> (forall a, agrees k (k1 a) (k2 a)) -> agrees k (m1 ≫= k1) (m2 ≫= k2).
Proof.
  intros Hm Hg Hk w Hw. unfold mbind, st_bind. rewrite (Hm w Hw). destruct (m2 w) as [[a w']|] eqn:E; [|done].
  apply Hk. pose proof (Hg _ _ _ E) as Ht. unfold tried_more in Ht. lia.
Qed.

Lemma same_step {A B} (m : ST world A) (k1 k2 : A -> ST world B) w :
  (forall a w', m w = Ok (a, w') -> k1 a w' = k2 a w') -> (m ≫= k1) w = (m ≫= k2) w.
Proof. intros Hk. unfold mbind, st_bind. destruct (m w) as [[a w']|] eqn:E; [|done]. by apply Hk. Qed.
Lemma agrees_bind_at {A B} (m1 m2 : ST world A) (k : A -> ST world B) w : m1 w = m2 w -> (m1 ≫= k) w = (m2 ≫= k) w.
Proof. intros Hm. unfold mbind, st_bind. by rewrite Hm. Qed.

Section depth.
Variable k : nat.
Variables destroy1 destroy2 : positive -> Z -> ST world unit.
Hypothesis Hagree : forall p err, agrees k (destroy1 p err) (destroy2 p err).
Hypothesis Hdestroy : forall p err, Goes tried_more (destroy2 p err).
#[local] Hint Resolve tried_connect_cb tried_connect tried_add_peer tried_best tried_random tried_refill : goes.

Lemma agrees_connect p : agrees k (link_connect (peer_connect_cb destroy1 p) p) (link_connect (peer_connect_cb destroy2 p) p).
Proof.
  assert (Hcb : forall err, agrees k (peer_connect_cb destroy1 p err) (peer_connect_cb destroy2 p err)).
  { intros err. unfold peer_connect_cb. destruct (negb _); [apply Hagree|apply agrees_refl]. }
  unfold link_connect, link_connected, on_link. apply agrees_bind; [apply agrees_refl|goes|intros w]. cbv zeta.
  apply agrees_bind; [apply agrees_refl|goes|intros _]. destruct (dial _ _); [apply agrees_refl|..].
  - apply agrees_bind; [apply agrees_refl|goes|intros _]. apply Hcb.
  - apply agrees_bind; [apply agrees_refl|goes|intros _]. apply agrees_bind; [apply agrees_refl|goes|intros _]. apply Hcb.
Qed.

(** A peer is added on an address that was not tried: there is one less. *)
Lemma agrees_add pa a w : ab_heap (book w) !! pa = Some a -> pa_triedalready a = false -> (untried (book w) < S k)%nat ->
  peergroup_add_peer destroy1 pa w = peergroup_add_peer destroy2 pa w.
Proof.
  intros Ea Ht Hw. unfold peergroup_add_peer. apply same_step. intros [] w1 [= <-]. set (w1 := w <| pg ::= _ |>).
  assert (Ew : book w1 = book w) by done. clearbody w1.
  apply (agrees_bind_at _ _ (fun _ => peergroup_update_info)). unfold peer_add.
  apply same_step. intros ts w2 [= <- <-]. apply same_step. intros a' w3 E3. apply book_addr_load in E3 as Ew3. cbn in Ew3.
  apply same_step. intros [] w4 E4. assert (w4 = w3) as -> by (unfold lift in E4; destruct (ASSERT _); by simplify_eq).
  apply same_step. intros [] w5 E5. assert (Hlt : (untried (book w5) < k)%nat).
  { unfold same_book in Ew3. cbn in Ew3. rewrite Ew in Ew3. rewrite <- Ew3 in Ea. destruct (on_addr_tried pa a w3 Ea Ht) as (w6 & E6 & Hlt).
    rewrite E6 in E5. injection E5 as <-. rewrite Ew3 in Hlt. lia. }
  apply same_step. intros w6 w7 [= <- <-]. cbv zeta. apply same_step. intros [] w8 [= <-]. apply same_step. intros [] w9 [= <-].
  by apply agrees_connect.
Qed.

(** The peer is added if the address was not tried, then the loop goes on. *)
Lemma agrees_next {A} (c : peer_addr -> bool) pa (k1 k2 : ST world A) (m1 m2 : ST world A) w :
  (forall a, c a = false -> pa_triedalready a = false) -> agrees (S k) m1 m2 -> agrees (S k) k1 k2 -> (untried (book w) < S k)%nat ->
  (a ← addr_load pa; if c a then m1 else _ ← peergroup_add_peer destroy1 pa; k1) w =
  (a ← addr_load pa; if c a then m2 else _ ← peergroup_add_peer destroy2 pa; k2) w.
Proof.
  intros Hc Hm Hk Hw. apply same_step. intros a w'. unfold addr_load, obj_load. destruct (_ !! pa) as [a0|] eqn:Ea; [|done].
  intros [= <- <-]. destruct (c a0) eqn:Et; [by apply Hm|]. apply Hc in Et.
  unfold mbind, st_bind. rewrite (agrees_add pa a0 w Ea Et Hw). destruct (peergroup_add_peer destroy2 pa w) as [[u w1]|] eqn:E; [|done].
  apply Hk. apply (tried_add_peer destroy2 Hdestroy) in E. unfold tried_more in E. lia.
Qed.

Lemma agrees_best max l : agrees (S k) (refill_best destroy1 max l) (refill_best destroy2 max l).
Proof.
  induction l as [|e l IH]; cbn [refill_best]; [apply agrees_refl|]. intros w Hw. apply same_step. intros w0 w1 [= <- <-].
  destruct (negb _); [done|]. apply same_step.
  intros o w1. unfold lift. destruct (addrbook_get_by_ip _ _) as [o'|]; [|discriminate]. intros [= -> <-]. destruct o as [pa|].
  - apply (agrees_next (fun a => pa_triedalready a || pa_connected a)); [|exact IH|exact IH|exact Hw]. intros a. by destruct (pa_triedalready a).
  - by apply IH.
Qed.
Lemma agrees_random max n : agrees (S k) (refill_random destroy1 max n) (refill_random destroy2 max n).
Proof.
  induction n as [|n IH]; cbn [refill_random]; [apply agrees_refl|]. intros w Hw. apply same_step. intros w0 w1 [= <- <-].
  destruct (negb _); [done|]. apply same_step. intros o w1 E%book_rand_addr. unfold same_book in E. destruct o as [pa|]; [|done].
  apply (agrees_next (fun a => pa_triedalready a || (Z.land (a_services (pa_addr a)) BTC_SERVICE_NODE_NETWORK =? 0) || pa_connected a)); [|exact IH|exact IH|].
  - intros a. by destruct (pa_triedalready a).
  - by rewrite E.
Qed.
Lemma agrees_refill init : agrees (S k) (peergroup_refill destroy1 init) (peergroup_refill destroy2 init).
Proof.
  unfold peergroup_refill. apply agrees_bind; [apply agrees_refl|goes|intros w]. cbv zeta. destruct (connectHost _); [apply agrees_refl|].
  destruct (_ <=? _); [apply agrees_refl|]. set (max := if init then _ else _).
  apply agrees_bind; [|goes|intros _; apply agrees_bind; [apply agrees_random|goes|intros r; apply agrees_refl]].
  destruct (peerStats _); [|apply agrees_refl]. apply agrees_bind; [apply agrees_refl|goes|intros best]. apply agrees_best.
Qed.
Lemma agrees_body p err : agrees (S k) (destroy_body destroy1 p err) (destroy_body destroy2 p err).
Proof.
  unfold destroy_body. apply agrees_bind; [apply agrees_refl|goes|intros pe]. apply agrees_bind; [apply agrees_refl|goes|intros a].
  destruct (negb _); [apply agrees_refl|]. do 8 (apply agrees_bind; [apply agrees_refl|goes|intros _]).
  unfold peergroup_notify_destroy. apply agrees_bind; [apply agrees_refl|goes|intros w]. destruct (bitc_exiting _); [apply agrees_refl|].
  apply agrees_refill.
Qed.
End depth.

Lemma agrees_fuel stuck k : forall n m, (k <= n)%nat -> (k <= m)%nat -> forall p err,
  agrees k (Nat.iter n destroy_body stuck p err) (peer_destroy m p err).
Proof.
  induction k as [|k IH]; [intros; intros w ?; lia|]. intros [|n] [|m] Hn Hm p err; try lia. cbn [Nat.iter nat_rect peer_destroy].
  apply agrees_body; [|apply tried_destroy]. intros q e. apply IH; lia.
Qed.

(** C8: the end of a peer ends: with [n] above the number of addresses that were
    not tried, the calls of [peer_destroy] are never [n] deep, since it does not
    matter what is at that depth; more fuel changes nothing. So it is its body,
    with itself for the calls, as the code has it. *)
Theorem peer_destroy_ends (stuck : positive -> Z -> ST world unit) (n m : nat) (p : positive) (err : Z) (w : world) :
  (untried (book w) < n <= m)%nat ->
  Nat.iter n destroy_body stuck p err w = peer_destroy n p err w /\ peer_destroy m p err w = peer_destroy n p err w /\
  destroy_body (peer_destroy n) p err w = peer_destroy n p err w.
Proof.
  intros [Hn Hm].
  assert (E : forall s i j, (n <= i)%nat -> (n <= j)%nat -> Nat.iter i destroy_body s p err w = peer_destroy j p err w).
  { intros s i j Hi Hj. apply (agrees_fuel s (S (untried (book w)))); lia. }
  split; [by apply E|]. split.
  - by rewrite <- (E stuck n m), <- (E stuck n n).
  - change (peer_destroy (S n) p err w = peer_destroy n p err w). by rewrite <- (E stuck n (S n)), <- (E stuck n n) by lia.
Qed.
End ends.

(** ** An example: the last peer ends, and the one that replaces it is refused *)

Section refused.
#[local] Existing Instance zero_malloc.
#[local] Existing Instance toy_sha256.
#[local] Existing Instance toy_pgwallet.

Definition r_address (n : byte) (tried : bool) : peer_addr :=
  PeerAddr (MsgAddress BTC_SERVICE_NODE_NETWORK (replicate 15 x00 ++ [n]) 0 8333) [x00; x00] tried tried.
Definition r_start : res world :=
  t ← t_create;
  let b := AddrBook (File [] 0 []) t {[1%positive := r_address x01 true; 2%positive := r_address x02 false]} [] 0 in
  '(_, b) ← addrbook_add_entry_int 1 b;
  '(_, b) ← addrbook_add_entry_int 2 b;
  bs ← t_create;
  Ok (World (x_app <| state := BITC_STATE_UPDATE_HEADERS |>)
    (PeerGroup [1%positive] (Some 1%positive) uint256_zero_out false uint256_zero_out t ∅ (Download 0 1 0 0 0 0 0) 1 1 0 None None
      (CfScan 0 0 0 false None 0 [] 0) (CfSync 0 0 uint256_zero_out None 0 0 0 false false) (fun _ => (0, 0)))
    {[1%positive := x_peer]} b (BlockStore ∅ (File [] 0 []) 0 uint256_zero_out uint256_zero_out None None (-1) bs bs [] 0) [x_script]
    (Network false (fun n => Z.of_nat n) O (fun _ => CoNow ECONNREFUSED) O)).

(** What is left after the peer ends. *)
Definition left (w : world) : nat * nat * list positive * Z * option positive :=
  (dials (net w), size (peers w), peer_list (pg w), addrbook_get_count (book w), downloadPeer (pg w)).

Lemma peer_destroy_ends_witness : exists w w', r_start = Ok w /\ untried (book w) = 1%nat /\
  peer_destroy 2 1 ECONNREFUSED w = Ok (tt, w') /\ (forall m, (2 <= m)%nat -> peer_destroy m 1 ECONNREFUSED w = Ok (tt, w')) /\
  left w' = (1%nat, O, [], 0, None).
Proof.
  assert (E : match r_start with
    | Ok w => untried (book w) = 1%nat /\ match peer_destroy 2 1 ECONNREFUSED w with Ok (_, w') => left w' = (1%nat, O, [], 0, None) | _ => False end
    | _ => False end) by (vm_compute; exact (conj eq_refl eq_refl)).
  revert E. generalize r_start. intros [w|]; [|intros []]. intros [Hu E]. exists w.
  destruct (peer_destroy 2 1 ECONNREFUSED w) as [[[] w']|] eqn:Ed; [|destruct E]. exists w'.
  split; [reflexivity|]. split; [exact Hu|]. split; [reflexivity|]. split; [|exact E].
  intros m Hm. destruct (peer_destroy_ends (fun _ _ => mret tt) 2 m 1 ECONNREFUSED w) as (_ & -> & _); [rewrite Hu; lia|exact Ed].
Defined.
End refused.
