(* ===== verification/PeerWire.v ===== *)
(** * From the bytes of a socket to the handler of a message

    A message that is put on the wire as the program itself does it reaches its
    handler once, whole, however the system cuts it. Some messages stop the
    program. *)
From Stdlib Require Import Strings.String.
From S2P Require Export PeerMsg PeerEnds.

Section wire.
Context `{Malloc} `{Sha256} `{T : Table positive} `{W : !PgWallet}.
Variables (fuel : nat) (p : positive).
Implicit Types w : world.

(** The socket wakes the program up again and again, each time with some reads. *)
Fixpoint feed (wakeups : list (list (list byte))) : ST world unit :=
  match wakeups with
  | [] => mret tt
  | cs :: wakeups => _ ← link_receive_cb fuel p (map RdData cs); feed wakeups
  end.
(** The bytes are cut in any way. *)
Definition cut_of (bs : list byte) (wakeups : list (list (list byte))) : Prop :=
  concat (concat wakeups) = bs /\ Forall (fun cs => cs <> [] /\ Forall (fun c => c <> []) cs) wakeups.

Lemma link_loop_data len (cs : list (list byte)) : forall got, Forall (fun c => c <> []) cs -> Zlen got + Zlen (concat cs) <= len -> cs <> [] ->
  link_loop len got (map RdData cs) =
    Ok (if Zlen got + Zlen (concat cs) =? len then RvAll (got ++ concat cs) else RvMore (got ++ concat cs), []).
Proof.
  induction cs as [|c cs IH]; intros got Hne Hl Hcs; [done|]. inversion_clear Hne as [|? ? Hc Hne']. cbn [concat map link_loop] in *.
  rewrite Zlen_app in *. assert (0 < Zlen c) by (destruct c; [done|zlen; pose_Zlen; lia]). pose proof (Zlen_nonneg (concat cs)).
  rewrite ltb_t, leb_t by lia. cbn [andb mbind res_bind]. destruct cs as [|c' cs].
  - cbn [concat map link_loop] in *. rewrite !app_nil_r in *. change (Zlen []) with 0 in *. rewrite Z.add_0_r in *. by destruct (_ =? len).
  - inversion Hne' as [|? ? Hc' _]; subst. assert (0 < Zlen (concat (c' :: cs))) by (cbn [concat]; zlen; destruct c'; [done|zlen; pose_Zlen; lia]).
    rewrite eqb_f by lia. rewrite IH; [|done|rewrite Zlen_app; lia|done]. rewrite Zlen_app, <- app_assoc. by rewrite Z.add_assoc.
Qed.

(** *** One part of a message *)

Definition put_peer (pe : peer) (w : world) : world := w <| peers := <[p := pe]> (peers w) |>.
Definition rearm (pe : peer) (r : option (Z * list byte)) : peer := pe <| sock := sock pe <| sk_recv := r |> |>.

Lemma on_peer_at f w pe : peers w !! p = Some pe -> on_peer p f w = Ok (tt, put_peer (f pe) w).
Proof. intros Ep. unfold on_peer. by rewrite (obj_load_ok _ _ _ Ep). Qed.
Lemma put_lookup pe w : peers (put_peer pe w) !! p = Some pe.
Proof. apply lookup_insert_eq. Qed.
Lemma put_put pe pe' w : put_peer pe (put_peer pe' w) = put_peer pe w.
Proof. unfold put_peer. cbn. by rewrite insert_insert_eq. Qed.
Lemma peer_load_at {A} (k : peer -> ST world A) w pe : peers w !! p = Some pe -> (peer_load p ≫= k) w = k pe w.
Proof. intros Ep. unfold mbind, st_bind, peer_load. by rewrite (obj_load_ok _ _ _ Ep). Qed.

(** The peer with the bytes where they were to go. *)
Definition stored (bs : list byte) (pe : peer) : peer :=
  let pe := rearm pe None in
  if recvMsgHdr pe then pe <| msgHdr := msg_header_of bs |>
  else pe <| recvBuf := Buff bs (b_len (recvBuf pe)) (b_idx (recvBuf pe)) (b_grow (recvBuf pe)) |>.

Lemma feed_app l1 l2 w : feed (l1 ++ l2) w = (_ ← feed l1; feed l2) w.
Proof.
  revert w. induction l1 as [|cs l1 IH]; intros w; cbn [app feed]; [done|]. unfold mbind at 1 3, st_bind at 1 3.
  unfold mbind, st_bind in *. destruct (link_receive_cb _ _ _ w) as [[r w']|]; [|done]. apply IH.
Qed.

(** However they are cut, the bytes that are waited for are stored, and the
    callback is called once. *)
Lemma feed_part bs (wakeups : list (list (list byte))) : forall len got w pe, peers w !! p = Some pe -> sk_recv (sock pe) = Some (len, got) ->
  cut_of bs wakeups -> wakeups <> [] -> Zlen got + Zlen bs = len ->
  feed wakeups w = peer_receive_cb fuel p (put_peer (stored (got ++ bs) pe) w).
Proof.
  revert bs. induction wakeups as [|cs wakeups IH]; intros bs len got w pe Ep Er [Hc Hf] Hne Hl; [done|].
  inversion_clear Hf as [|? ? [Hcs Hcs'] Hf']. cbn [feed]. unfold link_receive_cb at 1.
  unfold mbind at 1, st_bind at 1. rewrite (peer_load_at _ _ _ Ep), Er. cbn [concat] in Hc. rewrite concat_app in Hc. subst bs.
  rewrite Zlen_app in Hl. pose proof (Zlen_nonneg (concat (concat wakeups))). unfold mbind at 1, st_bind at 1, lift at 1.
  rewrite link_loop_data by (done || lia).
  destruct wakeups as [|cs' wakeups].
  - cbn [concat] in *. rewrite app_nil_r in *. rewrite eqb_t by (zlen; lia). unfold mbind at 1, st_bind at 1, on_link.
    rewrite (on_peer_at _ _ _ Ep). unfold mbind at 1, st_bind at 1, store_received. rewrite (on_peer_at _ _ _ (put_lookup _ _)), put_put.
    unfold mbind, st_bind. cbn [feed]. unfold stored, rearm.
    match goal with |- match match ?m with _ => _ end with _ => _ end = ?m' => change m' with m; by destruct m as [[[] ?]|] end.
  - pose proof Hf' as [[Hcs2 Hcs2'] _]%Forall_cons_1. assert (0 < Zlen (concat (concat (cs' :: wakeups)))).
    { destruct cs' as [|c cs']; [done|]. apply Forall_cons_1 in Hcs2' as [Hcn _]. destruct c; [done|]. cbn. zlen. pose_Zlen. lia. }
    rewrite eqb_f by lia. unfold mbind at 1, st_bind at 1, on_link. rewrite (on_peer_at _ _ _ Ep). cbn [mret st_ret].
    rewrite (IH (concat (concat (cs' :: wakeups))) len (got ++ concat cs) _ _ (put_lookup _ _)); [|done|by split|done|rewrite Zlen_app; lia].
    by rewrite put_put, app_assoc.
Qed.

(** *** A message *)

Lemma msg_header_of_bytes h : u32 (h_magic h) -> length (h_message h) = 12%nat -> u32 (h_payloadLength h) -> length (h_checksum h) = 4%nat ->
  msg_header_of (header_bytes h) = h.
Proof.
  destruct h as [m s n c]. cbn [h_magic h_message h_payloadLength h_checksum]. intros Hm Hs Hn Hc. unfold msg_header_of, header_bytes.
  cbn [h_magic h_message h_payloadLength h_checksum].
  rewrite take_app_length' by (by rewrite length_le_bytes). rewrite drop_app_length' by (by rewrite length_le_bytes).
  rewrite (take_app_length' s) by done. rewrite le_Z_bytes_small by exact Hm.
  rewrite (drop_app_ge _ _ 16) by (rewrite length_le_bytes; lia). rewrite length_le_bytes. rewrite (drop_app_length' s) by (rewrite Hs; done).
  rewrite take_app_length' by (by rewrite length_le_bytes). rewrite le_Z_bytes_small by exact Hn.
  rewrite (drop_app_ge _ _ 20) by (rewrite length_le_bytes; lia). rewrite length_le_bytes.
  rewrite (drop_app_ge s _ _) by (rewrite Hs; lia). rewrite Hs.
  rewrite drop_app_length' by (rewrite length_le_bytes; done). rewrite take_ge by (rewrite Hc; done). done.
Qed.
Lemma header_for_decoded testnet t payload : Zlen payload <= BTC_MSG_MAX_PAYLOAD_LENGTH ->
  let hdr := header_for testnet (btcmsg_type_to_str t) payload in msg_header_of (header_bytes hdr) = hdr.
Proof.
  intros Hl. apply msg_header_of_bytes; cbn; [by destruct testnet|apply length_strncpy|apply wrap32_bound|apply hash4_calc_length].
Qed.

Definition tick (w : world) : world := w <| btc ::= fun b => b <| ticks ::= S |> |>.
Definition now (w : world) : Z := clock (btc w) (ticks (btc w)).

(** The peer waits for a message. *)
Record waiting (pe : peer) : Prop := {
  wt_hdr : recvMsgHdr pe = true; wt_recv : sk_recv (sock pe) = Some (sizeof_msgHdr, []);
  wt_err : sock_err (sock pe) = 0; wt_buf : recvBuf pe = Buff [] 0 0 false }.

(** What a peer that waited is when a message is there, [n] callbacks later. *)
Definition arrived (hdr : btc_msg_header) (payload : list byte) (w : world) (pe : peer) : peer :=
  rearm pe None <| msgHdr := hdr |> <| recvMsgHdr := false |> <| recvBuf := buff_init payload (Zlen payload) |>
    <| last_ts := now (if decide (payload = []) then w else tick w) |>.

(** What becomes of a message. *)
Definition handled (t : btc_msg_type) : ST world unit :=
  _ ← peergroup_recv_stats_inc t;
  res ← dispatch p t;
  if res : bool then peer_destroy fuel p EINVAL else
  _ ← peer_update_timestamp p;
  _ ← on_peer p (fun pe => pe <| recvBuf ::= buff_free_base |> <| recvMsgHdr := true |>);
  link_receive p sizeof_msgHdr.

Lemma callback_starts w pe : peers w !! p = Some pe -> bitc_exiting (btc w) = false -> forall k : ST world unit,
  (_ ← on_peer p (fun pe => pe <| last_ts := now w |>); w ← get; if bitc_exiting (btc w) then mret tt else k) (tick w) =
  k (put_peer (pe <| last_ts := now w |>) (tick w)).
Proof.
  intros Ep Ex k. unfold mbind at 1, st_bind at 1. rewrite (on_peer_at _ _ pe) by done. unfold mbind at 1, st_bind at 1. cbn [get].
  change (bitc_exiting (btc (put_peer _ (tick w)))) with (bitc_exiting (btc w)). by rewrite Ex.
Qed.

(** The payload is the one of the header. *)
Lemma payload_is_handled t payload w pe : Zlen payload <= BTC_MSG_MAX_PAYLOAD_LENGTH -> peers w !! p = Some pe ->
  msgHdr pe = header_for (testnet (btc w)) (btcmsg_type_to_str t) payload -> recvBuf pe = buff_init payload (Zlen payload) ->
  receive_payload fuel p w = handled t w.
Proof.
  intros Hl Ep Eh Eb. unfold receive_payload. rewrite (peer_load_at _ _ _ Ep), Eh, Eb.
  destruct (header_for_valid (testnet (btc w)) (btcmsg_type_to_str t) payload Hl) as (_ & _ & Ev).
  unfold mbind at 1, st_bind at 1, lift. rewrite Ev. cbn [negb]. change (h_message (header_for _ ?m _)) with (strncpy 12 m).
  assert (Et : btcmsg_str_to_type (strncpy 12 (btcmsg_type_to_str t)) = t) by (destruct t; vm_compute; reflexivity). by rewrite Et.
Qed.

Lemma cut_nil wakeups : cut_of [] wakeups -> wakeups = [].
Proof.
  intros [Hc Hf]. destruct wakeups as [|[|c cs] wakeups]; [done|..]; apply Forall_cons_1 in Hf as [[Hne Hcs] _]; [done|].
  apply Forall_cons_1 in Hcs as [Hc' _]. by destruct c.
Qed.
Lemma cut_some bs wakeups : cut_of bs wakeups -> bs <> [] -> wakeups <> [].
Proof. intros [Hc _] Hne ->. by apply Hne. Qed.

Lemma alloc_base_nil : buff_alloc_base false 0 = Buff [] 0 0 false.
Proof. unfold buff_alloc_base. f_equal. by apply nil_length_inv, (malloc_fill_length 0). Qed.

(** The header is there: the payload is waited for, or handled if it is empty. *)
Lemma header_callback t payload w pe : let hdr := header_for (testnet (btc w)) (btcmsg_type_to_str t) payload in
  peers w !! p = Some pe -> recvMsgHdr pe = true -> msgHdr pe = hdr -> sk_recv (sock pe) = None -> sock_err (sock pe) = 0 ->
  recvBuf pe = Buff [] 0 0 false -> bitc_exiting (btc w) = false -> Zlen payload <= BTC_MSG_MAX_PAYLOAD_LENGTH ->
  let pe' := pe <| recvMsgHdr := false |> <| recvBuf := buff_alloc_base false (Zlen payload) |> <| last_ts := now w |> in
  peer_receive_cb fuel p w =
    if decide (payload = []) then receive_payload fuel p (put_peer pe' (tick w))
    else Ok (tt, put_peer (rearm pe' (Some (Zlen payload, []))) (tick w)).
Proof.
  intros hdr Ep Er Eh Es Ee Eb Ex Hl pe'. unfold peer_receive_cb. unfold mbind at 1, st_bind at 1. cbn [time_get].
  change (w <| btc ::= fun b => b <| ticks ::= S |> |>) with (tick w). change (clock (btc w) (ticks (btc w))) with (now w).
  rewrite (callback_starts w pe Ep Ex). rewrite (peer_load_at _ _ _ (put_lookup _ _)).
  change (recvMsgHdr (pe <| last_ts := now w |>)) with (recvMsgHdr pe). rewrite Er.
  destruct (header_for_valid (testnet (btc w)) (btcmsg_type_to_str t) payload Hl) as (Hv & Hn & _). fold hdr in Hv, Hn.
  set (pe1 := pe <| last_ts := now w |>). set (w1 := put_peer pe1 (tick w)).
  assert (Ep1 : peers w1 !! p = Some pe1) by apply put_lookup.
  assert (E : peer_handle_msgheader p w1 = Ok (false, if decide (payload = []) then put_peer pe' (tick w)
    else put_peer (rearm pe' (Some (Zlen payload, []))) (tick w))).
  { unfold peer_handle_msgheader. unfold mbind at 1, st_bind at 1. cbn [get]. rewrite (peer_load_at _ _ _ Ep1).
    change (msgHdr pe1) with (msgHdr pe). change (testnet (btc w1)) with (testnet (btc w)). rewrite Eh, Hv. cbn [negb].
    change (recvBuf pe1) with (recvBuf pe). unfold mbind at 1, st_bind at 1, lift at 1. rewrite Eb. cbn [b_base]. rewrite bool_decide_eq_true_2 by done.
    cbn [ASSERT]. unfold mbind at 1, st_bind at 1. rewrite (on_peer_at _ _ _ Ep1), Hn. unfold w1. rewrite put_put.
    change (recvBuf pe1) with (recvBuf pe). rewrite Eb. cbn [b_grow].
    replace (pe1 <| recvBuf := _ |> <| recvMsgHdr := false |>) with pe' by done. destruct (decide (payload = [])) as [->|Hne]; [done|].
    rewrite ltb_t by (destruct payload; [done|zlen; pose_Zlen; lia]). cbn [when]. unfold link_receive. unfold mbind at 1, st_bind at 1.
    rewrite (peer_load_at _ _ _ (put_lookup _ _)). change (sock pe') with (sock pe). unfold mbind at 1, st_bind at 1, lift at 1. rewrite Ee. cbn [Z.eqb ASSERT].
    unfold mbind at 1, st_bind at 1, lift at 1. rewrite Es, bool_decide_eq_true_2 by done. cbn [ASSERT].
    unfold mbind at 1, st_bind at 1, lift at 1. rewrite ltb_t by (destruct payload; [done|zlen; pose_Zlen; lia]). cbn [ASSERT].
    unfold on_link. rewrite (on_peer_at _ _ _ (put_lookup _ _)), put_put. done. }
  unfold mbind at 1, st_bind at 1. rewrite E. cbv beta iota. destruct (decide (payload = [])) as [->|Hne]; rewrite (peer_load_at _ _ _ (put_lookup _ _)).
  - done.
  - change (buff_maxlen (Some (recvBuf (rearm pe' _)))) with (Zlen payload).
    by rewrite ltb_t by (destruct payload; [done|zlen; pose_Zlen; lia]).
Qed.

(** The payload is there too. *)
Lemma payload_callback t payload w pe : peers w !! p = Some pe -> recvMsgHdr pe = false -> bitc_exiting (btc w) = false ->
  msgHdr pe = header_for (testnet (btc w)) (btcmsg_type_to_str t) payload -> recvBuf pe = buff_init payload (Zlen payload) ->
  Zlen payload <= BTC_MSG_MAX_PAYLOAD_LENGTH ->
  peer_receive_cb fuel p w = handled t (put_peer (pe <| last_ts := now w |>) (tick w)).
Proof.
  intros Ep Er Ex Eh Eb Hl. unfold peer_receive_cb. unfold mbind at 1, st_bind at 1. cbn [time_get].
  change (w <| btc ::= fun b => b <| ticks ::= S |> |>) with (tick w). change (clock (btc w) (ticks (btc w))) with (now w).
  rewrite (callback_starts w pe Ep Ex). rewrite (peer_load_at _ _ _ (put_lookup _ _)).
  change (recvMsgHdr (pe <| last_ts := now w |>)) with (recvMsgHdr pe). rewrite Er.
  by apply (payload_is_handled t payload _ (pe <| last_ts := now w |>)); [|apply put_lookup|..].
Qed.

Lemma tick_put pe w : tick (put_peer pe w) = put_peer pe (tick w).
Proof. done. Qed.

Lemma message_arrives t payload w pe wakeups1 wakeups2 : let hdr := header_for (testnet (btc w)) (btcmsg_type_to_str t) payload in
  peers w !! p = Some pe -> waiting pe -> bitc_exiting (btc w) = false -> Zlen payload <= BTC_MSG_MAX_PAYLOAD_LENGTH ->
  cut_of (header_bytes hdr) wakeups1 -> cut_of payload wakeups2 ->
  feed (wakeups1 ++ wakeups2) w =
    handled t (put_peer (arrived hdr payload w pe) (if decide (payload = []) then tick w else tick (tick w))).
Proof.
  intros hdr Ep [Wh Wr We Wb] Ex Hl C1 C2. rewrite feed_app. unfold mbind at 1, st_bind at 1.
  assert (Hz : Zlen (header_bytes hdr) = sizeof_msgHdr) by apply Zlen_header_for.
  assert (Hne : header_bytes hdr <> []) by (intros E; by rewrite E in Hz).
  rewrite (feed_part (header_bytes hdr) wakeups1 _ _ w pe Ep Wr C1 (cut_some _ _ C1 Hne)) by exact Hz. cbn [app].
  unfold stored. change (recvMsgHdr (rearm pe None)) with (recvMsgHdr pe). rewrite Wh.
  set (pe1 := rearm pe None <| msgHdr := msg_header_of (header_bytes hdr) |>).
  assert (Ed : msg_header_of (header_bytes hdr) = hdr) by by apply header_for_decoded.
  assert (E1 : msgHdr pe1 = hdr) by exact Ed. set (w1 := put_peer pe1 w).
  rewrite (header_callback t payload w1 pe1 (put_lookup _ _) Wh E1 eq_refl We Wb Ex Hl).
  destruct (decide (payload = [])) as [Hp|Hp].
  - rewrite Hp in C2. rewrite (cut_nil _ C2). cbn [feed]. set (w2 := put_peer _ (tick w1)).
    rewrite (payload_is_handled t payload w2 _ Hl (put_lookup _ _)); [|exact E1|rewrite Hp; apply alloc_base_nil].
    assert (Ew : w2 = put_peer (arrived hdr payload w pe) (tick w)).
    { unfold w2, w1. rewrite tick_put, put_put. f_equal. unfold arrived. rewrite (decide_True _ _ Hp), Hp. unfold pe1.
      rewrite Ed. change (Zlen []) with 0. by rewrite alloc_base_nil. }
    rewrite Ew. by destruct (handled t _) as [[[] ?]|].
  - set (pe2 := rearm _ _). set (w2 := put_peer pe2 (tick w1)).
    rewrite (feed_part payload wakeups2 (Zlen payload) [] w2 pe2 (put_lookup _ _) eq_refl C2 (cut_some _ _ C2 Hp) eq_refl). cbn [app].
    rewrite (payload_callback t payload _ _ (put_lookup _ _)); [|done..].
    unfold w2, w1. rewrite !tick_put, !put_put. f_equal. f_equal. unfold arrived. rewrite (decide_False _ _ Hp). unfold pe2, pe1.
    by rewrite Ed.
Qed.

(** C5: a message put on the wire as the program itself puts it is handled as what
    it is: however the system cuts its bytes and spreads them over wake-ups, its
    handler is called once, with its payload in [recvBuf] and its type, and
    nothing else has changed but the clock and the state of the reception. *)
Theorem message_is_handled (t : btc_msg_type) (payload : list byte) (w : world) (pe : peer) (wakeups1 wakeups2 : list (list (list byte))) :
  let hdr := header_for (testnet (btc w)) (btcmsg_type_to_str t) payload in
  peers w !! p = Some pe -> waiting pe -> bitc_exiting (btc w) = false -> Zlen payload <= BTC_MSG_MAX_PAYLOAD_LENGTH ->
  cut_of (header_bytes hdr) wakeups1 -> cut_of payload wakeups2 ->
  feed (wakeups1 ++ wakeups2) w =
    handled t (put_peer (arrived hdr payload w pe) (if decide (payload = []) then tick w else tick (tick w))).
Proof. apply message_arrives. Qed.

(** ** Messages that stop the program *)

(** The parser takes the payload. *)
Definition accepted (t : btc_msg_type) (payload : list byte) : Prop :=
  let b := buff_init payload (Zlen payload) in
  match t with
  | BTC_MSG_BLOCK => exists x b', btcmsg_parse_block (Block zero_blockheader 0 []) b = Ok ((false, x), b')
  | BTC_MSG_CFILTER => exists x b', btcmsg_parse_cfilter b = Ok ((false, x), b')
  | BTC_MSG_CFHEADERS => exists x b', btcmsg_parse_cfheaders b = Ok ((false, x), b')
  | BTC_MSG_CFCHECKPT => exists x b', btcmsg_parse_cfcheckpt b = Ok ((false, x), b')
  | _ => False
  end.

Lemma in_recv_at {A} (m : ST buff A) w pe a b : peers w !! p = Some pe -> m (recvBuf pe) = Ok (a, b) ->
  in_recv p m w = Ok (a, put_peer (pe <| recvBuf := b |>) w).
Proof. intros Ep Em. unfold in_recv. by rewrite (obj_load_ok _ _ _ Ep), bind_ok, Em. Qed.
Lemma assert_state_panics {A} l (k : ST world A) w : state (btc w) ∉ l -> (_ ← assert_state l; k) w = Fault Panic.
Proof.
  intros Hs. unfold assert_state, mbind, st_bind, get, lift, btc_state_is. by rewrite bool_decide_eq_false_2 by done.
Qed.

Lemma early_state (s : bitc_state) : s ∈ [BITC_STATE_STARTING; BITC_STATE_UPDATE_HEADERS] ->
  s ∉ [BITC_STATE_UPDATE_TXDB] /\ s ∉ [BITC_STATE_UPDATE_TXDB; BITC_STATE_READY] /\ bool_decide (s = BITC_STATE_EXITING) = false.
Proof.
  intros [-> | ->%list_elem_of_singleton]%elem_of_cons; (split; [by intros ?%list_elem_of_singleton|]);
    (split; [by intros [?|?%list_elem_of_singleton]%elem_of_cons|done]).
Qed.

Lemma out_of_state t payload w pe : peers w !! p = Some pe -> recvBuf pe = buff_init payload (Zlen payload) -> accepted t payload ->
  state (btc w) ∈ [BITC_STATE_STARTING; BITC_STATE_UPDATE_HEADERS] -> handle_msg p t w = Fault Panic.
Proof.
  intros Ep Eb Ha Hs.
  destruct (early_state _ Hs) as (Hs1 & Hs2 & _).
  destruct t; try done; destruct Ha as (x & b' & Ep'); rewrite <- Eb in Ep'; cbn [handle_msg].
  - unfold peer_handle_block. rewrite (st_bind_Ok _ _ _ _ _ (in_recv_at _ _ _ _ _ Ep Ep')). cbn [negb].
    unfold mbind at 1, st_bind at 1. unfold peergroup_handle_block. by rewrite assert_state_panics.
  - unfold peer_handle_cfilter. rewrite (st_bind_Ok _ _ _ _ _ (in_recv_at _ _ _ _ _ Ep Ep')).
    unfold peergroup_handle_cfilter. by rewrite assert_state_panics.
  - unfold peer_handle_cfheaders. rewrite (st_bind_Ok _ _ _ _ _ (in_recv_at _ _ _ _ _ Ep Ep')).
    unfold peergroup_handle_cfheaders. by rewrite assert_state_panics.
  - unfold peer_handle_cfcheckpt. rewrite (st_bind_Ok _ _ _ _ _ (in_recv_at _ _ _ _ _ Ep Ep')).
    unfold peergroup_handle_cfcheckpt. by rewrite assert_state_panics.
Qed.

(** C9: While the headers are downloaded, one well-formed message of a block, a
    filter, filter headers or checkpoints from any peer whose handshake is over
    stops the program: the handlers assert the state of the program. *)
Theorem message_out_of_state_panics (t : btc_msg_type) (payload : list byte) (w : world) (pe : peer) (wakeups1 wakeups2 : list (list (list byte))) :
  peers w !! p = Some pe -> waiting pe -> got_version pe = true -> got_verack pe = true ->
  state (btc w) ∈ [BITC_STATE_STARTING; BITC_STATE_UPDATE_HEADERS] ->
  Zlen payload <= BTC_MSG_MAX_PAYLOAD_LENGTH -> accepted t payload ->
  cut_of (header_bytes (header_for (testnet (btc w)) (btcmsg_type_to_str t) payload)) wakeups1 -> cut_of payload wakeups2 ->
  feed (wakeups1 ++ wakeups2) w = Fault Panic.
Proof.
  intros Ep Hw Gv Ga Hs Hl Ha C1 C2.
  destruct (early_state _ Hs) as (_ & _ & Ex).
  rewrite (message_arrives t payload w pe wakeups1 wakeups2 Ep Hw Ex Hl C1 C2). set (w1 := put_peer _ _).
  assert (Hs1 : state (btc w1) ∈ [BITC_STATE_STARTING; BITC_STATE_UPDATE_HEADERS]) by (unfold w1; by destruct (decide _)).
  unfold handled. unfold mbind at 1, st_bind at 1. cbn [peergroup_recv_stats_inc on_pg].
  set (w2 := w1 <| pg ::= _ |>). unfold mbind at 1, st_bind at 1. unfold dispatch.
  rewrite (peer_load_at _ w2 _ (put_lookup _ _)). unfold arrived at 1 2. cbn [got_version got_verack rearm set]. rewrite Gv, Ga. cbn [negb orb].
  by rewrite (out_of_state t payload w2 _ (put_lookup _ _) eq_refl Ha Hs1).
Qed.

(** *** A message that is left in [sendBuf] *)

Definition unsent (w w' : world) : Prop :=
  (exists pe b, peers w !! p = Some pe /\ sendBuf pe = Some b) -> exists pe b, peers w' !! p = Some pe /\ sendBuf pe = Some b.
#[local] Instance unsent_preorder : PreOrder unsent.
Proof. split; [by intros x Hx|]. intros x y z. unfold unsent. eauto. Qed.
Lemma unsent_on_peer f : (forall pe, sendBuf (f pe) = sendBuf pe) -> Goes unsent (on_peer p f).
Proof.
  intros Hf w a w'. unfold on_peer, obj_load. destruct (peers w !! p) as [pe|] eqn:Ep; [|done]. intros [= _ <-] (pe' & b & Ep' & Eb).
  simplify_eq. exists (f pe), b. split; [apply lookup_insert_eq|]. by rewrite Hf.
Qed.
Lemma unsent_on_addr pa f : Goes unsent (on_addr pa f).
Proof. intros w a w'. unfold on_addr. destruct (obj_load _ _); [|done]. intros [= _ <-]. exact (fun x => x). Qed.
#[local] Hint Resolve unsent_on_addr : goes.
#[local] Hint Extern 3 (Goes unsent (on_peer _ _)) => (apply unsent_on_peer; reflexivity) : goes.


Lemma st_bind_inv {S A B} (m : ST S A) (k : A -> ST S B) s b s' :
  (m ≫= k) s = Ok (b, s') -> exists a s1, m s = Ok (a, s1) /\ k a s1 = Ok (b, s').
Proof. unfold mbind, st_bind. destruct (m s) as [[a s1]|]; [|done]. eauto. Qed.

Lemma getaddr_unsent w a w' : peer_handle_getaddr p w = Ok (a, w') -> a = false /\ exists pe b, peers w' !! p = Some pe /\ sendBuf pe = Some b.
Proof.
  unfold peer_handle_getaddr. intros (? & ? & _ & E)%st_bind_inv. cbv zeta in E. apply st_bind_inv in E as (addrs & w1 & _ & E).
  apply st_bind_inv in E as (pe & w2 & _ & E). apply st_bind_inv in E as (b & w3 & _ & E). apply st_bind_inv in E as ([] & w4 & E4 & E).
  injection E as <- <-. split; [done|]. unfold on_peer, obj_load in E4. destruct (peers w3 !! p) as [pe3|]; [|done]. injection E4 as <-.
  exists (pe3 <| sendBuf := Some b |>), b. split; [apply lookup_insert_eq|done].
Qed.
Lemma handled_unsent w w' pe : peers w !! p = Some pe -> got_version pe = true -> got_verack pe = true ->
  handled BTC_MSG_GETADDR w = Ok (tt, w') -> exists pe' b, peers w' !! p = Some pe' /\ sendBuf pe' = Some b.
Proof.
  intros Ep Gv Ga. unfold handled. unfold mbind at 1, st_bind at 1. cbn [peergroup_recv_stats_inc on_pg]. set (w1 := w <| pg ::= _ |>).
  intros (res & w2 & E2 & E)%st_bind_inv. unfold dispatch in E2. rewrite (peer_load_at _ w1 pe Ep), Gv, Ga in E2. cbn [negb orb handle_msg] in E2.
  apply getaddr_unsent in E2 as [-> Hu]. revert E Hu.
  assert (Hg : Goes unsent (_ ← peer_update_timestamp p; _ ← on_peer p (fun pe => pe <| recvBuf ::= buff_free_base |> <| recvMsgHdr := true |>);
    link_receive p sizeof_msgHdr)) by (unfold peer_update_timestamp, link_receive, on_link; goes).
  intros E. by apply Hg in E.
Qed.

(** C10: a peer that asks for addresses stops the program at the next announcement
    to it, if no other message is sent to it in between: the answer is made and not
    sent, and what is announced to the peer asserts that there is nothing to send.
    (A message such as a pong takes the place of the answer, and is sent.) *)
Theorem getaddr_then_inv_panics (payload : list byte) (w w' : world) (pe : peer) (wakeups1 wakeups2 : list (list (list byte))) (buf : buff) :
  peers w !! p = Some pe -> waiting pe -> got_version pe = true -> got_verack pe = true -> bitc_exiting (btc w) = false ->
  Zlen payload <= BTC_MSG_MAX_PAYLOAD_LENGTH ->
  cut_of (header_bytes (header_for (testnet (btc w)) (btcmsg_type_to_str BTC_MSG_GETADDR) payload)) wakeups1 -> cut_of payload wakeups2 ->
  feed (wakeups1 ++ wakeups2) w = Ok (tt, w') -> peer_send_inv p buf w' = Fault Panic.
Proof.
  intros Ep Hw Gv Ga Ex Hl C1 C2. rewrite (message_arrives _ payload w pe wakeups1 wakeups2 Ep Hw Ex Hl C1 C2).
  intros (pe' & b & Ep' & Eb)%(handled_unsent _ _ _ (put_lookup _ _)); [|done..].
  unfold peer_send_inv. rewrite (peer_load_at _ _ _ Ep'), Eb. done.
Qed.
End wire.

(** ** An example: a peer that waits, and what it sends *)

Section example.
#[local] Existing Instance zero_malloc.
#[local] Existing Instance toy_sha256.
#[local] Existing Instance toy_pgwallet.

Definition y_peer : peer := rearm x_peer (Some (sizeof_msgHdr, [])).
Definition y_start : res world := w ← r_start; Ok (w <| peers := {[1%positive := y_peer]} |>).

(** The bytes of a message, in three wake-ups and five reads. *)
Definition y_header (t : btc_msg_type) (payload : list byte) : list byte := header_bytes (header_for false (btcmsg_type_to_str t) payload).
Definition y_cuts (t : btc_msg_type) (payload : list byte) : list (list (list byte)) :=
  let h := y_header t payload in [[take 3 h; take 8 (drop 3 h)]; [drop 11 h]].
Definition y_ping : list byte := le_bytes 8 0xfeed.
Definition y_checkpt : list byte := replicate 34 x00.

(** What the peer was sent. *)
Definition sent (w : world) : list (list byte) := match peers w !! 1%positive with Some pe => sk_sent (sock pe) | None => [] end.

Lemma y_ready : exists w, y_start = Ok w /\ peers w !! 1%positive = Some y_peer /\ testnet (btc w) = false /\ state (btc w) = BITC_STATE_UPDATE_HEADERS.
Proof.
  assert (E : match y_start with Ok w => peers w !! 1%positive = Some y_peer /\ testnet (btc w) = false /\ state (btc w) = BITC_STATE_UPDATE_HEADERS
    | _ => False end) by (vm_compute; exact (conj eq_refl (conj eq_refl eq_refl))).
  revert E. generalize y_start. intros [w|]; [|intros []]. intros E. by exists w.
Qed.
Lemma y_waiting : waiting y_peer.
Proof. by split. Qed.
Lemma y_cut t payload : (t, payload) ∈ [(BTC_MSG_PING, y_ping); (BTC_MSG_CFCHECKPT, y_checkpt); (BTC_MSG_GETADDR, [])] ->
  cut_of (y_header t payload) (y_cuts t payload).
Proof.
  assert (H : Forall (fun x => cut_of (y_header x.1 x.2) (y_cuts x.1 x.2)) [(BTC_MSG_PING, y_ping); (BTC_MSG_CFCHECKPT, y_checkpt); (BTC_MSG_GETADDR, [])]).
  { repeat constructor; vm_compute; done. }
  intros Hin. exact (proj1 (Forall_forall _ _) H _ Hin).
Qed.

Lemma message_is_handled_witness : exists w w', y_start = Ok w /\
  feed 2 1 (y_cuts BTC_MSG_PING y_ping ++ [[take 5 y_ping; drop 5 y_ping]]) w = Ok (tt, w') /\ sent w' = [msg_bytes false (str "pong") y_ping].
Proof.
  assert (E : match y_start with
    | Ok w => match handled 2 1 BTC_MSG_PING (put_peer 1 (arrived (header_for false (btcmsg_type_to_str BTC_MSG_PING) y_ping) y_ping w y_peer) (tick (tick w))) with
      | Ok (_, w') => sent w' = [msg_bytes false (str "pong") y_ping] | _ => False end
    | _ => False end) by (vm_compute; reflexivity).
  destruct y_ready as (w & Ew & Ep & Et & Es). rewrite Ew in E. exists w.
  pose proof (message_is_handled 2 1 BTC_MSG_PING y_ping w y_peer (y_cuts BTC_MSG_PING y_ping) [[take 5 y_ping; drop 5 y_ping]] Ep y_waiting) as Hm.
  cbv zeta in Hm. unfold bitc_exiting in Hm. rewrite Et, Es in Hm. rewrite Hm.
  - destruct (decide (y_ping = [])) as [Hd|_]; [discriminate Hd|].
    destruct (handled _ _ _ _) as [[[] w']|]; [|destruct E]. exists w'.
    split; [exact Ew|]. split; [reflexivity|exact E].
  - reflexivity.
  - by vm_compute.
  - apply y_cut. left.
  - split; [by vm_compute|]. repeat constructor; by vm_compute.
Defined.

Lemma message_out_of_state_panics_witness : exists w, y_start = Ok w /\
  feed 2 1 (y_cuts BTC_MSG_CFCHECKPT y_checkpt ++ [[y_checkpt]]) w = Fault Panic.
Proof.
  destruct y_ready as (w & Ew & Ep & Et & Es). exists w. split; [exact Ew|].
  apply (message_out_of_state_panics 2 1 BTC_MSG_CFCHECKPT y_checkpt w y_peer _ _ Ep y_waiting eq_refl eq_refl).
  - rewrite Es. right. left.
  - by vm_compute.
  - eexists _, _. vm_compute. reflexivity.
  - rewrite Et. apply y_cut. right. left.
  - split; [by vm_compute|]. repeat constructor; by vm_compute.
Defined.

Lemma getaddr_then_inv_panics_witness : exists w w', y_start = Ok w /\ feed 2 1 (y_cuts BTC_MSG_GETADDR []) w = Ok (tt, w') /\
  forall buf, peer_send_inv 1 buf w' = Fault Panic.
Proof.
  assert (E : match y_start with Ok w => is_ok (feed 2 1 (y_cuts BTC_MSG_GETADDR []) w) = true | _ => False end) by (vm_compute; reflexivity).
  destruct y_ready as (w & Ew & Ep & Et & Es). rewrite Ew in E. apply is_ok_inv in E as [[[] w'] E]. exists w, w'.
  split; [exact Ew|]. split; [exact E|]. intros buf.
  apply (getaddr_then_inv_panics 2 1 [] w w' y_peer (y_cuts BTC_MSG_GETADDR []) [] buf Ep y_waiting eq_refl eq_refl).
  - unfold bitc_exiting. by rewrite Es.
  - by vm_compute.
  - rewrite Et. apply y_cut. right. right. left.
  - by split.
  - by rewrite app_nil_r.
Defined.
End example.
